(* ===== verification/_CoqProject ===== *)
-Q . S2P
Prelude.v
GoString.v
GoTime.v
Crypto.v
Strconv.v
Json.v
Database.v
Keyring.v
Password.v
Identity.v
GrantPolicy.v
SecurityPolicy.v
Directory.v
IdentityStore.v
Roles.v
Accounts.v
RequestGate.v
SharedState.v
Oversight.v
Messaging.v
JobControl.v
ConfigChange.v
ReleaseControl.v
Approval.v
AuditLog.v
Download.v
DataPolicy.v
Platform.v
Composition.v
SelfService.v
Visits.v
Storage.v
Quarantine.v
GoParse.v
Config.v
Http.v
Bootstrap.v
Siem.v
Mail.v
Archive.v
Scanner.v
