(* ===== verification/Prelude.v ===== *)
(** * Sevoniva Forge: a verification development

    Sevoniva Forge is an administration platform in Go: a Kratos server over
    MySQL or PostgreSQL, with applications under [src/internal/app], their
    domain types under [src/internal/domain], tables and API handlers under
    [src/internal/adapters] and mechanisms under [src/internal/platform].  This
    library models the parts that decide who may do what, what is recorded of
    it and what leaves the platform, and proves what makes them correct.

    ** The parts and how they interact

    The settings are the defaults, a file, the remote configuration and the
    environment, in that order, and the server does not start with some of them
    ([Config]).  A request passes the filters of the HTTP server ([Http]) and the
    gate that authenticates it, looks at its origin and at its permissions
    ([RequestGate]), under the limits kept in the shared cache ([SharedState]).
    A handler ([Platform], [SelfService]) gets a [Principal]: who acts, with
    which roles, permissions, second factor and data scope ([Identity]).  It runs
    an operation of a service and the audit event of it in one transaction
    ([Database]), for critical changes after it has claimed the execution of an
    approval by other people ([Approval]).

    The identity service keeps accounts, sessions and tokens ([Accounts],
    [Password], [SecurityPolicy]), decides who holds which role and what may be
    granted ([Roles], [GrantPolicy]), and keeps the directory from which data
    scopes are computed ([Directory]), all on the tables of [IdentityStore];
    reviews and emergency access are in [Oversight].  Configuration changes,
    releases and jobs have state machines of their own ([ConfigChange],
    [ReleaseControl], [JobControl]).  Secrets are encrypted with keys that rotate
    ([Keyring]).

    Every change is written to the hash-chained log in the transaction of the
    change ([AuditLog]), whose old events are purged into an archive of immutable
    objects ([Archive], over [Storage]).  Messages leave through an outbox and
    take effect once ([Messaging]), among them security events ([Siem]) and mail
    ([Mail]).  Exports of personal data follow the catalog of field policies
    ([DataPolicy]) and are handed out through one-time tickets ([Download]);
    uploads wait in a quarantine ([Quarantine]) for a scan ([Scanner]).

    ** Files

    - [Prelude], [GoString], [GoTime], [GoParse], [Strconv], [Crypto], [Json]:
      Go's errors, slices, integers, [strings], [strconv], [time], [net/url],
      [crypto/sha256], [encoding/base64] and [encoding/json], as far as the code
      uses them; record update, tactics, hint databases and lemmas on lists.
    - [Database]: [platform/database/database.go] ([WithTx], [Rebind]) and the
      effects of a computation, with its rules of reasoning: [keeps] (an
      invariant survives success and every failure), [spec] (and what success
      means) and [reads] (the tables are left alone).
    - [Identity]: [domain/identity/types.go] and [emergency_access.go].
    - [IdentityStore]: the rows of [adapters/repository/identity.go] and the
      queries that the services share.
    - [Password], [SecurityPolicy], [GrantPolicy], [Roles], [Accounts],
      [Directory]: [platform/security/password] and the parts of
      [app/identity/service.go], [temporary_grants.go] and
      [federated_identities.go] with their repository functions.
    - [Bootstrap]: the first start, which seeds the organization, and the menus,
      of the same two files.
    - [Oversight]: [app/identity/access_reviews.go] and [emergency_access.go].
    - [Keyring]: [platform/security/crypto] (provider.go, keyring.go, manager.go).
    - [RequestGate]: [platform/authn], [platform/csrf], [platform/authz] and
      their order in [bootstrap/app.go].
    - [SharedState]: [platform/cache], [ratelimit], [lock], [scheduler] and
      [idempotency].
    - [Messaging]: [platform/reliablemsg], [messageworker] and the rules of
      [messaging/message.go], with the producers of the audit log and of mail.
    - [JobControl], [ConfigChange], [ReleaseControl]: [platform/jobcontrol],
      [platform/configchange] with its service and table,
      [platform/releasecontrol] (the [ReleaseStore] is a class of operations with
      a class of laws, and an instance in memory).
    - [Approval]: [domain/approval], [app/approval] and
      [adapters/repository/approval.go].
    - [AuditLog]: [app/audit] (audit.go and archive.go); the forwarder and the
      archive are classes of operations.
    - [Download], [DataPolicy]: [platform/security/datapolicy] and [masking],
      [app/datapolicy], and their registries and tables.
    - [Platform], [Composition]: the handlers of [adapters/kratosapi], and what
      they make of the components together.
    - [SelfService], [Visits]: [kratosapi/identity.go] and [federated_login.go]
      with [platform/identitysource], and how their calls go on with a history of
      the platform.
    - [Storage], [Quarantine]: [platform/storage].
    - [Config], [Http]: [platform/config] with the start in [bootstrap/app.go];
      [platform/httpserver] and [httpx].
    - [Siem], [Mail], [Archive], [Scanner]: [adapters/auditsink], [mailer] with
      [notificationdelivery] and [app/notification], [auditarchive],
      [malwarescanner].

    ** How the code is modelled

    A Go function that returns a value and an error is a [result]; a sentinel
    error is a name, a formatted one its format and arguments.  Code with
    effects is a computation [M S A] over the state [S] (tables, what a client
    has sent): an environment answers every clock reading and identifier, and may
    fail any statement, so each theorem holds for every clock and every pattern
    of failures.  A SQL statement is the function on the rows that its text
    denotes; the constraints of the migrations (primary and unique keys) are
    checked by the inserts, lengths of columns are not, and strings are compared
    byte by byte.  NULL is [None], or the empty string where the code converts
    one into the other.  An instant is a number of nanoseconds since Go's zero
    time, a [time.Duration] an [int64] whose arithmetic wraps or saturates where
    Go's does.  A Go map is a [gmap]; where the code ranges over one in an
    unspecified order the result modelled does not depend on the order.
    Interleavings are step relations whose steps are the transactions of the
    code, or the reads and the writes of code without a transaction.  A service
    on the other side of a socket is a class: it answers, at each tick, what it
    was sent, and nothing is assumed of its answers unless a theorem says so.

    ** What the theorems show

    - The platform as a whole: every handler that changes something writes the
      event that says so in the same transaction, critical changes claim an
      approval for exactly what they do, each history of requests is in the
      tables of each component a history of that component, so that the theorems
      on the components hold of the platform, and failures are replies of a known
      kind ([Composition], [Visits], [SelfService]).
    - Four eyes: state machines implement their transition tables, terminate and
      keep their bounds; approvals, releases and configuration changes are
      decided by people other than the requester in every interleaving of
      concurrent transactions, and an approved operation runs once ([JobControl],
      [ConfigChange], [ReleaseControl], [Approval]).
    - Access: nothing runs that the gate did not let through ([RequestGate]);
      grants never exceed what the grantor holds ([GrantPolicy]); nobody holds
      two roles that a rule separates and an active administrator remains
      ([Roles]); the department hierarchy stays a forest and the data scope of a
      user is exactly what the roles in force give ([Directory]); guesses are
      limited and an ended session is refused for good ([Accounts]); a review
      covers every role that is in force ([Oversight]).  The first start makes a
      state from which these invariants begin, and the next starts change nothing
      ([Bootstrap]).
    - Records: the audit log verifies after every history of writes and purges,
      and two logs that verify with the same last hash are the same ([AuditLog]:
      the hash function is SHA-256 itself, whose collisions are the only way
      out); what is purged is archived, and the archive keeps what it promised
      ([Archive]); a collector reads out of the stream exactly what happened
      ([Siem]).
    - Messages and shared state: everything in the outbox is published when the
      broker lets it, an event takes effect once ([Messaging]); rate limits, locks
      and reservations hold between processes ([SharedState]).
    - What leaves and enters: exports disclose only governed values, under a
      purpose, an approval and a watermark ([DataPolicy]), and are downloaded at
      most once ([Download]); regulated requests to an object store carry their
      evidence ([Storage]); content is promoted only after a clean verdict about
      this very content ([Quarantine], [Scanner]); mail and credentials travel
      only over verified TLS and no text becomes a header ([Mail]); what was
      encrypted stays readable through rotations ([Keyring]).
    - The edge: production settings that are too weak do not start, the
      environment wins ([Config]); handlers see checked requests only, errors do
      not leak what caused them, the pages of the console keep their content
      security policy and no path leaves their directory ([Http]).
    - Theorems that state a defect of the code, among them:
      [concurrent_rejection_is_lost], [lost_precision_breaks_the_chain],
      [truncation_is_not_detected], [short_identifiers_are_disclosed],
      [a_custom_role_narrows_a_tree], [departments_cannot_be_created_disabled],
      [forged_writes_run], [producers_use_a_reserved_header],
      [a_stalled_worker_reopens_a_message],
      [a_group_gives_a_role_without_approval],
      [config_changes_name_their_approval], [two_promotions_write_twice],
      [promoted_records_expire], [the_first_mode_counts], [profiles_are_lost],
      [a_malformed_variable_loses], [purges_do_not_complete] and
      [a_crash_leaves_no_administrator].

    ** Fuel

    Loops that are not structural are fixpoints on fuel with a proof that the
    fuel given is enough, or that every round consumes what bounds it: the JSON
    parser and the text routines (the length of the text), decimal printing (the
    number itself bounds its digits), the walk up the parents of a department
    (one more than the departments) and the walk down the tree (the own
    departments and all the others), the batches of a purge and of a cleanup (the
    rows), a write to a socket (the bytes that are left, since a write that takes
    none ends it) and the reader of an upload (one round more than its bytes: a
    reader that returns nothing and no error is modelled as one that returned
    something later).

    ** What is not modelled

    Generated code ([api/gen]); the clients of RocketMQ, Nacos, OpenSearch and
    Kafka, whose behaviour is that of their libraries; logging, metrics, traces
    and probes; the reading of secret and certificate files; the SM2 signer, the
    envelope cipher, circuit breakers, licences and feature flags, which nothing
    in the program calls; the construction of the components at start, apart from
    the checks of the settings and the order of the middlewares; handlers that
    only copy what a service lists; the settlement example; the console.
    Third-party libraries are parameters, and so are the parsers of YAML, URLs
    and mail addresses and the TLS and SMTP libraries of Go. *)

From Stdlib Require Export ZArith Lia Bool String Ascii.
From stdpp Require Export base tactics option list gmap strings relations sorting.
#[export] Set Default Goal Selector "!".
Open Scope string_scope.
Open Scope Z_scope.
Open Scope list_scope.

(** ** Errors

    A Go [error] value.  [Sentinel] is a package variable created with
    [errors.New] (compared by identity, so it carries its qualified name),
    [Errorf] an anonymous [errors.New] or [fmt.Errorf] without [%w],
    [Wrapf] a [fmt.Errorf] whose format wraps an error with [%w], [Join] the
    value of [errors.Join].  Formats are kept uninterpreted with their
    arguments, so two messages are equal exactly when they were built from the
    same format and arguments. *)
Inductive farg := FStr (s : string) | FInt (z : Z).

Inductive error :=
| Sentinel (name : string)
| Errorf (format : string) (args : list farg)
| Wrapf (format : string) (args : list farg) (inner : error)
| Join (e1 e2 : error).

#[export] Instance farg_eq_dec : EqDecision farg.
Proof. solve_decision. Defined.
#[export] Instance error_eq_dec : EqDecision error.
Proof. solve_decision. Defined.

(** [errors.Is]: the target is the error itself or one it wraps. *)
Fixpoint errors_Is (e target : error) : bool :=
  bool_decide (e = target) ||
  match e with
  | Wrapf _ _ inner => errors_Is inner target
  | Join e1 e2 => errors_Is e1 target || errors_Is e2 target
  | _ => false
  end.

(** ** Results of fallible functions

    A Go function returning [(A, error)] whose value is the zero value when
    the error is not nil.  Functions that return a meaningful value next to an
    error return a pair with an [option error] instead. *)
Inductive result (A : Type) := Ok (a : A) | Err (e : error).
Arguments Ok {A} a.
Arguments Err {A} e.

#[export] Instance result_ret : MRet result := fun A a => Ok a.
#[export] Instance result_bind : MBind result := fun A B f m =>
  match m with Ok a => f a | Err e => Err e end.
#[export] Instance result_fmap : FMap result := fun A B f m =>
  match m with Ok a => Ok (f a) | Err e => Err e end.

Definition is_ok {A} (r : result A) : bool :=
  match r with Ok _ => true | Err _ => false end.

Lemma result_bind_ok {A B} (m : result A) (f : A -> result B) b :
  m ≫= f = Ok b <-> exists a, m = Ok a /\ f a = Ok b.
Proof.
  destruct m as [a|e]; cbn; split.
  - intros H; exists a; auto.
  - intros (a' & Ha & Hf); congruence.
  - discriminate.
  - intros (a' & Ha & _); discriminate.
Qed.

(** [mapM]-style loops that stop at the first error. *)
Fixpoint result_mapM {A B} (f : A -> result B) (l : list A) : result (list B) :=
  match l with
  | [] => Ok []
  | x :: xs => match f x with
               | Err e => Err e
               | Ok y => match result_mapM f xs with
                         | Err e => Err e
                         | Ok ys => Ok (y :: ys)
                         end
               end
  end.

Lemma result_mapM_ok {A B} (f : A -> result B) l l' :
  result_mapM f l = Ok l' <-> Forall2 (fun x y => f x = Ok y) l l'.
Proof.
  revert l'; induction l as [|x l IH]; intros l'; cbn; split.
  - intros [= <-]; constructor.
  - intros H; inversion H; reflexivity.
  - destruct (f x) as [y|] eqn:E; [|discriminate].
    destruct (result_mapM f l) as [ys|]; [|discriminate].
    intros [= <-]; constructor; [done|]. by apply IH.
  - intros H; inversion H as [|? y ? ys E Hs]; subst.
    rewrite E. apply IH in Hs. by rewrite Hs.
Qed.

(** ** Time

    [time.Time] is an instant: nanoseconds since Go's zero time (January 1,
    year 1, UTC), so [IsZero] is equality with 0 and [UTC] is the identity.
    [time.Duration] is an [int64] count of nanoseconds; [Sub] saturates at its
    bounds, as [Time.Sub] does. *)
Definition Time := Z.
Definition Duration := Z.

Definition maxInt64 : Z := 9223372036854775807.
Definition minInt64 : Z := -9223372036854775808.

Definition zeroTime : Time := 0.
Definition IsZero (t : Time) : bool := t =? 0.
Definition UTC (t : Time) : Time := t.
Definition After (t u : Time) : bool := u <? t.
Definition Before (t u : Time) : bool := t <? u.
Definition timeAdd (t : Time) (d : Duration) : Time := t + d.
Definition timeSub (t u : Time) : Duration :=
  Z.max minInt64 (Z.min maxInt64 (t - u)).

Definition Millisecond : Duration := 1000000.
Definition Second : Duration := 1000000000.
Definition Minute : Duration := 60 * Second.
Definition Hour : Duration := 60 * Minute.

(** Two's-complement wrap-around of a 64-bit [int]. *)
Definition wrap64 (z : Z) : Z := (z + 2 ^ 63) mod 2 ^ 64 - 2 ^ 63.

Lemma wrap64_id z : minInt64 <= z <= maxInt64 -> wrap64 z = z.
Proof.
  unfold wrap64, minInt64, maxInt64; intros H.
  change (2 ^ 63) with 9223372036854775808.
  change (2 ^ 64) with 18446744073709551616.
  rewrite Z.mod_small; lia.
Qed.

Lemma wrap64_range z : minInt64 <= wrap64 z <= maxInt64.
Proof.
  unfold wrap64, minInt64, maxInt64.
  change (2 ^ 63) with 9223372036854775808.
  change (2 ^ 64) with 18446744073709551616.
  pose proof (Z.mod_pos_bound (z + 9223372036854775808) 18446744073709551616).
  lia.
Qed.

(** [len] of a string (its bytes) and of a slice. *)
Definition slen (s : string) : Z := Z.of_nat (String.length s).
Definition llen {A} (l : list A) : Z := Z.of_nat (length l).

Declare Scope go_scope.
Infix "=s" := String.eqb (at level 70, no associativity) : go_scope.
Notation "a <>s b" := (negb (String.eqb a b)) (at level 70, no associativity) : go_scope.
Open Scope go_scope.

(** ** Record update

    [r <| f := v |>] is the record [r] with its field [f] set to [v]: the
    assignment [r.f = v] of the code.  A record declares its [Eta], the
    constructor applied to all its projections; the setter of a field is
    derived from it. *)
Class Eta (R : Type) := eta : R -> R.
Class Setter {R T : Type} (proj : R -> T) := set : (T -> T) -> R -> R.
#[global] Arguments set {R T} proj {_} _ _.

Ltac derive_setter :=
  match goal with
  | |- @Setter ?R ?T ?proj =>
    let e := eval hnf in (@eta R _) in
    match eval pattern proj in e with
    | ?k _ => let t := eval cbv beta in (fun (f : T -> T) => k (fun r => f (proj r))) in exact t
    end
  end.
#[export] Hint Extern 1 (Setter _) => derive_setter : typeclass_instances.

Notation "r <| f := v |>" := (set f (fun _ => v) r)
  (at level 1, left associativity, f constr at level 8, v at level 99,
   format "r  <| f  :=  v |>") : go_scope.

(** ** Automation *)

(** Turn boolean tests of the code into the propositions they decide. *)
Ltac brefl_step :=
  match goal with
  | H : andb _ _ = true |- _ => apply andb_true_iff in H; destruct H
  | H : orb _ _ = false |- _ => apply orb_false_iff in H; destruct H
  | H : negb _ = true |- _ => apply negb_true_iff in H
  | H : negb _ = false |- _ => apply negb_false_iff in H
  | H : String.eqb _ _ = true |- _ => apply String.eqb_eq in H
  | H : String.eqb _ _ = false |- _ => apply String.eqb_neq in H
  | H : Z.ltb _ _ = true |- _ => apply Z.ltb_lt in H
  | H : Z.ltb _ _ = false |- _ => apply Z.ltb_ge in H
  | H : Z.leb _ _ = true |- _ => apply Z.leb_le in H
  | H : Z.leb _ _ = false |- _ => apply Z.leb_gt in H
  | H : Z.gtb _ _ = true |- _ => rewrite Z.gtb_ltb in H
  | H : Z.gtb _ _ = false |- _ => rewrite Z.gtb_ltb in H
  | H : Z.geb _ _ = true |- _ => rewrite Z.geb_leb in H
  | H : Z.geb _ _ = false |- _ => rewrite Z.geb_leb in H
  | H : Z.eqb _ _ = true |- _ => apply Z.eqb_eq in H
  | H : Z.eqb _ _ = false |- _ => apply Z.eqb_neq in H
  | H : bool_decide _ = true |- _ => apply bool_decide_eq_true in H
  | H : bool_decide _ = false |- _ => apply bool_decide_eq_false in H
  | H : IsZero _ = true |- _ => unfold IsZero in H
  | H : IsZero _ = false |- _ => unfold IsZero in H
  | H : After _ _ = true |- _ => unfold After in H
  | H : After _ _ = false |- _ => unfold After in H
  | H : Before _ _ = true |- _ => unfold Before in H
  | H : Before _ _ = false |- _ => unfold Before in H
  end.
Ltac breflect := repeat brefl_step.

(** The disjuncts of a guard that holds and the ways a conjunction fails. *)
Ltac orsplit :=
  repeat first
    [ match goal with
      | H : orb _ _ = true |- _ => apply orb_true_iff in H as [H|H]
      | H : andb _ _ = false |- _ => apply andb_false_iff in H as [H|H]
      end
    | brefl_step ].

(** Case analysis on the guards of a hypothesis, closing the branches whose
    result contradicts it. *)
Ltac guards H :=
  repeat match type of H with
  | context [if ?b then _ else _] => destruct b eqn:?; try discriminate H
  end.

(** Case analysis on every scrutinee of a hypothesis, in order. *)
Ltac cases H :=
  repeat match type of H with
  | context [match ?b with _ => _ end] => destruct b eqn:?; try discriminate H
  end.

(** Case analysis on the guards of the goal. *)
Ltac goal_guards :=
  repeat match goal with
  | |- context [if ?b then _ else _] => destruct b eqn:?
  end.

(** Rewrite the goal's string, order and equality tests that hypotheses decide. *)
Lemma seqb_refl s : (s =s s) = true.
Proof. apply String.eqb_refl. Qed.

Lemma seqb_neq s t : s <> t -> (s =s t) = false.
Proof. apply String.eqb_neq. Qed.

Lemma seqb_true s t : (s =s t) = true <-> s = t.
Proof. apply String.eqb_eq. Qed.

(** Evaluate the string comparisons between constants. *)
Ltac is_constant a :=
  match a with
  | String _ _ => idtac
  | EmptyString => idtac
  | _ => is_const a; let a' := eval hnf in a in
         match a' with String _ _ => idtac | EmptyString => idtac end
  end.
Ltac eval_strings :=
  repeat match goal with
  | |- context [String.eqb ?a ?b] =>
    is_constant a; is_constant b;
    match eval vm_compute in (String.eqb a b) with
    | true => change (String.eqb a b) with true
    | false => change (String.eqb a b) with false
    end
  | H : context [String.eqb ?a ?b] |- _ =>
    is_constant a; is_constant b;
    match eval vm_compute in (String.eqb a b) with
    | true => change (String.eqb a b) with true in H
    | false => change (String.eqb a b) with false in H
    end
  end; cbn [andb orb negb] in *.

(** Split the disjunctions and membership facts of the context. *)
Ltac split_members :=
  repeat match goal with
  | E : _ ∈ _ :: _ |- _ => apply elem_of_cons in E as [E|E]
  | E : _ ∈ [] |- _ => inversion E
  | E : (_, _) = (_, _) |- _ => injection E as ? ?
  | E : (_, _, _) = (_, _, _) |- _ => injection E as ? ? ?
  | E : _ \/ _ |- _ => destruct E
  end; subst.

(** Rewrite with the equations of the context whose left side is a field or a
    test. *)
Ltac rewrite_tests :=
  repeat match goal with
  | E : ?l = true |- context [?l] => rewrite E
  | E : ?l = false |- context [?l] => rewrite E
  end.

Create HintDb forge.
Create Rewrite HintDb forge_rw.
#[export] Hint Rewrite seqb_refl : forge_rw.
#[export] Hint Resolve seqb_neq : forge.
#[export] Hint Rewrite andb_true_r andb_false_r orb_true_r orb_false_r : forge_rw.

(** ** Lists the components share *)

(** A Go loop that looks for a string in a slice. *)
Fixpoint contains (values : list string) (wanted : string) : bool :=
  match values with
  | [] => false
  | value :: rest => if value =s wanted then true else contains rest wanted
  end.

Lemma contains_spec values wanted : contains values wanted = true <-> wanted ∈ values.
Proof.
  induction values as [|v vs IH]; cbn.
  - split; [discriminate|]. intros H; inversion H.
  - destruct (String.eqb_spec v wanted) as [->|Hne].
    + split; [constructor|done].
    + rewrite IH, elem_of_cons; intuition congruence.
Qed.

Lemma contains_false values wanted : contains values wanted = false <-> wanted ∉ values.
Proof. rewrite <- contains_spec. destruct (contains values wanted); intuition congruence. Qed.

Lemma existsb_false {A} (f : A -> bool) (l : list A) :
  existsb f l = false <-> forall x, x ∈ l -> f x = false.
Proof.
  induction l as [|y l IH]; cbn.
  - split; [|done]. intros _ x Hx; inversion Hx.
  - rewrite orb_false_iff, IH. split.
    + intros [A1 A2] x Hx. apply elem_of_cons in Hx as [->|Hx]; auto.
    + intros H. split; [apply H; constructor|]. intros x Hx. apply H. by constructor.
Qed.

Lemma contains_app l l' s : contains (l ++ l') s = contains l s || contains l' s.
Proof. induction l as [|x l IH]; cbn; [done|]. rewrite IH. by destruct (x =s s). Qed.

(** Keys without duplicates. *)
Lemma NoDup_map_snoc {A B} (f : A -> B) l x :
  NoDup (map f l) -> (forall y, y ∈ l -> f y <> f x) -> NoDup (map f (l ++ [x])).
Proof.
  intros N H. rewrite map_app. apply NoDup_app. split_and!; [done| |apply NoDup_singleton].
  intros y Hy Hs. apply list_elem_of_singleton in Hs as ->.
  apply list_elem_of_In, in_map_iff in Hy as (z & E & Hz). apply (H z); [by apply list_elem_of_In|done].
Qed.

Lemma NoDup_map_eq {A B} (f : A -> B) l x y :
  NoDup (map f l) -> x ∈ l -> y ∈ l -> f x = f y -> x = y.
Proof.
  induction l as [|z l IH]; cbn; intros N Hx Hy E; [by inversion Hx|].
  apply NoDup_cons in N as [N0 N].
  apply elem_of_cons in Hx as [->|Hx]; apply elem_of_cons in Hy as [->|Hy]; auto;
    exfalso; apply N0; apply list_elem_of_In, in_map_iff; eexists;
    (split; [|apply list_elem_of_In; eassumption]); congruence.
Qed.

Lemma NoDup_map_via {A B C} (f : A -> B) (g : A -> C) l :
  NoDup (map f l) -> (forall x y, x ∈ l -> y ∈ l -> g x = g y -> f x = f y) -> NoDup (map g l).
Proof.
  induction l as [|z l IH]; cbn; intros N H; [constructor|]. apply NoDup_cons in N as [N0 N].
  constructor.
  - intros X. apply list_elem_of_In, in_map_iff in X as (y & E & Hy). apply list_elem_of_In in Hy.
    apply N0. rewrite <- (H y z); [|by constructor|constructor|done].
    apply list_elem_of_In, in_map. by apply list_elem_of_In.
  - apply IH; [done|]. intros x y Hx Hy. apply H; by constructor.
Qed.

(** A [map[string]struct{}] built from a slice. *)
Definition set_of (l : list string) : gset string := list_to_set l.

Lemma elem_of_set_of x l : x ∈ set_of l <-> x ∈ l.
Proof. unfold set_of. apply elem_of_list_to_set. Qed.

(** SQL's [count] of the rows that satisfy a condition. *)
Definition count_if {A} (p : A -> bool) (l : list A) : Z := llen (List.filter p l).

Lemma count_if_nonneg {A} (p : A -> bool) l : 0 <= count_if p l.
Proof. unfold count_if, llen; lia. Qed.

Lemma count_if_le {A} (p : A -> bool) l : count_if p l <= llen l.
Proof.
  unfold count_if, llen. pose proof (List.filter_length_le p l). lia.
Qed.

Lemma count_if_cons {A} (p : A -> bool) x l :
  count_if p (x :: l) = (if p x then 1 else 0) + count_if p l.
Proof. unfold count_if, llen; cbn. destruct (p x); cbn [length]; lia. Qed.

Lemma count_if_nil {A} (p : A -> bool) : count_if p [] = 0.
Proof. done. Qed.

Lemma count_if_pos {A} (p : A -> bool) l x : x ∈ l -> p x = true -> 1 <= count_if p l.
Proof.
  induction l as [|y l IH]; intros Hx Px; [inversion Hx|]. rewrite count_if_cons.
  pose proof (count_if_nonneg p l). apply elem_of_cons in Hx as [->|Hx]; [rewrite Px; lia|].
  specialize (IH Hx Px). destruct (p y); lia.
Qed.

Lemma count_if_app {A} (p : A -> bool) l l' : count_if p (l ++ l') = count_if p l + count_if p l'.
Proof.
  induction l as [|x l IH]; [done|]. cbn [app]. rewrite !count_if_cons, IH. lia.
Qed.

Lemma llen_app {A} (l l' : list A) : llen (l ++ l') = llen l + llen l'.
Proof. unfold llen. rewrite length_app. lia. Qed.

Lemma llen_cons {A} (x : A) l : llen (x :: l) = 1 + llen l.
Proof. unfold llen. cbn [length]. lia. Qed.

Lemma llen_nil {A} : llen (@nil A) = 0.
Proof. done. Qed.

Lemma llen_nonneg {A} (l : list A) : 0 <= llen l.
Proof. unfold llen. lia. Qed.

#[export] Hint Rewrite @count_if_nil @count_if_cons @count_if_app @llen_app @llen_cons @llen_nil : forge_rw.
