(* ===== verification/GoString.v ===== *)
(** * Go strings

    The functions of Go's [strings], [unicode], [unicode/utf8] and
    [encoding/hex] packages that the modelled code calls.  A Go [string] is a
    byte sequence, modelled by [string] (a [Strings.ascii] is a byte); a
    [[]byte] is modelled by the same type.

    UTF-8 is decoded with the rules of [utf8.DecodeRune]: an invalid byte is a
    rune [RuneError] of width one.  [ToUpper] and [ToLower] map the ASCII
    letters and the four other runes whose upper or lower case is ASCII (the
    dotless i, the long s, the dotted capital I and the Kelvin sign); the other
    runes are left as they are, which is enough for the code, as it only
    compares the result with ASCII strings. *)

From S2P Require Import Prelude.

Definition byte_val (a : ascii) : Z := Z.of_N (N_of_ascii a).
Definition byte_of (z : Z) : ascii := ascii_of_N (Z.to_N z).

Definition in_range (lo hi z : Z) : bool := (lo <=? z) && (z <=? hi).
Definition is_cont (z : Z) : bool := in_range 128 191 z.

(** A rune with the bytes it was decoded from. *)
Record rune := Rune { rune_val : Z; rune_bytes : string }.

Definition RuneError : Z := 65533.

(** The allowed range of the second byte of a three or four byte sequence. *)
Definition second_ok (b0 b1 : Z) : bool :=
  if b0 =? 224 then in_range 160 191 b1
  else if b0 =? 237 then in_range 128 159 b1
  else if b0 =? 240 then in_range 144 191 b1
  else if b0 =? 244 then in_range 128 143 b1
  else is_cont b1.

(** [for _, r := range s]: the runes of a string with their bytes. *)
Fixpoint runes (s : string) : list rune :=
  match s with
  | EmptyString => []
  | String c0 s1 =>
    let b0 := byte_val c0 in
    let bad (_ : unit) := Rune RuneError (String c0 EmptyString) :: runes s1 in
    if b0 <? 128 then Rune b0 (String c0 EmptyString) :: runes s1
    else if in_range 194 223 b0 then
      match s1 with
      | String c1 s2 =>
        let b1 := byte_val c1 in
        if is_cont b1
        then Rune ((b0 - 192) * 64 + (b1 - 128)) (String c0 (String c1 EmptyString)) :: runes s2
        else bad tt
      | _ => bad tt
      end
    else if in_range 224 239 b0 then
      match s1 with
      | String c1 (String c2 s3) =>
        let b1 := byte_val c1 in let b2 := byte_val c2 in
        if second_ok b0 b1 && is_cont b2
        then Rune ((b0 - 224) * 4096 + (b1 - 128) * 64 + (b2 - 128))
               (String c0 (String c1 (String c2 EmptyString))) :: runes s3
        else bad tt
      | _ => bad tt
      end
    else if in_range 240 244 b0 then
      match s1 with
      | String c1 (String c2 (String c3 s4)) =>
        let b1 := byte_val c1 in let b2 := byte_val c2 in let b3 := byte_val c3 in
        if second_ok b0 b1 && is_cont b2 && is_cont b3
        then Rune ((b0 - 240) * 262144 + (b1 - 128) * 4096 + (b2 - 128) * 64 + (b3 - 128))
               (String c0 (String c1 (String c2 (String c3 EmptyString)))) :: runes s4
        else bad tt
      | _ => bad tt
      end
    else bad tt
  end.

Fixpoint unrunes (rs : list rune) : string :=
  match rs with
  | [] => EmptyString
  | r :: rs => rune_bytes r +:+ unrunes rs
  end.

(** Encoding of a rune, as [utf8.AppendRune] (surrogates and values out of
    range become [RuneError]). *)
Definition encode_rune (r : Z) : string :=
  let r := if (r <? 0) || (1114111 <? r) || in_range 55296 57343 r then RuneError else r in
  if r <? 128 then String (byte_of r) EmptyString
  else if r <? 2048 then
    String (byte_of (192 + r / 64)) (String (byte_of (128 + r mod 64)) EmptyString)
  else if r <? 65536 then
    String (byte_of (224 + r / 4096))
      (String (byte_of (128 + (r / 64) mod 64)) (String (byte_of (128 + r mod 64)) EmptyString))
  else
    String (byte_of (240 + r / 262144))
      (String (byte_of (128 + (r / 4096) mod 64))
        (String (byte_of (128 + (r / 64) mod 64)) (String (byte_of (128 + r mod 64)) EmptyString))).

Definition rune_of (z : Z) : rune := Rune z (encode_rune z).

(** [unicode.IsSpace]. *)
Definition IsSpace (r : Z) : bool :=
  in_range 9 13 r || (r =? 32) || (r =? 133) || (r =? 160) || (r =? 5760) ||
  in_range 8192 8202 r || (r =? 8232) || (r =? 8233) || (r =? 8239) || (r =? 8287) || (r =? 12288).

Fixpoint drop_while {A} (p : A -> bool) (l : list A) : list A :=
  match l with
  | [] => []
  | x :: xs => if p x then drop_while p xs else l
  end.

Definition TrimLeftFunc (f : Z -> bool) (s : string) : string :=
  unrunes (drop_while (fun r => f (rune_val r)) (runes s)).

(** [strings.TrimSpace]. *)
Definition TrimSpace (s : string) : string :=
  unrunes (reverse (drop_while (fun r => IsSpace (rune_val r))
    (reverse (drop_while (fun r => IsSpace (rune_val r)) (runes s))))).

(** [strings.Map]: a rune the mapping leaves alone keeps its bytes, unless it
    is an invalid byte, which becomes the encoding of [RuneError]. *)
Definition map_rune (f : Z -> Z) (r : rune) : rune :=
  let v := f (rune_val r) in
  if (v =? rune_val r) && negb (v =? RuneError) then r else rune_of v.

Definition upper_rune (r : Z) : Z :=
  if in_range 97 122 r then r - 32
  else if r =? 305 then 73 else if r =? 383 then 83 else r.

Definition lower_rune (r : Z) : Z :=
  if in_range 65 90 r then r + 32
  else if r =? 304 then 105 else if r =? 8490 then 107 else r.

Definition ToUpper (s : string) : string := unrunes (map (map_rune upper_rune) (runes s)).
Definition ToLower (s : string) : string := unrunes (map (map_rune lower_rune) (runes s)).

(** [utf8.ValidString]. *)
Definition ValidString (s : string) : bool :=
  forallb (fun r => negb ((rune_val r =? RuneError) && (slen (rune_bytes r) =? 1))) (runes s).

(** [len([]rune(s))]. *)
Definition rune_count (s : string) : Z := llen (runes s).

Fixpoint HasPrefix (s prefix : string) : bool :=
  match prefix, s with
  | EmptyString, _ => true
  | String _ _, EmptyString => false
  | String a p, String b s' => Ascii.eqb a b && HasPrefix s' p
  end.

Fixpoint sdrop (n : nat) (s : string) : string :=
  match n, s with
  | O, _ => s
  | S n, EmptyString => EmptyString
  | S n, String _ s => sdrop n s
  end.

Fixpoint stake (n : nat) (s : string) : string :=
  match n, s with
  | O, _ => EmptyString
  | S n, EmptyString => EmptyString
  | S n, String a s => String a (stake n s)
  end.

Definition TrimPrefix (s prefix : string) : string :=
  if HasPrefix s prefix then sdrop (String.length prefix) s else s.

Definition HasSuffix (s suffix : string) : bool :=
  (String.length suffix <=? String.length s)%nat &&
  (sdrop (String.length s - String.length suffix) s =s suffix).

Definition TrimSuffix (s suffix : string) : string :=
  if HasSuffix s suffix then stake (String.length s - String.length suffix) s else s.

(** [strings.IndexByte], [None] for -1. *)
Fixpoint IndexByte (s : string) (c : ascii) : option nat :=
  match s with
  | EmptyString => None
  | String a s' => if Ascii.eqb a c then Some O else S <$> IndexByte s' c
  end.

(** [strings.ContainsAny] for a set of ASCII characters. *)
Fixpoint ContainsAny (s : string) (chars : string) : bool :=
  match s with
  | EmptyString => false
  | String a s' => match IndexByte chars a with Some _ => true | None => ContainsAny s' chars end
  end.

(** [strings.Repeat]. *)
Fixpoint srepeat (n : nat) (s : string) : string :=
  match n with O => EmptyString | S n => s +:+ srepeat n s end.

(** ** Hexadecimal *)

Definition hex_digit (z : Z) : ascii := byte_of (if z <? 10 then 48 + z else 87 + z).

Definition hex_val (c : ascii) : option Z :=
  let b := byte_val c in
  if in_range 48 57 b then Some (b - 48)
  else if in_range 97 102 b then Some (b - 87)
  else if in_range 65 70 b then Some (b - 55)
  else None.

(** [hex.EncodeToString]. *)
Fixpoint EncodeToString (s : string) : string :=
  match s with
  | EmptyString => EmptyString
  | String a s' =>
    String (hex_digit (byte_val a / 16)) (String (hex_digit (byte_val a mod 16)) (EncodeToString s'))
  end.

(** [hex.DecodeString], [None] for an error (an odd length or a byte that is
    not a hexadecimal digit). *)
Fixpoint DecodeString (s : string) : option string :=
  match s with
  | EmptyString => Some EmptyString
  | String _ EmptyString => None
  | String a (String b s') =>
    match hex_val a, hex_val b with
    | Some x, Some y => String (byte_of (x * 16 + y)) <$> DecodeString s'
    | _, _ => None
    end
  end.

(** ** Decimal *)

Fixpoint dec_digits (fuel : nat) (n : Z) (acc : string) : string :=
  match fuel with
  | O => acc
  | S fuel =>
    let acc := String (byte_of (48 + n mod 10)) acc in
    if n <? 10 then acc else dec_digits fuel (n / 10) acc
  end.

(** [strconv.Itoa] and [strconv.FormatInt(n, 10)]; a number has no more
    decimal than binary digits, which is the fuel. *)
Definition Itoa_nat (n : Z) : string := dec_digits (S (Z.to_nat (Z.log2 n))) n EmptyString.
Definition Itoa (n : Z) : string :=
  if n <? 0 then String "-" (Itoa_nat (- n)) else Itoa_nat n.

(** ** Lemmas *)

Lemma byte_val_range a : 0 <= byte_val a < 256.
Proof.
  unfold byte_val. pose proof (N_ascii_bounded a). lia.
Qed.

Lemma byte_of_val a : byte_of (byte_val a) = a.
Proof. unfold byte_of, byte_val. rewrite N2Z.id. apply ascii_N_embedding. Qed.

Lemma byte_val_of z : 0 <= z < 256 -> byte_val (byte_of z) = z.
Proof.
  intros H. unfold byte_of, byte_val. rewrite N_ascii_embedding; lia.
Qed.

Lemma append_nil t : "" +:+ t = t.
Proof. done. Qed.

Lemma append_cons a s t : String a s +:+ t = String a (s +:+ t).
Proof. done. Qed.

#[export] Hint Rewrite append_nil append_cons : forge_rw.

Lemma append_assoc s t u : (s +:+ t) +:+ u = s +:+ (t +:+ u).
Proof. induction s as [|a s IH]; [done|]. by rewrite !append_cons, IH. Qed.

Lemma append_nil_r s : s +:+ "" = s.
Proof. induction s as [|a s IH]; [done|]. by rewrite append_cons, IH. Qed.

Lemma length_append s t : String.length (s +:+ t) = (String.length s + String.length t)%nat.
Proof. induction s as [|a s IH]; [done|]. rewrite append_cons. cbn. by rewrite IH. Qed.

Lemma slen_append s t : slen (s +:+ t) = slen s + slen t.
Proof. unfold slen. rewrite length_append. lia. Qed.

Lemma slen_nonneg s : 0 <= slen s.
Proof. unfold slen; lia. Qed.

Lemma slen_zero s : slen s = 0 <-> s = "".
Proof. unfold slen; destruct s; cbn; split; intros; (lia || done). Qed.

Lemma append_inv_head s t u : s +:+ t = s +:+ u -> t = u.
Proof. induction s as [|a s IH]; [done|]. rewrite !append_cons. intros [= H]; auto. Qed.

Lemma append_inv_same_length s s' t t' :
  String.length s = String.length s' -> s +:+ t = s' +:+ t' -> s = s' /\ t = t'.
Proof.
  revert s'; induction s as [|a s IH]; intros [|b s']; cbn; intros L H; try discriminate.
  - done.
  - rewrite !append_cons in H. injection H as -> H.
    destruct (IH s') as [-> ->]; [lia|done|done].
Qed.

Lemma stake_length n s : (String.length (stake n s) <= n)%nat.
Proof. revert s; induction n as [|n IH]; intros [|a s]; cbn; try lia. specialize (IH s); lia. Qed.

Lemma stake_sdrop n s : stake n s +:+ sdrop n s = s.
Proof.
  revert s; induction n as [|n IH]; intros [|a s]; cbn [stake sdrop]; [done..|].
  by rewrite append_cons, IH.
Qed.

Lemma HasPrefix_app s p : HasPrefix s p = true <-> exists t, s = p +:+ t.
Proof.
  revert s; induction p as [|a p IH]; intros s; cbn [HasPrefix].
  - destruct s; split; intros; eauto.
  - destruct s as [|b s]; [split; [discriminate|intros (t & Ht); discriminate]|].
    cbn [HasPrefix]. rewrite andb_true_iff, IH. split.
    + intros [E (t & ->)]. apply Ascii.eqb_eq in E as ->. by exists t.
    + intros (t & H). rewrite append_cons in H. injection H as -> ->.
      split; [apply Ascii.eqb_refl|]. by exists t.
Qed.

Lemma EncodeToString_length s : String.length (EncodeToString s) = (2 * String.length s)%nat.
Proof. induction s as [|a s IH]; cbn; [done|]. rewrite IH. cbn. lia. Qed.

Lemma hex_val_digit z : 0 <= z < 16 -> hex_val (hex_digit z) = Some z.
Proof.
  intros H. assert (E : z = 0 \/ z = 1 \/ z = 2 \/ z = 3 \/ z = 4 \/ z = 5 \/ z = 6 \/ z = 7 \/
    z = 8 \/ z = 9 \/ z = 10 \/ z = 11 \/ z = 12 \/ z = 13 \/ z = 14 \/ z = 15) by lia.
  repeat destruct E as [->|E]; subst; reflexivity.
Qed.

(** Decoding inverts encoding. *)
Lemma DecodeString_EncodeToString s : DecodeString (EncodeToString s) = Some s.
Proof.
  induction s as [|a s IH]; cbn; [done|].
  pose proof (byte_val_range a).
  rewrite !hex_val_digit.
  2-3: split; [apply Z.mod_pos_bound || apply Z.div_pos|apply Z.mod_pos_bound || apply Z.div_lt_upper_bound]; lia.
  rewrite IH. cbn.
  replace (byte_val a / 16 * 16 + byte_val a mod 16) with (byte_val a).
  - by rewrite byte_of_val.
  - pose proof (Z.div_mod (byte_val a) 16). lia.
Qed.

Lemma EncodeToString_inj s t : EncodeToString s = EncodeToString t -> s = t.
Proof.
  intros H. apply (f_equal DecodeString) in H.
  rewrite !DecodeString_EncodeToString in H. congruence.
Qed.

Lemma HasPrefix_take s p : HasPrefix (p +:+ s) p = true.
Proof. apply HasPrefix_app. by exists s. Qed.

(** ** Decimal representation *)

Definition digit_char (c : ascii) : bool := in_range 48 57 (byte_val c).
Definition dec_value (s : string) : Z :=
  fold_left (fun v c => 10 * v + (byte_val c - 48)) (list_ascii_of_string s) 0.

Lemma list_ascii_append s t :
  list_ascii_of_string (s +:+ t) = (list_ascii_of_string s ++ list_ascii_of_string t)%list.
Proof. induction s as [|a s IH]; [done|]. rewrite append_cons. cbn. by rewrite IH. Qed.

Lemma digit_byte z : 0 <= z < 10 ->
  digit_char (byte_of (48 + z)) = true /\ byte_val (byte_of (48 + z)) - 48 = z.
Proof.
  intros H. unfold digit_char. rewrite byte_val_of by lia. split; [|lia].
  unfold in_range. apply andb_true_iff. split; apply Z.leb_le; lia.
Qed.

Lemma dec_value_digit z : 0 <= z < 10 ->
  dec_value (String (byte_of (48 + z)) "") = z /\
  Forall (fun c => digit_char c = true) (list_ascii_of_string (String (byte_of (48 + z)) "")).
Proof.
  intros H. destruct (digit_byte z H) as [D1 D2].
  unfold dec_value. cbn [list_ascii_of_string fold_left]. split; [lia|by repeat constructor].
Qed.

Lemma dec_digits_spec fuel n acc :
  0 <= n < 2 ^ Z.of_nat (S fuel) ->
  exists d, dec_digits (S fuel) n acc = d +:+ acc /\ dec_value d = n /\ d <> "" /\
    Forall (fun c => digit_char c = true) (list_ascii_of_string d).
Proof.
  revert n acc. induction fuel as [|fuel IH]; intros n acc H; cbn [dec_digits];
    pose proof (Z.mod_pos_bound n 10 ltac:(lia)) as Mb;
    destruct (digit_byte (n mod 10) Mb) as [D1 D2].
  - change (2 ^ Z.of_nat 1) with 2 in H. replace (n <? 10) with true by (symmetry; apply Z.ltb_lt; lia).
    exists (String (byte_of (48 + n mod 10)) ""). rewrite Z.mod_small in * by lia.
    destruct (dec_value_digit n ltac:(lia)). split; [reflexivity|]. done.
  - destruct (Z.ltb_spec n 10) as [L|L].
    + exists (String (byte_of (48 + n mod 10)) ""). rewrite Z.mod_small in * by lia.
      destruct (dec_value_digit n ltac:(lia)). split; [reflexivity|]. done.
    + rewrite Nat2Z.inj_succ, Z.pow_succ_r in H by lia.
      pose proof (Z.div_mod n 10 ltac:(lia)) as Dm.
      destruct (IH (n / 10) (String (byte_of (48 + n mod 10)) acc)) as (d & E & V & Ne & F).
      { split; [apply Z.div_pos; lia|]. lia. }
      exists (d +:+ String (byte_of (48 + n mod 10)) ""). split_and!.
      * change (if n / 10 <? 10 then _ else _) with
          (dec_digits (S fuel) (n / 10) (String (byte_of (48 + n mod 10)) acc)).
        rewrite E. by rewrite append_assoc.
      * unfold dec_value in *. rewrite list_ascii_append, fold_left_app, V.
        cbn [fold_left list_ascii_of_string]. lia.
      * destruct d; [done|discriminate].
      * rewrite list_ascii_append, Forall_app. split; [done|]. by repeat constructor.
Qed.

Lemma Itoa_spec n : 0 <= n ->
  dec_value (Itoa n) = n /\ Forall (fun c => digit_char c = true) (list_ascii_of_string (Itoa n)).
Proof.
  intros H. unfold Itoa. replace (n <? 0) with false by (symmetry; apply Z.ltb_ge; lia).
  unfold Itoa_nat. destruct (dec_digits_spec (Z.to_nat (Z.log2 n)) n "") as (d & -> & V & _ & F).
  - split; [done|]. rewrite Nat2Z.inj_succ, Z2Nat.id by apply Z.log2_nonneg.
    destruct (Z.eq_dec n 0) as [->|]; [reflexivity|]. apply Z.log2_spec. lia.
  - by rewrite append_nil_r.
Qed.

Lemma Itoa_inj m n : 0 <= m -> 0 <= n -> Itoa m = Itoa n -> m = n.
Proof.
  intros Hm Hn E. destruct (Itoa_spec m Hm) as [<- _]. destruct (Itoa_spec n Hn) as [<- _].
  by rewrite E.
Qed.

(** A string of digits ends where the first other byte begins. *)
Lemma digits_split d d' c s t :
  Forall (fun x => digit_char x = true) (list_ascii_of_string d) ->
  Forall (fun x => digit_char x = true) (list_ascii_of_string d') ->
  digit_char c = false -> d +:+ String c s = d' +:+ String c t -> d = d' /\ s = t.
Proof.
  intros F F' C. revert d' F'. induction d as [|a d IH]; intros [|b d'] F' E;
    rewrite ?append_nil, ?append_cons in E.
  - by injection E as ->.
  - injection E as -> _. cbn in F'. apply Forall_cons in F' as [F' _]. congruence.
  - injection E as <- _. cbn in F. apply Forall_cons in F as [F _]. congruence.
  - injection E as -> E. cbn in F, F'. apply Forall_cons in F as [_ F]. apply Forall_cons in F' as [_ F'].
    destruct (IH F d' F' E) as [-> ->]. done.
Qed.

(** Lower case leaves a byte that is not an upper-case letter. *)
Lemma ToLower_cons c s :
  byte_val c < 128 -> in_range 65 90 (byte_val c) = false -> ToLower (String c s) = String c (ToLower s).
Proof.
  intros L U. unfold ToLower. cbn [runes].
  replace (byte_val c <? 128) with true by (symmetry; by apply Z.ltb_lt). cbn [map unrunes].
  assert (F : map_rune lower_rune (Rune (byte_val c) (String c "")) = Rune (byte_val c) (String c "")).
  { unfold map_rune, lower_rune. cbn [rune_val]. rewrite U.
    replace (byte_val c =? 304) with false by (symmetry; apply Z.eqb_neq; lia).
    replace (byte_val c =? 8490) with false by (symmetry; apply Z.eqb_neq; lia).
    rewrite Z.eqb_refl. unfold RuneError.
    by replace (byte_val c =? 65533) with false by (symmetry; apply Z.eqb_neq; lia). }
  rewrite F. done.
Qed.

Lemma hex_digit_lower z : 0 <= z < 16 ->
  byte_val (hex_digit z) < 128 /\ in_range 65 90 (byte_val (hex_digit z)) = false.
Proof.
  intros H. unfold hex_digit, in_range. destruct (Z.ltb_spec z 10);
    rewrite byte_val_of by lia; (split; [lia|]); apply andb_false_iff.
  - left. apply Z.leb_gt. lia.
  - right. apply Z.leb_gt. lia.
Qed.

Lemma ToLower_hex s : ToLower (EncodeToString s) = EncodeToString s.
Proof.
  induction s as [|c s IH]; [done|]. cbn [EncodeToString]. pose proof (byte_val_range c).
  rewrite !ToLower_cons, IH; [done|apply hex_digit_lower..].
  all: pose proof (Z.mod_pos_bound (byte_val c) 16); pose proof (Z.div_pos (byte_val c) 16);
    pose proof (Z.div_lt_upper_bound (byte_val c) 16 16); lia.
Qed.

(** ** Trimming twice *)

(** One step of the decoding: the first rune and what follows it. *)
Definition decode_step (c0 : ascii) (s1 : string) : rune * string :=
  let b0 := byte_val c0 in
  let bad := (Rune RuneError (String c0 EmptyString), s1) in
  if b0 <? 128 then (Rune b0 (String c0 EmptyString), s1)
  else if in_range 194 223 b0 then
    match s1 with
    | String c1 s2 =>
      if is_cont (byte_val c1)
      then (Rune ((b0 - 192) * 64 + (byte_val c1 - 128)) (String c0 (String c1 EmptyString)), s2)
      else bad
    | _ => bad
    end
  else if in_range 224 239 b0 then
    match s1 with
    | String c1 (String c2 s3) =>
      if second_ok b0 (byte_val c1) && is_cont (byte_val c2)
      then (Rune ((b0 - 224) * 4096 + (byte_val c1 - 128) * 64 + (byte_val c2 - 128))
             (String c0 (String c1 (String c2 EmptyString))), s3)
      else bad
    | _ => bad
    end
  else if in_range 240 244 b0 then
    match s1 with
    | String c1 (String c2 (String c3 s4)) =>
      if second_ok b0 (byte_val c1) && is_cont (byte_val c2) && is_cont (byte_val c3)
      then (Rune ((b0 - 240) * 262144 + (byte_val c1 - 128) * 4096 + (byte_val c2 - 128) * 64 + (byte_val c3 - 128))
             (String c0 (String c1 (String c2 (String c3 EmptyString)))), s4)
      else bad
    | _ => bad
    end
  else bad.

Lemma runes_step c s :
  runes (String c s) = fst (decode_step c s) :: runes (snd (decode_step c s)).
Proof.
  unfold decode_step. cbn [runes].
  destruct (byte_val c <? 128); [done|]. destruct (in_range 194 223 (byte_val c)).
  { destruct s as [|c1 s]; [done|]. by destruct (is_cont (byte_val c1)). }
  destruct (in_range 224 239 (byte_val c)).
  { destruct s as [|c1 [|c2 s]]; try done. by destruct (second_ok _ _ && _). }
  destruct (in_range 240 244 (byte_val c)); [|done].
  destruct s as [|c1 [|c2 [|c3 s]]]; try done. by destruct (second_ok _ _ && _ && _).
Qed.

(** The step splits the string, and it decides the same when the string is cut
    after the rune. *)
Lemma decode_step_spec c s :
  String c s = rune_bytes (fst (decode_step c s)) +:+ snd (decode_step c s) /\
  (exists t, rune_bytes (fst (decode_step c s)) = String c t) /\
  (String.length (snd (decode_step c s)) <= String.length s)%nat.
Proof.
  unfold decode_step.
  destruct (byte_val c <? 128); [split_and!; [done|by eexists|done]|]. destruct (in_range 194 223 (byte_val c)).
  { destruct s as [|c1 s]; [|destruct (is_cont (byte_val c1))]; (split_and!; [done|by eexists|cbn; lia]). }
  destruct (in_range 224 239 (byte_val c)).
  { destruct s as [|c1 [|c2 s]]; [| |destruct (second_ok _ _ && _)]; (split_and!; [done|by eexists|cbn; lia]). }
  destruct (in_range 240 244 (byte_val c)); [|split_and!; [done|by eexists|cbn; lia]].
  destruct s as [|c1 [|c2 [|c3 s]]]; [| | |destruct (second_ok _ _ && _ && _)];
    (split_and!; [done|by eexists|cbn; lia]).
Qed.

Lemma decode_step_cut c s x y t :
  snd (decode_step c s) = x +:+ y -> rune_bytes (fst (decode_step c s)) = String c t ->
  decode_step c (t +:+ x) = (fst (decode_step c s), x).
Proof.
  unfold decode_step.
  destruct (byte_val c <? 128); [cbn; intros _ [= <-]; by rewrite append_nil|].
  destruct (in_range 194 223 (byte_val c)).
  { destruct s as [|c1 s]; cbn [fst snd].
    - destruct x; [|discriminate]. by intros _ [= <-].
    - destruct (is_cont (byte_val c1)) eqn:E; cbn [fst snd rune_bytes].
      + intros _ [= <-]. rewrite append_cons, append_nil, E. done.
      + intros H [= <-]. rewrite append_nil. destruct x as [|d x]; [done|].
        rewrite append_cons in H. injection H as -> _. by rewrite E. }
  destruct (in_range 224 239 (byte_val c)).
  { destruct s as [|c1 [|c2 s]]; cbn [fst snd].
    - destruct x; [|discriminate]. by intros _ [= <-].
    - intros H [= <-]. rewrite append_nil. destruct x as [|d [|e x]]; [done..|].
      by rewrite !append_cons in H.
    - destruct (second_ok _ _ && _) eqn:E; cbn [fst snd rune_bytes].
      + intros _ [= <-]. rewrite !append_cons, append_nil, E. done.
      + intros H [= <-]. rewrite append_nil. destruct x as [|d [|e x]]; [done..|].
        rewrite !append_cons in H. injection H as -> -> _. by rewrite E. }
  destruct (in_range 240 244 (byte_val c)).
  2: { cbn. intros _ [= <-]. by rewrite append_nil. }
  destruct s as [|c1 [|c2 [|c3 s]]]; cbn [fst snd].
  - destruct x; [|discriminate]. by intros _ [= <-].
  - intros H [= <-]. rewrite append_nil. destruct x as [|d [|e [|f x]]]; [done..|]. by rewrite !append_cons in H.
  - intros H [= <-]. rewrite append_nil. destruct x as [|d [|e [|f x]]]; [done..|]. by rewrite !append_cons in H.
  - destruct (second_ok _ _ && _ && _) eqn:E; cbn [fst snd rune_bytes].
    + intros _ [= <-]. rewrite !append_cons, append_nil, E. done.
    + intros H [= <-]. rewrite append_nil. destruct x as [|d [|e [|f x]]]; [done..|].
      rewrite !append_cons in H. injection H as -> -> -> _. by rewrite E.
Qed.

(** A segment of the runes of a string decodes to itself. *)
Lemma runes_segment n s l1 l2 l3 :
  (String.length s <= n)%nat -> runes s = (l1 ++ l2 ++ l3)%list ->
  runes (unrunes l2) = l2 /\ exists y, s = unrunes l1 +:+ unrunes l2 +:+ y.
Proof.
  revert s l1 l2. induction n as [|n IH]; intros s l1 l2 L E.
  - destruct s; [|cbn in L; lia]. cbn in E. symmetry in E. apply app_eq_nil in E as [-> E].
    apply app_eq_nil in E as [-> ->]. split; [done|]. by exists "".
  - destruct s as [|c s].
    { cbn in E. symmetry in E. apply app_eq_nil in E as [-> E].
      apply app_eq_nil in E as [-> ->]. split; [done|]. by exists "". }
    rewrite runes_step in E. destruct (decode_step_spec c s) as (S1 & (t & S2) & S3). cbn in L.
    destruct l1 as [|r l1].
    + destruct l2 as [|r l2]; [split; [done|]; by exists (String c s)|].
      cbn [app] in E. injection E as Er E.
      destruct (IH (snd (decode_step c s)) [] l2) as (R & y & Y); [lia|done|]. cbn [unrunes] in *.
      rewrite append_nil in Y. rewrite <- Er. split.
      * rewrite S2, append_cons, runes_step.
        rewrite (decode_step_cut c s (unrunes l2) y t) by done. cbn. by rewrite R.
      * exists y. rewrite append_nil, append_assoc, <- Y. done.
    + cbn [app] in E. injection E as Er E.
      destruct (IH (snd (decode_step c s)) l1 l2) as (R & y & Y); [lia|done|].
      split; [done|]. exists y. cbn [unrunes]. rewrite <- Er, append_assoc, <- Y. done.
Qed.

Lemma unrunes_runes s : unrunes (runes s) = s.
Proof.
  induction s as [s IH] using (induction_ltof1 _ String.length). destruct s as [|c s]; [done|].
  rewrite runes_step. cbn [unrunes]. destruct (decode_step_spec c s) as (S1 & _ & S3).
  rewrite IH by (unfold ltof; cbn; lia). done.
Qed.

Lemma drop_while_suffix {A} (p : A -> bool) l : exists l1, l = (l1 ++ drop_while p l)%list.
Proof.
  induction l as [|x l [l1 IH]]; [by exists []|]. cbn. destruct (p x); [|by exists []].
  exists (x :: l1). cbn. by f_equal.
Qed.

Lemma drop_while_first {A} (p : A -> bool) l :
  drop_while p l = [] \/ exists x l', drop_while p l = x :: l' /\ p x = false.
Proof.
  induction l as [|x l IH]; [by left|]. cbn. destruct (p x) eqn:E; [done|]. right. eauto.
Qed.

Definition is_space_rune (r : rune) : bool := IsSpace (rune_val r).
Definition trim_runes (l : list rune) : list rune :=
  reverse (drop_while is_space_rune (reverse (drop_while is_space_rune l))).

Lemma trim_runes_segment l : exists l1 l3, l = (l1 ++ trim_runes l ++ l3)%list.
Proof.
  unfold trim_runes. destruct (drop_while_suffix is_space_rune l) as [l1 E1].
  destruct (drop_while_suffix is_space_rune (reverse (drop_while is_space_rune l))) as [l3 E3].
  exists l1, (reverse l3). rewrite <- reverse_app, <- E3, reverse_involutive. done.
Qed.

Lemma drop_while_none {A} (p : A -> bool) l :
  match l with x :: _ => p x = false | [] => True end -> drop_while p l = l.
Proof. destruct l as [|x l]; [done|]. cbn. by intros ->. Qed.

Lemma trim_runes_idem l : trim_runes (trim_runes l) = trim_runes l.
Proof.
  unfold trim_runes at 1. set (m := drop_while is_space_rune l).
  destruct (drop_while_suffix is_space_rune (reverse m)) as [l3 E3].
  assert (Em : m = (trim_runes l ++ reverse l3)%list).
  { unfold trim_runes. fold m. rewrite <- reverse_app, <- E3, reverse_involutive. done. }
  rewrite (drop_while_none _ (trim_runes l)).
  - rewrite drop_while_none; [by rewrite reverse_involutive|]. unfold trim_runes. fold m.
    rewrite reverse_involutive. destruct (drop_while_first is_space_rune (reverse m)) as [->|(x & l' & -> & H)]; done.
  - destruct (trim_runes l) as [|x l']; [done|]. cbn in Em. unfold m in Em.
    destruct (drop_while_first is_space_rune l) as [E|(y & l'' & E & H)]; rewrite E in Em; [discriminate|].
    by injection Em as -> _.
Qed.

Lemma runes_TrimSpace s : runes (TrimSpace s) = trim_runes (runes s).
Proof.
  destruct (trim_runes_segment (runes s)) as (l1 & l3 & E).
  change (TrimSpace s) with (unrunes (trim_runes (runes s))).
  by eapply runes_segment.
Qed.

Lemma TrimSpace_idem s : TrimSpace (TrimSpace s) = TrimSpace s.
Proof.
  change (unrunes (trim_runes (runes (TrimSpace s))) = TrimSpace s).
  by rewrite runes_TrimSpace, trim_runes_idem.
Qed.

(** The functions of the packages stay folded in proofs about the code. *)
#[global] Arguments TrimSpace : simpl never.
#[global] Arguments TrimLeftFunc : simpl never.
#[global] Arguments ToLower : simpl never.
#[global] Arguments ToUpper : simpl never.
#[global] Arguments Itoa : simpl never.
