(* ===== verification/GoTime.v ===== *)
(** * Formatting of instants

    [time.Time.Format(time.RFC3339Nano)] in UTC, for instants from the year 1
    on: the Gregorian calendar on the day count since January 1 of the year 1,
    and the fraction of the second without trailing zeros. *)

From S2P Require Import Prelude GoString.

Definition is_leap (y : Z) : bool :=
  (y mod 4 =? 0) && (negb (y mod 100 =? 0) || (y mod 400 =? 0)).

(** Days since 0001-01-01 to the year and the day of the year, both from 0. *)
Definition year_day (days : Z) : Z * Z :=
  let n400 := days / 146097 in let d := days mod 146097 in
  let n100 := Z.min 3 (d / 36524) in let d := d - n100 * 36524 in
  let n4 := d / 1461 in let d := d mod 1461 in
  let n1 := Z.min 3 (d / 365) in let d := d - n1 * 365 in
  (400 * n400 + 100 * n100 + 4 * n4 + n1, d).

Fixpoint month_day (months : list Z) (m d : Z) : Z * Z :=
  match months with
  | [] => (m, d)
  | len :: rest => if d <? len then (m, d) else month_day rest (m + 1) (d - len)
  end.

Definition month_lengths (y : Z) : list Z :=
  [31; if is_leap y then 29 else 28; 31; 30; 31; 30; 31; 31; 30; 31; 30; 31].

(** Decimal digits padded with zeros to a width. *)
Definition pad (width : nat) (n : Z) : string :=
  let s := Itoa n in srepeat (width - String.length s) "0" +:+ s.

Fixpoint trim_zeros (rs : list ascii) : list ascii :=
  match rs with
  | c :: rest => if Ascii.eqb c "0" then trim_zeros rest else rs
  | [] => []
  end.

(** [.999999999]: nothing for a whole second. *)
Definition fraction (ns : Z) : string :=
  if ns =? 0 then ""
  else String "." (string_of_list_ascii (rev (trim_zeros (rev (list_ascii_of_string (pad 9 ns)))))).

Definition RFC3339Nano (t : Time) : string :=
  let secs := t / Second in let ns := t mod Second in
  let days := secs / 86400 in let s := secs mod 86400 in
  let '(y, yd) := year_day days in
  let '(m, d) := month_day (month_lengths (y + 1)) 1 yd in
  pad 4 (y + 1) +:+ String "-" (pad 2 m +:+ String "-" (pad 2 (d + 1) +:+ String "T"
    (pad 2 (s / 3600) +:+ String ":" (pad 2 (s / 60 mod 60) +:+ String ":" (pad 2 (s mod 60) +:+
    fraction ns +:+ "Z"))))).

(** The Unix epoch. *)
Definition unixEpoch : Time := 62135596800 * Second.

Example format_epoch : RFC3339Nano unixEpoch = "1970-01-01T00:00:00Z".
Proof. vm_compute. reflexivity. Qed.
Example format_fraction :
  RFC3339Nano (unixEpoch + 1709210096 * Second + 120000000) = "2024-02-29T12:34:56.12Z".
Proof. vm_compute. reflexivity. Qed.
Example format_nano : RFC3339Nano 1 = "0001-01-01T00:00:00.000000001Z".
Proof. vm_compute. reflexivity. Qed.
Example format_end_of_cycle : RFC3339Nano (146096 * 86400 * Second) = "0400-12-31T00:00:00Z".
Proof. vm_compute. reflexivity. Qed.
