(* ===== verification/Crypto.v ===== *)
(** * Digests and encodings of the Go standard library

    [crypto/sha256] (FIPS 180-4), [crypto/hmac] over it, [encoding/base64]
    (standard alphabet, with and without padding, and the URL alphabet) and
    the parts of [encoding/json] the code calls are executable definitions, so
    that digests can be computed on concrete inputs.  This file has the first
    three; [Json.v] has the last. *)

From S2P Require Import Prelude GoString.

(** ** SHA-256 *)

Definition word (z : Z) : Z := Z.land z 4294967295.
Definition rotr (n x : Z) : Z := Z.lor (Z.shiftr x n) (word (Z.shiftl x (32 - n))).
Definition add32 (x y : Z) : Z := word (x + y).

Definition sha_k : list Z :=
  [1116352408; 1899447441; 3049323471; 3921009573; 961987163; 1508970993; 2453635748; 2870763221;
   3624381080; 310598401; 607225278; 1426881987; 1925078388; 2162078206; 2614888103; 3248222580;
   3835390401; 4022224774; 264347078; 604807628; 770255983; 1249150122; 1555081692; 1996064986;
   2554220882; 2821834349; 2952996808; 3210313671; 3336571891; 3584528711; 113926993; 338241895;
   666307205; 773529912; 1294757372; 1396182291; 1695183700; 1986661051; 2177026350; 2456956037;
   2730485921; 2820302411; 3259730800; 3345764771; 3516065817; 3600352804; 4094571909; 275423344;
   430227734; 506948616; 659060556; 883997877; 958139571; 1322822218; 1537002063; 1747873779;
   1955562222; 2024104815; 2227730452; 2361852424; 2428436474; 2756734187; 3204031479; 3329325298].

Definition sha_init : list Z :=
  [1779033703; 3144134277; 1013904242; 2773480762; 1359893119; 2600822924; 528734635; 1541459225].

Definition string_bytes (s : string) : list Z := map byte_val (list_ascii_of_string s).
Definition bytes_string (l : list Z) : string := string_of_list_ascii (map byte_of l).

(** [n] as [k] big-endian bytes. *)
Fixpoint be_bytes (k : nat) (n : Z) : list Z :=
  match k with O => [] | S k => be_bytes k (Z.shiftr n 8) ++ [Z.land n 255] end.

Definition sha_pad (msg : list Z) : list Z :=
  let len := Z.of_nat (length msg) in
  msg ++ 128 :: repeat 0 (Z.to_nat ((55 - len) mod 64)) ++ be_bytes 8 (len * 8).

Fixpoint words (l : list Z) : list Z :=
  match l with
  | a :: b :: c :: d :: rest =>
    Z.lor (Z.shiftl a 24) (Z.lor (Z.shiftl b 16) (Z.lor (Z.shiftl c 8) d)) :: words rest
  | _ => []
  end.

(** The message schedule, most recent word first. *)
Fixpoint schedule (n : nat) (w : list Z) : list Z :=
  match n with
  | O => w
  | S n =>
    let w15 := nth 14 w 0 in let w2 := nth 1 w 0 in
    let s0 := Z.lxor (rotr 7 w15) (Z.lxor (rotr 18 w15) (Z.shiftr w15 3)) in
    let s1 := Z.lxor (rotr 17 w2) (Z.lxor (rotr 19 w2) (Z.shiftr w2 10)) in
    schedule n (word (nth 15 w 0 + s0 + nth 6 w 0 + s1) :: w)
  end.

Definition sha_round (st : list Z) (kw : Z * Z) : list Z :=
  match st with
  | [a; b; c; d; e; f; g; h] =>
    let S1 := Z.lxor (rotr 6 e) (Z.lxor (rotr 11 e) (rotr 25 e)) in
    let ch := Z.lxor (Z.land e f) (Z.land (Z.lxor e 4294967295) g) in
    let t1 := h + S1 + ch + fst kw + snd kw in
    let S0 := Z.lxor (rotr 2 a) (Z.lxor (rotr 13 a) (rotr 22 a)) in
    let maj := Z.lxor (Z.land a b) (Z.lxor (Z.land a c) (Z.land b c)) in
    [word (t1 + S0 + maj); a; b; c; add32 d t1; e; f; g]
  | _ => st
  end.

Definition sha_block (st : list Z) (block : list Z) : list Z :=
  let w := rev (schedule 48 (rev (words block))) in
  zip_with add32 st (fold_left sha_round (combine sha_k w) st).

Fixpoint sha_blocks (fuel : nat) (st : list Z) (l : list Z) : list Z :=
  match fuel, l with
  | S fuel, _ :: _ => sha_blocks fuel (sha_block st (firstn 64 l)) (skipn 64 l)
  | _, _ => st
  end.

(** [sha256.Sum256], as the 32 bytes of the digest.  A padded message of [n]
    bytes has [n / 64] blocks, fewer than its length, which is the fuel. *)
Definition Sum256 (s : string) : string :=
  let l := sha_pad (string_bytes s) in
  bytes_string (flat_map (be_bytes 4) (sha_blocks (length l) sha_init l)).

(** [hex.EncodeToString] of the digest, the form the code stores. *)
Definition Sum256hex (s : string) : string := EncodeToString (Sum256 s).

(** ** HMAC-SHA256 *)

Definition hmac_key (key : string) : list Z :=
  let k := if (64 <? String.length key)%nat then string_bytes (Sum256 key) else string_bytes key in
  k ++ repeat 0 (64 - length k).
Definition xor_bytes (c : Z) (l : list Z) : list Z := map (Z.lxor c) l.

Definition hmacSHA256 (key msg : string) : string :=
  let k := hmac_key key in
  Sum256 (bytes_string (xor_bytes 92 k) +:+ Sum256 (bytes_string (xor_bytes 54 k) +:+ msg)).

(** ** Base64 *)

Definition b64_digit (url : bool) (z : Z) : ascii :=
  byte_of (if z <? 26 then 65 + z else if z <? 52 then 71 + z else if z <? 62 then z - 4
           else if url then (if z =? 62 then 45 else 95) else (if z =? 62 then 43 else 47)).

(** [EncodeToString] of a base64 encoding; [pad] says whether it pads. *)
Fixpoint b64_encode (url pad : bool) (l : list Z) : string :=
  let d z := b64_digit url (Z.land z 63) in
  match l with
  | a :: b :: c :: rest =>
    let n := a * 65536 + b * 256 + c in
    String (d (Z.shiftr n 18)) (String (d (Z.shiftr n 12)) (String (d (Z.shiftr n 6)) (String (d n)
      (b64_encode url pad rest))))
  | [a; b] =>
    let n := a * 1024 + b * 4 in
    String (d (Z.shiftr n 12)) (String (d (Z.shiftr n 6)) (String (d n) (if pad then "=" else "")))
  | [a] =>
    let n := a * 16 in
    String (d (Z.shiftr n 6)) (String (d n) (if pad then "==" else ""))
  | [] => ""
  end.

Definition StdEncoding (s : string) : string := b64_encode false true (string_bytes s).
Definition RawStdEncoding (s : string) : string := b64_encode false false (string_bytes s).
Definition RawURLEncoding (s : string) : string := b64_encode true false (string_bytes s).

(** ** Test vectors and lengths *)

Example sha256_empty :
  Sum256hex "" = "e3b0c44298fc1c149afbf4c8996fb92427ae41e4649b934ca495991b7852b855".
Proof. vm_compute. reflexivity. Qed.

Example sha256_abc :
  Sum256hex "abc" = "ba7816bf8f01cfea414140de5dae2223b00361a396177a9cb410ff61f20015ad".
Proof. vm_compute. reflexivity. Qed.

Example sha256_two_blocks :
  Sum256hex "abcdbcdecdefdefgefghfghighijhijkijkljklmklmnlmnomnopnopq" =
  "248d6a61d20638b8e5c026930c3e6039a33ce45964ff2167f6ecedd419db06c1".
Proof. vm_compute. reflexivity. Qed.

Example hmac_rfc4231 :
  EncodeToString (hmacSHA256 "Jefe" "what do ya want for nothing?") =
  "5bdcc146bf60754e6a042426089575c75a003f089d2739839dec58b964ec3843".
Proof. vm_compute. reflexivity. Qed.

Example base64_examples :
  (StdEncoding "any carnal pleas", StdEncoding "any carnal pleasu", StdEncoding "any carnal pleasur")
  = ("YW55IGNhcm5hbCBwbGVhcw==", "YW55IGNhcm5hbCBwbGVhc3U=", "YW55IGNhcm5hbCBwbGVhc3Vy").
Proof. vm_compute. reflexivity. Qed.

Lemma sha_round_length st kw : length st = 8%nat -> length (sha_round st kw) = 8%nat.
Proof. destruct st as [|a [|b [|c [|d [|e [|f [|g [|h [|]]]]]]]]]; done. Qed.

Lemma sha_block_length st b : length st = 8%nat -> length (sha_block st b) = 8%nat.
Proof.
  intros L. unfold sha_block. rewrite length_zip_with, L.
  assert (forall l s, length s = 8%nat -> length (fold_left sha_round l s) = 8%nat) as ->; [|done|done].
  induction l as [|x l IH]; intros s Ls; [done|]. cbn. apply IH. by apply sha_round_length.
Qed.

Lemma sha_blocks_length fuel st l : length st = 8%nat -> length (sha_blocks fuel st l) = 8%nat.
Proof.
  revert st l. induction fuel as [|fuel IH]; intros st l L; [done|].
  destruct l as [|x l]; [done|]. cbn [sha_blocks]. apply IH. by apply sha_block_length.
Qed.

Lemma be_bytes_length k n : length (be_bytes k n) = k.
Proof.
  revert n. induction k as [|k IH]; intros n; [done|]. cbn. rewrite length_app, IH. cbn. lia.
Qed.

Lemma Sum256_length s : slen (Sum256 s) = 32.
Proof.
  unfold slen, Sum256, bytes_string.
  set (st := sha_blocks _ _ _). assert (L : length st = 8%nat) by (by apply sha_blocks_length).
  assert (F : length (flat_map (be_bytes 4) st) = 32%nat).
  { clearbody st. destruct st as [|a [|b [|c [|d [|e [|f [|g [|h [|]]]]]]]]]; try discriminate.
    cbn [flat_map]. rewrite !length_app, !be_bytes_length. done. }
  assert (G : forall l, String.length (string_of_list_ascii l) = length l)
    by (induction l; cbn; congruence).
  rewrite G, length_map, F. done.
Qed.

(** The hexadecimal digest has 64 characters. *)
Lemma Sum256hex_length s : slen (Sum256hex s) = 64.
Proof.
  unfold slen, Sum256hex. rewrite EncodeToString_length. pose proof (Sum256_length s) as L.
  unfold slen in L. lia.
Qed.
