(* ===== verification/Strconv.v ===== *)
(** * Conversions of the Go standard library

    [strconv] ([Atoi], [ParseUint] in base ten, [ParseBool], [FormatBool]),
    [strings.Split] and [strings.SplitN] on a one-byte separator, decoding with
    the raw standard [encoding/base64] alphabet, and the [float64] arithmetic of
    [time.Duration]'s [Seconds] and [Hours]: IEEE 754 binary64 as the Standard
    Library specifies it. *)

From Stdlib Require Import Floats.SpecFloat.
From S2P Require Import Prelude GoString Crypto.

(** ** Numbers *)

Definition all_digits (s : string) : bool :=
  (s <>s "") && forallb digit_char (list_ascii_of_string s).

(** [strconv.ParseUint(s, 10, bits)], [None] for an error. *)
Definition ParseUint (s : string) (bits : Z) : option Z :=
  if all_digits s && (dec_value s <? 2 ^ bits) then Some (dec_value s) else None.

(** [strconv.Atoi]: an optional sign and digits, within 64 bits. *)
Definition Atoi (s : string) : option Z :=
  let '(neg, digits) :=
    match s with
    | String c rest =>
      if Ascii.eqb c "-" then (true, rest) else if Ascii.eqb c "+" then (false, rest) else (false, s)
    | EmptyString => (false, s)
    end in
  if all_digits digits then
    let n := if (neg : bool) then - dec_value digits else dec_value digits in
    if (minInt64 <=? n) && (n <=? maxInt64) then Some n else None
  else None.

Definition ParseBool (s : string) : option bool :=
  if contains ["1"; "t"; "T"; "TRUE"; "true"; "True"] s then Some true
  else if contains ["0"; "f"; "F"; "FALSE"; "false"; "False"] s then Some false
  else None.

Definition FormatBool (b : bool) : string := if b then "true" else "false".

(** [strings.Split(s, sep)] for a separator of one byte. *)
Fixpoint Split (s : string) (sep : ascii) : list string :=
  match s with
  | EmptyString => [""]
  | String c rest =>
    if Ascii.eqb c sep then "" :: Split rest sep
    else match Split rest sep with
         | first :: others => String c first :: others
         | [] => [String c ""]
         end
  end.

(** [strings.SplitN(s, sep, 2)]. *)
Fixpoint SplitN2 (s : string) (sep : ascii) : list string :=
  match s with
  | EmptyString => [""]
  | String c rest =>
    if Ascii.eqb c sep then [""; rest]
    else match SplitN2 rest sep with
         | first :: others => String c first :: others
         | [] => [String c ""]
         end
  end.

(** ** Base64 *)

Definition b64_val (url : bool) (c : ascii) : option Z :=
  let b := byte_val c in
  if in_range 65 90 b then Some (b - 65)
  else if in_range 97 122 b then Some (b - 71)
  else if in_range 48 57 b then Some (b + 4)
  else if b =? (if url then 45 else 43) then Some 62
  else if b =? (if url then 95 else 47) then Some 63
  else None.

(** The bytes of quanta of four digits; the last one may have two or three,
    whose surplus bits are dropped. *)
Fixpoint b64_quanta (l : list Z) : option (list Z) :=
  match l with
  | a :: b :: c :: d :: rest =>
    let n := a * 262144 + b * 4096 + c * 64 + d in
    tail ← b64_quanta rest;
    Some (n / 65536 :: n / 256 mod 256 :: n mod 256 :: tail)
  | [a; b; c] =>
    let n := a * 4096 + b * 64 + c in Some [n / 1024; n / 4 mod 256]
  | [a; b] => Some [(a * 64 + b) / 16]
  | [_] => None
  | [] => Some []
  end.

(** Line breaks are skipped wherever they stand. *)
Definition not_newline (c : ascii) : bool :=
  negb (Ascii.eqb c (ascii_of_nat 10) || Ascii.eqb c (ascii_of_nat 13)).

Definition b64_decode_raw (url : bool) (s : string) : option string :=
  digits ← mapM (b64_val url) (List.filter not_newline (list_ascii_of_string s));
  bytes_string <$> b64_quanta digits.

(** [base64.RawStdEncoding.DecodeString]. *)
Definition RawStdDecoding (s : string) : option string := b64_decode_raw false s.

(** ** Floating point *)

Definition float64 := spec_float.

(** [float64(z)] of an integer, rounded to nearest even. *)
Definition float_of_int (z : Z) : float64 := binary_normalize 53 1024 z 0 false.
Definition fadd (x y : float64) : float64 := SFadd 53 1024 x y.
Definition fdiv (x y : float64) : float64 := SFdiv 53 1024 x y.

(** The conversion of a finite float to an integer type: towards zero. *)
Definition trunc (x : float64) : Z :=
  match x with
  | S754_finite s m e =>
    let v := if e <? 0 then Z.quot (Zpos m) (2 ^ (- e)) else Zpos m * 2 ^ e in
    if s then - v else v
  | _ => 0
  end.

(** [Duration.Seconds] and [Duration.Hours]. *)
Definition Seconds (d : Duration) : float64 :=
  fadd (float_of_int (Z.quot d Second)) (fdiv (float_of_int (Z.rem d Second)) (float_of_int 1000000000)).
Definition Hours (d : Duration) : float64 :=
  fadd (float_of_int (Z.quot d Hour)) (fdiv (float_of_int (Z.rem d Hour)) (float_of_int 3600000000000)).

(** ** Examples *)

Example split_examples :
  (Split "a$b$$c" "$", SplitN2 "m=1=2" "=", SplitN2 "m" "=") = (["a"; "b"; ""; "c"], ["m"; "1=2"], ["m"]).
Proof. reflexivity. Qed.
Example atoi_examples :
  map Atoi ["12"; "-7"; "+3"; ""; "-"; "1_0"; " 1"; "9223372036854775808"; "-9223372036854775808"]
  = [Some 12; Some (-7); Some 3; None; None; None; None; None; Some (-9223372036854775808)].
Proof. vm_compute. reflexivity. Qed.
Example base64_decodes :
  (RawStdDecoding "YW55IGNhcm5hbCBwbGVhcw", RawStdDecoding "YQ==", RawStdDecoding "Y")
  = (Some "any carnal pleas", None, None).
Proof. vm_compute. reflexivity. Qed.
(** The sum is rounded: a large duration may gain its last nanosecond. *)
Example seconds_examples :
  map (fun d => trunc (Seconds d)) [1999999999; -1500000000; 9223372036854775807; 9000000000999999999]
  = [1; -1; 9223372036; 9000000001].
Proof. vm_compute. reflexivity. Qed.

(** ** Lemmas *)

Lemma all_digits_Itoa n : 0 <= n -> all_digits (Itoa n) = true.
Proof.
  intros H. destruct (Itoa_spec n H) as [V F]. unfold all_digits. apply andb_true_iff. split.
  - apply negb_true_iff, String.eqb_neq. intros E. rewrite E in V.
    change (Itoa n) with (Itoa n) in E. unfold Itoa in E.
    destruct (Z.ltb_spec n 0); [lia|]. unfold Itoa_nat in E.
    destruct (dec_digits_spec (Z.to_nat (Z.log2 n)) n "") as (d & Ed & _ & Ne & _).
    + split; [done|]. rewrite Nat2Z.inj_succ, Z2Nat.id by apply Z.log2_nonneg.
      destruct (Z.eq_dec n 0) as [->|]; [reflexivity|]. apply Z.log2_spec. lia.
    + rewrite Ed, append_nil_r in E. done.
  - apply forallb_forall. rewrite Forall_forall in F. intros c Hc. apply F. by apply list_elem_of_In.
Qed.

Lemma ParseUint_Itoa n bits : 0 <= n < 2 ^ bits -> ParseUint (Itoa n) bits = Some n.
Proof.
  intros [H L]. unfold ParseUint. rewrite all_digits_Itoa by done.
  destruct (Itoa_spec n H) as [-> _]. by destruct (Z.ltb_spec n (2 ^ bits)); [|lia].
Qed.

(** A decimal numeral begins with a digit. *)
Lemma Itoa_first n : 0 <= n -> exists c s, Itoa n = String c s /\ digit_char c = true.
Proof.
  intros H. pose proof (all_digits_Itoa n H) as D. unfold all_digits in D. breflect.
  destruct (Itoa n) as [|c s]; [done|]. exists c, s. split; [done|]. cbn in H1. by breflect.
Qed.

Lemma Atoi_Itoa n : 0 <= n <= maxInt64 -> Atoi (Itoa n) = Some n.
Proof.
  intros [H L]. destruct (Itoa_first n H) as (c & s & E & D). unfold Atoi. rewrite E.
  assert (Ascii.eqb c "-" = false /\ Ascii.eqb c "+" = false) as [-> ->].
  { split; apply Ascii.eqb_neq; intros ->; discriminate D. }
  rewrite <- E, all_digits_Itoa by done. destruct (Itoa_spec n H) as [-> _].
  unfold minInt64, maxInt64 in *. replace (_ && _) with true; [done|].
  symmetry. apply andb_true_iff. split; apply Z.leb_le; lia.
Qed.

Lemma ParseBool_FormatBool b : ParseBool (FormatBool b) = Some b.
Proof. by destruct b. Qed.

(** Trimming leaves a text of visible ASCII characters as it is. *)
Definition visible (c : ascii) : bool := in_range 33 126 (byte_val c).

Lemma runes_visible s : forallb visible (list_ascii_of_string s) = true ->
  runes s = map (fun c => Rune (byte_val c) (String c "")) (list_ascii_of_string s).
Proof.
  induction s as [|c s IH]; [done|]. cbn [list_ascii_of_string forallb map]. intros H. breflect.
  unfold visible, in_range in H. breflect. cbn [runes].
  replace (byte_val c <? 128) with true by (symmetry; apply Z.ltb_lt; lia). by rewrite IH.
Qed.

Lemma TrimSpace_visible s : forallb visible (list_ascii_of_string s) = true -> TrimSpace s = s.
Proof.
  intros H. change (TrimSpace s) with (unrunes (trim_runes (runes s))).
  assert (F : forall r, r ∈ runes s -> is_space_rune r = false).
  { rewrite runes_visible by done. intros r Hr. apply list_elem_of_In, in_map_iff in Hr as (c & <- & Hc).
    rewrite forallb_forall in H. specialize (H c Hc). unfold visible, in_range in H. breflect.
    unfold is_space_rune, IsSpace, in_range. cbn [rune_val].
    repeat (apply orb_false_iff; split); try apply andb_false_iff; try (apply Z.eqb_neq; lia);
      first [left; apply Z.leb_gt; lia|right; apply Z.leb_gt; lia]. }
  unfold trim_runes. rewrite (drop_while_none _ (runes s)), drop_while_none.
  - by rewrite reverse_involutive, unrunes_runes.
  - destruct (reverse (runes s)) as [|r l] eqn:E; [done|]. apply F.
    apply (proj1 (elem_of_reverse _ _)). rewrite E. constructor.
  - destruct (runes s) as [|r l]; [done|]. apply F. constructor.
Qed.

Lemma digit_visible c : digit_char c = true -> visible c = true.
Proof. unfold digit_char, visible, in_range. intros H. breflect. apply andb_true_iff. split; apply Z.leb_le; lia. Qed.

Lemma TrimSpace_Itoa n : 0 <= n -> TrimSpace (Itoa n) = Itoa n.
Proof.
  intros H. apply TrimSpace_visible. destruct (Itoa_spec n H) as [_ F].
  apply forallb_forall. rewrite Forall_forall in F. intros c Hc. apply digit_visible, F.
  by apply list_elem_of_In.
Qed.

Lemma TrimSpace_FormatBool b : TrimSpace (FormatBool b) = FormatBool b.
Proof. by destruct b. Qed.

Lemma Itoa_not_empty n : 0 <= n -> (Itoa n =s "") = false.
Proof. intros H. destruct (Itoa_first n H) as (c & s & -> & _). done. Qed.

(** Splitting at the first separator. *)
Lemma Split_app s sep t :
  ~ In sep (list_ascii_of_string s) -> Split (s +:+ String sep t) sep = s :: Split t sep.
Proof.
  induction s as [|c s IH]; intros N.
  - rewrite append_nil. cbn. by rewrite Ascii.eqb_refl.
  - rewrite append_cons. cbn in N. cbn [Split].
    destruct (Ascii.eqb_spec c sep) as [->|]; [tauto|]. rewrite IH; [done|tauto].
Qed.

Lemma Split_none s sep : ~ In sep (list_ascii_of_string s) -> Split s sep = [s].
Proof.
  induction s as [|c s IH]; intros N; [done|]. cbn in N. cbn [Split].
  destruct (Ascii.eqb_spec c sep) as [->|]; [tauto|]. rewrite IH; [done|tauto].
Qed.

Lemma SplitN2_app s sep t :
  ~ In sep (list_ascii_of_string s) -> SplitN2 (s +:+ String sep t) sep = [s; t].
Proof.
  induction s as [|c s IH]; intros N.
  - rewrite append_nil. cbn. by rewrite Ascii.eqb_refl.
  - rewrite append_cons. cbn in N. cbn [SplitN2].
    destruct (Ascii.eqb_spec c sep) as [->|]; [tauto|]. rewrite IH; [done|tauto].
Qed.

Lemma digits_without c n : 0 <= n -> digit_char c = false -> ~ In c (list_ascii_of_string (Itoa n)).
Proof.
  intros H D X. destruct (Itoa_spec n H) as [_ F]. rewrite Forall_forall in F.
  rewrite F in D; [done|]. by apply list_elem_of_In.
Qed.

(** Decoding inverts encoding. *)
Lemma b64_digit_spec url z : 0 <= z < 64 ->
  b64_val url (b64_digit url z) = Some z /\ not_newline (b64_digit url z) = true /\
  visible (b64_digit url z) = true.
Proof.
  intros H.
  assert (A : forallb (fun n => bool_decide (b64_val url (b64_digit url (Z.of_nat n)) = Some (Z.of_nat n)) &&
    not_newline (b64_digit url (Z.of_nat n)) && visible (b64_digit url (Z.of_nat n))) (seq 0 64) = true)
    by (destruct url; vm_compute; reflexivity).
  rewrite forallb_forall in A. specialize (A (Z.to_nat z)). rewrite Z2Nat.id in A by lia.
  assert (In (Z.to_nat z) (seq 0 64)) as I by (apply in_seq; lia).
  specialize (A I). breflect. done.
Qed.

Definition is_byte (z : Z) : Prop := 0 <= z < 256.

Lemma land63 z : Z.land z 63 = z mod 64.
Proof. change 63 with (Z.ones 6). by rewrite Z.land_ones. Qed.

(** The digits of an encoding without padding. *)
Fixpoint b64_digits (l : list Z) : list Z :=
  match l with
  | a :: b :: c :: rest =>
    let n := a * 65536 + b * 256 + c in
    n / 262144 mod 64 :: n / 4096 mod 64 :: n / 64 mod 64 :: n mod 64 :: b64_digits rest
  | [a; b] => let n := a * 1024 + b * 4 in [n / 4096 mod 64; n / 64 mod 64; n mod 64]
  | [a] => let n := a * 16 in [n / 64 mod 64; n mod 64]
  | [] => []
  end.

(** Lists by steps of three. *)
Lemma list_ind3 {A} (P : list A -> Prop) :
  P [] -> (forall a, P [a]) -> (forall a b, P [a; b]) ->
  (forall a b c l, P l -> P (a :: b :: c :: l)) -> forall l, P l.
Proof.
  intros H0 H1 H2 H3. fix IH 1. intros [|a [|b [|c l]]]; [done..|apply H3, IH].
Qed.

Lemma b64_encode_digits url l :
  list_ascii_of_string (b64_encode url false l) = map (b64_digit url) (b64_digits l).
Proof.
  induction l as [|a|a b|a b c l IH] using list_ind3; cbn [b64_encode b64_digits map list_ascii_of_string];
    rewrite ?land63, ?Z.shiftr_div_pow2 by lia; [done..|]. by rewrite IH.
Qed.

Lemma b64_digits_range l : Forall (fun z => 0 <= z < 64) (b64_digits l).
Proof.
  induction l as [|a|a b|a b c l IH] using list_ind3; cbn [b64_digits];
    repeat (apply Forall_cons; split); try apply Z.mod_pos_bound; try lia; [constructor..|done].
Qed.

Lemma b64_quanta_digits l : Forall is_byte l -> b64_quanta (b64_digits l) = Some l.
Proof.
  unfold is_byte. induction l as [|a|a b|a b c l IH] using list_ind3; intros F; repeat (apply Forall_cons in F as [? F]);
    cbn [b64_digits b64_quanta]; [done| | |rewrite IH by done; cbn];
    repeat f_equal; Z.to_euclidean_division_equations; lia.
Qed.

Lemma mapM_b64 url l : Forall (fun z => 0 <= z < 64) l ->
  mapM (b64_val url) (List.filter not_newline (map (b64_digit url) l)) = Some l.
Proof.
  induction 1 as [|z l H F IH]; [done|]. cbn [map List.filter].
  destruct (b64_digit_spec url z H) as (V & N & _). rewrite N. cbn [mapM]. rewrite V.
  cbn [mbind option_bind]. by rewrite IH.
Qed.

Lemma bytes_string_bytes s : bytes_string (string_bytes s) = s.
Proof.
  unfold bytes_string, string_bytes. rewrite map_map.
  rewrite (map_ext _ id); [|intros; apply byte_of_val]. rewrite map_id.
  apply string_of_list_ascii_of_string.
Qed.

Lemma string_bytes_range s : Forall is_byte (string_bytes s).
Proof.
  unfold string_bytes. apply Forall_forall. intros z Hz.
  apply list_elem_of_In, in_map_iff in Hz as (c & <- & _). apply byte_val_range.
Qed.

Lemma b64_decode_encode url s : b64_decode_raw url (b64_encode url false (string_bytes s)) = Some s.
Proof.
  unfold b64_decode_raw. rewrite b64_encode_digits, mapM_b64 by apply b64_digits_range.
  cbn [mbind option_bind]. rewrite b64_quanta_digits by apply string_bytes_range. cbn.
  by rewrite bytes_string_bytes.
Qed.

(** No digit is a separator of a record. *)
Lemma b64_encode_without url c l : b64_val url c = None -> ~ In c (list_ascii_of_string (b64_encode url false l)).
Proof.
  rewrite b64_encode_digits. intros N I. apply in_map_iff in I as (z & <- & Hz).
  pose proof (b64_digits_range l) as F. rewrite Forall_forall in F.
  destruct (b64_digit_spec url z) as (V & _); [apply F; by apply list_elem_of_In|]. congruence.
Qed.

(** *** Exactness: whole numbers of at most 53 bits survive the conversions. *)
Lemma digits2_size p : digits2_pos p = Pos.size p.
Proof. induction p as [p IH|p IH|]; cbn [digits2_pos Pos.size]; congruence. Qed.

Lemma digits2_shift p d : Zpos (digits2_pos (Pos.iter xO p d)) = Zpos (digits2_pos p) + Zpos d.
Proof.
  induction d as [|d IH] using Pos.peano_ind; [cbn; lia|].
  rewrite Pos.iter_succ. cbn [digits2_pos]. lia.
Qed.

Lemma shift_pos_mult p d : Zpos (Pos.iter xO p d) = Zpos p * 2 ^ Zpos d.
Proof.
  induction d as [|d IH] using Pos.peano_ind; [cbn; lia|].
  rewrite Pos.iter_succ, Pos2Z.inj_succ, Z.pow_succ_r by lia. lia.
Qed.

Lemma digits2_bound p : Zpos p < 2 ^ 53 -> Zpos (digits2_pos p) <= 53.
Proof.
  intros H. rewrite digits2_size. pose proof (Pos.size_le p) as L.
  apply Pos2Z.pos_le_pos in L. rewrite Pos2Z.inj_pow in L.
  destruct (Z.le_gt_cases (Zpos (Pos.size p)) 53) as [|G]; [done|exfalso].
  assert (2 ^ 54 <= 2 ^ Zpos (Pos.size p)) by (apply Z.pow_le_mono_r; lia). lia.
Qed.

Lemma round_exact s p e : Zpos (digits2_pos p) = 53 -> -1074 <= e <= 971 ->
  binary_round_aux 53 1024 s (Zpos p) e loc_Exact = S754_finite s p e.
Proof.
  intros D H. unfold binary_round_aux, shr_fexp. cbn [Zdigits2 shr_record_of_loc]. rewrite D.
  replace (fexp 53 1024 (53 + e) - e) with 0 by (unfold fexp, emin; lia).
  cbn [shr shr_m loc_of_shr_record round_nearest_even Zdigits2 shr_record_of_loc]. rewrite D.
  replace (fexp 53 1024 (53 + e) - e) with 0 by (unfold fexp, emin; lia).
  cbn [shr shr_m]. by replace (Z.leb e (1024 - 53)) with true by (symmetry; apply Z.leb_le; lia).
Qed.

Lemma trunc_round s p : Zpos p < 2 ^ 53 ->
  trunc (binary_round 53 1024 s p 0) = (if s then Zneg p else Zpos p) /\
  (exists m e, binary_round 53 1024 s p 0 = S754_finite s m e).
Proof.
  intros H. apply digits2_bound in H. unfold binary_round, shl_align.
  replace (fexp 53 1024 (Zpos (digits2_pos p) + 0) - 0) with (Zpos (digits2_pos p) - 53)
    by (unfold fexp, emin; lia).
  destruct (Zpos (digits2_pos p) - 53) as [|d|d] eqn:E; [|lia|].
  - rewrite round_exact by lia. split; [|eauto]. cbn. destruct s; lia.
  - replace (fexp 53 1024 (Zpos (digits2_pos p) + 0)) with (Zneg d) by (unfold fexp, emin; lia).
    rewrite round_exact by (rewrite ?digits2_shift; lia). split; [|eauto].
    unfold trunc. change (Zneg d <? 0) with true. cbn match. change (- Zneg d) with (Zpos d).
    rewrite shift_pos_mult, Z.quot_mul by (apply Z.pow_nonzero; lia). destruct s; lia.
Qed.

Lemma trunc_int z : - 2 ^ 53 < z < 2 ^ 53 -> trunc (float_of_int z) = z.
Proof.
  intros H. unfold float_of_int. destruct z as [|p|p]; [done| |]; cbn [binary_normalize].
  - by destruct (trunc_round false p) as [-> _]; [lia|].
  - by destruct (trunc_round true p) as [-> _]; [lia|].
Qed.

(** A sum with the zero quotient of a division that has no remainder. *)
Lemma trunc_whole z (d : float64) : - 2 ^ 53 < z < 2 ^ 53 -> fdiv (float_of_int 0) d = S754_zero false ->
  trunc (fadd (float_of_int z) (fdiv (float_of_int 0) d)) = z.
Proof.
  intros H ->. unfold float_of_int. destruct z as [|p|p]; [done| |]; cbn [binary_normalize].
  - destruct (trunc_round false p) as [T (m & e & E)]; [lia|]. rewrite E in *. done.
  - destruct (trunc_round true p) as [T (m & e & E)]; [lia|]. rewrite E in *. done.
Qed.

Lemma trunc_Seconds s : - 2 ^ 53 < s < 2 ^ 53 -> trunc (Seconds (s * Second)) = s.
Proof.
  intros H. unfold Seconds, Second. rewrite Z.quot_mul, Z.rem_mul by lia. by apply trunc_whole.
Qed.

Lemma trunc_Hours h : - 2 ^ 53 < h < 2 ^ 53 -> trunc (Hours (h * Hour)) = h.
Proof.
  intros H. unfold Hours, Hour, Minute, Second. rewrite Z.quot_mul, Z.rem_mul by lia. by apply trunc_whole.
Qed.
