(* ===== verification/Json.v ===== *)
(** * JSON

    [encoding/json] as the code uses it: decoding into [any] with
    [UseNumber] (numbers keep their literal) and [Marshal] of such values and
    of string slices and maps.  An object is the Go map it decodes to: an
    association list with the keys in increasing byte order, each once (a
    repeated key keeps its last value).

    [Marshal] escapes HTML characters, the two line separators and invalid
    UTF-8 as the package does. *)

From S2P Require Import Prelude GoString.

Inductive json :=
| JNull
| JBool (b : bool)
| JNum (lit : string)
| JStr (s : string)
| JArr (l : list json)
| JObj (l : list (string * json)).

(** Assignment in a Go map, kept sorted by key. *)
Fixpoint obj_set (k : string) (v : json) (l : list (string * json)) : list (string * json) :=
  match l with
  | [] => [(k, v)]
  | (k', v') :: rest =>
    match String.compare k k' with
    | Eq => (k, v) :: rest
    | Lt => (k, v) :: l
    | Gt => (k', v') :: obj_set k v rest
    end
  end.

(** ** Encoding *)

Definition backslash : ascii := ascii_of_nat 92.
Definition quote : ascii := ascii_of_nat 34.
Definition str1 (c : ascii) : string := String c EmptyString.
Definition esc (c : ascii) : string := String backslash (str1 c).
Definition hex4 (z : Z) : string :=
  String (hex_digit (z / 4096 mod 16)) (String (hex_digit (z / 256 mod 16))
    (String (hex_digit (z / 16 mod 16)) (str1 (hex_digit (z mod 16))))).
Definition esc_u (z : Z) : string := esc "u" +:+ hex4 z.

Definition invalid_rune (r : rune) : bool :=
  (rune_val r =? RuneError) && (slen (rune_bytes r) =? 1).

(** One rune of [appendString] with HTML escaping. *)
Definition encode_json_rune (r : rune) : string :=
  let v := rune_val r in
  if invalid_rune r then esc_u 65533
  else if (v =? 92) || (v =? 34) then esc (byte_of v)
  else if v =? 8 then esc "b"
  else if v =? 12 then esc "f"
  else if v =? 10 then esc "n"
  else if v =? 13 then esc "r"
  else if v =? 9 then esc "t"
  else if (v <? 32) || (v =? 60) || (v =? 62) || (v =? 38) || (v =? 8232) || (v =? 8233) then esc_u v
  else rune_bytes r.

Definition marshal_string (s : string) : string :=
  String quote (fold_right (fun r acc => encode_json_rune r +:+ acc) (str1 quote) (runes s)).

(** Elements separated by commas. *)
Fixpoint joined (l : list string) : string :=
  match l with
  | [] => ""
  | [x] => x
  | x :: rest => x +:+ String "," (joined rest)
  end.

(** [json.Marshal] of a decoded value; an empty [json.Number] is 0. *)
Fixpoint Marshal (j : json) : string :=
  match j with
  | JNull => "null"
  | JBool true => "true"
  | JBool false => "false"
  | JNum lit => if lit =s "" then "0" else lit
  | JStr s => marshal_string s
  | JArr l => String "[" (joined (map Marshal l) +:+ "]")
  | JObj l => String "{" (joined (map (fun kv => marshal_string (fst kv) +:+ String ":" (Marshal (snd kv))) l) +:+ "}")
  end.

(** [json.Marshal] of a [[]string] and of a [map[string]string]; a nil slice
    is [null]. *)
Definition marshal_strings (l : list string) : string := Marshal (JArr (map JStr l)).
Definition marshal_map (l : list (string * string)) : string :=
  Marshal (JObj (fold_left (fun o kv => obj_set (fst kv) (JStr (snd kv)) o) l [])).

(** ** Decoding *)

Fixpoint skip_ws (s : string) : string :=
  match s with
  | String c rest =>
    let b := byte_val c in
    if (b =? 32) || (b =? 9) || (b =? 10) || (b =? 13) then skip_ws rest else s
  | EmptyString => s
  end.

Definition is_digit (c : ascii) : bool := in_range 48 57 (byte_val c).

Fixpoint take_digits (s : string) : string * string :=
  match s with
  | String c rest =>
    if is_digit c then let (d, r) := take_digits rest in (String c d, r) else (EmptyString, s)
  | EmptyString => (EmptyString, EmptyString)
  end.

(** The integer part: a 0, or digits that do not start with 0. *)
Definition lex_int (s : string) : option (string * string) :=
  match s with
  | String c rest =>
    if byte_val c =? 48 then Some (str1 c, rest)
    else if is_digit c then Some (take_digits s) else None
  | EmptyString => None
  end.

Definition lex_frac (s : string) : option (string * string) :=
  match s with
  | String c rest =>
    if byte_val c =? 46 then
      match take_digits rest with
      | (EmptyString, _) => None
      | (d, r) => Some (String c d, r)
      end
    else Some (EmptyString, s)
  | EmptyString => Some (EmptyString, s)
  end.

Definition lex_exp (s : string) : option (string * string) :=
  match s with
  | String c rest =>
    if (byte_val c =? 101) || (byte_val c =? 69) then
      let (sign, rest) :=
        match rest with
        | String d r => if (byte_val d =? 43) || (byte_val d =? 45) then (str1 d, r) else (EmptyString, rest)
        | EmptyString => (EmptyString, rest)
        end in
      match take_digits rest with
      | (EmptyString, _) => None
      | (d, r) => Some (String c (sign +:+ d), r)
      end
    else Some (EmptyString, s)
  | EmptyString => Some (EmptyString, s)
  end.

Definition lex_number (s : string) : option (string * string) :=
  let (sign, s) :=
    match s with
    | String c rest => if byte_val c =? 45 then (str1 c, rest) else (EmptyString, s)
    | EmptyString => (EmptyString, s)
    end in
  '(i, s) ← lex_int s; '(f, s) ← lex_frac s; '(e, s) ← lex_exp s;
  Some (sign +:+ i +:+ f +:+ e, s).

Definition getu4 (s : string) : option (Z * string) :=
  match s with
  | String a (String b (String c (String d rest))) =>
    x ← hex_val a; y ← hex_val b; z ← hex_val c; w ← hex_val d;
    Some (x * 4096 + y * 256 + z * 16 + w, rest)
  | _ => None
  end.

(** The contents of a string literal after its opening quote, up to and
    including the closing one: escapes resolved, other bytes kept; a surrogate
    half that is not followed by its other half is [RuneError]. *)
Fixpoint lex_string (fuel : nat) (s : string) : option (string * string) :=
  match fuel, s with
  | S fuel, String c rest =>
    let b := byte_val c in
    let plain (out : string) (rest : string) :=
      '(body, r) ← lex_string fuel rest; Some (out +:+ body, r) in
    if b =? 34 then Some (EmptyString, rest)
    else if b <? 32 then None
    else if b =? 92 then
      match rest with
      | String e rest =>
        let k := byte_val e in
        if (k =? 34) || (k =? 92) || (k =? 47) then plain (str1 e) rest
        else if k =? 98 then plain (str1 (byte_of 8)) rest
        else if k =? 102 then plain (str1 (byte_of 12)) rest
        else if k =? 110 then plain (str1 (byte_of 10)) rest
        else if k =? 114 then plain (str1 (byte_of 13)) rest
        else if k =? 116 then plain (str1 (byte_of 9)) rest
        else if k =? 117 then
          '(u, rest) ← getu4 rest;
          if in_range 55296 56319 u then
            match rest with
            | String s1 (String s2 rest2) =>
              if (byte_val s1 =? 92) && (byte_val s2 =? 117) then
                match getu4 rest2 with
                | Some (v, rest3) =>
                  if in_range 56320 57343 v
                  then plain (encode_rune (65536 + (u - 55296) * 1024 + (v - 56320))) rest3
                  else plain (encode_rune RuneError) rest
                | None => plain (encode_rune RuneError) rest
                end
              else plain (encode_rune RuneError) rest
            | _ => plain (encode_rune RuneError) rest
            end
          else plain (encode_rune u) rest
        else None
      | EmptyString => None
      end
    else plain (str1 c) rest
  | _, _ => None
  end.

(** Invalid bytes become [RuneError]. *)
Definition to_valid (s : string) : string :=
  unrunes (map (fun r => if invalid_rune r then rune_of RuneError else r) (runes s)).

Definition maxNestingDepth : Z := 10000.

(** A value, then what follows it.  The fuel bounds the number of calls, each
    of which consumes a byte or is followed by one that does. *)
Fixpoint parse_value (fuel : nat) (depth : Z) (s : string) : option (json * string) :=
  match fuel with
  | O => None
  | S fuel =>
    match skip_ws s with
    | EmptyString => None
    | String c rest as s =>
      let b := byte_val c in
      if b =? 34 then
        '(body, r) ← lex_string (S (String.length rest)) rest; Some (JStr (to_valid body), r)
      else if b =? 123 then
        if maxNestingDepth <? depth + 1 then None
        else match skip_ws rest with
        | String d r => if byte_val d =? 125 then Some (JObj [], r)
                        else parse_members fuel (depth + 1) [] rest
        | EmptyString => None
        end
      else if b =? 91 then
        if maxNestingDepth <? depth + 1 then None
        else match skip_ws rest with
        | String d r => if byte_val d =? 93 then Some (JArr [], r)
                        else parse_elements fuel (depth + 1) [] rest
        | EmptyString => None
        end
      else if HasPrefix s "true" then Some (JBool true, sdrop 4 s)
      else if HasPrefix s "false" then Some (JBool false, sdrop 5 s)
      else if HasPrefix s "null" then Some (JNull, sdrop 4 s)
      else '(lit, r) ← lex_number s; Some (JNum lit, r)
    end
  end
with parse_members (fuel : nat) (depth : Z) (acc : list (string * json)) (s : string)
  : option (json * string) :=
  match fuel with
  | O => None
  | S fuel =>
    match skip_ws s with
    | String c rest =>
      if byte_val c =? 34 then
        '(key, r) ← lex_string (S (String.length rest)) rest;
        match skip_ws r with
        | String d r =>
          if byte_val d =? 58 then
            '(v, r) ← parse_value fuel depth r;
            let acc := obj_set (to_valid key) v acc in
            match skip_ws r with
            | String e r =>
              if byte_val e =? 44 then parse_members fuel depth acc r
              else if byte_val e =? 125 then Some (JObj acc, r) else None
            | EmptyString => None
            end
          else None
        | EmptyString => None
        end
      else None
    | EmptyString => None
    end
  end
with parse_elements (fuel : nat) (depth : Z) (acc : list json) (s : string)
  : option (json * string) :=
  match fuel with
  | O => None
  | S fuel =>
    '(v, r) ← parse_value fuel depth s;
    match skip_ws r with
    | String e r =>
      if byte_val e =? 44 then parse_elements fuel depth (acc ++ [v]) r
      else if byte_val e =? 93 then Some (JArr (acc ++ [v]), r) else None
    | EmptyString => None
    end
  end.

(** A document: one value, and nothing but white space after it. *)
Definition parse_document (s : string) : option json :=
  match parse_value (S (2 * String.length s)) 0 s with
  | Some (j, rest) => match skip_ws rest with EmptyString => Some j | _ => None end
  | None => None
  end.

(** [json.Unmarshal] into a [[]string]: null elements are left empty. *)
Fixpoint string_elements (l : list json) : option (list string) :=
  match l with
  | [] => Some []
  | JStr s :: rest => (fun r => s :: r) <$> string_elements rest
  | JNull :: rest => (fun r => "" :: r) <$> string_elements rest
  | _ => None
  end.
Definition unmarshal_strings (raw : string) : option (list string) :=
  match parse_document raw with
  | Some JNull => Some []
  | Some (JArr l) => string_elements l
  | _ => None
  end.

(** Examples write an apostrophe for the quotation mark. *)
Definition dq (s : string) : string :=
  string_of_list_ascii (map (fun c => if Ascii.eqb c "'" then quote else c) (list_ascii_of_string s)).

Example json_canonical :
  Marshal <$> parse_document (dq " { 'b' : [1, -2.50e+3 , true,null], 'a':'x<y\u00e9\ud83d\ude00\n', 'b':{} } ")
  = Some (dq "{'a':'x\u003cyé😀\n','b':{}}").
Proof. vm_compute. reflexivity. Qed.

(** ** The fuel is enough

    Every function consumes input, and with the fuel [parse_document] gives, or
    any larger one, the result is the same. *)

Abbreviation len := String.length.

Lemma skip_ws_length s : (len (skip_ws s) <= len s)%nat.
Proof. induction s as [|c s IH]; cbn; [lia|]. destruct (_ || _ || _ || _); cbn; lia. Qed.

Lemma take_digits_length s d r : take_digits s = (d, r) -> (len r <= len s)%nat.
Proof.
  revert d r. induction s as [|c s IH]; cbn; intros d r; [intros [= <- <-]; cbn; lia|].
  destruct (is_digit c); [|intros [= <- <-]; cbn; lia].
  destruct (take_digits s) as [d' r']. intros [= <- <-]. specialize (IH _ _ eq_refl). lia.
Qed.

Ltac opt H := repeat match type of H with
  | context [match ?x with _ => _ end] => destruct x eqn:?; try discriminate H
  end.

Lemma lex_int_length s d r : lex_int s = Some (d, r) -> (len r < len s)%nat.
Proof.
  unfold lex_int. destruct s as [|c s]; [discriminate|]. intros H.
  destruct (byte_val c =? 48); [injection H as <- <-; cbn; lia|].
  destruct (is_digit c) eqn:D; [|discriminate]. injection H as H. cbn in H. rewrite D in H.
  destruct (take_digits s) as [d' r'] eqn:E. injection H as <- <-.
  apply take_digits_length in E. cbn; lia.
Qed.

Lemma lex_frac_length s d r : lex_frac s = Some (d, r) -> (len r <= len s)%nat.
Proof.
  unfold lex_frac. intros H. destruct s as [|c s]; [injection H as <- <-; lia|].
  destruct (byte_val c =? 46); [|injection H as <- <-; lia].
  destruct (take_digits s) as [[|] r'] eqn:E; [discriminate|].
  injection H as <- <-. apply take_digits_length in E. cbn; lia.
Qed.

Lemma lex_exp_length s d r : lex_exp s = Some (d, r) -> (len r <= len s)%nat.
Proof.
  unfold lex_exp. intros H. destruct s as [|c s]; [injection H as <- <-; lia|].
  destruct (_ || _); [|injection H as <- <-; lia].
  assert (K : forall sign t, (len t <= len s)%nat ->
    match take_digits t with (EmptyString, _) => None
    | (d, r) => Some (String c (sign +:+ d), r) end = Some (d, r) -> (len r < S (len s))%nat).
  { intros sign t Lt E. destruct (take_digits t) as [[|] r'] eqn:T; [discriminate|].
    injection E as <- <-. apply take_digits_length in T. lia. }
  cbn [len]. destruct s as [|c1 s1]; cbn iota beta zeta in H.
  - apply K in H; cbn in *; lia.
  - destruct (_ || _); apply K in H; cbn in *; lia.
Qed.

Lemma lex_number_length s d r : lex_number s = Some (d, r) -> (len r < len s)%nat.
Proof.
  unfold lex_number. intros H.
  assert (K : forall sign t, (len t <= len s)%nat ->
    ('(i, s) ← lex_int t; '(f, s) ← lex_frac s; '(e, s) ← lex_exp s;
     Some (sign +:+ i +:+ f +:+ e, s)) = Some (d, r) -> (len r < len s)%nat).
  { intros sign t Lt E. cbn in E.
    destruct (lex_int t) as [[i s1]|] eqn:E1; [|discriminate]. cbn in E.
    destruct (lex_frac s1) as [[f s2]|] eqn:E2; [|discriminate]. cbn in E.
    destruct (lex_exp s2) as [[e s3]|] eqn:E3; [|discriminate]. injection E as _ <-.
    apply lex_int_length in E1. apply lex_frac_length in E2. apply lex_exp_length in E3. lia. }
  destruct s as [|c s]; [exact (K _ _ (Nat.le_refl _) H)|].
  destruct (byte_val c =? 45); (eapply K; [|exact H]; cbn; lia).
Qed.

Lemma getu4_length s z r : getu4 s = Some (z, r) -> (len r < len s)%nat.
Proof.
  unfold getu4. intros H. do 4 (destruct s as [|? s]; [discriminate|]).
  unfold mbind, option_bind in H. do 4 (destruct (hex_val _); [|discriminate]).
  injection H as _ <-. cbn; lia.
Qed.

Lemma sdrop_length n s : len (sdrop n s) = (len s - n)%nat.
Proof. revert s. induction n as [|n IH]; intros [|a s]; cbn; auto. Qed.

Lemma lex_string_length f s b r : lex_string f s = Some (b, r) -> (len r < len s)%nat.
Proof.
  revert s b r. induction f as [|f IH]; intros s b r; [done|].
  destruct s as [|c s]; [done|]. cbn [lex_string].
  assert (P : forall out t, (len t <= len s)%nat ->
    ('(body, r) ← lex_string f t; Some (out +:+ body, r)) = Some (b, r) -> (len r < S (len s))%nat).
  { intros out t Lt E. destruct (lex_string f t) as [[body r']|] eqn:L; [|discriminate].
    injection E as _ <-. apply IH in L. lia. }
  destruct (_ =? 34); [intros [= _ <-]; cbn; lia|]. destruct (_ <? 32); [done|].
  destruct (_ =? 92); [|intros H; eapply P; [|exact H]; lia].
  destruct s as [|e s]; [done|].
  do 6 (match goal with |- context [if ?x then _ else _] => destruct x end;
        [intros H; eapply P; [|exact H]; cbn; lia|]).
  destruct (_ =? 117); [|done].
  destruct (getu4 s) as [[u t]|] eqn:G; [|done]. apply getu4_length in G. cbn [mbind option_bind].
  destruct (in_range _ _ u); [|intros H; eapply P; [|exact H]; cbn; lia].
  destruct t as [|s1 [|s2 t]]; try (intros H; eapply P; [|exact H]; cbn in *; lia).
  destruct (_ && _); [|intros H; eapply P; [|exact H]; cbn in *; lia].
  destruct (getu4 t) as [[v t']|] eqn:G2; [|intros H; eapply P; [|exact H]; cbn in *; lia].
  apply getu4_length in G2.
  destruct (in_range _ _ v); intros H; (eapply P; [|exact H]); cbn in *; lia.
Qed.

Definition parse_lengths (f : nat) : Prop :=
  (forall d s j r, parse_value f d s = Some (j, r) -> (len r < len s)%nat) /\
  (forall d acc s j r, parse_members f d acc s = Some (j, r) -> (len r < len s)%nat) /\
  (forall d acc s j r, parse_elements f d acc s = Some (j, r) -> (len r < len s)%nat).

Lemma HasPrefix_length s p : HasPrefix s p = true -> (len p <= len s)%nat.
Proof. intros H. apply HasPrefix_app in H as (t & ->). rewrite length_append. lia. Qed.

Lemma parse_length f : parse_lengths f.
Proof.
  induction f as [|f (IV & IM & IE)]; [by split_and!|]. split_and!.
  - intros d s j r. cbn [parse_value]. pose proof (skip_ws_length s) as W.
    destruct (skip_ws s) as [|c t]; [done|].
    destruct (_ =? 34).
    { cbn [mbind option_bind]. destruct (lex_string _ t) as [[b r']|] eqn:L; [|done]. intros [= _ <-].
      apply lex_string_length in L. cbn in *; lia. }
    destruct (_ =? 123).
    { destruct (_ <? _); [done|]. pose proof (skip_ws_length t).
      destruct (skip_ws t) as [|x t']; [done|].
      destruct (_ =? 125); [intros [= _ <-]; cbn in *; lia|]. intros H'. apply IM in H'. cbn in *; lia. }
    destruct (_ =? 91).
    { destruct (_ <? _); [done|]. pose proof (skip_ws_length t).
      destruct (skip_ws t) as [|x t']; [done|].
      destruct (_ =? 93); [intros [= _ <-]; cbn in *; lia|]. intros H'. apply IE in H'. cbn in *; lia. }
    do 3 (match goal with |- context [HasPrefix ?a ?p] => let HP := fresh in destruct (HasPrefix a p) eqn:HP;
        [apply HasPrefix_length in HP|clear HP] end;
      [injection 1 as _ <-;
       pose proof (sdrop_length 4 (String c t)); pose proof (sdrop_length 5 (String c t)); cbn in *; lia|]).
    destruct (lex_number _) as [[l r']|] eqn:L; [|done]. intros [= _ <-].
    apply lex_number_length in L. cbn in *; lia.
  - intros d acc s j r. cbn [parse_members]. pose proof (skip_ws_length s) as W.
    destruct (skip_ws s) as [|c t]; [done|]. destruct (_ =? 34); [|done].
    destruct (lex_string _ t) as [[key r1]|] eqn:L; [|done]. apply lex_string_length in L. cbn [mbind option_bind].
    pose proof (skip_ws_length r1). destruct (skip_ws r1) as [|x r2]; [done|]. destruct (_ =? 58); [|done].
    destruct (parse_value f d r2) as [[v r3]|] eqn:V; [|done]. apply IV in V. cbn [mbind option_bind].
    pose proof (skip_ws_length r3). destruct (skip_ws r3) as [|y r4]; [done|].
    destruct (_ =? 44); [intros H'; apply IM in H'; cbn in *; lia|].
    destruct (_ =? 125); [intros [= _ <-]; cbn in *; lia|done].
  - intros d acc s j r. cbn [parse_elements].
    destruct (parse_value f d s) as [[v r3]|] eqn:V; [|done]. apply IV in V. cbn [mbind option_bind].
    pose proof (skip_ws_length r3). destruct (skip_ws r3) as [|y r4]; [done|].
    destruct (_ =? 44); [intros H'; apply IE in H'; cbn in *; lia|].
    destruct (_ =? 93); [intros [= _ <-]; cbn in *; lia|done].
Qed.

Definition fuel_enough (f : nat) : Prop :=
  (forall d s, (2 * len s + 1 <= f)%nat -> parse_value (S f) d s = parse_value f d s) /\
  (forall d acc s, (2 * len s + 2 <= f)%nat -> parse_members (S f) d acc s = parse_members f d acc s) /\
  (forall d acc s, (2 * len s + 2 <= f)%nat -> parse_elements (S f) d acc s = parse_elements f d acc s).

Lemma fuel_is_enough f : fuel_enough f.
Proof.
  induction f as [|f (IV & IM & IE)]; [split_and!; intros; lia|].
  destruct (parse_length f) as (LV & LM & LE). split_and!.
  - intros d s F. cbn [parse_value]. pose proof (skip_ws_length s).
    destruct (skip_ws s) as [|c t]; [done|]. cbn [String.length] in *.
    destruct (_ =? 34); [done|]. destruct (_ =? 123).
    { destruct (_ <? _); [done|]. destruct (skip_ws t); [done|]. destruct (_ =? 125); [done|].
      apply IM; lia. }
    destruct (_ =? 91); [|done].
    destruct (_ <? _); [done|]. destruct (skip_ws t); [done|]. destruct (_ =? 93); [done|].
    apply IE; lia.
  - intros d acc s F. cbn [parse_members]. pose proof (skip_ws_length s).
    destruct (skip_ws s) as [|c t]; [done|]. destruct (_ =? 34); [|done].
    destruct (lex_string _ t) as [[key r1]|] eqn:L; [|done]. apply lex_string_length in L. cbn [mbind option_bind].
    pose proof (skip_ws_length r1). destruct (skip_ws r1) as [|x r2]; [done|]. destruct (_ =? 58); [|done].
    cbn [String.length] in *. rewrite IV by lia. destruct (parse_value f d r2) as [[v r3]|] eqn:V; [|reflexivity]. apply LV in V.
    cbn [mbind option_bind].
    pose proof (skip_ws_length r3). destruct (skip_ws r3) as [|y r4]; [done|].
    destruct (_ =? 44); [|done]. cbn [String.length] in *. apply IM; lia.
  - intros d acc s F. cbn [parse_elements]. rewrite IV by lia.
    destruct (parse_value f d s) as [[v r3]|] eqn:V; [|reflexivity]. apply LV in V.
    cbn [mbind option_bind].
    pose proof (skip_ws_length r3). destruct (skip_ws r3) as [|y r4]; [done|].
    destruct (_ =? 44); [|done]. cbn [String.length] in *. apply IE; lia.
Qed.

(** Whatever fuel is given beyond [parse_document]'s, the value is the same. *)
Lemma parse_document_fuel s k :
  parse_value (S (2 * len s) + k) 0 s = parse_value (S (2 * len s)) 0 s.
Proof.
  induction k as [|k IH]; [by rewrite Nat.add_0_r|].
  rewrite Nat.add_succ_r. rewrite (proj1 (fuel_is_enough _)) by lia. exact IH.
Qed.
