(* ===== verification/Database.v ===== *)
(** * Effects

    The effects of the code that talks to the database, the clock and the UUID
    generator, and the package [internal/platform/database] on top of them.

    A computation [M S A] is explicit state passing over the tables [S] and a
    tick counter: every SQL statement, every [time.Now] and every
    [uuid.NewString] consumes a tick, and the environment [Env] says what the
    outside world answers at each tick: the clock's reading, the identifier,
    and whether the database driver fails the statement.  Nothing is assumed of
    these answers, so a theorem about a computation holds for every clock and
    every pattern of failures.

    The two drivers (MySQL and PostgreSQL) are third-party code: a statement is
    the function on the tables that its SQL text denotes. *)

From S2P Require Import Prelude GoString.

Record Env := mkEnv {
  clock : nat -> Time;
  uuids : nat -> string;
  faults : nat -> option error;
  entropy : nat -> nat -> ascii;   (* the random bytes of a tick *)
  in_tx : bool          (* the context carries a transaction *)
}.

#[export] Instance Env_eta : Eta Env := fun e =>
  mkEnv (clock e) (uuids e) (faults e) (entropy e) (in_tx e).

Definition M (S A : Type) : Type := Env -> nat -> S -> result A * nat * S.

#[export] Instance M_ret {S} : MRet (M S) := fun A a => fun _ n s => (Ok a, n, s).
#[export] Instance M_bind {S} : MBind (M S) := fun A B f m => fun e n s =>
  match m e n s with
  | (Ok a, n', s') => f a e n' s'
  | (Err err, n', s') => (Err err, n', s')
  end.
#[export] Instance M_fmap {S} : FMap (M S) := fun A B f m => a ← m; mret (f a).

Section effects.
Context {S : Type}.

Definition fail {A} (err : error) : M S A := fun _ n s => (Err err, n, s).

(** [if guard { return err }]. *)
Definition guard_not (b : bool) (err : error) : M S unit :=
  if b then fail err else mret tt.

Definition lift {A} (r : result A) : M S A := fun _ n s => (r, n, s).

Definition now : M S Time := fun e n s => (Ok (clock e n), Datatypes.S n, s).
Definition NewString : M S string := fun e n s => (Ok (uuids e n), Datatypes.S n, s).

(** [rand.Read] into a buffer of [len] bytes. *)
Definition random_bytes (e : Env) (n len : nat) : string :=
  string_of_list_ascii (map (entropy e n) (seq 0 len)).
Definition rand_Read (len : nat) : M S string := fun e n s =>
  match faults e n with
  | Some err => (Err err, Datatypes.S n, s)
  | None => (Ok (random_bytes e n len), Datatypes.S n, s)
  end.

(** One SQL statement: it fails without an effect when the driver fails. *)
Definition stmt {A} (f : S -> result (A * S)) : M S A := fun e n s =>
  match faults e n with
  | Some err => (Err err, Datatypes.S n, s)
  | None => match f s with
            | Ok (a, s') => (Ok a, Datatypes.S n, s')
            | Err err => (Err err, Datatypes.S n, s)
            end
  end.

(** A query, and a write that cannot violate a constraint. *)
Definition query {A} (f : S -> A) : M S A := stmt (fun s => Ok (f s, s)).
Definition queryR {A} (f : S -> result A) : M S A :=
  stmt (fun s => match f s with Ok a => Ok (a, s) | Err e => Err e end).
Definition exec (f : S -> S) : M S unit := stmt (fun s => Ok (tt, f s)).

(** The error of a computation as a value, for callers that inspect it. *)
Definition attempt {A} (m : M S A) : M S (result A) := fun e n s =>
  let '(r, n', s') := m e n s in (Ok r, n', s').

(** [WithTx] and [WithinTx]: reuse the transaction of the context, otherwise
    begin one, roll back on an error of [fn] and commit; a commit that fails
    leaves the tables as they were. *)
Definition WithTx {A} (fn : M S A) : M S A := fun e n s =>
  if in_tx e then fn e n s
  else match faults e n with
       | Some err => (Err err, Datatypes.S n, s)
       | None =>
         match fn (e <| in_tx := true |>) (Datatypes.S n) s with
         | (Err err, n', _) => (Err err, n', s)
         | (Ok a, n', s') =>
           match faults e n' with
           | Some err => (Err err, Datatypes.S n', s)
           | None => (Ok a, Datatypes.S n', s')
           end
         end
       end.

(** A computation on a part of the tables. *)
Definition zoom {T A} (get : S -> T) (put : T -> S -> S) (m : M T A) : M S A := fun e n s =>
  let '(r, n', t') := m e n (get s) in (r, n', put t' s).

(** A loop over a slice that stops at the first error. *)
Fixpoint forM {A} (l : list A) (f : A -> M S unit) : M S unit :=
  match l with
  | [] => mret tt
  | x :: xs => _ ← f x; forM xs f
  end.

Fixpoint mapMM {A B} (f : A -> M S B) (l : list A) : M S (list B) :=
  match l with
  | [] => mret []
  | x :: xs => y ← f x; ys ← mapMM f xs; mret (y :: ys)
  end.

End effects.

Notation "'return!' e" := (fail e) (at level 20, e at level 9) : go_scope.

(** [sql.ErrNoRows] and the package variables several files share. *)
Definition ErrNoRows : error := Sentinel "sql.ErrNoRows".

(** The driver's error for a violated key. *)
Definition ErrDuplicate : error := Sentinel "driver.duplicate key".

(** ** SQL on tables

    A table is the list of its rows in insertion order; a query that fixes its
    order sorts it ([ORDER BY]), and [LIMIT] takes a prefix. *)
Definition update_where {A} (p : A -> bool) (f : A -> A) (rows : list A) : list A :=
  map (fun r => if p r then f r else r) rows.
Definition delete_where {A} (p : A -> bool) (rows : list A) : list A :=
  List.filter (fun r => negb (p r)) rows.
Definition select {A} (p : A -> bool) (rows : list A) : list A := List.filter p rows.
(** [QueryRow]: the first row, or [sql.ErrNoRows]. *)
Definition select_row {A} (p : A -> bool) (rows : list A) : result A :=
  match List.find p rows with Some r => Ok r | None => Err ErrNoRows end.
Definition order_by {A} (le : A -> A -> bool) (rows : list A) : list A :=
  @merge_sort _ (fun x y => le x y = true) (fun x y => decide (le x y = true)) rows.
Definition nullIfEmpty (value : string) : option string :=
  if value =s "" then None else Some value.
Definition str_le (a b : string) : bool := String.leb a b.

(** ** Rebind

    [$1], [$2], ... for the question marks of a PostgreSQL query. *)
Fixpoint rebind_runes (n : Z) (rs : list rune) : string :=
  match rs with
  | [] => ""
  | r :: rs =>
    if rune_val r =? 63 then ("$" +:+ Itoa n) +:+ rebind_runes (n + 1) rs
    else encode_rune (rune_val r) +:+ rebind_runes n rs
  end.

Definition Rebind (provider query : string) : string :=
  if provider <>s "postgres" then query else rebind_runes 1 (runes query).

(** ** Lemmas on tables *)

Lemma select_row_ok {A} (p : A -> bool) rows r :
  select_row p rows = Ok r -> r ∈ rows /\ p r = true.
Proof.
  unfold select_row. destruct (List.find p rows) eqn:E; [|discriminate].
  intros [= <-]. apply List.find_some in E as [H P].
  split; [by apply list_elem_of_In|done].
Qed.

Lemma select_row_err {A} (p : A -> bool) rows e :
  select_row p rows = Err e -> e = ErrNoRows /\ forall r, r ∈ rows -> p r = false.
Proof.
  unfold select_row. destruct (List.find p rows) eqn:E; [discriminate|].
  intros [= <-]. split; [done|]. intros r Hr. apply list_elem_of_In in Hr.
  exact (List.find_none _ _ E r Hr).
Qed.

Lemma elem_of_update_where {A} (p : A -> bool) f rows y :
  y ∈ update_where p f rows <->
  exists x, x ∈ rows /\ y = (if p x then f x else x).
Proof.
  unfold update_where. rewrite list_elem_of_In, in_map_iff.
  split; intros (x & H1 & H2); exists x.
  - split; [by apply list_elem_of_In|done].
  - split; [done|by apply list_elem_of_In].
Qed.

Lemma elem_of_select {A} (p : A -> bool) rows (x : A) :
  x ∈ select p rows <-> x ∈ rows /\ p x = true.
Proof. unfold select. rewrite !list_elem_of_In, List.filter_In. done. Qed.

Lemma elem_of_delete_where {A} (p : A -> bool) rows (x : A) :
  x ∈ delete_where p rows <-> x ∈ rows /\ p x = false.
Proof. unfold delete_where. rewrite !list_elem_of_In, List.filter_In, negb_true_iff. done. Qed.

Lemma NoDup_select {A} (p : A -> bool) rows : NoDup rows -> NoDup (select p rows).
Proof.
  unfold select. induction 1 as [|x rows Hx N IH]; cbn; [constructor|]. destruct (p x); [|done].
  constructor; [|done]. intros X. apply Hx. by apply (elem_of_select p rows x) in X as [? _].
Qed.

Lemma NoDup_delete_where {A} (p : A -> bool) rows : NoDup rows -> NoDup (delete_where p rows).
Proof. apply (NoDup_select (fun r => negb (p r))). Qed.

Lemma NoDup_map_select {A B} (f : A -> B) (p : A -> bool) rows :
  NoDup (map f rows) -> NoDup (map f (select p rows)).
Proof.
  unfold select. induction rows as [|x rows IH]; cbn; [done|]. intros N. apply NoDup_cons in N as [Hx N].
  destruct (p x); cbn; [|by apply IH]. constructor; [|by apply IH]. intros X. apply Hx.
  apply list_elem_of_In, in_map_iff in X as (y & E & Hy). rewrite <- E. apply list_elem_of_In, in_map.
  apply list_elem_of_In in Hy. apply list_elem_of_In. by apply (elem_of_select p rows y) in Hy as [? _].
Qed.

(** Rows with distinct keys of which those selected share one. *)
Lemma select_at_most_one {A B} (f : A -> B) (p : A -> bool) rows :
  NoDup (map f rows) -> (forall x y, x ∈ rows -> y ∈ rows -> p x = true -> p y = true -> f x = f y) ->
  llen (select p rows) <= 1.
Proof.
  intros N H. pose proof (NoDup_map_select f p rows N) as N'.
  destruct (select p rows) as [|x [|y l]] eqn:E; [done..|exfalso].
  cbn in N'. apply NoDup_cons in N' as [Hx _]. apply Hx.
  assert (Hp : forall z, z ∈ select p rows -> z ∈ rows /\ p z = true) by (intros z; apply elem_of_select).
  rewrite E in Hp. destruct (Hp x) as [? ?]; [constructor|]. destruct (Hp y) as [? ?]; [right; constructor|].
  rewrite (H x y) by done. constructor.
Qed.

Lemma delete_ext {A} (p q : A -> bool) rows :
  (forall x, x ∈ rows -> p x = q x) -> delete_where p rows = delete_where q rows.
Proof.
  intros H. unfold delete_where. apply List.filter_ext_in. intros x Hx. f_equal. apply H.
  by apply list_elem_of_In.
Qed.

Lemma delete_none {A} (p : A -> bool) rows :
  (forall x, x ∈ rows -> p x = false) -> delete_where p rows = rows.
Proof.
  intros H. rewrite (delete_ext p (fun _ => false) rows H). unfold delete_where.
  induction rows as [|x rows IH]; cbn; [done|]. f_equal. apply IH. intros y Hy. apply H. by right.
Qed.

Lemma delete_delete {A} (p q : A -> bool) rows :
  delete_where q (delete_where p rows) = delete_where (fun x => p x || q x) rows.
Proof.
  unfold delete_where. induction rows as [|x rows IH]; cbn; [done|].
  destruct (p x); cbn; rewrite IH; done.
Qed.

Lemma map_update_where {A B} (g : A -> B) (p : A -> bool) f rows :
  (forall x, g (f x) = g x) -> map g (update_where p f rows) = map g rows.
Proof.
  intros H. unfold update_where. rewrite map_map. apply map_ext.
  intros x. destruct (p x); auto.
Qed.

Lemma Forall_update_where {A} (Q : A -> Prop) p f rows :
  Forall Q rows -> (forall x, x ∈ rows -> p x = true -> Q x -> Q (f x)) ->
  Forall Q (update_where p f rows).
Proof.
  rewrite !Forall_forall. intros H F y Hy. apply elem_of_update_where in Hy as (x & Hx & ->).
  destruct (p x) eqn:E; auto.
Qed.

Lemma order_by_Permutation {A} (le : A -> A -> bool) rows : Permutation (order_by le rows) rows.
Proof. apply merge_sort_Permutation. Qed.

Lemma elem_of_order_by {A} (le : A -> A -> bool) rows (x : A) : x ∈ order_by le rows <-> x ∈ rows.
Proof. by rewrite order_by_Permutation. Qed.

(** Rows that are strictly in order already stay where they are. *)
Section ordered.
Context {A : Type} (le : A -> A -> bool).
Let R (x y : A) : Prop := le x y = true.
#[local] Instance R_dec x y : Decision (R x y) := decide (le x y = true).
Definition strictly (x y : A) : Prop := le x y = true /\ le y x = false.

Lemma list_merge_before l1 l2 :
  (forall x y, x ∈ l1 -> y ∈ l2 -> strictly x y) -> list_merge R l1 l2 = (l1 ++ l2)%list.
Proof.
  revert l2. induction l1 as [|x l1 IH]; intros l2 H; [by destruct l2|].
  destruct l2 as [|y l2]; [cbn; by rewrite app_nil_r|].
  rewrite list_merge_cons. destruct (decide (R x y)) as [_|n].
  - cbn [app]. f_equal. apply IH. intros u v Hu Hv. apply H; set_solver.
  - destruct n. apply (H x y); set_solver.
Qed.

Lemma list_merge_after l1 l2 :
  (forall x y, x ∈ l1 -> y ∈ l2 -> strictly y x) -> list_merge R l1 l2 = (l2 ++ l1)%list.
Proof.
  intros H. induction l2 as [|y l2 IH]; [apply list_merge_nil_r|].
  destruct l1 as [|x l1]; [cbn; by rewrite app_nil_r|].
  rewrite list_merge_cons. destruct (decide (R x y)) as [r|_].
  - destruct (H x y); [set_solver..|]. unfold R in r. congruence.
  - cbn [app]. f_equal. apply IH. intros u v Hu Hv. apply H; set_solver.
Qed.

Fixpoint oldest_first (st : list (option (list A))) : list A :=
  match st with
  | [] => []
  | None :: st => oldest_first st
  | Some l :: st => oldest_first st ++ l
  end.

Lemma oldest_first_push st l :
  StronglySorted strictly (oldest_first st ++ l) ->
  oldest_first (merge_list_to_stack R st l) = (oldest_first st ++ l)%list.
Proof.
  revert l. induction st as [|[l'|] st IH]; intros l H; cbn in *; [done| |done].
  rewrite <- app_assoc in H |- *.
  assert (E : list_merge R l' l = (l' ++ l)%list).
  { apply list_merge_before. apply StronglySorted_app_1_r in H.
    intros x y. by apply StronglySorted_app_1_elem_of. }
  rewrite E. by apply IH.
Qed.

Lemma merge_stack_oldest_first st :
  StronglySorted strictly (oldest_first st) -> merge_stack R st = oldest_first st.
Proof.
  induction st as [|[l|] st IH]; intros H; cbn in *; [done| |auto].
  rewrite IH by (by eapply StronglySorted_app_1_l).
  apply list_merge_after. intros x y Hx Hy. by eapply StronglySorted_app_1_elem_of.
Qed.

Lemma merge_sort_aux_ordered st l :
  StronglySorted strictly (oldest_first st ++ l) -> merge_sort_aux R st l = (oldest_first st ++ l)%list.
Proof.
  revert st. induction l as [|x l IH]; intros st H; cbn.
  - rewrite app_nil_r in *. by apply merge_stack_oldest_first.
  - change (x :: l) with ([x] ++ l)%list in *. rewrite app_assoc in H |- *.
    assert (E : oldest_first (merge_list_to_stack R st [x]) = (oldest_first st ++ [x])%list).
    { apply oldest_first_push. by eapply StronglySorted_app_1_l. }
    rewrite IH; rewrite E; done.
Qed.

Lemma order_by_sorted rows : StronglySorted strictly rows -> order_by le rows = rows.
Proof. intros H. by apply (merge_sort_aux_ordered []). Qed.
End ordered.

(** ** Reasoning *)

Section laws.
Context {S : Type}.
Implicit Types (e : Env) (n : nat) (s : S).

Lemma bind_ok {A B} (m : M S A) (f : A -> M S B) e n s b n' s' :
  (m ≫= f) e n s = (Ok b, n', s') <->
  exists a n1 s1, m e n s = (Ok a, n1, s1) /\ f a e n1 s1 = (Ok b, n', s').
Proof.
  unfold mbind, M_bind. destruct (m e n s) as [[[a|err] n1] s1] eqn:E; split.
  - intros H; eauto 6.
  - intros (a' & ? & ? & [= -> -> ->] & H). done.
  - discriminate.
  - intros (a' & ? & ? & ? & H). discriminate.
Qed.

Lemma ret_ok {A} (a b : A) e n s n' s' :
  (mret a : M S A) e n s = (Ok b, n', s') <-> a = b /\ n = n' /\ s = s'.
Proof. unfold mret, M_ret. split; [intros [= -> -> ->]; done|intros (-> & -> & ->); done]. Qed.

Lemma fail_ok {A} err e n s (b : A) n' s' :
  (fail err : M S A) e n s = (Ok b, n', s') <-> False.
Proof. unfold fail. split; [discriminate|done]. Qed.

Lemma guard_ok b err e n s u n' s' :
  (guard_not b err : M S unit) e n s = (Ok u, n', s') <-> b = false /\ n = n' /\ s = s'.
Proof.
  destruct u, b; unfold guard_not; [rewrite fail_ok|rewrite ret_ok]; intuition congruence.
Qed.

Lemma lift_ok {A} (r : result A) e n s (b : A) n' s' :
  (lift r : M S A) e n s = (Ok b, n', s') <-> r = Ok b /\ n = n' /\ s = s'.
Proof. unfold lift. split; [intros [= -> -> ->]; done|intros (-> & -> & ->); done]. Qed.

Lemma now_ok e n s t n' s' :
  (now : M S Time) e n s = (Ok t, n', s') <-> clock e n = t /\ n' = Datatypes.S n /\ s = s'.
Proof. unfold now. split; [intros [= -> <- ->]; done|intros (<- & -> & ->); done]. Qed.

Lemma NewString_ok e n s t n' s' :
  (NewString : M S string) e n s = (Ok t, n', s') <-> uuids e n = t /\ n' = Datatypes.S n /\ s = s'.
Proof. unfold NewString. split; [intros [= -> <- ->]; done|intros (<- & -> & ->); done]. Qed.

Lemma rand_Read_ok len e n s b n' s' :
  (rand_Read len : M S string) e n s = (Ok b, n', s') <->
  faults e n = None /\ random_bytes e n len = b /\ n' = Datatypes.S n /\ s = s'.
Proof. unfold rand_Read. destruct (faults e n); intuition congruence. Qed.

Lemma stmt_ok {A} (f : S -> result (A * S)) e n s b n' s' :
  stmt f e n s = (Ok b, n', s') <->
  faults e n = None /\ n' = Datatypes.S n /\ f s = Ok (b, s').
Proof.
  unfold stmt. destruct (faults e n); [split; [discriminate|by intros [? ?]]|].
  destruct (f s) as [[a t]|err]; split; try discriminate.
  - intros [= -> <- ->]; done.
  - intros (_ & -> & [= -> ->]); done.
  - intros (_ & _ & ?); discriminate.
Qed.

Lemma query_ok {A} (f : S -> A) e n s b n' s' :
  query f e n s = (Ok b, n', s') <->
  faults e n = None /\ n' = Datatypes.S n /\ f s = b /\ s = s'.
Proof. unfold query. rewrite stmt_ok. intuition congruence. Qed.

Lemma queryR_ok {A} (f : S -> result A) e n s b n' s' :
  queryR f e n s = (Ok b, n', s') <->
  faults e n = None /\ n' = Datatypes.S n /\ f s = Ok b /\ s = s'.
Proof. unfold queryR. rewrite stmt_ok. destruct (f s); intuition congruence. Qed.

Lemma exec_ok (f : S -> S) e n s u n' s' :
  exec f e n s = (Ok u, n', s') <->
  faults e n = None /\ n' = Datatypes.S n /\ s' = f s.
Proof. unfold exec. rewrite stmt_ok. destruct u. intuition congruence. Qed.

Lemma attempt_ok {A} (m : M S A) e n s r n' s' :
  attempt m e n s = (Ok r, n', s') <-> m e n s = (r, n', s').
Proof. unfold attempt. destruct (m e n s) as [[r' n1] s1]. split; intros [= -> -> ->]; done. Qed.

Lemma attempt_inv {A} (m : M S A) e n s r n' s' :
  attempt m e n s = (Ok r, n', s') -> m e n s = (r, n', s').
Proof. apply attempt_ok. Qed.

Lemma WithTx_ok {A} (m : M S A) e n s a n' s' :
  in_tx e = false ->
  WithTx m e n s = (Ok a, n', s') <->
  exists k, faults e n = None /\ m (e <| in_tx := true |>) (Datatypes.S n) s = (Ok a, k, s') /\
            faults e k = None /\ n' = Datatypes.S k.
Proof.
  intros T. unfold WithTx. rewrite T. destruct (faults e n) eqn:F.
  - split; [discriminate|]. intros (k & ? & _); discriminate.
  - destruct (m _ _ _) as [[[b|err] k] s1] eqn:E.
    + destruct (faults e k) eqn:F'; split; try discriminate.
      * intros (k' & _ & [= -> -> ->] & ? & ->). congruence.
      * intros [= -> <- ->]. eauto.
      * intros (k' & _ & [= -> -> ->] & _ & ->). done.
    + split; [discriminate|]. intros (k' & _ & ? & _). discriminate.
Qed.

(** A transaction that succeeds, begun here or by the caller, ran its body. *)
Lemma WithTx_run {A} (m : M S A) e n s a n' s' :
  WithTx m e n s = (Ok a, n', s') -> exists e' n0 k, clock e' = clock e /\ m e' n0 s = (Ok a, k, s').
Proof.
  unfold WithTx. destruct (in_tx e); [intros H; by exists e, n, n'|].
  destruct (faults e n); [discriminate|].
  destruct (m _ _ _) as [[[b|err] k] s1] eqn:E; [|discriminate].
  destruct (faults e k); [discriminate|]. intros [= -> <- ->].
  by exists (e <| in_tx := true |>), (Datatypes.S n), k.
Qed.

(** The two ways past a guard, an error included. *)
Lemma guard_split {A} b err (k : unit -> M S A) e n s r n' s' :
  (guard_not b err ≫= k) e n s = (r, n', s') ->
  (b = true /\ r = Err err /\ s' = s) \/ (b = false /\ k tt e n s = (r, n', s')).
Proof.
  unfold guard_not. destruct b; [|by right]. intros [= <- _ <-]. by left.
Qed.

Lemma now_split {A} (k : Time -> M S A) e n s :
  (now ≫= k) e n s = k (clock e n) e (Datatypes.S n) s.
Proof. done. Qed.

(** A transaction is atomic: whatever fails, an error leaves the tables as
    they were. *)
Lemma WithTx_atomic {A} (m : M S A) e n s err n' s' :
  in_tx e = false -> WithTx m e n s = (Err err, n', s') -> s' = s.
Proof.
  intros T. unfold WithTx. rewrite T. destruct (faults e n); [congruence|].
  destruct (m _ _ _) as [[[b|err'] k] s1]; [|congruence].
  destruct (faults e k); congruence.
Qed.

(** *** Reads

    [reads m]: [m] leaves the tables alone, so what follows it starts from
    them. *)
Definition reads {A} (m : M S A) : Prop := forall e n s, (m e n s).2 = s.

Lemma reads_split {A B} (m : M S A) (f : A -> M S B) e n s r n' s' :
  reads m -> (m ≫= f) e n s = (r, n', s') ->
  (s' = s /\ is_ok r = false) \/ exists a n1, m e n s = (Ok a, n1, s) /\ f a e n1 s = (r, n', s').
Proof.
  intros R. unfold mbind, M_bind. specialize (R e n s).
  destruct (m e n s) as [[[a|err] n1] s1]; cbn in R; subst s1.
  - intros H. right. eauto.
  - intros [= <- _ ->]. by left.
Qed.

Lemma attempt_reads {A} (m : M S A) e n s : reads m -> exists r n1, attempt m e n s = (Ok r, n1, s).
Proof.
  intros R. unfold attempt. specialize (R e n s). destruct (m e n s) as [[r n1] s1]. cbn in R. subst. eauto.
Qed.

(** *** Invariants

    [keeps I m]: [m] preserves [I], on success and on every failure. *)
Definition keeps (I : S -> Prop) {A} (m : M S A) : Prop :=
  forall e n s, I s -> I (m e n s).2.

Lemma keeps_ret I {A} (a : A) : keeps I (mret a).
Proof. by intros e n s H. Qed.
Lemma keeps_fail I {A} err : keeps I (@fail S A err).
Proof. by intros e n s H. Qed.
Lemma keeps_lift I {A} (r : result A) : keeps I (lift r).
Proof. by intros e n s H. Qed.
Lemma keeps_guard I b err : keeps I (guard_not b err).
Proof. intros e n s H. by destruct b. Qed.
Lemma keeps_now I : keeps I now.
Proof. by intros e n s H. Qed.
Lemma keeps_uuid I : keeps I NewString.
Proof. by intros e n s H. Qed.
Lemma keeps_rand I len : keeps I (rand_Read len).
Proof. intros e n s H. unfold rand_Read. by destruct (faults e n). Qed.

Lemma keeps_bind I {A B} (m : M S A) (f : A -> M S B) :
  keeps I m -> (forall a, keeps I (f a)) -> keeps I (m ≫= f).
Proof.
  intros Hm Hf e n s H. unfold mbind, M_bind. specialize (Hm e n s H).
  destruct (m e n s) as [[[a|err] n1] s1]; [by apply Hf|done].
Qed.

(** A continuation may use what a successful first part established. *)
Lemma keeps_bind_when I {A B} (m : M S A) (f : A -> M S B) (Q : A -> S -> Prop) :
  keeps I m ->
  (forall e n s a n1 s1, I s -> m e n s = (Ok a, n1, s1) -> Q a s1) ->
  (forall a e n s, I s -> Q a s -> I (f a e n s).2) ->
  keeps I (m ≫= f).
Proof.
  intros Hm HQ Hf e n s H. unfold mbind, M_bind. pose proof (Hm e n s H) as H1.
  destruct (m e n s) as [[[a|err] n1] s1] eqn:E; [|done].
  apply Hf; [done|]. exact (HQ _ _ _ _ _ _ H E).
Qed.

Lemma keeps_query I {A} (f : S -> A) : keeps I (query f).
Proof. intros e n s H. unfold query, stmt. by destruct (faults e n). Qed.
Lemma keeps_queryR I {A} (f : S -> result A) : keeps I (queryR f).
Proof. intros e n s H. unfold queryR, stmt. destruct (faults e n); [done|]. by destruct (f s). Qed.
Lemma keeps_exec I f : (forall s, I s -> I (f s)) -> keeps I (exec f).
Proof. intros K e n s H. unfold exec, stmt. destruct (faults e n); cbn; auto. Qed.
Lemma keeps_stmt I {A} (f : S -> result (A * S)) :
  (forall s a s', I s -> f s = Ok (a, s') -> I s') -> keeps I (stmt f).
Proof.
  intros K e n s H. unfold stmt. destruct (faults e n); cbn; [done|].
  destruct (f s) as [[a s']|err] eqn:E; cbn; eauto.
Qed.
Lemma keeps_attempt I {A} (m : M S A) : keeps I m -> keeps I (attempt m).
Proof.
  intros K e n s H. unfold attempt. specialize (K e n s H).
  by destruct (m e n s) as [[r n1] s1].
Qed.
Lemma keeps_WithTx I {A} (m : M S A) : keeps I m -> keeps I (WithTx m).
Proof.
  intros K e n s H. unfold WithTx. destruct (in_tx e); [by apply K|].
  destruct (faults e n); [done|].
  specialize (K (e <| in_tx := true |>) (Datatypes.S n) s H).
  destruct (m _ _ _) as [[[b|err] k] s1]; cbn in *; [|done].
  by destruct (faults e k).
Qed.
Lemma keeps_reads {A} (m : M S A) : (forall t, keeps (fun s => s = t) m) -> reads m.
Proof. intros K e n s. by apply K. Qed.
Lemma reads_keeps I {A} (m : M S A) : reads m -> keeps I m.
Proof. intros R e n s H. by rewrite R. Qed.
Lemma keeps_if I {A} (b : bool) (m1 m2 : M S A) :
  keeps I m1 -> keeps I m2 -> keeps I (if b then m1 else m2).
Proof. by destruct b. Qed.
Lemma keeps_forM I {A} (l : list A) f : (forall x, keeps I (f x)) -> keeps I (forM l f).
Proof.
  intros K. induction l; cbn; [apply keeps_ret|]. by apply keeps_bind; [|intros _].
Qed.

(** *** Specifications

    [spec I P m Q]: from tables that satisfy the invariant [I] and [P], the
    invariant holds after [m] whatever happens, and [Q] when it succeeds. *)
Definition spec (I P : S -> Prop) {A} (m : M S A) (Q : A -> S -> Prop) : Prop :=
  forall e n s, I s -> P s ->
    I (m e n s).2 /\ forall a n' s', m e n s = (Ok a, n', s') -> Q a s'.

Lemma spec_bind {A B} I P (m : M S A) (f : A -> M S B) Q R :
  spec I P m Q -> (forall a, spec I (Q a) (f a) R) -> spec I P (m ≫= f) R.
Proof.
  intros Hm Hf e n s HI HP. unfold mbind, M_bind. destruct (Hm e n s HI HP) as [H1 H2].
  destruct (m e n s) as [[[a|err] n1] s1]; [|split; [done|discriminate]].
  apply Hf; [done|]. by eapply H2.
Qed.

Lemma spec_conseq {A} I P P' (m : M S A) Q Q' :
  spec I P' m Q' -> (forall s, I s -> P s -> P' s) -> (forall a s, Q' a s -> Q a s) -> spec I P m Q.
Proof.
  intros Hm HP HQ e n s HI Hs. destruct (Hm e n s HI (HP s HI Hs)) as [H1 H2].
  split; [done|]. intros a n' s' E. apply HQ. by eapply H2.
Qed.

Lemma spec_weaken {A} I P (m : M S A) Q Q' :
  spec I P m Q' -> (forall a s, Q' a s -> Q a s) -> spec I P m Q.
Proof. intros Hm HQ. by eapply spec_conseq. Qed.

Lemma spec_ret {A} I P (a : A) (Q : A -> S -> Prop) :
  (forall s, I s -> P s -> Q a s) -> spec I P (mret a) Q.
Proof. intros H e n s HI HP. split; [done|]. intros b n' s' [= <- _ <-]. auto. Qed.

Lemma spec_fail {A} I P err Q : spec I P (@fail S A err) Q.
Proof. intros e n s HI HP. split; [done|discriminate]. Qed.

Lemma spec_guard I P b err : spec I P (guard_not b err) (fun _ s => P s /\ b = false).
Proof.
  intros e n s HI HP. destruct b; [by apply (spec_fail I P)|].
  split; [done|]. intros a n' s' [= _ _ <-]. done.
Qed.

Lemma spec_lift {A} I P (r : result A) : spec I P (lift r) (fun a s => P s /\ r = Ok a).
Proof. intros e n s HI HP. split; [done|]. intros a n' s' [= -> _ <-]. done. Qed.

Lemma spec_now I P : spec I P now (fun _ s => P s).
Proof. intros e n s HI HP. split; [done|]. intros a n' s' [= _ _ <-]. done. Qed.

Lemma spec_uuid I P : spec I P NewString (fun _ s => P s).
Proof. intros e n s HI HP. split; [done|]. intros a n' s' [= _ _ <-]. done. Qed.

Lemma random_bytes_length e n len : String.length (random_bytes e n len) = len.
Proof.
  unfold random_bytes.
  assert (G : forall l, String.length (string_of_list_ascii l) = length l) by (induction l; cbn; congruence).
  by rewrite G, length_map, length_seq.
Qed.

Lemma spec_rand I P len :
  spec I P (rand_Read len) (fun b s => P s /\ String.length b = len).
Proof.
  intros e n s HI HP. unfold rand_Read. destruct (faults e n); split; try done.
  intros a n' s' [= <- _ <-]. split; [done|]. apply random_bytes_length.
Qed.

Lemma spec_query {A} I P (f : S -> A) : spec I P (query f) (fun a s => P s /\ f s = a).
Proof.
  intros e n s HI HP. unfold query, stmt. destruct (faults e n); split; try done.
  intros a n' s' [= <- _ <-]. done.
Qed.

Lemma spec_queryR {A} I P (f : S -> result A) : spec I P (queryR f) (fun a s => P s /\ f s = Ok a).
Proof.
  intros e n s HI HP. unfold queryR, stmt. destruct (faults e n); [done|].
  destruct (f s) eqn:E; split; try done. intros b n' s' [= <- _ <-]. done.
Qed.

Lemma spec_attempt_queryR {A} I P (f : S -> result A) :
  spec I P (attempt (queryR f)) (fun r s => P s /\ forall a, r = Ok a -> f s = Ok a).
Proof.
  intros e n s HI HP. unfold attempt, queryR, stmt. destruct (faults e n); [|destruct (f s) eqn:E];
    split; try done; intros b n' s' [= <- _ <-]; split; done || congruence.
Qed.

Lemma spec_exec I P f (Q : S -> Prop) :
  (forall s, I s -> P s -> I (f s) /\ Q (f s)) -> spec I P (exec f) (fun _ => Q).
Proof.
  intros H e n s HI HP. destruct (H s HI HP) as [H1 H2].
  unfold exec, stmt. destruct (faults e n); split; try done. intros a n' s' [= _ _ <-]. done.
Qed.

Lemma spec_stmt {A} I P (f : S -> result (A * S)) (Q : A -> S -> Prop) :
  (forall s a s', I s -> P s -> f s = Ok (a, s') -> I s' /\ Q a s') -> spec I P (stmt f) Q.
Proof.
  intros H e n s HI HP. unfold stmt. destruct (faults e n); [done|].
  destruct (f s) as [[a s']|] eqn:E; [|done]. destruct (H _ _ _ HI HP E) as [H1 H2].
  split; [done|]. intros b n' t [= <- _ <-]. done.
Qed.

Lemma spec_keeps {A} I P (m : M S A) : keeps I m -> spec I P m (fun _ _ => True).
Proof. intros H e n s HI _. split; [by apply H|done]. Qed.

Lemma keeps_spec {A} I (m : M S A) Q : spec I (fun _ => True) m Q -> keeps I m.
Proof. intros H e n s HI. by apply H. Qed.

Lemma spec_WithTx {A} I P (m : M S A) Q : spec I P m Q -> spec I P (WithTx m) Q.
Proof.
  intros H e n s HI HP. unfold WithTx. destruct (in_tx e); [by apply H|].
  destruct (faults e n); [done|].
  destruct (H (e <| in_tx := true |>) (Datatypes.S n) s HI HP) as [H1 H2].
  destruct (m _ _ _) as [[[a|err] k] s1]; [|split; [done|discriminate]].
  destruct (faults e k); split; try done. intros b n' t [= <- _ <-]. by eapply H2.
Qed.

Lemma spec_if {A} I P (b : bool) (m1 m2 : M S A) Q :
  (b = true -> spec I P m1 Q) -> (b = false -> spec I P m2 Q) -> spec I P (if b then m1 else m2) Q.
Proof. destruct b; auto. Qed.

(** A loop with the invariant [J] over the elements that remain. *)
Lemma spec_forM {A} I (J : list A -> S -> Prop) (l : list A) f :
  (forall x rest, spec I (J (x :: rest)) (f x) (fun _ => J rest)) ->
  spec I (J l) (forM l f) (fun _ => J []).
Proof.
  intros H. induction l as [|x l IH]; [apply spec_ret; auto|].
  change (spec I (J (x :: l)) (_ ← f x; forM l f) (fun _ => J [])).
  eapply spec_bind; [apply H|]. intros a. exact IH.
Qed.
End laws.

#[export] Hint Resolve keeps_ret keeps_fail keeps_lift keeps_guard keeps_now keeps_uuid keeps_rand
  keeps_query keeps_queryR : forge.

(** *** Ticks

    [advances m]: the counter never goes back. *)
Definition advances {S A} (m : M S A) : Prop := forall e n s, (n <= (m e n s).1.2)%nat.

Section ticks.
Context {S : Type}.

Lemma advances_ret {A} (a : A) : advances (mret a : M S A).
Proof. intros e n s. cbn. lia. Qed.
Lemma advances_fail {A} err : advances (@fail S A err).
Proof. intros e n s. cbn. lia. Qed.
Lemma advances_lift {A} (r : result A) : advances (lift r : M S A).
Proof. intros e n s. cbn. lia. Qed.
Lemma advances_guard b err : advances (guard_not b err : M S unit).
Proof. intros e n s. destruct b; cbn; lia. Qed.
Lemma advances_now : advances (now : M S Time).
Proof. intros e n s. cbn. lia. Qed.
Lemma advances_uuid : advances (NewString : M S string).
Proof. intros e n s. cbn. lia. Qed.
Lemma advances_rand len : advances (rand_Read len : M S string).
Proof. intros e n s. unfold rand_Read. destruct (faults e n); cbn; lia. Qed.
Lemma advances_stmt {A} (f : S -> result (A * S)) : advances (stmt f).
Proof. intros e n s. unfold stmt. destruct (faults e n); [cbn; lia|]. destruct (f s) as [[]|]; cbn; lia. Qed.
Lemma advances_query {A} (f : S -> A) : advances (query f).
Proof. apply advances_stmt. Qed.
Lemma advances_queryR {A} (f : S -> result A) : advances (queryR f).
Proof. apply advances_stmt. Qed.
Lemma advances_exec f : advances (exec f : M S unit).
Proof. apply advances_stmt. Qed.
Lemma advances_bind {A B} (m : M S A) (f : A -> M S B) :
  advances m -> (forall a, advances (f a)) -> advances (m ≫= f).
Proof.
  intros Hm Hf e n s. unfold mbind, M_bind. specialize (Hm e n s).
  destruct (m e n s) as [[[a|err] n1] s1]; cbn in *; [|lia]. specialize (Hf a e n1 s1). lia.
Qed.
Lemma advances_attempt {A} (m : M S A) : advances m -> advances (attempt m).
Proof. intros Hm e n s. unfold attempt. specialize (Hm e n s). by destruct (m e n s) as [[r n1] s1]. Qed.
Lemma advances_WithTx {A} (m : M S A) : advances m -> advances (WithTx m).
Proof.
  intros Hm e n s. unfold WithTx. destruct (in_tx e); [apply Hm|]. destruct (faults e n); [cbn; lia|].
  specialize (Hm (e <| in_tx := true |>) (Datatypes.S n) s).
  destruct (m _ _ _) as [[[a|err] n1] s1]; cbn in *; [|lia]. destruct (faults e n1); cbn; lia.
Qed.
Lemma advances_forM {A} (l : list A) (f : A -> M S unit) : (forall x, advances (f x)) -> advances (forM l f).
Proof. intros Hf. induction l; [apply advances_ret|]. apply advances_bind; auto. Qed.
Lemma advances_mapMM {A B} (f : A -> M S B) l : (forall x, advances (f x)) -> advances (mapMM f l).
Proof.
  intros Hf. induction l; [apply advances_ret|]. apply advances_bind; [apply Hf|intros ?].
  apply advances_bind; [done|intros ?; apply advances_ret].
Qed.
Lemma advances_zoom {T A} (get : S -> T) put (m : M T A) : advances m -> advances (zoom get put m).
Proof. intros Hm e n s. unfold zoom. specialize (Hm e n (get s)). by destruct (m _ _ _) as [[r n1] s1]. Qed.
End ticks.

#[export] Hint Resolve advances_ret advances_fail advances_lift advances_guard advances_now advances_uuid
  advances_rand advances_stmt advances_query advances_queryR advances_exec : forge.

Ltac advances_walk :=
  repeat first
    [ match goal with |- forall _, _ => intros ? end
    | solve [eauto 2 with forge]
    | apply advances_bind | apply advances_WithTx | apply advances_attempt | apply advances_forM
    | apply advances_mapMM | apply advances_zoom
    | match goal with
      | |- advances (match ?x with _ => _ end) => destruct x
      | |- advances (let '(_, _) := ?x in _) => destruct x
      end ].

(** *** Runs without faults

    [total m]: when no statement fails in the driver, [m] succeeds. *)
Definition no_faults (e : Env) : Prop := forall k, faults e k = None.
Definition total {S A} (m : M S A) : Prop := forall e n s, no_faults e -> exists a n' s', m e n s = (Ok a, n', s').

Section totality.
Context {S : Type}.

Lemma total_ret {A} (a : A) : total (mret a : M S A).
Proof. intros e n s F. by exists a, n, s. Qed.
Lemma total_now : total (now : M S Time).
Proof. intros e n s F. by eexists _, _, _. Qed.
Lemma total_uuid : total (NewString : M S string).
Proof. intros e n s F. by eexists _, _, _. Qed.
Lemma total_rand len : total (rand_Read len : M S string).
Proof. intros e n s F. unfold rand_Read. rewrite F. by eexists _, _, _. Qed.
Lemma total_query {A} (f : S -> A) : total (query f).
Proof. intros e n s F. unfold query, stmt. rewrite F. by eexists _, _, _. Qed.
Lemma total_exec f : total (exec f : M S unit).
Proof. intros e n s F. unfold exec, stmt. rewrite F. by eexists _, _, _. Qed.
Lemma total_bind {A B} (m : M S A) (f : A -> M S B) : total m -> (forall a, total (f a)) -> total (m ≫= f).
Proof.
  intros Hm Hf e n s F. unfold mbind, M_bind. destruct (Hm e n s F) as (a & n1 & s1 & ->). by apply Hf.
Qed.
Lemma total_attempt {A} (m : M S A) : total (attempt m).
Proof. intros e n s F. unfold attempt. destruct (m e n s) as [[r n1] s1]. by eexists _, _, _. Qed.
Lemma total_forM {A} (l : list A) (f : A -> M S unit) : (forall x, total (f x)) -> total (forM l f).
Proof. intros Hf. induction l; [apply total_ret|]. by apply total_bind; [apply Hf|intros _]. Qed.
End totality.

#[export] Hint Resolve total_ret total_now total_uuid total_rand total_query total_exec total_attempt : forge.

Ltac total_walk :=
  repeat first
    [ match goal with |- forall _, _ => intros ? end
    | solve [eauto 2 with forge]
    | apply total_bind | apply total_forM
    | match goal with
      | |- total (match ?x with _ => _ end) => destruct x
      | |- total (let '(_, _) := ?x in _) => destruct x
      end ].

(** Step over a part that succeeds. *)
Lemma total_split {S A B} (m : M S A) (f : A -> M S B) e n s : total m -> no_faults e ->
  exists a n1 s1, m e n s = (Ok a, n1, s1) /\ (m ≫= f) e n s = f a e n1 s1.
Proof.
  intros T F. destruct (T e n s F) as (a & n1 & s1 & E). exists a, n1, s1. split; [done|].
  unfold mbind, M_bind. by rewrite E.
Qed.

Ltac next_total T :=
  match goal with |- context [(?m ≫= ?f) ?e ?n ?s] =>
    destruct (total_split m f e n s T) as (? & ? & ? & _ & ->); [done|]
  end.

(** Decompose a successful run into the runs of its parts. *)
Ltac run_step :=
  match goal with
  | H : _ /\ _ |- _ => destruct H
  | H : exists _, _ |- _ => destruct H
  | H : (_ ≫= _) _ _ _ = (Ok _, _, _) |- _ => apply bind_ok in H as (? & ? & ? & ? & ?)
  | H : mret _ _ _ _ = (Ok _, _, _) |- _ => apply ret_ok in H as (? & ? & ?)
  | H : fail _ _ _ _ = (Ok _, _, _) |- _ => apply fail_ok in H as []
  | H : guard_not _ _ _ _ _ = (Ok _, _, _) |- _ => apply guard_ok in H as (? & ? & ?)
  | H : lift _ _ _ _ = (Ok _, _, _) |- _ => apply lift_ok in H as (? & ? & ?)
  | H : now _ _ _ = (Ok _, _, _) |- _ => apply now_ok in H as (? & ? & ?)
  | H : NewString _ _ _ = (Ok _, _, _) |- _ => apply NewString_ok in H as (? & ? & ?)
  | H : rand_Read _ _ _ _ = (Ok _, _, _) |- _ => apply rand_Read_ok in H as (? & ? & ? & ?)
  | H : query _ _ _ _ = (Ok _, _, _) |- _ => apply query_ok in H as (? & ? & ? & ?)
  | H : queryR _ _ _ _ = (Ok _, _, _) |- _ => apply queryR_ok in H as (? & ? & ? & ?)
  | H : exec _ _ _ _ = (Ok _, _, _) |- _ => apply exec_ok in H as (? & ? & ?)
  | H : stmt _ _ _ _ = (Ok _, _, _) |- _ => apply stmt_ok in H as (? & ? & ?)
  | H : attempt _ _ _ _ = (Ok _, _, _) |- _ => apply attempt_inv in H
  | H : ?x = ?x |- _ => clear H
  end.
Ltac run := repeat (run_step; subst).

(** Walk through the structure of a computation that keeps an invariant. *)
Ltac keeps_walk :=
  repeat first
    [ match goal with |- forall _, _ => intros ? end
    | solve [eauto 2 with forge]
    | apply keeps_bind
    | apply keeps_WithTx
    | apply keeps_attempt
    | apply keeps_forM
    | apply keeps_if
    | match goal with
      | |- keeps _ (match ?x with _ => _ end) => destruct x
      | |- keeps _ (let '(_, _) := ?x in _) => destruct x
      end ].

(** Step over a part that only reads: either the run fails there, with the
    tables as they were, or it goes on from them. *)
Ltac next_read H :=
  apply reads_split in H;
  [destruct H as [[? ?]|(? & ? & ? & H)]; [left; subst; done|]
  |apply keeps_reads; intros ?; keeps_walk].
