(* ===== verification/Keyring.v ===== *)
(** * Key ring

    The package [internal/platform/security/crypto]: a versioned ring of
    encryption keys behind the interface [Provider], and the dual control of a
    key rotation.  The block ciphers, GCM and SM3 are cryptographic libraries:
    parameters, with the one law that opening inverts sealing. *)

From S2P Require Import Prelude GoString Crypto Strconv Database.

(** ** The provider interface

    [Encrypt] draws a random nonce.  The errors of [Decrypt] are its own: none
    of them is an error that the identity service returns. *)
Definition no_identity_error {A} (r : result A) : Prop :=
  forall err name, r = Err err -> errors_Is err (Sentinel ("identity." +:+ name)) = false.

Class Provider := {
  prov_KeyVersion : string;
  prov_Hash : string -> string;
  prov_Encrypt : forall S : Type, string -> string -> M S string;
  prov_Decrypt : string -> string -> result string;
  prov_Encrypt_reads : forall (S : Type) p aad, reads (prov_Encrypt S p aad);
  prov_Decrypt_own : forall v aad, no_identity_error (prov_Decrypt v aad)
}.

(** ** Block ciphers *)

(** [cipher.Block]: AES with a key of 16, 24 or 32 bytes, SM4 with one of 16. *)
Inductive Block := AES (key : string) | SM4 (key : string).

Class Ciphers := {
  gcm_Seal : Block -> string -> string -> string -> string;
  gcm_Open : Block -> string -> string -> string -> option string;
  sm3_Sum : string -> string;
  gcm_Open_Seal : forall b nonce p aad, gcm_Open b nonce (gcm_Seal b nonce p aad) aad = Some p
}.

Definition NonceSize : nat := 12.

Definition aes_NewCipher (key : string) : result Block :=
  if (slen key =? 16) || (slen key =? 24) || (slen key =? 32) then Ok (AES key)
  else Err (Errorf "crypto/aes: invalid key size " [FInt (slen key)]).

Definition sm4_NewCipher (key : string) : result Block :=
  if slen key =? 16 then Ok (SM4 key) else Err (Errorf "sm4: invalid key size " [FInt (slen key)]).

Definition keyringBlock (name key : string) : result Block :=
  if name =s "gm" then
    if slen key <? 16 then Err (Errorf "gm crypto key must contain at least 16 bytes" [])
    else sm4_NewCipher (stake 16 key)
  else aes_NewCipher key.

(** ** Sealed texts *)

(** [base64.StdEncoding.DecodeString]: quanta of four characters of which the
    last one may be padded. *)
Fixpoint b64_unpad (l : list ascii) : option (list ascii) :=
  match l with
  | [] => Some []
  | a :: b :: c :: d :: rest =>
    if Ascii.eqb d "=" then
      match rest with
      | [] => Some (if Ascii.eqb c "=" then [a; b] else [a; b; c])
      | _ => None
      end
    else tail ← b64_unpad rest; Some (a :: b :: c :: d :: tail)
  | _ => None
  end.
Definition StdDecoding (s : string) : option string :=
  chars ← b64_unpad (List.filter not_newline (list_ascii_of_string s));
  digits ← mapM (b64_val false) chars;
  bytes_string <$> b64_quanta digits.

Definition RawURLDecoding (s : string) : option string := b64_decode_raw true s.

Definition normalizeKey (raw : string) : result string :=
  if raw =s "" then Err (Errorf "FORGE_CRYPTO_KEY is required" [])
  else match (b ← StdDecoding raw; if 32 <=? slen b then Some (stake 32 b) else None) with
  | Some key => Ok key
  | None =>
    if 32 <=? slen raw then Ok (Sum256 raw)
    else Err (Errorf
      "FORGE_CRYPTO_KEY must contain at least 32 bytes or be base64 encoding of at least 32 bytes" [])
  end.

Section sealed.
Context `{Ciphers}.

Definition sealed (version : string) (block : Block) (p aad nonce : string) : string :=
  version +:+ "." +:+ RawURLEncoding (nonce +:+ gcm_Seal block nonce p aad).

Definition seal {S} (version : string) (block : Block) (p aad : string) : M S string :=
  nonce ← rand_Read NonceSize;
  mret (sealed version block p aad nonce).

Definition open (version : string) (block : Block) (v aad : string) : result string :=
  encoded ← match IndexByte v "." with
            | Some i =>
              if stake i v <>s version then
                Err (Errorf "ciphertext key version %q is not active version %q" [FStr (stake i v); FStr version])
              else Ok (sdrop (S i) v)
            | None => Ok v
            end;
  match RawURLDecoding encoded with
  | None => Err (Errorf "illegal base64 data" [])
  | Some raw =>
    if slen raw <? Z.of_nat NonceSize then Err (Errorf "ciphertext too short" [])
    else match gcm_Open block (stake NonceSize raw) (sdrop NonceSize raw) aad with
    | Some p => Ok p
    | None => Err (Errorf "cipher: message authentication failed" [])
    end
  end.
End sealed.

(** ** The ring *)

Record KeyVersion := mkKeyVersion { kv_Version : string; kv_Active : bool; kv_DecryptOnly : bool }.

Record keyring := mkKeyring {
  kr_name : string;
  kr_active : string;
  kr_keys : gmap string string
}.

(** ["." CR LF TAB space]. *)
Definition version_separators : string :=
  String "." (String (ascii_of_nat 13) (String (ascii_of_nat 10) (String (ascii_of_nat 9) " "))).

Definition validateKeyVersion (version : string) : result unit :=
  if (version =s "") || ContainsAny version version_separators then
    Err (Errorf "crypto key version must be non-empty and contain no dots or whitespace" [])
  else Ok tt.

(** The loop over [rawKeys], in the order in which the map is ranged over. *)
Fixpoint load_keys (rawKeys : list (string * string)) (keys : gmap string string) : result (gmap string string) :=
  match rawKeys with
  | [] => Ok keys
  | (version, rawKey) :: rest =>
    let version := TrimSpace version in
    _ ← validateKeyVersion version;
    key ← match normalizeKey rawKey with
          | Ok key => Ok key
          | Err err => Err (Wrapf "crypto key %q: %w" [FStr version] err)
          end;
    load_keys rest (<[version := key]> keys)
  end.

Definition NewKeyring (name : string) (rawKeys : list (string * string)) (activeVersion : string)
  : result keyring :=
  let name := ToLower (TrimSpace name) in
  if (name <>s "standard") && (name <>s "gm") then Err (Errorf "unknown crypto provider %q" [FStr name])
  else
    let activeVersion := TrimSpace activeVersion in
    _ ← validateKeyVersion activeVersion;
    if llen rawKeys =? 0 then Err (Errorf "crypto keyring must contain at least one key" [])
    else
      keys ← load_keys rawKeys ∅;
      match keys !! activeVersion with
      | None => Err (Errorf "active crypto key version %q is not present in keyring" [FStr activeVersion])
      | Some _ => Ok (mkKeyring name activeVersion keys)
      end.

Definition New (name rawKey : string) (versions : list string) : result keyring :=
  let version := match versions with v :: _ => if v <>s "" then v else "v1" | [] => "v1" end in
  NewKeyring name [(version, rawKey)] version.

Definition KeyVersions (k : keyring) : list KeyVersion :=
  map (fun v => mkKeyVersion v (v =s kr_active k) (v <>s kr_active k))
    (order_by str_le (map fst (map_to_list (kr_keys k)))).

Section ring.
Context `{Ciphers}.

Definition keyring_Hash (k : keyring) (data : string) : string :=
  if kr_name k =s "gm" then sm3_Sum data else Sum256 data.

(** A key that is not there is the nil slice. *)
Definition keyring_Encrypt {S} (k : keyring) (plaintext aad : string) : M S string :=
  block ← lift (keyringBlock (kr_name k) (default "" (kr_keys k !! kr_active k)));
  seal (kr_active k) block plaintext aad.

Definition keyring_Decrypt (k : keyring) (encoded aad : string) : result string :=
  let version := match IndexByte encoded "." with Some i => stake i encoded | None => kr_active k end in
  match kr_keys k !! version with
  | None => Err (Errorf "ciphertext key version %q is not present in keyring" [FStr version])
  | Some key =>
    block ← keyringBlock (kr_name k) key;
    open version block encoded aad
  end.
End ring.

(** ** Rotation *)

Record RotationRequest := mkRotation {
  rot_ApprovalID : string;
  rot_KeyID : string;
  rot_NewVersion : string;
  rot_FirstOperator : string;
  rot_SecondOperator : string
}.

Section rotation.
Context {S : Type}.
(** The adapters of the interfaces [DualControl] and [KeySource]. *)
Variable Authorize : string -> string -> string -> string -> string -> M S unit.
Variable Activate : string -> string -> M S unit.

Definition Rotate (request : RotationRequest) : M S unit :=
  let approval := TrimSpace (rot_ApprovalID request) in
  let key := TrimSpace (rot_KeyID request) in
  let version := TrimSpace (rot_NewVersion request) in
  let first := TrimSpace (rot_FirstOperator request) in
  let second := TrimSpace (rot_SecondOperator request) in
  _ ← guard_not ((approval =s "") || (key =s "") || (version =s "") || (first =s "") || (second =s "") ||
                 (first =s second) || ContainsAny version version_separators)
        (Errorf "key rotation requires approval, key, version, and two distinct operators" []);
  _ ← Authorize approval key version first second;
  Activate key version.
End rotation.

(** ** Lemmas *)

Lemma IndexByte_app s c t : IndexByte s c = None ->
  IndexByte (s +:+ String c t) c = Some (String.length s).
Proof.
  induction s as [|a s IH]; intros N.
  - rewrite append_nil. cbn. by rewrite Ascii.eqb_refl.
  - rewrite append_cons. cbn in N |- *. destruct (Ascii.eqb a c); [done|].
    rewrite IH; [done|]. by destruct (IndexByte s c).
Qed.

Lemma stake_app s t : stake (String.length s) (s +:+ t) = s.
Proof. induction s; [by destruct t|]. rewrite append_cons. cbn. by f_equal. Qed.
Lemma sdrop_app s t : sdrop (String.length s) (s +:+ t) = t.
Proof. induction s; [done|]. rewrite append_cons. done. Qed.

Lemma sdrop_past s c t : sdrop (S (String.length s)) (s +:+ String c t) = t.
Proof. induction s as [|a s IH]; [done|]. rewrite append_cons. exact IH. Qed.

Lemma ContainsAny_none s chars c : ContainsAny s chars = false -> IndexByte chars c <> None -> IndexByte s c = None.
Proof.
  intros H N. induction s as [|a s IH]; [done|]. cbn in H |- *.
  destruct (IndexByte chars a) eqn:E; [discriminate|]. destruct (Ascii.eqb_spec a c) as [->|]; [done|].
  by rewrite IH.
Qed.

Lemma valid_version version : validateKeyVersion version = Ok tt -> IndexByte version "." = None.
Proof.
  unfold validateKeyVersion. intros H. cases H. breflect.
  by eapply ContainsAny_none.
Qed.

Lemma stake_full n s : Z.of_nat n <= slen s -> slen (stake n s) = Z.of_nat n.
Proof.
  revert s. unfold slen. induction n as [|n IH]; intros [|c s] L; cbn in *; try lia.
  specialize (IH s). lia.
Qed.

Lemma normalizeKey_length raw key : normalizeKey raw = Ok key -> slen key = 32.
Proof.
  unfold normalizeKey. destruct (raw =s ""); [discriminate|].
  destruct (StdDecoding raw) as [b|]; cbn [mbind option_bind].
  - destruct (32 <=? slen b) eqn:L.
    + intros E. assert (key = stake 32 b) as -> by congruence. breflect. by apply (stake_full 32).
    + destruct (32 <=? slen raw); [|discriminate]. intros [= <-]. apply Sum256_length.
  - destruct (32 <=? slen raw); [|discriminate]. intros [= <-]. apply Sum256_length.
Qed.

Lemma load_keys_length rawKeys keys keys' :
  load_keys rawKeys keys = Ok keys' ->
  map_Forall (fun _ key => slen key = 32) keys -> map_Forall (fun _ key => slen key = 32) keys'.
Proof.
  revert keys. induction rawKeys as [|[v raw] rest IH]; intros keys H F; cbn in H; [by injection H as <-|].
  destruct (validateKeyVersion _); [|discriminate].
  destruct (normalizeKey raw) as [key|] eqn:N; [|discriminate]. apply (IH _ H).
  apply map_Forall_insert_2; [by eapply normalizeKey_length|done].
Qed.

(** What [NewKeyring] establishes. *)
Record keyring_ok (k : keyring) : Prop := {
  ok_name : kr_name k = "standard" \/ kr_name k = "gm";
  ok_version : IndexByte (kr_active k) "." = None;
  ok_active : is_Some (kr_keys k !! kr_active k);
  ok_keys : map_Forall (fun _ key => slen key = 32) (kr_keys k)
}.

Lemma NewKeyring_ok name rawKeys active k : NewKeyring name rawKeys active = Ok k -> keyring_ok k.
Proof.
  unfold NewKeyring. intros H. destruct (_ && _) eqn:G; [discriminate|]. cbn in H.
  destruct (validateKeyVersion _) as [[]|] eqn:V; [|discriminate]. cbn in H.
  destruct (_ =? 0); [discriminate|]. destruct (load_keys rawKeys ∅) as [keys|] eqn:L; [|discriminate].
  cbn in H. destruct (keys !! _) eqn:A; [|discriminate]. injection H as <-. constructor; cbn.
  - apply andb_false_iff in G as [G|G]; breflect; auto.
  - by apply valid_version.
  - by rewrite A.
  - apply (load_keys_length _ _ _ L). apply map_Forall_empty.
Qed.

Section laws.
Context `{Ciphers}.

Lemma keyringBlock_ok name key : name = "standard" \/ name = "gm" -> slen key = 32 ->
  exists block, keyringBlock name key = Ok block.
Proof.
  intros N L. pose proof (stake_full 16 key ltac:(lia)) as L16. change (Z.of_nat 16) with 16 in L16.
  unfold keyringBlock, sm4_NewCipher, aes_NewCipher. rewrite L, L16. destruct N as [-> | ->]; by eexists.
Qed.

Lemma open_sealed version block p aad nonce : IndexByte version "." = None ->
  String.length nonce = NonceSize -> open version block (sealed version block p aad nonce) aad = Ok p.
Proof.
  intros V L. unfold open, sealed. set (text := RawURLEncoding _).
  change (version +:+ "." +:+ text) with (version +:+ String "." text).
  rewrite IndexByte_app, stake_app, seqb_refl by done. cbn [negb].
  rewrite sdrop_past. unfold mbind, result_bind.
  assert (RawURLDecoding text = Some (nonce +:+ gcm_Seal block nonce p aad)) as -> by apply b64_decode_encode.
  assert (slen (nonce +:+ gcm_Seal block nonce p aad) <? Z.of_nat NonceSize = false) as ->.
  { apply Z.ltb_ge. unfold slen. rewrite length_append, L. lia. }
  rewrite <- L, stake_app, sdrop_app, gcm_Open_Seal. done.
Qed.

Lemma sealed_version version block p aad nonce : IndexByte version "." = None ->
  IndexByte (sealed version block p aad nonce) "." = Some (String.length version) /\
  stake (String.length version) (sealed version block p aad nonce) = version.
Proof.
  intros V. unfold sealed. set (text := RawURLEncoding _).
  change (version +:+ "." +:+ text) with (version +:+ String "." text). split; [by apply IndexByte_app|apply stake_app].
Qed.

(** C20. Rotating the keys loses nothing: a text encrypted under a ring is
    decrypted, under the same additional data, by every ring of the same
    provider that still has the key that was active then, whichever version is
    active now; and a ring without that version refuses the text. *)
Theorem ciphertexts_survive_rotation name rawKeys active k name' rawKeys' active' k' {S} p aad e n (s : S) :
  NewKeyring name rawKeys active = Ok k -> NewKeyring name' rawKeys' active' = Ok k' ->
  kr_name k' = kr_name k -> (forall i, faults e i = None) ->
  exists text n', keyring_Encrypt k p aad e n s = (Ok text, n', s) /\
    (kr_keys k' !! kr_active k = kr_keys k !! kr_active k -> keyring_Decrypt k' text aad = Ok p) /\
    (kr_keys k' !! kr_active k = None -> is_ok (keyring_Decrypt k' text aad) = false).
Proof.
  intros K K' N F. apply NewKeyring_ok in K as [Kn Kv [key Ka] Kk]. apply NewKeyring_ok in K' as [_ _ _ Kk'].
  destruct (keyringBlock_ok (kr_name k) key) as [block B]; [done|by eapply Kk|].
  unfold keyring_Encrypt. rewrite Ka. unfold default, from_option, id, mbind, M_bind, lift, seal, rand_Read.
  rewrite B. unfold mbind, M_bind. rewrite F. do 2 eexists. split; [reflexivity|]. set (nonce := random_bytes _ _ _).
  unfold keyring_Decrypt. destruct (sealed_version (kr_active k) block p aad nonce Kv) as [-> ->].
  split; intros E; rewrite E; [|done]. rewrite N, B. apply open_sealed; [done|]. apply random_bytes_length.
Qed.
End laws.

Lemma no_identity_error_ok {A} (a : A) : no_identity_error (Ok a).
Proof. intros err name [=]. Qed.
Lemma no_identity_error_new {A} format args : @no_identity_error A (Err (Errorf format args)).
Proof. intros err name [= <-]. reflexivity. Qed.
Lemma no_identity_error_bind {A B} (r : result A) (f : A -> result B) :
  no_identity_error r -> (forall a, no_identity_error (f a)) -> no_identity_error (r ≫= f).
Proof. intros Hr Hf. destruct r as [a|err']; [apply Hf|]. intros err name [= <-]. by apply (Hr err'). Qed.
#[local] Hint Resolve no_identity_error_ok no_identity_error_new : forge.

(** The ring as the provider of the rest of the program. *)
Definition keyring_Provider `{Ciphers} (k : keyring) : Provider.
Proof.
  refine {| prov_KeyVersion := kr_active k; prov_Hash := keyring_Hash k;
            prov_Encrypt := fun S => @keyring_Encrypt _ S k; prov_Decrypt := keyring_Decrypt k |}.
  - intros S p aad. apply keeps_reads. intros t. unfold keyring_Encrypt, seal. keeps_walk.
  - intros v aad. unfold keyring_Decrypt, keyringBlock, sm4_NewCipher, aes_NewCipher, open.
    repeat first [solve [auto with forge] | apply no_identity_error_bind; [|intros ?]
      | match goal with |- no_identity_error (match ?x with _ => _ end) => destruct x end].
Defined.

(** ** Sample *)

Module examples.
(** A cipher that keeps the text and its additional data side by side. *)
Definition plain_ciphers : Ciphers.
Proof.
  refine {| gcm_Seal := fun _ _ p aad => EncodeToString p;
            gcm_Open := fun _ _ c aad => DecodeString c; sm3_Sum := Sum256 |}.
  intros b nonce p aad. apply DecodeString_EncodeToString.
Defined.

Definition key1 := "0123456789abcdef0123456789abcdef".
Definition key2 := "fedcba9876543210fedcba9876543210".
Definition ring (active : string) : result keyring := NewKeyring "standard" [("v1", key1); ("v2", key2)] active.
Definition env : Env := mkEnv (fun n => Z.of_nat n) (fun n => Itoa (Z.of_nat n)) (fun _ => None)
  (fun n i => ascii_of_nat (n + i)) false.
End examples.
#[local] Existing Instance examples.plain_ciphers.

Lemma ciphertexts_survive_rotation_witness :
  match examples.ring "v1", examples.ring "v2" with
  | Ok k, Ok k' => exists text n', keyring_Encrypt k "secret" "mfa" examples.env 0%nat tt = (Ok text, n', tt) /\
      keyring_Decrypt k' text "mfa" = Ok "secret"
  | _, _ => False
  end.
Proof.
  destruct (examples.ring "v1") as [k|] eqn:K; [|discriminate K].
  destruct (examples.ring "v2") as [k'|] eqn:K'; [|discriminate K'].
  destruct (ciphertexts_survive_rotation "standard" [("v1", examples.key1); ("v2", examples.key2)] "v1" k
    "standard" [("v1", examples.key1); ("v2", examples.key2)] "v2" k' "secret" "mfa" examples.env 0%nat tt K K')
    as (text & n' & E & D & _).
  - vm_compute in K, K'. injection K as <-. injection K' as <-. reflexivity.
  - reflexivity.
  - exists text, n'. split; [exact E|]. apply D.
    vm_compute in K, K'. injection K as <-. injection K' as <-. reflexivity.
Defined.
