(* ===== verification/Password.v ===== *)
(** * Passwords

    The package [internal/platform/security/password]: the policy a password
    must satisfy and the Argon2id record of its hash.  [argon2.IDKey] is a
    third-party function, a parameter with the one fact the code relies on: the
    key has the length asked for. *)

From S2P Require Import Prelude GoString Crypto Strconv Database.

(** The tables of [unicode] for the runes above Latin-1 are generated data of
    Go's standard library. *)
Class UnicodeTables := {
  upper_table : Z -> bool;
  lower_table : Z -> bool;
  digit_table : Z -> bool
}.

Section characters.
Context `{UnicodeTables}.

Definition IsUpper (r : Z) : bool :=
  if r <=? 255 then in_range 65 90 r || in_range 192 214 r || in_range 216 222 r else upper_table r.
Definition IsLower (r : Z) : bool :=
  if r <=? 255 then in_range 97 122 r || (r =? 181) || in_range 223 246 r || in_range 248 255 r
  else lower_table r.
Definition IsDigit (r : Z) : bool :=
  if r <=? 255 then in_range 48 57 r else digit_table r.
End characters.

Record Policy := mkPolicy {
  MinLength : Z;
  RequireUpper : bool;
  RequireLower : bool;
  RequireDigit : bool;
  RequireSymbol : bool
}.
#[export] Instance Policy_eta : Eta Policy := fun p =>
  mkPolicy (MinLength p) (RequireUpper p) (RequireLower p) (RequireDigit p) (RequireSymbol p).

(** The classes of characters seen: upper, lower, digit, symbol. *)
Record seen := mkSeen { s_upper : bool; s_lower : bool; s_digit : bool; s_symbol : bool }.
#[export] Instance seen_eta : Eta seen := fun s =>
  mkSeen (s_upper s) (s_lower s) (s_digit s) (s_symbol s).

Section password.
Context `{UnicodeTables}.

Definition see (s : seen) (r : rune) : seen :=
  let r := rune_val r in
  if IsUpper r then s <| s_upper := true |>
  else if IsLower r then s <| s_lower := true |>
  else if IsDigit r then s <| s_digit := true |>
  else s <| s_symbol := true |>.

Definition Policy_Validate (p : Policy) (raw : string) : result unit :=
  if rune_count raw <? MinLength p then
    Err (Errorf "password must be at least %d characters" [FInt (MinLength p)])
  else if 128 <? rune_count raw then Err (Errorf "password is too long" [])
  else
    let s := fold_left see (runes raw) (mkSeen false false false false) in
    if RequireUpper p && negb (s_upper s) then Err (Errorf "password requires uppercase character" [])
    else if RequireLower p && negb (s_lower s) then Err (Errorf "password requires lowercase character" [])
    else if RequireDigit p && negb (s_digit s) then Err (Errorf "password requires digit" [])
    else if RequireSymbol p && negb (s_symbol s) then Err (Errorf "password requires symbol" [])
    else Ok tt.

(** A class is seen exactly when a character of the password belongs to it. *)
Lemma fold_see rs s :
  s_upper (fold_left see rs s) = s_upper s || existsb (fun r => IsUpper (rune_val r)) rs /\
  s_lower (fold_left see rs s) = s_lower s ||
    existsb (fun r => negb (IsUpper (rune_val r)) && IsLower (rune_val r)) rs /\
  s_digit (fold_left see rs s) = s_digit s ||
    existsb (fun r => negb (IsUpper (rune_val r)) && negb (IsLower (rune_val r)) && IsDigit (rune_val r)) rs /\
  s_symbol (fold_left see rs s) = s_symbol s ||
    existsb (fun r => negb (IsUpper (rune_val r)) && negb (IsLower (rune_val r)) && negb (IsDigit (rune_val r))) rs.
Proof.
  revert s. induction rs as [|r rs IH]; intros s; cbn [fold_left existsb]; [by rewrite !orb_false_r|].
  destruct (IH (see s r)) as (-> & -> & -> & ->). unfold see.
  destruct (IsUpper (rune_val r)), (IsLower (rune_val r)), (IsDigit (rune_val r)), s as [[] [] [] []]; done.
Qed.
End password.

(** ** Hashes *)

Record Hasher := mkHasher {
  MemoryKiB : Z;
  h_Time : Z;
  Parallelism : Z;
  SaltLength : Z;
  KeyLength : Z
}.

Definition DefaultHasher : Hasher := mkHasher (64 * 1024) 3 2 16 32.

(** [argon2.IDKey(password, salt, time, memory, threads, keyLen)]. *)
Class Argon2 := {
  IDKey : string -> string -> Z -> Z -> Z -> Z -> string;
  IDKey_length : forall raw salt t m p len, 0 <= len -> slen (IDKey raw salt t m p len) = len
}.

(** What the parameter field of a record sets. *)
Record costs := mkCosts { c_m : Z; c_t : Z; c_p : Z }.
#[export] Instance costs_eta : Eta costs := fun c => mkCosts (c_m c) (c_t c) (c_p c).

Fixpoint parse_costs (fields : list string) (c : costs) : option costs :=
  match fields with
  | [] => Some c
  | kv :: rest =>
    match SplitN2 kv "=" with
    | [key; value] =>
      match ParseUint value 32 with
      | None => None
      | Some n =>
        parse_costs rest
          (if key =s "m" then c <| c_m := n |>
           else if key =s "t" then c <| c_t := n |>
           else if key =s "p" then c <| c_p := n |> else c)
      end
    | _ => None
    end
  end.

Definition maxUint32 : Z := 4294967295.
Definition maxUint8 : Z := 255.

Section hashes.
Context `{Argon2}.

(** [Hash], given the salt that [rand.Read] filled in. *)
Definition Hash_with (h : Hasher) (raw salt : string) : string :=
  let key := IDKey raw salt (h_Time h) (MemoryKiB h) (Parallelism h) (KeyLength h) in
  "$argon2id$v=19$m=" +:+ Itoa (MemoryKiB h) +:+ ",t=" +:+ Itoa (h_Time h) +:+
  ",p=" +:+ Itoa (Parallelism h) +:+ "$" +:+ RawStdEncoding salt +:+ "$" +:+ RawStdEncoding key.

Definition Hash {S} (h : Hasher) (raw : string) : M S string :=
  salt ← rand_Read (Z.to_nat (SaltLength h));
  mret (Hash_with h raw salt).

(** [subtle.ConstantTimeCompare] is equality. *)
Definition Verify (raw encoded : string) : bool :=
  match Split encoded "$" with
  | [_; kind; _; fields; salt64; key64] =>
    if kind <>s "argon2id" then false
    else match parse_costs (Split fields ",") (mkCosts 0 0 0) with
    | None => false
    | Some c =>
      match RawStdDecoding salt64, RawStdDecoding key64 with
      | Some salt, Some expected =>
        if (c_m c =? 0) || (maxUint32 <? c_m c) || (c_t c =? 0) || (maxUint32 <? c_t c) ||
           (c_p c =? 0) || (maxUint8 <? c_p c) || (slen salt <? 8) || (1024 <? slen salt) ||
           (slen expected =? 0) || (1024 <? slen expected) then false
        else IDKey raw salt (c_t c) (c_m c) (c_p c) (slen expected) =s expected
      | _, _ => false
      end
    end
  | _ => false
  end.

(** The parameters a hasher may have. *)
Definition hasher_ok (h : Hasher) : Prop :=
  1 <= MemoryKiB h <= maxUint32 /\ 1 <= h_Time h <= maxUint32 /\ 1 <= Parallelism h <= maxUint8 /\
  8 <= SaltLength h <= 1024 /\ 1 <= KeyLength h <= 1024.

Lemma DefaultHasher_ok : hasher_ok DefaultHasher.
Proof. unfold hasher_ok, maxUint32, maxUint8; cbn; lia. Qed.

Lemma not_in_append c s t :
  ~ In c (list_ascii_of_string s) -> ~ In c (list_ascii_of_string t) ->
  ~ In c (list_ascii_of_string (s +:+ t)).
Proof. rewrite list_ascii_append, in_app_iff. tauto. Qed.

Lemma cost_field (k : ascii) n c rest :
  0 <= n <= maxUint32 -> Ascii.eqb k "=" = false ->
  parse_costs ((String k (String "=" (Itoa n))) :: rest) c =
  parse_costs rest (if String k "" =s "m" then c <| c_m := n |>
                    else if String k "" =s "t" then c <| c_t := n |>
                    else if String k "" =s "p" then c <| c_p := n |> else c).
Proof.
  intros Hn Hk. change (String k (String "=" (Itoa n))) with (String k "" +:+ String "=" (Itoa n)).
  cbn [parse_costs]. rewrite SplitN2_app.
  - rewrite ParseUint_Itoa; [done|]. unfold maxUint32 in *. lia.
  - cbn. intros [E|[]]. subst k. discriminate Hk.
Qed.

(** The three fields of the costs. *)
Definition cost_fields (h : Hasher) : string :=
  "m=" +:+ Itoa (MemoryKiB h) +:+ ",t=" +:+ Itoa (h_Time h) +:+ ",p=" +:+ Itoa (Parallelism h).

Lemma cost_fields_split h : hasher_ok h ->
  Split (cost_fields h) "," =
  [String "m" (String "=" (Itoa (MemoryKiB h))); String "t" (String "=" (Itoa (h_Time h)));
   String "p" (String "=" (Itoa (Parallelism h)))].
Proof.
  intros (Hm & Ht & Hp & _). unfold cost_fields.
  assert (W : forall k n, 0 <= n -> Ascii.eqb k "," = false ->
    ~ In ","%char (list_ascii_of_string (String k (String "=" (Itoa n))))).
  { intros k n Hn Hk [E|[E|E]]; [subst k; discriminate|discriminate|].
    by apply (digits_without "," n) in E. }
  assert (E : "m=" +:+ Itoa (MemoryKiB h) +:+ ",t=" +:+ Itoa (h_Time h) +:+ ",p=" +:+ Itoa (Parallelism h) =
    String "m" (String "=" (Itoa (MemoryKiB h))) +:+ String "," (String "t" (String "=" (Itoa (h_Time h))) +:+
      String "," (String "p" (String "=" (Itoa (Parallelism h)))))) by reflexivity.
  rewrite E, !Split_app by (apply W; [lia|done]).
  rewrite Split_none; [done|]. apply W; [lia|done].
Qed.

(** A record splits into the parts it was built from. *)
Lemma Hash_with_split h raw salt : hasher_ok h ->
  Split (Hash_with h raw salt) "$" =
  [""; "argon2id"; "v=19"; cost_fields h; RawStdEncoding salt;
   RawStdEncoding (IDKey raw salt (h_Time h) (MemoryKiB h) (Parallelism h) (KeyLength h))].
Proof.
  intros (Hm & Ht & Hp & _). unfold Hash_with.
  set (key := IDKey _ _ _ _ _ _).
  assert (E : "$argon2id$v=19$m=" +:+ Itoa (MemoryKiB h) +:+ ",t=" +:+ Itoa (h_Time h) +:+
    ",p=" +:+ Itoa (Parallelism h) +:+ "$" +:+ RawStdEncoding salt +:+ "$" +:+ RawStdEncoding key =
    "" +:+ String "$" ("argon2id" +:+ String "$" ("v=19" +:+ String "$" (cost_fields h +:+
      String "$" (RawStdEncoding salt +:+ String "$" (RawStdEncoding key)))))).
  { unfold cost_fields. rewrite !append_assoc. reflexivity. }
  rewrite E. assert (W : forall n, 0 <= n -> ~ In "$"%char (list_ascii_of_string (Itoa n)))
    by (intros; by apply digits_without).
  rewrite !Split_app; [|by apply b64_encode_without| |cbn; intuition discriminate..].
  - rewrite Split_none; [done|]. by apply b64_encode_without.
  - unfold cost_fields. repeat apply not_in_append; try (apply W; lia); cbn; intuition discriminate.
Qed.

(** A password verifies against every record [Hash] makes of it, whatever
    the salt; another password verifies against the record only if Argon2id
    gives both the same key. *)
Theorem Verify_inverts_Hash h raw other salt :
  hasher_ok h -> slen salt = SaltLength h ->
  Verify raw (Hash_with h raw salt) = true /\
  (Verify other (Hash_with h raw salt) = true ->
   IDKey other salt (h_Time h) (MemoryKiB h) (Parallelism h) (KeyLength h) =
   IDKey raw salt (h_Time h) (MemoryKiB h) (Parallelism h) (KeyLength h)).
Proof.
  intros Hok L. assert (G : forall r, Verify r (Hash_with h raw salt) =
    (IDKey r salt (h_Time h) (MemoryKiB h) (Parallelism h) (KeyLength h) =s
     IDKey raw salt (h_Time h) (MemoryKiB h) (Parallelism h) (KeyLength h))).
  { intros r. unfold Verify. rewrite Hash_with_split, cost_fields_split by done.
    destruct Hok as (Hm & Ht & Hp & Hs & Hk). unfold maxUint8, maxUint32 in *. eval_strings.
    rewrite !cost_field by (unfold maxUint32; done || lia). cbn [parse_costs].
    unfold RawStdDecoding, RawStdEncoding. rewrite !b64_decode_encode. cbn match.
    rewrite IDKey_length, L by lia. cbn [c_m c_t c_p].
    change (String "m" "" =s "m") with true. change (String "t" "" =s "m") with false.
    change (String "t" "" =s "t") with true. change (String "p" "" =s "m") with false.
    change (String "p" "" =s "t") with false. change (String "p" "" =s "p") with true. cbn match. cbn.
    replace (_ || _) with false; [done|]. symmetry. repeat (apply orb_false_iff; split);
      first [apply Z.eqb_neq|apply Z.ltb_ge]; lia. }
  rewrite !G, seqb_refl. split; [done|]. by apply seqb_true.
Qed.
End hashes.

(** ** Example *)

(** A stand-in for Argon2id: the password and the salt, cut to the length. *)
#[local] Program Instance sample_argon2 : Argon2 := {|
  IDKey raw salt t m p len :=
    stake (Z.to_nat len) (raw +:+ String ":" salt +:+ srepeat (Z.to_nat len) "=")
|}.
Next Obligation.
  intros raw salt t m p len L. unfold slen.
  assert (K : forall n s, (n <= String.length s)%nat -> String.length (stake n s) = n).
  { induction n as [|n IH]; intros [|a s]; cbn; intros; try lia. rewrite IH; lia. }
  assert (R : forall n, String.length (srepeat n "=") = n)
    by (induction n as [|n IH]; [done|]; cbn [srepeat]; rewrite length_append, IH; done).
  rewrite K; [lia|]. rewrite length_append. cbn [String.length]. rewrite append_cons. cbn [String.length]. rewrite length_append, R. lia.
Qed.

Lemma Verify_inverts_Hash_witness :
  Verify "Correct-Horse-1" (Hash_with DefaultHasher "Correct-Horse-1" "0123456789abcdef") = true.
Proof. apply (Verify_inverts_Hash DefaultHasher _ "" "0123456789abcdef" DefaultHasher_ok eq_refl). Defined.
