(* ===== verification/Identity.v ===== *)
(** * Identity domain

    The package [internal/domain/identity]: principals, users, roles, the
    directory's records, the effective data scope, and the policy of a
    break-glass (emergency access) request. *)

From S2P Require Import Prelude GoString.

Definition DataScopeOrganization := "ORGANIZATION".
Definition DataScopeDepartment := "DEPARTMENT".
Definition DataScopeDepartmentTree := "DEPARTMENT_TREE".
Definition DataScopeSelf := "SELF".
Definition DataScopeCustom := "CUSTOM".

Record EffectiveDataScope := mkDataScope {
  ds_OrganizationWide : bool;
  ds_Self : bool;
  ds_DepartmentIDs : list string
}.

Definition Allows (scope : EffectiveDataScope) (userID departmentID actorUserID : string) : bool :=
  if ds_OrganizationWide scope then true
  else if ds_Self scope && (userID <>s "") && (userID =s actorUserID) then true
  else contains (ds_DepartmentIDs scope) departmentID.

Record Department := mkDepartment {
  dep_ID : string;
  dep_OrganizationID : string;
  dep_ParentID : string;
  dep_Key : string;
  dep_Name : string;
  dep_Status : string;
  dep_SortOrder : Z;
  dep_CreatedAt : Time;
  dep_UpdatedAt : Time
}.
#[export] Instance Department_eta : Eta Department := fun d =>
  mkDepartment (dep_ID d) (dep_OrganizationID d) (dep_ParentID d) (dep_Key d) (dep_Name d)
    (dep_Status d) (dep_SortOrder d) (dep_CreatedAt d) (dep_UpdatedAt d).

Record UserGroup := mkUserGroup {
  ug_ID : string;
  ug_OrganizationID : string;
  ug_Key : string;
  ug_Name : string;
  ug_Description : string;
  ug_Status : string;
  ug_Roles : list string;
  ug_MemberIDs : list string;
  ug_MemberCount : Z;
  ug_CreatedAt : Time;
  ug_UpdatedAt : Time
}.
#[export] Instance UserGroup_eta : Eta UserGroup := fun g =>
  mkUserGroup (ug_ID g) (ug_OrganizationID g) (ug_Key g) (ug_Name g) (ug_Description g)
    (ug_Status g) (ug_Roles g) (ug_MemberIDs g) (ug_MemberCount g) (ug_CreatedAt g) (ug_UpdatedAt g).

Record SecurityPolicy := mkSecurityPolicy {
  sp_PasswordMinLength : Z;
  sp_PasswordRequireUpper : bool;
  sp_PasswordRequireLower : bool;
  sp_PasswordRequireDigit : bool;
  sp_PasswordRequireSymbol : bool;
  sp_PasswordHistory : Z;
  sp_PasswordMaxAgeDays : Z;
  sp_LoginMaxFailures : Z;
  sp_LoginLockDurationSeconds : Z;
  sp_SessionTTLSeconds : Z;
  sp_MaxConcurrentSessions : Z
}.
#[export] Instance SecurityPolicy_eta : Eta SecurityPolicy := fun p =>
  mkSecurityPolicy (sp_PasswordMinLength p) (sp_PasswordRequireUpper p) (sp_PasswordRequireLower p)
    (sp_PasswordRequireDigit p) (sp_PasswordRequireSymbol p) (sp_PasswordHistory p)
    (sp_PasswordMaxAgeDays p) (sp_LoginMaxFailures p) (sp_LoginLockDurationSeconds p)
    (sp_SessionTTLSeconds p) (sp_MaxConcurrentSessions p).

Record RoleConflictRule := mkRule {
  rule_ID : string;
  rule_OrganizationID : string;
  rule_RoleA : string;
  rule_RoleB : string;
  rule_Reason : string
}.

Record User := mkUser {
  user_ID : string;
  user_OrganizationID : string;
  user_LoginName : string;
  user_DisplayName : string;
  user_Status : string;
  user_MustChangePassword : bool;
  user_FailedLoginCount : Z;
  user_LockedUntil : option Time;
  user_PasswordChangedAt : Time;
  user_CreatedAt : Time;
  user_UpdatedAt : Time;
  user_Roles : list string;
  user_Permissions : list string
}.
#[export] Instance User_eta : Eta User := fun u =>
  mkUser (user_ID u) (user_OrganizationID u) (user_LoginName u) (user_DisplayName u) (user_Status u)
    (user_MustChangePassword u) (user_FailedLoginCount u) (user_LockedUntil u)
    (user_PasswordChangedAt u) (user_CreatedAt u) (user_UpdatedAt u) (user_Roles u)
    (user_Permissions u).

Record Principal := mkPrincipal {
  p_Type : string;
  p_UserID : string;
  p_OrganizationID : string;
  p_LoginName : string;
  p_DisplayName : string;
  p_Roles : list string;
  p_Permissions : list string;
  p_Scopes : list string;
  p_MustChangePassword : bool;
  p_SessionID : string;
  p_PasswordChangedAt : Time;
  p_DataScope : EffectiveDataScope;
  p_AuthenticationLevel : string;
  p_MFAVerifiedAt : option Time
}.
#[export] Instance Principal_eta : Eta Principal := fun p =>
  mkPrincipal (p_Type p) (p_UserID p) (p_OrganizationID p) (p_LoginName p) (p_DisplayName p)
    (p_Roles p) (p_Permissions p) (p_Scopes p) (p_MustChangePassword p) (p_SessionID p)
    (p_PasswordChangedAt p) (p_DataScope p) (p_AuthenticationLevel p) (p_MFAVerifiedAt p).

(** The two nested loops of [HasRole]. *)
Fixpoint has_any (haves keys : list string) : bool :=
  match haves with
  | [] => false
  | have :: rest => if contains keys have then true else has_any rest keys
  end.

Definition HasRole (p : Principal) (keys : list string) : bool := has_any (p_Roles p) keys.
Definition UserHasRole (u : User) (keys : list string) : bool := has_any (user_Roles u) keys.

(** The token loop of [HasPermission]: every wanted key is in the scopes, or
    the scopes have ["*"]. *)
Fixpoint scopes_allow (scopes keys : list string) : bool :=
  match keys with
  | [] => true
  | want :: rest =>
    if existsb (fun scope => (scope =s want) || (scope =s "*")) scopes
    then scopes_allow scopes rest else false
  end.

Definition HasPermission (p : Principal) (keys : list string) : bool :=
  if (p_Type p =s "TOKEN") && negb (scopes_allow (p_Scopes p) keys) then false
  else if HasRole p ["system_admin"] then true
  else has_any (p_Permissions p) keys.

(** ** Emergency access *)

Definition EmergencyAccessMFAMaxAge : Duration := 10 * Minute.
Definition EmergencyAccessMaxAge : Duration := 60 * Minute.

Definition ErrInvalidEmergencyAccess : error := Sentinel "identity.ErrInvalidEmergencyAccess".
Definition ErrEmergencyAccessDenied : error := Sentinel "identity.ErrEmergencyAccessDenied".

Record EmergencyAccessRequest := mkEmergencyRequest {
  er_OrganizationID : string;
  er_RequesterID : string;
  er_TargetUserID : string;
  er_Scope : string;
  er_ApprovalID : string;
  er_Reason : string;
  er_PrivilegeKeys : list string;
  er_RequestedAt : Time;
  er_ExpiresAt : Time
}.
#[export] Instance EmergencyAccessRequest_eta : Eta EmergencyAccessRequest := fun r =>
  mkEmergencyRequest (er_OrganizationID r) (er_RequesterID r) (er_TargetUserID r) (er_Scope r)
    (er_ApprovalID r) (er_Reason r) (er_PrivilegeKeys r) (er_RequestedAt r) (er_ExpiresAt r).

Record EmergencyAccessGrant := mkEmergencyGrant {
  eg_ID : string;
  eg_OrganizationID : string;
  eg_RequesterID : string;
  eg_TargetUserID : string;
  eg_Scope : string;
  eg_ApprovalID : string;
  eg_Reason : string;
  eg_PrivilegeKeys : list string;
  eg_RequestedAt : Time;
  eg_ExpiresAt : Time;
  eg_RevokedAt : option Time;
  eg_RevokedBy : string;
  eg_RevokeReason : string;
  eg_CreatedAt : Time
}.
#[export] Instance EmergencyAccessGrant_eta : Eta EmergencyAccessGrant := fun g =>
  mkEmergencyGrant (eg_ID g) (eg_OrganizationID g) (eg_RequesterID g) (eg_TargetUserID g) (eg_Scope g)
    (eg_ApprovalID g) (eg_Reason g) (eg_PrivilegeKeys g) (eg_RequestedAt g) (eg_ExpiresAt g)
    (eg_RevokedAt g) (eg_RevokedBy g) (eg_RevokeReason g) (eg_CreatedAt g).

Definition ActiveAt (g : EmergencyAccessGrant) (now : Time) : bool :=
  match eg_RevokedAt g with
  | Some _ => false
  | None => After (UTC now) (eg_RequestedAt g) && Before (UTC now) (eg_ExpiresAt g)
  end.

(** A privilege key an emergency grant may not carry. *)
Definition key_refused (key : string) : bool :=
  let key := TrimSpace key in
  (key =s "") || (key =s "*") || (key =s "system_admin") ||
  ContainsAny key (String (ascii_of_nat 13) (String (ascii_of_nat 10) "")).

Definition Validate (r : EmergencyAccessRequest) (actor : Principal) (now : Time) : result unit :=
  let now := UTC now in
  if IsZero now || (p_Type actor <>s "USER") || (TrimSpace (p_UserID actor) =s "") ||
     (TrimSpace (p_OrganizationID actor) =s "") || (TrimSpace (p_SessionID actor) =s "") then
    Err ErrEmergencyAccessDenied
  else if negb (HasRole actor ["system_admin"; "security_admin"]) then Err ErrEmergencyAccessDenied
  else match p_MFAVerifiedAt actor with
  | None => Err ErrEmergencyAccessDenied
  | Some at_ =>
    let verifiedAt := UTC at_ in
    if After verifiedAt now || (EmergencyAccessMFAMaxAge <? timeSub now verifiedAt) then
      Err ErrEmergencyAccessDenied
    else if (TrimSpace (er_OrganizationID r) <>s p_OrganizationID actor) ||
            (TrimSpace (er_RequesterID r) <>s p_UserID actor) then
      Err ErrEmergencyAccessDenied
    else if (TrimSpace (er_TargetUserID r) =s p_UserID actor) ||
            ((TrimSpace (er_TargetUserID r) =s "") && (TrimSpace (er_Scope r) =s "")) then
      Err ErrInvalidEmergencyAccess
    else if (TrimSpace (er_ApprovalID r) =s "") || (slen (TrimSpace (er_Reason r)) <? 8) ||
            (500 <? slen (TrimSpace (er_Reason r))) then
      Err ErrInvalidEmergencyAccess
    else if IsZero (er_RequestedAt r) || IsZero (er_ExpiresAt r) ||
            Before (er_ExpiresAt r) (er_RequestedAt r) || negb (After (er_ExpiresAt r) now) ||
            (EmergencyAccessMaxAge <? timeSub (er_ExpiresAt r) (er_RequestedAt r)) then
      Err ErrInvalidEmergencyAccess
    else if (llen (er_PrivilegeKeys r) =? 0) || (20 <? llen (er_PrivilegeKeys r)) then
      Err ErrInvalidEmergencyAccess
    else if existsb key_refused (er_PrivilegeKeys r) then Err ErrInvalidEmergencyAccess
    else Ok tt
  end.

(** ** Lemmas *)

Lemma has_any_spec haves keys :
  has_any haves keys = true <-> exists k, k ∈ haves /\ k ∈ keys.
Proof.
  induction haves as [|h hs IH]; cbn.
  - split; [discriminate|]. intros (k & Hk & _). inversion Hk.
  - destruct (contains keys h) eqn:C.
    + apply contains_spec in C. split; [|done]. intros _. exists h. split; [constructor|done].
    + apply contains_false in C. rewrite IH. split.
      * intros (k & ? & ?). exists k. split; [by constructor|done].
      * intros (k & Hk & Hw). apply elem_of_cons in Hk as [->|Hk]; [done|eauto].
Qed.

Lemma scopes_allow_spec scopes keys :
  scopes_allow scopes keys = true <-> forall k, k ∈ keys -> k ∈ scopes \/ "*" ∈ scopes.
Proof.
  induction keys as [|w ws IH]; cbn.
  - split; [|done]. intros _ k Hk. inversion Hk.
  - destruct (existsb _ scopes) eqn:E.
    + rewrite IH. apply existsb_exists in E as (x & Hx & E). apply list_elem_of_In in Hx.
      split; intros H k Hk.
      * apply elem_of_cons in Hk as [->|Hk]; [|by apply H].
        apply orb_true_iff in E as [E|E]; breflect; subst; auto.
      * apply H. by constructor.
    + split; [done|]. intros H. exfalso.
      assert (C : existsb (fun scope => (scope =s w) || (scope =s "*")) scopes = true).
      { apply existsb_exists. destruct (H w) as [Hw|Hw]; [constructor| |];
          eexists; (split; [apply list_elem_of_In; exact Hw|]);
          rewrite seqb_refl, ?orb_true_r; done. }
      congruence.
Qed.

Lemma HasRole_spec p keys : HasRole p keys = true <-> exists k, k ∈ p_Roles p /\ k ∈ keys.
Proof. apply has_any_spec. Qed.

Lemma Allows_spec scope userID departmentID actorUserID :
  Allows scope userID departmentID actorUserID = true <->
  ds_OrganizationWide scope = true \/
  (ds_Self scope = true /\ userID <> "" /\ userID = actorUserID) \/
  departmentID ∈ ds_DepartmentIDs scope.
Proof.
  unfold Allows. destruct (ds_OrganizationWide scope); [intuition|].
  destruct (ds_Self scope && (userID <>s "") && (userID =s actorUserID)) eqn:E.
  - breflect. intuition.
  - rewrite contains_spec. split; [auto|]. intros [?|[(A & B & ->)|?]]; [done| |done].
    rewrite A, (seqb_neq _ _ B), seqb_refl in E. done.
Qed.

(** The conditions of a break-glass request, as the policy states them. *)
Definition emergency_allowed (r : EmergencyAccessRequest) (actor : Principal) (now : Time) : Prop :=
  (now <> 0 /\ p_Type actor = "USER" /\ TrimSpace (p_UserID actor) <> "" /\
   TrimSpace (p_OrganizationID actor) <> "" /\ TrimSpace (p_SessionID actor) <> "") /\
  ("system_admin" ∈ p_Roles actor \/ "security_admin" ∈ p_Roles actor) /\
  (exists v, p_MFAVerifiedAt actor = Some v /\ v <= now <= v + EmergencyAccessMFAMaxAge) /\
  TrimSpace (er_OrganizationID r) = p_OrganizationID actor /\
  TrimSpace (er_RequesterID r) = p_UserID actor.

Definition emergency_well_formed (r : EmergencyAccessRequest) (actor : Principal) (now : Time) : Prop :=
  (TrimSpace (er_TargetUserID r) <> p_UserID actor /\
   (TrimSpace (er_TargetUserID r) <> "" \/ TrimSpace (er_Scope r) <> "")) /\
  (TrimSpace (er_ApprovalID r) <> "" /\ 8 <= slen (TrimSpace (er_Reason r)) <= 500) /\
  (er_RequestedAt r <> 0 /\ er_ExpiresAt r <> 0 /\ now < er_ExpiresAt r /\
   er_RequestedAt r <= er_ExpiresAt r <= er_RequestedAt r + EmergencyAccessMaxAge) /\
  1 <= llen (er_PrivilegeKeys r) <= 20 /\
  (forall k, k ∈ er_PrivilegeKeys r -> key_refused k = false).

Lemma timeSub_gt d a b :
  0 <= d < maxInt64 -> (d <? timeSub a b) = (b + d <? a).
Proof.
  intros H. unfold timeSub, minInt64, maxInt64 in *.
  destruct (Z.ltb_spec (b + d) a); [apply Z.ltb_lt|apply Z.ltb_ge]; lia.
Qed.

Lemma HasRole_two p a b :
  HasRole p [a; b] = true <-> a ∈ p_Roles p \/ b ∈ p_Roles p.
Proof.
  rewrite HasRole_spec. split.
  - intros (k & Hk & Hm). apply elem_of_cons in Hm as [->|Hm]; [by left|]. apply list_elem_of_singleton in Hm as ->. by right.
  - intros [H|H]; eexists; (split; [exact H|]); rewrite !elem_of_cons; auto.
Qed.

(** [HasPermission] grants exactly: to anyone who is a system
    administrator or holds one of the wanted keys, except that a token must
    also have every wanted key (or the wildcard) among its scopes; a token is
    never stronger than its scopes, whatever its roles. *)
Lemma HasPermission_iff p keys :
  HasPermission p keys = true <->
  (p_Type p = "TOKEN" -> forall k, k ∈ keys -> k ∈ p_Scopes p \/ "*" ∈ p_Scopes p) /\
  ("system_admin" ∈ p_Roles p \/ exists k, k ∈ p_Permissions p /\ k ∈ keys).
Proof.
  assert (G : (if HasRole p ["system_admin"] then true else has_any (p_Permissions p) keys) = true <->
    ("system_admin" ∈ p_Roles p \/ exists k, k ∈ p_Permissions p /\ k ∈ keys)).
  { rewrite <- has_any_spec. destruct (HasRole p ["system_admin"]) eqn:R.
    - apply HasRole_spec in R as (k & Hk & Hs). apply list_elem_of_singleton in Hs as ->. tauto.
    - split; [auto|]. intros [H|H]; [|done]. exfalso.
      assert (HasRole p ["system_admin"] = true); [|congruence].
      apply HasRole_spec. exists "system_admin". split; [done|constructor]. }
  rewrite <- scopes_allow_spec. unfold HasPermission.
  destruct (String.eqb_spec (p_Type p) "TOKEN") as [E|N]; cbn [andb]; [|rewrite G; tauto].
  destruct (scopes_allow (p_Scopes p) keys) eqn:S; cbn [negb]; rewrite ?G; [tauto|].
  split; [done|]. intros [H _]. specialize (H E). done.
Qed.

(** The three outcomes, each with its condition. *)
Lemma Validate_cases r actor now :
  (emergency_allowed r actor now /\ emergency_well_formed r actor now /\ Validate r actor now = Ok tt) \/
    (~ emergency_allowed r actor now /\ Validate r actor now = Err ErrEmergencyAccessDenied) \/
    (emergency_allowed r actor now /\ ~ emergency_well_formed r actor now /\
     Validate r actor now = Err ErrInvalidEmergencyAccess).
Proof.
  unfold emergency_allowed, emergency_well_formed, Validate, UTC, EmergencyAccessMFAMaxAge, EmergencyAccessMaxAge.
  rewrite !(timeSub_gt (60 * Minute)) by (unfold maxInt64, Minute, Second; lia).
  rewrite <- HasRole_two, <- existsb_false.
  destruct (IsZero now || _ || _ || _ || _) eqn:G1;
    [right; left; orsplit; (split; [tauto|done])|].
  destruct (HasRole actor _) eqn:G2; cbn [negb]; [|right; left; split; [intuition discriminate|done]].
  destruct (p_MFAVerifiedAt actor) as [v|] eqn:G3;
    [|right; left; split; [intros (_ & _ & (? & ? & _) & _); discriminate|done]].
  destruct (After v now || _) eqn:G4.
  { right; left; split; [|done]. intros (_ & _ & (v' & [= <-] & ?) & _).
    rewrite timeSub_gt in G4 by (unfold maxInt64, Minute, Second; lia). orsplit; lia. }
  rewrite timeSub_gt in G4 by (unfold maxInt64, Minute, Second; lia).
  destruct ((TrimSpace (er_OrganizationID r) <>s p_OrganizationID actor) || _) eqn:G5;
    [right; left; orsplit; (split; [tauto|done])|].
  assert (A : emergency_allowed r actor now).
  { unfold emergency_allowed, EmergencyAccessMFAMaxAge. rewrite <- HasRole_two.
    breflect. split_and!; try done. exists v. split; [done|lia]. }
  unfold emergency_allowed, EmergencyAccessMFAMaxAge in A. rewrite <- HasRole_two, G2, G3 in A.
  destruct ((TrimSpace (er_TargetUserID r) =s p_UserID actor) || _) eqn:G6;
    [right; right; (split; [exact A|]); orsplit; (split; [tauto|done])|].
  destruct ((TrimSpace (er_ApprovalID r) =s "") || _ || _) eqn:G7;
    [right; right; (split; [exact A|]); orsplit; (split; [intros (_ & ? & _); (lia || tauto)|done])|].
  destruct (IsZero (er_RequestedAt r) || _ || _ || _ || _) eqn:G8;
    [right; right; (split; [exact A|]); orsplit; (split; [intros (_ & _ & ? & _); lia|done])|].
  destruct ((llen (er_PrivilegeKeys r) =? 0) || _) eqn:G9;
    [right; right; (split; [exact A|]); orsplit;
     (split; [intros (_ & _ & _ & ? & _); lia|done])|].
  destruct (existsb key_refused (er_PrivilegeKeys r)) eqn:G10;
    [right; right; (split; [exact A|]); (split; [intros (_ & _ & _ & _ & ?); done|done])|].
  left. split; [exact A|]. split; [|done].
  apply orb_false_iff in G6 as [G6 G6'].
  assert (T : TrimSpace (er_TargetUserID r) <> "" \/ TrimSpace (er_Scope r) <> "")
    by (orsplit; auto). breflect.
  assert (0 <= llen (er_PrivilegeKeys r)) by (unfold llen; lia).
  split_and!; (done || lia).
Qed.

(** [Validate] of an emergency access request: it is refused as denied
    exactly when the actor is not a signed-in administrator of the request's
    organization with a second factor verified in the last ten minutes, as
    invalid exactly when the actor is but the request is malformed (self
    target, no approval, a window over an hour, a wildcard or system_admin
    privilege), and accepted in the remaining case. *)
Theorem emergency_Validate_spec r actor now :
  (Validate r actor now = Ok tt <-> emergency_allowed r actor now /\ emergency_well_formed r actor now) /\
  (Validate r actor now = Err ErrEmergencyAccessDenied <-> ~ emergency_allowed r actor now) /\
  (Validate r actor now = Err ErrInvalidEmergencyAccess <->
     emergency_allowed r actor now /\ ~ emergency_well_formed r actor now).
Proof.
  pose proof (Validate_cases r actor now) as K.
  unfold ErrEmergencyAccessDenied, ErrInvalidEmergencyAccess in *.
  destruct K as [(A & B & ->)|[(A & ->)|(A & B & ->)]]; intuition discriminate.
Qed.
