(* ===== verification/GrantPolicy.v ===== *)
(** * Who may grant what

    The rules of [internal/app/identity/service.go] that guard changes of
    roles, permissions and groups: an interactive session with a recent second
    factor, the grant ceiling (nobody hands out or takes away a role or a
    permission they do not hold, system administrators apart) and the
    segregation of duties between roles. *)

From S2P Require Import Prelude GoString Database Identity.

Definition ErrGrantCeiling : error := Sentinel "identity.ErrGrantCeiling".
Definition ErrStepUpRequired : error := Sentinel "identity.ErrStepUpRequired".
Definition ErrInteractiveSessionRequired : error := Sentinel "identity.ErrInteractiveSessionRequired".
Definition ErrRoleConflict : error := Sentinel "identity.ErrRoleConflict".
Definition ErrInvalidRole : error := Sentinel "identity.ErrInvalidRole".

Definition recentMFAWindow : Duration := 10 * Minute.

(** [time.Since] reads the clock: [at_] is the reading. *)
Definition recent_mfa_at (actor : Principal) (at_ : Time) : result unit :=
  match p_MFAVerifiedAt actor with
  | None => Err ErrStepUpRequired
  | Some verified =>
    let age := timeSub at_ verified in
    if (age <? 0) || (recentMFAWindow <? age) then Err ErrStepUpRequired else Ok tt
  end.

Definition RequireRecentMFA {S} (actor : Principal) : M S unit :=
  match p_MFAVerifiedAt actor with
  | None => fail ErrStepUpRequired
  | Some _ => at_ ← now; lift (recent_mfa_at actor at_)
  end.

Definition requireInteractivePrincipal (actor : Principal) : result unit :=
  if (p_Type actor <>s "USER") || (p_UserID actor =s "") || (p_OrganizationID actor =s "") ||
     (p_SessionID actor =s "") then Err ErrInteractiveSessionRequired
  else Ok tt.

Definition authorizeGrantActor {S} (actor : Principal) (orgID : string) : M S unit :=
  _ ← guard_not ((p_Type actor <>s "USER") || (p_UserID actor =s "") ||
                 (p_OrganizationID actor =s "") || (p_OrganizationID actor <>s orgID)) ErrGrantCeiling;
  RequireRecentMFA actor.

(** The symmetric difference of the two lists as sets; the source collects it
    from two Go maps, in an unspecified order. *)
Definition changedValues (current next : list string) : list string :=
  List.filter (fun v => negb (contains next v)) (remove_dups current) ++
  List.filter (fun v => negb (contains current v)) (remove_dups next).

Definition enforceRoleMutation (actor : Principal) (current next : list string) : result unit :=
  if contains (p_Roles actor) "system_admin" then Ok tt
  else if existsb (fun key => negb (contains (p_Roles actor) key)) (changedValues current next)
       then Err ErrGrantCeiling else Ok tt.

Definition enforcePermissionMutation (actor : Principal) (roleKey : string)
    (current next : list string) : result unit :=
  if contains (p_Roles actor) "system_admin" then Ok tt
  else if negb (contains (p_Roles actor) roleKey) then Err ErrGrantCeiling
  else if existsb (fun key => negb (contains (p_Permissions actor) key)) (changedValues current next)
       then Err ErrGrantCeiling else Ok tt.

Definition hasRoleConflict (roleKeys : list string) (rules : list RoleConflictRule) : bool :=
  existsb (fun rule => contains roleKeys (rule_RoleA rule) && contains roleKeys (rule_RoleB rule)) rules.

(** The loop of [normalizeIDs]: trimmed, none blank or long, duplicates
    dropped. *)
Fixpoint normalize_loop (seen : list string) (values : list string) : result (list string) :=
  match values with
  | [] => Ok []
  | value :: rest =>
    let value := TrimSpace value in
    if (value =s "") || (160 <? slen value) then Err (Errorf "invalid value" [])
    else if contains seen value then normalize_loop seen rest
    else match normalize_loop (value :: seen) rest with
    | Err e => Err e
    | Ok clean => Ok (value :: clean)
    end
  end.

Definition normalizeIDs (values : list string) (maximum : Z) : result (list string) :=
  if maximum <? llen values then Err (Errorf "too many values" [])
  else normalize_loop [] values.

(** ** Lemmas *)

Lemma recent_mfa_spec actor at_ :
  recent_mfa_at actor at_ = Ok tt <->
  exists v, p_MFAVerifiedAt actor = Some v /\ v <= at_ <= v + recentMFAWindow.
Proof.
  unfold recent_mfa_at. destruct (p_MFAVerifiedAt actor) as [v|]; [|split; [done|by intros (? & ? & _)]].
  rewrite timeSub_gt by (unfold recentMFAWindow, maxInt64, Minute, Second; lia).
  assert (E : (timeSub at_ v <? 0) = (at_ <? v)).
  { unfold timeSub, minInt64, maxInt64. destruct (Z.ltb_spec at_ v); [apply Z.ltb_lt|apply Z.ltb_ge]; lia. }
  rewrite E. destruct ((at_ <? v) || (v + recentMFAWindow <? at_)) eqn:G.
  - split; [done|]. intros (w & [= <-] & H). orsplit; lia.
  - split; [|done]. intros _. exists v. orsplit. split; [done|lia].
Qed.

Lemma elem_of_changedValues current next v :
  v ∈ changedValues current next <-> (v ∈ current /\ v ∉ next) \/ (v ∈ next /\ v ∉ current).
Proof.
  unfold changedValues. rewrite elem_of_app, !list_elem_of_In, !List.filter_In, !negb_true_iff.
  rewrite <- !list_elem_of_In, !elem_of_remove_dups, !contains_false. done.
Qed.

Lemma normalize_loop_ok seen values clean :
  normalize_loop seen values = Ok clean ->
  NoDup clean /\
  forall v, (v ∈ clean <-> (exists w, w ∈ values /\ v = TrimSpace w) /\ v ∉ seen) /\
            (v ∈ clean -> v <> "" /\ slen v <= 160).
Proof.
  revert seen clean; induction values as [|w ws IH]; cbn; intros seen clean H.
  - injection H as <-. split; [constructor|]. intros v. split; [|intros E; inversion E].
    split; [intros E; inversion E|]. intros [(w & E & _) _]; inversion E.
  - destruct ((TrimSpace w =s "") || _) eqn:G; [discriminate|]. orsplit.
    destruct (contains seen (TrimSpace w)) eqn:C.
    + apply contains_spec in C. apply IH in H as [N H]. split; [done|]. intros v.
      destruct (H v) as [K1 K2]. split; [|done]. rewrite K1. split.
      * intros [(x & Hx & ->) Hs]. split; [|done]. exists x. split; [by constructor|done].
      * intros [(x & Hx & ->) Hs]. split; [|done]. apply elem_of_cons in Hx as [->|Hx]; [done|eauto].
    + apply contains_false in C.
      destruct (normalize_loop _ ws) as [c|] eqn:E; [|discriminate]. injection H as <-.
      apply IH in E as [N H]. split.
      * constructor; [|done]. intros X. apply (proj1 (H _)) in X as [_ X]. apply X. constructor.
      * intros v. destruct (H v) as [K1 K2]. rewrite elem_of_cons, K1. split.
        -- split.
           ++ intros [->|[(x & Hx & ->) Hs]].
              ** split; [|done]. exists w. split; [constructor|done].
              ** split; [|set_solver]. exists x. split; [by constructor|done].
           ++ intros [(x & Hx & ->) Hs]. destruct (decide (TrimSpace x = TrimSpace w)); [by left|right].
              apply elem_of_cons in Hx as [->|Hx]; [done|]. split; [eauto|]. set_solver.
        -- intros [->|X]; [split; [done|lia]|]. apply K2. by apply K1.
Qed.

(** ** Properties *)

(** The grant ceiling: a change of roles is allowed exactly when the actor
    is a system administrator or holds every role that is added or removed; a
    change of a role's permissions exactly when the actor is one, or holds the
    role and every permission that is added or removed. *)
Theorem grant_ceiling actor roleKey current next :
  (enforceRoleMutation actor current next = Ok tt <->
   "system_admin" ∈ p_Roles actor \/
   forall k, (k ∈ current /\ k ∉ next) \/ (k ∈ next /\ k ∉ current) -> k ∈ p_Roles actor) /\
  (enforcePermissionMutation actor roleKey current next = Ok tt <->
   "system_admin" ∈ p_Roles actor \/
   (roleKey ∈ p_Roles actor /\
    forall k, (k ∈ current /\ k ∉ next) \/ (k ∈ next /\ k ∉ current) -> k ∈ p_Permissions actor)).
Proof.
  assert (K : forall held, existsb (fun key => negb (contains held key)) (changedValues current next) = false <->
    forall k, (k ∈ current /\ k ∉ next) \/ (k ∈ next /\ k ∉ current) -> k ∈ held).
  { intros held. rewrite existsb_false. setoid_rewrite elem_of_changedValues.
    setoid_rewrite negb_false_iff. setoid_rewrite contains_spec. done. }
  unfold enforceRoleMutation, enforcePermissionMutation.
  rewrite <- !K, <- !contains_spec. destruct (contains (p_Roles actor) "system_admin"); [intuition|].
  destruct (existsb (fun key => negb (contains (p_Roles actor) key)) _),
    (existsb (fun key => negb (contains (p_Permissions actor) key)) _),
    (contains (p_Roles actor) roleKey); cbn; intuition discriminate.
Qed.
