(* ===== verification/SecurityPolicy.v ===== *)
(** * Security policies

    The policy of an organization for passwords, logins and sessions: the part
    of [internal/app/identity/service.go] that resolves it from the settings,
    validates and stores it, with the table [system_settings] of
    [internal/adapters/repository/identity.go]. *)

From S2P Require Import Prelude GoString Strconv Database Identity Password.

Definition ErrInvalidSecurityPolicy : error := Sentinel "identity.ErrInvalidSecurityPolicy".

Definition SecuritySettingPasswordMinLength := "security.password_min_length".
Definition SecuritySettingPasswordRequireUpper := "security.password_require_upper".
Definition SecuritySettingPasswordRequireLower := "security.password_require_lower".
Definition SecuritySettingPasswordRequireDigit := "security.password_require_digit".
Definition SecuritySettingPasswordRequireSymbol := "security.password_require_symbol".
Definition SecuritySettingPasswordHistory := "security.password_history".
Definition SecuritySettingPasswordMaxAgeDays := "security.password_max_age_days".
Definition SecuritySettingLoginMaxFailures := "security.login_max_failures".
Definition SecuritySettingLoginLockDurationSec := "security.login_lock_duration_seconds".
Definition SecuritySettingSessionTTLSeconds := "security.session_ttl_seconds".
Definition SecuritySettingMaxConcurrentSessions := "security.max_active_sessions".

Record resolvedPolicy := mkResolved {
  passwordPolicy : Password.Policy;
  sessionTTL : Duration;
  maxFailures : Z;
  lockDuration : Duration;
  maxAge : Duration;
  history : Z;
  maxConcurrent : Z
}.
#[export] Instance resolvedPolicy_eta : Eta resolvedPolicy := fun p =>
  mkResolved (passwordPolicy p) (sessionTTL p) (maxFailures p) (lockDuration p) (maxAge p) (history p)
    (maxConcurrent p).

Definition minimumPasswordLength : Z := 12.
Definition minimumPasswordHistory : Z := 5.
Definition maximumPasswordAgeDays : Z := 90.
Definition maximumLoginFailures : Z := 5.
Definition minimumLoginLockDuration : Duration := 15 * Minute.
Definition maximumSessionTTL : Duration := 12 * Hour.
Definition maximumConcurrentSessions : Z := 5.

(** The configuration of the service that the policy reads, with the days of
    the password age already turned into a duration by [NewService]. *)
Record Options := mkOptions {
  opt_MinLength : Z;
  opt_RequireUpper : bool;
  opt_RequireLower : bool;
  opt_RequireDigit : bool;
  opt_RequireSymbol : bool;
  opt_History : Z;
  opt_MaxAgeDays : Z;
  opt_SessionTTL : Duration;
  opt_MaxFailures : Z;
  opt_LockDuration : Duration
}.

Record Service := mkService {
  s_policy : Password.Policy;
  s_sessionTTL : Duration;
  s_maxFailures : Z;
  s_lockDuration : Duration;
  s_history : Z;
  s_maxAge : Duration
}.

Definition NewService (opt : Options) : Service :=
  mkService (mkPolicy (opt_MinLength opt) (opt_RequireUpper opt) (opt_RequireLower opt)
               (opt_RequireDigit opt) (opt_RequireSymbol opt))
    (opt_SessionTTL opt) (opt_MaxFailures opt) (opt_LockDuration opt) (opt_History opt)
    (wrap64 (wrap64 (opt_MaxAgeDays opt * 24) * Hour)).

Definition defaultPolicy (s : Service) : resolvedPolicy :=
  mkResolved (s_policy s) (s_sessionTTL s) (s_maxFailures s) (s_lockDuration s) (s_maxAge s) (s_history s)
    maximumConcurrentSessions.

(** ** Validation *)

Definition seconds_duration (seconds : Z) : Duration := wrap64 (seconds * Second).

Definition invalid_policy {A} (format : string) (args : list farg) : result A :=
  Err (Wrapf format args ErrInvalidSecurityPolicy).

Definition validateSecurityPolicy (policy : SecurityPolicy) : result unit :=
  if sp_PasswordMinLength policy <? minimumPasswordLength then
    invalid_policy "%w: password_min_length must be at least %d" [FInt minimumPasswordLength]
  else if negb (sp_PasswordRequireUpper policy) || negb (sp_PasswordRequireLower policy) ||
          negb (sp_PasswordRequireDigit policy) || negb (sp_PasswordRequireSymbol policy) then
    invalid_policy "%w: password character-class requirements cannot be disabled" []
  else if sp_PasswordHistory policy <? minimumPasswordHistory then
    invalid_policy "%w: password_history must be at least %d" [FInt minimumPasswordHistory]
  else if (sp_PasswordMaxAgeDays policy <? 1) || (maximumPasswordAgeDays <? sp_PasswordMaxAgeDays policy) then
    invalid_policy "%w: password_max_age_days must be between 1 and %d" [FInt maximumPasswordAgeDays]
  else if (sp_LoginMaxFailures policy <? 1) || (maximumLoginFailures <? sp_LoginMaxFailures policy) then
    invalid_policy "%w: login_max_failures must be between 1 and %d" [FInt maximumLoginFailures]
  else if seconds_duration (sp_LoginLockDurationSeconds policy) <? minimumLoginLockDuration then
    invalid_policy "%w: login_lock_duration_seconds must be at least %d"
      [FInt (trunc (Seconds minimumLoginLockDuration))]
  else if (sp_SessionTTLSeconds policy <? 1) ||
          (maximumSessionTTL <? seconds_duration (sp_SessionTTLSeconds policy)) then
    invalid_policy "%w: session_ttl_seconds must be between 1 and %d" [FInt (trunc (Seconds maximumSessionTTL))]
  else if (sp_MaxConcurrentSessions policy <? 1) ||
          (maximumConcurrentSessions <? sp_MaxConcurrentSessions policy) then
    invalid_policy "%w: max_active_sessions must be between 1 and %d" [FInt maximumConcurrentSessions]
  else Ok tt.

(** The policy as the API shows it. *)
Definition shown_policy (policy : resolvedPolicy) : SecurityPolicy :=
  mkSecurityPolicy (MinLength (passwordPolicy policy)) (RequireUpper (passwordPolicy policy))
    (RequireLower (passwordPolicy policy)) (RequireDigit (passwordPolicy policy))
    (RequireSymbol (passwordPolicy policy)) (history policy)
    (Z.quot (trunc (Hours (maxAge policy))) 24) (maxFailures policy)
    (trunc (Seconds (lockDuration policy))) (trunc (Seconds (sessionTTL policy))) (maxConcurrent policy).

Definition validateResolvedPolicy (policy : resolvedPolicy) : result unit :=
  validateSecurityPolicy (shown_policy policy).

(** ** The table [system_settings], by its primary key *)

Record SettingRow := mkSetting { set_value : string; set_updated_at : Time; set_updated_by : string }.
Notation Settings := (gmap (string * string) SettingRow).
Notation M := (Database.M Settings).

(** The map the rows are read into. *)
Definition settings_of (org : string) (t : Settings) : gmap string string :=
  list_to_map (map (fun '((_, key), row) => (key, set_value row))
    (List.filter (fun '((organization, _), _) => organization =s org) (map_to_list t))).

Definition SecuritySettings (org : string) : M (gmap string string) := query (settings_of org).

Definition upsert_setting (org updatedBy : string) (now : Time) (kv : string * string) (t : Settings) : Settings :=
  <[(org, kv.1) := mkSetting kv.2 now updatedBy]> t.

(** The map of the new values is ranged over in an unspecified order; its keys
    are distinct, so every order stores the same rows. *)
Definition SetSecuritySettings (org updatedBy : string) (values : gmap string string) : M unit :=
  if (size values =? 0)%nat then mret tt
  else
    at_ ← now;
    WithTx (forM (map_to_list values) (fun kv => exec (upsert_setting org updatedBy (UTC at_) kv))).

(** ** The service *)

(** One setting: a blank value leaves the policy as it is. *)
Definition read_setting (settings : gmap string string) (key label : string)
    (parse : string -> option (resolvedPolicy -> resolvedPolicy)) (out : resolvedPolicy)
  : result resolvedPolicy :=
  let v := TrimSpace (default "" (settings !! key)) in
  if v <>s "" then
    match parse v with
    | Some apply => Ok (apply out)
    | None => Err (Wrapf label [] ErrInvalidSecurityPolicy)
    end
  else Ok out.

(** [strconv.Atoi] with a lower bound, and [strconv.ParseBool]. *)
Definition parse_int (minimum : Z) (apply : Z -> resolvedPolicy -> resolvedPolicy) (v : string)
  : option (resolvedPolicy -> resolvedPolicy) :=
  match Atoi v with
  | Some parsed => if parsed <? minimum then None else Some (apply parsed)
  | None => None
  end.
Definition parse_bool (apply : bool -> resolvedPolicy -> resolvedPolicy) (v : string)
  : option (resolvedPolicy -> resolvedPolicy) := apply <$> ParseBool v.

Definition read_settings (settings : gmap string string) (out : resolvedPolicy) : result resolvedPolicy :=
  out ← read_setting settings SecuritySettingPasswordMinLength "%w: password_min_length"
    (parse_int 1 (fun v p => p <| passwordPolicy := (passwordPolicy p) <| MinLength := v |> |>)) out;
  out ← read_setting settings SecuritySettingPasswordRequireUpper "%w: password_require_upper"
    (parse_bool (fun v p => p <| passwordPolicy := (passwordPolicy p) <| RequireUpper := v |> |>)) out;
  out ← read_setting settings SecuritySettingPasswordRequireLower "%w: password_require_lower"
    (parse_bool (fun v p => p <| passwordPolicy := (passwordPolicy p) <| RequireLower := v |> |>)) out;
  out ← read_setting settings SecuritySettingPasswordRequireDigit "%w: password_require_digit"
    (parse_bool (fun v p => p <| passwordPolicy := (passwordPolicy p) <| RequireDigit := v |> |>)) out;
  out ← read_setting settings SecuritySettingPasswordRequireSymbol "%w: password_require_symbol"
    (parse_bool (fun v p => p <| passwordPolicy := (passwordPolicy p) <| RequireSymbol := v |> |>)) out;
  out ← read_setting settings SecuritySettingPasswordHistory "%w: password_history"
    (parse_int 0 (fun v p => p <| history := v |>)) out;
  out ← read_setting settings SecuritySettingPasswordMaxAgeDays "%w: password_max_age_days"
    (parse_int 0 (fun v p => p <| maxAge := wrap64 (wrap64 (v * 24) * Hour) |>)) out;
  out ← read_setting settings SecuritySettingLoginMaxFailures "%w: login_max_failures"
    (parse_int 0 (fun v p => p <| maxFailures := v |>)) out;
  out ← read_setting settings SecuritySettingLoginLockDurationSec "%w: login_lock_duration_seconds"
    (parse_int 0 (fun v p => p <| lockDuration := seconds_duration v |>)) out;
  out ← read_setting settings SecuritySettingSessionTTLSeconds "%w: session_ttl_seconds"
    (parse_int 1 (fun v p => p <| sessionTTL := seconds_duration v |>)) out;
  read_setting settings SecuritySettingMaxConcurrentSessions "%w: max_active_sessions"
    (parse_int 0 (fun v p => p <| maxConcurrent := v |>)) out.

Definition resolveSecurityPolicy (s : Service) (org : string) : M resolvedPolicy :=
  let out := defaultPolicy s in
  if org =s "" then _ ← lift (validateResolvedPolicy out); mret out
  else
    settings ← SecuritySettings org;
    out ← lift (read_settings settings out);
    _ ← lift (validateResolvedPolicy out);
    mret out.

Definition service_SecurityPolicy (s : Service) (org : string) : M SecurityPolicy :=
  policy ← resolveSecurityPolicy s org;
  mret (shown_policy policy).

Definition policy_payload (policy : SecurityPolicy) : gmap string string :=
  list_to_map
    [(SecuritySettingPasswordMinLength, Itoa (sp_PasswordMinLength policy));
     (SecuritySettingPasswordRequireUpper, FormatBool (sp_PasswordRequireUpper policy));
     (SecuritySettingPasswordRequireLower, FormatBool (sp_PasswordRequireLower policy));
     (SecuritySettingPasswordRequireDigit, FormatBool (sp_PasswordRequireDigit policy));
     (SecuritySettingPasswordRequireSymbol, FormatBool (sp_PasswordRequireSymbol policy));
     (SecuritySettingPasswordHistory, Itoa (sp_PasswordHistory policy));
     (SecuritySettingPasswordMaxAgeDays, Itoa (sp_PasswordMaxAgeDays policy));
     (SecuritySettingLoginMaxFailures, Itoa (sp_LoginMaxFailures policy));
     (SecuritySettingLoginLockDurationSec, Itoa (sp_LoginLockDurationSeconds policy));
     (SecuritySettingSessionTTLSeconds, Itoa (sp_SessionTTLSeconds policy));
     (SecuritySettingMaxConcurrentSessions, Itoa (sp_MaxConcurrentSessions policy))].

Definition UpdateSecurityPolicy (s : Service) (org updatedBy : string) (policy : SecurityPolicy)
  : M SecurityPolicy :=
  _ ← lift (validateSecurityPolicy policy);
  _ ← SetSecuritySettings org updatedBy (policy_payload policy);
  service_SecurityPolicy s org.

(** The defaults of the configuration, for the keys that have no row. *)
Definition finalizeBootstrapDefaults (s : Service) (org : string) : M unit :=
  existing ← SecuritySettings org;
  let changes := policy_payload (shown_policy (defaultPolicy s)) ∖ existing in
  if (size changes =? 0)%nat then mret tt else SetSecuritySettings org "system" changes.

(** ** The rows and the map read from them *)

Lemma settings_of_lookup org t key : settings_of org t !! key = set_value <$> t !! (org, key).
Proof.
  unfold settings_of.
  set (rows := List.filter _ (map_to_list t)).
  assert (R : forall o k row, ((o, k), row) ∈ rows <-> o = org /\ t !! (o, k) = Some row).
  { intros o k row. unfold rows. rewrite list_elem_of_In, List.filter_In, <- list_elem_of_In,
      elem_of_map_to_list, seqb_true. tauto. }
  assert (N : NoDup (map (fun '((_, k), row) => (k, set_value row)) rows).*1).
  { change ((map ?f rows).*1) with (fst <$> (map f rows)). rewrite <- list_fmap_compose.
    change (_ <$> rows) with (map (fst ∘ (fun '((_, k), row) => (k, set_value row))) rows).
    apply (NoDup_map_via fst).
    - assert (N : NoDup (map fst (map_to_list t))) by apply (NoDup_fst_map_to_list t).
      unfold rows. clear R rows. induction (map_to_list t) as [|[[o k] row] l IH]; cbn; [constructor|].
      apply NoDup_cons in N as [N0 N]. destruct (o =s org); cbn; [|by apply IH].
      constructor; [|by apply IH]. intros X. apply N0.
      apply list_elem_of_In, in_map_iff in X as (x & E & Hx). apply filter_In in Hx as [Hx _].
      change ((o, k) ∈ map fst l). rewrite <- E. by apply list_elem_of_In, in_map.
    - intros [[o k] row] [[o' k'] row'] Hx Hy E. apply R in Hx as [-> _]. apply R in Hy as [-> _].
      cbn in *. congruence. }
  apply option_eq. intros v. rewrite <- elem_of_list_to_map by done.
  rewrite list_elem_of_In, in_map_iff. split.
  - intros ([[o k] row] & [= <- <-] & Hx). apply list_elem_of_In, R in Hx as [-> ->]. done.
  - destruct (t !! (org, key)) as [row|] eqn:E; cbn; [|discriminate]. intros [= <-].
    exists ((org, key), row). split; [done|]. by apply list_elem_of_In, R.
Qed.

(** The rows after the upserts of a list of values. *)
Definition upserts (org updatedBy : string) (now : Time) (l : list (string * string)) (t : Settings) : Settings :=
  fold_left (fun t kv => upsert_setting org updatedBy now kv t) l t.

Lemma forM_upserts org updatedBy now l e n t : (forall k, faults e k = None) ->
  exists n', forM l (fun kv => exec (upsert_setting org updatedBy now kv)) e n t =
    (Ok tt, n', upserts org updatedBy now l t).
Proof.
  intros F. revert n t. induction l as [|kv l IH]; intros n t; [by exists n|].
  cbn [forM upserts fold_left]. unfold mbind, M_bind, exec, stmt. rewrite F. apply IH.
Qed.

Lemma upserts_lookup org updatedBy now l t o k : NoDup l.*1 ->
  upserts org updatedBy now l t !! (o, k) =
  match (if o =s org then (list_to_map l : gmap string string) !! k else None) with
  | Some v => Some (mkSetting v now updatedBy)
  | None => t !! (o, k)
  end.
Proof.
  revert t. induction l as [|[k' v'] l IH]; intros t N; [by destruct (o =s org)|].
  cbn in N. apply NoDup_cons in N as [N0 N]. cbn [upserts fold_left list_to_map foldr].
  change (fold_left _ l ?x) with (upserts org updatedBy now l x). rewrite IH by done.
  destruct (String.eqb_spec o org) as [->|Ho]; cbn [uncurry fst snd].
  - unfold upsert_setting. cbn [fst snd]. destruct (decide (k = k')) as [->|Hk].
    + rewrite (lookup_insert_eq (list_to_map l : gmap string string)).
      rewrite not_elem_of_list_to_map_1 by done. by rewrite lookup_insert_eq.
    + rewrite (lookup_insert_ne (list_to_map l : gmap string string)) by done. destruct ((list_to_map l : gmap string string) !! k); [done|].
      rewrite lookup_insert_ne; congruence.
  - unfold upsert_setting. rewrite lookup_insert_ne; congruence.
Qed.

Lemma SetSecuritySettings_runs org updatedBy values e n t :
  in_tx e = false -> (forall k, faults e k = None) ->
  exists n' t', SetSecuritySettings org updatedBy values e n t = (Ok tt, n', t') /\
    (forall k v, values !! k = Some v -> set_value <$> t' !! (org, k) = Some v) /\
    (forall k, values !! k = None -> t' !! (org, k) = t !! (org, k)) /\
    (forall o k, o <> org -> t' !! (o, k) = t !! (o, k)).
Proof.
  intros T F. unfold SetSecuritySettings. destruct (Nat.eqb_spec (size values) 0) as [Z0|NZ].
  - apply map_size_empty_inv in Z0 as ->. exists n, t. split_and!; try done.
  - rewrite now_split. set (at_ := UTC (clock e n)).
    assert (exists k, WithTx (forM (map_to_list values) (fun kv => exec (upsert_setting org updatedBy at_ kv))) e
      (S n) t = (Ok tt, k, upserts org updatedBy at_ (map_to_list values) t)) as [k ->].
    { unfold WithTx. rewrite T, F.
      match goal with |- context [forM ?l ?f ?e' ?m t] => destruct (forM_upserts org updatedBy at_ l e' m t F) as [k ->] end.
      rewrite F. eauto. }
    exists k, (upserts org updatedBy at_ (map_to_list values) t).
    pose proof (NoDup_fst_map_to_list values) as N.
    split_and!; [done|..]; intros; rewrite upserts_lookup, ?list_to_map_to_list by done.
    + rewrite seqb_refl, H. done.
    + rewrite seqb_refl, H. done.
    + by rewrite seqb_neq.
Qed.

(** ** Reading back a payload *)

(** A number of seconds whose duration does not overflow. *)
Definition seconds_fit (z : Z) : Prop := - 9223372036 <= z <= 9223372036.

(** The policies the API can send, apart from durations that overflow. *)
Definition in_range (p : SecurityPolicy) : Prop :=
  sp_PasswordMinLength p <= maxInt64 /\ sp_PasswordHistory p <= maxInt64 /\
  seconds_fit (sp_LoginLockDurationSeconds p) /\ seconds_fit (sp_SessionTTLSeconds p).

Lemma seconds_duration_fit z : seconds_fit z -> seconds_duration z = z * Second.
Proof. intros H. apply wrap64_id. unfold seconds_fit, minInt64, maxInt64, Second in *. lia. Qed.

Lemma validate_bounds p : in_range p -> validateSecurityPolicy p = Ok tt ->
  12 <= sp_PasswordMinLength p /\ 5 <= sp_PasswordHistory p /\
  sp_PasswordRequireUpper p = true /\ sp_PasswordRequireLower p = true /\
  sp_PasswordRequireDigit p = true /\ sp_PasswordRequireSymbol p = true /\
  1 <= sp_PasswordMaxAgeDays p <= 90 /\ 1 <= sp_LoginMaxFailures p <= 5 /\
  900 <= sp_LoginLockDurationSeconds p /\ 1 <= sp_SessionTTLSeconds p <= 43200 /\
  1 <= sp_MaxConcurrentSessions p <= 5.
Proof.
  intros (_ & _ & L & T) V. unfold validateSecurityPolicy, invalid_policy in V.
  rewrite !seconds_duration_fit in V by done. guards V. orsplit.
  unfold minimumPasswordLength, minimumPasswordHistory, maximumPasswordAgeDays, maximumLoginFailures,
    minimumLoginLockDuration, maximumSessionTTL, maximumConcurrentSessions, Hour, Minute, Second in *.
  split_and!; done || lia.
Qed.

Lemma read_int settings key label minimum apply out v :
  settings !! key = Some (Itoa v) -> 0 <= v <= maxInt64 -> minimum <= v ->
  read_setting settings key label (parse_int minimum apply) out = Ok (apply v out).
Proof.
  intros E R Hm. unfold read_setting. rewrite E. cbn [default from_option id]. rewrite TrimSpace_Itoa by lia.
  unfold parse_int. rewrite Itoa_not_empty, Atoi_Itoa by lia. cbn [negb].
  by replace (v <? minimum) with false by (symmetry; apply Z.ltb_ge; lia).
Qed.

Lemma read_bool settings key label apply out v :
  settings !! key = Some (FormatBool v) ->
  read_setting settings key label (parse_bool apply) out = Ok (apply v out).
Proof.
  intros E. unfold read_setting. rewrite E. cbn [default from_option id]. rewrite TrimSpace_FormatBool.
  unfold parse_bool. rewrite ParseBool_FormatBool. by destruct v.
Qed.

(** The policy that the settings of a payload resolve to. *)
Definition stored_policy (p : SecurityPolicy) : resolvedPolicy :=
  mkResolved (mkPolicy (sp_PasswordMinLength p) (sp_PasswordRequireUpper p) (sp_PasswordRequireLower p)
                (sp_PasswordRequireDigit p) (sp_PasswordRequireSymbol p))
    (sp_SessionTTLSeconds p * Second) (sp_LoginMaxFailures p) (sp_LoginLockDurationSeconds p * Second)
    (sp_PasswordMaxAgeDays p * 24 * Hour) (sp_PasswordHistory p) (sp_MaxConcurrentSessions p).

Lemma payload_is_read settings p out : in_range p -> validateSecurityPolicy p = Ok tt ->
  (forall k v, policy_payload p !! k = Some v -> settings !! k = Some v) ->
  read_settings settings out = Ok (stored_policy p).
Proof.
  intros R V K. destruct (validate_bounds p R V) as (B1 & B2 & U1 & U2 & U3 & U4 & B3 & B4 & B5 & B6 & B7).
  destruct R as (R1 & R2 & R3 & R4). unfold seconds_fit in *.
  assert (I : maxInt64 = 9223372036854775807) by done. unfold read_settings.
  rewrite (read_int _ _ _ _ _ _ (sp_PasswordMinLength p)) by first [apply K; reflexivity|lia].
  cbn [mbind result_bind].
  rewrite (read_bool _ _ _ _ _ (sp_PasswordRequireUpper p)) by (apply K; reflexivity). cbn [mbind result_bind].
  rewrite (read_bool _ _ _ _ _ (sp_PasswordRequireLower p)) by (apply K; reflexivity). cbn [mbind result_bind].
  rewrite (read_bool _ _ _ _ _ (sp_PasswordRequireDigit p)) by (apply K; reflexivity). cbn [mbind result_bind].
  rewrite (read_bool _ _ _ _ _ (sp_PasswordRequireSymbol p)) by (apply K; reflexivity). cbn [mbind result_bind].
  rewrite (read_int _ _ _ _ _ _ (sp_PasswordHistory p)) by first [apply K; reflexivity|lia].
  cbn [mbind result_bind].
  rewrite (read_int _ _ _ _ _ _ (sp_PasswordMaxAgeDays p)) by first [apply K; reflexivity|lia].
  cbn [mbind result_bind].
  rewrite (read_int _ _ _ _ _ _ (sp_LoginMaxFailures p)) by first [apply K; reflexivity|lia].
  cbn [mbind result_bind].
  rewrite (read_int _ _ _ _ _ _ (sp_LoginLockDurationSeconds p)) by first [apply K; reflexivity|lia].
  cbn [mbind result_bind].
  rewrite (read_int _ _ _ _ _ _ (sp_SessionTTLSeconds p)) by first [apply K; reflexivity|lia].
  cbn [mbind result_bind].
  rewrite (read_int _ _ _ _ _ _ (sp_MaxConcurrentSessions p)) by first [apply K; reflexivity|lia].
  rewrite !seconds_duration_fit by (unfold seconds_fit; lia).
  rewrite (wrap64_id (sp_PasswordMaxAgeDays p * 24)), wrap64_id
    by (unfold minInt64, maxInt64, Hour, Minute, Second; lia).
  reflexivity.
Qed.

Lemma shown_stored p : in_range p -> validateSecurityPolicy p = Ok tt -> shown_policy (stored_policy p) = p.
Proof.
  intros R V. destruct (validate_bounds p R V) as (_ & _ & _ & _ & _ & _ & B3 & _ & B5 & B6 & _).
  destruct R as (_ & _ & R3 & R4). unfold seconds_fit in *. unfold shown_policy, stored_policy. cbn.
  rewrite trunc_Hours, !trunc_Seconds by lia. rewrite Z.quot_mul by lia. by destruct p.
Qed.

Lemma policy_reads_back s org p e n t : (forall k, faults e k = None) ->
  in_range p -> validateSecurityPolicy p = Ok tt -> org <> "" ->
  (forall k v, policy_payload p !! k = Some v -> set_value <$> t !! (org, k) = Some v) ->
  service_SecurityPolicy s org e n t = (Ok p, S n, t).
Proof.
  intros F R V O K. unfold service_SecurityPolicy, resolveSecurityPolicy. rewrite (seqb_neq _ _ O).
  unfold SecuritySettings, query, stmt, mbind, M_bind. rewrite F. cbv beta iota.
  rewrite (payload_is_read _ p) by (try done; intros k v E; rewrite settings_of_lookup; by apply K).
  unfold lift, mret, M_ret, validateResolvedPolicy. cbv beta iota.
  rewrite shown_stored by done. rewrite V. cbv beta iota. by rewrite shown_stored.
Qed.

(** Setting a security policy and reading it back agree: a policy that
    the rules accept is stored and returned as it was given, and every later
    read returns it, whatever the configuration's defaults are; a policy that
    they refuse leaves the settings alone.  Durations of more seconds than fit
    64 bits of nanoseconds are excepted. *)
Theorem security_policy_round_trip s org updatedBy p e n t :
  in_tx e = false -> (forall k, faults e k = None) -> org <> "" -> in_range p ->
  match validateSecurityPolicy p with
  | Err err => UpdateSecurityPolicy s org updatedBy p e n t = (Err err, n, t)
  | Ok _ => exists n' t', UpdateSecurityPolicy s org updatedBy p e n t = (Ok p, n', t') /\
      (forall e' m, (forall k, faults e' k = None) ->
         service_SecurityPolicy s org e' m t' = (Ok p, S m, t')) /\
      (forall o k, o <> org -> t' !! (o, k) = t !! (o, k))
  end.
Proof.
  intros T F O R. destruct (validateSecurityPolicy p) as [[]|err] eqn:V.
  - destruct (SetSecuritySettings_runs org updatedBy (policy_payload p) e n t T F) as (k & t' & E & K & _ & X).
    exists (S k), t'. split; [|split; [|done]].
    + unfold UpdateSecurityPolicy. rewrite V. unfold mbind, M_bind, lift. rewrite E.
      by apply policy_reads_back.
    + intros e' m F'. by apply policy_reads_back.
  - unfold UpdateSecurityPolicy. by rewrite V.
Qed.

(** ** Examples *)
Module examples.
Definition policy : SecurityPolicy := mkSecurityPolicy 14 true true true true 8 60 4 1800 28800 3.
Definition service : Service := NewService (mkOptions 12 true true true true 5 90 (8 * Hour) 5 (15 * Minute)).
Definition env : Env := mkEnv (fun _ => 7) (fun _ => "") (fun _ => None) (fun _ _ => "0"%char) false.

(** The defaults are what an organization without settings gets. *)
Example defaults :
  (service_SecurityPolicy service "o" env O ∅).1.1 = Ok (mkSecurityPolicy 12 true true true true 5 90 5 900 28800 5).
Proof. vm_compute. reflexivity. Qed.
End examples.

Lemma security_policy_round_trip_witness :
  exists n' t', UpdateSecurityPolicy examples.service "o" "u" examples.policy examples.env O ∅ =
    (Ok examples.policy, n', t').
Proof.
  destruct (security_policy_round_trip examples.service "o" "u" examples.policy examples.env O ∅)
    as (n' & t' & E & _); [done|done|done|unfold in_range, seconds_fit, maxInt64; cbn; lia|].
  by exists n', t'.
Defined.

(** A lock of 18446744974 seconds is accepted and becomes fifteen minutes: the
    check multiplies with wrap-around, and so does the stored value. *)
Example an_overlong_lock_is_shortened :
  match UpdateSecurityPolicy examples.service "o" "u"
          (examples.policy <| sp_LoginLockDurationSeconds := 18446744974 |>) examples.env O ∅ with
  | (Ok p, _, _) => sp_LoginLockDurationSeconds p
  | _ => 0
  end = 900.
Proof. vm_compute. reflexivity. Qed.
