(* ===== verification/Directory.v ===== *)
(** * The directory

    Departments, positions and user assignments of
    [internal/app/identity/service.go] with their tables of
    [internal/adapters/repository/identity.go], and the effective data scope of a
    user ([DataScopeForUser]).

    The walks over the hierarchy are loops of the code that end because the
    hierarchy is finite; they are fixpoints on fuel, and the fuel given is
    proved to be enough. *)

From S2P Require Import Prelude GoString Database Identity GrantPolicy.

Record Position := mkPosition {
  pos_ID : string;
  pos_OrganizationID : string;
  pos_DepartmentID : string;
  pos_Key : string;
  pos_Name : string;
  pos_Description : string;
  pos_Status : string;
  pos_SortOrder : Z;
  pos_CreatedAt : Time;
  pos_UpdatedAt : Time
}.
#[export] Instance Position_eta : Eta Position := fun p =>
  mkPosition (pos_ID p) (pos_OrganizationID p) (pos_DepartmentID p) (pos_Key p) (pos_Name p)
    (pos_Description p) (pos_Status p) (pos_SortOrder p) (pos_CreatedAt p) (pos_UpdatedAt p).

Record UserAssignment := mkAssignment {
  as_ID : string;
  as_OrganizationID : string;
  as_UserID : string;
  as_DepartmentID : string;
  as_PositionID : string;
  as_Primary : bool;
  as_ValidFrom : Time;
  as_ValidUntil : option Time;
  as_CreatedAt : Time
}.
#[export] Instance UserAssignment_eta : Eta UserAssignment := fun a =>
  mkAssignment (as_ID a) (as_OrganizationID a) (as_UserID a) (as_DepartmentID a) (as_PositionID a)
    (as_Primary a) (as_ValidFrom a) (as_ValidUntil a) (as_CreatedAt a).

Definition ErrInvalidDepartment := Sentinel "identity.ErrInvalidDepartment".
Definition ErrInvalidPosition := Sentinel "identity.ErrInvalidPosition".
Definition ErrInvalidUserAssignment := Sentinel "identity.ErrInvalidUserAssignment".

(** A role as the data scope reads it: its organization and scope type, and the
    departments of a custom scope. *)
Record RoleRow := mkRoleRow {
  ro_id : string; ro_organization_id : string; ro_data_scope_type : string; ro_departments : list string
}.

(** The tables.  An empty [ParentID] or [PositionID] stands for NULL (the
    writes store NULL for the empty string, [nullableString], and the reads
    turn it back); [dir_users] holds the identifier and the organization of each
    user, [dir_effective] the roles a user has, directly, through active groups or
    through temporary grants that began by the first and end after the second
    of two instants (the statement reads the clock twice). *)
Record Tables := mkTables {
  dir_departments : list Department;
  dir_positions : list Position;
  dir_assignments : list UserAssignment;
  dir_users : list (string * string);
  dir_roles : list RoleRow;
  dir_effective : Time -> Time -> string -> list string
}.
#[export] Instance Tables_eta : Eta Tables := fun t =>
  mkTables (dir_departments t) (dir_positions t) (dir_assignments t) (dir_users t) (dir_roles t)
    (dir_effective t).

Notation M := (M Tables).

(** ** The repository *)

Definition department_key (org id : string) (d : Department) : bool :=
  (dep_OrganizationID d =s org) && (dep_ID d =s id).
Definition position_key (org id : string) (p : Position) : bool :=
  (pos_OrganizationID p =s org) && (pos_ID p =s id).

Definition departments_of (org : string) (t : Tables) : list Department :=
  order_by (fun x y => (dep_SortOrder x <? dep_SortOrder y) ||
                       ((dep_SortOrder x =? dep_SortOrder y) && str_le (dep_Key x) (dep_Key y)))
    (select (fun d => dep_OrganizationID d =s org) (dir_departments t)).

Definition ListDepartments (org : string) : M (list Department) := query (departments_of org).
Definition ListDepartmentsForUpdate (org : string) : M (list Department) := query (departments_of org).

Definition DepartmentByID (org id : string) : M Department :=
  queryR (fun t => select_row (department_key org id) (dir_departments t)).

Definition insert_department (d : Department) (t : Tables) : result (unit * Tables) :=
  if existsb (fun x => (dep_ID x =s dep_ID d) ||
                       ((dep_OrganizationID x =s dep_OrganizationID d) && (dep_Key x =s dep_Key d)))
       (dir_departments t)
  then Err ErrDuplicate
  else Ok (tt, t <| dir_departments := dir_departments t ++ [d] |>).

Definition repo_CreateDepartment (req : Department) : M Department :=
  at_ ← now;
  id ← NewString;
  let req := req <| dep_ID := id |> <| dep_CreatedAt := UTC at_ |> <| dep_UpdatedAt := UTC at_ |> in
  _ ← stmt (insert_department req);
  mret req.

Definition set_department (req : Department) (now : Time) (d : Department) : Department :=
  d <| dep_ParentID := dep_ParentID req |> <| dep_Name := dep_Name req |>
    <| dep_Status := dep_Status req |> <| dep_SortOrder := dep_SortOrder req |>
    <| dep_UpdatedAt := now |>.

(** [RowsAffected] counts the matching rows: their [updated_at] changes. *)
Definition repo_UpdateDepartment (req : Department) : M Department :=
  at_ ← now;
  let key := department_key (dep_OrganizationID req) (dep_ID req) in
  count ← stmt (fun t => Ok (count_if key (dir_departments t),
    t <| dir_departments := update_where key (set_department req (UTC at_)) (dir_departments t) |>));
  _ ← guard_not (negb (count =? 1)) ErrNoRows;
  DepartmentByID (dep_OrganizationID req) (dep_ID req).

Definition positions_of (org : string) (t : Tables) : list Position :=
  order_by (fun x y => (pos_SortOrder x <? pos_SortOrder y) ||
                       ((pos_SortOrder x =? pos_SortOrder y) && str_le (pos_Key x) (pos_Key y)))
    (select (fun p => pos_OrganizationID p =s org) (dir_positions t)).

Definition ListPositions (org : string) : M (list Position) := query (positions_of org).

Definition PositionByID (org id : string) : M Position :=
  queryR (fun t => select_row (position_key org id) (dir_positions t)).

Definition insert_position (p : Position) (t : Tables) : result (unit * Tables) :=
  if existsb (fun x => (pos_ID x =s pos_ID p) ||
                       ((pos_OrganizationID x =s pos_OrganizationID p) && (pos_Key x =s pos_Key p)))
       (dir_positions t)
  then Err ErrDuplicate
  else Ok (tt, t <| dir_positions := dir_positions t ++ [p] |>).

Definition repo_CreatePosition (req : Position) : M Position :=
  at_ ← now;
  id ← NewString;
  let req := req <| pos_ID := id |> <| pos_CreatedAt := UTC at_ |> <| pos_UpdatedAt := UTC at_ |> in
  _ ← stmt (insert_position req);
  mret req.

Definition set_position (req : Position) (now : Time) (p : Position) : Position :=
  p <| pos_DepartmentID := pos_DepartmentID req |> <| pos_Name := pos_Name req |>
    <| pos_Description := pos_Description req |> <| pos_Status := pos_Status req |>
    <| pos_SortOrder := pos_SortOrder req |> <| pos_UpdatedAt := now |>.

Definition repo_UpdatePosition (req : Position) : M Position :=
  at_ ← now;
  let key := position_key (pos_OrganizationID req) (pos_ID req) in
  count ← stmt (fun t => Ok (count_if key (dir_positions t),
    t <| dir_positions := update_where key (set_position req (UTC at_)) (dir_positions t) |>));
  _ ← guard_not (negb (count =? 1)) ErrNoRows;
  PositionByID (pos_OrganizationID req) (pos_ID req).

Definition CountActivePositions (org department : string) : M Z :=
  query (fun t => count_if (fun p => (pos_OrganizationID p =s org) && (pos_DepartmentID p =s department) &&
                                     (pos_Status p =s "ACTIVE")) (dir_positions t)).

Definition current_at (at_ : Time) (a : UserAssignment) : bool :=
  (as_ValidFrom a <=? at_) && match as_ValidUntil a with None => true | Some u => at_ <? u end.

Definition CountCurrentAssignments (org department : string) (at_ : Time) : M Z :=
  query (fun t => count_if (fun a => (as_OrganizationID a =s org) && (as_DepartmentID a =s department) &&
                                     current_at at_ a) (dir_assignments t)).

Definition assignments_of (org user : string) (a : UserAssignment) : bool :=
  (as_OrganizationID a =s org) && (as_UserID a =s user).

Definition repo_ListUserAssignments (org user : string) : M (list UserAssignment) :=
  query (fun t => order_by (fun x y =>
      if Bool.eqb (as_Primary x) (as_Primary y) then
        (as_ValidFrom x <? as_ValidFrom y) ||
        ((as_ValidFrom x =? as_ValidFrom y) && str_le (as_DepartmentID x) (as_DepartmentID y))
      else as_Primary x)
    (select (assignments_of org user) (dir_assignments t))).

(** [SELECT DISTINCT ... ORDER BY department_id]. *)
Definition distinct_sorted (l : list string) : list string := order_by str_le (remove_dups l).

Definition current_departments (org user : string) (at_ : Time) (t : Tables) : list string :=
  distinct_sorted (map as_DepartmentID
    (select (fun a => assignments_of org user a && current_at at_ a) (dir_assignments t))).

Definition CurrentUserDepartmentIDs (org user : string) (at_ : Time) : M (list string) :=
  query (current_departments org user at_).

Definition user_organization (user : string) : M string :=
  queryR (fun t => match select_row (fun u => fst u =s user) (dir_users t) with
                   | Ok u => Ok (snd u)
                   | Err e => Err e
                   end).

Definition insert_assignment (org user : string) (at_ : Time) (a : UserAssignment) : M unit :=
  id ← NewString;
  stmt (fun t => if existsb (fun x => as_ID x =s id) (dir_assignments t) then Err ErrDuplicate
                 else Ok (tt, t <| dir_assignments := dir_assignments t ++
                   [mkAssignment id org user (as_DepartmentID a) (as_PositionID a) (as_Primary a)
                      (as_ValidFrom a) (as_ValidUntil a) (UTC at_)] |>)).

Definition repo_ReplaceUserAssignments (org user : string) (assignments : list UserAssignment) : M unit :=
  WithTx (
    actualOrg ← user_organization user;
    _ ← guard_not (actualOrg <>s org) ErrNoRows;
    _ ← exec (fun t => t <| dir_assignments := delete_where (assignments_of org user) (dir_assignments t) |>);
    at_ ← now;
    forM assignments (insert_assignment org user at_)).

(** ** The service: departments *)

Definition directory_char (c : Z) : bool :=
  in_range 97 122 c || in_range 65 90 c || in_range 48 57 c || (c =? 46) || (c =? 95) || (c =? 45).

Definition validDirectoryKey (value : string) : bool :=
  forallb (fun r => directory_char (rune_val r)) (runes value).

Definition normalizeDepartment (req : Department) (creating : bool) : result Department :=
  let status := ToUpper (TrimSpace (dep_Status req)) in
  let status := if creating && (status =s "") then "ACTIVE" else status in
  let req := mkDepartment (TrimSpace (dep_ID req)) (TrimSpace (dep_OrganizationID req))
    (TrimSpace (dep_ParentID req)) (TrimSpace (dep_Key req)) (TrimSpace (dep_Name req)) status
    (dep_SortOrder req) (dep_CreatedAt req) (dep_UpdatedAt req) in
  if (dep_OrganizationID req =s "") || (dep_Name req =s "") || (200 <? slen (dep_Name req)) ||
     (dep_SortOrder req <? 0) || (1000000 <? dep_SortOrder req) then Err ErrInvalidDepartment
  else if (dep_Status req <>s "ACTIVE") && (dep_Status req <>s "DISABLED") then Err ErrInvalidDepartment
  else if creating && ((dep_Key req =s "") || (100 <? slen (dep_Key req)) ||
                       negb (validDirectoryKey (dep_Key req))) then Err ErrInvalidDepartment
  else Ok req.

Definition by_id (items : list Department) : gmap string Department :=
  fold_left (fun m d => <[dep_ID d := d]> m) items ∅.

(** The loop up the parents; [None] when the fuel runs out. *)
Fixpoint climb (fuel : nat) (byID : gmap string Department) (seen : list string) (parentID : string)
  : option (result unit) :=
  match fuel with
  | O => None
  | S fuel =>
    if parentID =s "" then Some (Ok tt)
    else if contains seen parentID then Some (Err ErrInvalidDepartment)
    else match byID !! parentID with
         | None => Some (Err ErrInvalidDepartment)
         | Some parent => climb fuel byID (parentID :: seen) (dep_ParentID parent)
         end
  end.

Definition check_parent (byID : gmap string Department) (candidate : Department) : result unit :=
  if dep_ParentID candidate =s "" then Ok tt
  else match byID !! dep_ParentID candidate with
       | None => Err ErrInvalidDepartment
       | Some parent =>
         if (dep_OrganizationID parent <>s dep_OrganizationID candidate) || (dep_ID parent =s dep_ID candidate)
         then Err ErrInvalidDepartment
         else if (dep_Status candidate =s "ACTIVE") && (dep_Status parent <>s "ACTIVE")
         then Err ErrInvalidDepartment
         else Ok tt
       end.

Definition active_child (byID : gmap string Department) (id : string) : bool :=
  existsb (fun item => (dep_ParentID item =s id) && (dep_Status item =s "ACTIVE"))
    (map snd (map_to_list byID)).

Definition validateDepartmentHierarchy (items : list Department) (candidate : Department) (creating : bool)
  : result unit :=
  let byID := by_id items in
  match (if creating then Ok byID
         else match byID !! dep_ID candidate with
              | None => Err ErrNoRows
              | Some _ => Ok (<[dep_ID candidate := candidate]> byID)
              end) with
  | Err e => Err e
  | Ok byID =>
    _ ← check_parent byID candidate;
    _ ← (match climb (S (S (size byID))) byID [dep_ID candidate] (dep_ParentID candidate) with
         | Some r => r
         | None => Err (Errorf "out of fuel" [])
         end);
    if (dep_Status candidate =s "DISABLED") && active_child byID (dep_ID candidate)
    then Err ErrInvalidDepartment else Ok tt
  end.

Definition CreateDepartment (actor : Principal) (org : string) (req : Department) : M Department :=
  _ ← authorizeGrantActor actor org;
  clean ← lift (normalizeDepartment (req <| dep_OrganizationID := org |>) true);
  items ← ListDepartmentsForUpdate org;
  _ ← lift (validateDepartmentHierarchy items clean true);
  repo_CreateDepartment clean.

(** The check of [UpdateDepartment] before a department is disabled. *)
Definition check_unused (org : string) (clean : Department) : M unit :=
  if dep_Status clean =s "DISABLED" then
    active ← CountActivePositions org (dep_ID clean);
    _ ← guard_not (0 <? active) ErrInvalidDepartment;
    at_ ← now;
    assigned ← CountCurrentAssignments org (dep_ID clean) (UTC at_);
    guard_not (0 <? assigned) ErrInvalidDepartment
  else mret tt.

Definition UpdateDepartment (actor : Principal) (org departmentID : string) (req : Department) : M Department :=
  _ ← authorizeGrantActor actor org;
  let departmentID := TrimSpace departmentID in
  _ ← guard_not (departmentID =s "") ErrInvalidDepartment;
  items ← ListDepartmentsForUpdate org;
  current ← lift (select_row (fun d => dep_ID d =s departmentID) items);
  let req := req <| dep_ID := dep_ID current |> <| dep_OrganizationID := org |>
                 <| dep_Key := dep_Key current |> <| dep_CreatedAt := dep_CreatedAt current |> in
  clean ← lift (normalizeDepartment req false);
  _ ← lift (validateDepartmentHierarchy items clean false);
  _ ← check_unused org clean;
  repo_UpdateDepartment clean.

(** ** The service: positions *)

Definition normalizePosition (req : Position) (creating : bool) : result Position :=
  let status := ToUpper (TrimSpace (pos_Status req)) in
  let status := if creating && (status =s "") then "ACTIVE" else status in
  let req := mkPosition (TrimSpace (pos_ID req)) (TrimSpace (pos_OrganizationID req))
    (TrimSpace (pos_DepartmentID req)) (TrimSpace (pos_Key req)) (TrimSpace (pos_Name req))
    (TrimSpace (pos_Description req)) status (pos_SortOrder req) (pos_CreatedAt req) (pos_UpdatedAt req) in
  if (pos_OrganizationID req =s "") || (pos_DepartmentID req =s "") || (pos_Name req =s "") ||
     (200 <? slen (pos_Name req)) || (500 <? slen (pos_Description req)) ||
     (pos_SortOrder req <? 0) || (1000000 <? pos_SortOrder req) then Err ErrInvalidPosition
  else if (pos_Status req <>s "ACTIVE") && (pos_Status req <>s "DISABLED") then Err ErrInvalidPosition
  else if creating && ((pos_Key req =s "") || (100 <? slen (pos_Key req)) ||
                       negb (validDirectoryKey (pos_Key req))) then Err ErrInvalidPosition
  else Ok req.

Fixpoint validatePositionDepartment (departments : list Department) (position : Position) : result unit :=
  match departments with
  | [] => Err ErrInvalidPosition
  | department :: rest =>
    if dep_ID department <>s pos_DepartmentID position then validatePositionDepartment rest position
    else if (dep_OrganizationID department <>s pos_OrganizationID position) ||
            ((pos_Status position =s "ACTIVE") && (dep_Status department <>s "ACTIVE"))
    then Err ErrInvalidPosition
    else Ok tt
  end.

Definition CreatePosition (actor : Principal) (org : string) (req : Position) : M Position :=
  _ ← authorizeGrantActor actor org;
  clean ← lift (normalizePosition (req <| pos_OrganizationID := org |>) true);
  departments ← ListDepartmentsForUpdate org;
  _ ← lift (validatePositionDepartment departments clean);
  repo_CreatePosition clean.

Definition UpdatePosition (actor : Principal) (org positionID : string) (req : Position) : M Position :=
  _ ← authorizeGrantActor actor org;
  let positionID := TrimSpace positionID in
  _ ← guard_not (positionID =s "") ErrInvalidPosition;
  current ← PositionByID org positionID;
  let req := req <| pos_ID := pos_ID current |> <| pos_OrganizationID := org |>
                 <| pos_Key := pos_Key current |> <| pos_CreatedAt := pos_CreatedAt current |> in
  clean ← lift (normalizePosition req false);
  departments ← ListDepartmentsForUpdate org;
  _ ← lift (validatePositionDepartment departments clean);
  repo_UpdatePosition clean.

(** ** The service: assignments *)

Fixpoint normalize_assignments (org user : string) (now : Time) (seen : list (string * string))
    (assignments : list UserAssignment) : result (list UserAssignment) :=
  match assignments with
  | [] => Ok []
  | a :: rest =>
    let department := TrimSpace (as_DepartmentID a) in
    let position := TrimSpace (as_PositionID a) in
    if department =s "" then Err ErrInvalidUserAssignment
    else
      let from := if IsZero (as_ValidFrom a) then now else UTC (as_ValidFrom a) in
      if match as_ValidUntil a with Some until => negb (After (UTC until) from) | None => false end
      then Err ErrInvalidUserAssignment
      else if bool_decide ((department, position) ∈ seen) then Err ErrInvalidUserAssignment
      else
        clean ← normalize_assignments org user now ((department, position) :: seen) rest;
        Ok (mkAssignment "" org user department position (as_Primary a) from (as_ValidUntil a)
              (as_CreatedAt a) :: clean)
  end.

(** The key of the code joins the two identifiers with a zero byte, which the
    identifiers of the tables do not contain; here it is the pair. *)
Definition normalizeUserAssignments (org user : string) (assignments : list UserAssignment) (now : Time)
  : result (list UserAssignment) :=
  if 50 <? llen assignments then Err ErrInvalidUserAssignment
  else
    clean ← normalize_assignments org user now [] assignments;
    if (0 <? llen clean) && negb (count_if as_Primary clean =? 1) then Err ErrInvalidUserAssignment
    else Ok clean.

Definition position_map (positions : list Position) : gmap string Position :=
  fold_left (fun m p => <[pos_ID p := p]> m) positions ∅.

Fixpoint assignment_targets (departments : gmap string Department) (positions : gmap string Position)
    (assignments : list UserAssignment) : result unit :=
  match assignments with
  | [] => Ok tt
  | a :: rest =>
    match departments !! as_DepartmentID a with
    | None => Err ErrInvalidUserAssignment
    | Some d =>
      if (dep_OrganizationID d <>s as_OrganizationID a) || (dep_Status d <>s "ACTIVE")
      then Err ErrInvalidUserAssignment
      else if as_PositionID a =s "" then assignment_targets departments positions rest
      else match positions !! as_PositionID a with
           | None => Err ErrInvalidUserAssignment
           | Some p =>
             if (pos_OrganizationID p <>s as_OrganizationID a) ||
                (pos_DepartmentID p <>s as_DepartmentID a) || (pos_Status p <>s "ACTIVE")
             then Err ErrInvalidUserAssignment
             else assignment_targets departments positions rest
           end
    end
  end.

Definition validateAssignmentTargets (departments : list Department) (positions : list Position)
    (assignments : list UserAssignment) : result unit :=
  assignment_targets (by_id departments) (position_map positions) assignments.

Definition userWithinDataScope (actor : Principal) (user : string) : M bool :=
  if (p_OrganizationID actor =s "") || (p_UserID actor =s "") then mret false
  else if ds_OrganizationWide (p_DataScope actor) || HasRole actor ["system_admin"] then mret true
  else if ds_Self (p_DataScope actor) && (p_UserID actor =s user) then mret true
  else
    at_ ← now;
    departments ← CurrentUserDepartmentIDs (p_OrganizationID actor) user (UTC at_);
    mret (existsb (fun d => Allows (p_DataScope actor) user d (p_UserID actor)) departments).

Definition ListUserAssignments (actor : Principal) (user : string) : M (list UserAssignment) :=
  let user := TrimSpace user in
  organization ← user_organization user;
  _ ← guard_not (organization <>s p_OrganizationID actor) ErrNoRows;
  visible ← userWithinDataScope actor user;
  _ ← guard_not (negb visible) ErrGrantCeiling;
  repo_ListUserAssignments (p_OrganizationID actor) user.

Definition ReplaceUserAssignments (actor : Principal) (org user : string) (assignments : list UserAssignment)
  : M unit :=
  _ ← authorizeGrantActor actor org;
  let user := TrimSpace user in
  organization ← user_organization user;
  _ ← guard_not (organization <>s org) ErrNoRows;
  visible ← userWithinDataScope actor user;
  _ ← guard_not (negb visible) ErrGrantCeiling;
  at_ ← now;
  clean ← lift (normalizeUserAssignments org user assignments (UTC at_));
  departments ← ListDepartmentsForUpdate org;
  positions ← ListPositions org;
  _ ← lift (validateAssignmentTargets departments positions clean);
  repo_ReplaceUserAssignments org user clean.

(** ** The effective data scope *)

(** The departments a role's custom scope lists, joined with the active
    departments of the organization. *)
Definition active_department (org : string) (t : Tables) (id : string) : bool :=
  existsb (fun d => (dep_ID d =s id) && (dep_OrganizationID d =s org) && (dep_Status d =s "ACTIVE"))
    (dir_departments t).

Definition role_departments (org role : string) (t : Tables) : list string :=
  order_by str_le (select (active_department org t) (flat_map ro_departments
    (select (fun r => (ro_organization_id r =s org) && (ro_id r =s role)) (dir_roles t)))).

Definition RoleDataScopeDepartments (org role : string) : M (list string) :=
  query (role_departments org role).

(** The roles of a user, each once, with the type of their scope. *)
Definition effective_roles (org user : string) (from until : Time) (t : Tables) : list RoleRow :=
  select (fun r => (ro_organization_id r =s org) && contains (dir_effective t from until user) (ro_id r))
    (dir_roles t).

(** What the loop over the roles collects. *)
Record scope_walk := mkWalk {
  sw_wide : bool; sw_self : bool; sw_department : bool; sw_tree : bool; sw_set : list string
}.
#[export] Instance scope_walk_eta : Eta scope_walk := fun w =>
  mkWalk (sw_wide w) (sw_self w) (sw_department w) (sw_tree w) (sw_set w).

(** A set of the code is a list without duplicates: [add] puts a new element. *)
Definition add (set : list string) (x : string) : list string :=
  if contains set x then set else set ++ [x].

Fixpoint walk_roles (org : string) (roles : list RoleRow) (w : scope_walk) : M scope_walk :=
  match roles with
  | [] => mret w
  | r :: rest =>
    let scope := ro_data_scope_type r in
    if scope =s DataScopeOrganization then mret (mkWalk true false false false [])
    else if scope =s DataScopeSelf then walk_roles org rest (w <| sw_self := true |>)
    else if scope =s DataScopeDepartment then walk_roles org rest (w <| sw_department := true |>)
    else if scope =s DataScopeDepartmentTree then
      walk_roles org rest (w <| sw_department := true |> <| sw_tree := true |>)
    else if scope =s DataScopeCustom then
      ids ← RoleDataScopeDepartments org (ro_id r);
      walk_roles org rest (w <| sw_set := fold_left add ids (sw_set w) |>)
    else fail (Errorf "invalid role data scope" [])
  end.

(** The active children of a department. *)
Definition children (departments : list Department) (id : string) : list string :=
  map dep_ID (List.filter (fun d => (dep_Status d =s "ACTIVE") && (dep_ParentID d <>s "") &&
                                    (dep_ParentID d =s id)) departments).

(** The loop over a popped department's children: those not in the set join the
    set and the stack. *)
Fixpoint push_children (set pending : list string) (cs : list string) : list string * list string :=
  match cs with
  | [] => (set, pending)
  | c :: rest =>
    if contains set c then push_children set pending rest
    else push_children (set ++ [c]) (c :: pending) rest
  end.

(** The depth-first walk down the tree, the stack as a list whose head is the
    top; [None] when the fuel runs out. *)
Fixpoint descend (fuel : nat) (departments : list Department) (set pending : list string)
  : option (list string) :=
  match fuel with
  | O => None
  | S fuel =>
    match pending with
    | [] => Some set
    | current :: pending =>
      let '(set, pending) := push_children set pending (children departments current) in
      descend fuel departments set pending
    end
  end.

Definition tree_fuel (departments : list Department) (own : list string) : nat :=
  S (length own + length departments).

Definition scope_departments (org user : string) (w : scope_walk) : M (list string) :=
  if sw_department w then
    at_ ← now;
    own ← CurrentUserDepartmentIDs org user (UTC at_);
    let set := fold_left add own (sw_set w) in
    if sw_tree w && (0 <? llen own) then
      departments ← ListDepartments org;
      match descend (tree_fuel departments own) departments set (rev own) with
      | Some set => mret set
      | None => fail (Errorf "out of fuel" [])
      end
    else mret set
  else mret (sw_set w).

Definition DataScopeForUser (org user : string) : M EffectiveDataScope :=
  from ← now;
  until ← now;
  roles ← query (effective_roles org user (UTC from) (UTC until));
  w ← walk_roles org roles (mkWalk false false false false []);
  if sw_wide w then mret (mkDataScope true false [])
  else
    let self := sw_self w || (llen roles =? 0) in
    set ← scope_departments org user w;
    mret (mkDataScope false self (order_by str_le set)).

(** ** The hierarchy walk *)

#[local] Arguments TrimSpace : simpl never.

Section climbing.
Context (byID : gmap string Department).

Definition unseen (seen : list string) : gset string := dom byID ∖ set_of seen.

Lemma unseen_cons seen p d :
  byID !! p = Some d -> contains seen p = false -> (size (unseen (p :: seen)) < size (unseen seen))%nat.
Proof.
  intros L C. apply contains_false in C. apply subset_size. split.
  - unfold unseen, set_of. cbn. set_solver.
  - intros H. apply elem_of_dom_2 in L. specialize (H p). unfold unseen, set_of in H. cbn in H.
    rewrite !elem_of_difference, elem_of_union, elem_of_singleton, elem_of_list_to_set in H. tauto.
Qed.

Lemma climb_ends fuel seen p : (size (unseen seen) < fuel)%nat -> climb fuel byID seen p <> None.
Proof.
  revert seen p. induction fuel as [|fuel IH]; intros seen p H; [lia|]. cbn.
  destruct (p =s ""); [done|]. destruct (contains seen p) eqn:C; [done|].
  destruct (byID !! p) eqn:L; [|done]. apply IH. pose proof (unseen_cons _ _ _ L C). lia.
Qed.
End climbing.

(** A walk that succeeds reaches a root without meeting what it has seen. *)
Lemma climb_path byID fuel seen p (Q : string -> Prop) :
  climb fuel byID seen p = Some (Ok tt) -> Q "" ->
  (forall p d, p ∉ seen -> byID !! p = Some d -> Q (dep_ParentID d) -> Q p) -> Q p.
Proof.
  revert seen p. induction fuel as [|fuel IH]; intros seen p H Q0 QS; [done|]. cbn in H.
  destruct (String.eqb_spec p "") as [E|_]; [by rewrite E|].
  destruct (contains seen p) eqn:C; [done|]. destruct (byID !! p) as [d|] eqn:L; [|done].
  apply (QS p d); [by apply contains_false|done|]. apply (IH (p :: seen)); [done|done|].
  intros p' d' Hp. apply QS. intros X. apply Hp. by right.
Qed.

(** ** The index of the departments *)

Lemma by_id_snoc items d : by_id (items ++ [d]) = <[dep_ID d := d]> (by_id items).
Proof. unfold by_id. by rewrite fold_left_app. Qed.

Lemma by_id_Some items id d : by_id items !! id = Some d -> d ∈ items /\ dep_ID d = id.
Proof.
  induction items as [|x items IH] using rev_ind; [done|]. rewrite by_id_snoc.
  intros [[<- <-]|[_ L]]%lookup_insert_Some; [set_solver|].
  apply IH in L as [? ?]. set_solver.
Qed.

Lemma by_id_elem items d : NoDup (map dep_ID items) -> d ∈ items -> by_id items !! dep_ID d = Some d.
Proof.
  induction items as [|x items IH] using rev_ind; intros N H; [inversion H|]. rewrite by_id_snoc.
  apply lookup_insert_Some.
  destruct (decide (dep_ID x = dep_ID d)) as [E|n].
  - left. split; [done|]. apply (NoDup_map_eq dep_ID _ _ _ N); [set_solver|done|done].
  - right. split; [done|]. rewrite map_app in N. apply NoDup_app in N as [N _]. apply IH; [done|].
    apply elem_of_app in H as [H|H]; [done|]. apply list_elem_of_singleton in H as ->. done.
Qed.

(** ** What holds of the directory

    [rooted ds id]: the parents of a department lead up to a root; that every
    department is rooted says that the hierarchy has no cycle. *)
Inductive rooted (ds : list Department) : string -> Prop :=
| rooted_root d : d ∈ ds -> dep_ParentID d = "" -> rooted ds (dep_ID d)
| rooted_child d : d ∈ ds -> rooted ds (dep_ParentID d) -> rooted ds (dep_ID d).

Definition status_ok (s : string) : Prop := s = "ACTIVE" \/ s = "DISABLED".

Record parented (ds : list Department) (d : Department) : Prop := {
  par_status : status_ok (dep_Status d);
  par_row : dep_ParentID d <> "" -> exists p, p ∈ ds /\ dep_ID p = dep_ParentID d /\
              dep_OrganizationID p = dep_OrganizationID d /\
              (dep_Status d = "ACTIVE" -> dep_Status p = "ACTIVE")
}.

Definition housed (ds : list Department) (p : Position) : Prop :=
  status_ok (pos_Status p) /\
  exists d, d ∈ ds /\ dep_ID d = pos_DepartmentID p /\ dep_OrganizationID d = pos_OrganizationID p /\
            (pos_Status p = "ACTIVE" -> dep_Status d = "ACTIVE").

Record directory_ok (t : Tables) : Prop := {
  dir_unique : NoDup (map dep_ID (dir_departments t));
  dir_parented : forall d, d ∈ dir_departments t -> parented (dir_departments t) d;
  dir_rooted : forall d, d ∈ dir_departments t -> rooted (dir_departments t) (dep_ID d);
  dir_housed : forall p, p ∈ dir_positions t -> housed (dir_departments t) p
}.

(** ** Validation *)

Lemma departments_of_spec org t d :
  d ∈ departments_of org t <-> d ∈ dir_departments t /\ dep_OrganizationID d = org.
Proof.
  unfold departments_of. rewrite elem_of_order_by, elem_of_select, seqb_true. done.
Qed.

Lemma NoDup_select_map {A B} (g : A -> B) (p : A -> bool) l : NoDup (map g l) -> NoDup (map g (select p l)).
Proof.
  induction l as [|x l IH]; cbn; [done|]. intros N. apply NoDup_cons in N as [N0 N].
  destruct (p x); cbn; [|auto]. constructor; [|auto]. intros X. apply N0.
  apply list_elem_of_In, in_map_iff in X as (y & E & Hy). apply List.filter_In in Hy as [Hy _].
  apply list_elem_of_In, in_map_iff. eauto.
Qed.

Lemma departments_of_unique org t :
  NoDup (map dep_ID (dir_departments t)) -> NoDup (map dep_ID (departments_of org t)).
Proof.
  intros N. unfold departments_of. erewrite (Permutation_map dep_ID (order_by_Permutation _ _)).
  by apply NoDup_select_map.
Qed.

Lemma normalizeDepartment_ok req creating d :
  normalizeDepartment req creating = Ok d ->
  status_ok (dep_Status d) /\ dep_ID d = TrimSpace (dep_ID req) /\ dep_Key d = TrimSpace (dep_Key req) /\
  dep_OrganizationID d = TrimSpace (dep_OrganizationID req) /\
  (creating = true -> dep_Key d <> "" /\ slen (dep_Key d) <= 100 /\ validDirectoryKey (dep_Key d) = true).
Proof.
  unfold normalizeDepartment. cbv zeta. intros H.
  destruct (_ || _ || _ || _ || _); [discriminate|].
  destruct ((_ <>s _) && _) eqn:St; [discriminate|].
  destruct (creating && (_ || _ || negb _)) eqn:K; [discriminate|]. injection H as <-.
  split_and!; try done.
  - apply andb_false_iff in St as [St|St]; apply negb_false_iff, String.eqb_eq in St; [left|right]; done.
  - clear St. intros ->. orsplit; try discriminate. by split_and!.
Qed.

Lemma normalizeDepartment_status req d :
  normalizeDepartment req true = Ok d ->
  dep_Status d = (let s := ToUpper (TrimSpace (dep_Status req)) in if s =s "" then "ACTIVE" else s) /\
  dep_ID d = TrimSpace (dep_ID req).
Proof.
  unfold normalizeDepartment. cbv zeta. intros H. destruct (_ || _ || _ || _ || _); [discriminate|].
  destruct ((_ <>s _) && _); [discriminate|]. destruct (true && (_ || _ || negb _)); [discriminate|].
  by injection H as <-.
Qed.

(** What [validateDepartmentHierarchy] accepts, the index being the one of the
    rows after the change. *)
Lemma hierarchy_inv items c creating :
  validateDepartmentHierarchy items c creating = Ok tt ->
  exists byID, (byID = by_id items \/ (creating = false /\ byID = <[dep_ID c := c]> (by_id items))) /\
    (creating = true -> byID = by_id items) /\
    check_parent byID c = Ok tt /\
    climb (S (S (size byID))) byID [dep_ID c] (dep_ParentID c) = Some (Ok tt) /\
    (dep_Status c = "DISABLED" -> active_child byID (dep_ID c) = false).
Proof.
  unfold validateDepartmentHierarchy. intros H.
  set (sel := if creating then _ else _) in H. destruct sel as [byID|] eqn:E; [|discriminate].
  exists byID. apply result_bind_ok in H as ([] & P & H). apply result_bind_ok in H as ([] & C & H).
  destruct (climb _ _ _ _) as [r|]; [|discriminate]. subst r.
  subst sel. split_and!; [| |done..|].
  - destruct creating; [left; congruence|]. destruct (by_id items !! _); [|discriminate].
    right. split; congruence.
  - intros ->. congruence.
  - intros Hd. rewrite Hd in H. cbn in H. by destruct (active_child _ _).
Qed.

(** The facts about the parent of a validated candidate. *)
Lemma check_parent_ok byID items c :
  (byID = by_id items \/ byID = <[dep_ID c := c]> (by_id items)) -> check_parent byID c = Ok tt ->
  dep_ParentID c = "" \/
  exists p, p ∈ items /\ dep_ID p = dep_ParentID c /\ dep_OrganizationID p = dep_OrganizationID c /\
            dep_ID p <> dep_ID c /\ (dep_Status c = "ACTIVE" -> dep_Status p = "ACTIVE").
Proof.
  intros B H. unfold check_parent in H. destruct (String.eqb_spec (dep_ParentID c) ""); [by left|right].
  destruct (byID !! _) as [p|] eqn:L; [|discriminate].
  destruct (_ || _) eqn:G; [discriminate|]. destruct (_ && _) eqn:A; [discriminate|].
  exists p. breflect.
  assert (X : p ∈ items /\ dep_ID p = dep_ParentID c).
  { destruct B as [-> | ->]; [by apply by_id_Some|].
    apply lookup_insert_Some in L as [[E X]|[_ L]]; [subst p|by apply by_id_Some]. exfalso; auto. }
  destruct X. split_and!; try done. intros E. rewrite E in A. cbn in A. by breflect.
Qed.

(** The parents of a validated candidate lead to a root in the rows [ds'] that
    keep the other items. *)
Lemma climb_rooted byID items c ds' fuel :
  (byID = by_id items \/ byID = <[dep_ID c := c]> (by_id items)) ->
  (forall p, p ∈ items -> dep_ID p <> dep_ID c -> p ∈ ds') ->
  climb fuel byID [dep_ID c] (dep_ParentID c) = Some (Ok tt) ->
  dep_ParentID c = "" \/ rooted ds' (dep_ParentID c).
Proof.
  intros B K H.
  apply (climb_path _ _ _ _ (fun p => p = "" \/ rooted ds' p) H); [by left|].
  intros p d Hp L Q. right. assert (p <> dep_ID c) by (intros ->; apply Hp; by left).
  assert (X : d ∈ items /\ dep_ID d = p).
  { destruct B as [-> | ->]; [by apply by_id_Some|]. rewrite lookup_insert_ne in L by done.
    by apply by_id_Some. }
  destruct X as [Hd <-]. destruct Q as [Q|Q].
  - apply rooted_root; auto.
  - apply rooted_child; auto.
Qed.

Lemma active_child_false byID id d :
  active_child byID id = false -> byID !! dep_ID d = Some d -> dep_ParentID d = id ->
  dep_Status d = "ACTIVE" -> False.
Proof.
  intros H L E A. unfold active_child in H. rewrite existsb_false in H. specialize (H d).
  rewrite E, A, !seqb_refl in H. discriminate H. apply list_elem_of_In, in_map_iff.
  exists (dep_ID d, d). split; [done|]. apply list_elem_of_In. by apply elem_of_map_to_list.
Qed.

Lemma rooted_weaken ds ds' id :
  (forall d, d ∈ ds -> d ∈ ds') -> rooted ds id -> rooted ds' id.
Proof. intros H. induction 1; [apply rooted_root|apply rooted_child]; auto. Qed.

Lemma parented_weaken ds ds' d : (forall d, d ∈ ds -> d ∈ ds') -> parented ds d -> parented ds' d.
Proof.
  intros H [S R]. split; [done|]. intros E. destruct (R E) as (p & Hp & X). exists p. auto.
Qed.

(** A validated department joins the directory. *)
Lemma create_ok t org c d :
  directory_ok t -> validateDepartmentHierarchy (departments_of org t) c true = Ok tt ->
  status_ok (dep_Status c) -> dep_ID d ∉ map dep_ID (dir_departments t) ->
  dep_ParentID d = dep_ParentID c -> dep_OrganizationID d = dep_OrganizationID c ->
  dep_Status d = dep_Status c ->
  directory_ok (t <| dir_departments := dir_departments t ++ [d] |>).
Proof.
  intros [U P R Ho] V S N Ep Eo Es.
  apply hierarchy_inv in V as (byID & B & B' & Cp & Cl & _). specialize (B' eq_refl). clear B. subst byID.
  assert (W : forall x, x ∈ dir_departments t -> x ∈ (dir_departments t ++ [d])%list) by set_solver.
  assert (I : forall x, x ∈ departments_of org t -> x ∈ dir_departments t) by (intros x; rewrite departments_of_spec; tauto).
  split; cbn.
  - apply NoDup_map_snoc; [done|]. intros y Hy E. apply N. rewrite <- E. apply list_elem_of_In, in_map.
    by apply list_elem_of_In.
  - intros x [Hx|Hx%list_elem_of_singleton]%elem_of_app; [by eapply parented_weaken; eauto|subst x].
    split; [congruence|]. rewrite Ep, Eo, Es. intros E.
    apply (check_parent_ok _ (departments_of org t)) in Cp as [?|(p & Hp & X & Y & _ & Z)]; [done| |auto].
    exists p. auto.
  - intros x [Hx|Hx%list_elem_of_singleton]%elem_of_app; [by eapply rooted_weaken; eauto|subst x].
    apply (climb_rooted _ (departments_of org t) _ (dir_departments t ++ [d])) in Cl; [|by left|auto].
    rewrite <- Ep in Cl. destruct Cl; [apply rooted_root|apply rooted_child]; set_solver.
  - intros p Hp. destruct (Ho p Hp) as (? & x & Hx & X). split; [done|]. exists x. auto.
Qed.

Lemma unique_row t x y :
  directory_ok t -> x ∈ dir_departments t -> y ∈ dir_departments t -> dep_ID x = dep_ID y -> x = y.
Proof. intros D. apply NoDup_map_eq. apply D. Qed.

Section update.
Context (t : Tables) (org : string) (c row : Department) (at_ : Time).
Context (D : directory_ok t).
Let ds := dir_departments t.
Let items := departments_of org t.
Let ds' := update_where (department_key (dep_OrganizationID c) (dep_ID c)) (set_department c at_) ds.
Context (Hrow : row ∈ ds) (Rorg : dep_OrganizationID row = org) (Rid : dep_ID row = dep_ID c).
Context (Hc : dep_OrganizationID c = org).
Context (V : validateDepartmentHierarchy items c false = Ok tt) (St : status_ok (dep_Status c)).

#[local] Lemma key_row x : x ∈ ds -> department_key (dep_OrganizationID c) (dep_ID c) x = bool_decide (dep_ID x = dep_ID c).
Proof using D Hrow Rorg Rid Hc.
  intros Hx. unfold department_key. case_bool_decide as E.
  - rewrite <- Rid in E. rewrite (unique_row t x row D Hx Hrow E), Rorg, Rid, Hc, !seqb_refl. done.
  - apply andb_false_iff. right. by apply seqb_neq.
Qed.

#[local] Lemma kept x : x ∈ ds -> dep_ID x <> dep_ID c -> x ∈ ds'.
Proof using D Hrow Rorg Rid Hc.
  intros Hx N. apply elem_of_update_where. exists x. rewrite key_row by done.
  rewrite bool_decide_eq_false_2 by done. done.
Qed.

#[local] Lemma changed x : x ∈ ds -> dep_ID x = dep_ID c -> set_department c at_ x ∈ ds'.
Proof using D Hrow Rorg Rid Hc.
  intros Hx E. apply elem_of_update_where. exists x. rewrite key_row by done.
  rewrite bool_decide_eq_true_2 by done. done.
Qed.

#[local] Lemma items_rows x : x ∈ items -> x ∈ ds.
Proof using. unfold items. rewrite departments_of_spec. tauto. Qed.

#[local] Lemma update_parent :
  dep_ParentID c = "" \/
  exists p, p ∈ items /\ dep_ID p = dep_ParentID c /\ dep_OrganizationID p = dep_OrganizationID c /\
            dep_ID p <> dep_ID c /\ (dep_Status c = "ACTIVE" -> dep_Status p = "ACTIVE").
Proof using V.
  apply hierarchy_inv in V as (byID & B & _ & Cp & _). eapply check_parent_ok; [|exact Cp].
  destruct B as [B|[_ B]]; auto.
Qed.

#[local] Lemma update_rooted : dep_ParentID c = "" \/ rooted ds' (dep_ParentID c).
Proof using D Hrow Rorg Rid Hc V.
  apply hierarchy_inv in V as (byID & B & _ & _ & Cl & _). eapply climb_rooted; [| |exact Cl].
  - destruct B as [B|[_ B]]; [left|right]; exact B.
  - intros p Hp N. apply kept; [by apply items_rows|done].
Qed.

#[local] Lemma update_child x :
  x ∈ ds -> dep_ID x <> dep_ID c -> dep_ParentID x = dep_ID c -> dep_OrganizationID x = org ->
  dep_Status c = "DISABLED" -> dep_Status x = "ACTIVE" -> False.
Proof using D V.
  intros Hx N E O S A. apply hierarchy_inv in V as (byID & B & _ & _ & _ & Ac). specialize (Ac S).
  apply (active_child_false byID (dep_ID c) x); try done.
  assert (L : by_id items !! dep_ID x = Some x).
  { apply by_id_elem; [by apply departments_of_unique, D|]. by apply departments_of_spec. }
  destruct B as [->|[_ ->]]; [done|]. by rewrite lookup_insert_ne.
Qed.

#[local] Lemma update_rooted_all x : rooted ds x -> rooted ds' x.
Proof using D Hrow Rorg Rid Hc V.
  assert (C : rooted ds' (dep_ID c)).
  { rewrite <- Rid. change (dep_ID row) with (dep_ID (set_department c at_ row)).
    destruct update_rooted; [apply rooted_root|apply rooted_child]; try done; by apply changed. }
  induction 1 as [d Hd E|d Hd _ IH]; destruct (decide (dep_ID d = dep_ID c)) as [E'|N]; try (rewrite E'; exact C).
  - apply rooted_root; [by apply kept|done].
  - apply rooted_child; [by apply kept|done].
Qed.

#[local] Lemma update_parented x : x ∈ ds' -> parented ds' x.
Proof using D Hrow Rorg Rid Hc V St.
  intros Hx. apply elem_of_update_where in Hx as (d & Hd & ->). rewrite key_row by done.
  case_bool_decide as E.
  - split; [exact St|]. intros Ne. destruct update_parent as [?|(p & Hp & X & Y & N & Z)]; [done|].
    exists p. split_and!; [apply kept; [by apply items_rows|done]|done| |done].
    cbn. rewrite Y, Hc, (unique_row t d row D Hd Hrow); [done|]. by rewrite Rid.
  - destruct (dir_parented _ D d Hd) as [S R]. split; [done|]. intros Ne.
    destruct (R Ne) as (p & Hp & X & Y & Z).
    destruct (decide (dep_ID p = dep_ID c)) as [Ep|N].
    + exists (set_department c at_ p). split_and!; [by apply changed|done|done|]. intros A.
      destruct St as [?|Dis]; [done|]. exfalso. eapply (update_child d); eauto; [congruence|].
      rewrite <- Y, (unique_row t p row D Hp Hrow); [done|]. by rewrite Rid.
    + exists p. split_and!; [by apply kept|done..].
Qed.

(** A validated change of a department keeps the directory in order when a
    department is only disabled without active positions. *)
Lemma update_ok :
  (dep_Status c = "DISABLED" -> forall p, p ∈ dir_positions t -> pos_OrganizationID p = org ->
     pos_DepartmentID p = dep_ID c -> pos_Status p <> "ACTIVE") ->
  directory_ok (t <| dir_departments := ds' |>).
Proof using D Hrow Rorg Rid Hc V St.
  intros Hp. split; cbn.
  - unfold ds'. rewrite map_update_where by done. apply D.
  - apply update_parented.
  - intros x Hx. apply elem_of_update_where in Hx as (d & Hd & ->). apply update_rooted_all.
    pose proof (dir_rooted _ D d Hd) as R. by destruct (department_key _ _ _).
  - intros p Hin. destruct (dir_housed _ D p Hin) as (S & d & Hd & X & Y & Z). split; [done|].
    destruct (decide (dep_ID d = dep_ID c)) as [E|N]; [|exists d; by split_and!; [apply kept|..]].
    exists (set_department c at_ d). split_and!; [by apply changed|done|done|]. intros A. cbn.
    destruct St as [?|Dis]; [done|]. exfalso. apply (Hp Dis p Hin); [|congruence|done].
    rewrite <- Y, (unique_row t d row D Hd Hrow); [done|]. by rewrite Rid.
Qed.
End update.

(** ** The operations keep the directory in order *)

Notation ok_spec P m Q := (spec directory_ok P m Q).

Lemma authorize_spec (I P : Tables -> Prop) actor org : spec I P (authorizeGrantActor actor org) (fun _ s => P s).
Proof.
  unfold authorizeGrantActor. eapply spec_bind; [apply spec_guard|]. intros _u. unfold RequireRecentMFA.
  destruct (p_MFAVerifiedAt actor); [|apply spec_fail].
  eapply spec_conseq with (P' := P) (Q' := fun _ => P); [|tauto|done].
  eapply spec_bind; [apply spec_now|]. intros at_. eapply spec_weaken; [apply spec_lift|]. by intros ? ? [? _].
Qed.

Lemma repo_UpdateDepartment_keeps org c row :
  ok_spec (fun t => row ∈ dir_departments t /\ dep_OrganizationID row = org /\ dep_ID row = dep_ID c /\
      validateDepartmentHierarchy (departments_of org t) c false = Ok tt /\ status_ok (dep_Status c) /\
      (dep_Status c = "DISABLED" -> forall p, p ∈ dir_positions t -> pos_OrganizationID p = org ->
         pos_DepartmentID p = dep_ID c -> pos_Status p <> "ACTIVE"))
    (repo_UpdateDepartment c) (fun _ _ => True).
Proof.
  unfold repo_UpdateDepartment. eapply spec_bind; [apply spec_now|]. intros at_. cbv zeta.
  eapply spec_bind with (Q := fun _ _ => True).
  - apply spec_stmt. intros t n t' D (Hr & Ro & Ri & V & St & Hp) [= _ <-]. split; [|done].
    destruct (decide (dep_OrganizationID c = org)) as [E|N].
    + eapply update_ok; eauto.
    + assert (X : update_where (department_key (dep_OrganizationID c) (dep_ID c))
                    (set_department c (UTC at_)) (dir_departments t) = dir_departments t).
      { unfold update_where. rewrite <- (map_id (dir_departments t)) at 2. apply map_ext_in.
        intros x Hx. apply list_elem_of_In in Hx. unfold department_key.
        destruct (String.eqb_spec (dep_OrganizationID x) (dep_OrganizationID c)) as [Eo|]; [|done].
        destruct (String.eqb_spec (dep_ID x) (dep_ID c)) as [Ei|]; [|done]. destruct N.
        rewrite <- Eo, <- Ro. f_equal. eapply unique_row; eauto; congruence. }
      rewrite X. by destruct t.
  - intros n. apply spec_keeps. unfold DepartmentByID. keeps_walk.
Qed.

Lemma check_unused_spec org c P :
  ok_spec P (check_unused org c) (fun _ t => P t /\
    (dep_Status c = "DISABLED" -> forall p, p ∈ dir_positions t -> pos_OrganizationID p = org ->
       pos_DepartmentID p = dep_ID c -> pos_Status p <> "ACTIVE")).
Proof.
  unfold check_unused. apply spec_if; intros E; apply seqb_true in E || apply String.eqb_neq in E.
  - eapply spec_bind; [apply spec_query|]. intros active.
    eapply spec_bind; [apply spec_guard|]. intros _u. eapply spec_bind; [apply spec_now|]. intros at_.
    eapply spec_bind; [apply spec_query|]. intros assigned.
    eapply spec_weaken; [apply spec_guard|]. cbn. intros _v t [[[[HP Ha] G] _] _]. split; [done|].
    intros _ p Hp Eo Ed A. apply Z.ltb_ge in G.
    pose proof (count_if_pos (fun p => (pos_OrganizationID p =s org) && (pos_DepartmentID p =s dep_ID c) &&
      (pos_Status p =s "ACTIVE")) _ p Hp) as X. cbn in X. rewrite Eo, Ed, A, !seqb_refl in X.
    specialize (X eq_refl). lia.
  - apply spec_ret. intros t _ HP. done.
Qed.

Lemma UpdateDepartment_keeps actor org id req : keeps directory_ok (UpdateDepartment actor org id req).
Proof.
  apply (keeps_spec _ _ (fun _ _ => True)). unfold UpdateDepartment.
  eapply spec_bind; [apply authorize_spec|]. intros _u. cbv zeta.
  eapply spec_bind; [apply spec_guard|]. intros _v.
  eapply spec_bind; [apply spec_query|]. intros items.
  eapply spec_bind; [apply spec_lift|]. intros row.
  eapply spec_bind; [apply spec_lift|]. intros c.
  eapply spec_bind; [apply spec_lift|]. intros [].
  eapply spec_bind; [apply check_unused_spec|]. intros _w.
  eapply spec_conseq; [apply (repo_UpdateDepartment_keeps org c row)| |done].
  intros t _ [((((_ & Hi) & Hr) & Hc) & V) Hp]. subst items.
  apply select_row_ok in Hr as [Hr Ei]. apply departments_of_spec in Hr as [Hr Ho]. apply seqb_true in Ei.
  apply normalizeDepartment_ok in Hc as (St & Hid & _). cbn in Hid.
  split_and!; try done. rewrite Hid, Ei, TrimSpace_idem. done.
Qed.

Lemma CreateDepartment_keeps actor org req : keeps directory_ok (CreateDepartment actor org req).
Proof.
  apply (keeps_spec _ _ (fun _ _ => True)). unfold CreateDepartment.
  eapply spec_bind; [apply authorize_spec|]. intros _u.
  eapply spec_bind; [apply spec_lift|]. intros c.
  eapply spec_bind; [apply spec_query|]. intros items.
  eapply spec_bind; [apply spec_lift|]. intros [].
  unfold repo_CreateDepartment. eapply spec_bind; [apply spec_now|]. intros at_.
  eapply spec_bind; [apply spec_uuid|]. intros id. cbv zeta.
  eapply spec_bind with (Q := fun _ _ => True); [|intros _v; by apply spec_ret].
  apply spec_stmt. intros t [] t' D (((_ & Hc) & Hi) & V). subst items. unfold insert_department.
  destruct (existsb _ _) eqn:X; [discriminate|]. intros [= <-]. split; [|done].
  apply normalizeDepartment_ok in Hc as (St & _). eapply create_ok; eauto.
  intros E. apply list_elem_of_In, in_map_iff in E as (y & E & Hy). apply list_elem_of_In in Hy.
  rewrite existsb_false in X. specialize (X y Hy). cbn in X, E. rewrite E, seqb_refl in X. done.
Qed.

Lemma validatePositionDepartment_ok departments p :
  validatePositionDepartment departments p = Ok tt ->
  exists d, d ∈ departments /\ dep_ID d = pos_DepartmentID p /\
    dep_OrganizationID d = pos_OrganizationID p /\ (pos_Status p = "ACTIVE" -> dep_Status d = "ACTIVE").
Proof.
  induction departments as [|d ds IH]; cbn; [discriminate|].
  destruct (String.eqb_spec (dep_ID d) (pos_DepartmentID p)); cbn.
  - destruct (_ || _) eqn:G; [discriminate|]. intros _. exists d. breflect.
    split_and!; [by left|done|done|]. intros A. rewrite A in *. cbn in *. by breflect.
  - intros H. destruct (IH H) as (x & Hx & X). exists x. split; [by right|done].
Qed.

Lemma normalizePosition_ok req creating p :
  normalizePosition req creating = Ok p ->
  status_ok (pos_Status p) /\ pos_ID p = TrimSpace (pos_ID req) /\
  pos_OrganizationID p = TrimSpace (pos_OrganizationID req).
Proof.
  unfold normalizePosition. cbv zeta. intros H.
  destruct (_ || _ || _ || _ || _ || _ || _); [discriminate|].
  destruct ((_ <>s _) && _) eqn:St; [discriminate|].
  destruct (creating && (_ || _ || negb _)) eqn:K; [discriminate|]. injection H as <-.
  split_and!; try done.
  apply andb_false_iff in St as [St|St]; apply negb_false_iff, String.eqb_eq in St; [left|right]; done.
Qed.

(** Positions change without touching the departments. *)
Lemma positions_ok t ps :
  directory_ok t -> (forall p, p ∈ ps -> p ∈ dir_positions t \/ housed (dir_departments t) p) ->
  directory_ok (t <| dir_positions := ps |>).
Proof. intros [U P R Ho] H. split; cbn; auto. intros p Hp. destruct (H p Hp); auto. Qed.

Lemma checked_position_housed org t (p q : Position) :
  validatePositionDepartment (departments_of org t) p = Ok tt -> status_ok (pos_Status p) ->
  pos_DepartmentID q = pos_DepartmentID p -> pos_OrganizationID q = pos_OrganizationID p ->
  pos_Status q = pos_Status p -> housed (dir_departments t) q.
Proof.
  intros V St Ed Eo Es. apply validatePositionDepartment_ok in V as (d & Hd & X & Y & Z).
  apply departments_of_spec in Hd as [Hd _]. split; [congruence|]. exists d. rewrite Ed, Eo, Es. auto.
Qed.

Lemma CreatePosition_keeps actor org req : keeps directory_ok (CreatePosition actor org req).
Proof.
  apply (keeps_spec _ _ (fun _ _ => True)). unfold CreatePosition.
  eapply spec_bind; [apply authorize_spec|]. intros _u.
  eapply spec_bind; [apply spec_lift|]. intros c.
  eapply spec_bind; [apply spec_query|]. intros items.
  eapply spec_bind; [apply spec_lift|]. intros [].
  unfold repo_CreatePosition. eapply spec_bind; [apply spec_now|]. intros at_.
  eapply spec_bind; [apply spec_uuid|]. intros id. cbv zeta.
  eapply spec_bind with (Q := fun _ _ => True); [|intros _v; by apply spec_ret].
  apply spec_stmt. intros t [] t' D (((_ & Hc) & Hi) & V). subst items. unfold insert_position.
  destruct (existsb _ _); [discriminate|]. intros [= <-]. split; [|done].
  apply normalizePosition_ok in Hc as (St & _). apply positions_ok; [done|].
  intros p [Hp|Hp%list_elem_of_singleton]%elem_of_app; [by left|right]. subst p.
  by eapply checked_position_housed.
Qed.

Lemma UpdatePosition_keeps actor org id req : keeps directory_ok (UpdatePosition actor org id req).
Proof.
  apply (keeps_spec _ _ (fun _ _ => True)). unfold UpdatePosition.
  eapply spec_bind; [apply authorize_spec|]. intros _u. cbv zeta.
  eapply spec_bind; [apply spec_guard|]. intros _v.
  eapply spec_bind; [apply spec_queryR|]. intros row.
  eapply spec_bind; [apply spec_lift|]. intros c.
  eapply spec_bind; [apply spec_query|]. intros items.
  eapply spec_bind; [apply spec_lift|]. intros [].
  unfold repo_UpdatePosition. eapply spec_bind; [apply spec_now|]. intros at_. cbv zeta.
  eapply spec_bind with (Q := fun _ _ => True);
    [|intros n; apply spec_keeps; unfold PositionByID; keeps_walk].
  apply spec_stmt. intros t n t' D ((((_ & Hr) & Hc) & Hi) & V) [= _ <-]. subst items. split; [|done].
  apply normalizePosition_ok in Hc as (St & _). apply positions_ok; [done|].
  intros p Hp. apply elem_of_update_where in Hp as (x & Hx & ->).
  destruct (position_key _ _ x) eqn:K; [right|by left]. unfold position_key in K. breflect.
  by eapply checked_position_housed.
Qed.

(** ** Down the tree *)

(** [below ds roots id]: a root, or an active department under one of them. *)
Inductive below (ds : list Department) (roots : list string) : string -> Prop :=
| below_root id : id ∈ roots -> below ds roots id
| below_child id c : below ds roots id -> c ∈ children ds id -> below ds roots c.

(** [opened ds roots listed id]: the departments whose children the walk
    visits: the roots, and under them the ones that were not [listed] before. *)
Inductive opened (ds : list Department) (roots listed : list string) : string -> Prop :=
| opened_root id : id ∈ roots -> opened ds roots listed id
| opened_child id c : opened ds roots listed id -> c ∈ children ds id -> c ∉ listed -> opened ds roots listed c.

Lemma children_spec ds id c :
  c ∈ children ds id <->
  exists d, d ∈ ds /\ dep_ID d = c /\ dep_Status d = "ACTIVE" /\ dep_ParentID d <> "" /\ dep_ParentID d = id.
Proof.
  unfold children. rewrite list_elem_of_In, in_map_iff. split.
  - intros (d & E & H). apply List.filter_In in H as [H G]. breflect. exists d.
    split_and!; try done. by apply list_elem_of_In.
  - intros (d & H & E & A & N & P). exists d. split; [done|]. apply List.filter_In.
    split; [by apply list_elem_of_In|]. rewrite A, P, !seqb_refl. rewrite P in N.
    rewrite (seqb_neq _ _ N). done.
Qed.

Section descending.
Context (ds : list Department).

(** The departments that are not in the set yet. *)
Definition outside (set : list string) : nat :=
  length (List.filter (fun d => negb (contains set (dep_ID d))) ds).

Lemma outside_snoc set c d :
  d ∈ ds -> dep_ID d = c -> contains set c = false -> (outside (set ++ [c]) < outside set)%nat.
Proof.
  intros Hd E C. unfold outside.
  assert (L : forall l, (length (List.filter (fun d => negb (contains (set ++ [c]) (dep_ID d))) l) <=
                  length (List.filter (fun d => negb (contains set (dep_ID d))) l))%nat).
  { induction l as [|x l IH]; cbn; [done|]. rewrite contains_app.
    destruct (contains set (dep_ID x)); cbn; [done|]. destruct (c =s dep_ID x); cbn; lia. }
  induction ds as [|x l IH]; [inversion Hd|]. cbn. apply elem_of_cons in Hd as [Hd|Hd].
  - subst x c. rewrite C, contains_app. cbn. rewrite C, seqb_refl. cbn. specialize (L l). lia.
  - specialize (IH Hd). rewrite contains_app. destruct (contains set (dep_ID x)); cbn; [done|].
    destruct (c =s dep_ID x); cbn; lia.
Qed.

Lemma push_children_spec cs set pending set' pending' :
  push_children set pending cs = (set', pending') ->
  (forall x, x ∈ set' <-> x ∈ set \/ x ∈ cs) /\
  (forall x, x ∈ pending' <-> x ∈ pending \/ (x ∈ cs /\ x ∉ set)) /\
  ((forall c, c ∈ cs -> exists d, d ∈ ds /\ dep_ID d = c) ->
   (length pending' + outside set' <= length pending + outside set)%nat).
Proof.
  revert set pending. induction cs as [|c cs IH]; intros set pending H; cbn in H.
  - injection H as <- <-. split_and!; [set_solver..|lia].
  - destruct (contains set c) eqn:C.
    + apply contains_spec in C. destruct (IH _ _ H) as (A & B & L).
      split_and!; [intros x; rewrite A|intros x; rewrite B|intros K; apply L]; set_solver.
    + destruct (IH _ _ H) as (A & B & L). pose proof C as C'. apply contains_false in C'.
      split_and!.
      * intros x. rewrite A. set_solver.
      * intros x. rewrite B. rewrite !elem_of_cons, elem_of_app, list_elem_of_singleton.
        split; [intuition (subst; auto)|]. intros [?|[[->|?] ?]]; [tauto..|].
        destruct (decide (x = c)); [subst; tauto|tauto].
      * intros K. destruct (K c) as (d & Hd & E); [by left|].
        pose proof (outside_snoc _ _ _ Hd E C). cbn in L.
        assert (forall c0, c0 ∈ cs -> exists d, d ∈ ds /\ dep_ID d = c0) as K' by (intros; apply K; by right).
        specialize (L K'). lia.
Qed.

Lemma children_known id c : c ∈ children ds id -> exists d, d ∈ ds /\ dep_ID d = c.
Proof. rewrite children_spec. intros (d & ? & ? & _). eauto. Qed.

Lemma descend_ends fuel set pending :
  (length pending + outside set < fuel)%nat -> descend fuel ds set pending <> None.
Proof.
  revert set pending. induction fuel as [|fuel IH]; intros set pending H; [lia|]. cbn.
  destruct pending as [|x pending]; [done|]. cbn in H.
  destruct (push_children set pending (children ds x)) as [set' pending'] eqn:E.
  apply push_children_spec in E as (_ & _ & L). apply IH.
  specialize (L (children_known x)). lia.
Qed.

Context (roots listed : list string) (Sub : forall x, x ∈ roots -> x ∈ listed).

(** What holds at every turn of the walk. *)
Record walking (set pending : list string) : Prop := {
  wk_listed : forall x, x ∈ listed -> x ∈ set;
  wk_set : forall x, x ∈ set -> x ∈ listed \/ opened ds roots listed x;
  wk_pending : forall x, x ∈ pending -> opened ds roots listed x;
  wk_done : forall x, x ∈ roots \/ (x ∈ set /\ x ∉ listed) ->
              x ∈ pending \/ forall c, c ∈ children ds x -> c ∈ set
}.

Lemma walking_step set x pending set' pending' :
  walking set (x :: pending) -> push_children set pending (children ds x) = (set', pending') ->
  walking set' pending'.
Proof.
  intros [L S P D] E. apply push_children_spec in E as (A & B & _).
  assert (O : opened ds roots listed x) by (apply P; by left).
  split.
  - intros y Hy. apply A. auto.
  - intros y [Hy|Hy]%A; [auto|]. destruct (decide (y ∈ listed)); [by left|right].
    by eapply opened_child.
  - intros y [Hy|[Hy N]]%B; [apply P; by right|]. eapply opened_child; [exact O|done|]. auto.
  - intros y Hy. destruct (decide (y ∈ set')) as [In|Out].
    + destruct (decide (y ∈ set)) as [In'|Out'].
      * destruct (D y) as [Hp|Hc]; [tauto| |right; intros c Hc'; apply A; auto].
        apply elem_of_cons in Hp as [->|Hp]; [right; intros c Hc; apply A; auto|left; apply B; auto].
      * apply A in In as [?|?]; [done|]. left. apply B. auto.
    + destruct Hy as [Hy|[? _]]; [|done]. exfalso. apply Out, A. left. auto.
Qed.

Lemma descend_walks fuel set pending out :
  walking set pending -> descend fuel ds set pending = Some out ->
  forall x, x ∈ out <-> x ∈ listed \/ opened ds roots listed x.
Proof.
  revert set pending. induction fuel as [|fuel IH]; intros set pending W H; [done|]. cbn in H.
  destruct pending as [|x pending].
  - injection H as <-. destruct W as [L S P D]. intros x. split; [apply S|].
    intros [Hx|Ho]; [auto|].
    assert (Hs : x ∈ set /\ (x ∈ roots \/ x ∉ listed)).
    { induction Ho as [y Hy|y c Hy IHy Hc Hn]; [auto|]. split; [|by right].
      destruct IHy as [A B]. destruct (D y) as [F|F]; [tauto|inversion F|auto]. }
    tauto.
  - destruct (push_children set pending (children ds x)) as [set' pending'] eqn:E.
    eapply IH; [by eapply walking_step|exact H].
Qed.

Lemma walking_start : walking listed (rev roots).
Proof.
  split; auto.
  - intros x Hx. apply opened_root. by rewrite list_elem_of_In, <- in_rev, <- list_elem_of_In in Hx.
  - intros x [Hx|[? ?]]; [|done]. left. by rewrite list_elem_of_In, <- in_rev, <- list_elem_of_In.
Qed.

Lemma opened_below x : opened ds roots listed x -> below ds roots x.
Proof. induction 1; [by apply below_root|by eapply below_child]. Qed.
End descending.

Lemma outside_le ds set : (outside ds set <= length ds)%nat.
Proof. apply List.filter_length_le. Qed.

(** ** The scope of the roles *)

Lemma elem_of_adds l set x : x ∈ fold_left add l set <-> x ∈ set \/ x ∈ l.
Proof.
  revert set. induction l as [|y l IH]; intros set; cbn; [set_solver|]. rewrite IH. unfold add.
  destruct (contains set y) eqn:C; [apply contains_spec in C|]; set_solver.
Qed.

Definition has_scope (roles : list RoleRow) (s : string) : bool :=
  existsb (fun r => ro_data_scope_type r =s s) roles.

(** The departments the custom roles among [roles] list. *)
Definition custom (org : string) (t : Tables) (roles : list RoleRow) (x : string) : Prop :=
  exists r, r ∈ roles /\ ro_data_scope_type r = DataScopeCustom /\ x ∈ role_departments org (ro_id r) t.

Lemma custom_cons org t r roles x :
  custom org t (r :: roles) x <->
  (ro_data_scope_type r = DataScopeCustom /\ x ∈ role_departments org (ro_id r) t) \/ custom org t roles x.
Proof.
  unfold custom. split.
  - intros (y & [->|Hy]%elem_of_cons & X); [by left|right; eauto].
  - intros [X|(y & Hy & X)]; [exists r|exists y]; (split; [|exact X]); [by left|by right].
Qed.

Definition everything : scope_walk := mkWalk true false false false [].

(** What the loop over the roles has collected when it gets to the end. *)
Record collected (org : string) (t : Tables) (roles : list RoleRow) (w w' : scope_walk) : Prop := {
  co_wide : sw_wide w' = sw_wide w;
  co_self : sw_self w' = sw_self w || has_scope roles DataScopeSelf;
  co_department : sw_department w' =
    sw_department w || has_scope roles DataScopeDepartment || has_scope roles DataScopeDepartmentTree;
  co_tree : sw_tree w' = sw_tree w || has_scope roles DataScopeDepartmentTree;
  co_set : forall x, x ∈ sw_set w' <-> x ∈ sw_set w \/ custom org t roles x
}.

Lemma collected_cons org t r roles w w1 w2 :
  collected org t [r] w w1 -> collected org t roles w1 w2 -> collected org t (r :: roles) w w2.
Proof.
  intros [A1 A2 A3 A4 A5] [B1 B2 B3 B4 B5]. unfold has_scope in *. cbn [existsb] in *.
  rewrite ?orb_false_r in *. split; unfold has_scope; cbn [existsb].
  - congruence.
  - rewrite B2, A2. by rewrite orb_assoc.
  - rewrite B3, A3. destruct (sw_department w); [done|]. cbn.
    destruct (ro_data_scope_type r =s DataScopeDepartment), (ro_data_scope_type r =s DataScopeDepartmentTree);
      cbn; rewrite ?orb_true_r; done.
  - rewrite B4, A4. by rewrite orb_assoc.
  - intros x. rewrite B5, A5, !custom_cons. unfold custom. set_solver.
Qed.

(** The step of the loop for a role that is not organization-wide. *)
Definition collect (r : RoleRow) (listed : list string) (w : scope_walk) : scope_walk :=
  let scoped s := ro_data_scope_type r =s s in
  mkWalk (sw_wide w) (sw_self w || scoped DataScopeSelf)
    (sw_department w || scoped DataScopeDepartment || scoped DataScopeDepartmentTree)
    (sw_tree w || scoped DataScopeDepartmentTree)
    (if scoped DataScopeCustom then fold_left add listed (sw_set w) else sw_set w).

Lemma collect_ok org t r w : collected org t [r] w (collect r (role_departments org (ro_id r) t) w).
Proof.
  split; unfold has_scope, collect; cbn; rewrite ?orb_false_r; try done.
  intros x. rewrite custom_cons. assert (N : ~ custom org t [] x) by (intros (y & Hy & _); inversion Hy).
  destruct (String.eqb_spec (ro_data_scope_type r) DataScopeCustom); [rewrite elem_of_adds|]; tauto.
Qed.

Lemma walk_roles_step org r roles w e n t w' n' t' :
  walk_roles org (r :: roles) w e n t = (Ok w', n', t') ->
  (ro_data_scope_type r = DataScopeOrganization /\ w' = everything /\ t' = t) \/
  (ro_data_scope_type r <> DataScopeOrganization /\ exists n1,
     walk_roles org roles (collect r (role_departments org (ro_id r) t) w) e n1 t = (Ok w', n', t')).
Proof.
  cbn [walk_roles]. cbv zeta. intros H.
  destruct (String.eqb_spec (ro_data_scope_type r) DataScopeOrganization) as [E|N]; [left; run; done|right].
  split; [done|]. unfold collect. destruct w as [wd sf dp tr st]; cbn.
  destruct (String.eqb_spec (ro_data_scope_type r) DataScopeSelf) as [E|_];
    [rewrite E; exists n; cbn; by rewrite ?orb_true_r, ?orb_false_r|].
  destruct (String.eqb_spec (ro_data_scope_type r) DataScopeDepartment) as [E|_];
    [rewrite E; exists n; cbn; by rewrite ?orb_true_r, ?orb_false_r|].
  destruct (String.eqb_spec (ro_data_scope_type r) DataScopeDepartmentTree) as [E|_];
    [rewrite E; exists n; cbn; by rewrite ?orb_true_r, ?orb_false_r|].
  destruct (ro_data_scope_type r =s DataScopeCustom); [|by run].
  unfold RoleDataScopeDepartments in H. run. rewrite !orb_false_r. eauto.
Qed.

Lemma walk_roles_ok org roles w e n t w' n' t' :
  walk_roles org roles w e n t = (Ok w', n', t') ->
  t' = t /\ ((has_scope roles DataScopeOrganization = true /\ w' = everything) \/
             (has_scope roles DataScopeOrganization = false /\ collected org t roles w w')).
Proof.
  revert w n. induction roles as [|r roles IH]; intros w n H.
  - cbn [walk_roles] in H. run. split; [done|]. right. split; [done|].
    split; cbn; rewrite ?orb_false_r; try done.
    intros x. split; [by left|]. intros [?|(r & Hr & _)]; [done|inversion Hr].
  - unfold has_scope in *. cbn [existsb]. apply walk_roles_step in H as [(-> & -> & ->)|(N & n1 & H)].
    + split; [done|]. left. done.
    + rewrite (seqb_neq _ _ N). destruct (IH _ _ H) as [-> [[X ->]|[X Y]]]; split; auto.
      right. split; [done|]. eapply collected_cons; [apply collect_ok|done].
Qed.

Lemma descend_total ds own listed :
  (forall x, x ∈ own -> x ∈ listed) -> exists out, descend (tree_fuel ds own) ds listed (rev own) = Some out /\
    forall x, x ∈ out <-> x ∈ listed \/ opened ds own listed x.
Proof.
  intros Sub. destruct (descend _ _ _ _) as [out|] eqn:E.
  - exists out. split; [done|]. eapply descend_walks; [exact Sub|by apply walking_start|exact E].
  - exfalso. revert E. apply descend_ends. rewrite length_rev. unfold tree_fuel.
    pose proof (outside_le ds listed). lia.
Qed.

Lemma opened_nothing ds listed x : ~ opened ds [] listed x.
Proof. induction 1 as [x Hx|]; [inversion Hx|done]. Qed.

(** The departments of the roles' scope: the listed ones (custom scopes, and
    the own departments when a role asks for them) and what the walk opens. *)
Definition own_departments (w : scope_walk) (org user : string) (at_ : Time) (t : Tables) : list string :=
  if sw_department w then current_departments org user at_ t else [].

Definition walked (org user : string) (at_ : Time) (t : Tables) (w : scope_walk) (set : list string) : Prop :=
  exists listed,
    (forall x, x ∈ listed <-> x ∈ sw_set w \/ x ∈ own_departments w org user at_ t) /\
    forall x, x ∈ set <-> x ∈ listed \/
      (sw_tree w = true /\ opened (departments_of org t) (own_departments w org user at_ t) listed x).

Lemma scope_departments_ok org user w e n t set n' t' :
  (sw_tree w = true -> sw_department w = true) ->
  scope_departments org user w e n t = (Ok set, n', t') ->
  t' = t /\ walked org user (clock e n) t w set.
Proof.
  intros TD H. unfold scope_departments, walked, own_departments in *. destruct (sw_department w).
  - apply bind_ok in H as (t0 & ? & ? & H0 & H). apply now_ok in H0 as (<- & -> & <-).
    apply bind_ok in H as (own & n1 & ? & H0 & H). apply query_ok in H0 as (_ & _ & Eo & <-).
    unfold UTC in Eo. rewrite Eo. cbv zeta in H.
    destruct (sw_tree w && _) eqn:T.
    + apply andb_true_iff in T as [-> _].
      apply bind_ok in H as (ds & n2 & ? & H0 & H). apply query_ok in H0 as (_ & _ & <- & <-).
      destruct (descend_total (departments_of org t) own (fold_left add own (sw_set w))) as (out & E & O).
      { intros x. rewrite elem_of_adds. auto. }
      rewrite E in H. apply ret_ok in H as (<- & _ & <-). split; [done|]. exists (fold_left add own (sw_set w)).
      split; [apply elem_of_adds|]. intros x. rewrite O. tauto.
    + apply ret_ok in H as (<- & _ & <-). split; [done|]. exists (fold_left add own (sw_set w)). split; [apply elem_of_adds|].
      intros x. split; [by left|]. intros [?|[T' O]]; [done|]. rewrite T' in T. cbn in T.
      destruct own as [|y own]; [destruct (opened_nothing _ _ _ O)|]. apply Z.ltb_ge in T. rewrite llen_cons in T. pose proof (llen_nonneg own). lia.
  - run. split; [done|]. exists (sw_set w). split; [set_solver|]. intros x. split; [by left|].
    intros [?|[T _]]; [done|]. by apply TD in T.
Qed.

Lemma DataScopeForUser_ok org user e n t scope n' t' :
  DataScopeForUser org user e n t = (Ok scope, n', t') ->
  let roles := effective_roles org user (clock e n) (clock e (S n)) t in
  t' = t /\ ((has_scope roles DataScopeOrganization = true /\ scope = mkDataScope true false []) \/
    (has_scope roles DataScopeOrganization = false /\ ds_OrganizationWide scope = false /\
     exists w at_, collected org t roles (mkWalk false false false false []) w /\
       ds_Self scope = sw_self w || (llen roles =? 0) /\ walked org user at_ t w (ds_DepartmentIDs scope))).
Proof.
  unfold DataScopeForUser. intros H.
  apply bind_ok in H as (t0 & ? & ? & H0 & H). apply now_ok in H0 as (<- & -> & <-).
  apply bind_ok in H as (t1 & ? & ? & H0 & H). apply now_ok in H0 as (<- & -> & <-).
  apply bind_ok in H as (roles & n1 & ? & H0 & H). apply query_ok in H0 as (_ & _ & <- & <-).
  unfold UTC in *. apply bind_ok in H as (w & n2 & ? & H0 & H). apply walk_roles_ok in H0 as [-> W].
  destruct W as [[X ->]|[X C]]; [cbn in H; run; auto|].
  rewrite (co_wide _ _ _ _ _ C) in H. cbn [sw_wide] in H. cbv zeta in H.
  apply bind_ok in H as (set & n3 & ? & H0 & H). apply ret_ok in H as (<- & _ & <-).
  apply scope_departments_ok in H0 as [-> (listed & L1 & L2)].
  - split; [done|]. right. split_and!; try done. eexists w, _. split_and!; [done..|].
    exists listed. split; [exact L1|]. intros x. cbn. rewrite elem_of_order_by. apply L2.
  - rewrite (co_tree _ _ _ _ _ C), (co_department _ _ _ _ _ C). cbn. intros ->. by rewrite orb_true_r.
Qed.

(** ** Replacing assignments *)

Lemma normalize_assignments_ok org user at_ seen l clean :
  normalize_assignments org user at_ seen l = Ok clean ->
  (forall a, a ∈ clean -> as_OrganizationID a = org /\ as_UserID a = user /\ as_DepartmentID a <> "" /\
     forall until, as_ValidUntil a = Some until -> as_ValidFrom a < until) /\
  NoDup (map (fun a => (as_DepartmentID a, as_PositionID a)) clean) /\
  forall a, a ∈ clean -> (as_DepartmentID a, as_PositionID a) ∉ seen.
Proof.
  revert seen clean. induction l as [|a l IH]; intros seen clean H; cbn in H.
  - injection H as <-. split_and!; [|constructor|]; intros a Ha; inversion Ha.
  - destruct (String.eqb_spec (TrimSpace (as_DepartmentID a)) ""); [discriminate|].
    destruct (match as_ValidUntil a with Some u => negb (After (UTC u) _) | None => false end) eqn:V; [discriminate|].
    destruct (bool_decide _) eqn:S; [discriminate|]. apply bool_decide_eq_false in S.
    apply result_bind_ok in H as (rest & H & [= <-]). destruct (IH _ _ H) as (A & N & F).
    split_and!; cbn.
    + intros x [->|Hx]%elem_of_cons; [|auto]. split_and!; try done. cbn. intros u E. rewrite E in V.
      by breflect.
    + constructor; [|done]. intros X. apply list_elem_of_In, in_map_iff in X as (y & E & Hy).
      apply list_elem_of_In in Hy. apply (F y Hy). rewrite E. by left.
    + intros x [->|Hx]%elem_of_cons; [done|]. intros X. apply (F x Hx). by right.
Qed.

Lemma position_map_Some ps id p : position_map ps !! id = Some p -> p ∈ ps /\ pos_ID p = id.
Proof.
  unfold position_map. induction ps as [|x ps IH] using rev_ind; [done|]. rewrite fold_left_app. cbn.
  intros [[<- <-]|[_ L]]%lookup_insert_Some; [set_solver|]. apply IH in L as [? ?]. set_solver.
Qed.

(** An assignment whose department, and position when it has one, are active. *)
Definition placed (t : Tables) (org : string) (a : UserAssignment) : Prop :=
  (exists d, d ∈ dir_departments t /\ dep_ID d = as_DepartmentID a /\ dep_OrganizationID d = org /\
             dep_Status d = "ACTIVE") /\
  (as_PositionID a <> "" -> exists p, p ∈ dir_positions t /\ pos_ID p = as_PositionID a /\
     pos_OrganizationID p = org /\ pos_DepartmentID p = as_DepartmentID a /\ pos_Status p = "ACTIVE").

Lemma assignment_targets_ok ds ps l a :
  assignment_targets (by_id ds) (position_map ps) l = Ok tt -> a ∈ l ->
  (exists d, d ∈ ds /\ dep_ID d = as_DepartmentID a /\ dep_OrganizationID d = as_OrganizationID a /\
             dep_Status d = "ACTIVE") /\
  (as_PositionID a <> "" -> exists p, p ∈ ps /\ pos_ID p = as_PositionID a /\
     pos_OrganizationID p = as_OrganizationID a /\ pos_DepartmentID p = as_DepartmentID a /\
     pos_Status p = "ACTIVE").
Proof.
  induction l as [|x l IH]; intros H Ha; [inversion Ha|]. cbn in H.
  destruct (by_id ds !! _) as [d|] eqn:L; [|discriminate]. apply by_id_Some in L as [Hd Ed].
  destruct (_ || _) eqn:G; [discriminate|]. breflect.
  destruct (String.eqb_spec (as_PositionID x) "") as [Ep|Np].
  - apply elem_of_cons in Ha as [->|Ha]; [|auto]. split; [eauto|done].
  - destruct (position_map ps !! _) as [p|] eqn:Lp; [|discriminate]. apply position_map_Some in Lp as [Hp Ep].
    destruct (_ || _ || _) eqn:G'; [discriminate|]. breflect.
    apply elem_of_cons in Ha as [->|Ha]; [|auto]. split; eauto 10.
Qed.

Lemma keeps_authorize (I : Tables -> Prop) actor org : keeps I (authorizeGrantActor actor org).
Proof.
  unfold authorizeGrantActor, RequireRecentMFA. keeps_walk.
Qed.

Lemma keeps_within (I : Tables -> Prop) actor user : keeps I (userWithinDataScope actor user).
Proof. unfold userWithinDataScope, CurrentUserDepartmentIDs. keeps_walk. Qed.
#[local] Hint Resolve keeps_authorize keeps_within : forge.

(** A stored row carries the assignment that was asked for. *)
Definition stored_as (org user : string) (a x : UserAssignment) : Prop :=
  as_OrganizationID x = org /\ as_UserID x = user /\ as_DepartmentID x = as_DepartmentID a /\
  as_PositionID x = as_PositionID a /\ as_Primary x = as_Primary a /\ as_ValidFrom x = as_ValidFrom a /\
  as_ValidUntil x = as_ValidUntil a.

Lemma insert_assignments_ok org user at_ l e n t u n' t' :
  forM l (insert_assignment org user at_) e n t = (Ok u, n', t') ->
  exists new, t' = t <| dir_assignments := dir_assignments t ++ new |> /\
    Forall2 (stored_as org user) l new.
Proof.
  revert n t. induction l as [|a l IH]; intros n t H.
  - cbn [forM] in H. apply ret_ok in H as (_ & _ & <-). exists []. split; [|constructor].
    destruct t. unfold set. cbn. by rewrite app_nil_r.
  - cbn [forM] in H. apply bind_ok in H as (v & n1 & t1 & H0 & H). unfold insert_assignment in H0.
    apply bind_ok in H0 as (id & n2 & t2 & H1 & H0). apply NewString_ok in H1 as (_ & _ & <-).
    apply stmt_ok in H0 as (_ & _ & H0). destruct (existsb _ _); [discriminate|].
    injection H0 as _ <-. destruct (IH _ _ H) as (new & -> & F). cbn in *.
    eexists (_ :: new). split; [unfold set; cbn; by rewrite <- app_assoc|]. by constructor.
Qed.

Lemma repo_ReplaceUserAssignments_ok org user l e n t u n' t' :
  repo_ReplaceUserAssignments org user l e n t = (Ok u, n', t') ->
  exists new, t' = t <| dir_assignments := delete_where (assignments_of org user) (dir_assignments t) ++ new |> /\
    Forall2 (stored_as org user) l new.
Proof.
  unfold repo_ReplaceUserAssignments. intros H. apply WithTx_run in H as (e' & n1 & n2 & _ & H).
  apply bind_ok in H as (o & ? & ? & H0 & H). apply queryR_ok in H0 as (_ & _ & _ & <-).
  apply bind_ok in H as (v & ? & ? & H0 & H). apply guard_ok in H0 as (_ & _ & <-).
  apply bind_ok in H as (v' & ? & ? & H0 & H). apply exec_ok in H0 as (_ & _ & ->).
  apply bind_ok in H as (at_ & ? & ? & H0 & H). apply now_ok in H0 as (_ & _ & <-).
  apply insert_assignments_ok in H as (new & -> & F). eauto.
Qed.

Lemma ReplaceUserAssignments_keeps actor org user l :
  keeps directory_ok (ReplaceUserAssignments actor org user l).
Proof.
  assert (K : forall t a, directory_ok t -> directory_ok (t <| dir_assignments := a |>)).
  { intros t a [U P R Ho]. by split. }
  unfold ReplaceUserAssignments, repo_ReplaceUserAssignments, insert_assignment, user_organization,
    ListDepartmentsForUpdate, ListPositions. keeps_walk.
  - apply keeps_exec. auto.
  - apply keeps_stmt. intros t u t' D H. destruct (existsb _ _); [discriminate|]. injection H as _ <-. auto.
Qed.

Lemma ReplaceUserAssignments_cases actor org user l e n t r n' t' :
  ReplaceUserAssignments actor org user l e n t = (r, n', t') ->
  (t' = t /\ is_ok r = false) \/ exists at_ clean n1,
    normalizeUserAssignments org (TrimSpace user) l at_ = Ok clean /\
    validateAssignmentTargets (departments_of org t) (positions_of org t) clean = Ok tt /\
    repo_ReplaceUserAssignments org (TrimSpace user) clean e n1 t = (r, n', t').
Proof.
  unfold ReplaceUserAssignments, user_organization. cbv zeta. intros H.
  do 6 next_read H. next_read H. unfold ListDepartmentsForUpdate, ListPositions in H.
  do 3 next_read H. right.
  repeat match goal with
  | E : now _ _ _ = _ |- _ => clear E
  | E : lift _ _ _ _ = _ |- _ => apply lift_ok in E as (? & _ & _)
  | E : query _ _ _ _ = _ |- _ => apply query_ok in E as (_ & _ & <- & _)
  end.
  match goal with u : unit |- _ => destruct u end. eauto 10.
Qed.

(** With nothing listed but the own departments the walk opens what is below them. *)
Lemma opened_is_below ds own listed x :
  (forall y, y ∈ listed <-> y ∈ own) -> x ∈ listed \/ opened ds own listed x <-> below ds own x.
Proof.
  intros E. split.
  - intros [Hx|O]; [apply below_root; by apply E|by apply opened_below in O].
  - intros B. right. induction B as [y Hy|y c _ IH Hc]; [by apply opened_root|].
    destruct (decide (c ∈ own)); [by apply opened_root|]. eapply opened_child; [exact IH|done|]. by rewrite E.
Qed.

Lemma walked_grants org user at_ t roles w ids :
  collected org t roles (mkWalk false false false false []) w -> walked org user at_ t w ids ->
  let own := current_departments org user at_ t in
  let trees := has_scope roles DataScopeDepartmentTree in
  let departments := has_scope roles DataScopeDepartment || trees in
  (forall x, custom org t roles x \/ (departments = true /\ x ∈ own) -> x ∈ ids) /\
  (forall x, x ∈ ids -> custom org t roles x \/ (departments = true /\ x ∈ own) \/
     (trees = true /\ below (departments_of org t) own x)) /\
  (has_scope roles DataScopeCustom = false -> trees = true ->
     forall x, x ∈ ids <-> below (departments_of org t) own x).
Proof.
  intros C (listed & L1 & L2). cbv zeta. unfold own_departments in *.
  pose proof (co_department _ _ _ _ _ C) as Cd. pose proof (co_tree _ _ _ _ _ C) as Ct. cbn in Cd, Ct.
  rewrite <- Cd, <- Ct. assert (Cs : forall x, x ∈ sw_set w <-> custom org t roles x).
  { intros x. rewrite (co_set _ _ _ _ _ C). cbn. set_solver. }
  assert (TD : sw_tree w = true -> sw_department w = true).
  { rewrite Ct, Cd. intros ->. by rewrite orb_true_r. }
  set (own := current_departments org user at_ t) in *.
  assert (Own : forall x, x ∈ (if sw_department w then own else []) <-> sw_department w = true /\ x ∈ own).
  { intros x. destruct (sw_department w); set_solver. }
  split_and!.
  - intros x Hx. apply L2. left. apply L1. rewrite Own, Cs. done.
  - intros x Hx. apply L2 in Hx as [Hx|[T O]].
    + apply L1 in Hx. rewrite Own, Cs in Hx. tauto.
    + right. right. split; [done|]. rewrite (TD T) in O. by apply opened_below in O.
  - intros NC T x. rewrite L2, T, (TD T). rewrite (TD T) in L1.
    rewrite <- (opened_is_below _ _ listed); [tauto|].
    intros y. rewrite L1, Cs. split; [|by right]. intros [(r & Hr & Ty & _)|?]; [|done].
    unfold has_scope in NC. rewrite existsb_false in NC. specialize (NC r Hr). rewrite Ty, seqb_refl in NC. done.
Qed.

Lemma normalizeUserAssignments_ok org user l at_ clean :
  normalizeUserAssignments org user l at_ = Ok clean ->
  normalize_assignments org user at_ [] l = Ok clean /\ (clean <> [] -> count_if as_Primary clean = 1).
Proof.
  unfold normalizeUserAssignments. destruct (50 <? _); [discriminate|]. intros H.
  apply result_bind_ok in H as (c & H & G). destruct (_ && _) eqn:P; [discriminate|]. injection G as <-.
  split; [done|]. intros N. orsplit; [|done]. destruct c; [done|]. rewrite llen_cons in P.
  pose proof (llen_nonneg c). lia.
Qed.

Lemma stored_all org user clean new x :
  Forall2 (stored_as org user) clean new -> x ∈ new -> exists a, a ∈ clean /\ stored_as org user a x.
Proof.
  induction 1 as [|a y l l' Ha _ IH]; intros Hx; [inversion Hx|].
  apply elem_of_cons in Hx as [->|Hx]; [exists a; split; [by left|done]|].
  destruct (IH Hx) as (b & Hb & S). exists b. split; [by right|done].
Qed.

Lemma stored_keys org user clean new :
  Forall2 (stored_as org user) clean new ->
  map (fun a => (as_DepartmentID a, as_PositionID a)) new =
  map (fun a => (as_DepartmentID a, as_PositionID a)) clean /\
  count_if as_Primary new = count_if as_Primary clean.
Proof.
  induction 1 as [|a y l l' Ha _ [E1 E2]]; [done|]. destruct Ha as (_ & _ & Ed & Ep & Pr & _).
  cbn [map]. rewrite !count_if_cons, E1, E2, Ed, Ep, Pr. done.
Qed.

(** ** Disabled departments *)

(** While the organization has an active root department, no blank candidate
    may be disabled: its blank identifier is the parent of that root. *)
Lemma disabled_candidate items c d :
  NoDup (map dep_ID items) -> d ∈ items -> dep_ParentID d = "" -> dep_Status d = "ACTIVE" ->
  dep_ID c = "" -> dep_Status c = "DISABLED" -> is_ok (validateDepartmentHierarchy items c true) = false.
Proof.
  intros N Hd P A I Dis. destruct (validateDepartmentHierarchy items c true) as [[]|] eqn:V; [|done].
  apply hierarchy_inv in V as (byID & _ & B & _ & _ & Ac). specialize (B eq_refl). subst byID.
  exfalso. eapply active_child_false; [exact (Ac Dis)|by apply by_id_elem| |done]. congruence.
Qed.

(** ** Histories *)

(** One operation, by any actor, with any clock, identifiers and failures. *)
Inductive dir_step : Tables -> Tables -> Prop :=
| S_CreateDepartment actor org req e n t : dir_step t (CreateDepartment actor org req e n t).2
| S_UpdateDepartment actor org id req e n t : dir_step t (UpdateDepartment actor org id req e n t).2
| S_CreatePosition actor org req e n t : dir_step t (CreatePosition actor org req e n t).2
| S_UpdatePosition actor org id req e n t : dir_step t (UpdatePosition actor org id req e n t).2
| S_ReplaceUserAssignments actor org user l e n t : dir_step t (ReplaceUserAssignments actor org user l e n t).2.

Lemma dir_step_ok t t' : dir_step t t' -> directory_ok t -> directory_ok t'.
Proof.
  intros S D. destruct S; [by apply CreateDepartment_keeps|by apply UpdateDepartment_keeps
    |by apply CreatePosition_keeps|by apply UpdatePosition_keeps|by apply ReplaceUserAssignments_keeps].
Qed.

Lemma dir_steps_ok t0 t :
  dir_departments t0 = [] -> dir_positions t0 = [] -> rtc dir_step t0 t -> directory_ok t.
Proof.
  intros Ed Ep H. assert (D : directory_ok t0).
  { split; rewrite ?Ed, ?Ep; [constructor|..]; intros x Hx; inversion Hx. }
  clear Ed Ep. induction H; [done|]. eauto using dir_step_ok.
Qed.

(** ** Properties *)

(** C16.  Through every history of the directory's operations the departments
    form a forest: identifiers are unique and the parents of each department
    lead up to a root, through departments of the same organization; an active
    department never hangs under a disabled one, and an active position never
    sits in one. *)
Theorem directory_stays_in_order t0 t :
  dir_departments t0 = [] -> dir_positions t0 = [] -> rtc dir_step t0 t ->
  NoDup (map dep_ID (dir_departments t)) /\
  (forall d, d ∈ dir_departments t -> rooted (dir_departments t) (dep_ID d) /\
     (dep_ParentID d <> "" -> exists p, p ∈ dir_departments t /\ dep_ID p = dep_ParentID d /\
        dep_OrganizationID p = dep_OrganizationID d /\
        (dep_Status d = "ACTIVE" -> dep_Status p = "ACTIVE"))) /\
  (forall p, p ∈ dir_positions t -> exists d, d ∈ dir_departments t /\ dep_ID d = pos_DepartmentID p /\
     dep_OrganizationID d = pos_OrganizationID p /\ (pos_Status p = "ACTIVE" -> dep_Status d = "ACTIVE")).
Proof.
  intros Ed Ep H. destruct (dir_steps_ok _ _ Ed Ep H) as [U P R Ho]. split_and!; [done| |].
  - intros d Hd. split; [auto|]. apply (P d Hd).
  - intros p Hp. apply (Ho p Hp).
Qed.

(** The walks of the directory end within their fuel: up the parents of a
    candidate whatever the rows are (cycles and missing parents included), and
    down the tree from any set of departments. *)
Theorem directory_walks_end byID seen p ds listed own :
  climb (S (S (size byID))) byID seen p <> None /\
  descend (tree_fuel ds own) ds listed (rev own) <> None.
Proof.
  split.
  - apply climb_ends. unfold unseen.
    pose proof (subseteq_size (dom byID ∖ set_of seen) (dom byID)) as L.
    rewrite size_dom in L. assert (dom byID ∖ set_of seen ⊆ dom byID) by set_solver. specialize (L ltac:(done)). lia.
  - apply descend_ends. rewrite length_rev. unfold tree_fuel. pose proof (outside_le ds listed). lia.
Qed.


(** Replacing a user's assignments is all or nothing: a run that fails
    leaves the tables as they were, and one that succeeds changes the rows of
    that user alone, which become distinct valid assignments in active
    departments and positions of the organization, exactly one of them primary
    unless there is none. *)
Theorem assignments_are_replaced_as_a_whole actor org user l e n t r n' t' :
  in_tx e = false -> ReplaceUserAssignments actor org user l e n t = (r, n', t') ->
  match r with
  | Err _ => t' = t
  | Ok _ => exists new,
      t' = t <| dir_assignments := delete_where (assignments_of org (TrimSpace user)) (dir_assignments t) ++ new |> /\
      (forall a, a ∈ new -> assignments_of org (TrimSpace user) a = true /\ placed t org a /\
         forall u, as_ValidUntil a = Some u -> as_ValidFrom a < u) /\
      NoDup (map (fun a => (as_DepartmentID a, as_PositionID a)) new) /\
      (new <> [] -> count_if as_Primary new = 1)
  end.
Proof.
  intros T H. apply ReplaceUserAssignments_cases in H as [[-> ?]|(at_ & clean & n1 & Nz & V & H)];
    [by destruct r|].
  destruct r as [u|err]; [|by eapply WithTx_atomic].
  apply repo_ReplaceUserAssignments_ok in H as (new & -> & F). exists new.
  apply normalizeUserAssignments_ok in Nz as [Nz Pr].
  apply normalize_assignments_ok in Nz as (Sh & Nd & _). destruct (stored_keys _ _ _ _ F) as [Ek Ec].
  split_and!; [done| |by rewrite Ek|].
  - intros x Hx. destruct (stored_all _ _ _ _ _ F Hx) as (a & Ha & Eo & Eu & Ed & Ep & _ & Ef & Et).
    destruct (Sh a Ha) as (So & _ & _ & Sv).
    destruct (assignment_targets_ok _ _ _ _ V Ha) as [(d & Hd & D) P].
    apply departments_of_spec in Hd as [Hd _]. rewrite So in *.
    split_and!; [unfold assignments_of; by rewrite Eo, Eu, !seqb_refl| |by rewrite Et, Ef].
    unfold placed. rewrite Ed, Ep. split; [eauto|]. intros Np. destruct (P Np) as (p & Hp & X).
    exists p. split; [|done]. unfold positions_of in Hp. apply elem_of_order_by, elem_of_select in Hp. tauto.
  - intros Nn. rewrite Ec. apply Pr. intros ->. apply Nn. by inversion F.
Qed.

(** A department cannot be created disabled: for a request with a blank
    identifier, as the API sends it, creation fails whenever the organization
    has an active root department, whatever the parent is. *)
Theorem departments_cannot_be_created_disabled actor org req e n t d :
  NoDup (map dep_ID (dir_departments t)) -> d ∈ dir_departments t -> dep_OrganizationID d = org ->
  dep_ParentID d = "" -> dep_Status d = "ACTIVE" ->
  dep_ID req = "" -> ToUpper (TrimSpace (dep_Status req)) = "DISABLED" ->
  is_ok (CreateDepartment actor org req e n t).1.1 = false.
Proof.
  intros N Hd Eo P A I Dis. destruct (CreateDepartment _ _ _ _ _ _) as [[[x|] n'] t'] eqn:H; [exfalso|done].
  unfold CreateDepartment in H. apply bind_ok in H as (_u & n1 & t1 & H0 & H).
  pose proof (keeps_authorize (fun s => s = t) actor org e n t eq_refl) as K. rewrite H0 in K. cbn in K. subst t1.
  apply bind_ok in H as (c & ? & ? & H1 & H). apply lift_ok in H1 as (H1 & _ & <-).
  apply bind_ok in H as (items & ? & ? & H2 & H). apply query_ok in H2 as (_ & _ & <- & <-).
  apply bind_ok in H as (u & ? & ? & H3 & _). apply lift_ok in H3 as (H3 & _ & _).
  apply normalizeDepartment_status in H1 as (Es & Ei). cbn in Es, Ei. rewrite Dis in Es. rewrite I in Ei.
  assert (F : is_ok (validateDepartmentHierarchy (departments_of org t) c true) = false).
  { eapply (disabled_candidate _ _ d); try done; [by apply departments_of_unique|by apply departments_of_spec]. }
  by rewrite H3 in F.
Qed.

(** ** A sample organization

    Department B under A, and C under B, all active; the user sits in A. *)
Definition sample_env : Env :=
  mkEnv (fun n => 100 + Z.of_nat n) (fun n => "id-" +:+ Itoa (Z.of_nat n)) (fun _ => None) (fun _ _ => "0"%char) false.
Definition admin : Principal :=
  mkPrincipal "USER" "admin" "org-1" "" "" ["system_admin"] [] [] false "s" 0 (mkDataScope true false []) "" (Some 100).
Definition department (id parent : string) : Department := mkDepartment id "org-1" parent id id "ACTIVE" 1 0 0.
Definition tree_role := mkRoleRow "r1" "org-1" DataScopeDepartmentTree [].
Definition custom_role := mkRoleRow "r2" "org-1" DataScopeCustom ["B"].
Definition sample_tables (roles : list RoleRow) : Tables :=
  mkTables [department "A" ""; department "B" "A"; department "C" "B"] []
    [mkAssignment "a1" "org-1" "u1" "A" "" true 0 None 0] [("u1", "org-1")] roles
    (fun _ _ _ => map ro_id roles).
Definition sample_scope (roles : list RoleRow) : result EffectiveDataScope :=
  (DataScopeForUser "org-1" "u1" sample_env 0%nat (sample_tables roles)).1.1.

(** A custom role can take departments away: a user of department A with
    a tree role sees A, B and C; given in addition a role whose custom scope
    lists B alone, the same user sees A and B, because the walk does not go
    through a department that is in the set already. *)
Theorem a_custom_role_narrows_a_tree :
  sample_scope [tree_role] = Ok (mkDataScope false false ["A"; "B"; "C"]) /\
  sample_scope [tree_role; custom_role] = Ok (mkDataScope false false ["A"; "B"]).
Proof. split; vm_compute; reflexivity. Qed.

Definition no_tables : Tables := mkTables [] [] [] [("u1", "org-1")] [] (fun _ _ _ => []).
Definition run_on {A} (m : M A) (t : Tables) : Tables := (m sample_env 0%nat t).2.
Definition new_root : Department := mkDepartment "" "" "" "root" "Root" "" 1 0 0.
Definition sample_root := run_on (CreateDepartment admin "org-1" new_root) no_tables.
Definition sample_child :=
  (CreateDepartment admin "org-1" (new_root <| dep_ParentID := "id-3" |> <| dep_Key := "child" |>) sample_env 5%nat sample_root).2.

Lemma directory_stays_in_order_witness :
  map dep_ID (dir_departments sample_child) = ["id-3"; "id-8"] /\
  forall d, d ∈ dir_departments sample_child -> rooted (dir_departments sample_child) (dep_ID d).
Proof.
  split; [vm_compute; reflexivity|]. intros d Hd.
  assert (R : rtc dir_step no_tables sample_child).
  { eapply rtc_l; [apply (S_CreateDepartment admin "org-1" new_root sample_env 0%nat)|].
    eapply rtc_l; [|apply rtc_refl].
    apply (S_CreateDepartment admin "org-1" (new_root <| dep_ParentID := "id-3" |> <| dep_Key := "child" |>) sample_env 5%nat). }
  apply (proj1 (proj2 (directory_stays_in_order no_tables sample_child eq_refl eq_refl R)) d Hd).
Defined.


Definition placement : UserAssignment := mkAssignment "" "" "" "B" "" true 0 None 0.

Lemma assignments_are_replaced_as_a_whole_witness :
  let rows := dir_assignments (run_on (ReplaceUserAssignments admin "org-1" "u1" [placement]) (sample_tables [])) in
  map as_DepartmentID rows = ["B"] /\ count_if as_Primary rows = 1.
Proof.
  cbv zeta. destruct (ReplaceUserAssignments admin "org-1" "u1" [placement] sample_env 0%nat (sample_tables []))
    as [[r n'] t'] eqn:E.
  pose proof (assignments_are_replaced_as_a_whole admin "org-1" "u1" [placement] sample_env 0%nat (sample_tables []) r n' t' eq_refl E) as H.
  unfold run_on. rewrite E. vm_compute in E. injection E as <- <- <-.
  destruct H as (new & H & _ & _ & P). apply (f_equal dir_assignments) in H. vm_compute in H. subst new.
  split; [reflexivity|]. apply P. discriminate.
Defined.

Lemma departments_cannot_be_created_disabled_witness :
  is_ok (CreateDepartment admin "org-1" (new_root <| dep_Status := "disabled" |>) sample_env 0%nat (sample_tables [])).1.1 = false.
Proof.
  apply (departments_cannot_be_created_disabled _ _ _ _ _ _ (department "A" "")); try reflexivity.
  - cbn. repeat constructor; set_solver.
  - left.
Defined.
