(* ===== verification/IdentityStore.v ===== *)
(** * The tables of the identity service

    The rows that [internal/adapters/repository/identity.go] and its companions
    keep, and the queries that the services of roles and of accounts share: who
    holds which role (directly, through an active group, through a temporary
    grant), which permissions, and the user with both.  The directory's tables
    are a part of these: [directory_view] is what [Directory] reads. *)

From S2P Require Import Prelude GoString Database Identity SecurityPolicy Directory.

(** ** Rows *)

Record Organization := mkOrganization {
  org_ID : string;
  org_Key : string;
  org_Name : string;
  org_Status : string;
  org_Description : string;
  org_MaxUsers : Z;
  org_MaxSessions : Z;
  org_CreatedAt : Time;
  org_UpdatedAt : Time
}.
#[export] Instance Organization_eta : Eta Organization := fun o =>
  mkOrganization (org_ID o) (org_Key o) (org_Name o) (org_Status o) (org_Description o) (org_MaxUsers o)
    (org_MaxSessions o) (org_CreatedAt o) (org_UpdatedAt o).

(** A row of [users]; the roles and permissions of [row_User] are not stored. *)
Record userRow := mkUserRow { row_User : User; row_PasswordHash : string }.
#[export] Instance userRow_eta : Eta userRow := fun r => mkUserRow (row_User r) (row_PasswordHash r).

Record Permission := mkPermission {
  perm_ID : string;
  perm_Key : string;
  perm_Name : string;
  perm_CreatedAt : Time
}.

(** A row of [roles] with its rows of [role_data_scope_departments]. *)
Record RoleTableRow := mkRole {
  rl_id : string;
  rl_organization_id : string;
  rl_role_key : string;
  rl_name : string;
  rl_data_scope_type : string;
  rl_departments : list string;
  rl_created_at : Time
}.
#[export] Instance RoleTableRow_eta : Eta RoleTableRow := fun r =>
  mkRole (rl_id r) (rl_organization_id r) (rl_role_key r) (rl_name r) (rl_data_scope_type r)
    (rl_departments r) (rl_created_at r).

Record Role := mkRoleView {
  role_ID : string;
  role_Key : string;
  role_Name : string;
  role_DataScope : string;
  role_Departments : list string;
  role_Permissions : list Permission;
  role_CreatedAt : Time
}.

Record GroupMember := mkMember { gm_group_id : string; gm_user_id : string; gm_created_at : Time }.
Record GroupRole := mkGroupRole { gr_group_id : string; gr_role_id : string; gr_created_at : Time }.

Record TemporaryGrantRow := mkGrant {
  trg_id : string;
  trg_organization_id : string;
  trg_user_id : string;
  trg_role_id : string;
  trg_requested_by : string;
  trg_approval_id : string;
  trg_reason : string;
  trg_valid_from : Time;
  trg_valid_until : Time;
  trg_revoked_at : option Time;
  trg_revoked_by : string;
  trg_revoke_reason : string;
  trg_created_at : Time
}.
#[export] Instance TemporaryGrantRow_eta : Eta TemporaryGrantRow := fun g =>
  mkGrant (trg_id g) (trg_organization_id g) (trg_user_id g) (trg_role_id g) (trg_requested_by g)
    (trg_approval_id g) (trg_reason g) (trg_valid_from g) (trg_valid_until g) (trg_revoked_at g)
    (trg_revoked_by g) (trg_revoke_reason g) (trg_created_at g).

Record RuleRow := mkRuleRow { rr_rule : RoleConflictRule; rr_status : string; rr_created_at : Time }.

Record SessionRow := mkSession {
  ses_id : string;
  ses_user_id : string;
  ses_token_hash : string;
  ses_expires_at : Time;
  ses_created_at : Time;
  ses_last_seen_at : Time;
  ses_client_ip : string;
  ses_user_agent : string;
  ses_authentication_level : string;
  ses_mfa_verified_at : option Time
}.
#[export] Instance SessionRow_eta : Eta SessionRow := fun s =>
  mkSession (ses_id s) (ses_user_id s) (ses_token_hash s) (ses_expires_at s) (ses_created_at s)
    (ses_last_seen_at s) (ses_client_ip s) (ses_user_agent s) (ses_authentication_level s)
    (ses_mfa_verified_at s).

Record TokenRow := mkToken {
  tok_id : string;
  tok_organization_id : string;
  tok_user_id : string;
  tok_name : string;
  tok_prefix : string;
  tok_hash : string;
  tok_scopes : list string;
  tok_expires_at : option Time;
  tok_last_used_at : option Time;
  tok_revoked_at : option Time;
  tok_created_at : Time
}.
#[export] Instance TokenRow_eta : Eta TokenRow := fun t =>
  mkToken (tok_id t) (tok_organization_id t) (tok_user_id t) (tok_name t) (tok_prefix t) (tok_hash t)
    (tok_scopes t) (tok_expires_at t) (tok_last_used_at t) (tok_revoked_at t) (tok_created_at t).

Record HistoryRow := mkHistory { ph_id : string; ph_user_id : string; ph_hash : string; ph_changed_at : Time }.

Record MFAFactor := mkFactor {
  mf_UserID : string;
  mf_Status : string;
  mf_SecretCiphertext : string;
  mf_KeyVersion : string;
  mf_PendingExpiresAt : Time;
  mf_ConfirmedAt : option Time
}.
#[export] Instance MFAFactor_eta : Eta MFAFactor := fun f =>
  mkFactor (mf_UserID f) (mf_Status f) (mf_SecretCiphertext f) (mf_KeyVersion f) (mf_PendingExpiresAt f)
    (mf_ConfirmedAt f).

Record RecoveryCode := mkCode {
  rc_id : string; rc_user_id : string; rc_code_hash : string; rc_used_at : option Time; rc_created_at : Time
}.
#[export] Instance RecoveryCode_eta : Eta RecoveryCode := fun c =>
  mkCode (rc_id c) (rc_user_id c) (rc_code_hash c) (rc_used_at c) (rc_created_at c).

Record ExternalIdentity := mkExternal {
  ei_ID : string;
  ei_OrganizationID : string;
  ei_Provider : string;
  ei_Subject : string;
  ei_UserID : string;
  ei_CreatedBy : string;
  ei_ApprovalID : string;
  ei_CreatedAt : Time;
  ei_LastAuthenticatedAt : option Time
}.
#[export] Instance ExternalIdentity_eta : Eta ExternalIdentity := fun x =>
  mkExternal (ei_ID x) (ei_OrganizationID x) (ei_Provider x) (ei_Subject x) (ei_UserID x) (ei_CreatedBy x)
    (ei_ApprovalID x) (ei_CreatedAt x) (ei_LastAuthenticatedAt x).

(** ** The tables *)

Record Tables := mkTables {
  organizations : list Organization;
  users : list userRow;
  roles : list RoleTableRow;
  permissions : list Permission;
  role_permissions : list (string * string);
  user_roles : list (string * string);
  user_groups : list UserGroup;
  group_members : list GroupMember;
  group_roles : list GroupRole;
  temporary_grants : list TemporaryGrantRow;
  conflict_rules : list RuleRow;
  settings : Settings;
  sessions : list SessionRow;
  api_tokens : list TokenRow;
  password_history : list HistoryRow;
  mfa_factors : list MFAFactor;
  recovery_codes : list RecoveryCode;
  external_identities : list ExternalIdentity;
  departments : list Department;
  positions : list Position;
  assignments : list UserAssignment
}.
#[export] Instance Tables_eta : Eta Tables := fun t =>
  mkTables (organizations t) (users t) (roles t) (permissions t) (role_permissions t) (user_roles t)
    (user_groups t) (group_members t) (group_roles t) (temporary_grants t) (conflict_rules t) (settings t)
    (sessions t) (api_tokens t) (password_history t) (mfa_factors t) (recovery_codes t)
    (external_identities t) (departments t) (positions t) (assignments t).

Definition uid (r : userRow) : string := user_ID (row_User r).
Definition uorg (r : userRow) : string := user_OrganizationID (row_User r).
Definition ustatus (r : userRow) : string := user_Status (row_User r).

(** ** Who holds a role *)

Definition held_directly (user : string) (t : Tables) (role : string) : bool :=
  existsb (fun '(u, r) => (u =s user) && (r =s role)) (user_roles t).

Definition group_active (t : Tables) (group : string) : bool :=
  existsb (fun g => (ug_ID g =s group) && (ug_Status g =s "ACTIVE")) (user_groups t).

Definition member_of (t : Tables) (group user : string) : bool :=
  existsb (fun m => (gm_group_id m =s group) && (gm_user_id m =s user)) (group_members t).

(** Through an active group among those that [counted] selects. *)
Definition held_by_group (counted : string -> bool) (user : string) (t : Tables) (role : string) : bool :=
  existsb (fun g => (gr_role_id g =s role) && counted (gr_group_id g) && group_active t (gr_group_id g) &&
                    member_of t (gr_group_id g) user) (group_roles t).

Definition grant_current (from until : Time) (g : TemporaryGrantRow) : bool :=
  match trg_revoked_at g with
  | Some _ => false
  | None => (trg_valid_from g <=? from) && (until <? trg_valid_until g)
  end.

Definition held_temporarily (user : string) (from until : Time) (t : Tables) (role : string) : bool :=
  existsb (fun g => (trg_user_id g =s user) && (trg_role_id g =s role) && grant_current from until g)
    (temporary_grants t).

Definition holds (counted : string -> bool) (user : string) (from until : Time) (t : Tables) (role : string)
  : bool :=
  held_directly user t role || held_by_group counted user t role || held_temporarily user from until t role.

Definition every_group (_ : string) : bool := true.

(** [SELECT DISTINCT ... ORDER BY]. *)
Definition distinct_sorted (l : list string) : list string := order_by str_le (remove_dups l).

Definition role_keys (held : string -> bool) (t : Tables) : list string :=
  distinct_sorted (map rl_role_key (select (fun r => held (rl_id r)) (roles t))).

Notation M := (Database.M Tables).

(** The statements read the clock once for each of their last two parameters. *)
Definition RolesForUser (user : string) : M (list string) :=
  from ← now;
  until ← now;
  query (fun t => role_keys (holds every_group user (UTC from) (UTC until) t) t).

Definition RolesForUserExcludingGroup (user excluded : string) : M (list string) :=
  from ← now;
  until ← now;
  query (fun t => role_keys (holds (fun g => g <>s excluded) user (UTC from) (UTC until) t) t).

Definition GroupRolesForUser (user : string) : M (list string) :=
  query (fun t => role_keys (held_by_group every_group user t) t).

Definition PermissionsForUser (user : string) : M (list string) :=
  from ← now;
  until ← now;
  query (fun t => distinct_sorted (map perm_Key (select
    (fun p => existsb (fun '(r, q) => (q =s perm_ID p) && holds every_group user (UTC from) (UTC until) t r)
                (role_permissions t)) (permissions t)))).

(** [out.Roles, _ = ...]: the error is dropped, the result is empty then. *)
Definition or_empty {A} (r : result (list A)) : list A := match r with Ok l => l | Err _ => [] end.

Definition with_roles (row : userRow) (user : string) : M userRow :=
  keys ← attempt (RolesForUser user);
  allowed ← attempt (PermissionsForUser user);
  mret (row <| row_User := (row_User row) <| user_Roles := or_empty keys |>
                                          <| user_Permissions := or_empty allowed |> |>).

Definition UserByLogin (org login : string) : M userRow :=
  row ← queryR (fun t => select_row (fun r => (uorg r =s org) && (user_LoginName (row_User r) =s login)) (users t));
  with_roles row (uid row).

Definition UserByID (id : string) : M User :=
  row ← queryR (fun t => select_row (fun r => uid r =s id) (users t));
  row ← with_roles row id;
  mret (row_User row).

Definition OrganizationByID (org : string) : M Organization :=
  queryR (fun t => select_row (fun o => org_ID o =s org) (organizations t)).

Definition enforceOrganizationActive (org : string) : M unit :=
  o ← OrganizationByID org;
  guard_not (ToUpper (org_Status o) <>s "ACTIVE") (Sentinel "identity.ErrDisabled").

Definition ListPermissions : M (list Permission) :=
  query (fun t => order_by (fun x y => str_le (perm_Key x) (perm_Key y)) (permissions t)).

Definition PermissionsForRole (role : string) : M (list Permission) :=
  query (fun t => order_by (fun x y => str_le (perm_Key x) (perm_Key y))
    (select (fun p => existsb (fun '(r, q) => (r =s role) && (q =s perm_ID p)) (role_permissions t)) (permissions t))).

Definition RoleConflictRules (org : string) : M (list RoleConflictRule) :=
  query (fun t => order_by (fun x y => str_le (rule_RoleA x) (rule_RoleA y) && negb (rule_RoleA x =s rule_RoleA y) ||
                                       (rule_RoleA x =s rule_RoleA y) && str_le (rule_RoleB x) (rule_RoleB y))
    (map rr_rule (select (fun r => (rule_OrganizationID (rr_rule r) =s org) && (rr_status r =s "ACTIVE"))
      (conflict_rules t)))).

(** ** The directory and the settings as parts of the tables *)

Definition role_row (r : RoleTableRow) : RoleRow :=
  mkRoleRow (rl_id r) (rl_organization_id r) (rl_data_scope_type r) (rl_departments r).

Definition directory_view (t : Tables) : Directory.Tables :=
  Directory.mkTables (departments t) (positions t) (assignments t) (map (fun r => (uid r, uorg r)) (users t))
    (map role_row (roles t))
    (fun from until user => map rl_id (select (fun r => holds every_group user from until t (rl_id r)) (roles t))).

Definition put_directory (d : Directory.Tables) (t : Tables) : Tables :=
  t <| departments := dir_departments d |> <| positions := dir_positions d |>
    <| assignments := dir_assignments d |>.

Definition in_directory {A} (m : Database.M Directory.Tables A) : M A := zoom directory_view put_directory m.
Definition in_settings {A} (m : Database.M Settings A) : M A := zoom settings (fun s t => t <| settings := s |>) m.

Definition ListRoles (org : string) : M (list Role) :=
  rows ← query (fun t => order_by (fun x y => str_le (rl_role_key x) (rl_role_key y))
    (select (fun r => rl_organization_id r =s org) (roles t)));
  mapMM (fun r =>
    permissions ← PermissionsForRole (rl_id r);
    departments ← in_directory (RoleDataScopeDepartments org (rl_id r));
    mret (mkRoleView (rl_id r) (rl_role_key r) (rl_name r) (rl_data_scope_type r) departments permissions
            (rl_created_at r))) rows.
