(* ===== verification/Roles.v ===== *)
(** * Roles

    The operations of [internal/app/identity] that change who holds which role:
    users, user groups, permissions and data scopes of roles, temporary grants
    and the status of users, with their repository functions.  Two rules must
    survive all of them: nobody holds two roles that a conflict rule separates,
    and an organization keeps an active system administrator. *)

From S2P Require Import Prelude GoString Database Identity GrantPolicy Password SecurityPolicy.
From S2P Require Import Directory IdentityStore.

Definition ErrLastSystemAdmin : error := Sentinel "repository.ErrLastSystemAdmin".
Definition ErrInvalidLoginName : error := Sentinel "identity.ErrInvalidLoginName".
Definition ErrPasswordPolicy : error := Sentinel "identity.ErrPasswordPolicy".
Definition ErrInvalidUserGroup : error := Sentinel "identity.ErrInvalidUserGroup".
Definition ErrInvalidDataScope : error := Sentinel "identity.ErrInvalidDataScope".
Definition ErrInvalidTemporaryGrant : error := Sentinel "identity.ErrInvalidTemporaryGrant".

Notation M := (Database.M Tables).

(** ** The repository: users *)

Definition role_by_key (org key : string) : M RoleTableRow :=
  queryR (fun t => select_row (fun r => (rl_organization_id r =s org) && (rl_role_key r =s key)) (roles t)).

Definition insert_user (row : userRow) (t : Tables) : result (unit * Tables) :=
  if existsb (fun r => (uid r =s uid row) ||
                       ((uorg r =s uorg row) && (user_LoginName (row_User r) =s user_LoginName (row_User row))))
       (users t)
  then Err ErrDuplicate
  else Ok (tt, t <| users := users t ++ [row] |>).

Definition insert_user_role (user role : string) (t : Tables) : result (unit * Tables) :=
  if existsb (fun '(u, r) => (u =s user) && (r =s role)) (user_roles t) then Err ErrDuplicate
  else Ok (tt, t <| user_roles := user_roles t ++ [(user, role)] |>).

Definition insert_user_roles (org user : string) (keys : list string) : M unit :=
  forM keys (fun key => r ← role_by_key org key; stmt (insert_user_role user (rl_id r))).

Definition new_user (id org login display : string) (mustChange : bool) (now : Time) : User :=
  mkUser id org login display "ACTIVE" mustChange 0 None now now now [] [].

Definition repo_CreateUserWithRoles (org login display hash : string) (mustChange : bool) (keys : list string)
  : M User :=
  at_ ← now;
  id ← NewString;
  let u := new_user id org login display mustChange (UTC at_) in
  _ ← WithTx (
    _ ← stmt (insert_user (mkUserRow u hash));
    insert_user_roles org id keys);
  mret (u <| user_Roles := keys |>).

(** The rows of the join that counts a user's role [system_admin]. *)
Definition admin_role (org role : string) (r : RoleTableRow) : bool :=
  (rl_id r =s role) && (rl_organization_id r =s org) && (rl_role_key r =s "system_admin").

Definition admin_grants (org user : string) (t : Tables) : list RoleTableRow :=
  flat_map (fun '(u, role) => if u =s user then select (admin_role org role) (roles t) else []) (user_roles t).

(** The rows of [lockActiveSystemAdmins]. *)
Definition active_admins (org : string) (t : Tables) : list string :=
  flat_map (fun u => map (fun _ => uid u) (admin_grants org (uid u) t))
    (select (fun u => (uorg u =s org) && (ustatus u =s "ACTIVE")) (users t)).

Definition lockActiveSystemAdmins (org : string) : M Z := query (fun t => llen (active_admins org t)).

Definition user_by_id (user : string) : M userRow :=
  queryR (fun t => select_row (fun r => uid r =s user) (users t)).

Definition delete_user_roles (user : string) (t : Tables) : Tables :=
  t <| user_roles := delete_where (fun '(u, _) => u =s user) (user_roles t) |>.

Definition repo_ReplaceUserRoles (org user : string) (keys : list string) : M unit :=
  WithTx (
    row ← user_by_id user;
    _ ← guard_not (uorg row <>s org) ErrNoRows;
    current ← query (fun t => llen (admin_grants org user t));
    _ ← (if (ustatus row =s "ACTIVE") && (0 <? current) && negb (contains keys "system_admin") then
           n ← lockActiveSystemAdmins org;
           guard_not (n <=? 1) ErrLastSystemAdmin
         else mret tt);
    _ ← exec (delete_user_roles user);
    insert_user_roles org user keys).

Definition set_status (status : string) (now : Time) (r : userRow) : userRow :=
  r <| row_User := (row_User r) <| user_Status := status |> <| user_UpdatedAt := now |> |>.

Definition repo_SetUserStatus (org user status : string) : M unit :=
  WithTx (
    row ← user_by_id user;
    _ ← guard_not (uorg row <>s org) ErrNoRows;
    _ ← (if (ustatus row =s "ACTIVE") && (status <>s "ACTIVE") then
           current ← query (fun t => llen (admin_grants org user t));
           if 0 <? current then
             n ← lockActiveSystemAdmins org;
             guard_not (n <=? 1) ErrLastSystemAdmin
           else mret tt
         else mret tt);
    at_ ← now;
    let here r := (uid r =s user) && (uorg r =s org) in
    count ← stmt (fun t => Ok (count_if here (users t),
      t <| users := update_where here (set_status status (UTC at_)) (users t) |>));
    _ ← guard_not (count =? 0) ErrNoRows;
    if status <>s "ACTIVE" then
      exec (fun t => t <| sessions := delete_where (fun s => ses_user_id s =s user) (sessions t) |>)
    else mret tt).

(** ** The repository: groups *)

Definition group_here (org group : string) (g : UserGroup) : bool :=
  (ug_OrganizationID g =s org) && (ug_ID g =s group).

Definition UserGroupMemberIDs (org group : string) : M (list string) :=
  query (fun t => if existsb (group_here org group) (user_groups t) then
    order_by str_le (map gm_user_id (select (fun m => gm_group_id m =s group) (group_members t))) else []).

Definition group_has_role (t : Tables) (group role : string) : bool :=
  existsb (fun g => (gr_group_id g =s group) && (gr_role_id g =s role)) (group_roles t).

Definition UserGroupRoleKeys (org group : string) : M (list string) :=
  query (fun t => if existsb (group_here org group) (user_groups t) then
    order_by str_le (map rl_role_key (select (fun r => group_has_role t group (rl_id r)) (roles t))) else []).

Definition UserGroupByID (org group : string) : M UserGroup :=
  g ← queryR (fun t => select_row (group_here org group) (user_groups t));
  members ← UserGroupMemberIDs org group;
  keys ← UserGroupRoleKeys org group;
  mret (g <| ug_MemberIDs := members |> <| ug_MemberCount := llen members |> <| ug_Roles := keys |>).

Definition ListUserGroups (org : string) : M (list UserGroup) :=
  groups ← query (fun t => order_by (fun x y => str_le (ug_Key x) (ug_Key y))
    (select (fun g => ug_OrganizationID g =s org) (user_groups t)));
  mapMM (fun g =>
    members ← UserGroupMemberIDs (ug_OrganizationID g) (ug_ID g);
    keys ← UserGroupRoleKeys (ug_OrganizationID g) (ug_ID g);
    mret (g <| ug_MemberIDs := members |> <| ug_MemberCount := llen members |> <| ug_Roles := keys |>)) groups.

Definition insert_group (g : UserGroup) (t : Tables) : result (unit * Tables) :=
  if existsb (fun x => (ug_ID x =s ug_ID g) ||
                       ((ug_OrganizationID x =s ug_OrganizationID g) && (ug_Key x =s ug_Key g))) (user_groups t)
  then Err ErrDuplicate
  else Ok (tt, t <| user_groups := user_groups t ++ [g] |>).

Definition repo_CreateUserGroup (req : UserGroup) : M UserGroup :=
  at_ ← now;
  id ← NewString;
  let req := req <| ug_ID := id |> <| ug_CreatedAt := UTC at_ |> <| ug_UpdatedAt := UTC at_ |>
                 <| ug_Roles := [] |> <| ug_MemberIDs := [] |> in
  _ ← stmt (insert_group req);
  mret req.

Definition set_group (req : UserGroup) (now : Time) (g : UserGroup) : UserGroup :=
  g <| ug_Name := ug_Name req |> <| ug_Description := ug_Description req |> <| ug_Status := ug_Status req |>
    <| ug_UpdatedAt := now |>.

Definition repo_UpdateUserGroup (req : UserGroup) : M UserGroup :=
  at_ ← now;
  let here := group_here (ug_OrganizationID req) (ug_ID req) in
  count ← stmt (fun t => Ok (count_if here (user_groups t),
    t <| user_groups := update_where here (set_group req (UTC at_)) (user_groups t) |>));
  _ ← guard_not (negb (count =? 1)) ErrNoRows;
  UserGroupByID (ug_OrganizationID req) (ug_ID req).

Definition group_by_id (group : string) : M UserGroup :=
  queryR (fun t => select_row (fun g => ug_ID g =s group) (user_groups t)).

Definition insert_member (m : GroupMember) (t : Tables) : result (unit * Tables) :=
  if member_of t (gm_group_id m) (gm_user_id m) then Err ErrDuplicate
  else Ok (tt, t <| group_members := group_members t ++ [m] |>).

Definition insert_members (org group : string) (members : list string) : M unit :=
  forM members (fun user =>
    row ← user_by_id user;
    _ ← guard_not (uorg row <>s org) ErrNoRows;
    at_ ← now;
    stmt (insert_member (mkMember group user (UTC at_)))).

Definition repo_ReplaceUserGroupMembers (org group : string) (members : list string) : M unit :=
  WithTx (
    g ← group_by_id group;
    _ ← guard_not (ug_OrganizationID g <>s org) ErrNoRows;
    _ ← exec (fun t => t <| group_members := delete_where (fun m => gm_group_id m =s group) (group_members t) |>);
    insert_members org group members).

Definition insert_group_role (g : GroupRole) (t : Tables) : result (unit * Tables) :=
  if group_has_role t (gr_group_id g) (gr_role_id g) then Err ErrDuplicate
  else Ok (tt, t <| group_roles := group_roles t ++ [g] |>).

Definition insert_group_roles (org group : string) (keys : list string) : M unit :=
  forM keys (fun key =>
    r ← role_by_key org key;
    at_ ← now;
    stmt (insert_group_role (mkGroupRole group (rl_id r) (UTC at_)))).

Definition repo_ReplaceUserGroupRoles (org group : string) (keys : list string) : M unit :=
  WithTx (
    g ← group_by_id group;
    _ ← guard_not (ug_OrganizationID g <>s org) ErrNoRows;
    _ ← exec (fun t => t <| group_roles := delete_where (fun g => gr_group_id g =s group) (group_roles t) |>);
    insert_group_roles org group keys).

(** ** The repository: permissions and data scopes of roles *)

Definition insert_role_permission (role permission : string) (t : Tables) : result (unit * Tables) :=
  if existsb (fun '(r, p) => (r =s role) && (p =s permission)) (role_permissions t) then Err ErrDuplicate
  else Ok (tt, t <| role_permissions := role_permissions t ++ [(role, permission)] |>).

Definition repo_ReplaceRolePermissions (org key : string) (permissionKeys : list string) : M unit :=
  WithTx (
    r ← role_by_key org key;
    _ ← exec (fun t => t <| role_permissions := delete_where (fun '(role, _) => role =s rl_id r) (role_permissions t) |>);
    forM permissionKeys (fun permission =>
      p ← queryR (fun t => select_row (fun p => perm_Key p =s permission) (permissions t));
      stmt (insert_role_permission (rl_id r) (perm_ID p)))).

Definition role_here (role : string) (r : RoleTableRow) : bool := rl_id r =s role.

Definition insert_scope_department (role department : string) (t : Tables) : result (unit * Tables) :=
  if existsb (fun r => role_here role r && contains (rl_departments r) department) (roles t) then Err ErrDuplicate
  else Ok (tt, t <| roles := update_where (role_here role)
    (fun r => r <| rl_departments := rl_departments r ++ [department] |>) (roles t) |>).

Definition repo_ReplaceRoleDataScope (org key scope : string) (departmentIDs : list string) : M unit :=
  WithTx (
    r ← role_by_key org key;
    _ ← exec (fun t => t <| roles := update_where (role_here (rl_id r)) (fun r => r <| rl_data_scope_type := scope |>) (roles t) |>);
    _ ← exec (fun t => t <| roles := update_where (role_here (rl_id r)) (fun r => r <| rl_departments := [] |>) (roles t) |>);
    forM departmentIDs (fun department => stmt (insert_scope_department (rl_id r) department))).

(** ** The repository: temporary grants *)

Record TemporaryRoleGrant := mkTemporaryGrant {
  tg_ID : string;
  tg_OrganizationID : string;
  tg_UserID : string;
  tg_RoleKey : string;
  tg_RequestedBy : string;
  tg_ApprovalID : string;
  tg_Reason : string;
  tg_ValidFrom : Time;
  tg_ValidUntil : Time;
  tg_RevokedAt : option Time;
  tg_RevokedBy : string;
  tg_RevokeReason : string;
  tg_CreatedAt : Time
}.
#[export] Instance TemporaryRoleGrant_eta : Eta TemporaryRoleGrant := fun g =>
  mkTemporaryGrant (tg_ID g) (tg_OrganizationID g) (tg_UserID g) (tg_RoleKey g) (tg_RequestedBy g)
    (tg_ApprovalID g) (tg_Reason g) (tg_ValidFrom g) (tg_ValidUntil g) (tg_RevokedAt g) (tg_RevokedBy g)
    (tg_RevokeReason g) (tg_CreatedAt g).

Definition insert_grant (g : TemporaryGrantRow) (t : Tables) : result (unit * Tables) :=
  if existsb (fun x => (trg_id x =s trg_id g) || (trg_approval_id x =s trg_approval_id g)) (temporary_grants t)
  then Err ErrDuplicate
  else Ok (tt, t <| temporary_grants := temporary_grants t ++ [g] |>).

Definition repo_CreateTemporaryRoleGrant (g : TemporaryRoleGrant) : M TemporaryRoleGrant :=
  r ← queryR (fun t => select_row (fun r => (rl_role_key r =s tg_RoleKey g) &&
    existsb (fun u => (uid u =s tg_UserID g) && (uorg u =s tg_OrganizationID g) &&
                      (uorg u =s rl_organization_id r)) (users t)) (roles t));
  id ← NewString;
  at_ ← now;
  let g := g <| tg_ID := id |> <| tg_CreatedAt := UTC at_ |> in
  _ ← stmt (insert_grant (mkGrant id (tg_OrganizationID g) (tg_UserID g) (rl_id r) (tg_RequestedBy g)
        (tg_ApprovalID g) (tg_Reason g) (tg_ValidFrom g) (tg_ValidUntil g) None "" "" (tg_CreatedAt g)));
  mret g.

Definition revoke_grant (at_ : Time) (actor reason : string) (g : TemporaryGrantRow) : TemporaryGrantRow :=
  g <| trg_revoked_at := Some at_ |> <| trg_revoked_by := actor |> <| trg_revoke_reason := reason |>.

Definition repo_RevokeTemporaryRoleGrant (org grant actor reason : string) : M unit :=
  at_ ← now;
  let here g := (trg_id g =s grant) && (trg_organization_id g =s org) &&
                match trg_revoked_at g with None => true | Some _ => false end in
  count ← stmt (fun t => Ok (count_if here (temporary_grants t),
    t <| temporary_grants := update_where here (revoke_grant (UTC at_) actor reason) (temporary_grants t) |>));
  guard_not (count =? 0) ErrNoRows.

Definition grant_view (roles : list RoleTableRow) (g : TemporaryGrantRow) : list TemporaryRoleGrant :=
  map (fun r => mkTemporaryGrant (trg_id g) (trg_organization_id g) (trg_user_id g) (rl_role_key r)
         (trg_requested_by g) (trg_approval_id g) (trg_reason g) (trg_valid_from g) (trg_valid_until g)
         (trg_revoked_at g) (trg_revoked_by g) (trg_revoke_reason g) (trg_created_at g))
    (select (fun r => rl_id r =s trg_role_id g) roles).

Definition repo_ListTemporaryRoleGrants (org : string) : M (list TemporaryRoleGrant) :=
  query (fun t => firstn 1000 (order_by (fun x y => tg_CreatedAt y <=? tg_CreatedAt x)
    (flat_map (grant_view (roles t)) (select (fun g => trg_organization_id g =s org) (temporary_grants t))))).

(** ** The service *)

Definition validateRoleCombination (org : string) (keys : list string) : M unit :=
  rules ← RoleConflictRules org;
  guard_not (hasRoleConflict keys rules) ErrRoleConflict.

Definition validateGroupMembers (org group : string) (groupRoles members : list string) : M unit :=
  forM members (fun user =>
    others ← RolesForUserExcludingGroup user group;
    validateRoleCombination org (others ++ groupRoles)).

(** The arguments of an uninterpreted error text. *)
Definition error_args (e : error) : list farg :=
  match e with
  | Sentinel name => [FStr name]
  | Errorf format args => FStr format :: args
  | Wrapf format args _ => FStr format :: args
  | Join _ _ => []
  end.

(** [fmt.Errorf("%w: %v", ErrPasswordPolicy, err)]. *)
Definition check_password `{UnicodeTables} (policy : resolvedPolicy) (raw : string) : result unit :=
  match Policy_Validate (passwordPolicy policy) raw with
  | Ok _ => Ok tt
  | Err e => Err (Wrapf "%w: %v" (error_args e) ErrPasswordPolicy)
  end.

Definition builtin_roles : list string := ["system_admin"; "security_admin"; "auditor"; "user"].

Definition CreateUser `{UnicodeTables} `{Argon2} (s : Service) (actor : Principal)
    (org login display raw : string) (keys : list string) : M User :=
  _ ← authorizeGrantActor actor org;
  _ ← OrganizationByID org;
  _ ← enforceOrganizationActive org;
  let login := TrimSpace login in
  let display := TrimSpace display in
  _ ← guard_not ((login =s "") || (120 <? slen login)) ErrInvalidLoginName;
  let keys := match keys with [] => ["user"] | _ => keys end in
  _ ← guard_not (existsb (fun key => negb (contains builtin_roles key)) keys) ErrInvalidRole;
  _ ← lift (enforceRoleMutation actor [] keys);
  _ ← validateRoleCombination org keys;
  policy ← in_settings (resolveSecurityPolicy s org);
  _ ← lift (check_password policy raw);
  hash ← Hash DefaultHasher raw;
  repo_CreateUserWithRoles org login display hash true keys.

(** The loop over the requested keys: trimmed, allowed, each once. *)
Fixpoint clean_keys (allowed seen : list string) (keys : list string) : result (list string) :=
  match keys with
  | [] => Ok []
  | key :: rest =>
    let key := TrimSpace key in
    if negb (contains allowed key) then Err ErrInvalidRole
    else if contains seen key then clean_keys allowed seen rest
    else match clean_keys allowed (key :: seen) rest with
         | Ok clean => Ok (key :: clean)
         | Err e => Err e
         end
  end.

Definition UpdateUserRoles (actor : Principal) (org user : string) (keys : list string) : M unit :=
  _ ← authorizeGrantActor actor org;
  let keys := match keys with [] => ["user"] | _ => keys end in
  roles ← ListRoles org;
  clean ← lift (clean_keys (map role_Key roles) [] keys);
  target ← UserByID user;
  _ ← guard_not (user_OrganizationID target <>s org) ErrGrantCeiling;
  _ ← lift (enforceRoleMutation actor (user_Roles target) clean);
  groupRoles ← GroupRolesForUser user;
  _ ← validateRoleCombination org (clean ++ groupRoles);
  repo_ReplaceUserRoles org user clean.

(** The permissions of the first role with the key, or [ErrInvalidRole]. *)
Fixpoint role_permission_keys (roles : list Role) (key : string) : result (list string) :=
  match roles with
  | [] => Err ErrInvalidRole
  | r :: rest => if role_Key r <>s key then role_permission_keys rest key
                 else Ok (map perm_Key (role_Permissions r))
  end.

Definition UpdateRolePermissions (actor : Principal) (org key : string) (permissionKeys : list string) : M unit :=
  _ ← authorizeGrantActor actor org;
  let key := TrimSpace key in
  _ ← guard_not ((key =s "") || (key =s "system_admin")) ErrInvalidRole;
  items ← ListPermissions;
  clean ← lift (clean_keys (map perm_Key items) [] permissionKeys);
  roles ← ListRoles org;
  current ← lift (role_permission_keys roles key);
  _ ← lift (enforcePermissionMutation actor key current clean);
  repo_ReplaceRolePermissions org key clean.

Definition data_scope_types : list string :=
  [DataScopeOrganization; DataScopeDepartment; DataScopeDepartmentTree; DataScopeSelf; DataScopeCustom].

Definition check_custom_scope (org scope : string) (clean : list string) : M unit :=
  if scope =s DataScopeCustom then
    _ ← guard_not (llen clean =? 0) ErrInvalidDataScope;
    departments ← in_directory (ListDepartmentsForUpdate org);
    let allowed := map dep_ID (List.filter (fun d => dep_Status d =s "ACTIVE") departments) in
    guard_not (existsb (fun id => negb (contains allowed id)) clean) ErrInvalidDataScope
  else guard_not (negb (llen clean =? 0)) ErrInvalidDataScope.

Definition UpdateRoleDataScope (actor : Principal) (org key scope : string) (departmentIDs : list string) : M unit :=
  _ ← authorizeGrantActor actor org;
  _ ← guard_not (negb (HasRole actor ["system_admin"])) ErrGrantCeiling;
  let key := TrimSpace key in
  let scope := ToUpper (TrimSpace scope) in
  _ ← guard_not ((key =s "") || (key =s "system_admin")) ErrInvalidDataScope;
  _ ← guard_not (negb (contains data_scope_types scope)) ErrInvalidDataScope;
  clean ← lift (match normalizeIDs departmentIDs 500 with Ok l => Ok l | Err _ => Err ErrInvalidDataScope end);
  _ ← check_custom_scope org scope clean;
  roles ← ListRoles org;
  _ ← guard_not (negb (contains (map role_Key roles) key)) ErrInvalidRole;
  repo_ReplaceRoleDataScope org key scope clean.

Definition SetUserStatus (org user status : string) : M unit :=
  let status := ToUpper (TrimSpace status) in
  _ ← guard_not ((status <>s "ACTIVE") && (status <>s "DISABLED")) (Errorf "invalid user status" []);
  repo_SetUserStatus org user status.

(** *** Groups *)

Definition normalizeUserGroup (req : UserGroup) (creating : bool) : result UserGroup :=
  let status := ToUpper (TrimSpace (ug_Status req)) in
  let status := if creating && (status =s "") then "ACTIVE" else status in
  let req := req <| ug_ID := TrimSpace (ug_ID req) |> <| ug_OrganizationID := TrimSpace (ug_OrganizationID req) |>
                 <| ug_Key := TrimSpace (ug_Key req) |> <| ug_Name := TrimSpace (ug_Name req) |>
                 <| ug_Description := TrimSpace (ug_Description req) |> <| ug_Status := status |> in
  if (ug_OrganizationID req =s "") || (ug_Name req =s "") || (200 <? slen (ug_Name req)) ||
     (500 <? slen (ug_Description req)) then Err ErrInvalidUserGroup
  else if (ug_Status req <>s "ACTIVE") && (ug_Status req <>s "DISABLED") then Err ErrInvalidUserGroup
  else if creating && ((ug_Key req =s "") || (100 <? slen (ug_Key req)) ||
                       negb (validDirectoryKey (ug_Key req))) then Err ErrInvalidUserGroup
  else Ok req.

Definition CreateUserGroup (actor : Principal) (org : string) (req : UserGroup) : M UserGroup :=
  _ ← authorizeGrantActor actor org;
  clean ← lift (normalizeUserGroup (req <| ug_OrganizationID := org |>) true);
  repo_CreateUserGroup clean.

Definition UpdateUserGroup (actor : Principal) (org group : string) (req : UserGroup) : M UserGroup :=
  _ ← authorizeGrantActor actor org;
  let group := TrimSpace group in
  _ ← guard_not (group =s "") ErrInvalidUserGroup;
  current ← UserGroupByID org group;
  let req := req <| ug_ID := ug_ID current |> <| ug_OrganizationID := org |>
                 <| ug_Key := ug_Key current |> <| ug_CreatedAt := ug_CreatedAt current |> in
  clean ← lift (normalizeUserGroup req false);
  _ ← (if ug_Status current <>s ug_Status clean then
         _ ← lift (enforceRoleMutation actor (ug_Roles current) []);
         if ug_Status clean =s "ACTIVE"
         then validateGroupMembers org (ug_ID current) (ug_Roles current) (ug_MemberIDs current)
         else mret tt
       else mret tt);
  repo_UpdateUserGroup clean.

Definition UpdateUserGroupMembers (actor : Principal) (org group : string) (members : list string) : M unit :=
  _ ← authorizeGrantActor actor org;
  current ← UserGroupByID org (TrimSpace group);
  _ ← lift (enforceRoleMutation actor [] (ug_Roles current));
  clean ← lift (match normalizeIDs members 10000 with Ok l => Ok l | Err _ => Err ErrInvalidUserGroup end);
  _ ← validateGroupMembers org group (ug_Roles current) clean;
  repo_ReplaceUserGroupMembers org group clean.

Definition UpdateUserGroupRoles (actor : Principal) (org group : string) (keys : list string) : M unit :=
  _ ← authorizeGrantActor actor org;
  current ← UserGroupByID org (TrimSpace group);
  clean ← lift (match normalizeIDs keys 200 with Ok l => Ok l | Err _ => Err ErrInvalidRole end);
  _ ← guard_not (contains clean "system_admin") ErrInvalidRole;
  roles ← ListRoles org;
  _ ← guard_not (existsb (fun key => negb (contains (map role_Key roles) key)) clean) ErrInvalidRole;
  _ ← lift (enforceRoleMutation actor (ug_Roles current) clean);
  _ ← validateGroupMembers org group clean (ug_MemberIDs current);
  repo_ReplaceUserGroupRoles org group clean.

(** *** Temporary grants *)

Definition max_grant (key : string) : Duration :=
  if (key =s "security_admin") || (key =s "auditor") then 8 * Hour else 30 * 24 * Hour.

Definition CreateTemporaryRoleGrant (actor : Principal) (user key reason approval : string)
    (validFrom validUntil : Time) : M TemporaryRoleGrant :=
  let org := p_OrganizationID actor in
  _ ← authorizeGrantActor actor org;
  _ ← guard_not (p_UserID actor =s user) ErrGrantCeiling;
  let key := TrimSpace key in
  let reason := TrimSpace reason in
  let approval := TrimSpace approval in
  let validFrom := UTC validFrom in
  let validUntil := UTC validUntil in
  _ ← guard_not ((key =s "") || (key =s "system_admin") || (slen reason <? 8) || (500 <? slen reason) ||
                 (approval =s "") || IsZero validFrom || negb (After validUntil validFrom)) ErrInvalidTemporaryGrant;
  at_ ← now;
  _ ← guard_not (negb (After validUntil (UTC at_))) ErrInvalidTemporaryGrant;
  _ ← guard_not (max_grant key <? timeSub validUntil validFrom) ErrInvalidTemporaryGrant;
  target ← UserByID user;
  _ ← guard_not ((user_OrganizationID target <>s org) || (user_Status target <>s "ACTIVE")) ErrGrantCeiling;
  roles ← ListRoles org;
  _ ← guard_not (negb (contains (map role_Key roles) key)) ErrInvalidRole;
  let nextRoles := user_Roles target ++ [key] in
  _ ← lift (enforceRoleMutation actor (user_Roles target) nextRoles);
  _ ← validateRoleCombination org nextRoles;
  repo_CreateTemporaryRoleGrant (mkTemporaryGrant "" org user key (p_UserID actor) approval reason
    validFrom validUntil None "" "" 0).

Definition ListTemporaryRoleGrants (actor : Principal) : M (list TemporaryRoleGrant) :=
  _ ← guard_not ((p_UserID actor =s "") || (p_OrganizationID actor =s "")) ErrInteractiveSessionRequired;
  repo_ListTemporaryRoleGrants (p_OrganizationID actor).

Definition RevokeTemporaryRoleGrant (actor : Principal) (grant reason : string) : M unit :=
  _ ← authorizeGrantActor actor (p_OrganizationID actor);
  let reason := TrimSpace reason in
  _ ← guard_not ((TrimSpace grant =s "") || (slen reason <? 4) || (500 <? slen reason)) ErrInvalidTemporaryGrant;
  repo_RevokeTemporaryRoleGrant (p_OrganizationID actor) grant (p_UserID actor) reason.

(** ** Membership as propositions *)

Lemma held_directly_spec user t role : held_directly user t role = true <-> (user, role) ∈ user_roles t.
Proof.
  unfold held_directly. rewrite existsb_exists. split.
  - intros ([u r] & H & E). breflect. subst. by apply list_elem_of_In.
  - intros H. exists (user, role). split; [by apply list_elem_of_In|]. by rewrite !seqb_refl.
Qed.

Lemma group_active_spec t group :
  group_active t group = true <-> exists g, g ∈ user_groups t /\ ug_ID g = group /\ ug_Status g = "ACTIVE".
Proof.
  unfold group_active. rewrite existsb_exists. split.
  - intros (g & H & E). breflect. exists g. split; [by apply list_elem_of_In|done].
  - intros (g & H & <- & E). exists g. split; [by apply list_elem_of_In|]. by rewrite E, !seqb_refl.
Qed.

Lemma member_of_spec t group user :
  member_of t group user = true <->
  exists m, m ∈ group_members t /\ gm_group_id m = group /\ gm_user_id m = user.
Proof.
  unfold member_of. rewrite existsb_exists. split.
  - intros (m & H & E). breflect. exists m. split; [by apply list_elem_of_In|done].
  - intros (m & H & <- & <-). exists m. split; [by apply list_elem_of_In|]. by rewrite !seqb_refl.
Qed.

Lemma held_by_group_spec counted user t role :
  held_by_group counted user t role = true <->
  exists g, g ∈ group_roles t /\ gr_role_id g = role /\ counted (gr_group_id g) = true /\
            group_active t (gr_group_id g) = true /\ member_of t (gr_group_id g) user = true.
Proof.
  unfold held_by_group. rewrite existsb_exists. split.
  - intros (g & H & E). breflect. exists g. split; [by apply list_elem_of_In|done].
  - intros (g & H & <- & C & A & Me). exists g. split; [by apply list_elem_of_In|].
    by rewrite C, A, Me, seqb_refl.
Qed.

Lemma elem_of_role_keys held t key :
  key ∈ role_keys held t <-> exists r, r ∈ roles t /\ rl_role_key r = key /\ held (rl_id r) = true.
Proof.
  unfold role_keys, distinct_sorted. rewrite elem_of_order_by, elem_of_remove_dups, list_elem_of_In, in_map_iff.
  split; intros (r & H1 & H2).
  - apply list_elem_of_In, elem_of_select in H2 as [? ?]. eauto.
  - exists r. destruct H2 as [? ?]. split; [done|]. by apply list_elem_of_In, elem_of_select.
Qed.

Lemma select_row_here {A} (p : A -> bool) rows r e n n' t t' :
  (queryR (fun t => select_row p (rows t)) : M A) e n t = (Ok r, n', t') -> t' = t /\ r ∈ rows t /\ p r = true.
Proof.
  intros H. apply queryR_ok in H as (_ & _ & H & <-). apply select_row_ok in H as [? ?]. done.
Qed.

Lemma reads_ok {S A} (m : Database.M S A) e n t a n' t' : reads m -> m e n t = (Ok a, n', t') -> t' = t.
Proof. intros R H. specialize (R e n t). by rewrite H in R. Qed.

(** ** Rules kept apart *)

Definition no_conflict (t : Tables) (org : string) (held : string -> Prop) : Prop :=
  forall r, r ∈ conflict_rules t -> rr_status r = "ACTIVE" -> rule_OrganizationID (rr_rule r) = org ->
    ~ (held (rule_RoleA (rr_rule r)) /\ held (rule_RoleB (rr_rule r))).

Lemma no_conflict_mono t t' org (held held' : string -> Prop) :
  conflict_rules t' = conflict_rules t -> (forall k, held' k -> held k) ->
  no_conflict t org held -> no_conflict t' org held'.
Proof. intros E H N r Hr Hs Ho [A B]. rewrite E in Hr. apply (N r Hr Hs Ho). auto. Qed.

Lemma validateRoleCombination_ok org keys e n t u n' t' :
  validateRoleCombination org keys e n t = (Ok u, n', t') ->
  t' = t /\ no_conflict t org (fun k => k ∈ keys).
Proof.
  intros H. unfold validateRoleCombination, RoleConflictRules in H.
  apply bind_ok in H as (rules & n1 & t1 & H & G). apply query_ok in H as (_ & _ & <- & <-).
  apply guard_ok in G as (G & _ & <-). split; [done|]. intros r Hr Hs Ho [A B].
  unfold hasRoleConflict in G. rewrite existsb_false in G. specialize (G (rr_rule r)).
  rewrite (proj2 (contains_spec _ _) A), (proj2 (contains_spec _ _) B) in G. discriminate G.
  apply elem_of_order_by. apply list_elem_of_In, in_map. apply list_elem_of_In, elem_of_select.
  split; [done|]. by rewrite Ho, Hs, !seqb_refl.
Qed.

Lemma validateGroupMembers_ok org group groupRoles members e n t u n' t' :
  validateGroupMembers org group groupRoles members e n t = (Ok u, n', t') ->
  t' = t /\ forall user, user ∈ members -> exists from until,
    no_conflict t org (fun k => k ∈ role_keys (holds (fun g => g <>s group) user from until t) t \/ k ∈ groupRoles).
Proof.
  unfold validateGroupMembers. revert n. induction members as [|user members IH]; intros n H.
  - cbn [forM] in H. apply ret_ok in H as (_ & _ & <-). split; [done|]. intros x Hx. inversion Hx.
  - cbn [forM] in H. apply bind_ok in H as (? & n1 & t1 & H & K). unfold RolesForUserExcludingGroup in H.
    apply bind_ok in H as (keys & n2 & t2 & H & V). run.
    apply validateRoleCombination_ok in V as [-> V].
    apply IH in K as [-> K]. split; [done|]. intros w Hw. apply elem_of_cons in Hw as [->|Hw]; [|auto].
    do 2 eexists. eapply no_conflict_mono; [done| |exact V]. intros k Hk. by apply elem_of_app.
Qed.

(** What a user holds apart from temporary grants. *)
Definition lasting (user : string) (t : Tables) (key : string) : Prop :=
  exists r, r ∈ roles t /\ rl_role_key r = key /\
    (held_directly user t (rl_id r) = true \/ held_by_group every_group user t (rl_id r) = true).

(** The keys and references of the schema. *)
Record tables_ok (t : Tables) : Prop := {
  ok_users : NoDup (map uid (users t));
  ok_roles : NoDup (map rl_id (roles t));
  ok_role_names : NoDup (map (fun r => (rl_organization_id r, rl_role_key r)) (roles t));
  ok_user_roles : NoDup (user_roles t);
  ok_groups : NoDup (map ug_ID (user_groups t));
  ok_group_ids : forall g, g ∈ user_groups t -> TrimSpace (ug_ID g) = ug_ID g;
  ok_user_roles_users : forall u r, (u, r) ∈ user_roles t -> u ∈ map uid (users t);
  ok_group_roles_groups : forall g, g ∈ group_roles t -> gr_group_id g ∈ map ug_ID (user_groups t);
  ok_members : forall m, m ∈ group_members t -> exists g row,
    g ∈ user_groups t /\ ug_ID g = gm_group_id m /\ row ∈ users t /\ uid row = gm_user_id m /\
    uorg row = ug_OrganizationID g
}.

(** Segregation of duties. *)
Definition separated (t : Tables) : Prop :=
  forall row, row ∈ users t -> no_conflict t (uorg row) (lasting (uid row) t).

Definition inv (t : Tables) : Prop := tables_ok t /\ separated t.

(** ** What the loops of inserts do *)

Lemma insert_user_roles_ok org user keys e n t u n' t' :
  insert_user_roles org user keys e n t = (Ok u, n', t') ->
  exists ids, t' = t <| user_roles := user_roles t ++ map (pair user) ids |> /\
    Forall2 (fun key id => exists r, r ∈ roles t /\ rl_organization_id r = org /\ rl_role_key r = key /\ rl_id r = id)
      keys ids /\
    (NoDup (user_roles t) -> NoDup (user_roles t')).
Proof.
  unfold insert_user_roles. revert n t. induction keys as [|key keys IH]; intros n t H; cbn [forM] in H.
  - apply ret_ok in H as (_ & _ & <-). exists []. rewrite app_nil_r. split; [by destruct t|]. done.
  - apply bind_ok in H as ([] & n1 & t1 & H & K). apply bind_ok in H as (r & n2 & t2 & H & I).
    apply select_row_here in H as (-> & Hr & E). breflect.
    apply stmt_ok in I as (_ & _ & I). unfold insert_user_role in I.
    destruct (existsb _ (user_roles t)) eqn:D; [discriminate|]. injection I as <-.
    apply IH in K as (ids & -> & F & N). exists (rl_id r :: ids). cbn in F, N |- *.
    rewrite <- !app_assoc. cbn [app]. split; [done|]. split; [constructor; eauto|].
    intros Hn. rewrite <- app_assoc in N. apply N. apply NoDup_app. split_and!; [done| |apply NoDup_singleton].
    intros [a b] Hx Hy. apply list_elem_of_singleton in Hy. injection Hy as -> ->.
    rewrite existsb_false in D. specialize (D _ Hx). cbn in D. by rewrite !seqb_refl in D.
Qed.

Lemma insert_members_ok org group members e n t u n' t' :
  insert_members org group members e n t = (Ok u, n', t') ->
  exists ms, t' = t <| group_members := group_members t ++ ms |> /\
    Forall2 (fun user m => gm_group_id m = group /\ gm_user_id m = user /\
      exists row, row ∈ users t /\ uid row = user /\ uorg row = org) members ms.
Proof.
  unfold insert_members. revert n t. induction members as [|user members IH]; intros n t H; cbn [forM] in H.
  - apply ret_ok in H as (_ & _ & <-). exists []. rewrite app_nil_r. split; [by destruct t|]. done.
  - apply bind_ok in H as ([] & n1 & t1 & H & K). apply bind_ok in H as (row & n2 & t2 & H & I).
    apply select_row_here in H as (-> & Hr & E). breflect.
    apply bind_ok in I as (? & n3 & t3 & G & I). apply guard_ok in G as (G & _ & <-). breflect.
    apply bind_ok in I as (at_ & n4 & t4 & A & I). apply now_ok in A as (_ & _ & <-).
    apply stmt_ok in I as (_ & _ & I). unfold insert_member in I.
    destruct (member_of _ _ _) eqn:D; [discriminate|]. injection I as <-.
    apply IH in K as (ms & -> & F). exists (mkMember group user (UTC at_) :: ms). cbn in F |- *.
    rewrite <- !app_assoc. cbn [app]. split; [done|]. constructor; [|done]. split_and!; [done..|]. eauto.
Qed.

Lemma insert_group_roles_ok org group keys e n t u n' t' :
  insert_group_roles org group keys e n t = (Ok u, n', t') ->
  exists rs, t' = t <| group_roles := group_roles t ++ rs |> /\
    Forall2 (fun key g => gr_group_id g = group /\
      exists r, r ∈ roles t /\ rl_organization_id r = org /\ rl_role_key r = key /\ rl_id r = gr_role_id g) keys rs.
Proof.
  unfold insert_group_roles. revert n t. induction keys as [|key keys IH]; intros n t H; cbn [forM] in H.
  - apply ret_ok in H as (_ & _ & <-). exists []. rewrite app_nil_r. split; [by destruct t|]. done.
  - apply bind_ok in H as ([] & n1 & t1 & H & K). apply bind_ok in H as (r & n2 & t2 & H & I).
    apply select_row_here in H as (-> & Hr & E). breflect.
    apply bind_ok in I as (at_ & n4 & t4 & A & I). apply now_ok in A as (_ & _ & <-).
    apply stmt_ok in I as (_ & _ & I). unfold insert_group_role in I.
    destruct (group_has_role _ _ _) eqn:D; [discriminate|]. injection I as <-.
    apply IH in K as (rs & -> & F). exists (mkGroupRole group (rl_id r) (UTC at_) :: rs). cbn in F |- *.
    rewrite <- !app_assoc. cbn [app]. split; [done|]. constructor; [|done]. split; [done|]. eauto.
Qed.

(** ** Reads of the service *)

Lemma reads_with_roles row user : reads (with_roles row user).
Proof. apply keeps_reads. intros t. unfold with_roles, RolesForUser, PermissionsForUser. keeps_walk. Qed.

Lemma reads_UserByID user : reads (UserByID user).
Proof.
  apply keeps_reads. intros t. unfold UserByID, with_roles, RolesForUser, PermissionsForUser. keeps_walk.
Qed.

Lemma zoom_view {S T A} (get : S -> T) (put : T -> S -> S) (m : Database.M T A) :
  (forall t, put (get t) t = t) -> reads m -> reads (zoom get put m).
Proof.
  intros P R e n t. unfold zoom. specialize (R e n (get t)). destruct (m e n (get t)) as [[r n1] s1].
  cbn in *. by rewrite R.
Qed.

Lemma put_directory_view t : put_directory (directory_view t) t = t.
Proof. by destruct t. Qed.

Lemma keeps_mapMM {S A B} (I : S -> Prop) (f : A -> Database.M S B) l :
  (forall x, keeps I (f x)) -> keeps I (mapMM f l).
Proof.
  intros K. induction l as [|x l IH]; cbn [mapMM]; [apply keeps_ret|]. keeps_walk.
Qed.

Lemma reads_ListRoles org : reads (ListRoles org).
Proof.
  apply keeps_reads. intros t. unfold ListRoles, PermissionsForRole, in_directory. keeps_walk.
  apply keeps_mapMM. intros r. keeps_walk. intros e n s <-.
  apply zoom_view; [apply put_directory_view|]. apply keeps_reads. intros d. unfold RoleDataScopeDepartments. keeps_walk.
Qed.

Lemma UserGroupByID_ok org group e n t g n' t' :
  UserGroupByID org group e n t = (Ok g, n', t') ->
  t' = t /\ exists g0, g0 ∈ user_groups t /\ ug_OrganizationID g0 = org /\ ug_ID g0 = group /\
    ug_ID g = ug_ID g0 /\ ug_OrganizationID g = org /\ ug_Status g = ug_Status g0 /\ ug_Key g = ug_Key g0 /\
    (forall u, u ∈ ug_MemberIDs g <-> member_of t group u = true) /\
    (forall k, k ∈ ug_Roles g <-> exists r, r ∈ roles t /\ rl_role_key r = k /\ group_has_role t group (rl_id r) = true).
Proof.
  intros H. unfold UserGroupByID in H. apply bind_ok in H as (g0 & n1 & t1 & H & K).
  apply select_row_here in H as (-> & Hg & E). unfold group_here in E. breflect.
  unfold UserGroupMemberIDs, UserGroupRoleKeys in K.
  assert (X : existsb (group_here org group) (user_groups t) = true).
  { apply existsb_exists. exists g0. split; [by apply list_elem_of_In|]. unfold group_here.
    apply andb_true_iff. by rewrite !seqb_true. }
  apply bind_ok in K as (members & n2 & t2 & A & K). apply query_ok in A as (_ & _ & A & <-).
  apply bind_ok in K as (keys & n3 & t3 & B & K). apply query_ok in B as (_ & _ & B & <-).
  apply ret_ok in K as (<- & _ & <-). rewrite X in A, B. subst members keys. split; [done|].
  exists g0. cbn. split_and!; try done.
  - intros u. rewrite elem_of_order_by, list_elem_of_In, in_map_iff, member_of_spec. split.
    + intros (m & <- & Hm). apply list_elem_of_In, elem_of_select in Hm as [? ?]. breflect. eauto.
    + intros (m & Hm & <- & <-). exists m. split; [done|]. apply list_elem_of_In, elem_of_select.
      by rewrite seqb_refl.
  - intros k. rewrite elem_of_order_by, list_elem_of_In, in_map_iff. split.
    + intros (r & <- & Hr). apply list_elem_of_In, elem_of_select in Hr as [? ?]. eauto.
    + intros (r & Hr & <- & Hh). exists r. split; [done|]. apply list_elem_of_In, elem_of_select. done.
Qed.

(** ** What the rules depend on *)

Definition user_triple (r : userRow) : string * string * string := (uid r, uorg r, ustatus r).
Definition role_triple (r : RoleTableRow) : string * string * string :=
  (rl_id r, rl_organization_id r, rl_role_key r).

(** Tables that agree on everything the rules read. *)
Record same_roles (t t' : Tables) : Prop := {
  same_users : map user_triple (users t') = map user_triple (users t);
  same_role_rows : map role_triple (roles t') = map role_triple (roles t);
  same_user_roles : user_roles t' = user_roles t;
  same_groups : user_groups t' = user_groups t;
  same_members : group_members t' = group_members t;
  same_group_roles : group_roles t' = group_roles t;
  same_rules : conflict_rules t' = conflict_rules t
}.

Lemma same_roles_refl t : same_roles t t.
Proof. by split. Qed.

Lemma same_roles_trans t1 t2 t3 : same_roles t1 t2 -> same_roles t2 t3 -> same_roles t1 t3.
Proof. intros [] []. split; congruence. Qed.

Lemma map_eq_elem {A B} (f : A -> B) l l' x : map f l' = map f l -> x ∈ l' -> exists y, y ∈ l /\ f y = f x.
Proof.
  intros E Hx. apply list_elem_of_In in Hx. apply (in_map f) in Hx. rewrite E in Hx.
  apply in_map_iff in Hx as (y & Ey & Hy). exists y. split; [by apply list_elem_of_In|done].
Qed.

Lemma map_eq_via {A B C} (f : A -> B) (g : B -> C) l l' :
  map f l' = map f l -> map (fun x => g (f x)) l' = map (fun x => g (f x)) l.
Proof. intros E. rewrite <- !(map_map f g). by rewrite E. Qed.

Lemma same_uids t t' : same_roles t t' -> map uid (users t') = map uid (users t).
Proof. intros S. exact (map_eq_via user_triple (fun x => x.1.1) _ _ (same_users _ _ S)). Qed.

Lemma same_held t t' user role : same_roles t t' ->
  held_directly user t' role = held_directly user t role /\
  held_by_group every_group user t' role = held_by_group every_group user t role.
Proof.
  intros []. unfold held_directly, held_by_group, group_active, member_of.
  by rewrite same_user_roles0, same_groups0, same_members0, same_group_roles0.
Qed.

Lemma same_lasting t t' user key : same_roles t t' -> lasting user t' key -> lasting user t key.
Proof.
  intros S (r' & Hr & K & H). destruct (map_eq_elem role_triple _ _ _ (same_role_rows _ _ S) Hr) as (r & Hr0 & E).
  unfold role_triple in E. injection E as E1 E2 E3. exists r. split; [done|]. split; [congruence|].
  rewrite E1. destruct (same_held t t' user (rl_id r') S) as [D G]. by rewrite D, G in H.
Qed.

Lemma same_inv t t' : same_roles t t' -> inv t -> inv t'.
Proof.
  intros S [W Sep]. pose proof (same_uids _ _ S) as U. split.
  - destruct W, S. split; rewrite ?U, ?same_user_roles0, ?same_groups0, ?same_members0, ?same_group_roles0; try done.
    + pose proof (map_eq_via role_triple (fun x => x.1.1) _ _ same_role_rows0) as R.
      change (map rl_id (roles t') = map rl_id (roles t)) in R. by rewrite R.
    + pose proof (map_eq_via role_triple (fun x => (x.1.2, x.2)) _ _ same_role_rows0) as R.
      cbn [role_triple fst snd] in R. by rewrite R.
    + intros m Hm. destruct (ok_members0 m Hm) as (g & row & Hg & Eg & Hrow & Er & Eo).
      destruct (map_eq_elem user_triple _ _ row (eq_sym same_users0) Hrow) as (row' & Hrow' & E).
      unfold user_triple in E. injection E as E1 E2 E3. exists g, row'. split_and!; congruence || done.
  - intros row' Hrow'. destruct (map_eq_elem user_triple _ _ row' (same_users _ _ S) Hrow') as (row & Hrow & E).
    unfold user_triple in E. injection E as E1 E2 E3. rewrite <- E1, <- E2.
    eapply no_conflict_mono; [apply (same_rules _ _ S)| |exact (Sep row Hrow)].
    intros k. by apply same_lasting.
Qed.

Lemma reads_authorize actor org : reads (authorizeGrantActor actor org : M unit).
Proof. apply keeps_reads. intros t. unfold authorizeGrantActor, RequireRecentMFA. keeps_walk. Qed.

(** Step over a successful part that only reads. *)
Ltac skip H L :=
  let A := fresh "A" in
  apply bind_ok in H as (? & ? & ? & A & H); apply reads_ok in A as ->; [|apply L].
Ltac skip_pure H :=
  let A := fresh "A" in
  apply bind_ok in H as (? & ? & ? & A & H);
  first [apply guard_ok in A as (A & _ & <-)|apply lift_ok in A as (A & _ & <-)].

(** ** What the operations on users change *)

Definition role_found (t : Tables) (org key id : string) : Prop :=
  exists r, r ∈ roles t /\ rl_organization_id r = org /\ rl_role_key r = key /\ rl_id r = id.

Lemma found_key t org keys ids r :
  tables_ok t -> Forall2 (role_found t org) keys ids -> r ∈ roles t -> rl_id r ∈ ids -> rl_role_key r ∈ keys.
Proof.
  intros W F Hr Hi. apply Forall2_flip in F.
  apply list_elem_of_lookup_1 in Hi as (i & Hi). destruct (Forall2_lookup_l _ _ _ _ _ F Hi) as (key & Hk & r0 & H0 & _ & K & E).
  assert (r0 = r) as ->. { eapply (NoDup_map_eq rl_id); [apply W|done..]. }
  rewrite K. by eapply list_elem_of_lookup_2.
Qed.

Lemma repo_ReplaceUserRoles_ok org user keys e n t u n' t' :
  repo_ReplaceUserRoles org user keys e n t = (Ok u, n', t') ->
  exists row ids, row ∈ users t /\ uid row = user /\ uorg row = org /\
    t' = t <| user_roles := delete_where (fun '(u, _) => u =s user) (user_roles t) ++ map (pair user) ids |> /\
    Forall2 (role_found t org) keys ids /\
    (NoDup (user_roles t) -> NoDup (user_roles t')) /\
    (ustatus row = "ACTIVE" -> admin_grants org user t <> [] -> "system_admin" ∉ keys ->
     2 <= llen (active_admins org t)).
Proof.
  intros H. apply WithTx_run in H as (e' & n0 & k & _ & H).
  apply bind_ok in H as (row & n1 & t1 & A & H). apply select_row_here in A as (-> & Hrow & E). breflect.
  apply bind_ok in H as (? & n2 & t2 & G & H). apply guard_ok in G as (G & _ & <-). breflect.
  apply bind_ok in H as (c & n3 & t3 & C & H). apply query_ok in C as (_ & _ & C & <-).
  apply bind_ok in H as (? & n4 & t4 & L & H).
  assert (t4 = t /\ (ustatus row = "ACTIVE" -> admin_grants org user t <> [] -> "system_admin" ∉ keys ->
            2 <= llen (active_admins org t))) as [-> Hlast].
  { destruct (_ && _ && _) eqn:B.
    - unfold lockActiveSystemAdmins in L. run. breflect. split; [done|]. intros. lia.
    - apply ret_ok in L as (_ & _ & <-). split; [done|]. intros Ha Hg Hk. exfalso.
      rewrite Ha, seqb_refl in B. apply contains_false in Hk. rewrite Hk in B.
      destruct (admin_grants org user t) as [|g l]; [done|]. subst c. rewrite llen_cons in B.
      pose proof (llen_nonneg l). cbn in B. destruct (Z.ltb_spec 0 (1 + llen l)); [done|lia]. }
  apply bind_ok in H as (? & n5 & t5 & D & H). apply exec_ok in D as (_ & _ & ->).
  apply insert_user_roles_ok in H as (ids & -> & F & N). exists row, ids.
  unfold delete_user_roles in *. cbn in F, N |- *. split_and!; try done.
  intros Hn. apply N. by apply NoDup_delete_where.
Qed.

(** Adding roles to a user that has no others. *)
Lemma grants_inv t org user keys ids row rest :
  inv t -> row ∈ users t -> uid row = user -> uorg row = org -> Forall2 (role_found t org) keys ids ->
  (forall x, x ∈ rest -> x ∈ user_roles t /\ x.1 <> user) -> NoDup (rest ++ map (pair user) ids) ->
  (forall x, x ∈ user_roles t -> x.1 <> user -> x ∈ rest) ->
  no_conflict t org (fun k => k ∈ keys \/ k ∈ role_keys (held_by_group every_group user t) t) ->
  inv (t <| user_roles := rest ++ map (pair user) ids |>).
Proof.
  intros [W Sep] Hrow Eu Eo F Hrest N Hkeep C. set (t' := t <| user_roles := _ |>).
  assert (Hin : forall u r, (u, r) ∈ user_roles t' <-> (u, r) ∈ rest \/ (u = user /\ r ∈ ids)).
  { intros u r. unfold t'. cbn. rewrite elem_of_app. split; (intros [H|H]; [by left|right]).
    - apply list_elem_of_In, in_map_iff in H as (i & [= <- <-] & Hi). split; [done|]. by apply list_elem_of_In.
    - destruct H as [-> H]. by apply list_elem_of_In, in_map, list_elem_of_In. }
  split.
  - destruct W. split; try done. intros u r Hu. apply Hin in Hu as [Hu|[-> Hu]].
    + apply Hrest in Hu as [Hu _]. by eapply ok_user_roles_users0.
    + rewrite <- Eu. by apply list_elem_of_In, in_map, list_elem_of_In.
  - intros row' Hrow'. destruct (decide (uid row' = user)) as [E|Ne].
    + assert (row' = row) as ->.
      { eapply (NoDup_map_eq uid); [apply W|done|done|congruence]. }
      rewrite Eo. eapply no_conflict_mono; [done| |exact C]. intros k (r & Hr & <- & [H|H]).
      * left. apply held_directly_spec, Hin in H as [H|[_ H]]; [|by eapply found_key].
        apply Hrest in H as [_ H]. cbn in H. congruence.
      * right. apply elem_of_role_keys. exists r. rewrite E in H. done.
    + eapply no_conflict_mono; [done| |exact (Sep row' Hrow')]. intros k (r & Hr & K & [H|H]); exists r.
      * split_and!; [done..|]. left. apply held_directly_spec. apply held_directly_spec, Hin in H as [H|[H _]]; [|done].
        by apply Hrest in H as [H _].
      * split_and!; [done..|]. by right.
Qed.

Lemma UpdateUserRoles_ok actor org user keys e n t u n' t' :
  UpdateUserRoles actor org user keys e n t = (Ok u, n', t') ->
  exists clean n0, repo_ReplaceUserRoles org user clean e n0 t = (Ok u, n', t') /\
    no_conflict t org (fun k => k ∈ clean \/ k ∈ role_keys (held_by_group every_group user t) t).
Proof.
  intros H. unfold UpdateUserRoles in H. skip H reads_authorize. skip H reads_ListRoles.
  apply bind_ok in H as (clean & n3 & t3 & A & H). apply lift_ok in A as (_ & _ & <-).
  skip H reads_UserByID. skip_pure H. skip_pure H.
  apply bind_ok in H as (groupRoles & n7 & t7 & B & H). apply query_ok in B as (_ & _ & <- & <-).
  apply bind_ok in H as (? & n8 & t8 & B & H). apply validateRoleCombination_ok in B as [-> C].
  exists clean, n8. split; [done|]. eapply no_conflict_mono; [done| |exact C].
  intros k Hk. by apply elem_of_app.
Qed.

Lemma UpdateUserRoles_inv actor org user keys e n t u n' t' :
  UpdateUserRoles actor org user keys e n t = (Ok u, n', t') -> inv t -> inv t'.
Proof.
  intros H I. apply UpdateUserRoles_ok in H as (clean & n0 & H & C).
  apply repo_ReplaceUserRoles_ok in H as (row & ids & Hrow & Eu & Eo & -> & F & N & _).
  eapply grants_inv; [done..| |by apply N, I| |done].
  - intros [a b] Hx. apply elem_of_delete_where in Hx as [? ?]. breflect. done.
  - intros [a b] Hx Ne. apply elem_of_delete_where. split; [done|]. by apply String.eqb_neq.
Qed.

Lemma repo_CreateUserWithRoles_ok org login display hash mustChange keys e n t u n' t' :
  repo_CreateUserWithRoles org login display hash mustChange keys e n t = (Ok u, n', t') ->
  exists row ids, uorg row = org /\ ustatus row = "ACTIVE" /\ uid row ∉ map uid (users t) /\
    t' = t <| users := users t ++ [row] |> <| user_roles := user_roles t ++ map (pair (uid row)) ids |> /\
    Forall2 (role_found t org) keys ids /\ (NoDup (user_roles t) -> NoDup (user_roles t')).
Proof.
  intros H. unfold repo_CreateUserWithRoles in H.
  apply bind_ok in H as (at_ & n1 & t1 & A & H). apply now_ok in A as (_ & _ & <-).
  apply bind_ok in H as (id & n2 & t2 & A & H). apply NewString_ok in A as (_ & _ & <-).
  apply bind_ok in H as (? & n3 & t3 & A & H). apply ret_ok in H as (_ & _ & <-).
  apply WithTx_run in A as (e' & n0 & k & _ & A).
  apply bind_ok in A as ([] & n4 & t4 & A & B). apply stmt_ok in A as (_ & _ & A). unfold insert_user in A.
  destruct (existsb _ (users t)) eqn:D; [discriminate|]. injection A as <-.
  apply insert_user_roles_ok in B as (ids & -> & F & N).
  eexists (mkUserRow (new_user id org login display mustChange (UTC at_)) hash), ids. cbn in *.
  split_and!; try done. intros X. apply list_elem_of_In, in_map_iff in X as (r & E & Hr).
  rewrite existsb_false in D. specialize (D r). apply list_elem_of_In in Hr. specialize (D Hr).
  apply orb_false_iff in D as [D _]. apply String.eqb_neq in D. by apply D.
Qed.

Lemma new_user_inv t org row keys ids :
  inv t -> uorg row = org -> uid row ∉ map uid (users t) -> Forall2 (role_found t org) keys ids ->
  NoDup (user_roles t ++ map (pair (uid row)) ids) -> no_conflict t org (fun k => k ∈ keys) ->
  inv (t <| users := users t ++ [row] |> <| user_roles := user_roles t ++ map (pair (uid row)) ids |>).
Proof.
  intros [W Sep] Eo Hnew F N C. set (t1 := t <| users := users t ++ [row] |>).
  assert (Hu : forall x, x ∈ map uid (users t) -> x ∈ map uid (users t1)).
  { intros x Hx. unfold t1. cbn. rewrite map_app. apply elem_of_app. by left. }
  assert (Hgroup : forall r, held_by_group every_group (uid row) t r = false).
  { intros r. destruct (held_by_group _ _ _ _) eqn:H; [exfalso|done].
    apply held_by_group_spec in H as (g & _ & _ & _ & _ & H). apply member_of_spec in H as (m & Hm & _ & E).
    destruct (ok_members _ W m Hm) as (g' & row' & _ & _ & Hrow' & Er & _). apply Hnew.
    rewrite <- E, <- Er. by apply list_elem_of_In, in_map, list_elem_of_In. }
  assert (Hdirect : forall r, (uid row, r) ∉ user_roles t).
  { intros r Hr. apply Hnew. by eapply (ok_user_roles_users _ W). }
  assert (I1 : inv t1).
  { split.
    - destruct W. split; try done.
      + unfold t1. cbn. apply NoDup_map_snoc; [done|]. intros y Hy E. apply Hnew. rewrite <- E.
        by apply list_elem_of_In, in_map, list_elem_of_In.
      + intros u r H. apply Hu. by eapply ok_user_roles_users0.
      + intros m Hm. destruct (ok_members0 m Hm) as (g & r & ? & ? & Hr & ? & ?). exists g, r. split_and!; try done.
        unfold t1. cbn. apply elem_of_app. by left.
    - intros row' Hrow'. unfold t1 in Hrow'. cbn in Hrow'. apply elem_of_app in Hrow' as [Hrow'|Hrow'].
      + eapply no_conflict_mono; [done| |exact (Sep row' Hrow')]. done.
      + apply list_elem_of_singleton in Hrow' as ->. intros r _ _ _ [(x & _ & _ & [H|H]) _].
        * apply held_directly_spec in H. by apply Hdirect in H.
        * change (held_by_group every_group (uid row) t (rl_id x) = true) in H. by rewrite Hgroup in H. }
  change (t1 <| user_roles := user_roles t1 ++ map (pair (uid row)) ids |>) with
    (t1 <| user_roles := user_roles t ++ map (pair (uid row)) ids |>).
  eapply (grants_inv t1 org (uid row) keys ids row); try done.
  - unfold t1. cbn. apply elem_of_app. right. constructor.
  - intros [a b] Hx. split; [done|]. cbn. intros ->. by apply Hdirect in Hx.
  - eapply no_conflict_mono; [done| |exact C]. intros k [Hk|Hk]; [done|]. exfalso.
    apply elem_of_role_keys in Hk as (r & _ & _ & H).
    change (held_by_group every_group (uid row) t (rl_id r) = true) in H. by rewrite Hgroup in H.
Qed.

(** ** What the operations on groups change *)

Lemma group_unique t g g' : tables_ok t -> g ∈ user_groups t -> g' ∈ user_groups t -> ug_ID g = ug_ID g' -> g = g'.
Proof. intros W. apply (NoDup_map_eq ug_ID). apply W. Qed.

Lemma user_unique t r r' : tables_ok t -> r ∈ users t -> r' ∈ users t -> uid r = uid r' -> r = r'.
Proof. intros W. apply (NoDup_map_eq uid). apply W. Qed.

(** Roles that count when a group is left out of account. *)
Definition without (group user : string) (from until : Time) (t : Tables) (key : string) : Prop :=
  key ∈ role_keys (holds (fun g => g <>s group) user from until t) t.

Lemma without_direct group user from until t r :
  r ∈ roles t -> held_directly user t (rl_id r) = true -> without group user from until t (rl_role_key r).
Proof. intros Hr H. apply elem_of_role_keys. exists r. unfold holds. by rewrite H. Qed.

Lemma without_group group user from until t r g :
  r ∈ roles t -> g ∈ group_roles t -> gr_role_id g = rl_id r -> gr_group_id g <> group ->
  group_active t (gr_group_id g) = true -> member_of t (gr_group_id g) user = true ->
  without group user from until t (rl_role_key r).
Proof.
  intros Hr Hg E Ne A Me. apply elem_of_role_keys. exists r. split_and!; [done..|]. unfold holds.
  apply orb_true_iff. left. apply orb_true_iff. right. apply held_by_group_spec. exists g. split_and!; try done.
  by apply negb_true_iff, String.eqb_neq.
Qed.

Lemma has_role_here t g r : g ∈ group_roles t -> gr_role_id g = rl_id r ->
  group_has_role t (gr_group_id g) (rl_id r) = true.
Proof.
  intros Hg E. apply existsb_exists. exists g. split; [by apply list_elem_of_In|]. by rewrite E, !seqb_refl.
Qed.

(** The new members of a group were checked with its roles. *)
Lemma members_inv t g group org ms (groupRoles members : list string) :
  inv t -> g ∈ user_groups t -> ug_ID g = group -> ug_OrganizationID g = org ->
  Forall2 (fun user m => gm_group_id m = group /\ gm_user_id m = user /\
    exists row, row ∈ users t /\ uid row = user /\ uorg row = org) members ms ->
  (forall r, r ∈ roles t -> group_has_role t group (rl_id r) = true -> rl_role_key r ∈ groupRoles) ->
  (forall u, u ∈ members -> exists from until,
     no_conflict t org (fun k => without group u from until t k \/ k ∈ groupRoles)) ->
  inv (t <| group_members := delete_where (fun m => gm_group_id m =s group) (group_members t) ++ ms |>).
Proof.
  intros [W Sep] Hg Eg Eo F HR C. set (t' := t <| group_members := _ |>).
  assert (Hms : forall m, m ∈ ms -> gm_group_id m = group /\ gm_user_id m ∈ members /\
    exists row, row ∈ users t /\ uid row = gm_user_id m /\ uorg row = org).
  { intros m Hm. apply list_elem_of_lookup_1 in Hm as (i & Hi).
    destruct (Forall2_lookup_r _ _ _ _ _ F Hi) as (user & Hu & E1 & E2 & E3). rewrite E2. split_and!; try done.
    by eapply list_elem_of_lookup_2. }
  assert (Hmem : forall gid u, member_of t' gid u = true ->
    (gid <> group /\ member_of t gid u = true) \/ (gid = group /\ u ∈ members)).
  { intros gid u H. apply member_of_spec in H as (m & Hm & <- & <-). unfold t' in Hm. cbn in Hm.
    apply elem_of_app in Hm as [Hm|Hm].
    - apply elem_of_delete_where in Hm as [Hm Ne]. breflect. left. split; [done|]. apply member_of_spec. eauto.
    - right. destruct (Hms m Hm) as (? & ? & _). done. }
  split.
  - destruct W. split; try done. intros m Hm. unfold t' in Hm. cbn in Hm. apply elem_of_app in Hm as [Hm|Hm].
    + apply elem_of_delete_where in Hm as [Hm _]. by apply ok_members0.
    + destruct (Hms m Hm) as (E1 & _ & row & Hrow & E2 & E3). exists g, row. split_and!; congruence || done.
  - intros row Hrow. destruct (decide (uid row ∈ members)) as [Hu|Hu].
    + destruct (C _ Hu) as (from & until & N). assert (uorg row = org) as ->.
      { apply list_elem_of_lookup_1 in Hu as (i & Hi).
        destruct (Forall2_lookup_l _ _ _ _ _ F Hi) as (m & _ & _ & _ & row' & H1 & H2 & H3).
        rewrite <- H3. f_equal. by apply (user_unique t). }
      eapply no_conflict_mono; [done| |exact N]. intros k (r & Hr & <- & [H|H]).
      * left. by apply without_direct.
      * apply held_by_group_spec in H as (gr & Hgr & E & _ & A & Me).
        apply Hmem in Me as [[Ne Me]|[E' _]]; [left; by eapply without_group|].
        right. apply HR; [done|]. rewrite <- E'. by apply has_role_here.
    + eapply no_conflict_mono; [done| |exact (Sep row Hrow)]. intros k (r & Hr & K & [H|H]); exists r;
        (split_and!; [done..|]); [by left|right].
      apply held_by_group_spec in H as (gr & Hgr & E & Co & A & Me). apply held_by_group_spec.
      apply Hmem in Me as [[_ Me]|[_ Me]]; [|done]. exists gr. done.
Qed.

Lemma UpdateUserGroupMembers_inv actor org group members e n t u n' t' :
  UpdateUserGroupMembers actor org group members e n t = (Ok u, n', t') -> inv t -> inv t'.
Proof.
  intros H I. unfold UpdateUserGroupMembers in H. skip H reads_authorize.
  apply bind_ok in H as (current & n2 & t2 & A & H).
  apply UserGroupByID_ok in A as (-> & g0 & Hg0 & Eo & Ei & _ & _ & _ & _ & _ & HR).
  skip_pure H. apply bind_ok in H as (clean & ? & ? & A0 & H). apply lift_ok in A0 as (_ & _ & <-).
  apply bind_ok in H as (? & n3 & t3 & V & H). apply validateGroupMembers_ok in V as [-> V].
  apply WithTx_run in H as (e' & n0 & k & _ & H).
  apply bind_ok in H as (g & n4 & t4 & B & H). apply select_row_here in B as (-> & Hg & E). breflect.
  skip_pure H. breflect. apply bind_ok in H as (? & n5 & t5 & D & H). apply exec_ok in D as (_ & _ & ->).
  apply insert_members_ok in H as (ms & -> & F). destruct I as [W Sep].
  assert (T : TrimSpace group = group) by (rewrite <- E; by apply W).
  rewrite T in *. assert (g0 = g) as -> by (apply (group_unique t); congruence || done).
  apply (members_inv t g group org ms (ug_Roles current) clean); try done. intros r Hr Hh. apply HR. eauto.
Qed.

(** The members of a group were checked with its new roles. *)
Lemma group_roles_inv t g group org rs (keys : list string) :
  inv t -> g ∈ user_groups t -> ug_ID g = group -> ug_OrganizationID g = org ->
  Forall2 (fun key g => gr_group_id g = group /\ role_found t org key (gr_role_id g)) keys rs ->
  (forall u, member_of t group u = true -> exists from until,
     no_conflict t org (fun k => without group u from until t k \/ k ∈ keys)) ->
  inv (t <| group_roles := delete_where (fun g => gr_group_id g =s group) (group_roles t) ++ rs |>).
Proof.
  intros [W Sep] Hg Eg Eo F C. set (t' := t <| group_roles := _ |>).
  assert (Hgr : forall x, x ∈ group_roles t' ->
    (x ∈ group_roles t /\ gr_group_id x <> group) \/
    (gr_group_id x = group /\ exists key, key ∈ keys /\ role_found t org key (gr_role_id x))).
  { intros x Hx. unfold t' in Hx. cbn in Hx. apply elem_of_app in Hx as [Hx|Hx].
    - apply elem_of_delete_where in Hx as [Hx Ne]. breflect. by left.
    - right. apply list_elem_of_lookup_1 in Hx as (i & Hi).
      destruct (Forall2_lookup_r _ _ _ _ _ F Hi) as (key & Hk & E1 & E2). split; [done|]. exists key.
      split; [by eapply list_elem_of_lookup_2|done]. }
  split.
  - destruct W. split; try done. intros x Hx. apply Hgr in Hx as [[Hx _]|[-> _]]; [by apply ok_group_roles_groups0|].
    rewrite <- Eg. by apply list_elem_of_In, in_map, list_elem_of_In.
  - intros row Hrow. destruct (member_of t group (uid row)) eqn:Me.
    + destruct (C _ Me) as (from & until & N). assert (uorg row = org) as ->.
      { apply member_of_spec in Me as (m & Hm & E1 & E2).
        destruct (ok_members _ W m Hm) as (g' & row' & Hg' & Eg' & Hrow' & Er & Eo').
        assert (g' = g) as -> by (apply (group_unique t); congruence || done).
        assert (row' = row) as -> by (apply (user_unique t); congruence || done). congruence. }
      eapply no_conflict_mono; [done| |exact N]. intros k (r & Hr & <- & [H|H]); [left; by apply without_direct|].
      apply held_by_group_spec in H as (x & Hx & E & _ & A & Mx).
      apply Hgr in Hx as [[Hx Ne]|[_ (key & Hk & r0 & Hr0 & _ & K & E0)]]; [left; by eapply without_group|].
      right. assert (r0 = r) as ->; [|by rewrite K]. eapply (NoDup_map_eq rl_id); [apply W|done..|congruence].
    + eapply no_conflict_mono; [done| |exact (Sep row Hrow)]. intros k (r & Hr & K & [H|H]); exists r;
        (split_and!; [done..|]); [by left|right].
      apply held_by_group_spec in H as (x & Hx & E & Co & A & Mx). apply held_by_group_spec.
      apply Hgr in Hx as [[Hx _]|[E0 _]]; [by exists x|]. rewrite E0 in Mx.
      change (member_of t group (uid row) = true) in Mx. congruence.
Qed.

Lemma UpdateUserGroupRoles_inv actor org group keys e n t u n' t' :
  UpdateUserGroupRoles actor org group keys e n t = (Ok u, n', t') -> inv t -> inv t'.
Proof.
  intros H I. unfold UpdateUserGroupRoles in H. skip H reads_authorize.
  apply bind_ok in H as (current & n2 & t2 & A & H).
  apply UserGroupByID_ok in A as (-> & g0 & Hg0 & Eo & Ei & _ & _ & _ & _ & HM & _).
  apply bind_ok in H as (clean & ? & ? & A0 & H). apply lift_ok in A0 as (_ & _ & <-).
  skip_pure H. skip H reads_ListRoles. skip_pure H. skip_pure H.
  apply bind_ok in H as (? & n3 & t3 & V & H). apply validateGroupMembers_ok in V as [-> V].
  apply WithTx_run in H as (e' & n0 & k & _ & H).
  apply bind_ok in H as (g & n4 & t4 & B & H). apply select_row_here in B as (-> & Hg & E). breflect.
  skip_pure H. breflect. apply bind_ok in H as (? & n5 & t5 & D & H). apply exec_ok in D as (_ & _ & ->).
  apply insert_group_roles_ok in H as (rs & -> & F). destruct I as [W Sep].
  assert (T : TrimSpace group = group) by (rewrite <- E; by apply W).
  rewrite T in *. assert (g0 = g) as -> by (apply (group_unique t); congruence || done).
  apply (group_roles_inv t g group org rs clean); try done. intros w Mw. by apply V, HM.
Qed.

Lemma normalizeUserGroup_ok req creating g :
  normalizeUserGroup req creating = Ok g ->
  ug_ID g = TrimSpace (ug_ID req) /\ ug_OrganizationID g = TrimSpace (ug_OrganizationID req) /\
  (ug_Status g = "ACTIVE" \/ ug_Status g = "DISABLED").
Proof.
  intros H. unfold normalizeUserGroup in H. guards H; injection H as <-; cbn in *; split_and!; try done; orsplit; auto.
Qed.

(** A group whose status changes to active had its members checked. *)
Lemma set_group_inv t org group req now g0 (current_roles : list string) :
  inv t -> g0 ∈ user_groups t -> ug_ID g0 = group -> ug_OrganizationID g0 = org ->
  (forall r, r ∈ roles t -> group_has_role t group (rl_id r) = true -> rl_role_key r ∈ current_roles) ->
  (ug_Status req = "ACTIVE" -> ug_Status g0 <> "ACTIVE" ->
   forall u, member_of t group u = true -> exists from until,
     no_conflict t org (fun k => without group u from until t k \/ k ∈ current_roles)) ->
  inv (t <| user_groups := update_where (group_here org group) (set_group req now) (user_groups t) |>).
Proof.
  intros [W Sep] Hg0 Ei Eo HR C. set (t' := t <| user_groups := _ |>).
  assert (Hids : map ug_ID (user_groups t') = map ug_ID (user_groups t)) by (by apply map_update_where).
  assert (Hact : forall gid, group_active t' gid = true ->
    group_active t gid = true \/ (gid = group /\ ug_Status req = "ACTIVE" /\ ug_Status g0 <> "ACTIVE")).
  { intros gid H. apply group_active_spec in H as (x & Hx & E & S). unfold t' in Hx. cbn in Hx.
    apply elem_of_update_where in Hx as (y & Hy & ->). destruct (group_here org group y) eqn:Hh; cbn in *.
    - unfold group_here in Hh. breflect. assert (y = g0) as -> by (apply (group_unique t); congruence || done).
      destruct (decide (ug_Status g0 = "ACTIVE")); [left|right; split_and!; congruence || done].
      apply group_active_spec. eauto.
    - left. apply group_active_spec. eauto. }
  split.
  - destruct W. split; rewrite ?Hids; try done.
    + intros x Hx. unfold t' in Hx. cbn in Hx. apply elem_of_update_where in Hx as (y & Hy & ->).
      destruct (group_here org group y); [cbn|]; by apply ok_group_ids0.
    + intros m Hm. destruct (ok_members0 m Hm) as (g & row & Hg & E1 & Hrow & E2 & E3).
      exists (if group_here org group g then set_group req now g else g), row. split_and!; try done.
      * apply elem_of_update_where. eauto.
      * by destruct (group_here org group g).
      * by destruct (group_here org group g).
  - intros row Hrow.
    destruct (decide (member_of t group (uid row) = true /\ ug_Status req = "ACTIVE" /\ ug_Status g0 <> "ACTIVE"))
      as [(Me & S1 & S2)|Hno].
    + destruct (C S1 S2 _ Me) as (from & until & N). assert (uorg row = org) as ->.
      { apply member_of_spec in Me as (m & Hm & E1 & E2).
        destruct (ok_members _ W m Hm) as (g' & row' & Hg' & Eg' & Hrow' & Er & Eo').
        assert (g' = g0) as -> by (apply (group_unique t); congruence || done).
        assert (row' = row) as -> by (apply (user_unique t); congruence || done). congruence. }
      eapply no_conflict_mono; [done| |exact N]. intros k (r & Hr & <- & [H|H]); [left; by apply without_direct|].
      apply held_by_group_spec in H as (x & Hx & E & _ & A & Mx).
      change (member_of t (gr_group_id x) (uid row) = true) in Mx.
      destruct (decide (gr_group_id x = group)) as [Eg|Ne].
      * right. apply HR; [done|]. rewrite <- Eg. by apply has_role_here.
      * left. eapply without_group; try done. by apply Hact in A as [A|[? _]].
    + eapply no_conflict_mono; [done| |exact (Sep row Hrow)]. intros k (r & Hr & K & [H|H]); exists r;
        (split_and!; [done..|]); [by left|right].
      apply held_by_group_spec in H as (x & Hx & E & Co & A & Mx). apply held_by_group_spec.
      exists x. split_and!; try done. apply Hact in A as [A|(E1 & S1 & S2)]; [done|]. exfalso. apply Hno.
      rewrite <- E1. done.
Qed.

Lemma UpdateUserGroup_inv actor org group req e n t u n' t' :
  UpdateUserGroup actor org group req e n t = (Ok u, n', t') -> inv t -> inv t'.
Proof.
  intros H I. unfold UpdateUserGroup in H. skip H reads_authorize. skip_pure H.
  apply bind_ok in H as (current & n2 & t2 & B & H).
  apply UserGroupByID_ok in B as (-> & g0 & Hg0 & Eo & Ei & Ec & Eco & Es & _ & HM & HR).
  apply bind_ok in H as (clean & ? & ? & B & H). apply lift_ok in B as (B & _ & <-).
  apply normalizeUserGroup_ok in B as (Ci & Co & _). cbn in Ci, Co.
  apply bind_ok in H as (? & n3 & t3 & V & H).
  assert (t3 = t /\ (ug_Status clean = "ACTIVE" -> ug_Status g0 <> "ACTIVE" ->
    forall w, member_of t (ug_ID g0) w = true -> exists from until,
      no_conflict t org (fun k => without (ug_ID g0) w from until t k \/ k ∈ ug_Roles current))) as [-> V'].
  { destruct (ug_Status current <>s ug_Status clean) eqn:D; breflect.
    - skip_pure V. destruct (ug_Status clean =s "ACTIVE") eqn:S; breflect.
      + apply validateGroupMembers_ok in V as [-> V]. split; [done|]. intros _ _ w Mw. rewrite Ec in V.
        apply V, HM. by rewrite Ei in Mw.
      + apply ret_ok in V as (_ & _ & <-). done.
    - apply ret_ok in V as (_ & _ & <-). split; [done|]. congruence. }
  unfold repo_UpdateUserGroup in H. apply bind_ok in H as (at_ & n4 & t4 & B & H). apply now_ok in B as (_ & _ & <-).
  apply bind_ok in H as (count & n5 & t5 & B & H). apply stmt_ok in B as (_ & _ & [= <- <-]).
  skip_pure H. breflect. apply UserGroupByID_ok in H as (-> & _).
  assert (T : TrimSpace (ug_ID current) = ug_ID g0) by (rewrite Ec; by apply I).
  rewrite Ci, T, Co in *.
  destruct (existsb (group_here (TrimSpace org) (ug_ID g0)) (user_groups t)) eqn:X.
  - apply existsb_exists in X as (g1 & Hg1 & X). apply list_elem_of_In in Hg1. unfold group_here in X. breflect.
    assert (g1 = g0) as -> by (apply (group_unique t); congruence || apply I || done).
    assert (TrimSpace org = org) as -> by congruence.
    apply (set_group_inv t org (ug_ID g0) clean _ g0 (ug_Roles current)); try done. intros r Hr Hh. apply HR.
    rewrite Ei in Hh. eauto.
  - exfalso. unfold count_if in *. rewrite existsb_false in X.
    destruct (List.filter _ (user_groups t)) as [|y l] eqn:F; [done|].
    assert (In y (y :: l)) as Hy by (by left). rewrite <- F in Hy. apply filter_In in Hy as [Hy Z].
    rewrite X in Z; [done|]. by apply list_elem_of_In.
Qed.

Lemma new_group_inv t g :
  inv t -> TrimSpace (ug_ID g) = ug_ID g -> ug_ID g ∉ map ug_ID (user_groups t) ->
  inv (t <| user_groups := user_groups t ++ [g] |>).
Proof.
  intros [W Sep] T New. set (t' := t <| user_groups := _ |>).
  split.
  - destruct W. split; try done.
    + unfold t'. cbn. apply NoDup_map_snoc; [done|]. intros y Hy E. apply New. rewrite <- E.
      by apply list_elem_of_In, in_map, list_elem_of_In.
    + intros x Hx. unfold t' in Hx. cbn in Hx. apply elem_of_app in Hx as [Hx|Hx]; [by apply ok_group_ids0|].
      by apply list_elem_of_singleton in Hx as ->.
    + intros x Hx. unfold t'. cbn. rewrite map_app. apply elem_of_app. left. by apply ok_group_roles_groups0.
    + intros m Hm. destruct (ok_members0 m Hm) as (x & row & Hx & R). exists x, row. split; [|done].
      unfold t'. cbn. apply elem_of_app. by left.
  - intros row Hrow. eapply no_conflict_mono; [done| |exact (Sep row Hrow)].
    intros k (r & Hr & K & [H|H]); exists r; (split_and!; [done..|]); [by left|right].
    apply held_by_group_spec in H as (x & Hx & E & Co & A & Mx). apply held_by_group_spec.
    exists x. split_and!; try done. apply group_active_spec in A as (y & Hy & Ey & S). unfold t' in Hy. cbn in Hy.
    apply elem_of_app in Hy as [Hy|Hy]; [apply group_active_spec; eauto|].
    apply list_elem_of_singleton in Hy as ->. exfalso. apply New. rewrite Ey.
    by apply (ok_group_roles_groups _ W).
Qed.

Lemma CreateUserGroup_inv actor org req e n t u n' t' :
  (forall k, TrimSpace (uuids e k) = uuids e k) ->
  CreateUserGroup actor org req e n t = (Ok u, n', t') -> inv t -> inv t'.
Proof.
  intros T H I. unfold CreateUserGroup in H. skip H reads_authorize.
  apply bind_ok in H as (clean & ? & ? & B & H). apply lift_ok in B as (B & _ & <-).
  unfold repo_CreateUserGroup in H. apply bind_ok in H as (at_ & n4 & t4 & B' & H). apply now_ok in B' as (_ & _ & <-).
  apply bind_ok in H as (id & n5 & t5 & B' & H). apply NewString_ok in B' as (<- & _ & <-).
  apply bind_ok in H as (? & n6 & t6 & B' & H). apply stmt_ok in B' as (_ & _ & B').
  apply ret_ok in H as (_ & _ & <-). unfold insert_group in B'.
  destruct (existsb _ (user_groups t)) eqn:D; [discriminate|]. injection B' as ? <-.
  apply new_group_inv; [done|apply T|]. intros X. cbn in X.
  apply list_elem_of_In, in_map_iff in X as (y & E & Hy). rewrite existsb_false in D.
  specialize (D y). apply list_elem_of_In in Hy. specialize (D Hy). cbn in D. by rewrite E, seqb_refl in D.
Qed.

(** ** Operations that leave the rules alone *)

Lemma keeps_ListRoles I org : keeps I (ListRoles org).
Proof. apply reads_keeps, reads_ListRoles. Qed.
Lemma keeps_UserByID I user : keeps I (UserByID user).
Proof. apply reads_keeps, reads_UserByID. Qed.
Lemma keeps_grant_actor I actor org : keeps I (authorizeGrantActor actor org : M unit).
Proof. apply reads_keeps, reads_authorize. Qed.
Lemma keeps_in_directory I {A} (m : Database.M Directory.Tables A) : reads m -> keeps I (in_directory m).
Proof. intros R. apply reads_keeps, zoom_view; [apply put_directory_view|done]. Qed.
#[local] Hint Resolve keeps_ListRoles keeps_UserByID keeps_grant_actor : forge.

Lemma same_map_roles t0 t p f :
  (forall r, role_triple (f r) = role_triple r) -> same_roles t0 t ->
  same_roles t0 (t <| roles := update_where p f (roles t) |>).
Proof.
  intros F []. split; try done. cbn. rewrite map_update_where; done.
Qed.

Lemma UpdateRoleDataScope_same t0 actor org key scope ids :
  keeps (same_roles t0) (UpdateRoleDataScope actor org key scope ids).
Proof.
  unfold UpdateRoleDataScope, check_custom_scope, repo_ReplaceRoleDataScope,
    role_by_key. keeps_walk.
  - apply keeps_in_directory, keeps_reads. intros d. unfold ListDepartmentsForUpdate. keeps_walk.
  - apply keeps_exec. intros s H. by apply same_map_roles.
  - apply keeps_exec. intros s H. by apply same_map_roles.
  - apply keeps_stmt. intros s w s' H E. unfold insert_scope_department in E. guards E. injection E as <- <-.
    by apply same_map_roles.
Qed.

Lemma UpdateRolePermissions_same t0 actor org key ids :
  keeps (same_roles t0) (UpdateRolePermissions actor org key ids).
Proof.
  unfold UpdateRolePermissions, ListPermissions, repo_ReplaceRolePermissions,
    role_by_key. keeps_walk.
  - apply keeps_exec. intros s []. by split.
  - apply keeps_stmt. intros s w s' [] E. unfold insert_role_permission in E. guards E. injection E as <- <-.
    by split.
Qed.

Lemma CreateTemporaryRoleGrant_same t0 actor user key reason approval from until :
  keeps (same_roles t0) (CreateTemporaryRoleGrant actor user key reason approval from until).
Proof.
  unfold CreateTemporaryRoleGrant, repo_CreateTemporaryRoleGrant,
    validateRoleCombination, RoleConflictRules. keeps_walk.
  - apply keeps_stmt. intros s w s' [] E. unfold insert_grant in E. guards E. injection E as <- <-. by split.
Qed.

Lemma RevokeTemporaryRoleGrant_same t0 actor grant reason :
  keeps (same_roles t0) (RevokeTemporaryRoleGrant actor grant reason).
Proof.
  unfold RevokeTemporaryRoleGrant, repo_RevokeTemporaryRoleGrant. keeps_walk.
  apply keeps_stmt. intros s w s' [] [= <- <-]. by split.
Qed.

(** ** The status of users and new users *)

Lemma set_status_inv t p status now :
  inv t -> inv (t <| users := update_where p (set_status status now) (users t) |>).
Proof.
  intros [W Sep]. set (t' := t <| users := _ |>).
  assert (Hu : forall row', row' ∈ users t' -> exists row, row ∈ users t /\ uid row' = uid row /\ uorg row' = uorg row).
  { intros row' H. unfold t' in H. cbn in H. apply elem_of_update_where in H as (row & Hrow & ->). exists row.
    by destruct (p row). }
  assert (Hids : map uid (users t') = map uid (users t)) by (by apply map_update_where).
  split.
  - destruct W. split; rewrite ?Hids; try done. intros m Hm.
    destruct (ok_members0 m Hm) as (g & row & Hg & E1 & Hrow & E2 & E3).
    exists g, (if p row then set_status status now row else row). split_and!; try done.
    + apply elem_of_update_where. eauto.
    + by destruct (p row).
    + by destruct (p row).
  - intros row' H. apply Hu in H as (row & Hrow & -> & ->).
    eapply no_conflict_mono; [done| |exact (Sep row Hrow)]. done.
Qed.

Lemma repo_SetUserStatus_ok org user status e n t u n' t' :
  repo_SetUserStatus org user status e n t = (Ok u, n', t') ->
  exists row now kept, row ∈ users t /\ uid row = user /\ uorg row = org /\
    t' = t <| users := update_where (fun r => (uid r =s user) && (uorg r =s org)) (set_status status now) (users t) |>
           <| sessions := kept |> /\
    (ustatus row = "ACTIVE" -> status <> "ACTIVE" -> admin_grants org user t <> [] -> 2 <= llen (active_admins org t)).
Proof.
  intros H. apply WithTx_run in H as (e' & n0 & k & _ & H).
  apply bind_ok in H as (row & n1 & t1 & A & H). apply select_row_here in A as (-> & Hrow & E). breflect.
  skip_pure H. breflect. apply bind_ok in H as (? & n4 & t4 & L & H).
  assert (t4 = t /\ (ustatus row = "ACTIVE" -> status <> "ACTIVE" -> admin_grants org user t <> [] ->
            2 <= llen (active_admins org t))) as [-> Hlast].
  { destruct ((ustatus row =s "ACTIVE") && (status <>s "ACTIVE")) eqn:B.
    - apply bind_ok in L as (c & n3 & t3 & C & L). apply query_ok in C as (_ & _ & C & <-).
      destruct (0 <? c) eqn:P.
      + unfold lockActiveSystemAdmins in L. run. breflect. split; [done|]. intros. lia.
      + apply ret_ok in L as (_ & _ & <-). split; [done|]. intros _ _ G. exfalso.
        destruct (admin_grants org user t) as [|g l]; [done|]. subst c. rewrite llen_cons in P.
        pose proof (llen_nonneg l). breflect. lia.
    - apply ret_ok in L as (_ & _ & <-). split; [done|]. intros Ha Hs. rewrite Ha, seqb_refl in B.
      apply String.eqb_neq in Hs. by rewrite Hs in B. }
  apply bind_ok in H as (at_ & n5 & t5 & B & H). apply now_ok in B as (_ & _ & <-).
  apply bind_ok in H as (count & n6 & t6 & B & H). apply stmt_ok in B as (_ & _ & [= <- <-]). skip_pure H.
  destruct (status <>s "ACTIVE").
  - apply exec_ok in H as (_ & _ & ->). cbn. eexists row, _, _. split_and!; done.
  - apply ret_ok in H as (_ & _ & <-). exists row, (UTC at_), (sessions t). split_and!; done.
Qed.

Lemma SetUserStatus_inv org user status e n t u n' t' :
  SetUserStatus org user status e n t = (Ok u, n', t') -> inv t -> inv t'.
Proof.
  intros H I. unfold SetUserStatus in H. skip_pure H.
  apply repo_SetUserStatus_ok in H as (row & now & kept & _ & _ & _ & -> & _).
  refine (same_inv _ _ _ (set_status_inv t _ _ now I)). by split.
Qed.

Lemma in_settings_reads {A} (m : Database.M Settings A) : reads m -> reads (in_settings m).
Proof. apply zoom_view. by intros []. Qed.

Lemma reads_resolve s org : reads (resolveSecurityPolicy s org).
Proof. apply keeps_reads. intros t. unfold resolveSecurityPolicy, SecuritySettings. keeps_walk. Qed.

Lemma reads_organization_active org : reads (enforceOrganizationActive org).
Proof. apply keeps_reads. intros t. unfold enforceOrganizationActive, OrganizationByID. keeps_walk. Qed.

Lemma CreateUser_ok `{UnicodeTables} `{Argon2} s actor org login display raw keys e n t u n' t' :
  CreateUser s actor org login display raw keys e n t = (Ok u, n', t') ->
  exists row ids keys, uorg row = org /\ ustatus row = "ACTIVE" /\ uid row ∉ map uid (users t) /\
    t' = t <| users := users t ++ [row] |> <| user_roles := user_roles t ++ map (pair (uid row)) ids |> /\
    Forall2 (role_found t org) keys ids /\ (NoDup (user_roles t) -> NoDup (user_roles t')) /\
    no_conflict t org (fun k => k ∈ keys).
Proof.
  intros R. unfold CreateUser in R. skip R reads_authorize.
  apply bind_ok in R as (? & ? & ? & A & R). apply queryR_ok in A as (_ & _ & _ & <-).
  skip R reads_organization_active. skip_pure R. skip_pure R. skip_pure R.
  apply bind_ok in R as (? & ? & ? & V & R). apply validateRoleCombination_ok in V as [-> V].
  apply bind_ok in R as (? & ? & ? & A2 & R).
  apply reads_ok in A2 as ->; [|apply in_settings_reads, reads_resolve]. skip_pure R.
  apply bind_ok in R as (? & ? & ? & A3 & R). apply reads_ok in A3 as ->;
    [|apply keeps_reads; intros ?; unfold Hash; keeps_walk].
  apply repo_CreateUserWithRoles_ok in R as (row & ids & E1 & E2 & New & -> & F & N).
  eexists row, ids, _. split_and!; done.
Qed.

Lemma CreateUser_inv `{UnicodeTables} `{Argon2} s actor org login display raw keys e n t u n' t' :
  CreateUser s actor org login display raw keys e n t = (Ok u, n', t') -> inv t -> inv t'.
Proof.
  intros R I. apply CreateUser_ok in R as (row & ids & ks & Eo & _ & New & -> & F & N & C).
  eapply new_user_inv; try done. by apply N, I.
Qed.

(** ** Counting administrators *)

Lemma elem_of_admin_grants org user t r :
  r ∈ admin_grants org user t <->
  exists role, (user, role) ∈ user_roles t /\ r ∈ roles t /\ admin_role org role r = true.
Proof.
  unfold admin_grants. rewrite list_elem_of_In, in_flat_map. split.
  - intros ([u role] & Hu & Hr). destruct (u =s user) eqn:E; [|done]. breflect. subst.
    apply list_elem_of_In, elem_of_select in Hr as [? ?]. exists role. split_and!; try done. by apply list_elem_of_In.
  - intros (role & Hu & Hr & Ha). exists (user, role). split; [by apply list_elem_of_In|].
    rewrite seqb_refl. by apply list_elem_of_In, elem_of_select.
Qed.

Lemma elem_of_active_admins org t u :
  u ∈ active_admins org t <->
  exists row, row ∈ users t /\ uid row = u /\ uorg row = org /\ ustatus row = "ACTIVE" /\ admin_grants org u t <> [].
Proof.
  unfold active_admins. rewrite list_elem_of_In, in_flat_map. split.
  - intros (row & Hrow & Hu). apply list_elem_of_In, elem_of_select in Hrow as [Hrow E]. breflect.
    apply in_map_iff in Hu as (r & <- & Hr). exists row. split_and!; try done. intros X. by rewrite X in Hr.
  - intros (row & Hrow & <- & Eo & Es & G). exists row. split.
    + apply list_elem_of_In, elem_of_select. split; [done|]. by rewrite Eo, Es, !seqb_refl.
    + destruct (admin_grants org (uid row) t); [done|]. by left.
Qed.

(** A user holds the role [system_admin] of an organization at most once. *)
Lemma admin_grants_once org user t : tables_ok t -> llen (admin_grants org user t) <= 1.
Proof.
  intros W. assert (U : forall r r', r ∈ roles t -> r' ∈ roles t ->
    rl_organization_id r = org -> rl_role_key r = "system_admin" ->
    rl_organization_id r' = org -> rl_role_key r' = "system_admin" -> r = r').
  { intros r r' Hr Hr' ? ? ? ?. eapply (NoDup_map_eq (fun r => (rl_organization_id r, rl_role_key r)));
      [apply W|done..|congruence]. }
  assert (S1 : forall role, llen (select (admin_role org role) (roles t)) <= 1).
  { intros role. apply (select_at_most_one rl_id); [apply W|]. unfold admin_role.
    intros x y Hx Hy Px Py. breflect. congruence. }
  unfold admin_grants. pose proof (ok_user_roles _ W) as N. induction (user_roles t) as [|[u role] l IH]; [done|].
  apply NoDup_cons in N as [Hn N]. cbn [flat_map]. rewrite llen_app. specialize (IH N).
  destruct (u =s user) eqn:E; [|rewrite llen_nil; lia]. breflect. subst u.
  destruct (select (admin_role org role) (roles t)) as [|r1 l1] eqn:S; [rewrite llen_nil; lia|].
  specialize (S1 role). rewrite S in S1.
  assert (flat_map (fun '(u, r) => if u =s user then select (admin_role org r) (roles t) else []) l = []) as ->;
    [|rewrite llen_nil; lia].
  destruct (flat_map _ l) as [|r2 l2] eqn:F; [done|exfalso].
  assert (H2 : In r2 (r2 :: l2)) by (by left). rewrite <- F in H2. apply in_flat_map in H2 as ([u2 role2] & Hl & H2).
  destruct (u2 =s user) eqn:E2; [|done]. breflect. subst u2.
  assert (H1 : In r1 (r1 :: l1)) by (by left). rewrite <- S in H1.
  apply list_elem_of_In, elem_of_select in H1 as [H1 A1]. apply list_elem_of_In, elem_of_select in H2 as [H2 A2].
  unfold admin_role in A1, A2. breflect. assert (r1 = r2) as -> by (by apply U).
  apply Hn. apply list_elem_of_In. congruence.
Qed.

Lemma NoDup_flat_map_once {A} (f : A -> string) (g : A -> list RoleTableRow) l :
  NoDup (map f l) -> (forall x, llen (g x) <= 1) -> NoDup (flat_map (fun x => map (fun _ => f x) (g x)) l).
Proof.
  intros N H. induction l as [|x l IH]; cbn; [constructor|]. cbn in N. apply NoDup_cons in N as [Hx N].
  apply NoDup_app. split_and!; [| |by apply IH].
  - specialize (H x). destruct (g x) as [|r [|r' l']]; cbn.
    + constructor.
    + apply NoDup_singleton.
    + exfalso. rewrite !llen_cons in H. pose proof (llen_nonneg l'). lia.
  - intros y Hy Hr. apply list_elem_of_In, in_map_iff in Hy as (_ & <- & _).
    apply list_elem_of_In, in_flat_map in Hr as (z & Hz & Hr). apply in_map_iff in Hr as (_ & E & _).
    apply Hx. rewrite <- E. by apply list_elem_of_In, in_map.
Qed.

(** Two rows of the count are two people. *)
Lemma another_admin org t user : tables_ok t -> 2 <= llen (active_admins org t) ->
  exists u, u ∈ active_admins org t /\ u <> user.
Proof.
  intros W L. assert (N : NoDup (active_admins org t)).
  { apply NoDup_flat_map_once; [apply NoDup_map_select, W|]. intros x. by apply admin_grants_once. }
  destruct (active_admins org t) as [|a [|b l]]; [unfold llen in L; cbn in L; lia..|].
  apply NoDup_cons in N as [Ha _]. destruct (decide (a = user)) as [->|]; [exists b|exists a].
  - split; [right; constructor|]. intros ->. apply Ha. constructor.
  - split; [constructor|done].
Qed.

Definition administered (org : string) (t : Tables) : Prop := active_admins org t <> [].

Lemma administered_by org t u : u ∈ active_admins org t -> administered org t.
Proof. intros H E. rewrite E in H. inversion H. Qed.

Lemma administered_exists org t : administered org t -> exists u, u ∈ active_admins org t.
Proof. unfold administered. destruct (active_admins org t) as [|u l]; [done|]. exists u. constructor. Qed.

(** An administrator who is left alone stays one. *)
Lemma admin_stays org t t' u :
  u ∈ active_admins org t ->
  (forall row, row ∈ users t -> uid row = u -> exists row', row' ∈ users t' /\ uid row' = uid row /\
     uorg row' = uorg row /\ ustatus row' = ustatus row) ->
  (forall r, (u, r) ∈ user_roles t -> (u, r) ∈ user_roles t') ->
  (forall r, r ∈ roles t -> exists r', r' ∈ roles t' /\ role_triple r' = role_triple r) ->
  u ∈ active_admins org t'.
Proof.
  intros H HU HR HT. apply elem_of_active_admins in H as (row & Hrow & Eu & Eo & Es & G).
  destruct (HU row Hrow Eu) as (row' & Hrow' & E1 & E2 & E3). apply elem_of_active_admins.
  exists row'. split_and!; try congruence. destruct (admin_grants org u t) as [|r l] eqn:X; [done|].
  assert (Hr : r ∈ admin_grants org u t) by (rewrite X; constructor).
  apply elem_of_admin_grants in Hr as (role & Hur & Hr & Ha).
  destruct (HT r Hr) as (r' & Hr' & E). unfold role_triple in E. injection E as F1 F2 F3.
  assert (Hin : r' ∈ admin_grants org u t').
  { apply elem_of_admin_grants. exists role. split_and!; [by apply HR|done|]. unfold admin_role in *. by rewrite F1, F2, F3. }
  intros E. rewrite E in Hin. inversion Hin.
Qed.

Lemma same_administered t t' org : same_roles t t' -> administered org t -> administered org t'.
Proof.
  intros S H. apply administered_exists in H as (u & H). eapply administered_by, admin_stays; [exact H|..].
  - intros row Hrow _. destruct (map_eq_elem user_triple _ _ row (eq_sym (same_users _ _ S)) Hrow) as (y & Hy & E).
    unfold user_triple in E. injection E as E1 E2 E3. exists y. done.
  - intros r Hr. by rewrite (same_user_roles _ _ S).
  - intros r Hr. destruct (map_eq_elem role_triple _ _ r (eq_sym (same_role_rows _ _ S)) Hr) as (y & Hy & E). eauto.
Qed.

Lemma UpdateUserRoles_administered actor org user keys e n t u n' t' o :
  UpdateUserRoles actor org user keys e n t = (Ok u, n', t') -> inv t -> administered o t -> administered o t'.
Proof.
  intros H [W _] A. apply UpdateUserRoles_ok in H as (clean & n0 & H & _).
  apply repo_ReplaceUserRoles_ok in H as (row & ids & Hrow & Eu & Eo & -> & F & _ & Hlast).
  set (t' := t <| user_roles := _ |>).
  assert (Others : forall a o, a <> user -> a ∈ active_admins o t -> administered o t').
  { intros a o' Ne Ha. eapply administered_by, admin_stays; [exact Ha|eauto| |eauto].
    intros r Hr. unfold t'. cbn. apply elem_of_app. left. apply elem_of_delete_where. split; [done|].
    by apply String.eqb_neq. }
  apply administered_exists in A as (a & Ha). destruct (decide (a = user)) as [->|Ne]; [|by eapply Others].
  pose proof Ha as Hs. apply elem_of_active_admins in Hs as (row' & Hrow' & E1 & E2 & E3 & G).
  assert (row' = row) as -> by (apply (user_unique t); congruence || done).
  assert (o = org) as -> by congruence.
  destruct (decide ("system_admin" ∈ clean)) as [K|K].
  - apply list_elem_of_lookup_1 in K as (i & K).
    destruct (Forall2_lookup_l _ _ _ _ _ F K) as (id & Hid & r & Hr & R1 & R2 & R3).
    apply (administered_by _ _ user), elem_of_active_admins. exists row. split_and!; try done.
    assert (Hin : r ∈ admin_grants org user t').
    { apply elem_of_admin_grants. exists id. split_and!; [|done|].
      - unfold t'. cbn. apply elem_of_app. right. apply list_elem_of_In, in_map, list_elem_of_In.
        by eapply list_elem_of_lookup_2.
      - unfold admin_role. by rewrite R1, R2, R3, !seqb_refl. }
    intros X. rewrite X in Hin. inversion Hin.
  - destruct (another_admin org t user W (Hlast E3 G K)) as (b & Hb & Nb). by eapply Others.
Qed.

Lemma SetUserStatus_administered org user status e n t u n' t' o :
  SetUserStatus org user status e n t = (Ok u, n', t') -> inv t -> administered o t -> administered o t'.
Proof.
  intros H [W _] A. unfold SetUserStatus in H. skip_pure H.
  apply repo_SetUserStatus_ok in H as (row & now & kept & Hrow & Eu & Eo & -> & Hlast).
  set (status' := ToUpper (TrimSpace status)) in *. set (t' := _ <| sessions := kept |>).
  assert (Others : forall a o, (a <> user \/ status' = "ACTIVE") -> a ∈ active_admins o t -> administered o t').
  { intros a o' Ne Ha.
    eapply administered_by, admin_stays; [exact Ha| |eauto|eauto]. intros r Hr Er.
    exists (if (uid r =s user) && (uorg r =s org) then set_status status' now r else r). split_and!.
    - unfold t'. cbn. apply elem_of_update_where. eauto.
    - by destruct ((uid r =s user) && (uorg r =s org)).
    - by destruct ((uid r =s user) && (uorg r =s org)).
    - destruct ((uid r =s user) && (uorg r =s org)) eqn:B; [|done]. breflect. destruct Ne as [Ne|Ne]; [congruence|].
      apply elem_of_active_admins in Ha as (r' & Hr' & E1 & _ & E3 & _).
      assert (r' = r) as -> by (apply (user_unique t); congruence || done). cbn. congruence. }
  apply administered_exists in A as (a & Ha). destruct (decide (a = user)) as [->|Ne]; [|eapply Others; eauto].
  destruct (decide (status' = "ACTIVE")) as [Es|Es]; [eapply Others; eauto|].
  apply elem_of_active_admins in Ha as (row' & Hrow' & E1 & E2 & E3 & G).
  assert (row' = row) as -> by (apply (user_unique t); congruence || done).
  assert (o = org) as -> by congruence.
  destruct (another_admin org t user W (Hlast E3 Es G)) as (b & Hb & Nb). eapply Others; eauto.
Qed.

Lemma CreateUser_administered `{UnicodeTables} `{Argon2} s actor org login display raw keys e n t u n' t' o :
  CreateUser s actor org login display raw keys e n t = (Ok u, n', t') -> administered o t -> administered o t'.
Proof.
  intros R A. apply CreateUser_ok in R as (row & ids & ks & _ & _ & _ & -> & _).
  apply administered_exists in A as (a & Ha). eapply administered_by, admin_stays; [exact Ha|..]; [| |eauto].
  - intros r Hr _. exists r. split; [|done]. cbn. apply elem_of_app. by left.
  - intros r Hr. cbn. apply elem_of_app. by left.
Qed.

Lemma group_ops_administered org t t' :
  users t' = users t -> user_roles t' = user_roles t -> roles t' = roles t -> administered org t -> administered org t'.
Proof. intros E1 E2 E3. unfold administered, active_admins, admin_grants. by rewrite E1, E2, E3. Qed.

(** What the operations on groups leave alone. *)
Definition same_grants (t t' : Tables) : Prop :=
  users t' = users t /\ user_roles t' = user_roles t /\ roles t' = roles t.

Lemma keeps_combination I org keys : keeps I (validateRoleCombination org keys).
Proof. unfold validateRoleCombination, RoleConflictRules. keeps_walk. Qed.
Lemma keeps_group_members I org group keys members : keeps I (validateGroupMembers org group keys members).
Proof.
  unfold validateGroupMembers, RolesForUserExcludingGroup. keeps_walk.
Qed.
Lemma keeps_UserGroupByID I org group : keeps I (UserGroupByID org group).
Proof. unfold UserGroupByID, UserGroupMemberIDs, UserGroupRoleKeys. keeps_walk. Qed.
#[local] Hint Resolve keeps_combination keeps_group_members keeps_UserGroupByID : forge.

Ltac same_write H E :=
  let s := fresh in let w := fresh in let s' := fresh in
  first [apply keeps_exec; intros s H; exact H
        |apply keeps_stmt; intros s w s' H E; first [injection E as ? <-|guards E; injection E as ? <-]; exact H].

Lemma CreateUserGroup_grants t0 actor org req : keeps (same_grants t0) (CreateUserGroup actor org req).
Proof.
  unfold CreateUserGroup, repo_CreateUserGroup, insert_group. keeps_walk. same_write H E.
Qed.

Lemma UpdateUserGroup_grants t0 actor org group req : keeps (same_grants t0) (UpdateUserGroup actor org group req).
Proof.
  unfold UpdateUserGroup, repo_UpdateUserGroup. keeps_walk. same_write H E.
Qed.

Lemma UpdateUserGroupMembers_grants t0 actor org group members :
  keeps (same_grants t0) (UpdateUserGroupMembers actor org group members).
Proof.
  unfold UpdateUserGroupMembers, repo_ReplaceUserGroupMembers, group_by_id, insert_members, user_by_id, insert_member.
  keeps_walk; same_write H E.
Qed.

Lemma UpdateUserGroupRoles_grants t0 actor org group keys :
  keeps (same_grants t0) (UpdateUserGroupRoles actor org group keys).
Proof.
  unfold UpdateUserGroupRoles, repo_ReplaceUserGroupRoles, group_by_id, insert_group_roles, role_by_key,
    insert_group_role. keeps_walk; same_write H E.
Qed.

(** ** Histories *)

Section histories.
Context `{UnicodeTables} `{Argon2}.
Variable service : Service.

(** The operations of the service that touch roles, with any arguments. *)
Inductive role_operation : forall A, M A -> Prop :=
| op_CreateUser actor org login display raw keys :
    role_operation _ (CreateUser service actor org login display raw keys)
| op_UpdateUserRoles actor org user keys : role_operation _ (UpdateUserRoles actor org user keys)
| op_SetUserStatus org user status : role_operation _ (SetUserStatus org user status)
| op_CreateUserGroup actor org req : role_operation _ (CreateUserGroup actor org req)
| op_UpdateUserGroup actor org group req : role_operation _ (UpdateUserGroup actor org group req)
| op_UpdateUserGroupMembers actor org group members :
    role_operation _ (UpdateUserGroupMembers actor org group members)
| op_UpdateUserGroupRoles actor org group keys : role_operation _ (UpdateUserGroupRoles actor org group keys)
| op_UpdateRolePermissions actor org key keys : role_operation _ (UpdateRolePermissions actor org key keys)
| op_UpdateRoleDataScope actor org key scope ids : role_operation _ (UpdateRoleDataScope actor org key scope ids)
| op_CreateTemporaryRoleGrant actor user key reason approval from until :
    role_operation _ (CreateTemporaryRoleGrant actor user key reason approval from until)
| op_RevokeTemporaryRoleGrant actor grant reason :
    role_operation _ (RevokeTemporaryRoleGrant actor grant reason).

(** One request: the handlers run the operation in a transaction, which any
    failure rolls back, or in one of their own that goes on when it succeeds; a
    [uuid.NewString] has no spaces.  Operations on
    accounts, sessions and the directory change none of the tables of roles. *)
Inductive role_step : Tables -> Tables -> Prop :=
| step_operation A (m : M A) e n t r n' t' :
    role_operation A m -> in_tx e = false \/ is_ok r = true -> (forall k, TrimSpace (uuids e k) = uuids e k) ->
    WithTx m e n t = (r, n', t') -> role_step t t'
| step_other t t' : same_roles t t' -> role_step t t'.

Definition history : Tables -> Tables -> Prop := rtc role_step.

(** A request either leaves the tables or is a run of its operation. *)
Lemma step_cases A (m : M A) e n t r n' t' :
  in_tx e = false \/ is_ok r = true -> WithTx m e n t = (r, n', t') ->
  t' = t \/ exists e' n0 k a, uuids e' = uuids e /\ m e' n0 t = (Ok a, k, t').
Proof.
  intros T. unfold WithTx. destruct (in_tx e) eqn:I.
  { destruct T as [T|T]; [discriminate|]. destruct r as [a|]; [|discriminate]. intros E. right. by exists e, n, n', a. }
  destruct (faults e n); [intros [= _ _ <-]; by left|].
  destruct (m _ _ _) as [[[a|err] k] s1] eqn:E; [|intros [= _ _ <-]; by left].
  destruct (faults e k); intros [= _ _ <-]; [by left|right].
  by exists (e <| in_tx := true |>), (S n), k, a.
Qed.

Lemma keeps_run {I : Tables -> Prop} {A} (m : M A) e n t r k t' :
  keeps I m -> m e n t = (r, k, t') -> I t -> I t'.
Proof. intros K E It. specialize (K e n t It). by rewrite E in K. Qed.

Lemma operation_inv A (m : M A) e n t a n' t' :
  role_operation A m -> (forall k, TrimSpace (uuids e k) = uuids e k) -> m e n t = (Ok a, n', t') ->
  inv t -> inv t'.
Proof.
  intros O T E I. destruct O.
  - by eapply CreateUser_inv.
  - by eapply UpdateUserRoles_inv.
  - by eapply SetUserStatus_inv.
  - by eapply CreateUserGroup_inv.
  - by eapply UpdateUserGroup_inv.
  - by eapply UpdateUserGroupMembers_inv.
  - by eapply UpdateUserGroupRoles_inv.
  - eapply (same_inv t); [|done]. eapply keeps_run; [apply UpdateRolePermissions_same|exact E|apply same_roles_refl].
  - eapply (same_inv t); [|done]. eapply keeps_run; [apply UpdateRoleDataScope_same|exact E|apply same_roles_refl].
  - eapply (same_inv t); [|done]. eapply keeps_run; [apply CreateTemporaryRoleGrant_same|exact E|apply same_roles_refl].
  - eapply (same_inv t); [|done]. eapply keeps_run; [apply RevokeTemporaryRoleGrant_same|exact E|apply same_roles_refl].
Qed.

Lemma operation_administered A (m : M A) e n t a n' t' o :
  role_operation A m -> m e n t = (Ok a, n', t') -> inv t -> administered o t -> administered o t'.
Proof.
  intros O E I Ad. assert (G : same_grants t t' -> administered o t').
  { intros (E1 & E2 & E3). by eapply group_ops_administered. }
  destruct O.
  - by eapply CreateUser_administered.
  - by eapply UpdateUserRoles_administered.
  - by eapply SetUserStatus_administered.
  - apply G. eapply keeps_run; [apply CreateUserGroup_grants|exact E|done].
  - apply G. eapply keeps_run; [apply UpdateUserGroup_grants|exact E|done].
  - apply G. eapply keeps_run; [apply UpdateUserGroupMembers_grants|exact E|done].
  - apply G. eapply keeps_run; [apply UpdateUserGroupRoles_grants|exact E|done].
  - eapply (same_administered t); [|done]. eapply keeps_run; [apply UpdateRolePermissions_same|exact E|apply same_roles_refl].
  - eapply (same_administered t); [|done]. eapply keeps_run; [apply UpdateRoleDataScope_same|exact E|apply same_roles_refl].
  - eapply (same_administered t); [|done]. eapply keeps_run; [apply CreateTemporaryRoleGrant_same|exact E|apply same_roles_refl].
  - eapply (same_administered t); [|done]. eapply keeps_run; [apply RevokeTemporaryRoleGrant_same|exact E|apply same_roles_refl].
Qed.

Lemma step_inv t t' : role_step t t' -> inv t -> inv t'.
Proof.
  intros [A m e n t1 r n' t2 O T U E|t1 t2 S] I; [|by eapply same_inv].
  apply step_cases in E as [->|(e' & n0 & k & a & Eu & E)]; [done| |done].
  eapply operation_inv; [exact O| |exact E|done]. intros j. by rewrite Eu.
Qed.

Lemma history_inv t t' : history t t' -> inv t -> inv t'.
Proof. induction 1; [done|]. intros I. eauto using step_inv. Qed.

(** C18.  Segregation of duties: through every history of the operations on
    users, roles, groups and grants, whatever fails, nobody comes to hold two
    roles that an active rule of the organization keeps apart, counting the
    roles given directly and those of active groups. *)
Theorem duties_stay_separated t t' : history t t' -> tables_ok t -> separated t -> separated t'.
Proof. intros Hh W S. by destruct (history_inv t t' Hh (conj W S)). Qed.

Lemma history_administered t t' o : history t t' -> inv t -> administered o t -> administered o t'.
Proof.
  induction 1 as [|t t1 t' St _ IH]; [done|].
  intros I Ad. apply IH; [by eapply step_inv|].
  destruct St as [A m e n t1 r n' t2 O T U E|t1 t2 S]; [|by eapply same_administered].
  apply step_cases in E as [->|(e' & n0 & k & a & Eu & E)]; [done| |done]. by eapply operation_administered.
Qed.

(** C19.  An organization that has an active system administrator never loses
    the last one: not by a change of roles, not by disabling a user, whatever
    the order of the requests and whatever fails. *)
Theorem the_last_administrator_stays t t' o :
  history t t' -> tables_ok t -> separated t -> administered o t -> administered o t'.
Proof. intros Hh W S. by eapply history_administered. Qed.
End histories.

(** ** Examples *)

(** The rule of separation as a test. *)
Definition separated_test (t : Tables) : bool :=
  forallb (fun row => forallb (fun r =>
    negb ((rr_status r =s "ACTIVE") && (rule_OrganizationID (rr_rule r) =s uorg row) &&
      let keys := role_keys (fun id => held_directly (uid row) t id || held_by_group every_group (uid row) t id) t in
      contains keys (rule_RoleA (rr_rule r)) && contains keys (rule_RoleB (rr_rule r)))) (conflict_rules t)) (users t).

Lemma separated_by_test t : separated_test t = true -> separated t.
Proof.
  intros H row Hrow r Hr Hs Ho [A B]. unfold separated_test in H. rewrite forallb_forall in H.
  apply list_elem_of_In in Hrow. specialize (H row Hrow). rewrite forallb_forall in H.
  apply list_elem_of_In in Hr. specialize (H r Hr). rewrite Hs, Ho, !seqb_refl in H. cbn in H.
  assert (K : forall k, lasting (uid row) t k ->
    contains (role_keys (fun id => held_directly (uid row) t id || held_by_group every_group (uid row) t id) t) k = true).
  { intros k (x & Hx & E & D). apply contains_spec, elem_of_role_keys. exists x. split_and!; try done.
    by apply orb_true_iff. }
  by rewrite (K _ A), (K _ B) in H.
Qed.

Module examples.
Definition user (id : string) : userRow :=
  mkUserRow (mkUser id "o" id id "ACTIVE" false 0 None 1 1 1 [] []) "hash".
Definition role (id key : string) : RoleTableRow := mkRole id "o" key key DataScopeOrganization [] 1.
Definition rule (a b : string) : RuleRow := mkRuleRow (mkRule (a +:+ b) "o" a b "duties") "ACTIVE" 1.

(** An administrator, a security officer and a user; a group of auditors. *)
Definition tables : Tables :=
  mkTables [mkOrganization "o" "main" "Main" "ACTIVE" "" 0 0 1 1]
    [user "adm"; user "sec"; user "bob"]
    [role "r1" "system_admin"; role "r2" "security_admin"; role "r3" "auditor"; role "r4" "user"]
    [] [] [("adm", "r1"); ("sec", "r2"); ("bob", "r4")]
    [mkUserGroup "g1" "o" "auditors" "Auditors" "" "ACTIVE" [] [] 0 1 1] [] [mkGroupRole "g1" "r3" 1]
    [] [rule "auditor" "security_admin"; rule "security_admin" "system_admin"; rule "auditor" "system_admin"]
    ∅ [] [] [] [] [] [] [] [] [].

Definition env : Env := mkEnv (fun _ => 100) (fun _ => "id") (fun _ => None) (fun _ _ => "0"%char) false.
Definition admin : Principal :=
  mkPrincipal "USER" "adm" "o" "adm" "adm" ["system_admin"] [] [] false "s1" 1 (mkDataScope true false []) "MFA" (Some 100).

Lemma tables_are_ok : tables_ok tables.
Proof.
  split; try (apply (bool_decide_unpack _); vm_compute; exact I).
  - intros g Hg. apply list_elem_of_singleton in Hg as ->. reflexivity.
  - intros u r H. assert (F : Forall (fun p => p.1 ∈ map uid (users tables)) (user_roles tables))
      by (apply (bool_decide_unpack _); vm_compute; exact I).
    rewrite Forall_forall in F. exact (F _ H).
  - intros g Hg. apply list_elem_of_singleton in Hg as ->. cbn. constructor.
  - intros m Hm. inversion Hm.
Qed.

Lemma tables_are_separated : separated tables.
Proof. apply separated_by_test. vm_compute. reflexivity. Qed.

Definition unicode : UnicodeTables :=
  {| upper_table := fun _ => false; lower_table := fun _ => false; digit_table := fun _ => false |}.
Definition service : Service :=
  NewService (mkOptions 12 true true true true 5 90 (8 * Hour) 5 (15 * Minute)).

(** Bob joins the auditors; nobody could then make him a security officer. *)
Definition joined : Tables := (WithTx (UpdateUserGroupMembers admin "o" "g1" ["bob"]) env O tables).2.

Lemma bob_joins : (WithTx (UpdateUserGroupMembers admin "o" "g1" ["bob"]) env O tables).1.1 = Ok tt /\
  (WithTx (UpdateUserRoles admin "o" "bob" ["security_admin"]) env O joined).1.1 = Err ErrRoleConflict.
Proof. split; vm_compute; reflexivity. Qed.

Lemma joined_history : @history unicode sample_argon2 service tables joined.
Proof.
  apply rtc_once. unfold joined.
  destruct (WithTx (UpdateUserGroupMembers admin "o" "g1" ["bob"]) env O tables) as [[r n'] t'] eqn:E.
  refine (step_operation service _ _ env O tables r n' t' _ (or_introl _) _ E); [constructor|done|done].
Qed.

(** The last administrator cannot step down. *)
Lemma the_last_one_stays :
  (WithTx (UpdateUserRoles admin "o" "adm" ["user"]) env O tables).1.1 = Err ErrLastSystemAdmin /\
  (WithTx (SetUserStatus "o" "adm" "disabled") env O tables).1.1 = Err ErrLastSystemAdmin.
Proof. split; vm_compute; reflexivity. Qed.
End examples.

Lemma duties_stay_separated_witness : separated examples.joined /\ member_of examples.joined "g1" "bob" = true.
Proof.
  split; [|vm_compute; reflexivity].
  exact (@duties_stay_separated examples.unicode sample_argon2 examples.service examples.tables examples.joined
    examples.joined_history examples.tables_are_ok examples.tables_are_separated).
Defined.

Lemma the_last_administrator_stays_witness : administered "o" examples.joined.
Proof.
  refine (@the_last_administrator_stays examples.unicode sample_argon2 examples.service examples.tables
    examples.joined "o" examples.joined_history examples.tables_are_ok examples.tables_are_separated _).
  vm_compute. discriminate.
Defined.

(** ** What the rules miss *)

Definition bob_roles (t : Tables) : list string :=
  match RolesForUser "bob" examples.env O t with (Ok l, _, _) => l | _ => [] end.

Definition grant_auditor (t : Tables) :=
  WithTx (CreateTemporaryRoleGrant examples.admin "bob" "auditor" "year-end audit" "a1" 90 200) examples.env O t.
Definition make_officer (t : Tables) := WithTx (UpdateUserRoles examples.admin "o" "bob" ["security_admin"]) examples.env O t.

(** Temporary grants escape the separation of duties: a user who holds
    [auditor] through a current temporary grant can be made [security_admin]
    and then holds both, although the grant is refused when the roles are given
    in the other order. *)
Example a_temporary_grant_evades_separation :
  is_ok (grant_auditor examples.tables).1.1 = true /\
  (make_officer (grant_auditor examples.tables).2).1.1 = Ok tt /\
  bob_roles (make_officer (grant_auditor examples.tables).2).2 = ["auditor"; "security_admin"] /\
  (grant_auditor (make_officer examples.tables).2).1.1 = Err ErrRoleConflict.
Proof. vm_compute. done. Qed.

(** A security officer cannot take a role away that the officer does not hold,
    unless the query of the user's roles fails: its error is dropped, the user
    counts as having none, and the change goes through. *)
Definition officer : Principal :=
  mkPrincipal "USER" "sec" "o" "sec" "sec" ["security_admin"; "user"] [] [] false "s2" 1
    (mkDataScope true false []) "MFA" (Some 100).
Definition demote_bob (fault : option nat) (t : Tables) :=
  WithTx (UpdateUserRoles officer "o" "bob" ["user"])
    (mkEnv (fun _ => 100) (fun _ => "id") (fun k => if bool_decide (Some k = fault) then Some ErrNoRows else None)
       (fun _ _ => "0"%char) false) O t.
Definition audited_bob : Tables :=
  (WithTx (UpdateUserRoles examples.admin "o" "bob" ["auditor"]) examples.env O examples.tables).2.

Example a_failed_read_lifts_the_ceiling :
  bob_roles audited_bob = ["auditor"] /\
  (demote_bob None audited_bob).1.1 = Err ErrGrantCeiling /\
  (demote_bob (Some 14%nat) audited_bob).1.1 = Ok tt /\
  bob_roles (demote_bob (Some 14%nat) audited_bob).2 = ["user"].
Proof. vm_compute. done. Qed.
