(* ===== verification/Accounts.v ===== *)
(** * Accounts

    How the identity service lets somebody in and keeps them out: logins with a
    password, a second factor or an external identity, sessions, API tokens,
    the lock after wrong guesses, and the changes of credentials
    ([internal/app/identity/service.go] and [federated_identities.go]), with
    their repository functions.

    The one-time passwords of [github.com/pquerna/otp] are a parameter, and so
    is the provider of encryption ([Keyring]). *)

From S2P Require Import Prelude GoString Crypto Strconv Database Keyring Identity GrantPolicy Password.
From S2P Require Import SecurityPolicy Directory IdentityStore Roles.

Definition ErrInvalidCredentials : error := Sentinel "identity.ErrInvalidCredentials".
Definition ErrLocked : error := Sentinel "identity.ErrLocked".
Definition ErrDisabled : error := Sentinel "identity.ErrDisabled".
Definition ErrPasswordReused : error := Sentinel "identity.ErrPasswordReused".
Definition ErrMFARequired : error := Sentinel "identity.ErrMFARequired".
Definition ErrInvalidMFA : error := Sentinel "identity.ErrInvalidMFA".
Definition ErrMFAUnavailable : error := Sentinel "identity.ErrMFAUnavailable".
Definition ErrMFANotPending : error := Sentinel "identity.ErrMFANotPending".
Definition ErrMFAAlreadyEnabled : error := Sentinel "repository.ErrMFAAlreadyEnabled".
Definition ErrPasswordStateChanged : error := Sentinel "repository.ErrPasswordStateChanged".
Definition ErrInvalidFederatedIdentity : error := Sentinel "identity.ErrInvalidFederatedIdentity".

Notation M := (Database.M Tables).

(** [totp.Generate] draws the secret; [totp.Validate] reads the clock. *)
Class TOTP := {
  totp_Generate : Env -> nat -> string -> string -> result (string * string);
  totp_Validate : Time -> string -> string -> bool
}.

(** [res.RowsAffected] of a statement that changes the rows [p] selects. *)
Definition affected {A} (get : Tables -> list A) (put : list A -> Tables -> Tables) (p : A -> bool) (f : A -> A)
  : M Z :=
  stmt (fun t => Ok (llen (select p (get t)), put (update_where p f (get t)) t)).

Definition put_users (rows : list userRow) (t : Tables) : Tables := t <| users := rows |>.
Definition put_sessions (rows : list SessionRow) (t : Tables) : Tables := t <| sessions := rows |>.
Definition put_tokens (rows : list TokenRow) (t : Tables) : Tables := t <| api_tokens := rows |>.
Definition put_factors (rows : list MFAFactor) (t : Tables) : Tables := t <| mfa_factors := rows |>.
Definition put_codes (rows : list RecoveryCode) (t : Tables) : Tables := t <| recovery_codes := rows |>.
Definition put_history (rows : list HistoryRow) (t : Tables) : Tables := t <| password_history := rows |>.
Definition put_externals (rows : list ExternalIdentity) (t : Tables) : Tables := t <| external_identities := rows |>.
Definition put_organizations (rows : list Organization) (t : Tables) : Tables := t <| organizations := rows |>.

(** ** Login failures *)

Definition set_failures (count : Z) (until : option Time) (now : Time) (r : userRow) : userRow :=
  r <| row_User := (row_User r) <| user_FailedLoginCount := count |> <| user_LockedUntil := until |>
                                <| user_UpdatedAt := now |> |>.

Definition is_user (user : string) (r : userRow) : bool := uid r =s user.

Definition change_users (p : userRow -> bool) (f : userRow -> userRow) (t : Tables) : Tables :=
  put_users (update_where p f (users t)) t.

Definition RecordLoginFailure (user : string) (max : Z) (lock : Duration) : M unit :=
  let max := if max <=? 0 then 1 else max in
  WithTx (
    row ← queryR (fun t => select_row (is_user user) (users t));
    let failures := user_FailedLoginCount (row_User row) + 1 in
    at_ ← now;
    exec (change_users (is_user user)
      (if max <=? failures then set_failures 0 (Some (timeAdd (UTC at_) lock)) (UTC at_)
       else set_failures failures None (UTC at_)))).

Definition ResetLoginFailure (user : string) : M unit :=
  at_ ← now;
  exec (change_users (is_user user) (set_failures 0 None (UTC at_))).

Definition repo_UnlockUser (org user : string) : M unit :=
  at_ ← now;
  n ← affected users put_users (fun r => is_user user r && (uorg r =s org)) (set_failures 0 None (UTC at_));
  guard_not (n =? 0) ErrNoRows.

(** ** Sessions *)

Definition insert_session (s : SessionRow) (t : Tables) : result (unit * Tables) :=
  if existsb (fun r => (ses_id r =s ses_id s) || (ses_token_hash r =s ses_token_hash s)) (sessions t)
  then Err ErrDuplicate
  else Ok (tt, put_sessions (sessions t ++ [s]) t).

Definition CreateSession (user tokenHash : string) (expires : Time) (ip ua level : string)
    (mfaVerifiedAt : option Time) : M string :=
  id ← NewString;
  at_ ← now;
  _ ← stmt (insert_session (mkSession id user tokenHash expires (UTC at_) (UTC at_) ip ua level mfaVerifiedAt));
  mret id.

Definition drop_sessions (p : SessionRow -> bool) (t : Tables) : Tables :=
  put_sessions (delete_where p (sessions t)) t.

Definition DeleteSessionByHash (hash : string) : M unit := exec (drop_sessions (fun s => ses_token_hash s =s hash)).
Definition DeleteSessionByID (id : string) : M unit := exec (drop_sessions (fun s => ses_id s =s id)).
Definition PurgeExpiredSessions : M unit :=
  at_ ← now;
  exec (drop_sessions (fun s => ses_expires_at s <? UTC at_)).

Definition ListUserSessionIDs (user : string) : M (list string) :=
  at_ ← now;
  query (fun t => map ses_id (order_by (fun x y => ses_created_at x <=? ses_created_at y)
    (select (fun s => (ses_user_id s =s user) && (UTC at_ <? ses_expires_at s)) (sessions t)))).

(** Rows of two tables joined on a key. *)
Definition user_of (t : Tables) (id : string) : list userRow := select (is_user id) (users t).
Definition session_user (keep : SessionRow -> userRow -> bool) (t : Tables) : list (SessionRow * userRow) :=
  flat_map (fun s => map (pair s) (select (keep s) (user_of t (ses_user_id s)))) (sessions t).

Definition mark_seen (id : string) (at_ : Time) (t : Tables) : Tables :=
  put_sessions (update_where (fun s => ses_id s =s id) (fun s => s <| ses_last_seen_at := at_ |>) (sessions t)) t.

Definition user_principal (kind session : string) (r : userRow) (scopes : list string) (level : string)
    (mfa : option Time) (keys allowed : list string) (scope : EffectiveDataScope) : Principal :=
  let u := row_User r in
  mkPrincipal kind (user_ID u) (user_OrganizationID u) (user_LoginName u) (user_DisplayName u) keys allowed scopes
    (user_MustChangePassword u) session (user_PasswordChangedAt u) scope level mfa.

Definition PrincipalBySessionHash (hash : string) : M Principal :=
  pair ← queryR (fun t => match session_user (fun s r => (ses_token_hash s =s hash) && (ustatus r =s "ACTIVE")) t with
                          | found :: _ => Ok found
                          | [] => Err ErrNoRows
                          end);
  let '(session, row) := pair in
  stored ← queryR (fun t => select_row (fun s => ses_id s =s ses_id session) (sessions t));
  at_ ← now;
  if After at_ (ses_expires_at session) then
    _ ← attempt (DeleteSessionByID (ses_id session));
    fail ErrNoRows
  else
    keys ← attempt (RolesForUser (uid row));
    allowed ← attempt (PermissionsForUser (uid row));
    scope ← in_directory (DataScopeForUser (uorg row) (uid row));
    seen ← now;
    _ ← attempt (exec (mark_seen (ses_id session) (UTC seen)));
    mret (user_principal "USER" (ses_id session) row [] (ses_authentication_level stored)
            (ses_mfa_verified_at stored) (or_empty keys) (or_empty allowed) scope).

Definition MarkSessionMFAVerified (user session : string) (verifiedAt : Time) : M unit :=
  n ← affected sessions put_sessions
        (fun s => (ses_id s =s session) && (ses_user_id s =s user) && (verifiedAt <? ses_expires_at s))
        (fun s => s <| ses_authentication_level := "MFA" |> <| ses_mfa_verified_at := Some verifiedAt |>
                    <| ses_last_seen_at := verifiedAt |>);
  guard_not (negb (n =? 1)) ErrNoRows.

Record Session := mkSessionView {
  sv_row : SessionRow; sv_LoginName : string; sv_DisplayName : string; sv_Current : bool
}.
#[export] Instance Session_eta : Eta Session := fun s =>
  mkSessionView (sv_row s) (sv_LoginName s) (sv_DisplayName s) (sv_Current s).

Definition repo_ListSessions (org : string) (limit : nat) : M (list Session) :=
  at_ ← now;
  query (fun t => map (fun '(s, r) => mkSessionView s (user_LoginName (row_User r)) (user_DisplayName (row_User r)) false)
    (take limit (order_by (fun x y => ses_last_seen_at y.1 <=? ses_last_seen_at x.1)
      (session_user (fun s r => (uorg r =s org) && (UTC at_ <? ses_expires_at s)) t)))).

Definition repo_RevokeSession (org session : string) : M unit :=
  actual ← queryR (fun t => match session_user (fun s _ => ses_id s =s session) t with
                            | (_, row) :: _ => Ok (uorg row)
                            | [] => Err ErrNoRows
                            end);
  _ ← guard_not (actual <>s org) ErrNoRows;
  n ← stmt (fun t => Ok (llen (select (fun s => ses_id s =s session) (sessions t)),
                         drop_sessions (fun s => ses_id s =s session) t));
  guard_not (n =? 0) ErrNoRows.

(** ** Passwords *)

Definition PasswordHashByID (user : string) : M string :=
  queryR (fun t => row_PasswordHash <$> select_row (is_user user) (users t)).

Definition PasswordHistory (user : string) (limit : Z) : M (list string) :=
  if limit <=? 0 then mret []
  else query (fun t => map ph_hash (take (Z.to_nat limit) (order_by (fun x y => ph_changed_at y <=? ph_changed_at x)
         (select (fun h => ph_user_id h =s user) (password_history t))))).

Definition insert_history (h : HistoryRow) (t : Tables) : result (unit * Tables) :=
  if existsb (fun r => ph_id r =s ph_id h) (password_history t) then Err ErrDuplicate
  else Ok (tt, put_history (password_history t ++ [h]) t).

Definition set_password (hash : string) (mustChange : bool) (now : Time) (r : userRow) : userRow :=
  r <| row_PasswordHash := hash |>
    <| row_User := (row_User r) <| user_MustChangePassword := mustChange |> <| user_FailedLoginCount := 0 |>
                                <| user_LockedUntil := None |> <| user_PasswordChangedAt := now |>
                                <| user_UpdatedAt := now |> |>.

Definition UpdatePasswordAndRevokeOtherSessions (user keepSession oldHash newHash : string) : M unit :=
  WithTx (
    at_ ← now;
    id ← NewString;
    _ ← stmt (insert_history (mkHistory id user oldHash (UTC at_)));
    _ ← exec (change_users (is_user user) (set_password newHash false (UTC at_)));
    exec (drop_sessions (fun s => (ses_user_id s =s user) && (ses_id s <>s keepSession)))).

Definition ensurePasswordState (expected actual : string) : result unit :=
  if expected <>s actual then Err ErrPasswordStateChanged else Ok tt.

Definition repo_AdminResetPassword (org user oldHash newHash : string) : M unit :=
  WithTx (
    row ← queryR (fun t => select_row (is_user user) (users t));
    _ ← guard_not (uorg row <>s org) ErrNoRows;
    _ ← lift (ensurePasswordState oldHash (row_PasswordHash row));
    at_ ← now;
    _ ← (if row_PasswordHash row <>s "" then
           id ← NewString;
           stmt (insert_history (mkHistory id user (row_PasswordHash row) (UTC at_)))
         else mret tt);
    _ ← exec (change_users (is_user user) (set_password newHash true (UTC at_)));
    exec (drop_sessions (fun s => ses_user_id s =s user))).

(** ** API tokens *)

Record APIToken := mkAPIToken {
  at_ID : string;
  at_Name : string;
  at_Prefix : string;
  at_Scopes : list string;
  at_ExpiresAt : option Time;
  at_LastUsedAt : option Time;
  at_CreatedAt : Time
}.

Definition insert_token (k : TokenRow) (t : Tables) : result (unit * Tables) :=
  if existsb (fun r => (tok_id r =s tok_id k) || (tok_hash r =s tok_hash k)) (api_tokens t)
  then Err ErrDuplicate
  else Ok (tt, put_tokens (api_tokens t ++ [k]) t).

(** The column [scopes_json] is kept as the list that it encodes. *)
Definition repo_CreateAPIToken (user name prefix tokenHash : string) (scopes : list string) (expiresAt : option Time)
  : M APIToken :=
  owner ← UserByID user;
  at_ ← now;
  id ← NewString;
  _ ← stmt (insert_token (mkToken id (user_OrganizationID owner) user name prefix tokenHash scopes expiresAt None None
                            (UTC at_)));
  mret (mkAPIToken id name prefix scopes expiresAt None (UTC at_)).

Definition token_live (k : TokenRow) : bool := match tok_revoked_at k with None => true | Some _ => false end.

Definition repo_ListAPITokens (user : string) : M (list APIToken) :=
  query (fun t => map (fun k => mkAPIToken (tok_id k) (tok_name k) (tok_prefix k) (tok_scopes k) (tok_expires_at k)
                                  (tok_last_used_at k) (tok_created_at k))
    (take 200 (order_by (fun x y => tok_created_at y <=? tok_created_at x)
      (select (fun k => (tok_user_id k =s user) && token_live k) (api_tokens t))))).

Definition repo_RevokeAPIToken (user token : string) : M unit :=
  at_ ← now;
  n ← affected api_tokens put_tokens (fun k => (tok_id k =s token) && (tok_user_id k =s user) && token_live k)
        (fun k => k <| tok_revoked_at := Some (UTC at_) |>);
  guard_not (n =? 0) ErrNoRows.

Definition token_user (keep : TokenRow -> userRow -> bool) (t : Tables) : list (TokenRow * userRow) :=
  flat_map (fun k => map (pair k) (select (keep k) (user_of t (tok_user_id k)))) (api_tokens t).

(** [expires.Valid && time.Now().After(expires.Time)]. *)
Definition token_expired (k : TokenRow) : M bool :=
  match tok_expires_at k with
  | None => mret false
  | Some expires => at_ ← now; mret (After at_ expires)
  end.

Definition mark_token (id : string) (at_ : Time) (t : Tables) : Tables :=
  put_tokens (update_where (fun k => tok_id k =s id) (fun k => k <| tok_last_used_at := Some at_ |>) (api_tokens t)) t.

Definition PrincipalByAPITokenHash (hash : string) : M Principal :=
  pair ← queryR (fun t => match token_user (fun k r => (tok_hash k =s hash) && token_live k && (ustatus r =s "ACTIVE")) t with
                          | found :: _ => Ok found
                          | [] => Err ErrNoRows
                          end);
  let '(token, row) := pair in
  expired ← token_expired token;
  _ ← guard_not expired ErrNoRows;
  keys ← attempt (RolesForUser (uid row));
  allowed ← attempt (PermissionsForUser (uid row));
  scope ← in_directory (DataScopeForUser (uorg row) (uid row));
  used ← now;
  _ ← attempt (exec (mark_token (tok_id token) (UTC used)));
  mret (user_principal "TOKEN" "" row (tok_scopes token) "" None (or_empty keys) (or_empty allowed) scope).

(** ** Second factors *)

Definition factor_of (user status : string) (f : MFAFactor) : bool :=
  (mf_UserID f =s user) && (mf_Status f =s status).

Definition repo_MFAEnabled (user : string) : M bool :=
  query (fun t => llen (select (factor_of user "ACTIVE") (mfa_factors t)) =? 1).

Definition mfaFactor (user status : string) : M MFAFactor :=
  queryR (fun t => select_row (factor_of user status) (mfa_factors t)).
Definition ActiveMFAFactor (user : string) : M MFAFactor := mfaFactor user "ACTIVE".
Definition PendingMFAFactor (user : string) : M MFAFactor :=
  factor ← mfaFactor user "PENDING";
  at_ ← now;
  if negb (After (mf_PendingExpiresAt factor) (UTC at_)) then fail ErrNoRows else mret factor.

Definition insert_factor (f : MFAFactor) (t : Tables) : result (unit * Tables) :=
  if existsb (fun r => mf_UserID r =s mf_UserID f) (mfa_factors t) then Err ErrDuplicate
  else Ok (tt, put_factors (mfa_factors t ++ [f]) t).

Definition change_factors (p : MFAFactor -> bool) (f : MFAFactor -> MFAFactor) (t : Tables) : Tables :=
  put_factors (update_where p f (mfa_factors t)) t.

Definition SavePendingMFAFactor (user ciphertext keyVersion : string) (expiresAt : Time) : M unit :=
  WithTx (
    status ← attempt (queryR (fun t => mf_Status <$> select_row (fun f => mf_UserID f =s user) (mfa_factors t)));
    match status with
    | Ok status =>
      if status =s "ACTIVE" then fail ErrMFAAlreadyEnabled
      else
        _ ← now;
        exec (change_factors (fun f => mf_UserID f =s user)
          (fun f => f <| mf_Status := "PENDING" |> <| mf_SecretCiphertext := ciphertext |>
                      <| mf_KeyVersion := keyVersion |> <| mf_PendingExpiresAt := expiresAt |>
                      <| mf_ConfirmedAt := None |>))
    | Err err =>
      if negb (errors_Is err ErrNoRows) then fail err
      else
        _ ← now;
        stmt (insert_factor (mkFactor user "PENDING" ciphertext keyVersion expiresAt None))
    end).

Definition insert_code (c : RecoveryCode) (t : Tables) : result (unit * Tables) :=
  if existsb (fun r => (rc_id r =s rc_id c) || (rc_user_id r =s rc_user_id c) && (rc_code_hash r =s rc_code_hash c))
       (recovery_codes t)
  then Err ErrDuplicate
  else Ok (tt, put_codes (recovery_codes t ++ [c]) t).

Definition ActivateMFAFactor (user : string) (recoveryCodeHashes : list string) : M unit :=
  WithTx (
    at_ ← now;
    count ← affected mfa_factors put_factors
              (fun f => factor_of user "PENDING" f && (UTC at_ <? mf_PendingExpiresAt f))
              (fun f => f <| mf_Status := "ACTIVE" |> <| mf_ConfirmedAt := Some (UTC at_) |>);
    _ ← guard_not (negb (count =? 1)) ErrNoRows;
    _ ← exec (fun t => put_codes (delete_where (fun c => rc_user_id c =s user) (recovery_codes t)) t);
    forM recoveryCodeHashes (fun hash =>
      id ← NewString;
      stmt (insert_code (mkCode id user hash None (UTC at_))))).

Definition unused_code (user hash : string) (c : RecoveryCode) : bool :=
  (rc_user_id c =s user) && (rc_code_hash c =s hash) && match rc_used_at c with None => true | Some _ => false end.

Definition ConsumeMFARecoveryCode (user hash : string) : M bool :=
  at_ ← now;
  count ← affected recovery_codes put_codes (unused_code user hash) (fun c => c <| rc_used_at := Some (UTC at_) |>);
  mret (count =? 1).

Definition DeleteMFAAndOtherSessions (user currentSession : string) : M unit :=
  WithTx (
    _ ← exec (fun t => put_factors (delete_where (fun f => mf_UserID f =s user) (mfa_factors t)) t);
    exec (drop_sessions (fun s => (ses_user_id s =s user) && (ses_id s <>s currentSession)))).

(** ** External identities *)

Record FederatedIdentityLink := mkLink { fl_row : ExternalIdentity; fl_LoginName : string }.

Definition links (keep : ExternalIdentity -> bool) (t : Tables) : list FederatedIdentityLink :=
  flat_map (fun x => map (fun r => mkLink x (user_LoginName (row_User r))) (user_of t (ei_UserID x)))
    (select keep (external_identities t)).

Definition repo_ListFederatedIdentityLinks (org : string) : M (list FederatedIdentityLink) :=
  query (fun t => order_by (fun x y => ei_CreatedAt (fl_row y) <=? ei_CreatedAt (fl_row x))
    (links (fun x => ei_OrganizationID x =s org) t)).

Definition linked_as (org provider subject : string) (x : ExternalIdentity) : bool :=
  (ei_OrganizationID x =s org) && (ei_Provider x =s provider) && (ei_Subject x =s subject).

Definition FederatedIdentityByProviderSubject (org provider subject : string) : M FederatedIdentityLink :=
  queryR (fun t => match links (linked_as org provider subject) t with
                   | link :: _ => Ok link
                   | [] => Err ErrNoRows
                   end).

Definition insert_external (x : ExternalIdentity) (t : Tables) : result (unit * Tables) :=
  if existsb (fun r => (ei_ID r =s ei_ID x) || linked_as (ei_OrganizationID x) (ei_Provider x) (ei_Subject x) r)
       (external_identities t)
  then Err ErrDuplicate
  else Ok (tt, put_externals (external_identities t ++ [x]) t).

Definition CreateFederatedIdentityLink (link : ExternalIdentity) : M FederatedIdentityLink :=
  id ← NewString;
  let link := mkExternal id (ei_OrganizationID link) (ToLower (TrimSpace (ei_Provider link)))
    (TrimSpace (ei_Subject link)) (ei_UserID link) (ei_CreatedBy link) (ei_ApprovalID link)
    (UTC (ei_CreatedAt link)) None in
  _ ← stmt (insert_external link);
  FederatedIdentityByProviderSubject (ei_OrganizationID link) (ei_Provider link) (ei_Subject link).

Definition DeleteFederatedIdentityLink (org link : string) : M unit :=
  let here x := (ei_OrganizationID x =s org) && (ei_ID x =s link) in
  count ← stmt (fun t => Ok (llen (select here (external_identities t)),
                             put_externals (delete_where here (external_identities t)) t));
  guard_not (count =? 0) ErrNoRows.

Definition TouchFederatedIdentityAuthentication (org link : string) (authenticatedAt : Time) : M unit :=
  exec (fun t => put_externals (update_where (fun x => (ei_OrganizationID x =s org) && (ei_ID x =s link))
    (fun x => x <| ei_LastAuthenticatedAt := Some (UTC authenticatedAt) |>) (external_identities t)) t).

(** ** Users and organizations *)

(** The rows that the effective scope shows to the actor, newest first; the
    count of failures is not read. *)
Definition visible_user (org actorUser : string) (scope : EffectiveDataScope) (at_ : Time) (t : Tables) (r : userRow)
  : bool :=
  (uorg r =s org) &&
  (ds_OrganizationWide scope ||
   ds_Self scope && (actorUser <>s "") && is_user actorUser r ||
   existsb (fun a => (as_OrganizationID a =s uorg r) && (as_UserID a =s uid r) &&
                     contains (ds_DepartmentIDs scope) (as_DepartmentID a) && current_at at_ a) (assignments t)).

Definition repo_ListUsers (org actorUser : string) (scope : EffectiveDataScope) (limit : nat) : M (list User) :=
  at_ ← match ds_DepartmentIDs scope with
        | _ :: _ => if ds_OrganizationWide scope then mret 0 else now
        | [] => mret 0
        end;
  if negb (ds_OrganizationWide scope) && negb (ds_Self scope && (actorUser <>s "")) &&
     (llen (ds_DepartmentIDs scope) =? 0)
  then mret []
  else
    rows ← query (fun t => take limit (order_by (fun x y => user_CreatedAt (row_User y) <=? user_CreatedAt (row_User x))
      (select (visible_user org actorUser scope (UTC at_) t) (users t))));
    mapMM (fun r =>
      row ← with_roles (r <| row_User := (row_User r) <| user_FailedLoginCount := 0 |> |>) (uid r);
      mret (row_User row)) rows.

Definition repo_UpdateOrganization (org : string) (req : Organization) : M Organization :=
  if (org_Status req <>s "ACTIVE") && (org_Status req <>s "DISABLED") then
    fail (Errorf "invalid organization status" [])
  else
    let name := TrimSpace (org_Name req) in
    if name =s "" then fail (Errorf "invalid organization name" [])
    else
      let description := TrimSpace (org_Description req) in
      at_ ← now;
      _ ← exec (fun t => put_organizations (update_where (fun o => org_ID o =s org)
        (fun o => o <| org_Name := name |> <| org_Description := description |> <| org_Status := org_Status req |>
                    <| org_MaxUsers := org_MaxUsers req |> <| org_MaxSessions := org_MaxSessions req |>
                    <| org_UpdatedAt := UTC at_ |>) (organizations t)) t);
      OrganizationByID org.

(** ** The service *)

Definition randomToken (n : nat) : M string :=
  b ← rand_Read n;
  mret (EncodeToString b).
Definition hashToken (v : string) : string := Sum256hex v.

Definition passwordExpiredAt (t : Time) (maxAge : Duration) : M bool :=
  if (0 <? maxAge) && negb (IsZero t) then at_ ← now; mret (maxAge <? timeSub at_ t) else mret false.

(** [MustChangePassword || s.passwordExpiredAt(...)]. *)
Definition must_change (must : bool) (t : Time) (maxAge : Duration) : M bool :=
  if must then mret true else passwordExpiredAt t maxAge.

Definition enforceMaxConcurrentSessions (user : string) (maxSessions : Z) : M unit :=
  if maxSessions <=? 0 then mret tt
  else
    ids ← ListUserSessionIDs user;
    let excess := llen ids - maxSessions in
    if excess <=? 0 then mret tt else forM (take (Z.to_nat excess) ids) DeleteSessionByID.

(** [if err := step; err != nil { _ = s.repo.DeleteSessionByID(ctx, id); return err }]. *)
Definition or_drop_session {A} (step : M A) (session : string) : M A :=
  r ← attempt step;
  match r with
  | Ok a => mret a
  | Err err => _ ← attempt (DeleteSessionByID session); fail err
  end.

(** [^[a-z0-9][a-z0-9._-]{0,63}$]. *)
Definition provider_first (c : ascii) : bool :=
  GoString.in_range 97 122 (byte_val c) || GoString.in_range 48 57 (byte_val c).
Definition provider_char (c : ascii) : bool :=
  provider_first c || (byte_val c =? 46) || (byte_val c =? 95) || (byte_val c =? 45).
Definition federatedProviderPattern (provider : string) : bool :=
  match list_ascii_of_string provider with
  | c :: rest => provider_first c && forallb provider_char rest && (llen rest <=? 63)
  | [] => false
  end.

(** What a login returns: the principal with its token, the CSRF token and the
    expiry, or [ErrLocked] with the end of the lock. *)
Inductive login_outcome :=
| LoggedIn (p : Principal) (token csrf : string) (expires : Time)
| Locked (until : Time).

Section service.
Context `{UnicodeTables} `{Argon2} `{TOTP}.
Variable s : Service.
Variable crypt : option Provider.

Definition mfa_aad (user : string) : string := "mfa:totp:" +:+ user.

Definition recoveryCodeHash (c : Provider) (user code : string) : string :=
  EncodeToString (@prov_Hash c ("mfa-recovery:" +:+ user +:+ ":" +:+ TrimSpace code)).

(** The one-time password, when one is given. *)
Definition check_code (c : Provider) (factor : MFAFactor) (code : string) : M bool :=
  let code := TrimSpace code in
  if code =s "" then mret false
  else
    secret ← lift (@prov_Decrypt c (mf_SecretCiphertext factor) (mfa_aad (mf_UserID factor)));
    at_ ← now;
    mret (totp_Validate at_ code secret).

Definition check_recovery (c : Provider) (factor : MFAFactor) (recoveryCode : string) : M bool :=
  let recoveryCode := TrimSpace recoveryCode in
  if recoveryCode =s "" then mret false
  else ConsumeMFARecoveryCode (mf_UserID factor) (recoveryCodeHash c (mf_UserID factor) recoveryCode).

Definition verifyMFAFactor (factor : MFAFactor) (code recoveryCode : string) : M unit :=
  match crypt with
  | None => fail ErrMFAUnavailable
  | Some c =>
    valid ← check_code c factor code;
    if (valid : bool) then mret tt
    else
      consumed ← check_recovery c factor recoveryCode;
      if (consumed : bool) then mret tt else fail ErrInvalidMFA
  end.

Definition verifyLoginMFA (user code recoveryCode : string) : M bool :=
  factor ← attempt (ActiveMFAFactor user);
  match factor with
  | Err err => if errors_Is err ErrNoRows then mret false else fail err
  | Ok factor =>
    if (TrimSpace code =s "") && (TrimSpace recoveryCode =s "") then fail ErrMFARequired
    else _ ← verifyMFAFactor factor code recoveryCode; mret true
  end.

(** From a verified credential to a session of the level [level]. *)
Definition logged_in (u : User) (session level : string) (mfa : option Time) (must : bool) : Principal :=
  mkPrincipal "USER" (user_ID u) (user_OrganizationID u) (user_LoginName u) (user_DisplayName u) (user_Roles u)
    (user_Permissions u) [] must session (user_PasswordChangedAt u) (mkDataScope false false []) level mfa.

(** A login whose credentials are verified: the failures are forgotten and a
    session is opened. *)
Definition open_session (user : User) (policy : resolvedPolicy) (mfaVerified : bool) (ip ua : string)
  : M login_outcome :=
  _ ← ResetLoginFailure (user_ID user);
  token ← randomToken 32;
  csrf ← randomToken 24;
  at_ ← now;
  let expires := timeAdd (UTC at_) (sessionTTL policy) in
  mfaVerifiedAt ← (if mfaVerified then verifiedAt ← now; mret (Some (UTC verifiedAt)) else mret None);
  let level := if mfaVerified then "MFA" else "PASSWORD" in
  session ← CreateSession (user_ID user) (hashToken token) expires ip ua level mfaVerifiedAt;
  _ ← or_drop_session (enforceMaxConcurrentSessions (user_ID user) (maxConcurrent policy)) session;
  must ← must_change (user_MustChangePassword user) (user_PasswordChangedAt user) (maxAge policy);
  mret (LoggedIn (logged_in user session level mfaVerifiedAt must) token csrf expires).

(** Whether the lock of the row is still on, and until when. *)
Definition still_locked (user : User) : M (option Time) :=
  match user_LockedUntil user with
  | Some until => at_ ← now; mret (if Before at_ until then Some until else None)
  | None => mret None
  end.

(** The credentials against the row: a wrong one is recorded. *)
Definition check_credentials (row : userRow) (policy : resolvedPolicy) (raw mfaCode recoveryCode : string) : M bool :=
  let user := row_User row in
  if negb (Verify raw (row_PasswordHash row)) then
    _ ← RecordLoginFailure (user_ID user) (maxFailures policy) (lockDuration policy);
    fail ErrInvalidCredentials
  else
    verified ← attempt (verifyLoginMFA (user_ID user) mfaCode recoveryCode);
    match verified with
    | Err err =>
      _ ← (if errors_Is err ErrInvalidMFA
           then RecordLoginFailure (user_ID user) (maxFailures policy) (lockDuration policy) else mret tt);
      fail err
    | Ok mfaVerified => mret mfaVerified
    end.

Definition login_as (row : userRow) (raw mfaCode recoveryCode ip ua : string) : M login_outcome :=
  let user := row_User row in
  o ← OrganizationByID (user_OrganizationID user);
  _ ← guard_not (ToUpper (org_Status o) <>s "ACTIVE") ErrDisabled;
  policy ← in_settings (resolveSecurityPolicy s (user_OrganizationID user));
  _ ← guard_not (user_Status user <>s "ACTIVE") ErrDisabled;
  locked ← still_locked user;
  match locked with
  | Some until => mret (Locked until)
  | None =>
    mfaVerified ← check_credentials row policy raw mfaCode recoveryCode;
    open_session user policy mfaVerified ip ua
  end.

Definition LoginWithMFA (org login raw mfaCode recoveryCode ip ua : string) : M login_outcome :=
  found ← attempt (UserByLogin org (TrimSpace login));
  match found with
  | Err _ => fail ErrInvalidCredentials
  | Ok row => login_as row raw mfaCode recoveryCode ip ua
  end.

Definition Login (org login raw ip ua : string) : M login_outcome := LoginWithMFA org login raw "" "" ip ua.

Definition LoginFederated (org provider subject ip ua : string) : M login_outcome :=
  let provider := ToLower (TrimSpace provider) in
  let subject := TrimSpace subject in
  _ ← guard_not (negb (federatedProviderPattern provider) || (subject =s "") || (512 <? slen subject))
        ErrInvalidCredentials;
  found ← attempt (FederatedIdentityByProviderSubject org provider subject);
  match found with
  | Err err => fail (if errors_Is err ErrNoRows then ErrInvalidCredentials else err)
  | Ok link =>
    user ← UserByID (ei_UserID (fl_row link));
    _ ← guard_not ((user_OrganizationID user <>s org) || (ToUpper (user_Status user) <>s "ACTIVE"))
          ErrInvalidCredentials;
    o ← OrganizationByID org;
    _ ← guard_not (ToUpper (org_Status o) <>s "ACTIVE") ErrDisabled;
    policy ← in_settings (resolveSecurityPolicy s org);
    token ← randomToken 32;
    csrf ← randomToken 24;
    at_ ← now;
    let expires := timeAdd (UTC at_) (sessionTTL policy) in
    session ← CreateSession (user_ID user) (hashToken token) expires ip ua "FEDERATED" None;
    _ ← or_drop_session (enforceMaxConcurrentSessions (user_ID user) (maxConcurrent policy)) session;
    _ ← or_drop_session (ResetLoginFailure (user_ID user)) session;
    touched ← now;
    _ ← or_drop_session (TouchFederatedIdentityAuthentication org (ei_ID (fl_row link)) (UTC touched)) session;
    must ← must_change (user_MustChangePassword user) (user_PasswordChangedAt user) (maxAge policy);
    mret (LoggedIn (logged_in user session "FEDERATED" None must) token csrf expires)
  end.

(** *** Second factors *)

Definition StepUpAuthentication (actor : Principal) (currentPassword code recoveryCode : string) : M Time :=
  _ ← lift (requireInteractivePrincipal actor);
  hash ← PasswordHashByID (p_UserID actor);
  _ ← guard_not (negb (Verify currentPassword hash)) ErrInvalidCredentials;
  found ← attempt (ActiveMFAFactor (p_UserID actor));
  match found with
  | Err err => fail (if errors_Is err ErrNoRows then ErrMFARequired else err)
  | Ok factor =>
    _ ← verifyMFAFactor factor code recoveryCode;
    at_ ← now;
    _ ← MarkSessionMFAVerified (p_UserID actor) (p_SessionID actor) (UTC at_);
    mret (UTC at_)
  end.

Definition MFAEnabled (actor : Principal) : M bool :=
  _ ← lift (requireInteractivePrincipal actor);
  repo_MFAEnabled (p_UserID actor).

Definition Generate (issuer account : string) : M (string * string) := fun e n t =>
  (totp_Generate e n issuer account, S n, t).

Record MFAEnrollment := mkEnrollment { en_Secret : string; en_URL : string }.

Definition BeginMFAEnrollment (actor : Principal) (currentPassword : string) : M MFAEnrollment :=
  _ ← lift (requireInteractivePrincipal actor);
  match crypt with
  | None => fail ErrMFAUnavailable
  | Some c =>
    hash ← PasswordHashByID (p_UserID actor);
    _ ← guard_not (negb (Verify currentPassword hash)) ErrInvalidCredentials;
    key ← Generate "Sevoniva Forge" (p_LoginName actor);
    let '(secret, url) := key in
    ciphertext ← @prov_Encrypt c Tables secret (mfa_aad (p_UserID actor));
    at_ ← now;
    _ ← SavePendingMFAFactor (p_UserID actor) ciphertext (@prov_KeyVersion c) (timeAdd (UTC at_) (10 * Minute));
    mret (mkEnrollment secret url)
  end.

Definition ConfirmMFAEnrollment (actor : Principal) (code : string) : M (list string) :=
  _ ← lift (requireInteractivePrincipal actor);
  found ← attempt (PendingMFAFactor (p_UserID actor));
  match found with
  | Err err => fail (if errors_Is err ErrNoRows then ErrMFANotPending else err)
  | Ok factor =>
    _ ← verifyMFAFactor factor code "";
    codes ← mapMM (fun _ => randomToken 12) (seq 0 10);
    let hashes := match crypt with
                  | Some c => map (recoveryCodeHash c (p_UserID actor)) codes
                  | None => []
                  end in
    _ ← ActivateMFAFactor (p_UserID actor) hashes;
    mret codes
  end.

Definition DisableMFA (actor : Principal) (currentPassword code recoveryCode : string) : M unit :=
  _ ← lift (requireInteractivePrincipal actor);
  hash ← PasswordHashByID (p_UserID actor);
  _ ← guard_not (negb (Verify currentPassword hash)) ErrInvalidCredentials;
  factor ← ActiveMFAFactor (p_UserID actor);
  _ ← verifyMFAFactor factor code recoveryCode;
  DeleteMFAAndOtherSessions (p_UserID actor) (p_SessionID actor).

(** *** Sessions *)

Definition Authenticate (token : string) : M Principal :=
  if token =s "" then fail ErrNoRows
  else
    p ← PrincipalBySessionHash (hashToken token);
    _ ← enforceOrganizationActive (p_OrganizationID p);
    policy ← in_settings (resolveSecurityPolicy s (p_OrganizationID p));
    expired ← passwordExpiredAt (p_PasswordChangedAt p) (maxAge policy);
    mret (if (expired : bool) then
            mkPrincipal (p_Type p) (p_UserID p) (p_OrganizationID p) (p_LoginName p) (p_DisplayName p) (p_Roles p)
              (p_Permissions p) (p_Scopes p) true (p_SessionID p) (p_PasswordChangedAt p) (p_DataScope p)
              (p_AuthenticationLevel p) (p_MFAVerifiedAt p)
          else p).

Definition Logout (token : string) : M unit :=
  if token =s "" then mret tt else DeleteSessionByHash (hashToken token).

Definition ListSessions (org currentSession : string) : M (list Session) :=
  items ← repo_ListSessions org 500;
  mret (map (fun i => i <| sv_Current := (ses_id (sv_row i) =s currentSession) |>) items).

Definition RevokeSession (org session currentSession : string) : M unit :=
  if (TrimSpace session =s "") || (session =s currentSession) then
    fail (Errorf "cannot revoke current session" [])
  else repo_RevokeSession org session.

Definition UnlockUser (org user : string) : M unit := repo_UnlockUser org user.

Definition ListUsers (actor : Principal) : M (list User) :=
  repo_ListUsers (p_OrganizationID actor) (p_UserID actor) (p_DataScope actor) 200.

Definition UpdateOrganization (org : string) (req : Organization) : M Organization :=
  let name := TrimSpace (org_Name req) in
  if name =s "" then fail (Errorf "invalid organization name" [])
  else
    status ← (if org_Status req =s "" then existing ← OrganizationByID org; mret (org_Status existing)
              else mret (org_Status req));
    let status := ToUpper status in
    if (status <>s "ACTIVE") && (status <>s "DISABLED") then fail (Errorf "invalid organization status" [])
    else if (org_MaxUsers req <? 0) || (org_MaxSessions req <? 0) then fail (Errorf "invalid organization value" [])
    else repo_UpdateOrganization org (req <| org_Name := name |> <| org_Status := status |>).

(** *** Passwords *)

(** The new password is neither the current one nor a recent one. *)
Definition check_reuse (policy : resolvedPolicy) (user next currentHash : string) : M unit :=
  _ ← guard_not (Verify next currentHash) ErrPasswordReused;
  if 0 <? SecurityPolicy.history policy then
    old ← PasswordHistory user (SecurityPolicy.history policy);
    guard_not (existsb (Verify next) old) ErrPasswordReused
  else mret tt.

Definition ChangePassword (actor : Principal) (current next : string) : M unit :=
  _ ← lift (requireInteractivePrincipal actor);
  user ← UserByID (p_UserID actor);
  policy ← in_settings (resolveSecurityPolicy s (user_OrganizationID user));
  _ ← enforceOrganizationActive (user_OrganizationID user);
  _ ← lift (check_password policy next);
  currentHash ← PasswordHashByID (p_UserID actor);
  _ ← guard_not (negb (Verify current currentHash)) ErrInvalidCredentials;
  _ ← check_reuse policy (p_UserID actor) next currentHash;
  nextHash ← Hash DefaultHasher next;
  UpdatePasswordAndRevokeOtherSessions (p_UserID actor) (p_SessionID actor) currentHash nextHash.

Definition AdminResetPassword (org user next : string) : M unit :=
  _ ← enforceOrganizationActive org;
  policy ← in_settings (resolveSecurityPolicy s org);
  _ ← lift (check_password policy next);
  target ← UserByID user;
  _ ← guard_not (user_OrganizationID target <>s org) ErrNoRows;
  currentHash ← PasswordHashByID user;
  _ ← check_reuse policy user next currentHash;
  nextHash ← Hash DefaultHasher next;
  repo_AdminResetPassword org user currentHash nextHash.

(** *** API tokens *)

Definition default_scopes (u : User) (scopes : list string) : list string :=
  match scopes with
  | [] => if UserHasRole u ["system_admin"] then ["*"] else user_Permissions u
  | _ => scopes
  end.

Definition scope_allowed (u : User) (scope : string) : bool :=
  contains (user_Permissions u) scope || UserHasRole u ["system_admin"] && (scope =s "*").

Definition CreateAPIToken (actor : Principal) (name : string) (scopes : list string) (ttl : Duration)
  : M (APIToken * string) :=
  _ ← lift (requireInteractivePrincipal actor);
  let name := TrimSpace name in
  _ ← guard_not ((name =s "") || (120 <? slen name)) (Errorf "invalid token name" []);
  u ← UserByID (p_UserID actor);
  policy ← in_settings (resolveSecurityPolicy s (user_OrganizationID u));
  must ← must_change (user_MustChangePassword u) (user_PasswordChangedAt u) (maxAge policy);
  _ ← guard_not must ErrPasswordPolicy;
  let scopes := default_scopes u scopes in
  _ ← guard_not (negb (forallb (scope_allowed u) scopes)) ErrInvalidRole;
  let ttl := if ttl <=? 0 then 90 * 24 * Hour else ttl in
  _ ← guard_not (365 * 24 * Hour <? ttl) (Errorf "api token ttl exceeds 365 days" []);
  at_ ← now;
  random ← randomToken 32;
  let raw := "fg_" +:+ random in
  token ← repo_CreateAPIToken (p_UserID actor) name (if 15 <? slen raw then stake 15 raw else raw) (hashToken raw)
            scopes (Some (timeAdd (UTC at_) ttl));
  mret (token, raw).

Definition ListAPITokens (actor : Principal) : M (list APIToken) :=
  _ ← lift (requireInteractivePrincipal actor);
  repo_ListAPITokens (p_UserID actor).

Definition RevokeAPIToken (actor : Principal) (token : string) : M unit :=
  _ ← lift (requireInteractivePrincipal actor);
  repo_RevokeAPIToken (p_UserID actor) token.

(** Every error is [ErrInvalidCredentials]. *)
Definition or_invalid {A} (m : M A) : M A :=
  r ← attempt m;
  match r with Ok a => mret a | Err _ => fail ErrInvalidCredentials end.

Definition AuthenticateAPIToken (raw : string) : M Principal :=
  if negb (HasPrefix raw "fg_") then fail ErrInvalidCredentials
  else
    p ← or_invalid (PrincipalByAPITokenHash (hashToken raw));
    _ ← or_invalid (enforceOrganizationActive (p_OrganizationID p));
    policy ← or_invalid (in_settings (resolveSecurityPolicy s (p_OrganizationID p)));
    must ← must_change (p_MustChangePassword p) (p_PasswordChangedAt p) (maxAge policy);
    _ ← guard_not must ErrInvalidCredentials;
    mret p.

(** *** External identities *)

Definition require_actor (actor : Principal) : M unit :=
  guard_not ((p_UserID actor =s "") || (p_OrganizationID actor =s "")) ErrInteractiveSessionRequired.

Definition ListFederatedIdentityLinks (actor : Principal) : M (list FederatedIdentityLink) :=
  _ ← require_actor actor;
  repo_ListFederatedIdentityLinks (p_OrganizationID actor).

Definition LinkFederatedIdentity (actor : Principal) (provider subject user approval : string)
  : M FederatedIdentityLink :=
  _ ← require_actor actor;
  _ ← RequireRecentMFA actor;
  let provider := ToLower (TrimSpace provider) in
  let subject := TrimSpace subject in
  let user := TrimSpace user in
  let approval := TrimSpace approval in
  _ ← guard_not (negb (federatedProviderPattern provider) || (subject =s "") || (512 <? slen subject) ||
                 (user =s "") || (approval =s "") || (user =s p_UserID actor)) ErrInvalidFederatedIdentity;
  target ← UserByID user;
  _ ← guard_not ((user_OrganizationID target <>s p_OrganizationID actor) || (ToUpper (user_Status target) <>s "ACTIVE"))
        ErrInvalidFederatedIdentity;
  at_ ← now;
  CreateFederatedIdentityLink (mkExternal "" (p_OrganizationID actor) provider subject (user_ID target)
    (p_UserID actor) approval (UTC at_) None).

Definition UnlinkFederatedIdentity (actor : Principal) (link : string) : M unit :=
  _ ← require_actor actor;
  _ ← RequireRecentMFA actor;
  _ ← guard_not (TrimSpace link =s "") ErrInvalidFederatedIdentity;
  DeleteFederatedIdentityLink (p_OrganizationID actor) (TrimSpace link).
End service.

(** ** The limit on wrong guesses *)

(** A login as it is submitted. *)
Record attempt_at := mkAttempt {
  a_org : string; a_login : string; a_raw : string; a_code : string; a_recovery : string; a_ip : string; a_ua : string
}.

Definition account (org login : string) (r : userRow) : bool :=
  (uorg r =s org) && (user_LoginName (row_User r) =s login).
Definition for_account (org login : string) (a : attempt_at) : bool :=
  (a_org a =s org) && (TrimSpace (a_login a) =s login).

(** The outcome tells that the password or the second factor was wrong. *)
Definition wrong (r : result login_outcome) : bool :=
  match r with
  | Ok _ => false
  | Err err => bool_decide (err = ErrInvalidCredentials) || errors_Is err ErrInvalidMFA
  end.

(** The credentials were right; storing the session can fail all the same. *)
Definition accepted (r : result login_outcome) : bool :=
  match r with
  | Ok (LoggedIn _ _ _ _) => true
  | Ok (Locked _) => false
  | Err err => bool_decide (err = ErrDuplicate)
  end.

(** What the lock of the user [u] depends on: the failures counted, and until
    when the account is locked. *)
Definition failures_of (r : userRow) : Z * option Time :=
  (user_FailedLoginCount (row_User r), user_LockedUntil (row_User r)).
Definition meter (u : string) (t : Tables) : result (Z * option Time) :=
  failures_of <$> select_row (is_user u) (users t).

(** What logins never change about the users. *)
Definition user_key (r : userRow) : string * string * string := (uid r, uorg r, user_LoginName (row_User r)).

Lemma meter_change u p f t m :
  (forall r, uid (f r) = uid r) -> (forall r, uid r = u -> p r = false) ->
  meter u t = Ok m -> meter u (change_users p f t) = Ok m.
Proof.
  intros Hu Hp. unfold meter, change_users, put_users, select_row, is_user. cbn.
  induction (users t) as [|r rows IH]; cbn; [done|].
  destruct (String.eqb_spec (uid r) u) as [E|N].
  - by rewrite (Hp r E), E, seqb_refl.
  - destruct (p r); rewrite ?Hu, (seqb_neq _ _ N); done.
Qed.

Lemma meter_set u f t m : (forall r, uid (f r) = uid r) -> meter u t = Ok m ->
  exists r, select_row (is_user u) (users t) = Ok r /\ failures_of r = m /\
    meter u (change_users (is_user u) f t) = Ok (failures_of (f r)).
Proof.
  intros Hu. unfold meter, change_users, put_users, select_row, is_user. cbn.
  induction (users t) as [|r rows IH]; cbn; [done|].
  destruct (String.eqb_spec (uid r) u) as [E|N].
  - intros [= <-]. exists r. by rewrite Hu, E, seqb_refl.
  - intros H. destruct (IH H) as (r0 & S & F & M'). exists r0. by rewrite (seqb_neq _ _ N).
Qed.

Lemma keys_change p f t K : (forall r, user_key (f r) = user_key r) ->
  map user_key (users t) = K -> map user_key (users (change_users p f t)) = K.
Proof. intros Hf <-. unfold change_users, put_users. cbn. by apply map_update_where. Qed.

(** *** What a login leaves alone *)

Definition meter_is (u : string) (m : Z * option Time) (t : Tables) : Prop := meter u t = Ok m.
Definition base_is (K : list (string * string * string)) (S : Settings) (t : Tables) : Prop :=
  map user_key (users t) = K /\ settings t = S.

Section frames.
Variable I : Tables -> Prop.
Hypothesis I_sessions : forall rows t, I t -> I (put_sessions rows t).
Hypothesis I_codes : forall rows t, I t -> I (put_codes rows t).

Lemma keeps_CreateSession user hash expires ip ua level mfa : keeps I (CreateSession user hash expires ip ua level mfa).
Proof.
  unfold CreateSession. keeps_walk. apply keeps_stmt. intros t x t' HI H. unfold insert_session in H.
  destruct (existsb _ _); [discriminate|]. injection H as _ <-. auto.
Qed.

Lemma keeps_DeleteSessionByID id : keeps I (DeleteSessionByID id).
Proof. apply keeps_exec. intros t. apply I_sessions. Qed.

Lemma keeps_max_sessions user max : keeps I (enforceMaxConcurrentSessions user max).
Proof. unfold enforceMaxConcurrentSessions, ListUserSessionIDs. pose proof keeps_DeleteSessionByID. keeps_walk. Qed.

Lemma keeps_or_drop {A} (m : M A) session : keeps I m -> keeps I (or_drop_session m session).
Proof.
  intros Hm. unfold or_drop_session. apply keeps_bind; [by apply keeps_attempt|]. intros [a|err]; [keeps_walk|].
  pose proof keeps_DeleteSessionByID. keeps_walk.
Qed.

Lemma keeps_verifyMFAFactor `{TOTP} crypt factor code recovery : keeps I (verifyMFAFactor crypt factor code recovery).
Proof.
  unfold verifyMFAFactor, check_code, check_recovery, ConsumeMFARecoveryCode, affected. keeps_walk;
    apply keeps_stmt; intros t x t' HI E; injection E as _ <-; auto.
Qed.

Lemma keeps_verifyLoginMFA `{TOTP} crypt user code recovery : keeps I (verifyLoginMFA crypt user code recovery).
Proof.
  unfold verifyLoginMFA, ActiveMFAFactor, mfaFactor. pose proof keeps_verifyMFAFactor. keeps_walk; apply H0.
Qed.
End frames.

Lemma set_failures_uid count until now r : uid (set_failures count until now r) = uid r.
Proof. done. Qed.

Lemma keeps_failure I user max lock :
  (forall f t, (forall r, uid (f r) = uid r) -> (forall r, user_key (f r) = user_key r) -> I t -> I (change_users (is_user user) f t)) ->
  keeps I (RecordLoginFailure user max lock) /\ keeps I (ResetLoginFailure user).
Proof.
  intros HI. unfold RecordLoginFailure, ResetLoginFailure.
  split; keeps_walk; apply keeps_exec; intros t Ht; try destruct (_ <=? _); by apply HI.
Qed.

Section others.
Variables (u : string) (m : Z * option Time) (user : string).
Hypothesis other : user <> u.

Lemma meter_other f t : (forall r, uid (f r) = uid r) -> meter_is u m t -> meter_is u m (change_users (is_user user) f t).
Proof.
  intros Hf. apply meter_change; [done|]. intros r E. unfold is_user. rewrite E. by apply seqb_neq.
Qed.
End others.

Section login_frames.
Context `{UnicodeTables} `{Argon2} `{TOTP}.
Variables (s : Service) (crypt : option Provider) (I : Tables -> Prop).
Hypothesis I_sessions : forall rows t, I t -> I (put_sessions rows t).
Hypothesis I_codes : forall rows t, I t -> I (put_codes rows t).

Lemma keeps_login_as row raw code recovery ip ua :
  (forall f t, (forall r, uid (f r) = uid r) -> (forall r, user_key (f r) = user_key r) -> I t -> I (change_users (is_user (uid row)) f t)) ->
  keeps I (login_as s crypt row raw code recovery ip ua).
Proof.
  intros HI. destruct (keeps_failure I (uid row) 0 0 HI) as [_ R].
  assert (F : forall max lock, keeps I (RecordLoginFailure (uid row) max lock))
    by (intros; by apply keeps_failure).
  pose proof (keeps_verifyLoginMFA I I_codes crypt) as V.
  pose proof (keeps_CreateSession I I_sessions) as C. pose proof (keeps_max_sessions I I_sessions) as X.
  assert (D : forall user max session, keeps I (or_drop_session (enforceMaxConcurrentSessions user max) session))
    by (intros; apply keeps_or_drop; auto).
  assert (Y : keeps I (in_settings (resolveSecurityPolicy s (user_OrganizationID (row_User row)))))
    by apply reads_keeps, in_settings_reads, reads_resolve.
  unfold uid in *. unfold login_as, OrganizationByID, still_locked, check_credentials, open_session, randomToken,
    must_change, passwordExpiredAt. clear HI. keeps_walk.
Qed.
End login_frames.

(** The policy that the settings give, as a function of them. *)
Definition policy_of (s : Service) (org : string) (st : Settings) : result resolvedPolicy :=
  out ← (if org =s "" then Ok (defaultPolicy s) else read_settings (settings_of org st) (defaultPolicy s));
  _ ← validateResolvedPolicy out;
  Ok out.

(** Logins one after the other, with their outcomes. *)
Fixpoint logins `{UnicodeTables} `{Argon2} `{TOTP} (s : Service) (crypt : option Provider) (l : list attempt_at)
  : M (list (attempt_at * result login_outcome)) :=
  match l with
  | [] => mret []
  | a :: l =>
    r ← attempt (LoginWithMFA s crypt (a_org a) (a_login a) (a_raw a) (a_code a) (a_recovery a) (a_ip a) (a_ua a));
    rest ← logins s crypt l;
    mret ((a, r) :: rest)
  end.

Section guesses.
Context `{UnicodeTables} `{Argon2} `{TOTP}.
Variables (s : Service) (crypt : option Provider) (e : Env).
Hypothesis faultless : no_faults e.
Hypothesis monotone : forall i j, (i <= j)%nat -> clock e i <= clock e j.

Lemma advances_user_login org login : advances (UserByLogin org login).
Proof. unfold UserByLogin, with_roles, RolesForUser, PermissionsForUser. advances_walk. Qed.

Lemma advances_resolve org : advances (in_settings (resolveSecurityPolicy s org)).
Proof. unfold in_settings, resolveSecurityPolicy, SecuritySettings. advances_walk. Qed.

Lemma advances_failure user max lock : advances (RecordLoginFailure user max lock).
Proof. unfold RecordLoginFailure. advances_walk. Qed.

Lemma advances_verify user code recovery : advances (verifyLoginMFA crypt user code recovery).
Proof.
  unfold verifyLoginMFA, ActiveMFAFactor, mfaFactor, verifyMFAFactor, check_code, check_recovery,
    ConsumeMFARecoveryCode, affected. advances_walk.
Qed.

#[local] Hint Resolve advances_user_login advances_resolve advances_failure advances_verify : forge.

Lemma advances_open user policy mfa ip ua : advances (open_session user policy mfa ip ua).
Proof.
  unfold open_session, ResetLoginFailure, randomToken, CreateSession, or_drop_session, enforceMaxConcurrentSessions,
    ListUserSessionIDs, DeleteSessionByID, must_change, passwordExpiredAt. advances_walk.
Qed.

#[local] Hint Resolve advances_open : forge.

Lemma advances_login_as row raw code recovery ip ua : advances (login_as s crypt row raw code recovery ip ua).
Proof. unfold login_as, OrganizationByID, still_locked, check_credentials. advances_walk. Qed.

Lemma advances_login org login raw code recovery ip ua : advances (LoginWithMFA s crypt org login raw code recovery ip ua).
Proof.
  pose proof advances_login_as. unfold LoginWithMFA. advances_walk.
Qed.

(** Recording a failure of the user. *)
Lemma RecordLoginFailure_runs u max lock n t c l : meter u t = Ok (c, l) ->
  exists k n' t', RecordLoginFailure u max lock e n t = (Ok tt, n', t') /\ (n <= k <= n')%nat /\
    meter u t' = Ok (if Z.max 1 max <=? c + 1 then (0, Some (clock e k + lock)) else (c + 1, None)).
Proof.
  intros Hm. assert (E : (if max <=? 0 then 1 else max) = Z.max 1 max) by (destruct (max <=? 0) eqn:L; breflect; lia).
  unfold RecordLoginFailure. rewrite E.
  assert (S : exists r, select_row (is_user u) (users t) = Ok r /\ failures_of r = (c, l)).
  { unfold meter in Hm. destruct (select_row _ _) as [r|]; [|discriminate]. exists r. split; [done|].
    by injection Hm as <- <-. }
  destruct S as (r & S & R). unfold failures_of in R. injection R as Rc Rl.
  set (f := fun k => if Z.max 1 max <=? c + 1 then set_failures 0 (Some (clock e k + lock)) (clock e k)
                     else set_failures (c + 1) None (clock e k)).
  assert (M' : forall k, meter u (change_users (is_user u) (f k) t) =
    Ok (if Z.max 1 max <=? c + 1 then (0, Some (clock e k + lock)) else (c + 1, None))).
  { intros k. destruct (meter_set u (f k) t (c, l)) as (r' & S' & _ & ->); [|done|].
    - intros r'. unfold f. by destruct (Z.max 1 max <=? c + 1).
    - f_equal. unfold f. by destruct (Z.max 1 max <=? c + 1). }
  assert (B : forall e' n, clock e' = clock e -> no_faults e' ->
    (row ← queryR (fun t => select_row (is_user u) (users t));
     at_ ← now;
     exec (change_users (is_user u)
       (if Z.max 1 max <=? user_FailedLoginCount (row_User row) + 1
        then set_failures 0 (Some (timeAdd (UTC at_) lock)) (UTC at_)
        else set_failures (user_FailedLoginCount (row_User row) + 1) None (UTC at_)))) e' n t =
    (Ok tt, Datatypes.S (Datatypes.S (Datatypes.S n)), change_users (is_user u) (f (Datatypes.S n)) t)).
  { intros e' n0 C F. unfold mbind, M_bind, queryR, stmt. rewrite F, S. unfold now, exec, stmt. rewrite F, C, Rc.
    done. }
  unfold WithTx. destruct (in_tx e); [|rewrite faultless]; rewrite B by done; [|rewrite faultless];
    eexists _, _, _; (split; [reflexivity|]); (split; [|apply M']); lia.
Qed.

Lemma total_or_drop {A} (m : M A) session : total m -> total (or_drop_session m session).
Proof.
  intros Hm e' n t F. unfold or_drop_session, attempt. destruct (Hm e' n t F) as (a & n1 & t1 & E).
  exists a, n1, t1. unfold mbind, M_bind. by rewrite E.
Qed.

(** Once the credentials are right, only a duplicate identifier stops a login. *)
Lemma open_session_accepted user policy mfa ip ua n t :
  accepted (open_session user policy mfa ip ua e n t).1.1 = true.
Proof.
  unfold open_session.
  assert (T : forall k, total (randomToken k)) by (unfold randomToken; total_walk).
  assert (R : total (ResetLoginFailure (user_ID user))) by (unfold ResetLoginFailure; total_walk).
  assert (X : forall session, total (or_drop_session (enforceMaxConcurrentSessions (user_ID user) (maxConcurrent policy)) session)).
  { intros session. apply total_or_drop.
    unfold enforceMaxConcurrentSessions, ListUserSessionIDs, DeleteSessionByID. total_walk. }
  assert (Y : total (must_change (user_MustChangePassword user) (user_PasswordChangedAt user) (maxAge policy)))
    by (unfold must_change, passwordExpiredAt; total_walk).
  assert (Z1 : total (if mfa then verifiedAt ← now; mret (Some (UTC verifiedAt)) else mret None : M (option Time)))
    by (destruct mfa; total_walk).
  next_total R. next_total (T 32%nat). next_total (T 24%nat). rewrite now_split. next_total Z1.
  match goal with |- context [(CreateSession ?u ?h ?x ?i ?a ?l ?v ≫= ?f) e ?n ?t] =>
    destruct (CreateSession u h x i a l v e n t) as [[[session|err] n5] t5] eqn:C end;
    unfold mbind at 1, M_bind at 1; rewrite C.
  - next_total (X session). next_total Y. done.
  - cbn. apply bool_decide_eq_true.
    unfold CreateSession, NewString, now, stmt, mbind, M_bind, insert_session in C. rewrite faultless in C.
    destruct (existsb _ _); cbn in C; [by injection C as <-|discriminate C].
Qed.

(** *** Errors that a part never returns *)
Definition never (target : error) {A} (m : M A) : Prop :=
  forall n t err n' t', m e n t = (Err err, n', t') -> errors_Is err target = false.

Lemma never_bind target {A B} (m : M A) (f : A -> M B) :
  never target m -> (forall a n t n1 t1, m e n t = (Ok a, n1, t1) -> never target (f a)) -> never target (m ≫= f).
Proof.
  intros Hm Hf n t err n' t'. unfold mbind, M_bind. destruct (m e n t) as [[[a|err1] n1] t1] eqn:E; [by eapply Hf|].
  intros [= <- _ _]. by eapply Hm.
Qed.
Lemma never_total target {A} (m : M A) : total m -> never target m.
Proof. intros T n t err n' t' E. destruct (T e n t faultless) as (a & n1 & t1 & E'). congruence. Qed.
Lemma never_fail target {A} err : errors_Is err target = false -> never target (fail err : M A).
Proof. by intros E n t err' n' t' [= <- _ _]. Qed.
Lemma never_lift target {A} (r : result A) :
  (forall err, r = Err err -> errors_Is err target = false) -> never target (lift r : M A).
Proof. intros Hr n t err n' t' [= E _ _]. by apply Hr. Qed.

Lemma affected_total {A} get put p f : total (@affected A get put p f).
Proof. intros e' n t F. unfold affected, stmt. rewrite F. by eexists _, _, _. Qed.

Lemma verifyLoginMFA_errors user code recovery : never ErrInvalidCredentials (verifyLoginMFA crypt user code recovery).
Proof.
  unfold verifyLoginMFA. apply never_bind; [by apply never_total, total_attempt|]. intros [factor|err0] k t k1 t1 E0.
  - destruct (_ && _); [by apply never_fail|]. apply never_bind; [|intros; by apply never_total, total_ret].
    unfold verifyMFAFactor. destruct crypt as [c|]; [|by apply never_fail].
    apply never_bind; [unfold check_code; destruct (_ =s _)|].
    + by apply never_total, total_ret.
    + apply never_bind; [|intros; apply never_total; total_walk].
      apply never_lift. intros err E. exact (@prov_Decrypt_own c _ _ err "ErrInvalidCredentials" E).
    + intros [|] _ _ _ _ _; [by apply never_total, total_ret|]. apply never_bind.
      * apply never_total. unfold check_recovery, ConsumeMFARecoveryCode. pose proof @affected_total. total_walk.
      * intros [|] _ _ _ _ _; [by apply never_total, total_ret|by apply never_fail].
  - apply attempt_inv in E0. unfold ActiveMFAFactor, mfaFactor, queryR, stmt in E0. rewrite faultless in E0.
    destruct (select_row _ _) as [f|err1] eqn:R; [discriminate|]. injection E0 as -> _ _.
    apply select_row_err in R as [-> _]. by apply never_total, total_ret.
Qed.

(** The credentials of the user [u], given the meter. *)
Lemma check_credentials_cases row policy raw code recovery n t c l r n' t' :
  meter (uid row) t = Ok (c, l) ->
  check_credentials crypt row policy raw code recovery e n t = (r, n', t') ->
  is_ok r = true \/
  exists err, r = Err err /\
    ((errors_Is err ErrInvalidMFA = false /\ err <> ErrInvalidCredentials /\ meter (uid row) t' = Ok (c, l)) \/
     ((err = ErrInvalidCredentials \/ errors_Is err ErrInvalidMFA = true) /\
      exists k, (n <= k <= n')%nat /\
      meter (uid row) t' = Ok (if Z.max 1 (maxFailures policy) <=? c + 1
                               then (0, Some (clock e k + lockDuration policy)) else (c + 1, None)))).
Proof.
  intros Hm Hr. unfold check_credentials in Hr. change (user_ID (row_User row)) with (uid row) in Hr.
  assert (Rec : forall n t, meter (uid row) t = Ok (c, l) -> forall err r n' t',
    ((_ ← RecordLoginFailure (uid row) (maxFailures policy) (lockDuration policy); fail err : M bool) e n t = (r, n', t')) ->
    r = Err err /\ exists k, (n <= k <= n')%nat /\
      meter (uid row) t' = Ok (if Z.max 1 (maxFailures policy) <=? c + 1
                               then (0, Some (clock e k + lockDuration policy)) else (c + 1, None))).
  { intros n0 t0 M0 err r0 n0' t0' E.
    destruct (RecordLoginFailure_runs (uid row) (maxFailures policy) (lockDuration policy) n0 t0 c l M0)
      as (k & n1 & t1 & R & K & M1).
    unfold mbind, M_bind in E. rewrite R in E. unfold fail in E. injection E as <- <- <-. eauto. }
  destruct (negb _) eqn:V.
  - right. apply (Rec _ _ Hm) in Hr as (-> & K). eauto 10.
  - unfold mbind at 1, M_bind at 1, attempt in Hr.
    destruct (verifyLoginMFA crypt (uid row) code recovery e n t) as [[v n1] t1] eqn:E.
    assert (M1 : meter (uid row) t1 = Ok (c, l)).
    { pose proof (keeps_verifyLoginMFA (meter_is (uid row) (c, l))
        ltac:(by intros) crypt (uid row) code recovery e n t Hm) as K. by rewrite E in K. }
    destruct v as [b|err].
    + left. unfold mret, M_ret in Hr. by injection Hr as <- _ _.
    + right. exists err. pose proof (verifyLoginMFA_errors _ _ _ _ _ _ _ _ E) as Never.
      destruct (errors_Is err ErrInvalidMFA) eqn:X.
      * apply (Rec _ _ M1) in Hr as (-> & k & K & ?). split; [done|]. right. split; [by right|]. exists k. split; [|done].
        pose proof (advances_verify (uid row) code recovery e n t) as A. rewrite E in A. cbn in A. lia.
      * cbn in Hr. injection Hr as <- _ <-. split; [done|]. left. split; [done|]. split; [|done].
        intros ->. discriminate.
Qed.

Lemma resolve_pure org n t : exists n1,
  in_settings (resolveSecurityPolicy s org) e n t = (policy_of s org (settings t), n1, t).
Proof.
  assert (P : forall st : Settings, t <| settings := st |> = t <| settings := st |>) by done.
  unfold in_settings, zoom, resolveSecurityPolicy, policy_of, SecuritySettings, query, stmt, mbind, M_bind,
    result_bind. destruct (org =s "").
  - unfold lift, mret, M_ret. destruct (validateResolvedPolicy _); exists n; by destruct t.
  - rewrite faultless. unfold lift, mret, M_ret. destruct (read_settings _ _) as [p|]; [|exists (S n); by destruct t].
    destruct (validateResolvedPolicy p); exists (S n); by destruct t.
Qed.

(** Somebody who tries the account of [row]: let in, turned away without a
    guess, or with a guess that counts. *)
Lemma login_as_cases row raw code recovery ip ua policy n t c l r n' t' :
  meter (uid row) t = Ok (c, l) -> failures_of row = (c, l) ->
  policy_of s (uorg row) (settings t) = Ok policy ->
  login_as s crypt row raw code recovery ip ua e n t = (r, n', t') ->
  accepted r = true \/ (wrong r = false /\ meter (uid row) t' = Ok (c, l)) \/
  (wrong r = true /\ (forall until, l = Some until -> until <= clock e n') /\
   exists k, (n <= k <= n')%nat /\
     meter (uid row) t' = Ok (if Z.max 1 (maxFailures policy) <=? c + 1
                              then (0, Some (clock e k + lockDuration policy)) else (c + 1, None))).
Proof.
  intros Hm Hf Hp Hr. unfold failures_of in Hf. injection Hf as Hc Hl. unfold login_as in Hr.
  change (user_OrganizationID (row_User row)) with (uorg row) in Hr. unfold mbind at 1, M_bind at 1 in Hr.
  destruct (OrganizationByID (uorg row) e n t) as [[[o|err] n1] t1] eqn:O;
    unfold OrganizationByID, queryR, stmt in O; rewrite faultless in O;
    destruct (select_row _ _) as [o1|err1] eqn:R in O; try discriminate O; injection O as -> <- <-.
  2: { injection Hr as <- _ <-. right. left. apply select_row_err in R as [-> _]. done. }
  apply guard_split in Hr as [(_ & -> & ->)|(_ & Hr)]; [right; left; done|].
  destruct (resolve_pure (uorg row) (S n) t) as [n2 P]. rewrite Hp in P.
  unfold mbind at 1, M_bind at 1 in Hr. rewrite P in Hr.
  apply guard_split in Hr as [(_ & -> & ->)|(_ & Hr)]; [right; left; done|].
  assert (L : (exists until n3, r = Ok (Locked until) /\ n' = n3 /\ t' = t) \/
    exists n3, (n <= n3)%nat /\ (forall until, l = Some until -> until <= clock e n3) /\
      (mfaVerified ← check_credentials crypt row policy raw code recovery;
       open_session (row_User row) policy mfaVerified ip ua) e n3 t = (r, n', t')).
  { assert (N : (S n <= n2)%nat) by (pose proof (advances_resolve (uorg row) e (S n) t) as A; rewrite P in A; exact A).
    unfold still_locked in Hr. rewrite Hl in Hr. destruct l as [until|].
    - unfold mbind at 1 3, M_bind at 1 3, now at 1 in Hr. unfold mret, M_ret, Before in Hr.
      destruct (clock e n2 <? until) eqn:B.
      + injection Hr as <- <- <-. left. eauto.
      + right. exists (S n2). split; [lia|]. split; [|exact Hr]. intros v [= <-]. breflect.
        pose proof (monotone n2 (S n2)). lia.
    - right. exists n2. split; [lia|]. split; [done|exact Hr]. }
  destruct L as [(until & n3 & -> & _ & ->)|(n3 & N & U & E)]; [right; left; done|]. clear Hr.
  unfold mbind at 1, M_bind at 1 in E.
  destruct (check_credentials crypt row policy raw code recovery e n3 t) as [[v n4] t4] eqn:C.
  pose proof C as C'. apply (check_credentials_cases row policy raw code recovery n3 t c l v n4 t4 Hm) in C'.
  destruct v as [b|err].
  - left. pose proof (open_session_accepted (row_User row) policy b ip ua n4 t4) as A. by rewrite E in A.
  - injection E as <- <- <-. right. destruct C' as [?|(err' & [= <-] & [(X & Y & M1)|(X & k & K & M1)])]; [done| |].
    + left. split; [|done]. cbn. rewrite X. by rewrite bool_decide_false.
    + right. split; [cbn; destruct X as [-> | ->]; [done|by rewrite orb_true_r]|]. split.
      * intros v Ev. specialize (U v Ev). pose proof (monotone n3 n4). lia.
      * exists k. split; [lia|done].
Qed.

Lemma UserByLogin_runs org login n t row : select_row (account org login) (users t) = Ok row ->
  exists row1 n1, UserByLogin org login e n t = (Ok row1, n1, t) /\ (n <= n1)%nat /\
    uid row1 = uid row /\ uorg row1 = uorg row /\ failures_of row1 = failures_of row.
Proof.
  intros R. pose proof (advances_user_login org login e n t) as A.
  assert (G : exists row1 n1, UserByLogin org login e n t = (Ok row1, n1, t) /\
    uid row1 = uid row /\ uorg row1 = uorg row /\ failures_of row1 = failures_of row).
  { unfold UserByLogin, with_roles.
    destruct (attempt_reads (RolesForUser (uid row)) e (S n) t) as (keys & n1 & E1);
      [apply keeps_reads; intros; unfold RolesForUser; keeps_walk|].
    destruct (attempt_reads (PermissionsForUser (uid row)) e n1 t) as (allowed & n2 & E2);
      [apply keeps_reads; intros; unfold PermissionsForUser; keeps_walk|].
    unfold queryR, stmt, mbind at 1, M_bind at 1. rewrite faultless. unfold account in R. rewrite R.
    unfold mbind at 1, M_bind at 1. rewrite E1. unfold mbind at 1, M_bind at 1. rewrite E2.
    by eexists _, n2. }
  destruct G as (row1 & n1 & E & G). exists row1, n1. rewrite E in A. done.
Qed.

Lemma UserByLogin_none org login n t err : select_row (account org login) (users t) = Err err ->
  exists err1 n1, UserByLogin org login e n t = (Err err1, n1, t).
Proof.
  intros R. unfold UserByLogin, queryR, stmt, mbind at 1, M_bind at 1. rewrite faultless.
  unfold account in R. rewrite R. by eexists _, _.
Qed.

(** One login and the account of [row]. *)
Lemma login_step org login row a policy n t c l r n' t' :
  NoDup (map uid (users t)) -> select_row (account org login) (users t) = Ok row ->
  meter (uid row) t = Ok (c, l) -> policy_of s org (settings t) = Ok policy ->
  LoginWithMFA s crypt (a_org a) (a_login a) (a_raw a) (a_code a) (a_recovery a) (a_ip a) (a_ua a) e n t = (r, n', t') ->
  (for_account org login a = false /\ meter (uid row) t' = Ok (c, l)) \/
  (for_account org login a = true /\
   (accepted r = true \/ (wrong r = false /\ meter (uid row) t' = Ok (c, l)) \/
    (wrong r = true /\ (forall until, l = Some until -> until <= clock e n') /\
     exists k, (n <= k <= n')%nat /\
       meter (uid row) t' = Ok (if Z.max 1 (maxFailures policy) <=? c + 1
                                then (0, Some (clock e k + lockDuration policy)) else (c + 1, None))))).
Proof.
  intros N R Hm Hp Hr. unfold LoginWithMFA in Hr. unfold mbind at 1, M_bind at 1, attempt in Hr.
  apply select_row_ok in R as R'. destruct R' as [Hrow Hacc].
  destruct (for_account org login a) eqn:Fa.
  - right. split; [done|]. unfold for_account in Fa. breflect. subst org login.
    destruct (UserByLogin_runs _ _ n t row R) as (row1 & n1 & E & L & U & O & F). rewrite E in Hr.
    apply andb_true_iff in Hacc as [Ho _]. apply String.eqb_eq in Ho.
    assert (FM : failures_of row = (c, l)).
    { unfold meter in Hm. destruct (select_row (is_user (uid row)) (users t)) as [row2|] eqn:S2; [|discriminate].
      apply select_row_ok in S2 as [Hr2 E2]. apply String.eqb_eq in E2.
      assert (row2 = row) as -> by (by eapply (NoDup_map_eq uid)).
      cbn in Hm. by injection Hm as <- <-. }
    rewrite <- U in Hm |- *. rewrite <- F in FM. rewrite <- Ho, <- O in Hp.
    destruct (login_as_cases _ _ _ _ _ _ _ _ _ _ _ _ _ _ Hm FM Hp Hr) as [?|[?|(W & B & k & K & M')]]; [by left|by right; left|].
    right. right. split; [done|]. split; [done|]. exists k. split; [lia|done].
  - left. split; [done|].
    destruct (select_row (account (a_org a) (TrimSpace (a_login a))) (users t)) as [row0|err] eqn:R0.
    + destruct (UserByLogin_runs _ _ n t row0 R0) as (row1 & n1 & E & L & U & O & F). rewrite E in Hr.
      apply select_row_ok in R0 as [H0row A0].
      assert (D : uid row1 <> uid row).
      { rewrite U. intros E0. assert (row0 = row) as -> by (by eapply (NoDup_map_eq uid)).
        apply andb_true_iff in A0 as [A1 A2], Hacc as [A3 A4]. apply String.eqb_eq in A1, A2, A3, A4.
        unfold for_account in Fa. by rewrite <- A1, <- A2, A3, A4, !seqb_refl in Fa. }
      pose proof (keeps_login_as s crypt (meter_is (uid row) (c, l)) ltac:(done) ltac:(done) row1 (a_raw a) (a_code a)
        (a_recovery a) (a_ip a) (a_ua a)) as K.
      specialize (K ltac:(intros f t0 Hf _; by apply meter_other) e n1 t Hm). by rewrite Hr in K.
    + destruct (UserByLogin_none _ _ n t err R0) as (err1 & n1 & E). rewrite E in Hr. by injection Hr as _ _ <-.
Qed.

(** The account among the keys that logins leave alone. *)
Definition named (org login : string) (k : string * string * string) : bool := (k.1.2 =s org) && (k.2 =s login).

Lemma account_row org login t K st u : base_is K st t ->
  fst ∘ fst <$> select_row (named org login) K = Ok u ->
  exists row, select_row (account org login) (users t) = Ok row /\ uid row = u.
Proof.
  intros [<- _]. unfold select_row.
  induction (users t) as [|r rows IH]; [discriminate|]. cbn [map List.find].
  change (named org login (user_key r)) with (account org login r).
  destruct (account org login r); [|exact IH]. intros [= <-]. by exists r.
Qed.

Lemma keys_users K st t : base_is K st t -> map (fst ∘ fst) K = map uid (users t).
Proof. intros [<- _]. rewrite map_map. done. Qed.

Definition guess (org login : string) (o : attempt_at * result login_outcome) : bool :=
  for_account org login o.1 && wrong o.2.

(** How many guesses are left until the end of the lock, seen at the instant [stop]. *)
Definition guesses_left (max : Z) (stop : Time) (m : Z * option Time) : Z :=
  match m.2 with
  | Some until => if stop <? until then 0 else Z.max 1 (max - m.1)
  | None => Z.max 1 (max - m.1)
  end.

Lemma guesses_left_nonneg max stop m : 0 <= guesses_left max stop m.
Proof. unfold guesses_left. destruct m.2; [destruct (_ <? _)|]; lia. Qed.

Lemma logins_tick l n t : (n <= (logins s crypt l e n t).1.2)%nat.
Proof.
  revert n t. pose proof (fun a => advances_login (a_org a) (a_login a) (a_raw a) (a_code a) (a_recovery a) (a_ip a) (a_ua a)) as A.
  enough (G : advances (logins s crypt l)) by (intros; apply G).
  induction l as [|a l IH]; cbn [logins]; [apply advances_ret|]. apply advances_bind; [by apply advances_attempt|].
  intros r. apply advances_bind; [done|]. intros rest. apply advances_ret.
Qed.

Lemma keeps_base_login K st a :
  keeps (base_is K st) (LoginWithMFA s crypt (a_org a) (a_login a) (a_raw a) (a_code a) (a_recovery a) (a_ip a) (a_ua a)).
Proof.
  unfold LoginWithMFA. apply keeps_bind.
  { apply keeps_attempt. unfold UserByLogin, with_roles, RolesForUser, PermissionsForUser. keeps_walk. }
  intros [row|err]; [|keeps_walk]. apply keeps_login_as; [done|done|].
  intros f t _ Hk [B1 B2]. split; [by apply keys_change|done].
Qed.

Lemma guesses_bound org login policy K st u T l : 1 <= maxFailures policy ->
  NoDup (map (fst ∘ fst) K) -> fst ∘ fst <$> select_row (named org login) K = Ok u ->
  policy_of s org st = Ok policy ->
  forall n t outs n' t' m, base_is K st t -> meter u t = Ok m -> 0 <= m.1 ->
  logins s crypt l e n t = (Ok outs, n', t') ->
  (forall a r, (a, r) ∈ outs -> for_account org login a = true -> accepted r = false) ->
  T <= clock e n -> clock e n' < T + lockDuration policy ->
  count_if (guess org login) outs <= guesses_left (maxFailures policy) (clock e n') m.
Proof.
  intros Hmax N U Hp. induction l as [|a l IH]; intros n t outs n' t' [c lk] B Hm Hc E Acc T0 T1; cbn [logins] in E.
  - apply ret_ok in E as (<- & _ & _). rewrite count_if_nil. apply guesses_left_nonneg.
  - apply bind_ok in E as (r & n1 & t1 & E1 & E). apply attempt_inv in E1.
    apply bind_ok in E as (rest & n2 & t2 & E2 & E3). apply ret_ok in E3 as (<- & <- & <-).
    destruct (account_row org login t K st u B U) as (row & R & <-).
    assert (B1 : base_is K st t1).
    { pose proof (keeps_base_login K st a e n t B) as B'. by rewrite E1 in B'. }
    pose proof (logins_tick l n1 t1) as L2. rewrite E2 in L2. cbn in L2.
    pose proof (advances_login (a_org a) (a_login a) (a_raw a) (a_code a) (a_recovery a) (a_ip a) (a_ua a) e n t) as L1.
    rewrite E1 in L1. cbn in L1.
    assert (T2 : T <= clock e n1) by (pose proof (monotone n n1 L1); lia).
    assert (Rest : forall m, meter (uid row) t1 = Ok m -> 0 <= m.1 ->
      count_if (guess org login) rest <= guesses_left (maxFailures policy) (clock e n2) m).
    { intros m M1 C1. eapply IH; eauto. intros a' r' I F. apply (Acc a' r'); [by right|done]. }
    rewrite count_if_cons. unfold guess at 1. cbn [fst snd].
    destruct (login_step org login row a policy n t c lk r n1 t1) as [[F M1]|(F & [X|[[W M1]|(W & B2 & k & Kk & M1)]])];
      try done.
    + rewrite <- (keys_users K st t B). exact N.
    + destruct B as [_ ->]. exact Hp.
    + rewrite F. cbn. apply (Rest _ M1). exact Hc.
    + by rewrite (Acc a r) in X; [|left|].
    + rewrite F, W. cbn. apply (Rest _ M1). exact Hc.
    + rewrite F, W. cbn. pose proof (monotone n1 n2 L2). pose proof (monotone n k). pose proof (monotone k n1).
      assert (Z.max 1 (maxFailures policy) = maxFailures policy) as Em by lia. rewrite Em in M1.
      assert (Now : guesses_left (maxFailures policy) (clock e n2) (c, lk) = Z.max 1 (maxFailures policy - c)).
      { unfold guesses_left. cbn. destruct lk as [until|]; [|done]. specialize (B2 until eq_refl).
        destruct (_ <? _) eqn:X; breflect; lia. }
      rewrite Now. cbn in Hc. destruct (maxFailures policy <=? c + 1) eqn:D; breflect.
      * pose proof (Rest _ M1 ltac:(cbn; lia)) as G. unfold guesses_left in G. cbn in G.
        destruct (clock e n2 <? clock e k + lockDuration policy) eqn:X; breflect; lia.
      * pose proof (Rest _ M1 ltac:(cbn; lia)) as G. unfold guesses_left in G. cbn in G. lia.
Qed.
End guesses.

Lemma policy_of_bounds s org st p : policy_of s org st = Ok p -> 1 <= maxFailures p <= maximumLoginFailures.
Proof.
  unfold policy_of, mbind, result_bind. intros E.
  destruct (if org =s "" then _ else _) as [out|]; [|discriminate].
  destruct (validateResolvedPolicy out) as [[]|] eqn:V; [|discriminate]. injection E as <-.
  unfold validateResolvedPolicy, validateSecurityPolicy, shown_policy, invalid_policy in V.
  cbn [sp_LoginMaxFailures] in V. guards V. orsplit. lia.
Qed.

(** C21.  Guessing is limited: while an account's credentials are not accepted,
    at most [maxFailures] (no more than five) wrong passwords and second factors
    are looked at in any period shorter than the lock, whoever logs in in
    between and to whatever account, one login after the other; the other
    attempts are answered without a look at what they submit. *)
Theorem guesses_are_limited `{UnicodeTables} `{Argon2} `{TOTP} s crypt l e n t outs n' t' org login row policy :
  no_faults e -> (forall i j, (i <= j)%nat -> clock e i <= clock e j) ->
  NoDup (map uid (users t)) -> select_row (account org login) (users t) = Ok row ->
  0 <= user_FailedLoginCount (row_User row) ->
  policy_of s org (settings t) = Ok policy ->
  logins s crypt l e n t = (Ok outs, n', t') ->
  (forall a r, (a, r) ∈ outs -> for_account org login a = true -> accepted r = false) ->
  clock e n' < clock e n + lockDuration policy ->
  count_if (guess org login) outs <= maxFailures policy /\ maxFailures policy <= 5.
Proof.
  intros F Mono N R C P E Acc W. pose proof (policy_of_bounds _ _ _ _ P) as B. split; [|apply B].
  apply select_row_ok in R as R'. destruct R' as [Hrow _].
  assert (Hm : meter (uid row) t = Ok (failures_of row)).
  { unfold meter. unfold select_row at 1. destruct (List.find _ _) as [row2|] eqn:S2.
    - apply List.find_some in S2 as [H2' E2]. apply String.eqb_eq in E2. apply list_elem_of_In in H2'.
      by assert (row2 = row) as -> by (by eapply (NoDup_map_eq uid)).
    - apply list_elem_of_In in Hrow. pose proof (List.find_none _ _ S2 row Hrow) as X. unfold is_user in X.
      by rewrite seqb_refl in X. }
  assert (U : fst ∘ fst <$> select_row (named org login) (map user_key (users t)) = Ok (uid row)).
  { clear -R. unfold select_row in *. induction (users t) as [|r rows IH]; [discriminate|]. cbn [map List.find] in *.
    change (named org login (user_key r)) with (account org login r).
    destruct (account org login r); [by injection R as ->|by apply IH]. }
  pose proof (guesses_bound s crypt e F Mono org login policy (map user_key (users t)) (settings t) (uid row)
    (clock e n) l ltac:(lia) ltac:(by rewrite map_map) U P n t outs n' t' (failures_of row) ltac:(done) Hm C E Acc
    ltac:(lia) W) as G.
  unfold guesses_left in G. cbn in G. destruct (user_LockedUntil _); [destruct (_ <? _)|]; lia.
Qed.

(** ** Sessions that end *)

(** What ends sessions, with the sessions that it ends. *)
Inductive ending :=
| ChangesPassword (actor : Principal) (current next : string)
| ResetsPassword (org user next : string)
| DisablesMFA (actor : Principal) (currentPassword code recoveryCode : string)
| DisablesUser (org user status : string)
| LogsOut (token : string)
| Revokes (org session currentSession : string).

Definition ended (o : ending) (x : SessionRow) : bool :=
  match o with
  | ChangesPassword actor _ _ | DisablesMFA actor _ _ _ =>
    (ses_user_id x =s p_UserID actor) && (ses_id x <>s p_SessionID actor)
  | ResetsPassword _ user _ => ses_user_id x =s user
  | DisablesUser _ user status => (ToUpper (TrimSpace status) <>s "ACTIVE") && (ses_user_id x =s user)
  | LogsOut token => (token <>s "") && (ses_token_hash x =s hashToken token)
  | Revokes _ session _ => ses_id x =s session
  end.

Section endings.
Context `{UnicodeTables} `{Argon2} `{TOTP}.
Variables (s : Service) (crypt : option Provider).

Definition run_ending (o : ending) : M unit :=
  match o with
  | ChangesPassword actor current next => ChangePassword s actor current next
  | ResetsPassword org user next => AdminResetPassword s org user next
  | DisablesMFA actor currentPassword code recoveryCode => DisableMFA crypt actor currentPassword code recoveryCode
  | DisablesUser org user status => SetUserStatus org user status
  | LogsOut token => Logout token
  | Revokes org session currentSession => RevokeSession org session currentSession
  end.

(** The sessions are among [base], and [p] selects none of them. *)
Definition among (base : list SessionRow) (t : Tables) : Prop := forall x, x ∈ sessions t -> x ∈ base.
Definition none (p : SessionRow -> bool) {A} (_ : A) (t : Tables) : Prop := forall x, x ∈ sessions t -> p x = false.

Variable base : list SessionRow.
Notation I := (among base).

Lemma spec_after {A B} (m : M A) (f : A -> M B) Q :
  keeps I m -> (forall a, spec I (fun _ => True) (f a) Q) -> spec I (fun _ => True) (m ≫= f) Q.
Proof. intros Hm Hf. eapply spec_bind; [by apply spec_keeps|]. intros a. apply Hf. Qed.

Lemma spec_drop p : spec I (fun _ => True) (exec (drop_sessions p)) (none p).
Proof.
  apply spec_exec. intros t A _. unfold among, none, drop_sessions, put_sessions. cbn.
  split; intros x Hx; apply elem_of_delete_where in Hx as [X P]; auto.
Qed.

Lemma keeps_put_users rows t : I t -> I (put_users rows t).
Proof. done. Qed.
Lemma keeps_history_row h : keeps I (stmt (insert_history h)).
Proof.
  apply keeps_stmt. intros t x t' A E. unfold insert_history in E. destruct (existsb _ _); [discriminate|].
  by injection E as _ <-.
Qed.
Lemma keeps_users p f : keeps I (exec (change_users p f)).
Proof. by apply keeps_exec. Qed.
Lemma keeps_settings org : keeps I (in_settings (resolveSecurityPolicy s org)).
Proof. apply reads_keeps, in_settings_reads, reads_resolve. Qed.
Lemma keeps_active org : keeps I (enforceOrganizationActive org).
Proof. apply reads_keeps, reads_organization_active. Qed.
Lemma keeps_reuse policy user next hash : keeps I (check_reuse policy user next hash).
Proof. unfold check_reuse, PasswordHistory. keeps_walk. Qed.
Lemma keeps_factor factor code recovery : keeps I (verifyMFAFactor crypt factor code recovery).
Proof. by apply keeps_verifyMFAFactor. Qed.
#[local] Hint Resolve keeps_history_row keeps_users keeps_settings keeps_active keeps_reuse keeps_factor keeps_UserByID : forge.

Lemma run_ending_ends o : spec I (fun _ => True) (run_ending o) (none (ended o)).
Proof.
  destruct o; cbn [run_ending ended].
  - unfold ChangePassword, PasswordHashByID, Hash, UpdatePasswordAndRevokeOtherSessions.
    repeat (apply spec_after; [keeps_walk|intros ?]). apply spec_WithTx.
    repeat (apply spec_after; [keeps_walk|intros ?]). apply spec_drop.
  - unfold AdminResetPassword, PasswordHashByID, Hash, repo_AdminResetPassword.
    repeat (apply spec_after; [keeps_walk|intros ?]). apply spec_WithTx.
    repeat (apply spec_after; [keeps_walk|intros ?]). apply spec_drop.
  - unfold DisableMFA, PasswordHashByID, ActiveMFAFactor, mfaFactor, DeleteMFAAndOtherSessions.
    repeat (apply spec_after; [keeps_walk|intros ?]). apply spec_WithTx.
    apply spec_after; [by apply keeps_exec|intros ?]. apply spec_drop.
  - unfold SetUserStatus, none. cbn [ended]. set (status' := ToUpper _). apply spec_after; [keeps_walk|intros _].
    unfold repo_SetUserStatus, user_by_id, lockActiveSystemAdmins. apply spec_WithTx.
    repeat (apply spec_after; [keeps_walk; by apply keeps_stmt; intros ? ? ? ? [= _ <-]|intros ?]).
    destruct (status' <>s "ACTIVE"); [|by apply spec_ret; intros t _ _ x _].
    apply (spec_drop (fun x => ses_user_id x =s user)).
  - unfold Logout, none. cbn [ended]. destruct (token =s ""); [by apply spec_ret; intros t _ _ x _|].
    apply (spec_drop (fun x => ses_token_hash x =s hashToken token)).
  - unfold RevokeSession, repo_RevokeSession. destruct (_ || _); [apply spec_fail|].
    do 2 (apply spec_after; [keeps_walk|intros ?]).
    eapply spec_bind with (Q := none (fun x => ses_id x =s session)).
    + apply spec_stmt. intros t k t' A _ [= _ <-]. unfold among, none, drop_sessions, put_sessions. cbn.
      split; intros x Hx; apply elem_of_delete_where in Hx as [X P]; auto.
    + intros k e n t A N. destruct (spec_guard I (none (fun x => ses_id x =s session) k) (k =? 0) ErrNoRows e n t A N) as [G1 G2].
      split; [done|]. intros a1 n' t' E. by apply G2 in E as [? _].
Qed.

(** A token whose hash no session has is refused. *)
Lemma stale_token token e n t :
  (forall x, x ∈ sessions t -> ses_token_hash x <> hashToken token) ->
  is_ok (Authenticate s token e n t).1.1 = false.
Proof.
  intros N. unfold Authenticate. destruct (token =s ""); [done|].
  unfold mbind at 1, M_bind at 1, PrincipalBySessionHash, mbind at 1, M_bind at 1, queryR, stmt.
  destruct (faults e n); [done|]. unfold session_user.
  enough (flat_map (fun x => map (pair x) (select (fun r => (ses_token_hash x =s hashToken token) && (ustatus r =s "ACTIVE"))
    (user_of t (ses_user_id x)))) (sessions t) = []) as -> by done.
  revert N. induction (sessions t) as [|x l IH]; intros N; [done|]. cbn.
  rewrite IH by (intros y Hy; apply N; by right). rewrite seqb_neq by (apply N; left). cbn.
  rewrite app_nil_r. by induction (user_of t _).
Qed.
End endings.

(** C22.  What ends a session keeps its token out: after a change of password
    (for every other session of the user), a reset by an administrator, the
    removal of the second factor, the deactivation of the user (for every
    session), a logout and a revocation (for that session), authenticating with
    the token of an ended session fails, whenever that is tried. *)
Theorem ended_sessions_stay_out `{UnicodeTables} `{Argon2} `{TOTP} s crypt o e n t n' t' x token :
  NoDup (map ses_token_hash (sessions t)) ->
  run_ending s crypt o e n t = (Ok tt, n', t') ->
  x ∈ sessions t -> ended o x = true -> hashToken token = ses_token_hash x ->
  forall e1 n1, is_ok (Authenticate s token e1 n1 t').1.1 = false.
Proof.
  intros N R Hx E T e1 n1. apply stale_token. rewrite T.
  destruct (run_ending_ends s crypt (sessions t) o e n t) as [A Q]; [by intros ?|done|]. rewrite R in A. cbn in A.
  specialize (Q tt n' t' R). intros y Hy Ey. pose proof (A y Hy) as Hy'.
  assert (y = x) as -> by (by eapply (NoDup_map_eq ses_token_hash)). specialize (Q x Hy). congruence.
Qed.


(** ** Samples *)

Module examples.
(** Codes are the secrets themselves. *)
Definition totp : TOTP :=
  {| totp_Generate := fun _ _ _ account => Ok (account, "url"); totp_Validate := fun _ code secret => code =s secret |}.
#[local] Existing Instances Roles.examples.unicode sample_argon2 totp.

Definition env : Env :=
  mkEnv (fun n => 1000 + Z.of_nat n) (fun n => "id" +:+ Itoa (Z.of_nat n)) (fun _ => None)
    (fun n i => ascii_of_nat (n + i)) false.
Definition bob_guess : attempt_at := mkAttempt "o" " bob" "wrong" "" "" "ip" "ua".
Definition adm_guess : attempt_at := mkAttempt "o" "adm" "wrong" "" "" "ip" "ua".

(** Seven guesses of Bob's password, and one of another account. *)
Definition tries : list attempt_at := repeat bob_guess 3 ++ [adm_guess] ++ repeat bob_guess 4.
Definition tried := logins Roles.examples.service None tries env O Roles.examples.tables.
Definition outcomes : list (attempt_at * result login_outcome) :=
  match tried.1.1 with Ok outs => outs | Err _ => [] end.
Definition default_policy : resolvedPolicy :=
  mkResolved (mkPolicy 12 true true true true) (8 * Hour) 5 (15 * Minute) (90 * 24 * Hour) 5 5.

Lemma tried_outcomes : tried = (Ok outcomes, tried.1.2, tried.2).
Proof.
  unfold outcomes. destruct tried as [[[outs|err] n'] t'] eqn:E; [done|exfalso].
  apply (f_equal (fun x => is_ok x.1.1)) in E. vm_compute in E. discriminate E.
Qed.
End examples.

(** Five of Bob's seven guesses are looked at. *)
Lemma guesses_are_limited_witness :
  count_if (guess "o" "bob") examples.outcomes <= 5 /\ count_if (guess "o" "bob") examples.outcomes = 5.
Proof.
  split; [|vm_compute; reflexivity].
  refine (proj1 (@guesses_are_limited Roles.examples.unicode sample_argon2 examples.totp Roles.examples.service None
    examples.tries examples.env O Roles.examples.tables examples.outcomes examples.tried.1.2 examples.tried.2
    "o" "bob" (Roles.examples.user "bob") examples.default_policy _ _ _ _ _ _ examples.tried_outcomes _ _)).
  - exact (fun _ => eq_refl).
  - intros i j L. cbn. lia.
  - apply (bool_decide_unpack _). vm_compute. exact I.
  - reflexivity.
  - cbn. lia.
  - vm_compute. reflexivity.
  - intros a r I _.
    assert (A : forallb (fun o => negb (accepted o.2)) examples.outcomes = true) by (vm_compute; reflexivity).
    rewrite forallb_forall in A. apply list_elem_of_In in I. specialize (A _ I). by apply negb_true_iff in A.
  - vm_compute. reflexivity.
Defined.

#[local] Existing Instances Roles.examples.unicode sample_argon2 examples.totp.

Module sessions_example.
Definition session (id user token : string) : SessionRow :=
  mkSession id user (hashToken token) (2000 * Hour) 1 1 "" "" "PASSWORD" None.
Definition hash : string := Hash_with DefaultHasher "Current-Pass-1" "0123456789abcdef".
Definition tables : Tables :=
  put_sessions [session "s1" "bob" "token-1"; session "s2" "bob" "token-2"; session "s3" "sec" "token-3"]
    (change_users (is_user "bob") (fun r => r <| row_PasswordHash := hash |>) Roles.examples.tables).
Definition bob : Principal :=
  mkPrincipal "USER" "bob" "o" "bob" "bob" [] [] [] false "s1" 1 (mkDataScope false true []) "PASSWORD" None.
Definition change : ending := ChangesPassword bob "Current-Pass-1" "Another-Pass-2".
Definition changed := run_ending Roles.examples.service None change examples.env O tables.
End sessions_example.

(** Bob's other session ends with the change of password, his own and those of
    the others go on. *)
Lemma ended_sessions_stay_out_witness :
  is_ok (Authenticate Roles.examples.service "token-2" examples.env 1000%nat sessions_example.changed.2).1.1 = false /\
  is_ok (Authenticate Roles.examples.service "token-1" examples.env 1000%nat sessions_example.changed.2).1.1 = true.
Proof.
  split; [|vm_compute; reflexivity].
  refine (@ended_sessions_stay_out Roles.examples.unicode sample_argon2 examples.totp Roles.examples.service None
    sessions_example.change examples.env O sessions_example.tables sessions_example.changed.1.2 sessions_example.changed.2
    (sessions_example.session "s2" "bob" "token-2") "token-2" _ _ _ _ _ examples.env 1000%nat).
  - apply (bool_decide_unpack _). vm_compute. exact I.
  - vm_compute. reflexivity.
  - right. left.
  - vm_compute. reflexivity.
  - vm_compute. reflexivity.
Defined.

(** ** What the limit misses *)

(** A wrong guess that was being looked at while the account was locked is
    recorded after the lock: it clears it. *)
Example a_late_failure_lifts_the_lock :
  let locked := (RecordLoginFailure "bob" 1 (15 * Minute) examples.env O Roles.examples.tables).2 in
  meter "bob" locked = Ok (0, Some (900000001002)) /\
  meter "bob" (RecordLoginFailure "bob" 5 (15 * Minute) examples.env 10%nat locked).2 = Ok (1, None).
Proof. vm_compute. split; reflexivity. Qed.
