(* ===== verification/RequestGate.v ===== *)
(** * The request gate

    Who a request comes from, what it may call and whether a browser was tricked
    into it: the middlewares [internal/platform/authn], [internal/platform/csrf]
    and [internal/platform/authz] in the order in which
    [internal/bootstrap/app.go] puts them before every handler.  The selector,
    the transport and the errors of Kratos are parameters. *)

From S2P Require Import Prelude GoString Crypto Strconv Database Keyring Identity GrantPolicy Password.
From S2P Require Import SecurityPolicy Directory IdentityStore Roles Accounts.

(** ** Strings and cookies of the standard library *)

(** [strings.Fields]: the runs of characters that are not white space. *)
Fixpoint fields_of (rs word : list rune) : list string :=
  match rs with
  | [] => if decide (word = []) then [] else [unrunes word]
  | r :: rs =>
    if IsSpace (rune_val r) then (if decide (word = []) then fields_of rs [] else unrunes word :: fields_of rs [])
    else fields_of rs (word ++ [r])
  end.
Definition Fields (s : string) : list string := fields_of (runes s) [].

(** [strings.EqualFold] with an ASCII text: two other characters fold to
    letters, the Kelvin sign and the long s. *)
Definition fold_rune (r : Z) : Z :=
  if GoString.in_range 65 90 r then r + 32 else if r =? 8490 then 107 else if r =? 383 then 115 else r.
Definition EqualFold (s t : string) : bool :=
  bool_decide (map (fun r => fold_rune (rune_val r)) (runes s) = map (fun r => fold_rune (rune_val r)) (runes t)).

(** [strings.Cut] at a byte. *)
Definition Cut (s : string) (c : ascii) : string * string :=
  match IndexByte s c with Some i => (stake i s, sdrop (S i) s) | None => (s, "") end.

(** The parts between the separators. *)
Fixpoint split_byte (c : ascii) (s : string) : list string :=
  match s with
  | EmptyString => [""]
  | String a s =>
    if Ascii.eqb a c then "" :: split_byte c s
    else match split_byte c s with p :: ps => String a p :: ps | [] => [String a ""] end
  end.

(** [textproto.TrimString]. *)
Definition header_space (c : ascii) : bool := existsb (Z.eqb (byte_val c)) [32; 9; 10; 13].
Definition TrimString (s : string) : string :=
  string_of_list_ascii (reverse (drop_while header_space (reverse (drop_while header_space (list_ascii_of_string s))))).

(** [net/http]'s value of a cookie: without its quotes, of printable bytes but
    the quote, the semicolon and the backslash. *)
Definition validCookieValueByte (c : ascii) : bool :=
  let b := byte_val c in GoString.in_range 32 126 b && negb (existsb (Z.eqb b) [34; 59; 92]).
Definition unquote (raw : string) : string :=
  match list_ascii_of_string raw with
  | a :: rest =>
    match reverse rest with
    | b :: inner => if (byte_val a =? 34) && (byte_val b =? 34) then string_of_list_ascii (reverse inner) else raw
    | [] => raw
    end
  | [] => raw
  end.
Definition parseCookieValue (raw : string) : option string :=
  let raw := unquote raw in
  if forallb validCookieValueByte (list_ascii_of_string raw) then Some raw else None.

(** [request.Cookie(name)] for a header [Cookie: line]: the first well-formed
    cookie of that name (a token). *)
Definition cookie_part (name part : string) : option string :=
  let '(n, v) := Cut (TrimString part) "=" in
  if TrimString n =s name then parseCookieValue v else None.
Fixpoint first_cookie (name : string) (parts : list string) : option string :=
  match parts with
  | [] => None
  | part :: parts => match cookie_part name part with Some v => Some v | None => first_cookie name parts end
  end.
Definition request_Cookie (line name : string) : option string := first_cookie name (split_byte ";" (TrimString line)).

(** [authn.sessionCookie] and [csrf.cookieValue]. *)
Definition cookieValue (raw name : string) : string :=
  match request_Cookie raw name with Some v => TrimSpace v | None => "" end.
Definition sessionCookie (value : string) : string := cookieValue value "forge_session".
Definition csrfCookieName := "forge_csrf".

(** ** Handlers *)

(** [transport.Transporter]: the operation and the request's header. *)
Record Transport := mkTransport { tr_Operation : string; tr_Header : string -> string }.

(** What the middlewares read from the context and put there. *)
Record Ctx := mkCtx { c_transport : option Transport; c_principal : option Principal }.

Definition WithPrincipal (ctx : Ctx) (p : Principal) : Ctx := mkCtx (c_transport ctx) (Some p).

(** [kratoserrors]. *)
Class KratosErrors := {
  Unauthorized : string -> string -> error;
  Forbidden : string -> string -> error
}.

(** The service as [authn] sees it. *)
Class Authenticator (T : Type) := {
  auth_session : string -> Database.M T Principal;
  auth_token : string -> Database.M T Principal
}.

Definition Handler (T A : Type) : Type := Ctx -> Database.M T A.
Definition Middleware (T A : Type) : Type := Handler T A -> Handler T A.

(** [selector.Server(ms...).Match(match).Build()]: the chain for the operations
    that match, nothing for the others. *)
Class Selector (T A : Type) := {
  Build : list (Middleware T A) -> (string -> bool) -> Middleware T A;
  Build_matched : forall ms matches next ctx tr, c_transport ctx = Some tr -> matches (tr_Operation tr) = true ->
    Build ms matches next ctx = foldr (fun m h => m h) next ms ctx;
  Build_other : forall ms matches next ctx tr, c_transport ctx = Some tr -> matches (tr_Operation tr) = false ->
    Build ms matches next ctx = next ctx
}.

(** ** Operations *)

Definition platformOperationPrefix := "/forge.v1.PlatformService/".
Definition approvalOperationPrefix := "/forge.v1.ApprovalService/".
Definition identityOperationPrefix := "/forge.v1.IdentityService/".
Definition systemOperationPrefix := "/forge.v1.SystemService/".
Definition platform (m : string) : string := platformOperationPrefix +:+ m.
Definition approval (m : string) : string := approvalOperationPrefix +:+ m.
Definition identity (m : string) : string := identityOperationPrefix +:+ m.
Definition system (m : string) : string := systemOperationPrefix +:+ m.

Definition allowedBeforePasswordChange (operation : string) : bool :=
  contains (map identity ["GetCurrentUser"; "ChangePassword"; "Logout"]) operation.

Definition publicOperation (operation : string) : bool :=
  negb (contains [system "Health"; system "Readiness"; identity "Login"; identity "BeginOIDCLogin";
                  identity "CompleteOIDCLogin"; identity "LoginLDAP"] operation).

Definition PlatformRules : list (string * list string) := [
  (platform "ListUsers", ["system.user.read"]);
  (platform "CreateUser", ["system.user.create"]);
  (platform "ListDepartments", ["system.department.read"]);
  (platform "CreateDepartment", ["system.department.manage"]);
  (platform "UpdateDepartment", ["system.department.manage"]);
  (platform "ListPositions", ["system.position.read"]);
  (platform "CreatePosition", ["system.position.manage"]);
  (platform "UpdatePosition", ["system.position.manage"]);
  (platform "ListUserGroups", ["system.user_group.read"]);
  (platform "CreateUserGroup", ["system.user_group.manage"]);
  (platform "UpdateUserGroup", ["system.user_group.manage"]);
  (platform "UpdateUserGroupMembers", ["system.user_group.manage"]);
  (platform "UpdateUserGroupRoles", ["system.user_group.manage"]);
  (platform "ListUserAssignments", ["system.user.assignment.read"]);
  (platform "ReplaceUserAssignments", ["system.user.assignment.manage"]);
  (platform "GetOrganization", ["system.organization.read"]);
  (platform "UpdateOrganization", ["system.organization.manage"]);
  (platform "GetSecurityPolicy", ["system.config.read"]);
  (platform "UpdateSecurityPolicy", ["system.security.manage"]);
  (platform "ListRoles", ["system.role.read"]);
  (platform "ListPermissions", ["system.role.read"]);
  (platform "ListMenus", ["system.menu.read"]);
  (platform "UpdateMenu", ["system.menu.manage"]);
  (platform "ListDataFieldPolicies", ["system.data_policy.read"]);
  (platform "UpsertDataFieldPolicy", ["system.data_policy.manage"]);
  (platform "AuthorizeDataExport", ["system.data.export"]);
  (platform "DownloadDataExport", ["system.data.export"]);
  (platform "RevokeDataExport", ["system.data.export"]);
  (platform "ListDataDeletionEvidence", ["system.data.retention.read"]);
  (platform "RecordDataDeletionEvidence", ["system.data.retention.manage"]);
  (platform "UpdateRolePermissions", ["system.role.manage"]);
  (platform "UpdateRoleDataScope", ["system.role.manage"]);
  (platform "UpdateUserRoles", ["system.user.role.manage"]);
  (platform "UpdateUserStatus", ["system.user.update"]);
  (platform "UnlockUser", ["system.user.update"]);
  (platform "ResetUserPassword", ["system.user.update"]);
  (platform "ListSessions", ["system.session.read"]);
  (platform "RevokeSession", ["system.session.revoke"]);
  (platform "ListAuditLogs", ["system.audit.read"]);
  (platform "ExportAuditLogs", ["system.audit.export"]);
  (platform "VerifyAuditIntegrity", ["system.audit.verify"]);
  (platform "ListTemporaryRoleGrants", ["system.temporary_grant.read"]);
  (platform "CreateTemporaryRoleGrant", ["system.temporary_grant.manage"]);
  (platform "RevokeTemporaryRoleGrant", ["system.temporary_grant.manage"]);
  (platform "ListEmergencyAccess", ["system.emergency_access.read"]);
  (platform "CreateEmergencyAccess", ["system.emergency_access.manage"]);
  (platform "RevokeEmergencyAccess", ["system.emergency_access.manage"]);
  (platform "ListFederatedIdentityLinks", ["system.identity_mapping.read"]);
  (platform "LinkFederatedIdentity", ["system.identity_mapping.manage"]);
  (platform "UnlinkFederatedIdentity", ["system.identity_mapping.manage"]);
  (platform "ListAccessReviews", ["system.access_review.read"]);
  (platform "CreateAccessReview", ["system.access_review.manage"]);
  (platform "ListAccessReviewItems", ["system.access_review.read"]);
  (platform "DecideAccessReviewItem", ["system.access_review.manage"]);
  (platform "ListConfigChanges", ["system.config.read"]);
  (platform "CreateConfigChange", ["system.config.manage"]);
  (platform "ApproveConfigChange", ["system.config.manage"]);
  (platform "PublishConfigChange", ["system.config.manage"]);
  (platform "RequestConfigRollback", ["system.config.manage"]);
  (platform "RollbackConfigChange", ["system.config.manage"]);
  (approval "CreateApproval", ["approval.request.create"]);
  (approval "GetApproval", ["approval.request.read"]);
  (approval "ListApprovals", ["approval.request.read"]);
  (approval "DecideApproval", ["approval.task.decide"]);
  (approval "TransferApproval", ["approval.task.transfer"]);
  (approval "WithdrawApproval", ["approval.request.withdraw"])
].

Definition protectedOperations : list string :=
  map identity ["Logout"; "ChangePassword"; "StepUpAuthentication"; "CreateApiToken"; "RevokeApiToken";
                "BeginMFAEnrollment"; "ConfirmMFAEnrollment"; "DisableMFA"] ++
  map platform ["CreateUser"; "UpdateOrganization"; "UpdateSecurityPolicy"; "UpdateRolePermissions";
                "UpdateRoleDataScope"; "UpdateUserRoles"; "UpdateUserStatus"; "UnlockUser"; "ResetUserPassword";
                "RevokeSession"; "UpsertDataFieldPolicy"; "AuthorizeDataExport"; "RecordDataDeletionEvidence";
                "ExportAuditLogs"; "CreateTemporaryRoleGrant"; "RevokeTemporaryRoleGrant"; "LinkFederatedIdentity";
                "UnlinkFederatedIdentity"; "CreateAccessReview"; "DecideAccessReviewItem"] ++
  map approval ["CreateApproval"; "DecideApproval"; "TransferApproval"; "WithdrawApproval"].

Fixpoint rule_of (rules : list (string * list string)) (operation : string) : option (list string) :=
  match rules with
  | [] => None
  | (op, keys) :: rules => if op =s operation then Some keys else rule_of rules operation
  end.

(** ** The three middlewares *)

Section gate.
Context {T A : Type} `{KratosErrors} `{Authenticator T}.
Notation M := (Database.M T).
Implicit Types next : Handler T A.

Definition bearerToken (value : string) : string :=
  match Fields value with
  | [scheme; token] => if EqualFold scheme "Bearer" then token else ""
  | _ => ""
  end.

Definition authenticate (header : string -> string) : M Principal :=
  let authorization := TrimSpace (header "Authorization") in
  if authorization <>s "" then
    let token := bearerToken authorization in
    if token =s "" then fail (Errorf "unsupported authorization scheme" []) else auth_token token
  else
    let session := sessionCookie (header "Cookie") in
    if session =s "" then fail (Errorf "credentials are required" []) else auth_session session.

Definition authn_Server : Middleware T A := fun next ctx =>
  match c_transport ctx with
  | None => fail (Unauthorized "UNAUTHENTICATED" "transport context is required")
  | Some tr =>
    r ← attempt (authenticate (tr_Header tr));
    match r with
    | Err _ => fail (Unauthorized "UNAUTHENTICATED" "authentication failed")
    | Ok principal => next (WithPrincipal ctx principal)
    end
  end.

Definition authz_Server (rules : list (string * list string)) : Middleware T A := fun next ctx =>
  match c_transport ctx with
  | None => fail (Forbidden "PERMISSION_DENIED" "transport context is required")
  | Some tr =>
    let operation := tr_Operation tr in
    if match c_principal ctx with
       | Some p => p_MustChangePassword p && negb (allowedBeforePasswordChange operation)
       | None => false
       end
    then fail (Forbidden "PASSWORD_CHANGE_REQUIRED" "password change is required")
    else
      match rule_of rules operation with
      | None =>
        if HasPrefix operation platformOperationPrefix || HasPrefix operation approvalOperationPrefix then
          fail (Forbidden "PERMISSION_DENIED" "operation has no authorization policy")
        else next ctx
      | Some required =>
        if match c_principal ctx with Some p => negb (HasPermission p required) | None => true end then
          fail (Forbidden "PERMISSION_DENIED" "permission denied")
        else next ctx
      end
  end.

(** [subtle.ConstantTimeCompare] compares the texts. *)
Definition csrf_matches (header : string -> string) : bool :=
  let headerToken := TrimSpace (header "X-CSRF-Token") in
  let cookieToken := cookieValue (header "Cookie") csrfCookieName in
  negb ((headerToken =s "") || (cookieToken =s "") || (headerToken <>s cookieToken)).

Definition csrf_Server : Middleware T A := fun next ctx =>
  match c_transport ctx with
  | None => fail (Forbidden "CSRF_MISMATCH" "transport context is required")
  | Some tr =>
    if negb (contains protectedOperations (tr_Operation tr)) then next ctx
    else
      match c_principal ctx with
      | None => fail (Unauthorized "UNAUTHENTICATED" "authentication is required")
      | Some p =>
        if EqualFold (p_Type p) "TOKEN" then next ctx
        else if csrf_matches (tr_Header tr) then next ctx
        else fail (Forbidden "CSRF_MISMATCH" "CSRF validation failed")
      end
  end.

(** [grpcSecurity] and [httpSecurity] of [bootstrap.New]. *)
Context `{Selector T A}.
Definition grpcSecurity : Middleware T A := Build [authn_Server; authz_Server PlatformRules] publicOperation.
Definition httpSecurity : Middleware T A := Build [authn_Server; csrf_Server; authz_Server PlatformRules] publicOperation.

(** ** What the gate lets through *)

(** A principal may call an operation: nothing but three operations before the
    change of a password that is due; an operation of the two services of the
    platform only with a permission that its rule names (an administrator has
    them all), which a token must also have among its scopes. *)
Definition may_call (p : Principal) (operation : string) : Prop :=
  (p_MustChangePassword p = true ->
     operation = identity "GetCurrentUser" \/ operation = identity "ChangePassword" \/ operation = identity "Logout") /\
  (HasPrefix operation platformOperationPrefix = true \/ HasPrefix operation approvalOperationPrefix = true ->
   exists required, (operation, required) ∈ PlatformRules /\
     ("system_admin" ∈ p_Roles p \/ exists k, k ∈ p_Permissions p /\ k ∈ required) /\
     (p_Type p = "TOKEN" -> forall k, k ∈ required -> k ∈ p_Scopes p \/ "*" ∈ p_Scopes p)).

(** A browser's request shows that the page knows the token of the cookie. *)
Definition not_forged (p : Principal) (operation : string) (header : string -> string) : Prop :=
  operation ∈ protectedOperations -> EqualFold (p_Type p) "TOKEN" = true \/
    (TrimSpace (header "X-CSRF-Token") = cookieValue (header "Cookie") csrfCookieName /\
     TrimSpace (header "X-CSRF-Token") <> "").

Lemma rule_of_in rules op keys : NoDup (map fst rules) -> rule_of rules op = Some keys <-> (op, keys) ∈ rules.
Proof.
  induction rules as [|[o k] rules IH]; cbn; intros N.
  - split; [done|]. intros X. by apply elem_of_nil in X.
  - apply NoDup_cons in N as [No N]. rewrite elem_of_cons. destruct (String.eqb_spec o op) as [->|E].
    + split; [intros [= <-]; by left|]. intros [[= <-]|X]; [done|]. destruct No.
      apply list_elem_of_In, (in_map fst (rules) (op, keys)). by apply list_elem_of_In.
    + rewrite IH by done. split; [by right|]. intros [[= <- _]|X]; done.
Qed.

Lemma rules_distinct : NoDup (map fst PlatformRules).
Proof. apply (bool_decide_unpack _). vm_compute. exact I. Qed.

(** Every rule is one of an operation of the two services. *)
Lemma rules_prefixed op keys : rule_of PlatformRules op = Some keys ->
  HasPrefix op platformOperationPrefix = true \/ HasPrefix op approvalOperationPrefix = true.
Proof.
  intros R. apply rule_of_in in R; [|apply rules_distinct].
  assert (P : forallb (fun r => HasPrefix r.1 platformOperationPrefix || HasPrefix r.1 approvalOperationPrefix)
    PlatformRules = true) by (vm_compute; reflexivity).
  rewrite forallb_forall in P. apply list_elem_of_In in R. specialize (P _ R). by apply orb_true_iff in P.
Qed.

Lemma prefix_or op : HasPrefix op platformOperationPrefix || HasPrefix op approvalOperationPrefix = false ->
  ~ (HasPrefix op platformOperationPrefix = true \/ HasPrefix op approvalOperationPrefix = true).
Proof. intros F [X|X]; rewrite X, ?orb_true_r in F; discriminate. Qed.

Lemma before_change_spec op : allowedBeforePasswordChange op = true <->
  op = identity "GetCurrentUser" \/ op = identity "ChangePassword" \/ op = identity "Logout".
Proof.
  unfold allowedBeforePasswordChange. rewrite contains_spec. cbn [map]. rewrite !elem_of_cons.
  split; [|tauto]. intros [X|[X|[X|X]]]; auto. by apply elem_of_nil in X.
Qed.

Lemma authz_cases next op header p :
  let ctx := mkCtx (Some (mkTransport op header)) (Some p) in
  (may_call p op /\ authz_Server PlatformRules next ctx = next ctx) \/
  (~ may_call p op /\ exists reason message, authz_Server PlatformRules next ctx = fail (Forbidden reason message)).
Proof.
  cbn zeta. unfold authz_Server. cbn [c_transport c_principal tr_Operation].
  destruct (p_MustChangePassword p && negb (allowedBeforePasswordChange op)) eqn:Must.
  { right. split; [|by eexists _, _]. intros [P _]. apply andb_true_iff in Must as [M1 M2].
    apply negb_true_iff in M2. rewrite (proj2 (before_change_spec op)) in M2; [discriminate|auto]. }
  assert (First : p_MustChangePassword p = true ->
    op = identity "GetCurrentUser" \/ op = identity "ChangePassword" \/ op = identity "Logout").
  { intros M1. rewrite M1 in Must. apply negb_false_iff in Must. by apply before_change_spec. }
  destruct (rule_of PlatformRules op) as [required|] eqn:R.
  - pose proof (rules_prefixed _ _ R) as Pre. apply rule_of_in in R; [|apply rules_distinct].
    destruct (HasPermission p required) eqn:Hp.
    + left. split; [|done]. split; [done|]. intros _. exists required. split; [done|].
      apply HasPermission_iff in Hp. tauto.
    + right. split; [|by eexists _, _]. intros [_ P]. destruct (P Pre) as (required' & R' & G & S).
      assert (required' = required) as -> by (apply rule_of_in in R, R'; [congruence|apply rules_distinct..]).
      assert (X : HasPermission p required = true) by (by apply HasPermission_iff). congruence.
  - destruct (HasPrefix op platformOperationPrefix || HasPrefix op approvalOperationPrefix) eqn:Pre.
    + right. split; [|by eexists _, _]. intros [_ P]. apply orb_true_iff in Pre.
      destruct (P Pre) as (required & R' & _). apply rule_of_in in R'; [congruence|apply rules_distinct].
    + left. split; [|done]. split; [done|]. intros X. by apply prefix_or in X.
Qed.

Lemma csrf_cases next op header p :
  let ctx := mkCtx (Some (mkTransport op header)) (Some p) in
  (not_forged p op header /\ csrf_Server next ctx = next ctx) \/
  (~ not_forged p op header /\ exists reason message, csrf_Server next ctx = fail (Forbidden reason message)).
Proof.
  cbn zeta. unfold csrf_Server, not_forged. cbn [c_transport c_principal tr_Operation tr_Header].
  destruct (contains protectedOperations op) eqn:C; cbn [negb];
    [apply contains_spec in C|apply contains_false in C; left; by split].
  destruct (EqualFold (p_Type p) "TOKEN") eqn:K; [left; split; [by left|done]|].
  unfold csrf_matches. destruct (String.eqb_spec (TrimSpace (header "X-CSRF-Token")) "") as [E|E]; cbn [orb negb].
  { right. split; [|by eexists _, _]. intros P. destruct (P C) as [X|[_ X]]; done. }
  destruct (String.eqb_spec (cookieValue (header "Cookie") csrfCookieName) "") as [E'|E']; cbn [orb negb].
  { right. split; [|by eexists _, _]. intros P. destruct (P C) as [X|[X1 X2]]; congruence. }
  destruct (String.eqb_spec (TrimSpace (header "X-CSRF-Token")) (cookieValue (header "Cookie") csrfCookieName)) as [E2|E2];
    cbn [negb]; [left; split; [by right|done]|].
  right. split; [|by eexists _, _]. intros P. destruct (P C) as [X|[X1 X2]]; congruence.
Qed.

(** What the handlers of a server get to see. *)
Definition admitted (http : bool) (p : Principal) (op : string) (header : string -> string) : Prop :=
  may_call p op /\ (http = true -> not_forged p op header).
Definition security (http : bool) : Middleware T A := if http then httpSecurity else grpcSecurity.

End gate.

(** ** Writes outside the list *)

(** The operations that [api/gen/go/forge/v1] registers under POST, PUT, PATCH
    and DELETE. *)
Definition writes : list string :=
  map approval ["CreateApproval"; "DecideApproval"; "TransferApproval"; "WithdrawApproval"] ++
  map identity ["Login"; "CompleteOIDCLogin"; "LoginLDAP"; "Logout"; "ChangePassword"; "StepUpAuthentication";
                "BeginMFAEnrollment"; "ConfirmMFAEnrollment"; "DisableMFA"; "CreateApiToken"; "RevokeApiToken"] ++
  map platform ["CreateUser"; "CreateDepartment"; "UpdateDepartment"; "CreatePosition"; "UpdatePosition";
                "CreateUserGroup"; "UpdateUserGroup"; "UpdateUserGroupMembers"; "UpdateUserGroupRoles";
                "ReplaceUserAssignments"; "UpdateOrganization"; "UpdateSecurityPolicy"; "UpdateMenu";
                "UpsertDataFieldPolicy"; "AuthorizeDataExport"; "RevokeDataExport"; "RecordDataDeletionEvidence";
                "UpdateRoleDataScope"; "UpdateRolePermissions"; "UpdateUserRoles"; "UpdateUserStatus"; "UnlockUser";
                "ResetUserPassword"; "RevokeSession"; "CreateTemporaryRoleGrant"; "RevokeTemporaryRoleGrant";
                "CreateEmergencyAccess"; "RevokeEmergencyAccess"; "LinkFederatedIdentity"; "UnlinkFederatedIdentity";
                "CreateAccessReview"; "DecideAccessReviewItem"; "CreateConfigChange"; "ApproveConfigChange";
                "PublishConfigChange"; "RequestConfigRollback"; "RollbackConfigChange"].

Definition exposed : list string :=
  List.filter (fun op => publicOperation op && negb (contains protectedOperations op)) writes.

(** The list of protected operations stops short of the writes that came later:
    departments, positions, groups (their roles included), assignments, menus,
    emergency access and configuration changes. *)
Lemma exposed_writes : exposed =
  map platform ["CreateDepartment"; "UpdateDepartment"; "CreatePosition"; "UpdatePosition"; "CreateUserGroup";
                "UpdateUserGroup"; "UpdateUserGroupMembers"; "UpdateUserGroupRoles"; "ReplaceUserAssignments";
                "UpdateMenu"; "RevokeDataExport"; "CreateEmergencyAccess"; "RevokeEmergencyAccess";
                "CreateConfigChange"; "ApproveConfigChange"; "PublishConfigChange"; "RequestConfigRollback";
                "RollbackConfigChange"].
Proof. vm_compute. reflexivity. Qed.

Lemma elem_of_exposed op : op ∈ exposed -> publicOperation op = true /\ op ∉ protectedOperations.
Proof.
  unfold exposed. rewrite list_elem_of_In, List.filter_In, andb_true_iff, negb_true_iff, contains_false. tauto.
Qed.

(** Eighteen writes of the administration interface need no proof against
    forgery: a request for one of them that carries a session's cookie runs
    whatever it has in the header [X-CSRF-Token]. *)
Theorem forged_writes_run {T A} `{KratosErrors} `{Authenticator T} `{Selector T A} (next : Handler T A) op header p0 e n t p n1 t1 :
  op ∈ exposed -> authenticate header e n t = (Ok p, n1, t1) -> may_call p op ->
  httpSecurity next (mkCtx (Some (mkTransport op header)) p0) e n t =
    next (mkCtx (Some (mkTransport op header)) (Some p)) e n1 t1.
Proof.
  intros Hop Auth May. apply elem_of_exposed in Hop as [Pub Out].
  unfold httpSecurity. rewrite (Build_matched _ _ _ _ (mkTransport op header)) by done. cbn [foldr].
  unfold authn_Server at 1. cbn [c_transport tr_Header]. unfold mbind, M_bind, attempt. rewrite Auth.
  unfold WithPrincipal. cbn [c_transport].
  destruct (csrf_cases (authz_Server PlatformRules next) op header p) as [[_ ->]|[C _]]; [|destruct C; intros X; by destruct (Out X)].
  by destruct (authz_cases next op header p) as [[_ ->]|[Z _]].
Qed.

(** ** The gate before the identity service *)

#[export] Instance service_authenticator `{UnicodeTables} (s : Service) : Authenticator Tables :=
  {| auth_session := Authenticate s; auth_token := AuthenticateAPIToken s |}.

Module examples.
Definition kratos : KratosErrors :=
  {| Unauthorized := fun reason message => Errorf reason [FStr message];
     Forbidden := fun reason message => Wrapf reason [FStr message] ErrNoRows |}.

Definition build {T A} (ms : list (Middleware T A)) (matches : string -> bool) : Middleware T A := fun next ctx =>
  match c_transport ctx with
  | Some tr => if matches (tr_Operation tr) then foldr (fun m h => m h) next ms ctx else next ctx
  | None => next ctx
  end.
Definition selector (T A : Type) : Selector T A.
Proof.
  refine {| Build := build |}; intros ms matches next ctx tr E X; unfold build; by rewrite E, X.
Defined.

(** The administrator's session, and a page of somebody else that only makes
    the browser send its cookies. *)
Definition tables : Tables :=
  put_sessions [mkSession "s1" "adm" (hashToken "token-a") (2000 * Hour) 1 1 "" "" "PASSWORD" None] Roles.examples.tables.
Definition forged (name : string) : string :=
  if name =s "Cookie" then "theme=dark; forge_session=token-a; forge_csrf=secret" else "".
(** The handler says who it runs as. *)
Definition whoami : Handler Tables string := fun ctx => mret (match c_principal ctx with Some p => p_UserID p | None => "" end).
#[local] Existing Instances kratos selector Roles.examples.unicode.
#[local] Instance service : Authenticator Tables := service_authenticator Roles.examples.service.
Definition gate (op : string) (header : string -> string) : result string :=
  (security true whoami (mkCtx (Some (mkTransport op header)) None) Roles.examples.env O tables).1.1.
Definition authenticated : result Principal * nat * Tables := authenticate forged Roles.examples.env O tables.
End examples.
#[local] Existing Instances examples.kratos examples.selector Roles.examples.unicode examples.service.


Lemma forged_writes_run_witness : examples.gate (platform "CreateEmergencyAccess") examples.forged = Ok "adm".
Proof.
  unfold examples.gate, security.
  assert (W : match examples.authenticated with (Ok p, _, _) => (p_UserID p =s "adm") &&
    negb (p_MustChangePassword p) && HasPermission p ["system.emergency_access.manage"] | _ => false end = true)
    by (vm_compute; reflexivity).
  destruct examples.authenticated as [[[p|err] n1] t1] eqn:Auth; [|discriminate W].
  apply andb_true_iff in W as [W Perm]. apply andb_true_iff in W as [Adm Must].
  rewrite (forged_writes_run examples.whoami (platform "CreateEmergencyAccess") examples.forged None
    Roles.examples.env O examples.tables p n1 t1).
  - cbn. by apply String.eqb_eq in Adm as ->.
  - rewrite exposed_writes. apply contains_spec. vm_compute. reflexivity.
  - exact Auth.
  - split.
    + intros X. by rewrite X in Must.
    + intros _. exists ["system.emergency_access.manage"]. split.
      * apply rule_of_in; [apply rules_distinct|vm_compute; reflexivity].
      * apply HasPermission_iff in Perm as [P1 P2]. split; [exact P2|exact P1].
Defined.
