(* ===== verification/SharedState.v ===== *)
(** * State the processes share

    The cache ([internal/platform/cache]), the rate limiter that counts in it
    ([internal/platform/ratelimit]), the lock that is a key of it
    ([internal/platform/lock]) with the periodic jobs run under that lock
    ([internal/platform/scheduler]), and the reservations of idempotent requests
    in the database ([internal/platform/idempotency]).

    The cache is an interface: the one in memory and the disabled one are
    modelled; Redis is any other instance. *)

From S2P Require Import Prelude GoString Crypto Database.

(** ** The cache *)

Definition ErrMiss : error := Sentinel "cache.ErrMiss".
Definition ErrNotSupported : error := Sentinel "cache.ErrNotSupported".

Class Cache (T : Type) := {
  cache_Get : string -> M T string;
  cache_Set : string -> string -> Duration -> M T unit;
  cache_Delete : string -> M T unit;
  cache_Increment : string -> Duration -> M T Z;
  cache_SetNX : string -> string -> Duration -> M T bool;
  cache_CompareAndDelete : string -> string -> M T bool;
  cache_Provider : string
}.

(** The type [noop]. *)
Definition noop {T} : Cache T := {|
  cache_Get := fun _ => fail ErrMiss;
  cache_Set := fun _ _ _ => mret tt;
  cache_Delete := fun _ => mret tt;
  cache_Increment := fun _ _ => fail ErrNotSupported;
  cache_SetNX := fun _ _ _ => fail ErrNotSupported;
  cache_CompareAndDelete := fun _ _ => fail ErrNotSupported;
  cache_Provider := "disabled"
|}.

Record item := mkItem { it_value : string; it_counter : Z; it_expires : Time }.
Notation data := (gmap string item).

(** Memory is read and written at once: every operation of the type [memory]
    holds its mutex. *)
Definition peek {T A} (f : T -> A) : M T A := fun _ n t => (Ok (f t), n, t).
Definition poke {T} (f : T -> T) : M T unit := fun _ n t => (Ok tt, n, f t).

Section memory.
Variable prefix : string.
Notation W := (M data).

Definition full (k : string) : string := prefix +:+ k.
Definition expired (v : item) : W bool :=
  if IsZero (it_expires v) then mret false else at_ ← now; mret (After at_ (it_expires v)).
Definition expiry (ttl : Duration) : W Time :=
  if 0 <? ttl then at_ ← now; mret (timeAdd at_ ttl) else mret zeroTime.

Definition memory_Get (k : string) : W string :=
  v ← peek (fun m => m !! full k);
  match v with
  | None => fail ErrMiss
  | Some v => gone ← expired v; if (gone : bool) then fail ErrMiss else mret (it_value v)
  end.

Definition memory_Set (k v : string) (ttl : Duration) : W unit :=
  exp ← expiry ttl;
  poke (fun m => <[full k := mkItem v 0 exp]> m).

Definition memory_Delete (k : string) : W unit := poke (fun m => delete (full k) m).

Definition memory_Increment (k : string) (ttl : Duration) : W Z :=
  v ← peek (fun m => m !! full k);
  gone ← match v with None => mret true | Some v => expired v end;
  v ← (if (gone : bool) then exp ← expiry ttl; mret (mkItem "" 0 exp) else mret (default (mkItem "" 0 0) v));
  let counter := wrap64 (it_counter v + 1) in
  _ ← poke (fun m => <[full k := mkItem "" counter (it_expires v)]> m);
  mret counter.

Definition memory_SetNX (k v : string) (ttl : Duration) : W bool :=
  old ← peek (fun m => m !! full k);
  free ← match old with None => mret true | Some old => expired old end;
  if negb free then mret false
  else
    exp ← expiry ttl;
    _ ← poke (fun m => <[full k := mkItem v 0 exp]> m);
    mret true.

Definition memory_CompareAndDelete (k wanted : string) : W bool :=
  v ← peek (fun m => m !! full k);
  gone ← match v with None => mret true | Some v => expired v end;
  if (gone : bool) then _ ← poke (fun m => delete (full k) m); mret false
  else if it_value (default (mkItem "" 0 0) v) <>s wanted then mret false
  else _ ← poke (fun m => delete (full k) m); mret true.

Definition memory : Cache data := {|
  cache_Get := memory_Get;
  cache_Set := memory_Set;
  cache_Delete := memory_Delete;
  cache_Increment := memory_Increment;
  cache_SetNX := memory_SetNX;
  cache_CompareAndDelete := memory_CompareAndDelete;
  cache_Provider := "memory"
|}.
End memory.

Definition RandomToken {T} (bytes : nat) : M T string := b ← rand_Read bytes; mret (EncodeToString b).

(** ** The rate limiter *)

Record entry := mkEntry { en_count : Z; en_until : Time }.

(** The cache's state and the map [local] of the limiter. *)
Record Limits (T : Type) := mkLimits { lm_cache : T; lm_local : gmap string entry }.
Arguments mkLimits {T}.
Arguments lm_cache {T}.
Arguments lm_local {T}.

Section limiter.
Context {T : Type}.
Variable cache : option (Cache T).
Notation W := (M (Limits T)).

(** The count in the cache: an answer, or none when the cache cannot count. *)
Definition count_in_cache (key : string) (limit : Z) (window : Duration) : W (option bool) :=
  match cache with
  | None => mret None
  | Some c =>
    if cache_Provider =s "disabled" then mret None
    else
      n ← attempt (zoom lm_cache (fun t l => mkLimits t (lm_local l)) (cache_Increment ("ratelimit:" +:+ key) window));
      match n with
      | Ok n => mret (Some (n <=? limit))
      | Err err => if cache_Provider =s "redis" then fail (Wrapf "distributed rate limit: %w" [] err) else mret None
      end
  end.

Definition count_locally (key : string) (limit : Z) (window : Duration) (now_ : Time) : W bool :=
  e ← peek (fun l => default (mkEntry 0 zeroTime) (lm_local l !! key));
  let e := if After now_ (en_until e) then mkEntry 0 (timeAdd now_ window) else e in
  let store e := poke (fun l => mkLimits (lm_cache l) (<[key := e]> (lm_local l))) in
  if limit <=? en_count e then _ ← store e; mret false
  else _ ← store (mkEntry (en_count e + 1) (en_until e)); mret true.

Definition Allow (key : string) (limit : Z) (window : Duration) (now_ : Time) : W bool :=
  if limit <=? 0 then mret true
  else
    r ← count_in_cache key limit window;
    match r with
    | Some allowed => mret allowed
    | None => count_locally key limit window now_
    end.

(** [s.limiter.Allow(ctx, key, limit, window, time.Now())], as
    [IdentityService.allow] calls it. *)
Record attempted := mkAttempted { at_key : string; at_limit : Z; at_window : Duration }.
Definition allow (c : attempted) : W bool :=
  at_ ← now;
  Allow (at_key c) (at_limit c) (at_window c) at_.

(** Calls one after the other, with their answers. *)
Fixpoint allow_all (calls : list attempted) : W (list (attempted * result bool)) :=
  match calls with
  | [] => mret []
  | c :: calls => r ← attempt (allow c); rest ← allow_all calls; mret ((c, r) :: rest)
  end.
End limiter.

(** ** The lock *)

Definition ErrBusy : error := Sentinel "lock.ErrBusy".
Definition ErrUnavailable : error := Sentinel "lock.ErrUnavailable".

Section lock.
Context {T : Type}.
Variable cache : option (Cache T).
Notation W := (M T).

(** The closure that [Acquire] returns holds the key and the token. *)
Record Release := mkRelease { rel_key : string; rel_token : string }.

Definition Acquire (key : string) (ttl : Duration) : W Release :=
  match cache with
  | None => fail ErrUnavailable
  | Some c =>
    if cache_Provider =s "disabled" then fail ErrUnavailable
    else
      token ← RandomToken 24;
      ok ← cache_SetNX ("lock:" +:+ key) token ttl;
      if negb ok then fail ErrBusy else mret (mkRelease key token)
  end.

Definition release (r : Release) : W unit :=
  match cache with
  | None => mret tt
  | Some c => _ ← cache_CompareAndDelete ("lock:" +:+ rel_key r) (rel_token r); mret tt
  end.

(** A tick of [RunDistributed]: what it did, an error only for the log. *)
Definition run_job (name : string) (every lease : Duration) (job : W unit) : W (option error) :=
  let lease := if lease <=? 0 then every else lease in
  held ← attempt (Acquire ("job:" +:+ name) lease);
  match held with
  | Err err => mret (if bool_decide (err = ErrBusy) then None else Some err)
  | Ok r =>
    done ← attempt job;
    _ ← attempt (release r);
    mret (match done with Err err => Some err | Ok _ => None end)
  end.
End lock.

(** ** Idempotent requests *)

Record IdemRow := mkIdemRow {
  ir_id : string;
  ir_organization_id : string;
  ir_scope : string;
  ir_idem_key : string;
  ir_request_hash : string;
  ir_state : string;
  ir_response_status : option Z;
  ir_response_body : option string;
  ir_created_at : Time;
  ir_expires_at : Time
}.
#[export] Instance IdemRow_eta : Eta IdemRow := fun r =>
  mkIdemRow (ir_id r) (ir_organization_id r) (ir_scope r) (ir_idem_key r) (ir_request_hash r) (ir_state r)
    (ir_response_status r) (ir_response_body r) (ir_created_at r) (ir_expires_at r).

(** A [nil] body and an empty one are the same to the caller. *)
Record IdemRecord := mkIdemRecord {
  idem_ID : string;
  idem_RequestHash : string;
  idem_State : string;
  idem_ResponseStatus : Z;
  idem_ResponseBody : string;
  idem_ExpiresAt : Time
}.
Record BeginResult := mkBeginResult { br_Created : bool; br_Conflict : bool; br_Record : IdemRecord }.

Notation I := (M (list IdemRow)).

Definition same_request (org scope key : string) (r : IdemRow) : bool :=
  (ir_organization_id r =s org) && (ir_scope r =s scope) && (ir_idem_key r =s key).

Definition insert_idem (r : IdemRow) (rows : list IdemRow) : result (unit * list IdemRow) :=
  if existsb (fun x => (ir_id x =s ir_id r) || same_request (ir_organization_id r) (ir_scope r) (ir_idem_key r) x) rows
  then Err ErrDuplicate
  else Ok (tt, rows ++ [r]).

Definition Forget (id : string) : I unit := exec (delete_where (fun r => ir_id r =s id)).

(** The request has a row: its answer is given again, unless it is out of date. *)
Definition found (again : I BeginResult) (requestHash : string) (r : IdemRow) : I BeginResult :=
  at_ ← now;
  if After at_ (ir_expires_at r) then _ ← attempt (Forget (ir_id r)); again
  else
    mret (mkBeginResult false (ir_request_hash r <>s requestHash)
      (mkIdemRecord (ir_id r) (ir_request_hash r) (ir_state r) (default 0 (ir_response_status r))
         (default "" (ir_response_body r)) (ir_expires_at r))).

Definition Begin_once (again : Duration -> I BeginResult) (org scope key requestHash : string) (ttl : Duration)
  : I BeginResult :=
  if (org =s "") || (scope =s "") || (key =s "") || (requestHash =s "") then
    fail (Errorf "idempotency: missing required field" [])
  else
    let ttl := if ttl <=? 0 then 24 * Hour else ttl in
    at_ ← now;
    let at_ := UTC at_ in
    id ← NewString;
    let expires := timeAdd at_ ttl in
    inserted ← attempt (stmt (insert_idem (mkIdemRow id org scope key requestHash "PROCESSING" None None at_ expires)));
    match inserted with
    | Ok _ => mret (mkBeginResult true false (mkIdemRecord id requestHash "PROCESSING" 0 "" expires))
    | Err err =>
      r ← attempt (queryR (select_row (same_request org scope key)));
      match r with
      | Err _ => fail err
      | Ok r => found (again ttl) requestHash r
      end
    end.

(** [Begin] calls itself after it has deleted an expired row: [fuel] times at
    most here; without a failure of the database once is enough
    ([Begin_returns]). *)
Fixpoint Begin (fuel : nat) (org scope key requestHash : string) (ttl : Duration) : I BeginResult :=
  Begin_once (fun ttl => match fuel with
                         | O => fail (Errorf "out of fuel" [])
                         | S fuel => Begin fuel org scope key requestHash ttl
                         end) org scope key requestHash ttl.

Definition set_completed (status : Z) (body : string) (r : IdemRow) : IdemRow :=
  r <| ir_state := "COMPLETED" |> <| ir_response_status := Some status |> <| ir_response_body := Some body |>.

Definition Complete (id : string) (status : Z) (body : string) : I unit :=
  exec (update_where (fun r => (ir_id r =s id) && (ir_state r =s "PROCESSING")) (set_completed status body)).

Definition idem_PurgeExpired : I unit :=
  at_ ← now;
  exec (delete_where (fun r => Before (ir_expires_at r) (UTC at_))).

(** ** The limit on requests *)

(** What the calls for one key do to their counter, abstractly: the count and
    the instant at which it starts again.  [l] is the limit, [w] the window, [a]
    an instant before the call and [b] one after it. *)
Inductive metered (l w a b : Z) : option (Z * Time) -> bool -> option (Z * Time) -> Prop :=
| metered_on c c' x ok : 0 <= c -> c <= c' -> (ok = true -> c < l /\ c' = c + 1) ->
    metered l w a b (Some (c, x)) ok (Some (c', x))
| metered_anew m x ok : (forall c y, m = Some (c, y) -> y < b) -> a + w <= x ->
    metered l w a b m ok (Some (1, x)).

(** Calls one after the other, all between the instants [a] and [b]. *)
Inductive metered_all (l w a b : Z) : option (Z * Time) -> list bool -> option (Z * Time) -> Prop :=
| metered_none m : metered_all l w a b m [] m
| metered_more m ok m' oks m'' : metered l w a b m ok m' -> metered_all l w a b m' oks m'' ->
    metered_all l w a b m (ok :: oks) m''.

Section window.
Variables l w a b : Z.
Hypothesis positive : 0 < l.
Hypothesis inside : b <= a + w.

Definition left_over (c : Z) : Z := Z.max 0 (l - c).

(** A counter that does not start again before [b]. *)
Lemma metered_until m oks m' : metered_all l w a b m oks m' ->
  forall c x, m = Some (c, x) -> 0 <= c -> b <= x -> count_if id oks <= left_over c.
Proof.
  induction 1 as [m|m ok m' oks m'' S Rest IH]; intros c x -> C X; [rewrite count_if_nil; unfold left_over; lia|].
  rewrite count_if_cons. inversion S as [c0 c' x0 ok' C0 Le Ok|m0 x' ok' Gone X']; subst.
  - pose proof (IH c' x eq_refl ltac:(lia) X) as R. unfold left_over, id in *. destruct ok; [|lia].
    destruct (Ok eq_refl) as [O1 ->]. lia.
  - specialize (Gone c x eq_refl). lia.
Qed.

Lemma metered_window m oks m' : metered_all l w a b m oks m' -> (forall c x, m = Some (c, x) -> 0 <= c) ->
  count_if id oks <= 2 * l.
Proof.
  assert (G : metered_all l w a b m oks m' -> forall k, 0 <= k ->
    match m with Some (c, _) => k <= c | None => k = 0 end -> count_if id oks <= left_over k + l); cycle 1.
  { intros R P. transitivity (left_over 0 + l); [|unfold left_over; lia]. apply G; [done|lia|].
    destruct m as [[c x]|]; [by eapply P|done]. }
  induction 1 as [m|m ok m' oks m'' S Rest IH]; intros k K Hk; [rewrite count_if_nil; unfold left_over; lia|].
  rewrite count_if_cons. inversion S as [c0 c' x0 ok' C0 Le Ok|m0 x' ok' Gone X']; subst.
  - specialize (IH c' ltac:(lia) ltac:(lia)). unfold left_over, id in *. destruct ok; [|lia].
    destruct (Ok eq_refl) as [O1 ->]. lia.
  - pose proof (metered_until _ _ _ Rest 1 x' eq_refl ltac:(lia) ltac:(lia)) as R.
    unfold left_over, id in *. destruct ok; lia.
Qed.
End window.

(** The caches in the process: none, the disabled one, the one in memory. *)
Inductive local_cache := NoCache | Disabled | InMemory (prefix : string).
Definition cache_of (c : local_cache) : option (Cache data) :=
  match c with NoCache => None | Disabled => Some noop | InMemory prefix => Some (memory prefix) end.

(** The counter of a key; one that never starts again is good beyond [b]. *)
Definition item_meter (b : Time) (v : item) : Z * Time :=
  (it_counter v, if IsZero (it_expires v) then b else it_expires v).
Definition meter (c : local_cache) (b : Time) (key : string) (s : Limits data) : option (Z * Time) :=
  match c with
  | InMemory prefix => item_meter b <$> lm_cache s !! full prefix ("ratelimit:" +:+ key)
  | _ => (fun e => (en_count e, en_until e)) <$> lm_local s !! key
  end.

(** The counters of the cache are at most [k]. *)
Definition counted (k : Z) (s : Limits data) : Prop :=
  (forall key v, lm_cache s !! key = Some v -> 0 <= it_counter v <= k) /\
  (forall key v, lm_local s !! key = Some v -> 0 <= en_count v).

Section limit.
Variable e : Env.
Hypothesis monotone : forall i j, (i <= j)%nat -> clock e i <= clock e j.
Hypothesis after_zero : forall i, 0 < clock e i.

Lemma expired_runs v n m gone n' m' : expired v e n m = (Ok gone, n', m') ->
  m' = m /\ (n <= n')%nat /\ (gone = true -> it_expires v <> 0 /\ it_expires v < clock e n').
Proof.
  unfold expired, IsZero. destruct (Z.eqb_spec (it_expires v) 0) as [Z0|Z0].
  - intros E. apply ret_ok in E as (<- & -> & ->). split_and!; [done|lia|done].
  - unfold mbind, M_bind, now. intros E. apply ret_ok in E as (<- & <- & <-). split_and!; [done|lia|].
    unfold After. intros L. apply Z.ltb_lt in L. pose proof (monotone n (S n) ltac:(lia)). split; lia.
Qed.

Lemma expired_total v n m : exists gone n', expired v e n m = (Ok gone, n', m).
Proof. unfold expired. destruct (IsZero _); by eexists _, _. Qed.

Lemma expiry_runs ttl n m : 0 < ttl -> expiry ttl e n m = (Ok (clock e n + ttl), S n, m).
Proof. intros L. unfold expiry. apply Z.ltb_lt in L. by rewrite L. Qed.

Lemma increment_runs prefix k ttl n m : 0 < ttl -> (forall v, m !! full prefix k = Some v -> 0 <= it_counter v < maxInt64) ->
  exists v n', memory_Increment prefix k ttl e n m = (Ok (it_counter v), n', <[full prefix k := v]> m) /\ (n <= n')%nat /\
    ((exists v0, m !! full prefix k = Some v0 /\ it_counter v = it_counter v0 + 1 /\ it_expires v = it_expires v0) \/
     ((forall v0, m !! full prefix k = Some v0 -> it_expires v0 <> 0 /\ it_expires v0 < clock e n') /\
      it_counter v = 1 /\ clock e n + ttl <= it_expires v)).
Proof.
  intros L B. unfold memory_Increment, mbind at 1, M_bind at 1, peek.
  assert (Anew : forall n1, (n <= n1)%nat ->
    (v ← (exp ← expiry ttl; mret (mkItem "" 0 exp));
     _ ← poke (fun m => <[full prefix k := mkItem "" (wrap64 (it_counter v + 1)) (it_expires v)]> m);
     mret (wrap64 (it_counter v + 1))) e n1 m =
    (Ok 1, S n1, <[full prefix k := mkItem "" 1 (clock e n1 + ttl)]> m)).
  { intros n1 Hn. unfold mbind, M_bind. by rewrite expiry_runs. }
  destruct (m !! full prefix k) as [v0|] eqn:E.
  - destruct (expired_total v0 n m) as (gone & n1 & X). unfold mbind at 1, M_bind at 1. rewrite X.
    apply expired_runs in X as (_ & Hn & G). destruct gone; cbn beta iota.
    + exists (mkItem "" 1 (clock e n1 + ttl)), (S n1). rewrite Anew by done. split; [done|]. split; [lia|]. right.
      cbn. destruct (G eq_refl) as [G1 G2]. pose proof (monotone n n1 Hn). pose proof (monotone n1 (S n1) ltac:(lia)).
      split_and!; [|done|lia]. intros v1 [= <-]. split; lia.
    + unfold mbind, M_bind. cbn. specialize (B v0 eq_refl). unfold maxInt64 in B.
      rewrite wrap64_id by (unfold minInt64, maxInt64; lia).
      exists (mkItem "" (it_counter v0 + 1) (it_expires v0)), n1. split; [done|]. split; [done|]. left. by exists v0.
  - unfold mbind at 1, M_bind at 1. cbn beta iota delta [mret M_ret].
    exists (mkItem "" 1 (clock e n + ttl)), (S n). rewrite Anew by done. split; [done|]. split; [lia|]. right.
    split_and!; [done|done|cbn; lia].
Qed.

(** What one call does: its answer and its counter agree with [metered], the
    other counters stay. *)
Record counts (lc : local_cache) (c : attempted) (n n' : nat) (k : Z) (s s' : Limits data) (ok : bool) : Prop := {
  counts_ticks : (n <= n')%nat;
  counts_bound : counted (k + 1) s';
  counts_own : forall b, clock e n' <= b ->
    metered (at_limit c) (at_window c) (clock e n) b (meter lc b (at_key c) s) ok (meter lc b (at_key c) s');
  counts_others : forall b key, key <> at_key c -> meter lc b key s' = meter lc b key s
}.

Lemma counted_more k s : counted k s -> counted (k + 1) s.
Proof. intros [C1 C2]. split; [|done]. intros key v X. specialize (C1 key v X). lia. Qed.

Lemma counted_local k m l key en : counted k (mkLimits m l) -> 0 <= en_count en ->
  counted (k + 1) (mkLimits m (<[key := en]> l)).
Proof.
  intros C P. apply counted_more in C as [C1 C2]. split; [done|]. intros key' v. cbn.
  rewrite lookup_insert_Some. intros [[_ <-]|[_ X]]; [done|by eapply C2].
Qed.

Lemma local_counts lc c n n1 k s : (lc = NoCache \/ lc = Disabled) -> 0 < at_limit c -> counted k s -> (n <= n1)%nat ->
  exists ok s', count_locally (at_key c) (at_limit c) (at_window c) (clock e n) e n1 s = (Ok ok, n1, s') /\
    counts lc c n n1 k s s' ok.
Proof.
  intros Lc L C Hn. destruct s as [m l].
  assert (Mt : forall b key l, meter lc b key (mkLimits m l) = (fun e => (en_count e, en_until e)) <$> l !! key)
    by (by destruct Lc as [-> | ->]).
  unfold count_locally, mbind at 1, M_bind at 1, peek. cbn [lm_local lm_cache].
  assert (Others : forall en b key, key <> at_key c ->
    meter lc b key (mkLimits m (<[at_key c := en]> l)) = meter lc b key (mkLimits m l)).
  { intros en b key Ne. by rewrite !Mt, lookup_insert_ne by done. }
  destruct (After (clock e n) (en_until (default (mkEntry 0 zeroTime) (l !! at_key c)))) eqn:Af.
  - cbn [en_count en_until]. assert (at_limit c <=? 0 = false) as -> by (apply Z.leb_gt; lia). unfold mbind, M_bind, poke.
    do 2 eexists. split; [reflexivity|]. split; [done|by apply counted_local| |by apply Others].
    intros b Hb. rewrite !Mt, lookup_insert_eq. cbn. apply metered_anew; [|unfold timeAdd; lia].
    intros c0 y E. destruct (l !! at_key c) as [en|]; [|discriminate]. injection E as <- <-. cbn in Af.
    unfold After in Af. apply Z.ltb_lt in Af. pose proof (monotone n n1 Hn). lia.
  - destruct (l !! at_key c) as [en|] eqn:El; cbn [default from_option] in Af |- *; unfold id in *.
    2: { unfold After, zeroTime in Af. cbn in Af. apply Z.ltb_ge in Af. pose proof (after_zero n). lia. }
    pose proof (proj2 C (at_key c) en El) as P.
    destruct (Z.leb_spec (at_limit c) (en_count en)) as [Full|Room]; unfold mbind, M_bind, poke;
      (do 2 eexists; split; [reflexivity|]; split;
        [done|apply counted_local; [done|cbn; lia]| |by apply Others]);
      intros b Hb; rewrite !Mt, lookup_insert_eq, El; cbn; apply metered_on; (lia || done).
Qed.

Lemma memory_counts prefix c n n1 k s : 0 < at_window c -> counted k s -> 0 <= k < maxInt64 -> (n <= n1)%nat ->
  exists ok n' s', count_in_cache (Some (memory prefix)) (at_key c) (at_limit c) (at_window c) e n1 s =
      (Ok (Some ok), n', s') /\
    counts (InMemory prefix) c n n' k s s' ok.
Proof.
  intros L [C1 C2] K Hn. destruct s as [m l]. cbn [lm_cache lm_local] in *.
  unfold count_in_cache. cbn [cache_Provider memory cache_Increment]. cbn [String.eqb Ascii.eqb Bool.eqb].
  unfold mbind, M_bind, attempt, zoom. cbn [lm_cache lm_local].
  destruct (increment_runs prefix ("ratelimit:" +:+ at_key c) (at_window c) n1 m L) as (v & n' & -> & Hn' & V).
  { intros v X. specialize (C1 _ _ X). lia. }
  exists (it_counter v <=? at_limit c), n', (mkLimits (<[full prefix ("ratelimit:" +:+ at_key c) := v]> m) l).
  split; [done|].
  assert (Pv : 0 <= it_counter v <= k + 1).
  { destruct V as [(v0 & X & -> & _)|(_ & -> & _)]; [specialize (C1 _ _ X)|]; lia. }
  split.
  - lia.
  - split; [|done]. intros key v1. cbn. rewrite lookup_insert_Some. intros [[_ <-]|[_ X]]; [done|].
    specialize (C1 _ _ X). lia.
  - intros b Hb. cbn [meter lm_cache]. rewrite lookup_insert_eq. cbn [fmap option_fmap option_map].
    destruct V as [(v0 & X & E1 & E2)|(Gone & E1 & E2)].
    + rewrite X. cbn. unfold item_meter. rewrite E2. pose proof (C1 _ _ X). apply metered_on; [lia|lia|].
      intros G. apply Z.leb_le in G. lia.
    + unfold item_meter at 2. rewrite E1. pose proof (after_zero n1). pose proof (monotone n n1 Hn).
      unfold IsZero. destruct (Z.eqb_spec (it_expires v) 0) as [Z0|Z0]; [lia|]. apply metered_anew; [|lia].
      intros c0 y E. destruct (m !! full prefix _) as [v0|]; [|discriminate]. destruct (Gone v0 eq_refl) as [G1 G2].
      cbn in E. unfold item_meter, IsZero in E. apply Z.eqb_neq in G1. rewrite G1 in E. injection E as _ <-. lia.
  - intros b key Ne. cbn [meter lm_cache]. rewrite lookup_insert_ne; [done|].
    unfold full. intros X. apply append_inv_head, append_inv_head in X. congruence.
Qed.

Lemma allow_counts lc c n k s : 0 < at_limit c -> 0 < at_window c -> counted k s -> 0 <= k < maxInt64 ->
  exists ok n' s', allow (cache_of lc) c e n s = (Ok ok, n', s') /\ counts lc c n n' k s s' ok.
Proof.
  intros L W C K. unfold allow, mbind at 1, M_bind at 1, now. unfold Allow.
  assert (at_limit c <=? 0 = false) as -> by (apply Z.leb_gt; lia).
  destruct lc as [| |prefix]; cbn [cache_of].
  1: destruct (local_counts NoCache c n (S n) k s ltac:(eauto) L C ltac:(lia)) as (ok & s' & E & R).
  2: destruct (local_counts Disabled c n (S n) k s ltac:(eauto) L C ltac:(lia)) as (ok & s' & E & R).
  1,2: exists ok, (S n), s'; split; [exact E|exact R].
  destruct (memory_counts prefix c n (S n) k s W C K ltac:(lia)) as (ok & n' & s' & E & R).
  exists ok, n', s'. split; [|exact R]. unfold mbind, M_bind. by rewrite E.
Qed.

(** The answers to the calls for a key. *)
Definition answers (key : string) (outcomes : list (attempted * result bool)) : list bool :=
  map (fun o => match o.2 with Ok ok => ok | Err _ => false end)
    (List.filter (fun o => at_key o.1 =s key) outcomes).

Lemma answers_cons key c r rest : answers key ((c, r) :: rest) =
  if at_key c =s key then match r with Ok ok => ok | Err _ => false end :: answers key rest else answers key rest.
Proof. unfold answers. cbn. by destruct (at_key c =s key). Qed.

Lemma metered_before l w a a' b m oks m' : a' <= a -> metered_all l w a b m oks m' -> metered_all l w a' b m oks m'.
Proof.
  intros Le. induction 1 as [|m ok m1 oks m2 S Rest IH]; econstructor; [|exact IH].
  inversion S; subst; [by apply metered_on|]. apply metered_anew; [done|lia].
Qed.

Lemma allow_all_counts lc key l w calls : forall n k s,
  (forall c, c ∈ calls -> 0 < at_limit c /\ 0 < at_window c /\ (at_key c = key -> at_limit c = l /\ at_window c = w)) ->
  counted k s -> 0 <= k -> k + llen calls <= maxInt64 ->
  exists outcomes n' s', allow_all (cache_of lc) calls e n s = (Ok outcomes, n', s') /\ (n <= n')%nat /\
    counted (k + llen calls) s' /\ Forall (fun o => is_ok o.2 = true) outcomes /\
    forall b, clock e n' <= b -> metered_all l w (clock e n) b (meter lc b key s) (answers key outcomes) (meter lc b key s').
Proof.
  induction calls as [|c calls IH]; intros n k s Hc C K B.
  - exists [], n, s. split; [done|]. split; [done|]. rewrite llen_nil, Z.add_0_r. split; [done|]. split; [constructor|].
    intros b _. constructor.
  - rewrite llen_cons in *. pose proof (llen_nonneg calls).
    destruct (Hc c) as (L & W & Own); [by left|].
    destruct (allow_counts lc c n k s L W C ltac:(lia)) as (ok & n1 & s1 & E1 & [T1 B1 O1 R1]).
    destruct (IH n1 (k + 1) s1) as (rest & n2 & s2 & E2 & T2 & B2 & F2 & M2); [|done|lia|lia|].
    { intros c' Hc'. apply Hc. by right. }
    exists ((c, Ok ok) :: rest), n2, s2. cbn [allow_all].
    unfold mbind, M_bind, attempt in E2 |- *. rewrite E1, E2. split; [done|]. split; [lia|].
    split; [by replace (k + (1 + llen calls)) with (k + 1 + llen calls) by lia|]. split; [by constructor|].
    intros b Hb. pose proof (monotone n n1 T1) as Le1. pose proof (monotone n1 n2 T2) as Le2.
    specialize (M2 b Hb). apply (metered_before _ _ _ (clock e n)) in M2; [|done]. rewrite answers_cons.
    destruct (String.eqb_spec (at_key c) key) as [Ek|Ek].
    + destruct (Own Ek) as [El Ew]. specialize (O1 b ltac:(lia)). rewrite El, Ew, Ek in O1. by econstructor.
    + by rewrite <- R1 by congruence.
Qed.
End limit.

(** C26.  The rate is limited: with the counters in memory or in the process
    (without a cache), whatever calls for whatever keys came before, of the
    calls for a key that are made within one window at most twice the limit are
    admitted (a fixed window: the limit before its counter starts again and the
    limit after), and no call fails. *)
Theorem requests_are_limited lc e earlier calls key l w n outcomes0 n0 s outcomes n' s' :
  (forall i j, (i <= j)%nat -> clock e i <= clock e j) -> (forall i, 0 < clock e i) ->
  (forall c, c ∈ earlier ++ calls ->
     0 < at_limit c /\ 0 < at_window c /\ (at_key c = key -> at_limit c = l /\ at_window c = w)) ->
  0 < l -> llen (earlier ++ calls) <= maxInt64 ->
  allow_all (cache_of lc) earlier e n (mkLimits ∅ ∅) = (Ok outcomes0, n0, s) ->
  allow_all (cache_of lc) calls e n0 s = (Ok outcomes, n', s') ->
  clock e n' <= clock e n0 + w ->
  count_if id (answers key outcomes) <= 2 * l /\ forall c r, (c, r) ∈ outcomes -> is_ok r = true.
Proof.
  intros Mono Pos Hc L B E0 E Win. rewrite llen_app in B. pose proof (llen_nonneg earlier). pose proof (llen_nonneg calls).
  assert (C0 : counted 0 (mkLimits ∅ ∅)) by (split; intros k v X; cbn in X; by rewrite lookup_empty in X).
  destruct (allow_all_counts e Mono Pos lc key l w earlier n 0 _ ltac:(intros c X; apply Hc, elem_of_app; by left) C0
    ltac:(lia) ltac:(lia)) as (o1 & n1 & s1 & E1 & _ & C1 & _ & _).
  rewrite E0 in E1. injection E1 as <- <- <-.
  destruct (allow_all_counts e Mono Pos lc key l w calls n0 (0 + llen earlier) s ltac:(intros c X; apply Hc, elem_of_app; by right)
    C1 ltac:(lia) ltac:(lia)) as (o2 & n2 & s2 & E2 & _ & _ & F & M).
  rewrite E in E2. injection E2 as <- <- <-. split.
  - specialize (M _ (Z.le_refl _)). eapply metered_window; [done..|exact M|].
    intros c x Hm. destruct C1 as [Ca Cb]. destruct lc; cbn [meter] in Hm;
      apply fmap_Some in Hm as (v & Hv & Hm); injection Hm as -> _; first [by eapply Cb | by eapply Ca].
  - intros c r X. rewrite Forall_forall in F. exact (F _ X).
Qed.

(** ** The lock excludes *)

(** What the processes do with the lock manager. *)
Inductive lock_op := TakeLock (key : string) (ttl : Duration) | GiveBack (r : Release).

Section exclusion.
Variables (prefix : string) (e : Env).
Let c : option (Cache data) := Some (memory prefix).

Definition run_lock_op (o : lock_op) : M data (option (result Release)) :=
  match o with
  | TakeLock key ttl => r ← attempt (Acquire c key ttl); mret (Some r)
  | GiveBack r => _ ← attempt (release c r); mret None
  end.

Fixpoint run_lock_ops (ops : list lock_op) : M data (list (lock_op * option (result Release))) :=
  match ops with
  | [] => mret []
  | o :: ops => r ← run_lock_op o; rest ← run_lock_ops ops; mret ((o, r) :: rest)
  end.

Hypothesis monotone : forall i j, (i <= j)%nat -> clock e i <= clock e j.
Hypothesis after_zero : forall i, 0 < clock e i.

(** The key holds the token until [x]. *)
Definition held (key token : string) (x : Time) (m : data) : Prop :=
  0 < x /\ m !! full prefix ("lock:" +:+ key) = Some (mkItem token 0 x).

Lemma expired_not v n m : 0 < it_expires v -> clock e n <= it_expires v -> expired v e n m = (Ok false, S n, m).
Proof.
  intros P L. unfold expired, IsZero. destruct (Z.eqb_spec (it_expires v) 0); [lia|].
  unfold mbind, M_bind, now, After. assert (it_expires v <? clock e n = false) as -> by (apply Z.ltb_ge; lia). done.
Qed.

Lemma other_key k k' : k <> k' -> full prefix ("lock:" +:+ k) <> full prefix ("lock:" +:+ k').
Proof. intros Ne X. apply append_inv_head, append_inv_head in X. done. Qed.

Lemma advances_SetNX k v ttl : advances (memory_SetNX prefix k v ttl).
Proof. unfold memory_SetNX, expired, expiry, peek, poke. advances_walk; intros ? ? ?; cbn; lia. Qed.

Lemma advances_CompareAndDelete k v : advances (memory_CompareAndDelete prefix k v).
Proof. unfold memory_CompareAndDelete, expired, peek, poke. advances_walk; intros ? ? ?; cbn; lia. Qed.
#[local] Hint Resolve advances_SetNX advances_CompareAndDelete : forge.

Lemma advances_lock_op o : advances (run_lock_op o).
Proof.
  destruct o; cbn [run_lock_op]; unfold Acquire, release, RandomToken, c;
    cbn [cache_Provider memory cache_SetNX cache_CompareAndDelete]; cbn [String.eqb Ascii.eqb Bool.eqb];
    advances_walk.
Qed.

Lemma advances_lock_ops ops : advances (run_lock_ops ops).
Proof.
  induction ops as [|o ops IH]; cbn [run_lock_ops]; [apply advances_ret|]. apply advances_bind; [apply advances_lock_op|intros ?].
  apply advances_bind; [exact IH|intros ?; apply advances_ret].
Qed.

Lemma held_insert key token x m k v : held key token x m -> k <> key ->
  held key token x (<[full prefix ("lock:" +:+ k) := v]> m).
Proof. intros [P Hm] Ne. split; [done|]. by rewrite lookup_insert_ne by (by apply other_key). Qed.

Lemma held_delete key token x m k : held key token x m -> k <> key ->
  held key token x (delete (full prefix ("lock:" +:+ k)) m).
Proof. intros [P Hm] Ne. split; [done|]. by rewrite lookup_delete_ne by (by apply other_key). Qed.

Lemma SetNX_held key token x k v ttl n m r n' m' : held key token x m ->
  memory_SetNX prefix ("lock:" +:+ k) v ttl e n m = (r, n', m') -> clock e n' <= x ->
  held key token x m' /\ (k = key -> r = Ok false).
Proof.
  intros Hd E L. unfold memory_SetNX, mbind at 1, M_bind at 1, peek in E.
  destruct (decide (k = key)) as [->|Ne].
  - pose proof Hd as [P Hm]. rewrite Hm in E. unfold mbind at 1, M_bind at 1 in E.
    destruct (Z.leb_spec (clock e n) x) as [Le|Gt].
    + rewrite expired_not in E by (cbn; lia). cbn in E. injection E as <- <- <-. by split.
    + exfalso. pose proof (advances_SetNX ("lock:" +:+ key) v ttl e n m) as A. unfold memory_SetNX, mbind at 1, M_bind at 1, peek in A.
      rewrite Hm in A. unfold mbind at 1, M_bind at 1 in A. rewrite E in A. cbn in A. pose proof (monotone n n' A). lia.
  - split; [|done].
    assert (X : m' = m \/ exists item, m' = <[full prefix ("lock:" +:+ k) := item]> m).
    { unfold mbind, M_bind, expiry, poke, now in E. destruct (m !! full prefix ("lock:" +:+ k)) as [old|] eqn:El.
      - destruct (expired_total e old n m) as (gone & n1 & Eg). rewrite Eg in E. destruct gone; cbn in E.
        + destruct (0 <? ttl); cbn in E; injection E as _ _ <-; right; by eexists.
        + injection E as _ _ <-. by left.
      - cbn in E. destruct (0 <? ttl); cbn in E; injection E as _ _ <-; right; by eexists. }
    destruct X as [->|[it ->]]; [done|by apply held_insert].
Qed.

Lemma CompareAndDelete_held key token x k v n m r n' m' : held key token x m ->
  memory_CompareAndDelete prefix ("lock:" +:+ k) v e n m = (r, n', m') -> clock e n' <= x -> (k = key -> v <> token) ->
  held key token x m'.
Proof.
  intros Hd E L Ne. pose proof (advances_CompareAndDelete ("lock:" +:+ k) v e n m) as A. rewrite E in A. cbn in A.
  pose proof (monotone n n' A). unfold memory_CompareAndDelete, mbind at 1, M_bind at 1, peek in E.
  destruct (decide (k = key)) as [->|Nk].
  - pose proof Hd as [P Hm]. rewrite Hm in E. unfold mbind at 1, M_bind at 1 in E.
    rewrite expired_not in E by (cbn; lia). cbn in E. destruct (String.eqb_spec token v) as [->|_]; [by destruct Ne|].
    cbn in E. by injection E as _ _ <-.
  - assert (X : m' = m \/ m' = delete (full prefix ("lock:" +:+ k)) m).
    { unfold mbind, M_bind, poke in E. destruct (m !! full prefix ("lock:" +:+ k)) as [old|] eqn:El.
      - destruct (expired_total e old n m) as (gone & n1 & Eg). rewrite Eg in E. destruct gone; cbn in E.
        + injection E as _ _ <-. by right.
        + destruct (negb _) in E; cbn in E; injection E as _ _ <-; auto.
      - cbn in E. injection E as _ _ <-. by right. }
    destruct X as [->| ->]; [done|by apply held_delete].
Qed.

(** An operation by anybody but the holder leaves the lock, and is refused it. *)
Lemma op_held key token x o n m r n' m' : held key token x m -> run_lock_op o e n m = (Ok r, n', m') -> clock e n' <= x ->
  (forall g, o = GiveBack g -> rel_key g = key -> rel_token g <> token) ->
  held key token x m' /\ (forall ttl, o = TakeLock key ttl -> exists err, r = Some (Err err)).
Proof.
  intros Hd E L Ng. destruct o as [k ttl|g]; cbn [run_lock_op] in E.
  - apply bind_ok in E as (r1 & n1 & m1 & E & R). apply attempt_inv in E. apply ret_ok in R as (<- & <- & <-).
    unfold Acquire, c in E. cbn [cache_Provider memory cache_SetNX] in E. cbn [String.eqb Ascii.eqb Bool.eqb] in E.
    unfold RandomToken, rand_Read, mbind, M_bind in E. destruct (faults e n) as [err|].
    { injection E as <- _ <-. split; [done|]. intros ? _. by eexists. }
    cbn beta iota delta [mret M_ret] in E.
    destruct (memory_SetNX prefix ("lock:" +:+ k) (EncodeToString (random_bytes e n 24)) ttl e (S n) m) as [[r2 n2] m2] eqn:E2.
    assert (L2 : clock e n2 <= x) by (destruct r2 as [[|]|]; injection E as _ -> _; done).
    destruct (SetNX_held _ _ _ _ _ _ _ _ _ _ _ Hd E2 L2) as [Hd2 Busy].
    destruct r2 as [b|err]; [|injection E as <- _ <-; split; [done|]; intros ? _; by eexists].
    split; [destruct b; by injection E as _ _ <-|]. intros ttl' [= -> _]. specialize (Busy eq_refl). injection Busy as ->.
    injection E as <- _ _. by eexists.
  - split; [|done]. apply bind_ok in E as (r1 & n1 & m1 & E & R). apply attempt_inv in E. apply ret_ok in R as (_ & <- & <-).
    unfold release, c in E. cbn [memory cache_CompareAndDelete] in E. unfold mbind, M_bind in E.
    destruct (memory_CompareAndDelete prefix ("lock:" +:+ rel_key g) (rel_token g) e n m) as [[r2 n2] m2] eqn:E2.
    assert (X : n2 = n1 /\ m2 = m1) by (destruct r2; by injection E as _ -> ->). destruct X as [-> ->].
    eapply CompareAndDelete_held; [exact Hd|exact E2|exact L|intros Ek; by apply Ng].
Qed.

Lemma ops_held key token x ops : forall n m outs n' m', held key token x m ->
  run_lock_ops ops e n m = (Ok outs, n', m') -> clock e n' <= x ->
  (forall g, GiveBack g ∈ ops -> rel_key g = key -> rel_token g <> token) ->
  held key token x m' /\ forall ttl r, (TakeLock key ttl, r) ∈ outs -> exists err, r = Some (Err err).
Proof.
  induction ops as [|o ops IH]; intros n m outs n' m' Hd E L Ng; cbn [run_lock_ops] in E.
  - apply ret_ok in E as (<- & _ & <-). split; [done|]. intros ttl r X. by apply elem_of_nil in X.
  - apply bind_ok in E as (r & n1 & m1 & E1 & E). apply bind_ok in E as (rest & n2 & m2 & E2 & E).
    apply ret_ok in E as (<- & <- & <-).
    pose proof (advances_lock_ops ops e n1 m1) as A. rewrite E2 in A. cbn in A. pose proof (monotone n1 n2 A).
    destruct (op_held key token x o n m r n1 m1 Hd E1 ltac:(lia)) as [Hd1 Busy].
    { intros g ->. apply Ng. by left. }
    destruct (IH n1 m1 rest n2 m2 Hd1 E2 L) as [Hd2 Rest]; [intros g X; apply Ng; by right|].
    split; [done|]. intros ttl r' X. apply elem_of_cons in X as [[= <- <-]|X]; [by eapply Busy|by eapply Rest].
Qed.

(** A lock that was just taken, until its lease ends. *)
Lemma Acquire_held key ttl n m r n' m' : 0 < ttl -> Acquire c key ttl e n m = (Ok r, n', m') ->
  rel_key r = key /\ exists x, clock e n + ttl <= x /\ held key (rel_token r) x m'.
Proof.
  intros P E. unfold Acquire, c in E. cbn [cache_Provider memory cache_SetNX] in E. cbn [String.eqb Ascii.eqb Bool.eqb] in E.
  apply bind_ok in E as (token & n1 & m1 & E1 & E). unfold RandomToken in E1.
  apply bind_ok in E1 as (bytes & n0 & m0 & E0 & E1). apply rand_Read_ok in E0 as (_ & _ & -> & <-).
  apply ret_ok in E1 as (_ & <- & <-). apply bind_ok in E as (ok & n2 & m2 & E2 & E).
  destruct ok; cbn [negb] in E; [|by apply fail_ok in E]. apply ret_ok in E as (<- & _ & <-). split; [done|].
  unfold memory_SetNX in E2. apply bind_ok in E2 as (old & n3 & m3 & E3 & E2). injection E3 as <- <- <-.
  apply bind_ok in E2 as (free & n4 & m4 & E4 & E2).
  assert (X : m4 = m /\ (S n <= n4)%nat).
  { destruct (m !! full prefix ("lock:" +:+ key)) as [old|]; [|apply ret_ok in E4 as (_ & <- & <-); done].
    destruct (expired_runs e monotone old (S n) m free n4 m4 E4) as (-> & An & _). done. }
  destruct X as [-> An]. destruct free; cbn [negb] in E2; [|apply ret_ok in E2 as (Bad & _ & _); discriminate].
  unfold mbind at 1, M_bind at 1 in E2. rewrite expiry_runs in E2 by done. cbn in E2. injection E2 as _ <-.
  exists (clock e n4 + ttl). pose proof (monotone n n4 ltac:(lia)). pose proof (after_zero n4).
  split; [lia|]. split; [lia|]. cbn. by rewrite lookup_insert_eq.
Qed.

(** Giving a lock back frees its key, whether its lease is over or not. *)
Lemma release_frees key x r n m u n' m' : rel_key r = key -> held key (rel_token r) x m ->
  release c r e n m = (Ok u, n', m') -> m' !! full prefix ("lock:" +:+ key) = None.
Proof.
  intros Hk [P Hm] E. unfold release, c in E. cbn [memory cache_CompareAndDelete] in E.
  apply bind_ok in E as (b & n1 & m1 & E & R). apply ret_ok in R as (_ & _ & <-).
  unfold memory_CompareAndDelete, mbind, M_bind, peek, poke in E. rewrite Hk, Hm in E.
  destruct (expired_total e (mkItem (rel_token r) 0 x) n m) as (gone & n2 & Eg). rewrite Eg in E.
  destruct gone; cbn in E; [|rewrite seqb_refl in E; cbn in E]; injection E as _ _ <-; apply lookup_delete_eq.
Qed.

Lemma free_acquired key ttl n (m : data) : no_faults e -> m !! full prefix ("lock:" +:+ key) = None ->
  is_ok (Acquire c key ttl e n m).1.1 = true.
Proof.
  intros F Hm. unfold Acquire, c. cbn [cache_Provider memory cache_SetNX]. cbn [String.eqb Ascii.eqb Bool.eqb].
  unfold RandomToken, rand_Read, memory_SetNX, expiry, peek, poke, now, mbind, M_bind. rewrite F.
  cbn beta iota delta [mret M_ret]. rewrite Hm. cbn. by destruct (0 <? ttl).
Qed.
End exclusion.

(** The lock excludes: from the moment a process has a lock until it gives
    it back or its lease ends, every other attempt to take it fails, whatever
    the processes do with this and other locks (give back their own, late ones
    included: their tokens differ); once it is given back it can be taken. *)
Theorem the_lock_excludes prefix e key ttl n m r n1 m1 ops outs n2 m2 :
  (forall i j, (i <= j)%nat -> clock e i <= clock e j) -> (forall i, 0 < clock e i) -> 0 < ttl ->
  Acquire (Some (memory prefix)) key ttl e n m = (Ok r, n1, m1) ->
  run_lock_ops prefix ops e n1 m1 = (Ok outs, n2, m2) ->
  clock e n2 <= clock e n + ttl ->
  (forall g, GiveBack g ∈ ops -> rel_key g = key -> rel_token g <> rel_token r) ->
  (forall ttl' res, (TakeLock key ttl', res) ∈ outs -> exists err, res = Some (Err err)) /\
  (forall u n3 m3 ttl', no_faults e -> release (Some (memory prefix)) r e n2 m2 = (Ok u, n3, m3) ->
     is_ok (Acquire (Some (memory prefix)) key ttl' e n3 m3).1.1 = true).
Proof.
  intros Mono Pos P A Ops L Ng. destruct (Acquire_held prefix e Mono Pos _ _ _ _ _ _ _ P A) as (Hk & x & Lx & Hd).
  destruct (ops_held prefix e Mono key (rel_token r) x ops n1 m1 outs n2 m2 Hd Ops ltac:(lia) Ng) as [Hd2 Busy].
  split; [exact Busy|]. intros u n3 m3 ttl' F R. apply free_acquired; [done|].
  by eapply release_frees.
Qed.

(** ** Reservations *)

Definition idem_key (r : IdemRow) : string * string * string := (ir_organization_id r, ir_scope r, ir_idem_key r).

(** The primary key and the unique key of the table. *)
Definition idem_ok (rows : list IdemRow) : Prop := NoDup (map ir_id rows) /\ NoDup (map idem_key rows).

(** What is known of the answer: the state, the status and the body. *)
Definition answer_of (r : IdemRow) : string * option Z * option string :=
  (ir_state r, ir_response_status r, ir_response_body r).

Inductive idem_op :=
| OpBegin (fuel : nat) (org scope key hash : string) (ttl : Duration)
| OpComplete (id : string) (status : Z) (body : string)
| OpForget (id : string)
| OpPurge.

Definition run_idem_op (o : idem_op) : I bool :=
  match o with
  | OpBegin fuel org scope key hash ttl => b ← Begin fuel org scope key hash ttl; mret (br_Created b)
  | OpComplete id status body => _ ← Complete id status body; mret false
  | OpForget id => _ ← Forget id; mret false
  | OpPurge => _ ← idem_PurgeExpired; mret false
  end.

Fixpoint run_idem_ops (ops : list idem_op) : I (list (idem_op * result bool)) :=
  match ops with
  | [] => mret []
  | o :: ops => r ← attempt (run_idem_op o); rest ← run_idem_ops ops; mret ((o, r) :: rest)
  end.

Lemma same_request_key org scope key r : same_request org scope key r = true <-> idem_key r = (org, scope, key).
Proof.
  unfold same_request, idem_key. rewrite !andb_true_iff, !String.eqb_eq. split; [intros [[-> ->] ->]; done|intros [= -> -> ->]; done].
Qed.

Lemma insert_idem_ok r rows rows' u : idem_ok rows -> insert_idem r rows = Ok (u, rows') -> rows' = rows ++ [r] /\ idem_ok rows'.
Proof.
  intros [N1 N2] E. unfold insert_idem in E. destruct (existsb _ _) eqn:X; [discriminate|]. injection E as _ <-. split; [done|].
  rewrite existsb_false in X. split; rewrite map_app; apply NoDup_app; (split; [done|split; [|apply NoDup_singleton]]);
    intros k Hk Hr; apply list_elem_of_singleton in Hr as ->; apply list_elem_of_In, in_map_iff in Hk as (y & Ey & Hy);
    apply list_elem_of_In in Hy; specialize (X y Hy); apply orb_false_iff in X as [X1 X2].
  - by apply String.eqb_neq in X1.
  - apply not_true_iff_false in X2. apply X2. apply same_request_key. exact Ey.
Qed.

Lemma idem_ok_delete p rows : idem_ok rows -> idem_ok (delete_where p rows).
Proof. intros [N1 N2]. split; by apply NoDup_map_select. Qed.

Lemma idem_ok_complete p status body rows : idem_ok rows -> idem_ok (update_where p (set_completed status body) rows).
Proof. intros [N1 N2]. split; by rewrite map_update_where. Qed.

Section reservation.
Variables (e : Env) (org scope key i h : string) (x : Time).
Hypothesis monotone : forall i j, (i <= j)%nat -> clock e i <= clock e j.

(** The reservation [i] for the request, with what is known of its answer. *)
Definition reserved (known : string * option Z * option string) (rows : list IdemRow) : Prop :=
  idem_ok rows /\
  exists r, r ∈ rows /\ idem_key r = (org, scope, key) /\ ir_id r = i /\ ir_request_hash r = h /\ ir_expires_at r = x /\
    answer_of r = known.

(** The first completion counts. *)
Definition completes (id : string) (status : Z) (body : string) (known : string * option Z * option string) :=
  if (id =s i) && (known.1.1 =s "PROCESSING") then ("COMPLETED", Some status, Some body) else known.
Definition known_after (o : idem_op * result bool) (known : string * option Z * option string) :=
  match o with (OpComplete id status body, Ok _) => completes id status body known | _ => known end.

Lemma reserved_insert known r rows : reserved known rows -> forall u rows', insert_idem r rows = Ok (u, rows') ->
  reserved known rows'.
Proof.
  intros [Ok1 (q & Hq & Q)] u rows' E. apply insert_idem_ok in E as [-> Ok2]; [|done]. split; [done|].
  exists q. split; [|done]. apply elem_of_app. by left.
Qed.

Lemma reserved_delete known p rows : reserved known rows ->
  (forall r, r ∈ rows -> ir_id r = i -> ir_expires_at r = x -> p r = false) -> reserved known (delete_where p rows).
Proof.
  intros [Ok1 (q & Hq & Q1 & Q2 & Q3 & Q4 & Q5)] P. split; [by apply idem_ok_delete|]. exists q. split; [|done].
  apply elem_of_delete_where. auto.
Qed.

Lemma reserved_complete known id status body rows : reserved known rows ->
  reserved (completes id status body known)
    (update_where (fun r => (ir_id r =s id) && (ir_state r =s "PROCESSING")) (set_completed status body) rows).
Proof.
  intros [Ok1 (q & Hq & Q1 & Q2 & Q3 & Q4 & <-)]. split; [by apply idem_ok_complete|].
  eexists. split; [apply elem_of_update_where; exists q; split; [exact Hq|reflexivity]|].
  unfold completes. rewrite Q2. cbn. unfold answer_of at 1. cbn. rewrite (String.eqb_sym i id).
  by destruct ((id =s i) && (ir_state q =s "PROCESSING")).
Qed.

Lemma advances_Begin fuel : forall org scope key hash ttl, advances (Begin fuel org scope key hash ttl).
Proof.
  induction fuel as [|fuel IH]; intros; cbn [Begin]; unfold Begin_once, found, Forget; advances_walk; apply IH.
Qed.

Lemma advances_idem_op o : advances (run_idem_op o).
Proof.
  destruct o; cbn [run_idem_op]; unfold Complete, Forget, idem_PurgeExpired; advances_walk. by apply advances_Begin.
Qed.

(** The row of the reservation is the only one of its request. *)
Lemma reserved_row known rows r : reserved known rows -> r ∈ rows -> idem_key r = (org, scope, key) ->
  ir_id r = i /\ ir_request_hash r = h /\ ir_expires_at r = x /\ answer_of r = known.
Proof.
  intros [[_ N] (q & Hq & Q1 & Q)] Hr Hk. assert (r = q) as ->; [|done].
  eapply (NoDup_map_eq idem_key); [exact N|done|done|congruence].
Qed.

Lemma reserved_id known rows r : reserved known rows -> r ∈ rows -> ir_id r = i -> ir_expires_at r = x.
Proof.
  intros [[N _] (q & Hq & _ & Q2 & _ & Q4 & _)] Hr Hi. assert (r = q) as ->; [|done].
  eapply (NoDup_map_eq ir_id); [exact N|done|done|congruence].
Qed.

(** What somebody else learns of the reservation. *)
Definition replayed (known : string * option Z * option string) (h' : string) (b : BeginResult) : Prop :=
  b = mkBeginResult false (h <>s h')
        (mkIdemRecord i h known.1.1 (default 0 known.1.2) (default "" known.2) x).

(** A pass of [Begin]: it fails, or the row goes in, or there is a row for the
    request. *)
Lemma Begin_once_cases again org' scope' key' h' ttl n rows r n' rows' :
  Begin_once again org' scope' key' h' ttl e n rows = (r, n', rows') ->
  ((exists err, r = Err err) /\ rows' = rows) \/
  (exists row ttl, idem_key row = (org', scope', key') /\ insert_idem row rows = Ok (tt, rows') /\
     ir_request_hash row = h' /\ answer_of row = ("PROCESSING", None, None) /\ ir_expires_at row = clock e n + ttl /\
     r = Ok (mkBeginResult true false (mkIdemRecord (ir_id row) h' "PROCESSING" 0 "" (clock e n + ttl)))) \/
  (exists row n1 ttl, (n <= n1)%nat /\ row ∈ rows /\ idem_key row = (org', scope', key') /\
     found (again ttl) h' row e n1 rows = (r, n', rows')).
Proof.
  intros E. unfold Begin_once in E. destruct (_ || (h' =s "")); [left; injection E as <- _ <-; eauto|].
  unfold mbind at 1, M_bind at 1, now at 1 in E. unfold mbind at 1, M_bind at 1, NewString at 1 in E.
  set (ttl' := if ttl <=? 0 then 24 * Hour else ttl) in E. set (row := mkIdemRow _ _ _ _ _ _ _ _ _ _) in E.
  assert (Found : forall err n1, (n <= n1)%nat ->
    (r ← attempt (queryR (select_row (same_request org' scope' key')));
     match r with Err _ => fail err | Ok r => found (again ttl') h' r end) e n1 rows = (r, n', rows') ->
    ((exists err, r = Err err) /\ rows' = rows) \/
    (exists row n1 ttl, (n <= n1)%nat /\ row ∈ rows /\ idem_key row = (org', scope', key') /\
       found (again ttl) h' row e n1 rows = (r, n', rows'))).
  { intros err n1 L E1. unfold mbind at 1, M_bind at 1, attempt at 1, queryR, stmt in E1.
    destruct (faults e n1); [left; injection E1 as <- _ <-; eauto|].
    destruct (select_row _ rows) as [q|] eqn:Q; [|left; injection E1 as <- _ <-; eauto].
    apply select_row_ok in Q as [Hq Kq]. right. exists q, (S n1), ttl'. split; [lia|]. split; [done|].
    split; [by apply same_request_key|done]. }
  unfold mbind at 1, M_bind at 1, attempt at 1, stmt in E.
  assert (L3 : (n <= S (S (S n)))%nat) by lia.
  destruct (faults e (S (S n))); [destruct (Found _ _ L3 E); auto|].
  destruct (insert_idem row rows) as [[[] rows1]|err] eqn:Ins; [|destruct (Found _ _ L3 E); auto].
  right. left. exists row, ttl'. injection E as <- _ <-. done.
Qed.

Lemma found_reserved again known h' row n rows r n' rows' : advances again ->
  (forall n rows r n' rows', reserved known rows -> again e n rows = (r, n', rows') -> clock e n' <= x -> reserved known rows') ->
  reserved known rows -> row ∈ rows -> found again h' row e n rows = (r, n', rows') -> clock e n' <= x ->
  reserved known rows' /\ (idem_key row = (org, scope, key) -> forall b, r = Ok b -> replayed known h' b).
Proof.
  intros An Keep R Hrow E L. unfold found, mbind at 1, M_bind at 1, now at 1 in E.
  destruct (After (clock e n) (ir_expires_at row)) eqn:Af.
  - unfold mbind, M_bind, attempt, Forget, exec, stmt in E. unfold After in Af. apply Z.ltb_lt in Af.
    assert (Le : (n <= n')%nat).
    { destruct (faults e (S n)) in E; specialize (An e (S (S n))); [specialize (An rows)|specialize (An (delete_where (fun r => ir_id r =s ir_id row) rows))];
        rewrite E in An; cbn in An; lia. }
    pose proof (monotone n n' Le).
    split; [|intros K b ->; destruct (reserved_row _ _ row R Hrow K) as (_ & _ & X & _); lia].
    destruct (faults e (S n)) in E; (eapply Keep; [|exact E|exact L]); [done|]. apply reserved_delete; [done|].
    intros q Hq Iq Xq. apply String.eqb_neq. intros Eq.
    pose proof (reserved_id _ _ row R Hrow ltac:(congruence)). lia.
  - injection E as <- _ <-. split; [done|]. intros K b [= <-].
    destruct (reserved_row _ _ row R Hrow K) as (X1 & X2 & X3 & X4). unfold replayed. rewrite <- X1, <- X2, <- X3, <- X4.
    reflexivity.
Qed.

Lemma Begin_reserved known fuel : forall org' scope' key' h' ttl n rows r n' rows', reserved known rows ->
  Begin fuel org' scope' key' h' ttl e n rows = (r, n', rows') -> clock e n' <= x ->
  reserved known rows' /\
  ((org', scope', key') = (org, scope, key) -> forall b, r = Ok b -> replayed known h' b).
Proof.
  induction fuel as [|fuel IH]; intros org' scope' key' h' ttl n rows r n' rows' R E L; cbn [Begin] in E;
    apply Begin_once_cases in E as [[[err ->] ->]|[(row & t & K & Ins & _ & _ & _ & ->)|(row & n1 & t & Le & Hrow & K & E)]];
    try (by split).
  1,3: (split; [by eapply reserved_insert|]; intros Ek b _; exfalso; destruct R as [_ (q & Hq & Kq & _)];
      unfold insert_idem in Ins; destruct (existsb _ rows) eqn:X; [discriminate|]; rewrite existsb_false in X;
      specialize (X q Hq); apply orb_false_iff in X as [_ X]; apply not_true_iff_false in X; apply X, same_request_key;
      unfold idem_key in K; congruence).
  - destruct (fun An Keep => found_reserved _ known h' row n1 rows r n' rows' An Keep R Hrow E L) as [G1 G2];
      [apply advances_fail|intros n2 rows2 r2 n2' rows2' R2 E2 _; by injection E2 as _ _ <-|].
    split; [exact G1|intros Ek; apply G2; congruence].
  - destruct (fun An Keep => found_reserved _ known h' row n1 rows r n' rows' An Keep R Hrow E L) as [G1 G2];
      [apply advances_Begin|intros n2 rows2 r2 n2' rows2' R2 E2 L2; by destruct (IH _ _ _ _ _ _ _ _ _ _ R2 E2 L2)|].
    split; [exact G1|intros Ek; apply G2; congruence].
Qed.

(** An operation that is not the removal of the reservation. *)
Lemma op_reserved known o n rows r n' rows' : reserved known rows -> run_idem_op o e n rows = (r, n', rows') ->
  clock e n' <= x -> o <> OpForget i -> reserved (known_after (o, r) known) rows'.
Proof.
  intros R E L Nf. destruct o as [fuel org' scope' key' h' ttl|id status body|id|]; cbn [run_idem_op known_after] in *;
    unfold mbind at 1, M_bind at 1 in E.
  - destruct (Begin fuel org' scope' key' h' ttl e n rows) as [[r1 n1] rows1] eqn:E1.
    assert (X : n1 = n' /\ rows1 = rows') by (destruct r1; by injection E as _ -> ->). destruct X as [-> ->].
    by eapply Begin_reserved.
  - unfold Complete, exec, stmt in E. destruct (faults e n); injection E as <- _ <-; [done|]. by apply reserved_complete.
  - unfold Forget, exec, stmt in E. destruct (faults e n); injection E as _ _ <-; [done|].
    apply reserved_delete; [done|]. intros q Hq Iq _. apply String.eqb_neq. congruence.
  - unfold idem_PurgeExpired, mbind, M_bind, now, exec, stmt in E. destruct (faults e (S n)); injection E as _ <- <-; [done|].
    apply reserved_delete; [done|]. intros q Hq _ Xq. pose proof (monotone n (S (S n)) ltac:(lia)).
    unfold Before, UTC. apply Z.ltb_ge. lia.
Qed.

Lemma advances_idem_ops ops : advances (run_idem_ops ops).
Proof.
  induction ops as [|o ops IH]; cbn [run_idem_ops]; [apply advances_ret|].
  apply advances_bind; [apply advances_attempt, advances_idem_op|intros ?].
  apply advances_bind; [exact IH|intros ?; apply advances_ret].
Qed.

Lemma ops_reserved ops : forall known n rows outs n' rows', reserved known rows ->
  run_idem_ops ops e n rows = (Ok outs, n', rows') -> clock e n' <= x -> OpForget i ∉ ops ->
  reserved (fold_left (fun k o => known_after o k) outs known) rows'.
Proof.
  induction ops as [|o ops IH]; intros known n rows outs n' rows' R E L Nf; cbn [run_idem_ops] in E.
  - by apply ret_ok in E as (<- & _ & <-).
  - apply bind_ok in E as (r & n1 & rows1 & E1 & E). apply attempt_inv in E1.
    apply bind_ok in E as (rest & n2 & rows2 & E2 & E). apply ret_ok in E as (<- & <- & <-).
    apply not_elem_of_cons in Nf as [No Nf]. cbn [fold_left].
    pose proof (advances_idem_ops ops e n1 rows1) as A. rewrite E2 in A. cbn in A. pose proof (monotone n1 n2 A).
    eapply IH; [|exact E2|exact L|exact Nf]. eapply op_reserved; [exact R|exact E1|lia|congruence].
Qed.
End reservation.

Lemma idem_ok_forget e n id rows r n' rows' : idem_ok rows -> attempt (Forget id) e n rows = (r, n', rows') -> idem_ok rows'.
Proof.
  intros Ok1 E. unfold attempt, Forget, exec, stmt in E. destruct (faults e n); injection E as _ _ <-; [done|].
  by apply idem_ok_delete.
Qed.

Lemma Begin_creates fuel e : forall org scope key h ttl n rows b n' rows', idem_ok rows ->
  Begin fuel org scope key h ttl e n rows = (Ok b, n', rows') -> br_Created b = true ->
  reserved org scope key (idem_ID (br_Record b)) h (idem_ExpiresAt (br_Record b)) ("PROCESSING", None, None) rows' /\
  br_Conflict b = false.
Proof.
  induction fuel as [|fuel IH]; intros org scope key h ttl n rows b n' rows' Ok1 E C; cbn [Begin] in E;
    apply Begin_once_cases in E as [[[err X] _]|[(row & t & K & Ins & Hh & Ha & Hx & X)|(row & n1 & t & Le & Hrow & K & E)]];
    try discriminate X.
  1,3: injection X as ->; split; [|done]; pose proof (insert_idem_ok _ _ _ _ Ok1 Ins) as [-> Ok2]; split; [done|];
    exists row; split; [apply elem_of_app; right; by left|done].
  all: unfold found, mbind at 1, M_bind at 1, now at 1 in E; destruct (After _ _);
    [|injection E as <- _ _; discriminate C]; unfold mbind at 1, M_bind at 1 in E;
    destruct (attempt (Forget (ir_id row)) e (S n1) rows) as [[r2 n2] rows2] eqn:F;
    (destruct r2 as [r2|]; [|discriminate E]); apply idem_ok_forget in F; [|done].
  - discriminate E.
  - by eapply IH.
Qed.

Lemma Begin_once_fresh again again' org scope key h ttl e n rows : no_faults e ->
  (forall r, r ∈ rows -> idem_key r <> (org, scope, key)) ->
  Begin_once again org scope key h ttl e n rows = Begin_once again' org scope key h ttl e n rows.
Proof.
  intros F N. unfold Begin_once. destruct (_ || (h =s "")); [done|]. unfold mbind, M_bind, now, NewString, attempt, stmt, queryR.
  unfold stmt. rewrite !F. destruct (insert_idem _ rows) as [[[] rows1]|err]; [done|].
  destruct (select_row (same_request org scope key) rows) as [q|] eqn:Q; [|by rewrite !F].
  apply select_row_ok in Q as [Hq Kq]. apply same_request_key in Kq. by destruct (N q Hq).
Qed.

(** Once the row that was found is deleted there is no other. *)
Lemma found_fresh again again' h org scope key e n rows row : no_faults e -> NoDup (map idem_key rows) -> row ∈ rows ->
  idem_key row = (org, scope, key) ->
  (forall n rows', (forall r, r ∈ rows' -> idem_key r <> (org, scope, key)) -> again e n rows' = again' e n rows') ->
  found again h row e n rows = found again' h row e n rows.
Proof.
  intros F N Hrow K G. unfold found, mbind, M_bind, now. destruct (After _ _); [|done].
  unfold attempt, Forget, exec, stmt. rewrite F. apply G. intros r Hr Kr.
  apply elem_of_delete_where in Hr as [Hr Ne]. apply String.eqb_neq in Ne. apply Ne.
  f_equal. eapply (NoDup_map_eq idem_key); [exact N|done|done|congruence].
Qed.

Lemma Begin_once_ext again again' org scope key h ttl e n rows : no_faults e -> NoDup (map idem_key rows) ->
  (forall ttl n rows', (forall r, r ∈ rows' -> idem_key r <> (org, scope, key)) ->
     again ttl e n rows' = again' ttl e n rows') ->
  Begin_once again org scope key h ttl e n rows = Begin_once again' org scope key h ttl e n rows.
Proof.
  intros F N G. unfold Begin_once. destruct (_ || (h =s "")); [done|]. unfold mbind, M_bind, now, NewString, attempt, stmt, queryR.
  unfold stmt. rewrite !F. destruct (insert_idem _ rows) as [[[] rows1]|err]; [done|].
  destruct (select_row (same_request org scope key) rows) as [q|] eqn:Q; rewrite !F; [|done].
  apply select_row_ok in Q as [Hq Kq]. apply same_request_key in Kq.
  eapply found_fresh; [done|exact N|exact Hq|exact Kq|]. intros n' rows' Fresh. by apply G.
Qed.

(** One repetition is enough while the database works: with more fuel the
    result is the same. *)
Lemma Begin_returns fuel org scope key h ttl e n rows : no_faults e -> idem_ok rows ->
  Begin (S fuel) org scope key h ttl e n rows = Begin 1 org scope key h ttl e n rows.
Proof.
  intros F [_ N]. cbn [Begin]. apply Begin_once_ext; [done|done|]. intros ttl' n' rows' Fresh.
  destruct fuel; cbn [Begin]; by apply Begin_once_fresh.
Qed.

(** C27.  A request takes effect once: after a reservation was made, whoever
    comes with the same organization, scope and key before it expires is not
    given another, whatever happens in between (other requests, completions,
    purges, but the removal of this reservation): the answer is the reservation
    as it was made, with the response it was completed with first, marked as a
    conflict exactly when the request is a different one.  And [Begin] returns
    after one repetition at most while the database works. *)
Theorem requests_take_effect_once e org scope key h ttl fuel n rows b n1 rows1 ops outs n2 rows2 fuel' h' ttl' b' n3 rows3 :
  (forall i j, (i <= j)%nat -> clock e i <= clock e j) -> idem_ok rows ->
  Begin fuel org scope key h ttl e n rows = (Ok b, n1, rows1) -> br_Created b = true ->
  run_idem_ops ops e n1 rows1 = (Ok outs, n2, rows2) -> OpForget (idem_ID (br_Record b)) ∉ ops ->
  Begin fuel' org scope key h' ttl' e n2 rows2 = (Ok b', n3, rows3) ->
  clock e n3 <= idem_ExpiresAt (br_Record b) ->
  let known := fold_left (fun k o => known_after (idem_ID (br_Record b)) o k) outs ("PROCESSING", None, None) in
  b' = mkBeginResult false (h <>s h') (mkIdemRecord (idem_ID (br_Record b)) h known.1.1 (default 0 known.1.2)
         (default "" known.2) (idem_ExpiresAt (br_Record b))) /\
  (no_faults e -> forall fuel'', Begin (S fuel'') org scope key h' ttl' e n2 rows2 = Begin 1 org scope key h' ttl' e n2 rows2).
Proof.
  intros Mono Ok1 B C Ops Nf B' L. cbn zeta. destruct (Begin_creates _ _ _ _ _ _ _ _ _ _ _ _ Ok1 B C) as [R _].
  pose proof (advances_Begin fuel' org scope key h' ttl' e n2 rows2) as A. rewrite B' in A. cbn in A.
  pose proof (Mono n2 n3 A) as L2.
  pose proof (ops_reserved e org scope key _ h _ Mono ops _ _ _ _ _ _ R Ops ltac:(lia) Nf) as R2.
  split.
  - by destruct (Begin_reserved _ _ _ _ _ _ _ Mono _ _ _ _ _ _ _ _ _ _ _ _ R2 B' L) as [_ G]; apply G.
  - intros F fuel''. apply Begin_returns; [done|]. by destruct R2.
Qed.

(** ** Samples *)

Module examples.
(** A tick a second; the random bytes of a tick are its number. *)
Definition env : Env := mkEnv (fun n => (1 + Z.of_nat n) * Second) (fun n => Itoa (Z.of_nat n)) (fun _ => None)
  (fun n _ => ascii_of_nat n) false.
Definition login (ip : string) : attempted := mkAttempted (ip +:+ "|login") 2 Minute.
Definition burst : list attempted := [login "a"; login "a"; login "b"; login "a"; login "a"].
Definition answered := allow_all (cache_of (InMemory "forge:")) burst env O (mkLimits ∅ ∅).

Definition cache : option (Cache data) := Some (memory "forge:").
Definition taken := Acquire cache "job" (20 * Second) env O ∅.
(** Another process tries to take the lock, and gives back one it lost before. *)
Definition late : Release := mkRelease "job" "an old token".
Definition others : list lock_op := [TakeLock "job" Minute; GiveBack late; TakeLock "other" Minute; TakeLock "job" Minute].

Definition begun := Begin 1 "o" "pay" "k1" "hash" Hour env O [].
(** Somebody completes it, a second completion comes too late. *)
Definition meanwhile (id : string) : list idem_op :=
  [OpBegin 1 "o" "pay" "k1" "hash" Hour; OpComplete id 201 "paid"; OpPurge; OpComplete id 500 "failed"].
End examples.

Lemma requests_are_limited_witness :
  match examples.answered with
  | (Ok outcomes, _, _) => answers "a|login" outcomes = [true; true; false; false] /\ count_if id (answers "a|login" outcomes) <= 4
  | _ => False
  end.
Proof.
  destruct examples.answered as [[[outcomes|err] n'] s'] eqn:E.
  - split; [vm_compute in E; injection E as <- _ _; reflexivity|].
    refine (proj1 (requests_are_limited (InMemory "forge:") examples.env [] examples.burst "a|login" 2 Minute O [] O
      (mkLimits ∅ ∅) outcomes n' s' _ _ _ _ _ eq_refl E _)).
    + intros i j L. cbn. unfold Second. lia.
    + intros i. cbn. unfold Second. lia.
    + assert (T : forallb (fun c => (0 <? at_limit c) && (0 <? at_window c) && (at_limit c =? 2) && (at_window c =? Minute))
        examples.burst = true) by (vm_compute; reflexivity).
      rewrite forallb_forall in T. intros c Hc. apply list_elem_of_In in Hc. specialize (T c Hc). lia.
    + lia.
    + vm_compute. discriminate.
    + vm_compute in E. injection E as _ <- _. vm_compute. discriminate.
  - vm_compute in E. discriminate E.
Defined.

Lemma the_lock_excludes_witness :
  match examples.taken with
  | (Ok r, n1, m1) =>
    match run_lock_ops "forge:" examples.others examples.env n1 m1 with
    | (Ok outs, n2, m2) =>
      map (fun o => match o.2 with Some r => is_ok r | None => true end) outs = [false; true; true; false] /\
      forall ttl res, (TakeLock "job" ttl, res) ∈ outs -> exists err, res = Some (Err err)
    | _ => False
    end
  | _ => False
  end.
Proof.
  destruct examples.taken as [[[r|err] n1] m1] eqn:T; [|vm_compute in T; discriminate T].
  destruct (run_lock_ops "forge:" examples.others examples.env n1 m1) as [[[outs|err] n2] m2] eqn:Ops.
  - assert (V : n2 = 9%nat /\ rel_token r <> "an old token" /\
      map (fun o => match o.2 with Some r => is_ok r | None => true end) outs = [false; true; true; false]).
    { vm_compute in T. injection T as <- <- <-. vm_compute in Ops. injection Ops as <- <- _. vm_compute. by split_and!. }
    destruct V as (V1 & V2 & V3). split; [exact V3|].
    refine (proj1 (the_lock_excludes "forge:" examples.env "job" (20 * Second) 0 ∅ r n1 m1 examples.others outs n2 m2
      _ _ _ T Ops _ _)).
    + intros i j L. cbn. unfold Second. lia.
    + intros i. cbn. unfold Second. lia.
    + reflexivity.
    + rewrite V1. vm_compute. discriminate.
    + intros g Hg _. unfold examples.others in Hg.
      repeat (apply elem_of_cons in Hg as [Hg|Hg]; [first [discriminate Hg|injection Hg as ->; exact (fun X => V2 (eq_sym X))]|]).
      by apply elem_of_nil in Hg.
  - vm_compute in T. injection T as <- <- <-. vm_compute in Ops. discriminate Ops.
Defined.

(** The second request gets the response of the first completion. *)
Lemma requests_take_effect_once_witness :
  match examples.begun with
  | (Ok b, n1, rows1) =>
    match run_idem_ops (examples.meanwhile (idem_ID (br_Record b))) examples.env n1 rows1 with
    | (Ok outs, n2, rows2) =>
      match Begin 1 "o" "pay" "k1" "hash" Hour examples.env n2 rows2 with
      | (Ok b', _, _) => b' = mkBeginResult false false (mkIdemRecord (idem_ID (br_Record b)) "hash" "COMPLETED" 201 "paid"
                                                (idem_ExpiresAt (br_Record b)))
      | _ => False
      end
    | _ => False
    end
  | _ => False
  end.
Proof.
  destruct examples.begun as [[[b|err] n1] rows1] eqn:B; [|vm_compute in B; discriminate B].
  assert (Vb : br_Created b = true /\ idem_ID (br_Record b) = "1") by (vm_compute in B; injection B as <- _ _; by split).
  destruct Vb as [Cr Id].
  destruct (run_idem_ops _ examples.env n1 rows1) as [[[outs|err] n2] rows2] eqn:Ops.
  2: { rewrite Id in Ops. vm_compute in B. injection B as <- <- <-. vm_compute in Ops. discriminate Ops. }
  destruct (Begin 1 "o" "pay" "k1" "hash" Hour examples.env n2 rows2) as [[[b'|err] n3] rows3] eqn:B'.
  - destruct (requests_take_effect_once examples.env "o" "pay" "k1" "hash" Hour 1 O [] b n1 rows1
      (examples.meanwhile (idem_ID (br_Record b))) outs n2 rows2 1 "hash" Hour b' n3 rows3) as [R _];
      [intros i j L; cbn; unfold Second; lia|split; constructor|exact B|exact Cr|exact Ops| |exact B'| |].
    + intros X. unfold examples.meanwhile in X.
      repeat (apply elem_of_cons in X as [X|X]; [discriminate X|]). by apply elem_of_nil in X.
    + vm_compute in B. injection B as <- <- <-. vm_compute in Ops. injection Ops as _ <- <-. vm_compute in B'.
      injection B' as _ <- _. vm_compute. discriminate.
    + rewrite R. vm_compute in B. injection B as <- <- <-. vm_compute in Ops. injection Ops as <- _ _. reflexivity.
  - vm_compute in B. injection B as <- <- <-. vm_compute in Ops. injection Ops as _ <- <-. vm_compute in B'. discriminate B'.
Defined.
