(* ===== verification/Oversight.v ===== *)
(** * Oversight of access

    Access reviews, in which a reviewer decides on every entitlement of an
    organization ([internal/app/identity/access_reviews.go] with
    [internal/adapters/repository/access_reviews.go]), and emergency access,
    privileges granted for an hour at most ([emergency_access.go] of the same
    packages; the rules of a request are in [Identity]). *)

From S2P Require Import Prelude GoString Json Database Identity GrantPolicy IdentityStore Roles.

Definition ErrInvalidAccessReview : error := Sentinel "identity.ErrInvalidAccessReview".

(** ** Tables *)

Definition AccessReviewOpen := "OPEN".
Definition AccessReviewCompleted := "COMPLETED".
Definition AccessReviewApprove := "APPROVE".
Definition AccessReviewRevoke := "REVOKE".
Definition AccessReviewException := "EXCEPTION".

(** [ReviewerName] is the reviewer's login name, read with the row. *)
Record AccessReview := mkReview {
  ar_ID : string;
  ar_OrganizationID : string;
  ar_ReviewerID : string;
  ar_ReviewerName : string;
  ar_Status : string;
  ar_DueAt : Time;
  ar_CreatedBy : string;
  ar_CreatedAt : Time;
  ar_CompletedAt : option Time
}.
#[export] Instance AccessReview_eta : Eta AccessReview := fun r =>
  mkReview (ar_ID r) (ar_OrganizationID r) (ar_ReviewerID r) (ar_ReviewerName r) (ar_Status r) (ar_DueAt r)
    (ar_CreatedBy r) (ar_CreatedAt r) (ar_CompletedAt r).

Record AccessReviewItem := mkReviewItem {
  ai_ID : string;
  ai_ReviewID : string;
  ai_OrganizationID : string;
  ai_UserID : string;
  ai_LoginName : string;
  ai_RoleKey : string;
  ai_Decision : string;
  ai_Reason : string;
  ai_DecidedBy : string;
  ai_DecidedAt : option Time;
  ai_CreatedAt : Time
}.
#[export] Instance AccessReviewItem_eta : Eta AccessReviewItem := fun i =>
  mkReviewItem (ai_ID i) (ai_ReviewID i) (ai_OrganizationID i) (ai_UserID i) (ai_LoginName i) (ai_RoleKey i)
    (ai_Decision i) (ai_Reason i) (ai_DecidedBy i) (ai_DecidedAt i) (ai_CreatedAt i).

(** The row of a grant: the keys as JSON, the target null when it is empty. *)
Record EmergencyRow := mkEmergencyRow { er_grant : EmergencyAccessGrant; er_keys_json : string }.
#[export] Instance EmergencyRow_eta : Eta EmergencyRow := fun r => mkEmergencyRow (er_grant r) (er_keys_json r).

(** The rows of [access_reviews] have no name of the reviewer: it is left empty
    there. *)
Record Tables := mkTables {
  ov_identity : IdentityStore.Tables;
  ov_reviews : list AccessReview;
  ov_items : list AccessReviewItem;
  ov_emergency : list EmergencyRow
}.
#[export] Instance Tables_eta : Eta Tables := fun t =>
  mkTables (ov_identity t) (ov_reviews t) (ov_items t) (ov_emergency t).

Notation M := (Database.M Tables).

Definition in_identity {A} (m : Database.M IdentityStore.Tables A) : M A :=
  zoom ov_identity (fun i t => t <| ov_identity := i |>) m.

(** ** Access reviews: the repository *)

Definition review_of (org id : string) (r : AccessReview) : bool := (ar_OrganizationID r =s org) && (ar_ID r =s id).

(** [JOIN users u ON u.id=ar.reviewer_id]. *)
Definition with_name (users : list userRow) (r : AccessReview) : list AccessReview :=
  map (fun u => r <| ar_ReviewerName := user_LoginName (row_User u) |>) (select (fun u => uid u =s ar_ReviewerID r) users).
Definition joined_reviews (p : AccessReview -> bool) (t : Tables) : list AccessReview :=
  flat_map (with_name (users (ov_identity t))) (select p (ov_reviews t)).

Definition AccessReviewByID (org id : string) : M AccessReview :=
  queryR (fun t => select_row (fun _ => true) (joined_reviews (review_of org id) t)).

Definition repo_ListAccessReviews (org : string) (limit : Z) : M (list AccessReview) :=
  let limit := if (limit <=? 0) || (200 <? limit) then 200 else limit in
  query (fun t => take (Z.to_nat limit) (order_by (fun x y => ar_CreatedAt y <=? ar_CreatedAt x)
    (joined_reviews (fun r => ar_OrganizationID r =s org) t))).

Definition item_le (x y : AccessReviewItem) : bool :=
  if ai_LoginName x =s ai_LoginName y then str_le (ai_RoleKey x) (ai_RoleKey y) else str_le (ai_LoginName x) (ai_LoginName y).

Definition repo_ListAccessReviewItems (org review : string) : M (list AccessReviewItem) :=
  query (fun t => order_by item_le (select (fun i => (ai_OrganizationID i =s org) && (ai_ReviewID i =s review)) (ov_items t))).

(** [UNION] of the roles of the active users, direct, through active groups and
    through the grants in force, [ORDER BY login_name,role_key]. *)
Definition entitlement : Type := string * string * string.
Definition entitlement_le (x y : entitlement) : bool :=
  if x.1.2 =s y.1.2 then str_le x.2 y.2 else str_le x.1.2 y.1.2.
Definition entitlements (org : string) (from until : Time) (t : IdentityStore.Tables) : list entitlement :=
  order_by entitlement_le (remove_dups (flat_map (fun u =>
    map (fun r => (uid u, user_LoginName (row_User u), rl_role_key r))
      (select (fun r => holds every_group (uid u) from until t (rl_id r)) (roles t)))
    (select (fun u => (uorg u =s org) && (ustatus u =s "ACTIVE")) (users t)))).

Definition insert_review (r : AccessReview) (t : Tables) : result (unit * Tables) :=
  if existsb (fun x => ar_ID x =s ar_ID r) (ov_reviews t) then Err ErrDuplicate
  else Ok (tt, t <| ov_reviews := ov_reviews t ++ [r <| ar_ReviewerName := "" |>] |>).

Definition insert_item (i : AccessReviewItem) (t : Tables) : result (unit * Tables) :=
  if existsb (fun x => (ai_ID x =s ai_ID i) ||
       ((ai_ReviewID x =s ai_ReviewID i) && (ai_UserID x =s ai_UserID i) && (ai_RoleKey x =s ai_RoleKey i))) (ov_items t)
  then Err ErrDuplicate
  else Ok (tt, t <| ov_items := ov_items t ++ [i] |>).

Definition snapshot_item (review : AccessReview) (x : entitlement) : M unit :=
  id ← NewString;
  stmt (insert_item (mkReviewItem id (ar_ID review) (ar_OrganizationID review) x.1.1 x.1.2 x.2 "PENDING" "" "" None
                       (ar_CreatedAt review))).

Definition repo_CreateAccessReview (review : AccessReview) : M AccessReview :=
  id ← NewString;
  let review := review <| ar_ID := id |> <| ar_CreatedAt := UTC (ar_CreatedAt review) |> in
  _ ← WithTx (
    _ ← stmt (insert_review (review <| ar_DueAt := UTC (ar_DueAt review) |>));
    at_ ← now;
    rows ← query (fun t => entitlements (ar_OrganizationID review) (UTC at_) (UTC at_) (ov_identity t));
    forM rows (snapshot_item review));
  AccessReviewByID (ar_OrganizationID review) (ar_ID review).

Definition pending_item (org review : string) (i : AccessReviewItem) : bool :=
  (ai_OrganizationID i =s org) && (ai_ReviewID i =s review) && (ai_Decision i =s "PENDING").
Definition decide_item (decision reason reviewer : string) (at_ : Time) (i : AccessReviewItem) : AccessReviewItem :=
  i <| ai_Decision := decision |> <| ai_Reason := reason |> <| ai_DecidedBy := reviewer |> <| ai_DecidedAt := Some at_ |>.
Definition complete_review (at_ : Time) (r : AccessReview) : AccessReview :=
  r <| ar_Status := AccessReviewCompleted |> <| ar_CompletedAt := Some at_ |>.

Definition repo_DecideAccessReviewItem (org review item reviewer decision reason : string) : M unit :=
  WithTx (
    row ← queryR (fun t => select_row (review_of org review) (ov_reviews t));
    _ ← guard_not ((ar_Status row <>s AccessReviewOpen) || (ar_ReviewerID row <>s reviewer)) ErrNoRows;
    at_ ← now;
    let here i := pending_item org review i && (ai_ID i =s item) in
    count ← stmt (fun t => Ok (count_if here (ov_items t),
      t <| ov_items := update_where here (decide_item decision reason reviewer (UTC at_)) (ov_items t) |>));
    _ ← guard_not (count =? 0) ErrNoRows;
    pending ← query (fun t => count_if (pending_item org review) (ov_items t));
    if pending =? 0 then
      at_ ← now;
      exec (fun t => t <| ov_reviews := update_where (review_of org review) (complete_review (UTC at_)) (ov_reviews t) |>)
    else mret tt).

(** ** Access reviews: the service *)

Definition interactive (actor : Principal) : M unit :=
  guard_not ((p_UserID actor =s "") || (p_OrganizationID actor =s "")) ErrInteractiveSessionRequired.

(** The due date: in a day at the earliest, in ninety days at the latest. *)
Definition check_due (due : Time) : M unit :=
  first ← now;
  if Before due (timeAdd (UTC first) (24 * Hour)) then fail ErrInvalidAccessReview
  else
    second ← now;
    guard_not (After due (timeAdd (UTC second) (90 * 24 * Hour))) ErrInvalidAccessReview.

Definition CreateAccessReview (actor : Principal) (reviewer : string) (dueAt : Time) : M AccessReview :=
  _ ← interactive actor;
  _ ← guard_not (negb (HasRole actor ["system_admin"; "security_admin"; "auditor"]) ||
                 (p_UserID actor =s TrimSpace reviewer)) ErrGrantCeiling;
  _ ← RequireRecentMFA actor;
  let reviewer := TrimSpace reviewer in
  let dueAt := UTC dueAt in
  _ ← guard_not (reviewer =s "") ErrInvalidAccessReview;
  _ ← check_due dueAt;
  user ← in_identity (UserByID reviewer);
  _ ← guard_not ((user_OrganizationID user <>s p_OrganizationID actor) || (ToUpper (user_Status user) <>s "ACTIVE"))
        ErrInvalidAccessReview;
  at_ ← now;
  repo_CreateAccessReview (mkReview "" (p_OrganizationID actor) reviewer "" AccessReviewOpen dueAt (p_UserID actor)
                             (UTC at_) None).

Definition ListAccessReviews (actor : Principal) : M (list AccessReview) :=
  _ ← interactive actor;
  repo_ListAccessReviews (p_OrganizationID actor) 200.

Definition ListAccessReviewItems (actor : Principal) (review : string) : M (list AccessReviewItem) :=
  _ ← interactive actor;
  _ ← guard_not (TrimSpace review =s "") ErrInvalidAccessReview;
  row ← AccessReviewByID (p_OrganizationID actor) review;
  _ ← guard_not ((ar_ReviewerID row <>s p_UserID actor) && negb (HasRole actor ["system_admin"; "security_admin"; "auditor"]))
        ErrGrantCeiling;
  repo_ListAccessReviewItems (p_OrganizationID actor) review.

Definition decision_refused (review item decision reason : string) : bool :=
  (review =s "") || (item =s "") ||
  ((decision <>s AccessReviewApprove) && (decision <>s AccessReviewRevoke) && (decision <>s AccessReviewException)) ||
  (((decision =s AccessReviewRevoke) || (decision =s AccessReviewException)) && (slen reason <? 8)) ||
  (500 <? slen reason).

Definition DecideAccessReviewItem (actor : Principal) (review item decision reason : string) : M unit :=
  _ ← interactive actor;
  _ ← RequireRecentMFA actor;
  let decision := ToUpper (TrimSpace decision) in
  let reason := TrimSpace reason in
  _ ← guard_not (decision_refused review item decision reason) ErrInvalidAccessReview;
  repo_DecideAccessReviewItem (p_OrganizationID actor) review item (p_UserID actor) decision reason.

(** ** Emergency access: the repository *)

(** Primary key [id], unique key [approval_id], and the check that a grant
    expires after it was requested; the other foreign keys are left out. *)
Definition insert_emergency (r : EmergencyRow) (t : Tables) : result (unit * Tables) :=
  let g := er_grant r in
  if existsb (fun x => (eg_ID (er_grant x) =s eg_ID g) || (eg_ApprovalID (er_grant x) =s eg_ApprovalID g)) (ov_emergency t)
  then Err ErrDuplicate
  else if negb (eg_RequestedAt g <? eg_ExpiresAt g) then Err (Sentinel "driver.check constraint")
  else Ok (tt, t <| ov_emergency := ov_emergency t ++ [r] |>).

Definition repo_CreateEmergencyAccess (grant : EmergencyAccessGrant) : M EmergencyAccessGrant :=
  let keys := marshal_strings (eg_PrivilegeKeys grant) in
  id ← NewString;
  at_ ← now;
  let grant := grant <| eg_ID := id |> <| eg_CreatedAt := UTC at_ |> in
  _ ← stmt (insert_emergency (mkEmergencyRow grant keys));
  mret grant.

Definition scan_emergency (r : EmergencyRow) : result EmergencyAccessGrant :=
  match unmarshal_strings (er_keys_json r) with
  | Some keys => Ok ((er_grant r) <| eg_PrivilegeKeys := keys |>)
  | None => Err (Errorf "decode emergency access privileges: %w" [])
  end.

Definition repo_ListEmergencyAccess (org : string) (limit : Z) : M (list EmergencyAccessGrant) :=
  let limit := if (limit <=? 0) || (500 <? limit) then 200 else limit in
  rows ← query (fun t => take (Z.to_nat limit)
    (order_by (fun x y => eg_CreatedAt (er_grant y) <=? eg_CreatedAt (er_grant x))
       (select (fun r => eg_OrganizationID (er_grant r) =s org) (ov_emergency t))));
  lift (result_mapM scan_emergency rows).

Definition revocable (org grant : string) (r : EmergencyRow) : bool :=
  (eg_ID (er_grant r) =s grant) && (eg_OrganizationID (er_grant r) =s org) &&
  match eg_RevokedAt (er_grant r) with None => true | Some _ => false end.
Definition revoke_row (at_ : Time) (actor reason : string) (r : EmergencyRow) : EmergencyRow :=
  r <| er_grant := (er_grant r) <| eg_RevokedAt := Some at_ |> <| eg_RevokedBy := actor |> <| eg_RevokeReason := reason |> |>.

Definition repo_RevokeEmergencyAccess (org grant actor reason : string) : M unit :=
  at_ ← now;
  count ← stmt (fun t => Ok (count_if (revocable org grant) (ov_emergency t),
    t <| ov_emergency := update_where (revocable org grant) (revoke_row (UTC at_) actor reason) (ov_emergency t) |>));
  guard_not (count =? 0) ErrNoRows.

(** ** Emergency access: the service *)

Definition CreateEmergencyAccess (actor : Principal) (r : EmergencyAccessRequest) : M EmergencyAccessGrant :=
  at_ ← now;
  _ ← lift (Validate r actor (UTC at_));
  repo_CreateEmergencyAccess (mkEmergencyGrant "" (er_OrganizationID r) (er_RequesterID r) (er_TargetUserID r) (er_Scope r)
    (er_ApprovalID r) (er_Reason r) (er_PrivilegeKeys r) (UTC (er_RequestedAt r)) (UTC (er_ExpiresAt r)) None "" "" zeroTime).

Definition ListEmergencyAccess (actor : Principal) : M (list EmergencyAccessGrant) :=
  _ ← guard_not ((p_Type actor <>s "USER") || (p_UserID actor =s "") || (p_OrganizationID actor =s ""))
        ErrInteractiveSessionRequired;
  _ ← guard_not (negb (HasRole actor ["system_admin"; "security_admin"; "auditor"])) ErrGrantCeiling;
  repo_ListEmergencyAccess (p_OrganizationID actor) 200.

Definition RevokeEmergencyAccess (actor : Principal) (grant reason : string) : M unit :=
  _ ← authorizeGrantActor actor (p_OrganizationID actor);
  _ ← guard_not (negb (HasRole actor ["system_admin"; "security_admin"])) ErrGrantCeiling;
  _ ← guard_not ((TrimSpace grant =s "") || (slen (TrimSpace reason) <? 8) || (500 <? slen (TrimSpace reason)))
        ErrInvalidEmergencyAccess;
  repo_RevokeEmergencyAccess (p_OrganizationID actor) grant (p_UserID actor) (TrimSpace reason).

(** ** Runs *)

(** A request leaves the tables or its operation succeeds. *)
Lemma request_cases {A} (m : M A) e n t r n' t' : in_tx e = false \/ is_ok r = true -> WithTx m e n t = (r, n', t') ->
  t' = t \/ exists e' n0 k a, m e' n0 t = (Ok a, k, t').
Proof.
  intros T E. destruct r as [a|err]; [|destruct T as [T|T]; [left; by eapply WithTx_atomic|done]].
  right. apply WithTx_run in E as (e' & n0 & k & _ & E). by exists e', n0, k, a.
Qed.

Lemma guard_runs {S} b err e n (s : S) u n' s' : guard_not b err e n s = (Ok u, n', s') -> b = false /\ s' = s.
Proof. intros E. apply guard_ok in E as (G & _ & X). by split. Qed.

Lemma count_none {A} (p : A -> bool) l : count_if p l = 0 <-> forall x, x ∈ l -> p x = false.
Proof.
  split.
  - intros C x Hx. destruct (p x) eqn:P; [|done]. pose proof (count_if_pos p l x Hx P). lia.
  - induction l as [|y l IH]; intros F; [done|]. rewrite count_if_cons, (F y) by (by left).
    rewrite IH; [done|]. intros x Hx. apply F. by right.
Qed.

Lemma Ok_pair {A B} (a a' : A) (b b' : B) : (Ok (a, b) : result (A * B)) = Ok (a', b') -> a = a' /\ b = b'.
Proof. by intros [= -> ->]. Qed.

Definition item_here (org review item : string) (i : AccessReviewItem) : bool :=
  pending_item org review i && (ai_ID i =s item).

(** What a decision changes. *)
Record decided (org review item reviewer decision reason : string) (t t' : Tables) : Prop := {
  de_row : exists row, row ∈ ov_reviews t /\ review_of org review row = true /\ ar_Status row = AccessReviewOpen /\
    ar_ReviewerID row = reviewer;
  de_item : exists i, i ∈ ov_items t /\ item_here org review item i = true;
  de_items : exists at_, ov_items t' =
    update_where (item_here org review item) (decide_item decision reason reviewer at_) (ov_items t);
  de_reviews : ((exists i, i ∈ ov_items t' /\ pending_item org review i = true) /\ ov_reviews t' = ov_reviews t) \/
    ((forall i, i ∈ ov_items t' -> pending_item org review i = false) /\
     exists at_, ov_reviews t' = update_where (review_of org review) (complete_review at_) (ov_reviews t));
  de_emergency : ov_emergency t' = ov_emergency t;
  de_identity : ov_identity t' = ov_identity t
}.

Lemma some_of_count {A} (p : A -> bool) l : count_if p l <> 0 -> exists x, x ∈ l /\ p x = true.
Proof.
  intros C. destruct (existsb p l) eqn:X.
  - apply existsb_exists in X as (x & Hx & P). exists x. split; [by apply list_elem_of_In|done].
  - rewrite existsb_false in X. destruct C. by apply count_none.
Qed.

Lemma decide_runs org review item reviewer decision reason e n t u n' t' :
  repo_DecideAccessReviewItem org review item reviewer decision reason e n t = (Ok u, n', t') ->
  decided org review item reviewer decision reason t t'.
Proof.
  intros E. unfold repo_DecideAccessReviewItem in E. apply WithTx_run in E as (e' & n0 & k & _ & E).
  apply bind_ok in E as (row & n1 & t1 & E1 & E). apply queryR_ok in E1 as (_ & _ & Er & <-).
  apply select_row_ok in Er as [Hrow Hk]. apply bind_ok in E as (u1 & n2 & t2 & E2 & E).
  apply guard_runs in E2 as [G ->]. apply orb_false_iff in G as [G1 G2].
  apply negb_false_iff, String.eqb_eq in G1, G2.
  apply bind_ok in E as (at_ & n3 & t3 & E3 & E). apply now_ok in E3 as (_ & _ & <-).
  apply bind_ok in E as (count & n4 & t4 & E4 & E). apply stmt_ok in E4 as (_ & _ & E4).
  apply Ok_pair in E4 as [E4 T4]. fold (item_here org review item) in T4.
  change (fun i => pending_item org review i && (ai_ID i =s item)) with (item_here org review item) in E4, T4.
  apply bind_ok in E as (u2 & n5 & t5 & E5 & E). apply guard_runs in E5 as [G ->]. apply Z.eqb_neq in G.
  rewrite <- E4 in G. apply some_of_count in G.
  apply bind_ok in E as (pending & n6 & t6 & E6 & E). apply query_ok in E6 as (_ & _ & <- & <-).
  assert (I4 : ov_items t4 = update_where (item_here org review item) (decide_item decision reason reviewer (UTC at_)) (ov_items t))
    by (by rewrite <- T4).
  destruct (count_if _ (ov_items t4) =? 0) eqn:C.
  - apply Z.eqb_eq in C. rewrite count_none in C.
    apply bind_ok in E as (at2 & n7 & t7 & E7 & E). apply now_ok in E7 as (_ & _ & <-).
    apply exec_ok in E as (_ & _ & ->).
    split; [by exists row|done|by eexists|right|by rewrite <- T4..].
    split; [exact C|]. exists (UTC at2). by rewrite <- T4.
  - apply Z.eqb_neq, some_of_count in C. apply ret_ok in E as (_ & _ & <-).
    split; [by exists row|done|by eexists|left|by rewrite <- T4..]. split; [exact C|by rewrite <- T4].
Qed.

(** What the snapshot of a new review adds: a pending item for each entitlement,
    under identifiers and keys that were free. *)
Definition item_key (i : AccessReviewItem) : string * string * string := (ai_ReviewID i, ai_UserID i, ai_RoleKey i).
Definition entitlement_of (i : AccessReviewItem) : entitlement := (ai_UserID i, ai_LoginName i, ai_RoleKey i).
Record item_of (r : AccessReview) (i : AccessReviewItem) : Prop := {
  io_review : ai_ReviewID i = ar_ID r;
  io_org : ai_OrganizationID i = ar_OrganizationID r;
  io_pending : ai_Decision i = "PENDING"
}.
Definition keyed (l : list AccessReviewItem) : Prop := NoDup (map ai_ID l) /\ NoDup (map item_key l).

Lemma insert_item_keyed i t u t' : insert_item i t = Ok (u, t') ->
  ov_items t' = (ov_items t ++ [i])%list /\ ov_reviews t' = ov_reviews t /\ ov_emergency t' = ov_emergency t /\
  ov_identity t' = ov_identity t /\ (keyed (ov_items t) -> keyed (ov_items t')).
Proof.
  unfold insert_item. destruct (existsb _ _) eqn:X; [done|]. rewrite existsb_false in X.
  intros Y. apply Ok_pair in Y as [_ <-]. split_and!; [done..|]. cbn. intros [N1 N2].
  split; rewrite map_app; apply NoDup_app; (split; [done|split; [|apply NoDup_singleton]]);
    intros k Hk Hi; apply list_elem_of_singleton in Hi; subst k;
    apply list_elem_of_In, in_map_iff in Hk as (x & Ex & Hx); apply list_elem_of_In, X in Hx;
    apply orb_false_iff in Hx as [X1 X2].
  - by rewrite Ex, seqb_refl in X1.
  - injection Ex as E1 E2 E3. by rewrite E1, E2, E3, !seqb_refl in X2.
Qed.

Lemma snapshot_runs r xs e n t u n' t' : forM xs (snapshot_item r) e n t = (Ok u, n', t') ->
  exists new, ov_items t' = (ov_items t ++ new)%list /\ map entitlement_of new = xs /\ Forall (item_of r) new /\
    ov_reviews t' = ov_reviews t /\ ov_emergency t' = ov_emergency t /\ ov_identity t' = ov_identity t /\
    (keyed (ov_items t) -> keyed (ov_items t')).
Proof.
  revert n t. induction xs as [|[[user login] role] xs IH]; intros n t E; cbn [forM] in E.
  - apply ret_ok in E as (_ & _ & <-). exists []. rewrite app_nil_r. split_and!; done || constructor.
  - apply bind_ok in E as (u1 & n1 & t1 & E1 & E). unfold snapshot_item in E1.
    apply bind_ok in E1 as (id & n2 & t2 & E2 & E1). apply NewString_ok in E2 as (_ & _ & <-).
    apply stmt_ok in E1 as (_ & _ & E1). apply insert_item_keyed in E1 as (I1 & R1 & M1 & D1 & K1).
    apply IH in E as (new & I2 & X & F & R2 & M2 & D2 & K2). cbn in I1.
    exists (mkReviewItem id (ar_ID r) (ar_OrganizationID r) user login role "PENDING" "" "" None (ar_CreatedAt r) :: new).
    split_and!; [by rewrite I2, I1, <- app_assoc|cbn; by rewrite X|by constructor|congruence..|auto].
Qed.

(** What the creation of a review changes. *)
Record created (id : string) (review : AccessReview) (at_ : Time) (t t' : Tables) : Prop := {
  cr_run : exists r new, ar_ID r = id /\ ov_reviews t' = (ov_reviews t ++ [r])%list /\ ov_items t' = (ov_items t ++ new)%list /\
    ar_OrganizationID r = ar_OrganizationID review /\ ar_ReviewerID r = ar_ReviewerID review /\
    ar_CreatedBy r = ar_CreatedBy review /\ ar_Status r = ar_Status review /\ ar_CompletedAt r = ar_CompletedAt review /\
    ar_DueAt r = ar_DueAt review /\
    ar_ID r ∉ map ar_ID (ov_reviews t) /\ Forall (item_of r) new /\
    map entitlement_of new = entitlements (ar_OrganizationID review) at_ at_ (ov_identity t);
  cr_keyed : keyed (ov_items t) -> keyed (ov_items t');
  cr_emergency : ov_emergency t' = ov_emergency t;
  cr_identity : ov_identity t' = ov_identity t
}.

Lemma joined_review_id org id t r : r ∈ joined_reviews (review_of org id) t -> ar_ID r = id.
Proof.
  unfold joined_reviews. intros Hr. apply list_elem_of_In, in_flat_map in Hr as (x & Hx & Hr).
  apply list_elem_of_In, elem_of_select in Hx as [_ Hx]. unfold review_of in Hx. breflect.
  unfold with_name in Hr. apply in_map_iff in Hr as (u & <- & _). done.
Qed.

Lemma create_runs review e n t a n' t' : repo_CreateAccessReview review e n t = (Ok a, n', t') ->
  exists m, created (ar_ID a) review (clock e m) t t'.
Proof.
  intros E. unfold repo_CreateAccessReview in E.
  apply bind_ok in E as (id & n1 & t1 & E1 & E). apply NewString_ok in E1 as (_ & _ & <-).
  apply bind_ok in E as (u & n2 & t2 & E2 & E). apply queryR_ok in E as (_ & _ & Ea & <-).
  apply select_row_ok in Ea as [Ea _]. apply joined_review_id in Ea.
  apply WithTx_run in E2 as (e' & n0 & k & Ec & E).
  apply bind_ok in E as (u1 & n3 & t3 & E3 & E). apply stmt_ok in E3 as (_ & _ & E3).
  unfold insert_review in E3. destruct (existsb _ _) eqn:X; [done|]. apply Ok_pair in E3 as [_ <-].
  rewrite existsb_false in X.
  apply bind_ok in E as (at_ & n4 & t4 & E4 & E). apply now_ok in E4 as (<- & _ & <-).
  apply bind_ok in E as (rows & n5 & t5 & E5 & E). apply query_ok in E5 as (_ & _ & <- & <-).
  apply snapshot_runs in E as (new & I & Y & F & R & G & D & K). cbn in *.
  exists n3. rewrite <- Ec. split; [|done..]. do 2 eexists. refine (conj _ (conj R (conj I _))); [by symmetry|].
  split_and!; [done..| |eapply Forall_impl; [exact F|by intros i []]|exact Y].
  intros Hk. apply list_elem_of_In, in_map_iff in Hk as (x & Ex & Hx). apply list_elem_of_In, X in Hx.
  cbn in Hx. by rewrite Ex, seqb_refl in Hx.
Qed.

(** ** Operations *)

Inductive operation : forall {A}, M A -> Prop :=
| OpCreateReview actor reviewer due : operation (CreateAccessReview actor reviewer due)
| OpListReviews actor : operation (ListAccessReviews actor)
| OpListItems actor review : operation (ListAccessReviewItems actor review)
| OpDecide actor review item decision reason : operation (DecideAccessReviewItem actor review item decision reason)
| OpCreateEmergency actor r : operation (CreateEmergencyAccess actor r)
| OpListEmergency actor : operation (ListEmergencyAccess actor)
| OpRevokeEmergency actor grant reason : operation (RevokeEmergencyAccess actor grant reason).

(** A request, in a transaction of its own or in one of its caller that goes on
    when it succeeds, or any change of the rest of the database. *)
Inductive step (t t' : Tables) : Prop :=
| step_request {A} (m : M A) e n r n' : operation m -> in_tx e = false \/ is_ok r = true ->
    WithTx m e n t = (r, n', t') -> step t t'
| step_identity i : t' = t <| ov_identity := i |> -> step t t'.
Definition history : Tables -> Tables -> Prop := rtc step.

(** What a request can change. *)
Inductive changed (t t' : Tables) : Prop :=
| same : t' = t -> changed t t'
| identity_changed : ov_reviews t' = ov_reviews t -> ov_items t' = ov_items t -> ov_emergency t' = ov_emergency t -> changed t t'
| review_created id review at_ : ar_ReviewerID review <> ar_CreatedBy review -> ar_Status review = AccessReviewOpen ->
    ar_CompletedAt review = None -> created id review at_ t t' -> changed t t'
| item_decided org review item reviewer decision reason : decision_refused review item decision reason = false ->
    decided org review item reviewer decision reason t t' -> changed t t'
| emergency_created g keys at_ actor request : Validate request actor at_ = Ok tt ->
    eg_OrganizationID g = er_OrganizationID request -> eg_RequesterID g = er_RequesterID request ->
    eg_TargetUserID g = er_TargetUserID request -> eg_ApprovalID g = er_ApprovalID request ->
    eg_PrivilegeKeys g = er_PrivilegeKeys request -> eg_RequestedAt g = er_RequestedAt request ->
    eg_ExpiresAt g = er_ExpiresAt request -> eg_RevokedAt g = None -> keys = marshal_strings (eg_PrivilegeKeys g) ->
    insert_emergency (mkEmergencyRow g keys) t = Ok (tt, t') -> changed t t'
| emergency_revoked org grant at_ actor reason :
    t' = t <| ov_emergency := update_where (revocable org grant) (revoke_row at_ actor reason) (ov_emergency t) |> ->
    changed t t'.

Lemma CreateAccessReview_changes actor reviewer due e n t a n' t' :
  CreateAccessReview actor reviewer due e n t = (Ok a, n', t') ->
  exists review m, created (ar_ID a) review (clock e m) t t' /\ ar_OrganizationID review = p_OrganizationID actor /\ ar_ReviewerID review <> ar_CreatedBy review /\
    ar_Status review = AccessReviewOpen /\ ar_CompletedAt review = None.
Proof.
  intros E. unfold CreateAccessReview in E.
  apply bind_ok in E as (u1 & n1 & t1 & E1 & E). apply guard_runs in E1 as [_ ->].
  apply bind_ok in E as (u2 & n2 & t2 & E2 & E). apply guard_runs in E2 as [G ->].
  apply orb_false_iff in G as [_ G]. apply String.eqb_neq in G.
  apply bind_ok in E as (u3 & n3 & t3 & E3 & E).
  apply reads_ok in E3 as ->; [|apply keeps_reads; intros; unfold RequireRecentMFA; keeps_walk].
  apply bind_ok in E as (u4 & n4 & t4 & E4 & E). apply guard_runs in E4 as [_ ->].
  apply bind_ok in E as (u5 & n5 & t5 & E5 & E).
  apply reads_ok in E5 as ->; [|apply keeps_reads; intros; unfold check_due; keeps_walk].
  apply bind_ok in E as (user & n6 & t6 & E6 & E).
  apply reads_ok in E6 as ->; [|apply zoom_view; [by intros []|apply reads_UserByID]].
  apply bind_ok in E as (u7 & n7 & t7 & E7 & E). apply guard_runs in E7 as [_ ->].
  apply bind_ok in E as (at_ & n8 & t8 & E8 & E). apply now_ok in E8 as (_ & _ & <-).
  apply create_runs in E as [m E]. do 2 eexists. split; [exact E|]. cbn. by split_and!.
Qed.

Lemma DecideAccessReviewItem_changes actor review item decision reason e n t a n' t' :
  DecideAccessReviewItem actor review item decision reason e n t = (Ok a, n', t') ->
  exists d r, decision_refused review item d r = false /\
    decided (p_OrganizationID actor) review item (p_UserID actor) d r t t'.
Proof.
  intros E. unfold DecideAccessReviewItem in E.
  apply bind_ok in E as (u1 & n1 & t1 & E1 & E). apply guard_runs in E1 as [_ ->].
  apply bind_ok in E as (u2 & n2 & t2 & E2 & E).
  apply reads_ok in E2 as ->; [|apply keeps_reads; intros; unfold RequireRecentMFA; keeps_walk].
  apply bind_ok in E as (u3 & n3 & t3 & E3 & E). apply guard_runs in E3 as [G ->].
  apply decide_runs in E. by do 2 eexists.
Qed.

Lemma CreateEmergencyAccess_changes actor r e n t a n' t' :
  CreateEmergencyAccess actor r e n t = (Ok a, n', t') -> changed t t'.
Proof.
  intros E. unfold CreateEmergencyAccess, repo_CreateEmergencyAccess in E.
  apply bind_ok in E as (at_ & n1 & t1 & E1 & E). apply now_ok in E1 as (_ & _ & <-).
  apply bind_ok in E as ([] & n2 & t2 & E2 & E). apply lift_ok in E2 as (V & _ & <-).
  apply bind_ok in E as (id & n3 & t3 & E3 & E). apply NewString_ok in E3 as (_ & _ & <-).
  apply bind_ok in E as (at2 & n4 & t4 & E4 & E). apply now_ok in E4 as (_ & _ & <-).
  apply bind_ok in E as ([] & n5 & t5 & E5 & E). apply stmt_ok in E5 as (_ & _ & E5).
  apply ret_ok in E as (_ & _ & <-). by eapply emergency_created; [exact V|..|exact E5].
Qed.

Lemma RevokeEmergencyAccess_changes actor grant reason e n t a n' t' :
  RevokeEmergencyAccess actor grant reason e n t = (Ok a, n', t') -> changed t t'.
Proof.
  intros E. unfold RevokeEmergencyAccess, repo_RevokeEmergencyAccess in E.
  apply bind_ok in E as (u1 & n1 & t1 & E1 & E).
  apply reads_ok in E1 as ->; [|apply keeps_reads; intros; unfold authorizeGrantActor, RequireRecentMFA; keeps_walk].
  apply bind_ok in E as (u2 & n2 & t2 & E2 & E). apply guard_runs in E2 as [_ ->].
  apply bind_ok in E as (u3 & n3 & t3 & E3 & E). apply guard_runs in E3 as [_ ->].
  apply bind_ok in E as (at_ & n4 & t4 & E4 & E). apply now_ok in E4 as (_ & _ & <-).
  apply bind_ok in E as (count & n5 & t5 & E5 & E). apply stmt_ok in E5 as (_ & _ & E5).
  apply guard_runs in E as [_ ->]. apply Ok_pair in E5 as [_ <-]. by eapply emergency_revoked.
Qed.

Lemma step_changes t t' : step t t' -> changed t t'.
Proof.
  intros [A m e n r n' O T E|i ->]; [|by apply identity_changed].
  destruct (request_cases m e n t r n' t' T E) as [->|(e' & n0 & k & a & X)]; [by apply same|clear E].
  destruct O as [actor reviewer due|actor|actor review|actor review item decision reason|actor q|actor|actor grant reason].
  - apply CreateAccessReview_changes in X as (review & m' & C & _ & D & S & P). by eapply review_created.
  - apply reads_ok in X as ->; [by apply same|]. apply keeps_reads. intros. unfold ListAccessReviews, interactive, repo_ListAccessReviews. keeps_walk.
  - apply reads_ok in X as ->; [by apply same|]. apply keeps_reads. intros.
    unfold ListAccessReviewItems, interactive, AccessReviewByID, repo_ListAccessReviewItems. keeps_walk.
  - apply DecideAccessReviewItem_changes in X as (d & x & G & D). by eapply item_decided.
  - by eapply CreateEmergencyAccess_changes.
  - apply reads_ok in X as ->; [by apply same|]. apply keeps_reads. intros. unfold ListEmergencyAccess, repo_ListEmergencyAccess. keeps_walk.
  - by eapply RevokeEmergencyAccess_changes.
Qed.

(** No operation touches the tables of the identities. *)
Lemma operation_identity A (m : M A) e n t a n' t' : operation m -> m e n t = (Ok a, n', t') ->
  ov_identity t' = ov_identity t.
Proof.
  intros Op X. destruct Op as [actor reviewer due|actor|actor review|actor review item decision reason|actor q|actor|actor grant reason].
  - apply CreateAccessReview_changes in X as (review & m' & C & _). apply C.
  - apply reads_ok in X as ->; [done|]. apply keeps_reads. intros. unfold ListAccessReviews, interactive, repo_ListAccessReviews. keeps_walk.
  - apply reads_ok in X as ->; [done|]. apply keeps_reads. intros.
    unfold ListAccessReviewItems, interactive, AccessReviewByID, repo_ListAccessReviewItems. keeps_walk.
  - apply DecideAccessReviewItem_changes in X as (d & x & _ & D). apply D.
  - assert (K : keeps (fun s => ov_identity s = ov_identity t) (CreateEmergencyAccess actor q)).
    { unfold CreateEmergencyAccess, repo_CreateEmergencyAccess. keeps_walk. apply keeps_stmt. intros t1 x t2 E I.
      unfold insert_emergency in I. destruct (existsb _ _); [done|]. destruct (negb _); [done|].
      by apply Ok_pair in I as [_ <-]. }
    specialize (K e n t eq_refl). by rewrite X in K.
  - apply reads_ok in X as ->; [done|]. apply keeps_reads. intros. unfold ListEmergencyAccess, repo_ListEmergencyAccess. keeps_walk.
  - assert (K : keeps (fun s => ov_identity s = ov_identity t) (RevokeEmergencyAccess actor grant reason)).
    { unfold RevokeEmergencyAccess, repo_RevokeEmergencyAccess, authorizeGrantActor, RequireRecentMFA. keeps_walk.
      apply keeps_stmt. intros t1 x t2 E I. by apply Ok_pair in I as [_ <-]. }
    specialize (K e n t eq_refl). by rewrite X in K.
Qed.

(** ** Reviews stay sound *)

Definition decision_made (r : AccessReview) (i : AccessReviewItem) : Prop :=
  ai_Decision i ∈ [AccessReviewApprove; AccessReviewRevoke; AccessReviewException] /\
  (ai_Decision i <> AccessReviewApprove -> 8 <= slen (ai_Reason i)) /\ slen (ai_Reason i) <= 500 /\
  ai_DecidedBy i = ar_ReviewerID r /\ is_Some (ai_DecidedAt i).

Definition in_review (r : AccessReview) (i : AccessReviewItem) : Prop :=
  ai_ReviewID i = ar_ID r /\ ai_OrganizationID i = ar_OrganizationID r.

Record sound (t : Tables) : Prop := {
  so_reviews : NoDup (map ar_ID (ov_reviews t));
  so_items : keyed (ov_items t);
  so_item : forall i, i ∈ ov_items t -> exists r, r ∈ ov_reviews t /\ in_review r i /\
    (ai_Decision i = "PENDING" \/ decision_made r i);
  so_review : forall r, r ∈ ov_reviews t -> ar_ReviewerID r <> ar_CreatedBy r /\
    ((ar_Status r = AccessReviewOpen /\ ar_CompletedAt r = None /\
      ((forall i, i ∈ ov_items t -> ~ in_review r i) \/
       exists i, i ∈ ov_items t /\ in_review r i /\ ai_Decision i = "PENDING")) \/
     (ar_Status r = AccessReviewCompleted /\ is_Some (ar_CompletedAt r) /\
      (exists i, i ∈ ov_items t /\ in_review r i) /\
      forall i, i ∈ ov_items t -> in_review r i -> decision_made r i))
}.

(** The items of one table survive in the next, those decided unchanged. *)
Definition item_kept (t' : Tables) (i : AccessReviewItem) : Prop := exists i', i' ∈ ov_items t' /\
  ai_ID i' = ai_ID i /\ ai_ReviewID i' = ai_ReviewID i /\ entitlement_of i' = entitlement_of i /\
  (ai_Decision i <> "PENDING" -> i' = i).

Lemma same_review t r r' : sound t -> r ∈ ov_reviews t -> r' ∈ ov_reviews t -> ar_ID r = ar_ID r' -> r = r'.
Proof.
  intros [N _ _ _] H H' E. by eapply (NoDup_map_eq ar_ID).
Qed.

Lemma sound_created id review at_ t t' : ar_ReviewerID review <> ar_CreatedBy review ->
  ar_Status review = AccessReviewOpen -> ar_CompletedAt review = None -> created id review at_ t t' -> sound t -> sound t'.
Proof.
  intros D Op Co [(r & new & _ & R & I & Eo & Er & Eb & Es & Ec & _ & Fr & F & _) K _ _] S.
  rewrite Forall_forall in F.
  assert (Old : forall i, i ∈ ov_items t -> ai_ReviewID i <> ar_ID r).
  { intros i Hi X. destruct (so_item t S i Hi) as (r0 & Hr & [Y _] & _). apply Fr. rewrite <- X, Y.
    apply list_elem_of_In, in_map. by apply list_elem_of_In. }
  split; rewrite ?R, ?I.
  - rewrite map_app. apply NoDup_app. split; [apply (so_reviews t S)|split; [|apply NoDup_singleton]].
    intros k Hk X. by apply list_elem_of_singleton in X as ->.
  - rewrite <- I. apply K, S.
  - intros i Hi. apply elem_of_app in Hi as [Hi|Hi].
    + destruct (so_item t S i Hi) as (r0 & Hr & X). exists r0. split; [apply elem_of_app; by left|done].
    + destruct (F i Hi) as [X Y P]. exists r. split; [apply elem_of_app; right; by apply list_elem_of_singleton|].
      split; [by split|by left].
  - intros r0 Hr. apply elem_of_app in Hr as [Hr|Hr].
    + assert (New : forall i, i ∈ new -> ~ in_review r0 i).
      { intros i Hi [X _]. destruct (F i Hi) as [Y _ _]. apply Fr. rewrite <- Y, X.
        apply list_elem_of_In, in_map. by apply list_elem_of_In. }
      destruct (so_review t S r0 Hr) as [G [(A & B & C)|(A & B & (i0 & H0 & J0) & C)]]; (split; [done|]); [left|right].
      * split_and!; [done..|]. destruct C as [C|(i & Hi & C)]; [left|right].
        -- intros i Hi. apply elem_of_app in Hi as [Hi|Hi]; auto.
        -- exists i. split; [apply elem_of_app; by left|done].
      * split_and!; [done..|exists i0; split; [apply elem_of_app; by left|done]|].
        intros i Hi J. apply elem_of_app in Hi as [Hi|Hi]; [by apply C|]. by destruct (New i Hi).
    + apply list_elem_of_singleton in Hr as ->. split; [congruence|]. left. split_and!; [congruence..|].
      destruct new as [|i new].
      * left. intros i Hi [X _]. rewrite app_nil_r in Hi. by apply (Old i).
      * right. destruct (F i) as [X Y P]; [by left|]. exists i. split; [apply elem_of_app; right; by left|].
        split; [by split|done].
Qed.

Lemma decide_item_key p decision reason reviewer at_ l :
  keyed l -> keyed (update_where p (decide_item decision reason reviewer at_) l).
Proof. intros [N1 N2]. by split; rewrite map_update_where. Qed.

Lemma item_here_spec org review item i : item_here org review item i = true <->
  ai_OrganizationID i = org /\ ai_ReviewID i = review /\ ai_Decision i = "PENDING" /\ ai_ID i = item.
Proof. unfold item_here, pending_item. rewrite !andb_true_iff, !String.eqb_eq. tauto. Qed.
Lemma pending_item_spec org review i : pending_item org review i = true <->
  ai_OrganizationID i = org /\ ai_ReviewID i = review /\ ai_Decision i = "PENDING".
Proof. unfold pending_item. rewrite !andb_true_iff, !String.eqb_eq. tauto. Qed.
Lemma review_of_spec org review r : review_of org review r = true <-> ar_OrganizationID r = org /\ ar_ID r = review.
Proof. unfold review_of. by rewrite andb_true_iff, !String.eqb_eq. Qed.

Lemma decision_accepted review item d x : decision_refused review item d x = false ->
  d ∈ [AccessReviewApprove; AccessReviewRevoke; AccessReviewException] /\
  (d <> AccessReviewApprove -> 8 <= slen x) /\ slen x <= 500.
Proof.
  unfold decision_refused. intros G. repeat apply orb_false_iff in G as [G ?]. breflect.
  rewrite !elem_of_cons. destruct (String.eqb_spec d AccessReviewApprove) as [->|N1]; [by split_and!; [left|..]|].
  assert (8 <= slen x); [|split_and!; [|done..]].
  - destruct (String.eqb_spec d AccessReviewRevoke), (String.eqb_spec d AccessReviewException); cbn in *;
      done || (by apply Z.ltb_ge).
  - destruct (String.eqb_spec d AccessReviewRevoke), (String.eqb_spec d AccessReviewException); cbn in *; auto; done.
Qed.

Section decision.
Context (t : Tables) (row : AccessReview) (item decision reason : string) (at_ : Time).
Context (S : sound t) (Hrow : row ∈ ov_reviews t) (Hopen : ar_Status row = AccessReviewOpen).
Context (G : decision_refused (ar_ID row) item decision reason = false).
Let here := item_here (ar_OrganizationID row) (ar_ID row) item.
Let upd i := if here i then decide_item decision reason (ar_ReviewerID row) at_ i else i.

Lemma here_review i r : here i = true -> r ∈ ov_reviews t -> in_review r i -> r = row.
Proof.
  intros P Hr [X _]. apply item_here_spec in P as (_ & P & _). eapply same_review; [exact S|done..|congruence].
Qed.

Lemma upd_review r i : in_review r (upd i) <-> in_review r i.
Proof. unfold upd. by destruct (here i). Qed.

Lemma upd_made i r : i ∈ ov_items t -> r ∈ ov_reviews t -> in_review r i ->
  ai_Decision (upd i) = "PENDING" \/ decision_made r (upd i).
Proof.
  intros Hi Hr J. destruct (decision_accepted _ _ _ _ G) as (G1 & G2 & G3). unfold upd. destruct (here i) eqn:P.
  - rewrite (here_review i r P Hr J). right. by split_and!.
  - destruct (so_item t S i Hi) as (r1 & Hr1 & [X _] & D). destruct J as [J _].
    by rewrite (same_review t r r1 S Hr Hr1) by congruence.
Qed.

Lemma elem_of_decided i' : i' ∈ update_where here (decide_item decision reason (ar_ReviewerID row) at_) (ov_items t) <->
  exists i, i ∈ ov_items t /\ i' = upd i.
Proof. apply elem_of_update_where. Qed.

(** A review other than the one decided on keeps what it said of its items. *)
Lemma other_review_sound t' r : ov_items t' = update_where here (decide_item decision reason (ar_ReviewerID row) at_) (ov_items t) ->
  r ∈ ov_reviews t -> r <> row ->
  (ar_Status r = AccessReviewOpen /\ ar_CompletedAt r = None /\
    ((forall i, i ∈ ov_items t' -> ~ in_review r i) \/
     exists i, i ∈ ov_items t' /\ in_review r i /\ ai_Decision i = "PENDING")) \/
  (ar_Status r = AccessReviewCompleted /\ is_Some (ar_CompletedAt r) /\
    (exists i, i ∈ ov_items t' /\ in_review r i) /\
    forall i, i ∈ ov_items t' -> in_review r i -> decision_made r i).
Proof.
  intros I Hr Ne. rewrite I. setoid_rewrite elem_of_decided.
  assert (U : forall i, i ∈ ov_items t -> in_review r i -> upd i = i).
  { intros i Hi J. unfold upd. destruct (here i) eqn:P; [|done]. by destruct Ne; apply (here_review i). }
  destruct (so_review t S r Hr) as [_ [(A & B & C)|(A & B & (i0 & H0 & J0) & C)]]; [left|right]; (split; [done|split; [done|]]).
  - destruct C as [C|(i & Hi & J & D)]; [left|right].
    + intros i' (i & Hi & ->) J. apply (proj1 (upd_review _ _)) in J. by apply (C i).
    + exists i. split; [exists i; split; [done|by rewrite U]|by split].
  - split; [exists i0; split; [exists i0; split; [done|by rewrite U]|done]|].
    intros i' (i & Hi & ->) J. apply (proj1 (upd_review _ _)) in J. rewrite U by done. by apply C.
Qed.
End decision.

Lemma sound_decided org review item reviewer decision reason t t' :
  decision_refused review item decision reason = false ->
  decided org review item reviewer decision reason t t' -> sound t -> sound t'.
Proof.
  intros G [(row & Hrow & Krow & Orow & Rrow) (i0 & Hi0 & H0) [at_ I] Rv _ _] S.
  apply review_of_spec in Krow as [<- <-]. rewrite <- Rrow in I. clear reviewer Rrow.
  pose proof (fun r Hr Ne => other_review_sound t row item decision reason at_ S Hrow t' r I Hr Ne) as Others.
  assert (Items : forall i' r, i' ∈ ov_items t' -> r ∈ ov_reviews t -> in_review r i' ->
    ai_Decision i' = "PENDING" \/ decision_made r i').
  { intros i' r Hi Hr J. rewrite I in Hi. apply elem_of_decided in Hi as (i & Hi & ->). apply upd_review in J.
    by eapply upd_made. }
  assert (Home : forall i', i' ∈ ov_items t' -> exists r, r ∈ ov_reviews t /\ in_review r i').
  { intros i' Hi. rewrite I in Hi. apply elem_of_decided in Hi as (i & Hi & ->).
    destruct (so_item t S i Hi) as (r & Hr & J & _). exists r. split; [done|by apply upd_review]. }
  assert (Kt : keyed (ov_items t')) by (rewrite I; apply decide_item_key, S).
  destruct Rv as [[(i1 & Hi1 & P1) R]|[P [at2 R]]].
  - split; rewrite ?R; [apply S|done| |].
    + intros i Hi. destruct (Home i Hi) as (r & Hr & J). exists r. auto.
    + intros r Hr. split; [by apply (so_review t S)|]. destruct (decide (ar_ID r = ar_ID row)) as [E|E].
      * apply (same_review t r row S Hr Hrow) in E as ->. left. apply pending_item_spec in P1 as (Q1 & Q2 & Q3).
        destruct (so_review t S row Hrow) as [_ [(_ & B & _)|(A & _)]]; [|by rewrite Orow in A].
        split_and!; [done..|right; exists i1; split_and!; [done|by split|done]].
      * apply Others; [done|congruence].
  - assert (All : forall i, i ∈ ov_items t' -> in_review row i -> decision_made row i).
    { intros i Hi J. destruct (Items i row Hi Hrow J) as [Q|Q]; [|done]. destruct J as [J1 J2].
      specialize (P i Hi). by rewrite (proj2 (pending_item_spec _ _ i) (conj J2 (conj J1 Q))) in P. }
    set (done_at r := if review_of (ar_OrganizationID row) (ar_ID row) r then complete_review at2 r else r).
    assert (In : forall r i, in_review (done_at r) i <-> in_review r i) by (intros r i; unfold done_at; by destruct (review_of _ _ r)).
    assert (Ma : forall r i, decision_made (done_at r) i <-> decision_made r i)
      by (intros r i; unfold done_at; by destruct (review_of _ _ r)).
    split; rewrite ?R; [by rewrite map_update_where; [apply S|]|done| |].
    + intros i Hi. destruct (Home i Hi) as (r & Hr & J). exists (done_at r).
      split; [apply elem_of_update_where; by exists r|]. rewrite In, Ma. auto.
    + intros r' Hr'. apply elem_of_update_where in Hr' as (r & Hr & ->). fold (done_at r).
      destruct (review_of (ar_OrganizationID row) (ar_ID row) r) eqn:X.
      * pose proof X as X'. apply review_of_spec in X' as [_ E]. apply (same_review t r row S Hr Hrow) in E as ->.
        unfold done_at. rewrite X. split; [by apply (so_review t S row)|]. right. split_and!; [done..| |exact All].
        apply item_here_spec in H0 as (J2 & J1 & _). eexists. split; [rewrite I; apply elem_of_update_where; by exists i0|].
        apply (upd_review row item decision reason at_ row i0). by split.
      * assert (E : done_at r = r) by (unfold done_at; by rewrite X). rewrite E.
        split; [by apply (so_review t S)|]. apply Others; [done|]. intros ->.
        by rewrite (proj2 (review_of_spec _ _ row) (conj eq_refl eq_refl)) in X.
Qed.

Lemma sound_changed t t' : changed t t' -> sound t -> sound t'.
Proof.
  intros [->|Rv It Em|id review at_ D Op Co C|org review item reviewer decision reason G D| |] S; [done|..].
  - destruct S as [S1 S2 S3 S4]. split; rewrite ?Rv, ?It; done.
  - by eapply sound_created.
  - by eapply sound_decided.
  - destruct S as [S1 S2 S3 S4]. unfold insert_emergency in *. destruct (existsb _ _); [done|].
    destruct (negb _); [done|]. match goal with X : Ok _ = _ |- _ => apply Ok_pair in X as [_ <-] end. by split.
  - destruct S as [S1 S2 S3 S4]. subst t'. by split.
Qed.

Lemma changed_keeps t t' i : changed t t' -> i ∈ ov_items t -> item_kept t' i.
Proof.
  intros C Hi. assert (Same : ov_items t' = ov_items t -> item_kept t' i) by (intros E; exists i; by rewrite E).
  destruct C as [->|_ It _|id review at_ _ _ _ [(r & new & _ & _ & It & _) _ _ _]|org review item reviewer decision reason _ D| |].
  - auto.
  - auto.
  - exists i. split; [rewrite It; apply elem_of_app; by left|done].
  - destruct (de_items _ _ _ _ _ _ _ _ D) as [at_ It].
    exists (if item_here org review item i then decide_item decision reason reviewer at_ i else i).
    split; [rewrite It; apply elem_of_update_where; by exists i|].
    destruct (item_here org review item i) eqn:P; [|done]. apply item_here_spec in P as (_ & _ & P & _).
    split_and!; [done..|congruence].
  - apply Same. unfold insert_emergency in *. destruct (existsb _ _); [done|]. destruct (negb _); [done|].
    match goal with X : Ok _ = _ |- _ => apply Ok_pair in X as [_ <-] end. done.
  - apply Same. by subst t'.
Qed.

Lemma history_keeps t t' i : history t t' -> i ∈ ov_items t -> item_kept t' i.
Proof.
  intros H. revert i. induction H as [t|t t1 t2 S _ IH]; intros i Hi; [by exists i|].
  destruct (changed_keeps t t1 i (step_changes t t1 S) Hi) as (i1 & H1 & A1 & B1 & C1 & D1).
  destruct (IH i1 H1) as (i2 & H2 & A2 & B2 & C2 & D2). exists i2. split_and!; [done|congruence..|].
  intros N. specialize (D1 N). subst i1. auto.
Qed.

(** C28.  Access reviews are sound through every history of requests, whatever
    statement or clock fails them: a reviewer is never the person who started
    the review; an item is pending, or decided by the reviewer of its review,
    with a reason of eight characters at least unless it is approved; a review
    is completed exactly when it has items and none is pending; an entitlement
    is reviewed once per review; and a decision that has been made is never
    changed, nor an item lost. *)
Theorem access_reviews_are_sound t t' : sound t -> history t t' ->
  sound t' /\ forall i, i ∈ ov_items t -> item_kept t' i.
Proof.
  intros S H. split; [|by intros i; apply history_keeps].
  induction H as [t|t t1 t2 X _ IH]; [done|]. eauto using sound_changed, step_changes.
Qed.

(** ** Reviews are complete *)

Lemma elem_of_entitlements org from until t x : x ∈ entitlements org from until t <->
  exists u r, u ∈ users t /\ uorg u = org /\ ustatus u = "ACTIVE" /\ r ∈ roles t /\
    holds every_group (uid u) from until t (rl_id r) = true /\ x = (uid u, user_LoginName (row_User u), rl_role_key r).
Proof.
  unfold entitlements. rewrite elem_of_order_by, elem_of_remove_dups, list_elem_of_In, in_flat_map. split.
  - intros (u & Hu & Hx). apply list_elem_of_In, elem_of_select in Hu as [Hu C]. breflect.
    apply in_map_iff in Hx as (r & <- & Hr). apply list_elem_of_In, elem_of_select in Hr as [Hr D].
    exists u, r. by split_and!.
  - intros (u & r & Hu & O & A & Hr & D & ->). exists u. split.
    + apply list_elem_of_In, elem_of_select. by rewrite O, A, !seqb_refl.
    + apply in_map_iff. exists r. split; [done|]. by apply list_elem_of_In, elem_of_select.
Qed.


(** ** Emergency access stays bounded *)

Record grant_ok (r : EmergencyRow) : Prop := {
  go_other : TrimSpace (eg_TargetUserID (er_grant r)) <> TrimSpace (eg_RequesterID (er_grant r));
  go_window : eg_RequestedAt (er_grant r) < eg_ExpiresAt (er_grant r) <= eg_RequestedAt (er_grant r) + 60 * Minute;
  go_number : 1 <= llen (eg_PrivilegeKeys (er_grant r)) <= 20;
  go_keys : forall k, k ∈ eg_PrivilegeKeys (er_grant r) -> key_refused k = false;
  go_stored : er_keys_json r = marshal_strings (eg_PrivilegeKeys (er_grant r));
  go_approved : TrimSpace (eg_ApprovalID (er_grant r)) <> "";
  go_hour : forall a b, ActiveAt (er_grant r) a = true -> ActiveAt (er_grant r) b = true -> a - b < 60 * Minute
}.

Record emergency_ok (t : Tables) : Prop := {
  em_ids : NoDup (map (fun r => eg_ID (er_grant r)) (ov_emergency t));
  em_approvals : NoDup (map (fun r => eg_ApprovalID (er_grant r)) (ov_emergency t));
  em_grants : Forall grant_ok (ov_emergency t)
}.

(** A grant keeps its terms, is never extended, and its revocation is final. *)
Definition revoked_as (r r' : EmergencyRow) : Prop := exists at_ actor reason,
  r' = revoke_row at_ actor reason r.
Definition grant_kept (t' : Tables) (r : EmergencyRow) : Prop := exists r', r' ∈ ov_emergency t' /\
  (r' = r \/ (eg_RevokedAt (er_grant r) = None /\ revoked_as r r')) /\
  forall at_, ActiveAt (er_grant r') at_ = true -> ActiveAt (er_grant r) at_ = true.

Lemma revoked_inactive at_ actor reason r x : ActiveAt (er_grant (revoke_row at_ actor reason r)) x = false.
Proof. done. Qed.

Lemma revoke_ok at_ actor reason r : grant_ok r -> grant_ok (revoke_row at_ actor reason r).
Proof. intros []. by split. Qed.

Lemma granted_ok g actor at_ q : Validate q actor at_ = Ok tt -> eg_RequestedAt g < eg_ExpiresAt g ->
  eg_RequesterID g = er_RequesterID q -> eg_TargetUserID g = er_TargetUserID q -> eg_ApprovalID g = er_ApprovalID q ->
  eg_PrivilegeKeys g = er_PrivilegeKeys q -> eg_RequestedAt g = er_RequestedAt q -> eg_ExpiresAt g = er_ExpiresAt q ->
  grant_ok (mkEmergencyRow g (marshal_strings (eg_PrivilegeKeys g))).
Proof.
  intros V W E1 E2 E3 E4 E5 E6.
  destruct (Validate_cases q actor at_) as [((_ & _ & _ & _ & A) & B & _)|[(_ & X)|(_ & _ & X)]];
    [|by rewrite X in V..]. destruct B as ((B1 & _) & (B2 & _) & (_ & _ & _ & B3) & B4 & B5).
  unfold EmergencyAccessMaxAge in B3. split; cbn; rewrite ?E1, ?E2, ?E3, ?E4, ?E5, ?E6 in *; try done || lia.
  - congruence.
  - unfold ActiveAt, After, Before, UTC. rewrite E5, E6. intros a b Ha Hb.
    destruct (eg_RevokedAt g); [done|]. breflect. lia.
Qed.

Lemma emergency_changed t t' : changed t t' -> emergency_ok t ->
  emergency_ok t' /\ forall r, r ∈ ov_emergency t -> grant_kept t' r.
Proof.
  intros C K. assert (Same : ov_emergency t' = ov_emergency t -> emergency_ok t' /\ forall r, r ∈ ov_emergency t -> grant_kept t' r).
  { intros E. split; [destruct K; split; by rewrite E|]. intros r Hr. exists r. rewrite E. auto. }
  destruct C as [->|_ _ E|id review at_ _ _ _ [_ _ E _]|org review item reviewer decision reason _ [_ _ _ _ E _]
    |g keys at_ actor q V E1 E2 E3 E4 E5 E6 E7 E8 E9 In|org grant at_ actor reason ->]; [by auto..| |].
  - unfold insert_emergency in In. destruct (existsb _ _) eqn:X; [done|]. destruct (negb _) eqn:W; [done|].
    apply Ok_pair in In as [_ <-]. rewrite existsb_false in X. breflect. cbn in W. split.
    + destruct K as [N1 N2 F]. split; cbn.
      * apply NoDup_map_snoc; [done|]. intros y Hy Q. specialize (X y Hy). by rewrite Q, seqb_refl in X.
      * apply NoDup_map_snoc; [done|]. intros y Hy Q. specialize (X y Hy). by rewrite Q, seqb_refl, orb_true_r in X.
      * apply Forall_app. split; [done|]. apply Forall_singleton. subst keys. by eapply granted_ok.
    + intros r Hr. exists r. split; [cbn; apply elem_of_app; by left|auto].
  - destruct K as [N1 N2 F]. split.
    + split; cbn; [by rewrite map_update_where..|]. apply Forall_update_where; [done|]. intros r _ _. apply revoke_ok.
    + intros r Hr. exists (if revocable org grant r then revoke_row at_ actor reason r else r).
      split; [apply elem_of_update_where; by exists r|]. destruct (revocable org grant r) eqn:P; [|by split; [left|]].
      unfold revocable in P. apply andb_true_iff in P as [_ P].
      split; [|by intros x; rewrite revoked_inactive]. right. split; [by destruct (eg_RevokedAt _)|by do 3 eexists].
Qed.

(** Emergency access stays bounded through every history of requests: a
    grant is for somebody other than the person who asked for it, for an hour
    at most, carries between one and twenty keys, none of them the wildcard or
    [system_admin], and belongs to an approval no other grant uses; its terms
    never change, it is never extended, and once revoked it stays revoked. *)
Theorem emergency_access_is_bounded t t' : emergency_ok t -> history t t' ->
  emergency_ok t' /\ forall r, r ∈ ov_emergency t -> grant_kept t' r.
Proof.
  intros K H. induction H as [t|t t1 t2 X _ IH]; [split; [done|intros r Hr; exists r; auto]|].
  destruct (emergency_changed t t1 (step_changes t t1 X) K) as [K1 G1]. destruct (IH K1) as [K2 G2].
  split; [done|]. intros r Hr. destruct (G1 r Hr) as (r1 & H1 & D1 & A1). destruct (G2 r1 H1) as (r2 & H2 & D2 & A2).
  exists r2. split; [done|]. split; [|auto]. destruct D1 as [->|[N1 D1]]; [done|].
  destruct D2 as [->|[N2 _]]; [by right|]. by destruct D1 as (x & y & z & ->).
Qed.

(** ** Examples *)

Module examples.
Definition tables : Tables := mkTables Roles.examples.tables [] [] [].
Definition env : Env := mkEnv (fun _ => 100) (fun k => Itoa (Z.of_nat k)) (fun _ => None) (fun _ _ => "0"%char) false.
Definition sec : Principal := Roles.examples.admin <| p_UserID := "sec" |> <| p_Roles := ["security_admin"] |>.

Definition run {A} (m : M A) (n : nat) (t : Tables) : result A * Tables :=
  let '(r, _, t') := WithTx m env n t in (r, t').

(** The administrator has the entitlements reviewed by the security officer,
    who decides on the first of them; then he asks for emergency access. *)
Definition started := run (CreateAccessReview Roles.examples.admin "sec" (100 + 48 * Hour)) 0 tables.
Definition review : string := match started.1 with Ok r => ar_ID r | Err _ => "" end.
Definition first_item : string := match ov_items started.2 with i :: _ => ai_ID i | [] => "" end.
Definition decision := run (DecideAccessReviewItem sec review first_item "revoke" "no longer needed") 50 started.2.
Definition request : EmergencyAccessRequest :=
  mkEmergencyRequest "o" "adm" "bob" "" "appr" "restore the service" ["platform:job:execute"] 100 (100 + 30 * Minute).
Definition granted := run (CreateEmergencyAccess Roles.examples.admin request) 90 decision.2.
Definition closed := run (RevokeEmergencyAccess sec (match granted.1 with Ok g => eg_ID g | Err _ => "" end) "service is back") 99 granted.2.

Lemma all_succeed : is_ok started.1 && is_ok decision.1 && is_ok granted.1 && is_ok closed.1 = true.
Proof. vm_compute. reflexivity. Qed.
Lemma decisions : map ai_Decision (ov_items decision.2) = ["REVOKE"; "PENDING"; "PENDING"].
Proof. vm_compute. reflexivity. Qed.

Lemma run_step {A} (m : M A) n t : operation m -> step t (run m n t).2.
Proof.
  intros O. unfold run. destruct (WithTx m env n t) as [[r n'] t'] eqn:E.
  by eapply (step_request t t' m env n r n' O (or_introl eq_refl)).
Qed.

Lemma oversight_history : history tables closed.2.
Proof.
  apply (rtc_l _ _ started.2 _ (run_step _ 0%nat _ (OpCreateReview _ _ _))).
  apply (rtc_l _ _ decision.2 _ (run_step _ 50%nat _ (OpDecide _ _ _ _ _))).
  apply (rtc_l _ _ granted.2 _ (run_step _ 90%nat _ (OpCreateEmergency _ _))).
  apply rtc_once, run_step, OpRevokeEmergency.
Qed.

Lemma tables_sound : sound tables.
Proof. split; [constructor|split; constructor|intros i Hi; inversion Hi|intros r Hr; inversion Hr]. Qed.
Lemma tables_emergency : emergency_ok tables.
Proof. split; constructor. Qed.
End examples.

Lemma access_reviews_are_sound_witness : sound examples.closed.2 /\ llen (ov_items examples.closed.2) = 3.
Proof.
  split; [|vm_compute; reflexivity].
  exact (proj1 (access_reviews_are_sound examples.tables examples.closed.2 examples.tables_sound examples.oversight_history)).
Defined.


Lemma emergency_access_is_bounded_witness : emergency_ok examples.closed.2 /\
  map (fun r => ActiveAt (er_grant r) (100 + Minute)) (ov_emergency examples.granted.2) = [true] /\
  map (fun r => ActiveAt (er_grant r) (100 + Minute)) (ov_emergency examples.closed.2) = [false].
Proof.
  split; [|vm_compute; by split].
  exact (proj1 (emergency_access_is_bounded examples.tables examples.closed.2 examples.tables_emergency examples.oversight_history)).
Defined.
