(* ===== verification/Messaging.v ===== *)
(** * Reliable messages

    The outbox ([internal/platform/reliablemsg]) that keeps a message in the
    transaction of the change it announces and hands it to the broker later,
    the envelope's rules ([internal/platform/messaging/message.go]), the
    consumer that makes every event take effect once
    ([internal/platform/messageworker]), and the two producers: the audit
    forwarder ([internal/adapters/auditsink/reliable.go]) and the notification
    queue ([internal/adapters/notificationdelivery]).  The broker is external. *)

From S2P Require Import Prelude GoString Crypto Json Database.

(** ** Envelopes *)

Record Message := mkMessage {
  msg_ID : string;
  msg_OrganizationID : string;
  msg_Topic : string;
  msg_Key : string;
  msg_Type : string;
  msg_Body : string;
  msg_Headers : gmap string string;
  msg_Tag : string;
  msg_OrderingKey : string;
  msg_DeliverAt : Time
}.

Definition HeaderEventID := "x-forge-event-id".
Definition HeaderEventType := "x-forge-event-type".
Definition HeaderOrganizationID := "x-forge-organization-id".

Definition maxMessageBodyBytes : Z := 4194304.
Definition maxHeaderCount : Z := 64.
Definition maxHeaderBytes : Z := 32768.

(** ['!', '#', '$', '%', '&', an apostrophe, '*', '+', '-', '.', '^', '_', a
    backquote, '|', '~']. *)
Definition header_punctuation : list Z := [33; 35; 36; 37; 38; 39; 42; 43; 45; 46; 94; 95; 96; 124; 126].
Definition header_char (c : ascii) : bool :=
  let b := byte_val c in
  in_range 97 122 b || in_range 48 57 b || existsb (Z.eqb b) header_punctuation.
Definition validHeaderName (value : string) : bool :=
  negb (value =s "") && forallb header_char (list_ascii_of_string value).

(** The loop over the headers, in the order in which the map is ranged over:
    the names and values kept, and the bytes counted. *)
Fixpoint check_headers (l : list (string * string)) (headers : gmap string string) (total : Z)
  : result (gmap string string) :=
  match l with
  | [] => Ok headers
  | (rawName, value) :: rest =>
    let name := ToLower (TrimSpace rawName) in
    if negb (validHeaderName name) || negb (ValidString value) then
      Err (Errorf "messaging: invalid header %q" [FStr rawName])
    else if HasPrefix name "x-forge-" then Err (Errorf "messaging: header %q is reserved" [FStr rawName])
    else
      let total := total + slen name + slen value in
      if maxHeaderBytes <? total then Err (Errorf "messaging: headers exceed %d bytes" [FInt maxHeaderBytes])
      else check_headers rest (<[name := value]> headers) total
  end.

(** The trace propagator of OpenTelemetry writes its own headers into a carrier,
    and no other. *)
Class Propagator := {
  Inject : gmap string string -> gmap string string;
  Inject_own_headers : forall m k, HasPrefix k "x-forge-" = true -> Inject m !! k = m !! k
}.

Section messages.
Context `{Propagator}.

Definition with_trace (headers : gmap string string) : gmap string string :=
  if default "" (headers !! "traceparent") =s "" then Inject headers else headers.

Definition prepareMessage (message : Message) : result (Message * gmap string string) :=
  let id := TrimSpace (msg_ID message) in
  let organization := TrimSpace (msg_OrganizationID message) in
  let topic := TrimSpace (msg_Topic message) in
  let kind := TrimSpace (msg_Type message) in
  let tag := TrimSpace (msg_Tag message) in
  let ordering := TrimSpace (msg_OrderingKey message) in
  if (id =s "") || (topic =s "") || (kind =s "") then Err (Errorf "messaging: id, topic and type are required" [])
  else if (200 <? slen id) || (200 <? slen topic) || (160 <? slen kind) then
    Err (Errorf "messaging: id, topic or type exceeds its length limit" [])
  else if (1024 <? slen (msg_Key message)) || (200 <? slen ordering) || (128 <? slen tag) then
    Err (Errorf "messaging: key, ordering key or tag exceeds its length limit" [])
  else if maxMessageBodyBytes <? slen (msg_Body message) then
    Err (Errorf "messaging: body exceeds %d bytes" [FInt maxMessageBodyBytes])
  else if maxHeaderCount <? Z.of_nat (size (msg_Headers message)) then
    Err (Errorf "messaging: more than %d headers" [FInt maxHeaderCount])
  else
    headers ← check_headers (map_to_list (msg_Headers message)) ∅ 0;
    let headers := <[HeaderEventType := kind]> (<[HeaderEventID := id]> headers) in
    let headers := if organization <>s "" then <[HeaderOrganizationID := organization]> headers else headers in
    Ok (mkMessage id organization topic (msg_Key message) kind (msg_Body message) (msg_Headers message) tag ordering
          (msg_DeliverAt message), with_trace headers).

Definition Validate (message : Message) : result unit := _ ← prepareMessage message; Ok tt.
End messages.

(** ** The outbox *)

Record MessageRow := mkMessageRow {
  rm_id : string;
  rm_organization_id : option string;
  rm_topic : string;
  rm_event_key : string;
  rm_event_type : string;
  rm_ordering_key : string;
  rm_tag : string;
  rm_deliver_at : option Time;
  rm_payload_json : string;
  rm_headers_json : string;
  rm_status : string;
  rm_attempts : Z;
  rm_next_attempt_at : Time;
  rm_created_at : Time;
  rm_published_at : option Time;
  rm_last_error : string
}.
#[export] Instance MessageRow_eta : Eta MessageRow := fun r =>
  mkMessageRow (rm_id r) (rm_organization_id r) (rm_topic r) (rm_event_key r) (rm_event_type r) (rm_ordering_key r)
    (rm_tag r) (rm_deliver_at r) (rm_payload_json r) (rm_headers_json r) (rm_status r) (rm_attempts r)
    (rm_next_attempt_at r) (rm_created_at r) (rm_published_at r) (rm_last_error r).

(** The rows, and the messages that the broker has accepted so far. *)
Record Outbox := mkOutbox { ob_rows : list MessageRow; ob_accepted : list Message }.
#[export] Instance Outbox_eta : Eta Outbox := fun o => mkOutbox (ob_rows o) (ob_accepted o).

Notation M := (Database.M Outbox).

(** The payload is any Go value: [ev_Payload] is what [json.Marshal] makes of it. *)
Record Event := mkEvent {
  ev_ID : string;
  ev_OrganizationID : string;
  ev_Topic : string;
  ev_Key : string;
  ev_Type : string;
  ev_Payload : result string;
  ev_Headers : gmap string string;
  ev_Tag : string;
  ev_OrderingKey : string;
  ev_DeliverAt : Time
}.

Definition nullTime (value : Time) : option Time := if IsZero value then None else Some (UTC value).

(** The names in lower case, each once. *)
Fixpoint collect_headers (l : list (string * string)) (values : gmap string string) : result (gmap string string) :=
  match l with
  | [] => Ok values
  | (rawName, value) :: rest =>
    let name := ToLower (TrimSpace rawName) in
    match values !! name with
    | Some _ => Err (Errorf "reliable message: duplicate header %q" [FStr rawName])
    | None => collect_headers rest (<[name := value]> values)
    end
  end.

Definition insert_message (r : MessageRow) (o : Outbox) : result (unit * Outbox) :=
  if existsb (fun x => rm_id x =s rm_id r) (ob_rows o) then Err ErrDuplicate
  else Ok (tt, o <| ob_rows := ob_rows o ++ [r] |>).

Section outbox.
Context `{Propagator}.

Definition EnqueueTx (e : Event) : M string :=
  if (ev_Topic e =s "") || (ev_Type e =s "") then fail (Errorf "reliable message: topic and type required" [])
  else
    id ← (if ev_ID e =s "" then NewString else mret (ev_ID e));
    payload ← lift (ev_Payload e);
    values ← lift (collect_headers (map_to_list (ev_Headers e)) ∅);
    let values := with_trace values in
    _ ← lift (Validate (mkMessage id (ev_OrganizationID e) (ev_Topic e) (ev_Key e) (ev_Type e) payload values
                          (ev_Tag e) (ev_OrderingKey e) (ev_DeliverAt e)));
    next ← now;
    created ← now;
    _ ← stmt (insert_message (mkMessageRow id (nullIfEmpty (ev_OrganizationID e)) (ev_Topic e) (ev_Key e) (ev_Type e)
                (ev_OrderingKey e) (ev_Tag e) (nullTime (ev_DeliverAt e)) payload (marshal_map (map_to_list values))
                "PENDING" 0 (UTC next) (UTC created) None ""));
    mret id.

Definition Enqueue (e : Event) : M string := WithTx (EnqueueTx e).
End outbox.

(** A pending row as it was read. *)
Definition pending_due (at_ : Time) (r : MessageRow) : bool :=
  (rm_status r =s "PENDING") && (rm_next_attempt_at r <=? at_).

Definition pending (limit : Z) : M (list MessageRow) :=
  let limit := if (limit <=? 0) || (500 <? limit) then 100 else limit in
  at_ ← now;
  query (fun o => take (Z.to_nat limit) (order_by (fun x y => rm_created_at x <=? rm_created_at y)
    (select (pending_due (UTC at_)) (ob_rows o)))).

Definition processingLease : Duration := 5 * Minute.

Definition change_rows (p : MessageRow -> bool) (f : MessageRow -> MessageRow) (o : Outbox) : Outbox :=
  o <| ob_rows := update_where p f (ob_rows o) |>.

Definition lease_expired (at_ : Time) (r : MessageRow) : bool :=
  (rm_status r =s "PROCESSING") && (rm_next_attempt_at r <=? at_).
Definition set_pending (r : MessageRow) : MessageRow := r <| rm_status := "PENDING" |>.

Definition recoverExpiredClaims : M unit :=
  at_ ← now;
  exec (change_rows (lease_expired (UTC at_)) set_pending).

Definition claimable (id : string) (r : MessageRow) : bool := (rm_id r =s id) && (rm_status r =s "PENDING").
Definition set_claimed (until : Time) (r : MessageRow) : MessageRow :=
  r <| rm_status := "PROCESSING" |> <| rm_next_attempt_at := until |>.

Definition claim (id : string) : M bool :=
  at_ ← now;
  stmt (fun o => Ok (llen (select (claimable id) (ob_rows o)) =? 1,
                     change_rows (claimable id) (set_claimed (timeAdd (UTC at_) processingLease)) o)).

Definition set_published (at_ : Time) (r : MessageRow) : MessageRow :=
  r <| rm_status := "PUBLISHED" |> <| rm_published_at := Some at_ |> <| rm_last_error := "" |>.

Definition published (id : string) : M unit :=
  at_ ← now;
  exec (change_rows (fun r => rm_id r =s id) (set_published (UTC at_))).

Definition set_retry (attempts : Z) (next : Time) (message : string) (r : MessageRow) : MessageRow :=
  r <| rm_status := if 12 <=? attempts then "DEAD" else "PENDING" |> <| rm_attempts := attempts |>
    <| rm_next_attempt_at := next |> <| rm_last_error := message |>.

Definition retry_delay (attempts : Z) : Duration := Z.shiftl 1 (Z.min attempts 8) * Second.

(** [text] is [publishErr.Error()]. *)
Definition retry (p : MessageRow) (text : string) : M unit :=
  let attempts := rm_attempts p + 1 in
  let message := if 1000 <? slen text then stake 1000 text else text in
  at_ ← now;
  exec (change_rows (fun r => rm_id r =s rm_id p) (set_retry attempts (timeAdd (UTC at_) (retry_delay attempts)) message)).

(** [json.Unmarshal] into a [map[string]string]. *)
Fixpoint string_members (l : list (string * json)) (m : gmap string string) : option (gmap string string) :=
  match l with
  | [] => Some m
  | (k, JStr v) :: rest => string_members rest (<[k := v]> m)
  | (k, JNull) :: rest => string_members rest (<[k := ""]> m)
  | _ => None
  end.
Definition unmarshal_headers (raw : string) : option (gmap string string) :=
  match parse_document raw with
  | Some (JObj l) => string_members l ∅
  | Some JNull => Some ∅
  | _ => None
  end.

(** The text of the decoder's error is left uninterpreted. *)
Definition row_message (p : MessageRow) : result Message :=
  let raw := TrimSpace (rm_headers_json p) in
  match (if raw <>s "" then unmarshal_headers raw else Some ∅) with
  | None => Err (Errorf "decode reliable message headers: %w" [])
  | Some headers =>
    Ok (mkMessage (rm_id p) (default "" (rm_organization_id p)) (rm_topic p) (rm_event_key p) (rm_event_type p)
          (rm_payload_json p) headers (rm_tag p) (rm_ordering_key p) (default 0 (rm_deliver_at p)))
  end.

(** [errors.Join] of at most ten causes under a count. *)
Definition maxBatchErrorDetails : Z := 10.
Definition appendBatchFailure (failures : list error) (failure : error) : list error :=
  if llen failures <? maxBatchErrorDetails then failures ++ [failure] else failures.
Definition newBatchError (failed : Z) (failures : list error) : option error :=
  if failed =? 0 then None
  else Some (foldr Join (Errorf "%d reliable message(s) failed in the batch" [FInt failed]) failures).

Definition join_errors (e : option error) (e' : error) : error :=
  match e with Some e => Join e e' | None => e' end.

(** The broker's answer to a message at a tick: the error it refuses it with,
    or [None]; [error_text] is the method [Error]. *)
Class Bus := {
  bus_answer : nat -> Message -> option error;
  error_text : error -> string
}.

Section batch.
Context `{Bus}.

Definition Publish (m : Message) : M unit := fun _ n o =>
  match bus_answer n m with
  | Some err => (Err err, S n, o)
  | None => (Ok tt, S n, o <| ob_accepted := ob_accepted o ++ [m] |>)
  end.

(** What the loop has counted: published, failed, the failures kept. *)
Record tally := mkTally { t_n : Z; t_failed : Z; t_failures : list error }.

Definition batch_result : Type := Z * option error.

Fixpoint publish_loop (items : list MessageRow) (c : tally) : M batch_result :=
  match items with
  | [] => mret (t_n c, newBatchError (t_failed c) (t_failures c))
  | e :: rest =>
    claimed ← attempt (claim (rm_id e));
    match claimed with
    | Err err => mret (t_n c, Some (Wrapf "claim reliable message %s: %w" [FStr (rm_id e)] err))
    | Ok false => publish_loop rest c
    | Ok true =>
      let failed_with label err (text : string) :=
        let failures := appendBatchFailure (t_failures c) (Wrapf label [FStr (rm_id e)] err) in
        state ← attempt (retry e text);
        match state with
        | Err stateErr =>
          mret (t_n c, Some (join_errors (newBatchError (t_failed c + 1) failures)
            (Wrapf "persist retry state for reliable message %s: %w" [FStr (rm_id e)] stateErr)))
        | Ok _ => publish_loop rest (mkTally (t_n c) (t_failed c + 1) failures)
        end in
      match row_message e with
      | Err err => failed_with "decode reliable message %s: %w" err (error_text err)
      | Ok message =>
        sent ← attempt (Publish message);
        match sent with
        | Err err => failed_with "publish reliable message %s: %w" err (error_text err)
        | Ok _ =>
          marked ← attempt (published (rm_id e));
          match marked with
          | Err err =>
            mret (t_n c, Some (Wrapf
              "mark reliable message %s published after provider acceptance; duplicate delivery is possible: %w"
              [FStr (rm_id e)] err))
          | Ok _ => publish_loop rest (mkTally (t_n c + 1) (t_failed c) (t_failures c))
          end
        end
      end
    end
  end.

Definition PublishBatch (limit : Z) : M batch_result :=
  recovered ← attempt recoverExpiredClaims;
  match recovered with
  | Err err => mret (0, Some (Wrapf "recover expired reliable message claims: %w" [] err))
  | Ok _ =>
    items ← attempt (pending limit);
    match items with
    | Err err => mret (0, Some (Wrapf "query pending reliable messages: %w" [] err))
    | Ok items => publish_loop items (mkTally 0 0 [])
    end
  end.
End batch.

(** The producers [ReliableForwarder.EnqueueTx] of audit events and
    [EmailQueue.EnqueueEmailTx]. *)
Record EmailMessage := mkEmail {
  em_ID : string; em_From : string; em_To : list string; em_Subject : string; em_TextBody : string; em_HTMLBody : string
}.
Record EmailRequest := mkEmailRequest { erq_ID : string; erq_Message : EmailMessage }.

Definition line_breaks : string := String (ascii_of_nat 13) (String (ascii_of_nat 10) "").

Definition NewEmailRequest (id : string) (message : EmailMessage) : result EmailRequest :=
  let id := TrimSpace id in
  if (id =s "") || (200 <? slen id) || ContainsAny id line_breaks then Err (Errorf "notification email id is invalid" [])
  else if (em_ID message <>s "") && (em_ID message <>s id) then
    Err (Errorf "notification email message id does not match request id" [])
  else if (TrimSpace (em_From message) =s "") || (llen (em_To message) =? 0) || (TrimSpace (em_Subject message) =s "") ||
          ((em_TextBody message =s "") && (em_HTMLBody message =s "")) then
    Err (Errorf "notification email requires sender, recipients, subject and body" [])
  else Ok (mkEmailRequest id (mkEmail id (em_From message) (em_To message) (em_Subject message) (em_TextBody message)
                                (em_HTMLBody message))).

Definition EmailMessageType := "notification.email".

Section producers.
Context `{Propagator}.

(** [payload] is [json.Marshal] of the audit event. *)
Definition forward_audit (topic eventID organization action : string) (payload : result string) : M string :=
  EnqueueTx (mkEvent ("audit." +:+ eventID) organization topic eventID "audit.event" payload
    {["x-forge-audit-action" := action]} "" organization 0).

Variable marshal : EmailRequest -> result string.

Definition EnqueueEmailTx (topic organization id : string) (message : EmailMessage) : M string :=
  request ← lift (NewEmailRequest id message);
  EnqueueTx (mkEvent id organization topic id EmailMessageType (marshal request)
    {["x-forge-notification-provider" := "email"]} "" organization 0).

(** ** Reserved headers *)

Lemma reserved_header l headers total k v : (k, v) ∈ l -> HasPrefix (ToLower (TrimSpace k)) "x-forge-" = true ->
  is_ok (check_headers l headers total) = false.
Proof.
  intros I P. revert headers total. induction l as [|[k' v'] l IH]; intros headers total; [by apply elem_of_nil in I|].
  cbn [check_headers]. apply elem_of_cons in I as [[= <- <-]|I].
  - rewrite P. by destruct (_ || _).
  - goal_guards; first [done|by apply IH].
Qed.

Lemma reserved_message m k v : msg_Headers m !! k = Some v -> HasPrefix (ToLower (TrimSpace k)) "x-forge-" = true ->
  is_ok (Validate m) = false.
Proof.
  intros K P. unfold Validate, prepareMessage, mbind, result_bind. repeat (destruct (_ || _); [done|]).
  repeat (destruct (_ <? _); [done|]).
  pose proof (reserved_header (map_to_list (msg_Headers m)) ∅ 0 k v) as R.
  specialize (R (proj2 (elem_of_map_to_list _ _ _) K) P). by destruct (check_headers _ _ _).
Qed.

Lemma with_trace_keeps m k : HasPrefix k "x-forge-" = true -> with_trace m !! k = m !! k.
Proof. intros P. unfold with_trace. destruct (_ =s ""); [by apply Inject_own_headers|done]. Qed.

Lemma reserved_event e k v env n o :
  ev_Headers e = {[k := v]} -> ToLower (TrimSpace k) = k -> HasPrefix k "x-forge-" = true ->
  exists err n', EnqueueTx e env n o = (Err err, n', o).
Proof.
  intros Hh L P. unfold EnqueueTx. destruct ((_ =s _) || _); [by eexists _, _|]. unfold mbind at 1, M_bind at 1.
  assert (Id : exists id n1, (if ev_ID e =s "" then NewString else mret (ev_ID e)) env n o = (Ok id, n1, o)).
  { destruct (ev_ID e =s ""); by eexists _, _. }
  destruct Id as (id & n1 & ->). unfold mbind at 1, M_bind at 1, lift at 1.
  destruct (ev_Payload e) as [payload|]; [|by eexists _, _]. rewrite Hh, map_to_list_singleton. cbn [collect_headers].
  rewrite L, lookup_empty. unfold mbind at 1, M_bind at 1, lift at 1. unfold mbind at 1, M_bind at 1, lift at 1.
  match goal with |- context [Validate ?m] => pose proof (reserved_message m k v) as R end.
  assert (V : with_trace (<[k := v]> ∅) !! k = Some v) by (rewrite with_trace_keeps by done; apply lookup_insert_eq).
  specialize (R V ltac:(by rewrite L)). destruct (Validate _); [done|]. by eexists _, _.
Qed.

(** Neither producer ever produces: every audit event given to the
    reliable forwarder and every notification given to the mail queue is refused
    with an error and leaves the outbox as it was, because the header that the
    producer adds has the prefix that the envelope reserves.  An audit writer
    that is configured to forward therefore fails on every event. *)
Theorem producers_use_a_reserved_header topic eventID organization action payload id message env n o :
  is_ok (forward_audit topic eventID organization action payload env n o).1.1 = false /\
  (forward_audit topic eventID organization action payload env n o).2 = o /\
  is_ok (EnqueueEmailTx topic organization id message env n o).1.1 = false /\
  (EnqueueEmailTx topic organization id message env n o).2 = o.
Proof.
  assert (A : exists err n', forward_audit topic eventID organization action payload env n o = (Err err, n', o))
    by (eapply reserved_event; reflexivity).
  assert (B : exists err n', EnqueueEmailTx topic organization id message env n o = (Err err, n', o)).
  { unfold EnqueueEmailTx, mbind, M_bind, lift. destruct (NewEmailRequest id message) as [request|]; [|by eexists _, _].
    eapply reserved_event; reflexivity. }
  destruct A as (e1 & n1 & ->), B as (e2 & n2 & ->). done.
Qed.
End producers.

(** ** The outbox drains *)

Section drain.
Context `{Bus}.
Variable env : Env.
Hypothesis faultless : no_faults env.
Hypothesis monotone : forall i j, (i <= j)%nat -> clock env i <= clock env j.
Hypothesis accepts : forall n m, bus_answer n m = None.

Notation ids := (map rm_id).

Lemma change_ids p f o : (forall r, rm_id (f r) = rm_id r) -> ids (ob_rows (change_rows p f o)) = ids (ob_rows o).
Proof. apply map_update_where. Qed.

Lemma claim_runs id n o r :
  NoDup (ids (ob_rows o)) -> r ∈ ob_rows o -> rm_id r = id -> rm_status r = "PENDING" ->
  claim id env n o = (Ok true, S (S n),
    change_rows (claimable id) (set_claimed (timeAdd (UTC (clock env n)) processingLease)) o).
Proof.
  intros N Hr Hid St. unfold claim, now, stmt, mbind, M_bind. rewrite faultless.
  assert (llen (select (claimable id) (ob_rows o)) = 1) as ->; [|done].
  assert (C : claimable id r = true) by (unfold claimable; by rewrite Hid, St, !seqb_refl).
  assert (L : llen (select (claimable id) (ob_rows o)) <= 1).
  { apply (select_at_most_one rm_id); [done|]. intros x y _ _ Hx Hy. unfold claimable in *. breflect. congruence. }
  assert (I : r ∈ select (claimable id) (ob_rows o)) by (by apply elem_of_select).
  destruct (select _ _) as [|x l]; [by apply elem_of_nil in I|]. rewrite llen_cons in *. pose proof (llen_nonneg l). lia.
Qed.

(** What publishing one message leaves in its row. *)
Lemma publish_one_rows id until at_ o x : NoDup (ids (ob_rows o)) ->
  x ∈ ob_rows (change_rows (fun r => rm_id r =s id) (set_published at_) (change_rows (claimable id) (set_claimed until) o)) ->
  (rm_id x = id /\ rm_status x = "PUBLISHED") \/ (rm_id x <> id /\ x ∈ ob_rows o).
Proof.
  intros N Hx. apply elem_of_update_where in Hx as (y & Hy & ->). apply elem_of_update_where in Hy as (z & Hz & ->).
  assert (E : rm_id (if claimable id z then set_claimed until z else z) = rm_id z) by (by destruct (claimable id z)).
  rewrite E. destruct (String.eqb_spec (rm_id z) id) as [Hi|Hi].
  - left. cbn. by rewrite E.
  - right. unfold claimable. by rewrite (seqb_neq _ _ Hi).
Qed.

(** A loop over pending rows of the table publishes them all. *)
Lemma publish_loop_runs items : forall c n o,
  NoDup (ids (ob_rows o)) -> NoDup (ids items) ->
  (forall p, p ∈ items -> p ∈ ob_rows o /\ rm_status p = "PENDING" /\ is_ok (row_message p) = true) ->
  exists res n' o', publish_loop items c env n o = (Ok res, n', o') /\ (n <= n')%nat /\
    ids (ob_rows o') = ids (ob_rows o) /\
    (forall x, x ∈ ob_rows o' -> (rm_id x ∈ ids items /\ rm_status x = "PUBLISHED") \/
                                 (rm_id x ∉ ids items /\ x ∈ ob_rows o)) /\
    (forall m, m ∈ ob_accepted o -> m ∈ ob_accepted o') /\
    (forall p m, p ∈ items -> row_message p = Ok m -> m ∈ ob_accepted o').
Proof.
  induction items as [|p items IH]; intros c n o N Ni Hi.
  - eexists _, n, o. split; [reflexivity|]. split; [lia|]. split; [done|]. split; [|split; [done|]].
    + intros x Hx. right. split; [apply not_elem_of_nil|done].
    + intros p m Hp. by apply elem_of_nil in Hp.
  - cbn [map] in Ni. apply NoDup_cons in Ni as [Np Ni].
    destruct (Hi p) as (Hp & St & Om); [by left|]. destruct (row_message p) as [m|] eqn:Em; [|done].
    cbn [publish_loop]. unfold mbind at 1, M_bind at 1, attempt at 1.
    rewrite (claim_runs (rm_id p) n o p N Hp eq_refl St), Em.
    set (o1 := change_rows _ _ o). unfold mbind at 1, M_bind at 1, attempt at 1, Publish at 1. rewrite accepts.
    set (o2 := o1 <| ob_accepted := ob_accepted o1 ++ [m] |>).
    unfold mbind at 1, M_bind at 1, attempt at 1. unfold published, now, exec, stmt, mbind at 1, M_bind at 1. rewrite faultless.
    set (o3 := change_rows _ _ o2).
    assert (I3 : ids (ob_rows o3) = ids (ob_rows o)) by (unfold o3; rewrite change_ids by done; unfold o1; by apply change_ids).
    assert (R3 : forall x, x ∈ ob_rows o3 -> (rm_id x = rm_id p /\ rm_status x = "PUBLISHED") \/ (rm_id x <> rm_id p /\ x ∈ ob_rows o))
      by (intros x Hx; exact (publish_one_rows (rm_id p) _ _ o x N Hx)).
    destruct (IH (mkTally (t_n c + 1) (t_failed c) (t_failures c)) (S (S (S (S (S n))))) o3)
      as (res & n' & o' & E & L & I' & R' & A' & M'); [by rewrite I3|done| |].
    { intros q Hq. destruct (Hi q) as (Q1 & Q2 & Q3); [by right|]. split; [|done].
      assert (Hne : rm_id q <> rm_id p) by (intros X; apply Np; rewrite <- X; by apply list_elem_of_In, in_map, list_elem_of_In).
      apply elem_of_update_where. exists q. rewrite (seqb_neq _ _ Hne). split; [|done].
      apply elem_of_update_where. exists q. unfold claimable. by rewrite (seqb_neq _ _ Hne). }
    rewrite E. exists res, n', o'. split; [done|]. split; [lia|]. split; [congruence|]. split; [|split].
    + intros x Hx. cbn [map]. destruct (R' x Hx) as [[X1 X2]|[X1 X2]]; [left; split; [by right|done]|].
      destruct (R3 x X2) as [[Y1 Y2]|[Y1 Y2]]; [left; split; [rewrite Y1; by left|done]|].
      right. split; [|done]. rewrite not_elem_of_cons. done.
    + intros m' Hm. apply A'. cbn. apply elem_of_app. by left.
    + intros q m' Hq Eq. apply elem_of_cons in Hq as [->|Hq]; [|by eapply M'].
      apply A'. cbn. apply elem_of_app. right. assert (m' = m) as -> by congruence. by left.
Qed.

Definition open (r : MessageRow) : bool := (rm_status r =s "PENDING") || (rm_status r =s "PROCESSING").
(** Due at the instant [at_], a claim that nobody finished included. *)
Definition waiting (at_ : Time) (r : MessageRow) : bool := pending_due at_ r || lease_expired at_ r.

Lemma waiting_open at_ r : waiting at_ r = true -> open r = true.
Proof. unfold waiting, open, pending_due, lease_expired. by destruct (rm_status r =s "PENDING"), (rm_status r =s "PROCESSING"). Qed.

Lemma recovered_row a o x : x ∈ ob_rows (change_rows (lease_expired a) set_pending o) ->
  exists y, y ∈ ob_rows o /\ rm_id x = rm_id y /\ row_message x = row_message y /\ (open x = true -> open y = true) /\
    (rm_status y = "PUBLISHED" -> x = y) /\ x = (if lease_expired a y then set_pending y else y).
Proof.
  intros Hx. apply elem_of_update_where in Hx as (y & Hy & ->). exists y. split; [done|].
  destruct (lease_expired a y) eqn:E; [|done]. split_and!; try done.
  - intros _. apply (waiting_open a). unfold waiting. by rewrite E, orb_true_r.
  - intros S. unfold lease_expired in E. by rewrite S in E.
Qed.

Definition oldest (limit : Z) (at_ : Time) (o : Outbox) : list MessageRow :=
  take (Z.to_nat limit) (order_by (fun x y => rm_created_at x <=? rm_created_at y)
    (select (pending_due at_) (ob_rows o))).

Lemma elem_of_oldest limit at_ o p : p ∈ oldest limit at_ o -> p ∈ ob_rows o /\ pending_due at_ p = true.
Proof.
  intros H1. apply elem_of_take in H1 as (k & H1 & _). apply list_elem_of_lookup_2 in H1.
  by apply elem_of_order_by, elem_of_select in H1.
Qed.

Lemma oldest_ids limit at_ o : NoDup (ids (ob_rows o)) -> NoDup (ids (oldest limit at_ o)).
Proof.
  intros N. set (l := order_by (fun x y => rm_created_at x <=? rm_created_at y) (select (pending_due at_) (ob_rows o))).
  assert (Nl : NoDup (ids l)).
  { change (ids l) with (rm_id <$> l). unfold l. rewrite (order_by_Permutation _ (select _ _)). by apply NoDup_map_select. }
  change (oldest limit at_ o) with (take (Z.to_nat limit) l).
  rewrite <- (take_drop (Z.to_nat limit) l) in Nl. change (ids ?k) with (rm_id <$> k) in *. rewrite fmap_app in Nl.
  by apply NoDup_app in Nl as [Nl _].
Qed.

(** A due row that is left out shows that the batch was full. *)
Lemma oldest_full limit at_ o p : 0 <= limit -> p ∈ ob_rows o -> pending_due at_ p = true ->
  p ∉ oldest limit at_ o -> llen (oldest limit at_ o) = limit.
Proof.
  intros L Hp Hd Out. unfold oldest in *. set (l := order_by _ _) in *.
  assert (I : p ∈ l) by (by apply elem_of_order_by, elem_of_select).
  unfold llen. rewrite length_take. destruct (Nat.le_gt_cases (Z.to_nat limit) (length l)) as [G|G]; [lia|].
  rewrite take_ge in Out by lia. done.
Qed.

Definition open_rows (o : Outbox) : Z := llen (select open (ob_rows o)).

Record batch_effect (limit : Z) (T : Time) (o o' : Outbox) : Prop := {
  be_ids : ids (ob_rows o') = ids (ob_rows o);
  be_open : forall x, x ∈ ob_rows o' -> open x = true -> is_ok (row_message x) = true;
  be_published : forall x, x ∈ ob_rows o -> rm_status x = "PUBLISHED" ->
    exists y, y ∈ ob_rows o' /\ rm_id y = rm_id x /\ rm_status y = "PUBLISHED";
  be_accepted : forall m, m ∈ ob_accepted o -> m ∈ ob_accepted o';
  be_waiting : forall x, x ∈ ob_rows o -> waiting T x = true ->
    (exists y, y ∈ ob_rows o' /\ rm_id y = rm_id x /\ rm_status y = "PUBLISHED" /\
       forall m, row_message x = Ok m -> m ∈ ob_accepted o') \/
    (exists y, y ∈ ob_rows o' /\ rm_id y = rm_id x /\ row_message y = row_message x /\ waiting T y = true /\
       open_rows o' + limit <= open_rows o)
}.

Lemma found_by_id rows rows' x : ids rows' = ids rows -> x ∈ rows -> exists y, y ∈ rows' /\ rm_id y = rm_id x.
Proof.
  intros E Hx. assert (I : rm_id x ∈ ids rows') by (rewrite E; by apply list_elem_of_In, in_map, list_elem_of_In).
  apply list_elem_of_In, in_map_iff in I as (y & E' & Hy). exists y. split; [by apply list_elem_of_In|done].
Qed.

Section effect.
Variables (limit : Z) (a b : Time) (o o' : Outbox).
Let o1 := change_rows (lease_expired a) set_pending o.
Let items := oldest limit b o1.
Hypothesis limit_nonneg : 0 <= limit.
Hypothesis later : a <= b.
Hypothesis once : NoDup (ids (ob_rows o)).
Hypothesis same_ids : ids (ob_rows o') = ids (ob_rows o1).
Hypothesis row_after : forall x, x ∈ ob_rows o' ->
  (rm_id x ∈ ids items /\ rm_status x = "PUBLISHED") \/ (rm_id x ∉ ids items /\ x ∈ ob_rows o1).

Lemma o1_ids : ids (ob_rows o1) = ids (ob_rows o).
Proof. by apply change_ids. Qed.

Lemma o1_unique x y : x ∈ ob_rows o1 -> y ∈ ob_rows o1 -> rm_id x = rm_id y -> x = y.
Proof. apply NoDup_map_eq. by rewrite o1_ids. Qed.

(** The messages of the batch are not open any more. *)
Lemma open_rows_less : open_rows o' + llen items <= open_rows o.
Proof.
  unfold open_rows, llen. rewrite <- !(length_map rm_id), <- Nat2Z.inj_add, <- length_app. apply Nat2Z.inj_le.
  apply submseteq_length, NoDup_submseteq.
  - apply NoDup_app. split; [apply NoDup_map_select; by rewrite same_ids, o1_ids|]. split.
    + intros i Hi Ho. apply list_elem_of_In, in_map_iff in Hi as (x & <- & Hx).
      apply list_elem_of_In, elem_of_select in Hx as [Hx Op]. destruct (row_after x Hx) as [[_ S]|[S _]]; [|done].
      unfold open in Op. by rewrite S in Op.
    + apply oldest_ids. by rewrite o1_ids.
  - intros i Hi. apply elem_of_app in Hi.
    assert (X : exists x, x ∈ ob_rows o1 /\ open x = true /\ rm_id x = i).
    { destruct Hi as [Hi|Hi]; apply list_elem_of_In, in_map_iff in Hi as (x & <- & Hx); apply list_elem_of_In in Hx.
      - apply elem_of_select in Hx as [Hx Op]. destruct (row_after x Hx) as [[_ S]|[_ Hx1]]; [|by exists x].
        unfold open in Op. by rewrite S in Op.
      - apply elem_of_oldest in Hx as [Hx P]. exists x. split; [done|]. split; [|done]. apply (waiting_open b).
        unfold waiting. by rewrite P. }
    destruct X as (x & Hx & Op & <-). destruct (recovered_row a o x Hx) as (y & Hy & -> & _ & O & _).
    apply list_elem_of_In, in_map, list_elem_of_In, elem_of_select. auto.
Qed.

Lemma waiting_effect x : x ∈ ob_rows o -> waiting a x = true ->
  (forall p m, p ∈ items -> row_message p = Ok m -> m ∈ ob_accepted o') ->
  (exists y, y ∈ ob_rows o' /\ rm_id y = rm_id x /\ rm_status y = "PUBLISHED" /\
     forall m, row_message x = Ok m -> m ∈ ob_accepted o') \/
  (exists y, y ∈ ob_rows o' /\ rm_id y = rm_id x /\ row_message y = row_message x /\ waiting a y = true /\
     open_rows o' + limit <= open_rows o).
Proof.
  intros Hx W M'. set (x1 := if lease_expired a x then set_pending x else x).
  assert (H1 : x1 ∈ ob_rows o1) by (apply elem_of_update_where; by exists x).
  assert (E1 : rm_id x1 = rm_id x /\ row_message x1 = row_message x) by (unfold x1; by destruct (lease_expired a x)).
  destruct E1 as [Ei Em].
  assert (P1 : pending_due a x1 = true).
  { unfold x1, waiting in *. destruct (lease_expired a x) eqn:E; [|by rewrite orb_false_r in W].
    unfold lease_expired in E. apply andb_true_iff in E as [_ E]. unfold pending_due. cbn. exact E. }
  assert (P2 : pending_due b x1 = true).
  { unfold pending_due in *. apply andb_true_iff in P1 as [-> P1]. apply Z.leb_le in P1. apply Z.leb_le. lia. }
  destruct (found_by_id (ob_rows o) (ob_rows o') x) as (y & Hy & Ey); [by rewrite same_ids, o1_ids|done|].
  destruct (row_after y Hy) as [[Ry Sy]|[Ry Hy1]].
  - left. exists y. split_and!; try done. intros m Hm. rewrite Ey, <- Ei in Ry.
    apply list_elem_of_In, in_map_iff in Ry as (p & Ep & Hp). apply list_elem_of_In in Hp.
    apply (M' p); [done|]. rewrite <- Hm, <- Em. f_equal. apply o1_unique; [by apply elem_of_oldest in Hp as [? _]|done|done].
  - right. assert (y = x1) as -> by (apply o1_unique; congruence). exists x1. split_and!; try done.
    + unfold waiting. by rewrite P1.
    + pose proof open_rows_less as G. rewrite <- (oldest_full limit b o1 x1); [exact G|done|done|done|].
      intros X. apply Ry. by apply list_elem_of_In, in_map, list_elem_of_In.
Qed.

Lemma loop_effect :
  (forall x, x ∈ ob_rows o -> open x = true -> is_ok (row_message x) = true) ->
  (forall m, m ∈ ob_accepted o -> m ∈ ob_accepted o') ->
  (forall p m, p ∈ items -> row_message p = Ok m -> m ∈ ob_accepted o') ->
  batch_effect limit a o o'.
Proof.
  intros D A' M'. split; [by rewrite same_ids, o1_ids| | |done|].
  - intros x Hx Op. destruct (row_after x Hx) as [[_ S]|[_ Hx1]]; [unfold open in Op; by rewrite S in Op|].
    destruct (recovered_row a o x Hx1) as (y & Hy & _ & -> & O & _). auto.
  - intros x Hx S. destruct (found_by_id (ob_rows o) (ob_rows o') x) as (y & Hy & Ey); [by rewrite same_ids, o1_ids|done|].
    exists y. split; [done|]. split; [done|]. destruct (row_after y Hy) as [[_ Sy]|[_ Hy1]]; [done|].
    destruct (recovered_row a o y Hy1) as (z & Hz & Ez & _ & _ & Pz & _).
    assert (z = x) as -> by (eapply (NoDup_map_eq rm_id); [exact once|done|done|congruence]). by rewrite Pz.
  - intros x Hx W. by apply waiting_effect.
Qed.
End effect.

Lemma batch_runs limit n o : 1 <= limit <= 500 -> NoDup (ids (ob_rows o)) ->
  (forall x, x ∈ ob_rows o -> open x = true -> is_ok (row_message x) = true) ->
  exists res n' o', PublishBatch limit env n o = (Ok res, n', o') /\ (n <= n')%nat /\
    batch_effect limit (clock env n) o o'.
Proof.
  intros L N D. unfold PublishBatch, mbind at 1, M_bind at 1, attempt at 1.
  unfold recoverExpiredClaims, now at 1, mbind at 1, M_bind at 1, exec at 1, stmt at 1. rewrite faultless.
  set (o1 := change_rows _ _ o). unfold mbind at 1, M_bind at 1, attempt at 1, pending.
  unfold now at 1, mbind at 1, M_bind at 1, query at 1, stmt at 1. rewrite faultless.
  assert ((limit <=? 0) || (500 <? limit) = false) as -> by (apply orb_false_iff; split; [apply Z.leb_gt|apply Z.ltb_ge]; lia).
  set (b := UTC (clock env (S (S n)))). change (take _ _) with (oldest limit b o1). cbv beta iota.
  assert (I1 : ids (ob_rows o1) = ids (ob_rows o)) by (by apply change_ids).
  assert (N1 : NoDup (ids (ob_rows o1))) by (by rewrite I1).
  assert (Ab : UTC (clock env n) <= b) by (apply monotone; lia).
  assert (Due : forall p, p ∈ oldest limit b o1 -> p ∈ ob_rows o1 /\ rm_status p = "PENDING" /\ is_ok (row_message p) = true).
  { intros p Hp. apply elem_of_oldest in Hp as [H1 H2]. split; [done|]. unfold pending_due in H2.
    apply andb_true_iff in H2 as [H2 _]. apply String.eqb_eq in H2. split; [done|].
    destruct (recovered_row _ o p H1) as (y & Hy & _ & -> & O & _). apply D; [done|]. apply O. unfold open. by rewrite H2. }
  destruct (publish_loop_runs (oldest limit b o1) (mkTally 0 0 []) (S (S (S (S n)))) o1 N1 (oldest_ids _ _ _ N1) Due)
    as (res & n' & o' & E & Le & I' & R' & A' & M').
  rewrite E. exists res, n', o'. split; [done|]. split; [lia|].
  by eapply (loop_effect limit (UTC (clock env n)) b); try done; lia.
Qed.

(** The worker's loop, [k] times. *)
Fixpoint batches (k : nat) (limit : Z) : M unit :=
  match k with
  | O => mret tt
  | S k => _ ← PublishBatch limit; batches k limit
  end.

Lemma waiting_later at_ at' x : at_ <= at' -> waiting at_ x = true -> waiting at' x = true.
Proof.
  unfold waiting, pending_due, lease_expired. intros L W. apply orb_true_iff in W. apply orb_true_iff.
  destruct W as [W|W]; apply andb_true_iff in W as [W1 W2]; apply Z.leb_le in W2; [left|right];
    apply andb_true_iff; (split; [done|]); apply Z.leb_le; lia.
Qed.

Lemma batches_keep k limit : 1 <= limit <= 500 -> forall n o, NoDup (ids (ob_rows o)) ->
  (forall x, x ∈ ob_rows o -> open x = true -> is_ok (row_message x) = true) ->
  exists n' o', batches k limit env n o = (Ok tt, n', o') /\
    (forall m, m ∈ ob_accepted o -> m ∈ ob_accepted o') /\
    (forall x, x ∈ ob_rows o -> rm_status x = "PUBLISHED" ->
       exists y, y ∈ ob_rows o' /\ rm_id y = rm_id x /\ rm_status y = "PUBLISHED") /\
    (open_rows o <= Z.of_nat k * limit -> forall x, x ∈ ob_rows o -> waiting (clock env n) x = true ->
       exists y, y ∈ ob_rows o' /\ rm_id y = rm_id x /\ rm_status y = "PUBLISHED" /\
         forall m, row_message x = Ok m -> m ∈ ob_accepted o').
Proof.
  intros L. induction k as [|k IH]; intros n o N D.
  - exists n, o. split; [done|]. split; [done|]. split; [eauto|]. intros Z0 x Hx W. exfalso.
    assert (I : x ∈ select open (ob_rows o)) by (apply elem_of_select; split; [done|by eapply waiting_open]).
    unfold open_rows in Z0. destruct (select open (ob_rows o)) as [|y l]; [by apply elem_of_nil in I|].
    rewrite llen_cons in Z0. pose proof (llen_nonneg l). lia.
  - destruct (batch_runs limit n o L N D) as (res & n1 & o1 & E & Ln & [B1 B2 B3 B4 B5]).
    destruct (IH n1 o1) as (n' & o' & E' & A' & P' & W'); [by rewrite B1|done|].
    exists n', o'. cbn [batches]. unfold mbind at 1, M_bind at 1. rewrite E. split; [done|]. split; [auto|]. split.
    + intros x Hx S. destruct (B3 x Hx S) as (y & Hy & Ey & Sy). destruct (P' y Hy Sy) as (z & Hz & Ez & Sz).
      exists z. split_and!; congruence.
    + intros C x Hx W. destruct (B5 x Hx W) as [(y & Hy & Ey & Sy & My)|(y & Hy & Ey & My & Wy & Less)].
      * destruct (P' y Hy Sy) as (z & Hz & Ez & Sz). exists z. split_and!; [done|congruence|done|auto].
      * destruct (W' ltac:(lia) y Hy) as (z & Hz & Ez & Sz & Mz).
        { eapply waiting_later; [|exact Wy]. apply monotone. lia. }
        exists z. split_and!; [done|congruence|done|]. intros m Hm. apply Mz. congruence.
Qed.
End drain.

(** C23.  The outbox drains: while the database works and the broker accepts,
    every message that is due (the ones of a worker that died with its lease
    over included) is handed to the broker and marked as published after enough
    batches, [k] of [limit] messages for [k * limit] open ones, whatever the
    order of the rows and whatever becomes due in the meantime. *)
Theorem outbox_drains `{Bus} k limit env n o :
  no_faults env -> (forall i j, (i <= j)%nat -> clock env i <= clock env j) -> (forall n m, bus_answer n m = None) ->
  1 <= limit <= 500 -> NoDup (map rm_id (ob_rows o)) ->
  (forall x, x ∈ ob_rows o -> open x = true -> is_ok (row_message x) = true) ->
  open_rows o <= Z.of_nat k * limit ->
  exists n' o', batches k limit env n o = (Ok tt, n', o') /\
    forall x, x ∈ ob_rows o -> waiting (clock env n) x = true ->
      exists y, y ∈ ob_rows o' /\ rm_id y = rm_id x /\ rm_status y = "PUBLISHED" /\
        forall m, row_message x = Ok m -> m ∈ ob_accepted o'.
Proof.
  intros F Mono Acc L N D C. destruct (batches_keep env F Mono Acc k limit L n o N D) as (n' & o' & E & _ & _ & W).
  exists n', o'. split; [exact E|exact (W C)].
Qed.


(** ** The consumer *)

Record Delivery := mkDelivery {
  dv_Message : Message;
  dv_ProviderMessageID : string;
  dv_DeliveryAttempt : Z;
  dv_DecodeError : option error
}.

Record ConsumedRow := mkConsumed {
  cm_consumer_group : string;
  cm_event_id : string;
  cm_organization_id : option string;
  cm_topic : string;
  cm_event_type : string;
  cm_body_hash : string;
  cm_provider_message_id : string;
  cm_consumed_at : Time
}.

(** The table of the worker, and the tables [X] that the handlers change. *)
Record Inbox (X : Type) := mkInbox { consumed : list ConsumedRow; business : X }.
Arguments mkInbox {X}.
Arguments consumed {X}.
Arguments business {X}.

Definition ErrEventIdentityConflict : error := Sentinel "messageworker.ErrEventIdentityConflict".

Definition hash_part (value : string) : string :=
  bytes_string (be_bytes 8 (slen value)) +:+ value.
Definition messageHash (m : Message) : string :=
  Sum256hex (fold_right (fun v acc => hash_part v +:+ acc) ""
    [msg_OrganizationID m; msg_Topic m; msg_Type m; msg_Key m; msg_OrderingKey m; msg_Tag m; msg_Body m]).

Definition runner_retryDelay (attempt : Z) : Duration :=
  let attempt := if attempt <? 1 then 1 else attempt in
  let attempt := if 9 <? attempt then 9 else attempt in
  Z.shiftl 1 (attempt - 1) * Second.

(** The broker's side of a consumer: how it answers an acknowledgement and a
    request to deliver again after a delay. *)
Class Consumer := {
  Group : string;
  ack_answer : nat -> Delivery -> option error;
  retry_answer : nat -> Delivery -> Duration -> option error
}.

Section worker.
Context {X : Type} `{Consumer}.

Definition Handler : Type := Message -> Database.M X unit.
Notation W := (Database.M (Inbox X)).

Fixpoint register (l : list (string * Handler)) (registered : gmap string Handler) : result (gmap string Handler) :=
  match l with
  | [] => Ok registered
  | (rawType, handler) :: rest =>
    let eventType := TrimSpace rawType in
    if eventType =s "" then Err (Errorf "message worker handler type and function are required" [])
    else register rest (<[eventType := handler]> registered)
  end.

Definition newRunner (handlers : list (string * Handler)) : result (gmap string Handler) :=
  if TrimSpace Group =s "" then Err (Errorf "message worker consumer group is required" [])
  else
    registered ← register handlers ∅;
    if (size registered =? 0)%nat then Err (Errorf "message worker requires at least one handler" [])
    else Ok registered.

Definition answer (a : nat -> option error) : W unit := fun _ n s =>
  match a n with Some err => (Err err, S n, s) | None => (Ok tt, S n, s) end.

Definition Ack (d : Delivery) : W unit := answer (fun n => ack_answer n d).

Definition runner_retry (d : Delivery) (cause : error) : W unit :=
  r ← attempt (answer (fun n => retry_answer n d (runner_retryDelay (dv_DeliveryAttempt d))));
  match r with
  | Err err => fail (Join cause (Wrapf "schedule message retry: %w" [] err))
  | Ok _ => fail cause
  end.

Definition event_key (eventID : string) (r : ConsumedRow) : bool :=
  (cm_consumer_group r =s Group) && (cm_event_id r =s eventID).

Definition Seen (eventID bodyHash : string) : W bool :=
  existing ← attempt (queryR (fun s => select_row (event_key eventID) (consumed s)));
  match existing with
  | Err err => if errors_Is err ErrNoRows then mret false else fail err
  | Ok row =>
    if cm_body_hash row <>s bodyHash then
      fail (Wrapf "%w: group=%q event_id=%q" [FStr Group; FStr eventID] ErrEventIdentityConflict)
    else mret true
  end.

Definition insert_consumed (r : ConsumedRow) (s : Inbox X) : result (unit * Inbox X) :=
  if existsb (event_key (cm_event_id r)) (consumed s) then Err ErrDuplicate
  else Ok (tt, mkInbox (consumed s ++ [r]) (business s)).

Definition Mark (d : Delivery) (bodyHash : string) : W unit :=
  let m := dv_Message d in
  at_ ← now;
  stmt (insert_consumed (mkConsumed Group (msg_ID m) (nullIfEmpty (msg_OrganizationID m)) (msg_Topic m) (msg_Type m)
          bodyHash (dv_ProviderMessageID d) (UTC at_))).

(** [fmt.Errorf("handle event %q: %w", type, err)]. *)
Definition handle (handler : Handler) (m : Message) : W unit :=
  r ← attempt (zoom business (fun x s => mkInbox (consumed s) x) (handler m));
  match r with
  | Ok _ => mret tt
  | Err err => fail (Wrapf "handle event %q: %w" [FStr (msg_Type m)] err)
  end.

Variable handlers : gmap string Handler.

Definition process (d : Delivery) : W unit :=
  match dv_DecodeError d with
  | Some err => runner_retry d (Wrapf "malformed message: %w" [] err)
  | None =>
    let m := dv_Message d in
    match handlers !! msg_Type m with
    | None => runner_retry d (Errorf "no handler registered for event type %q" [FStr (msg_Type m)])
    | Some handler =>
      let hashValue := messageHash m in
      done ← attempt (WithTx (
        seen ← Seen (msg_ID m) hashValue;
        if (seen : bool) then mret tt
        else
          _ ← handle handler m;
          Mark d hashValue));
      match done with
      | Err err => runner_retry d err
      | Ok _ => Ack d
      end
    end
  end.

(** *** Each event takes effect once *)

(** The handlers of the messages, one after the other, each successful. *)
Inductive effects : X -> list Message -> X -> Prop :=
| effects_none x : effects x [] x
| effects_some x m handler e n n' x' ms x'' :
    handlers !! msg_Type m = Some handler -> handler m e n x = (Ok tt, n', x') ->
    effects x' ms x'' -> effects x (m :: ms) x''.

Definition taken (s : Inbox X) (eventID : string) : bool := existsb (event_key eventID) (consumed s).

Lemma answer_state a e n (s : Inbox X) : (answer a e n s).2 = s.
Proof. unfold answer. by destruct (a n). Qed.

Lemma runner_retry_state d cause e n (s : Inbox X) :
  exists err n', runner_retry d cause e n s = (Err err, n', s).
Proof.
  unfold runner_retry, mbind, M_bind, attempt. pose proof (answer_state (fun n => retry_answer n d (runner_retryDelay (dv_DeliveryAttempt d))) e n s) as A.
  destruct (answer _ e n s) as [[[u|err] n1] s1]; cbn in A; subst s1; by eexists _, _.
Qed.

Lemma Seen_ok i h e n s b n' s' : Seen i h e n s = (Ok b, n', s') -> s' = s /\ (b = true -> taken s i = true).
Proof.
  intros Es. unfold Seen in Es. apply bind_ok in Es as (row & n3 & s3 & Eq & Es). apply attempt_inv in Eq.
  assert (s3 = s) as ->.
  { pose proof (keeps_queryR (fun x => x = s) (fun s => select_row (event_key i) (consumed s)) e n s eq_refl) as K.
    by rewrite Eq in K. }
  destruct row as [row|err].
  - destruct (cm_body_hash row <>s h); [by apply fail_ok in Es|]. apply ret_ok in Es as (<- & _ & <-).
    split; [done|]. intros _. apply queryR_ok in Eq as (_ & _ & Eq & _). apply select_row_ok in Eq as [Hrow Hk].
    unfold taken. apply existsb_exists. exists row. split; [by apply list_elem_of_In|done].
  - destruct (errors_Is err ErrNoRows); [|by apply fail_ok in Es]. apply ret_ok in Es as (<- & _ & <-). done.
Qed.

Lemma handle_ok handler m e n s u n' s' : handle handler m e n s = (Ok u, n', s') ->
  exists x' n1, handler m e n (business s) = (Ok tt, n1, x') /\ s' = mkInbox (consumed s) x'.
Proof.
  unfold handle. intros E. apply bind_ok in E as (r & n1 & s1 & E1 & E). apply attempt_inv in E1. unfold zoom in E1.
  destruct (handler m e n (business s)) as [[r0 n0] x0] eqn:Eh. injection E1 as <- <- <-.
  destruct r0 as [[]|err]; [|by apply fail_ok in E]. apply ret_ok in E as (_ & _ & <-). by exists x0, n0.
Qed.

Lemma Mark_ok d h e n s u n' s' : Mark d h e n s = (Ok u, n', s') ->
  taken s (msg_ID (dv_Message d)) = false /\ business s' = business s /\
  forall i, taken s' i = taken s i || (msg_ID (dv_Message d) =s i).
Proof.
  unfold Mark. intros E. apply bind_ok in E as (at_ & n1 & s1 & E1 & E). apply now_ok in E1 as (_ & _ & <-).
  apply stmt_ok in E as (_ & _ & E). unfold insert_consumed in E. cbn [cm_event_id] in E.
  destruct (existsb _ _) eqn:B; [discriminate|]. injection E as <- <-. split; [done|]. split; [done|]. intros i.
  unfold taken. cbn [consumed]. rewrite existsb_app. cbn. unfold event_key at 2. cbn. by rewrite seqb_refl, orb_false_r.
Qed.

(** One delivery: nothing changes, or the event takes effect and is marked. *)
Lemma process_cases d e n s r n' s' : in_tx e = false -> process d e n s = (r, n', s') ->
  (s' = s /\ (r = Ok tt -> taken s (msg_ID (dv_Message d)) = true)) \/
  (taken s (msg_ID (dv_Message d)) = false /\
   (forall i, taken s' i = taken s i || (msg_ID (dv_Message d) =s i)) /\
   effects (business s) [dv_Message d] (business s')).
Proof.
  intros T Hr. unfold process in Hr. set (m := dv_Message d) in *.
  assert (Failed : forall cause n s, runner_retry d cause e n s = (r, n', s') -> s' = s /\ (r = Ok tt -> False)).
  { intros cause n0 s0 E0. destruct (runner_retry_state d cause e n0 s0) as (? & ? & E). rewrite E in E0.
    by injection E0 as <- _ <-. }
  destruct (dv_DecodeError d) as [err|]; [left; apply Failed in Hr as [-> F]; split; [done|by intros X1%F]|].
  destruct (handlers !! msg_Type m) as [handler|] eqn:Hh; [|left; apply Failed in Hr as [-> F]; split; [done|by intros X1%F]].
  unfold mbind at 1, M_bind at 1, attempt at 1 in Hr.
  match type of Hr with context [WithTx ?b e n s] => destruct (WithTx b e n s) as [[[[]|err] n1] s1] eqn:E end.
  - assert (S' : s' = s1) by (pose proof (answer_state (fun n => ack_answer n d) e n1 s1) as A; unfold Ack in Hr; by rewrite Hr in A).
    subst s'. apply WithTx_run in E as (e' & n0 & k & _ & E).
    apply bind_ok in E as (seen & n2 & s2 & Es & E). apply Seen_ok in Es as [-> Hs]. destruct seen.
    + apply ret_ok in E as (_ & _ & <-). left. auto.
    + apply bind_ok in E as (u & n4 & s4 & Eh & E). apply handle_ok in Eh as (x' & n5 & Eh & ->).
      apply Mark_ok in E as (M1 & M2 & M3). right. split; [done|]. split; [done|]. rewrite M2. cbn.
      by apply (effects_some _ m handler e' n2 n5 x'); [..|constructor].
  - left. apply Failed in Hr as [-> F]. split; [by apply WithTx_atomic in E|by intros X1%F].
Qed.

(** Deliveries as they come, the same one any number of times. *)
Fixpoint process_all (ds : list Delivery) : W (list (result unit)) :=
  match ds with
  | [] => mret []
  | d :: ds => r ← attempt (process d); rest ← process_all ds; mret (r :: rest)
  end.

Lemma effects_app x ms x1 ms' x2 : effects x ms x1 -> effects x1 ms' x2 -> effects x (ms ++ ms') x2.
Proof. induction 1; [done|]. intros. cbn. econstructor; eauto. Qed.
End worker.

(** C24.  Every event takes effect at most once, and an acknowledged one has:
    whatever is delivered, in whatever order and however often, and whatever
    fails, the business tables are what the handlers make of a list of messages
    with distinct identifiers, all of them delivered and none of them taken
    before; an event whose delivery is acknowledged is taken from then on. *)
Theorem events_take_effect_once {X} `{Consumer} (handlers : gmap string (@Handler X)) ds e n s outcomes n' s' :
  in_tx e = false -> process_all handlers ds e n s = (Ok outcomes, n', s') ->
  (exists applied, NoDup (map msg_ID applied) /\
     (forall m, m ∈ applied -> m ∈ map dv_Message ds /\ taken s (msg_ID m) = false /\ taken s' (msg_ID m) = true) /\
     effects handlers (business s) applied (business s')) /\
  (forall i, taken s i = true -> taken s' i = true) /\
  Forall2 (fun d r => r = Ok tt -> taken s' (msg_ID (dv_Message d)) = true) ds outcomes.
Proof.
  intros T. revert n n' s outcomes. induction ds as [|d ds IH]; intros n n' s outcomes E; cbn [process_all] in E.
  - apply ret_ok in E as (<- & _ & <-). split; [|split; [done|constructor]].
    exists []. split; [constructor|]. split; [by intros m Hm; apply elem_of_nil in Hm|constructor].
  - apply bind_ok in E as (r & n1 & s1 & E1 & E). apply attempt_inv in E1.
    apply bind_ok in E as (rest & n2 & s2 & E2 & E). apply ret_ok in E as (<- & _ & <-).
    destruct (IH _ _ _ _ E2) as ((applied & N & P & F) & K & R).
    destruct (process_cases handlers d e n s r n1 s1 T E1) as [[-> Ack1]|(Fresh & T1 & F1)].
    + split; [|split; [done|constructor; [auto|done]]]. exists applied. split; [done|]. split; [|done].
      intros m Hm. destruct (P m Hm) as (P1 & P2 & P3). split; [by right|done].
    + assert (Now : taken s2 (msg_ID (dv_Message d)) = true) by (apply K; by rewrite T1, seqb_refl, orb_true_r).
      assert (Old : forall i, taken s1 i = false -> taken s i = false /\ i <> msg_ID (dv_Message d)).
      { intros i Hi. rewrite T1 in Hi. apply orb_false_iff in Hi as [Hi Hn]. split; [done|].
        apply String.eqb_neq in Hn. congruence. }
      split; [|split; [intros i Hi; apply K; by rewrite T1, Hi|by constructor]].
      exists (dv_Message d :: applied). split; [|split].
      * cbn. apply NoDup_cons. split; [|done]. intros I. apply list_elem_of_In, in_map_iff in I as (m & Em & Hm).
        apply list_elem_of_In in Hm. destruct (P m Hm) as (_ & P2 & _). by apply Old in P2 as [_ ?].
      * intros m Hm. apply elem_of_cons in Hm as [->|Hm]; [split; [by left|done]|].
        destruct (P m Hm) as (P1 & P2 & P3). split; [by right|]. split; [by apply Old in P2 as [? _]|done].
      * exact (effects_app handlers _ [dv_Message d] _ applied _ F1 F).
Qed.

(** ** Samples *)

Module examples.
(** A broker that takes everything. *)
Definition open_bus : Bus := {| bus_answer := fun _ _ => None; error_text := fun _ => "refused" |}.
Definition env : Env := mkEnv (fun n => Z.of_nat n) (fun n => Itoa (Z.of_nat n)) (fun _ => None) (fun _ _ => zero) false.

Definition row (id status : string) (next created : Time) : MessageRow :=
  mkMessageRow id (Some "org") "orders" id "order.paid" "" "" None "{}" "{}" status 0 next created None "".

(** A due message, one whose worker died, one to be tried later, one that is done. *)
Definition outbox : Outbox :=
  mkOutbox [row "m1" "PENDING" 4 4; row "m2" "PROCESSING" 3 1; row "m3" "PENDING" 1000000 2; row "m4" "PUBLISHED" 0 0] [].

(** A group whose acknowledgements fail at the ticks before the eighth. *)
Definition consumer : Consumer := {|
  Group := "billing";
  ack_answer := fun n _ => if (n <? 8)%nat then Some (Errorf "connection lost" []) else None;
  retry_answer := fun _ _ _ => None
|}.

Definition event (id : string) : Message := mkMessage id "org" "orders" id "order.paid" "{}" ∅ "" "" 0.
Definition delivery (id : string) : Delivery := mkDelivery (event id) "provider" 1 None.
(** The handler counts the events. *)
Definition count (m : Message) : Database.M Z unit := exec (fun x => x + 1).
Definition handlers : gmap string (Message -> Database.M Z unit) := {["order.paid" := count]}.
Definition inbox : Inbox Z := mkInbox [] 0.
End examples.
#[local] Existing Instances examples.open_bus examples.consumer.

Lemma outbox_drains_witness :
  exists n' o', batches 2 2 examples.env 5%nat examples.outbox = (Ok tt, n', o') /\
    exists y, y ∈ ob_rows o' /\ rm_id y = "m2" /\ rm_status y = "PUBLISHED" /\
      forall m, row_message (examples.row "m2" "PROCESSING" 3 1) = Ok m -> m ∈ ob_accepted o'.
Proof.
  destruct (outbox_drains 2 2 examples.env 5%nat examples.outbox) as (n' & o' & E & W).
  - exact (fun _ => eq_refl).
  - intros i j L. cbn. lia.
  - exact (fun _ _ => eq_refl).
  - lia.
  - cbn. repeat constructor; set_solver.
  - intros x Hx _. repeat (apply elem_of_cons in Hx as [->|Hx]; [vm_compute; reflexivity|]). by apply elem_of_nil in Hx.
  - vm_compute. discriminate.
  - exists n', o'. split; [exact E|].
    apply (W (examples.row "m2" "PROCESSING" 3 1)); [by right; left|vm_compute; reflexivity].
Defined.

(** The first acknowledgement is lost, the event is delivered again, and counted once. *)
Lemma events_take_effect_once_witness :
  let ds := [examples.delivery "e1"; examples.delivery "e1"; examples.delivery "e2"] in
  exists outcomes n' s', process_all examples.handlers ds examples.env 0%nat examples.inbox = (Ok outcomes, n', s') /\
    outcomes = [Err (Errorf "connection lost" []); Ok tt; Ok tt] /\ business s' = 2 /\
    exists applied, NoDup (map msg_ID applied) /\ effects examples.handlers 0 applied (business s').
Proof.
  intros ds. destruct (process_all examples.handlers ds examples.env 0%nat examples.inbox) as [[r n'] s'] eqn:E.
  assert (R : (r, n', s') = process_all examples.handlers ds examples.env 0%nat examples.inbox) by (symmetry; exact E).
  vm_compute in R.
  destruct r as [outcomes|err]; [|discriminate R]. exists outcomes, n', s'. split; [reflexivity|].
  destruct (events_take_effect_once examples.handlers ds examples.env 0%nat examples.inbox outcomes n' s' eq_refl E)
    as ((applied & N & _ & F) & _ & _).
  injection R as -> -> ->. split; [reflexivity|]. split; [reflexivity|].
  exists applied. split; [exact N|exact F].
Defined.

(** A worker whose lease ran out while it was publishing does not notice: its
    failure puts a message that another worker has published back to pending,
    and it will be published again. *)
Example a_stalled_worker_reopens_a_message :
  let stale := examples.row "m1" "PENDING" 0 0 in
  let o := mkOutbox [set_published 7 stale] [] in
  map rm_status (ob_rows (retry stale "timeout" examples.env 0%nat o).2) = ["PENDING"].
Proof. reflexivity. Qed.
