(* ===== verification/JobControl.v ===== *)
(** * Job control

    The package [internal/platform/jobcontrol]: the state machine of a job run
    ([Apply]), its validation, the bounded exponential backoff of a retry and
    the audited transition ([ApplyWithAudit]). *)

From S2P Require Import Prelude GoString.

(** ** Data *)

(** [type State string] and [type Action string] are open types in the source,
    so they stay strings; the constants are those of the package. *)
Definition State := string.
Definition Action := string.

Definition StatePending : State := "PENDING".
Definition StateRunning : State := "RUNNING".
Definition StateSucceeded : State := "SUCCEEDED".
Definition StateFailed : State := "FAILED".
Definition StateDeadLetter : State := "DEAD_LETTER".
Definition StateCompensationPending : State := "COMPENSATION_PENDING".
Definition StateCompensating : State := "COMPENSATING".
Definition StateCompensated : State := "COMPENSATED".
Definition StateRollbackPending : State := "ROLLBACK_PENDING".
Definition StateRollingBack : State := "ROLLING_BACK".
Definition StateRolledBack : State := "ROLLED_BACK".
Definition StateCancelled : State := "CANCELLED".

Definition ActionStart : Action := "START".
Definition ActionSucceed : Action := "SUCCEED".
Definition ActionFail : Action := "FAIL".
Definition ActionRetry : Action := "RETRY".
Definition ActionRequestCompensation : Action := "REQUEST_COMPENSATION".
Definition ActionStartCompensation : Action := "START_COMPENSATION".
Definition ActionCompleteCompensation : Action := "COMPLETE_COMPENSATION".
Definition ActionRequestRollback : Action := "REQUEST_ROLLBACK".
Definition ActionStartRollback : Action := "START_ROLLBACK".
Definition ActionCompleteRollback : Action := "COMPLETE_ROLLBACK".
Definition ActionCancel : Action := "CANCEL".

(** The struct [Definition] (the name is a keyword of Rocq). *)
Record JobDefinition := mkJobDefinition {
  def_Name : string;
  def_MaxAttempts : Z;
  def_RetryBaseDelay : Duration;
  def_RetryMaxDelay : Duration;
  def_RequiresApproval : bool;
  def_RequiresCompensation : bool
}.

Record Run := mkRun {
  run_ID : string;
  run_JobName : string;
  run_OrganizationID : string;
  run_IdempotencyKey : string;
  run_State : State;
  run_Attempt : Z;
  run_MaxAttempts : Z;
  run_NextAttemptAt : Time;
  run_ApprovalID : string;
  run_RequestedBy : string;
  run_LastError : string;
  run_UpdatedAt : Time
}.

#[export] Instance Run_eta : Eta Run := fun r =>
  mkRun (run_ID r) (run_JobName r) (run_OrganizationID r) (run_IdempotencyKey r)
    (run_State r) (run_Attempt r) (run_MaxAttempts r) (run_NextAttemptAt r)
    (run_ApprovalID r) (run_RequestedBy r) (run_LastError r) (run_UpdatedAt r).

Record Request := mkRequest {
  req_Action : Action;
  req_At : Time;
  req_ActorID : string;
  req_ApprovalID : string;
  req_Cause : string
}.

Record AuditEntry := mkAuditEntry {
  entry_RunID : string;
  entry_JobName : string;
  entry_Action : Action;
  entry_Before : State;
  entry_After : State;
  entry_ActorID : string;
  entry_ApprovalID : string;
  entry_At : Time;
  entry_IdempotencyKey : string;
  entry_Cause : string
}.

(** ** Validation *)

Definition ValidateDefinition (def : JobDefinition) : result unit :=
  if TrimSpace (def_Name def) =s "" then
    Err (Errorf "job definition name is required" [])
  else if (def_MaxAttempts def <? 1) || (100 <? def_MaxAttempts def) then
    Err (Errorf "job max attempts must be between 1 and 100" [])
  else if (def_RetryBaseDelay def <? Second) || (24 * Hour <? def_RetryBaseDelay def) then
    Err (Errorf "job retry base delay must be between 1 second and 24 hours" [])
  else if (def_RetryMaxDelay def <? def_RetryBaseDelay def) || (7 * 24 * Hour <? def_RetryMaxDelay def) then
    Err (Errorf "job retry max delay must be at least the base delay and no more than 7 days" [])
  else Ok tt.

Definition ValidateRun (def : JobDefinition) (run : Run) : result unit :=
  match ValidateDefinition def with
  | Err e => Err e
  | Ok _ =>
    if (TrimSpace (run_ID run) =s "") || (TrimSpace (run_JobName run) =s "") ||
       (TrimSpace (run_IdempotencyKey run) =s "") then
      Err (Errorf "job run id, job name, and idempotency key are required" [])
    else if run_JobName run <>s def_Name def then
      Err (Errorf "job run definition mismatch" [])
    else if negb (run_MaxAttempts run =? def_MaxAttempts def) then
      Err (Errorf "job run max attempts must match the definition" [])
    else if (run_Attempt run <? 0) || (run_MaxAttempts run <? run_Attempt run) then
      Err (Errorf "job run attempt is outside the definition limit" [])
    else Ok tt
  end.

(** ** Helpers *)

Definition requiresApproval (action : Action) : bool :=
  (action =s ActionRequestCompensation) || (action =s ActionStartCompensation) ||
  (action =s ActionRequestRollback) || (action =s ActionStartRollback) ||
  (action =s ActionCompleteRollback) || (action =s ActionCancel).

(** The loop [for i := 1; i < attempt; i++] of [retryDelay], [n] iterations
    left.  [delay *= 2] is an [int64] product. *)
Fixpoint retryLoop (n : nat) (max delay : Duration) : Duration :=
  match n with
  | O => if max <? delay then max else delay
  | S n => if max ÷ 2 <=? delay then max else retryLoop n max (wrap64 (delay * 2))
  end.

Definition retryDelay (def : JobDefinition) (attempt : Z) : Duration :=
  retryLoop (Z.to_nat (attempt - 1)) (def_RetryMaxDelay def) (def_RetryBaseDelay def).

Definition invalidTransition (state : State) (action : Action) : error :=
  Errorf "job action %q is not allowed from state %q" [FStr action; FStr state].

(** [value[:max]] when the string is longer than [max] bytes. *)
Definition truncate (value : string) (max : nat) : string :=
  if (String.length value <=? max)%nat then value else stake max value.

(** ** The transition *)

(** The fields every accepted transition sets, before the switch on the
    action. *)
Definition stamp (run : Run) (req : Request) : Run :=
  let next := run <| run_UpdatedAt := UTC (req_At req) |>
                  <| run_ApprovalID := TrimSpace (req_ApprovalID req) |>
                  <| run_RequestedBy := req_ActorID req |> in
  if req_Cause req =s "" then next
  else next <| run_LastError := truncate (req_Cause req) 1000 |>.

(** The [switch req.Action] of [Apply]. *)
Definition step (def : JobDefinition) (run : Run) (req : Request) : result Run :=
  let next := stamp run req in
  let invalid := Err (invalidTransition (run_State run) (req_Action req)) in
  let action := req_Action req in
  if action =s ActionStart then
    if run_State run <>s StatePending then invalid
    else Ok (next <| run_State := StateRunning |> <| run_Attempt := 1 |>)
  else if action =s ActionSucceed then
    if run_State run <>s StateRunning then invalid
    else Ok (next <| run_State := StateSucceeded |> <| run_LastError := "" |>)
  else if action =s ActionFail then
    if run_State run <>s StateRunning then invalid
    else if TrimSpace (req_Cause req) =s "" then
      Err (Errorf "failed job transition requires a cause" [])
    else if run_MaxAttempts run <=? run_Attempt run then
      Ok (next <| run_State := StateDeadLetter |> <| run_NextAttemptAt := zeroTime |>)
    else
      Ok (next <| run_State := StateFailed |>
               <| run_NextAttemptAt := timeAdd (UTC (req_At req)) (retryDelay def (run_Attempt run)) |>)
  else if action =s ActionRetry then
    if (run_State run <>s StateFailed) || (run_MaxAttempts run <=? run_Attempt run) then invalid
    else if Before (req_At req) (run_NextAttemptAt run) then
      Err (Errorf "job retry backoff has not elapsed" [])
    else
      Ok (next <| run_State := StateRunning |> <| run_Attempt := wrap64 (run_Attempt run + 1) |>
               <| run_NextAttemptAt := zeroTime |>)
  else if action =s ActionRequestCompensation then
    if negb (def_RequiresCompensation def) ||
       ((run_State run <>s StateFailed) && (run_State run <>s StateDeadLetter)) then invalid
    else Ok (next <| run_State := StateCompensationPending |>)
  else if action =s ActionStartCompensation then
    if run_State run <>s StateCompensationPending then invalid
    else Ok (next <| run_State := StateCompensating |>)
  else if action =s ActionCompleteCompensation then
    if run_State run <>s StateCompensating then invalid
    else Ok (next <| run_State := StateCompensated |>)
  else if action =s ActionRequestRollback then
    if run_State run <>s StateSucceeded then invalid
    else Ok (next <| run_State := StateRollbackPending |>)
  else if action =s ActionStartRollback then
    if run_State run <>s StateRollbackPending then invalid
    else Ok (next <| run_State := StateRollingBack |>)
  else if action =s ActionCompleteRollback then
    if run_State run <>s StateRollingBack then invalid
    else Ok (next <| run_State := StateRolledBack |>)
  else if action =s ActionCancel then
    if (run_State run <>s StatePending) && (run_State run <>s StateFailed) &&
       (run_State run <>s StateDeadLetter) then invalid
    else Ok (next <| run_State := StateCancelled |>)
  else Err (Errorf "unsupported job action %q" [FStr action]).

Definition Apply (def : JobDefinition) (run : Run) (req : Request) : result (Run * AuditEntry) :=
  match ValidateRun def run with
  | Err e => Err e
  | Ok _ =>
    if (TrimSpace (req_ActorID req) =s "") || IsZero (req_At req) then
      Err (Errorf "job transition actor and timestamp are required" [])
    else if requiresApproval (req_Action req) && (TrimSpace (req_ApprovalID req) =s "") then
      Err (Errorf "job transition approval is required" [])
    else if def_RequiresApproval def && (req_Action req =s ActionStart) &&
            (TrimSpace (req_ApprovalID req) =s "") then
      Err (Errorf "job start approval is required" [])
    else match step def run req with
         | Err e => Err e
         | Ok next =>
           Ok (next,
             mkAuditEntry (run_ID run) (run_JobName run) (req_Action req) (run_State run)
               (run_State next) (req_ActorID req) (TrimSpace (req_ApprovalID req))
               (UTC (req_At req)) (run_IdempotencyKey run) (truncate (req_Cause req) 1000))
         end
  end.

(** [ApplyWithAudit]: [auditor] is [None] for a nil interface, otherwise the
    answer of [Record] on the entry. *)
Definition ApplyWithAudit (auditor : option (AuditEntry -> option error))
    (def : JobDefinition) (run : Run) (req : Request) : result Run :=
  match auditor with
  | None => Err (Errorf "job transition auditor is required" [])
  | Some record =>
    match Apply def run req with
    | Err e => Err e
    | Ok (next, entry) =>
      match record entry with
      | Some e => Err (Wrapf "record job transition audit: %w" [] e)
      | None => Ok next
      end
    end
  end.

(** ** Specification: the transition relation

    One rule per action, over the state and the attempt counter, with the
    conditions under which the action is accepted. *)
Inductive transition (def : JobDefinition) (run : Run) (req : Request) : Run -> Prop :=
| T_start :
    req_Action req = ActionStart -> run_State run = StatePending ->
    transition def run req ((stamp run req) <| run_State := StateRunning |> <| run_Attempt := 1 |>)
| T_succeed :
    req_Action req = ActionSucceed -> run_State run = StateRunning ->
    transition def run req ((stamp run req) <| run_State := StateSucceeded |> <| run_LastError := "" |>)
| T_fail_dead :
    req_Action req = ActionFail -> run_State run = StateRunning ->
    TrimSpace (req_Cause req) <> "" -> run_MaxAttempts run <= run_Attempt run ->
    transition def run req
      ((stamp run req) <| run_State := StateDeadLetter |> <| run_NextAttemptAt := zeroTime |>)
| T_fail_retryable :
    req_Action req = ActionFail -> run_State run = StateRunning ->
    TrimSpace (req_Cause req) <> "" -> run_Attempt run < run_MaxAttempts run ->
    transition def run req
      ((stamp run req) <| run_State := StateFailed |>
         <| run_NextAttemptAt := req_At req + retryDelay def (run_Attempt run) |>)
| T_retry :
    req_Action req = ActionRetry -> run_State run = StateFailed ->
    run_Attempt run < run_MaxAttempts run -> run_NextAttemptAt run <= req_At req ->
    transition def run req
      ((stamp run req) <| run_State := StateRunning |>
         <| run_Attempt := wrap64 (run_Attempt run + 1) |> <| run_NextAttemptAt := zeroTime |>)
| T_plain after :
    (req_Action req, run_State run, after) ∈
      [ (ActionStartCompensation, StateCompensationPending, StateCompensating);
        (ActionCompleteCompensation, StateCompensating, StateCompensated);
        (ActionRequestRollback, StateSucceeded, StateRollbackPending);
        (ActionStartRollback, StateRollbackPending, StateRollingBack);
        (ActionCompleteRollback, StateRollingBack, StateRolledBack);
        (ActionCancel, StatePending, StateCancelled);
        (ActionCancel, StateFailed, StateCancelled);
        (ActionCancel, StateDeadLetter, StateCancelled) ] ->
    transition def run req ((stamp run req) <| run_State := after |>)
| T_compensate :
    req_Action req = ActionRequestCompensation -> def_RequiresCompensation def = true ->
    (run_State run = StateFailed \/ run_State run = StateDeadLetter) ->
    transition def run req ((stamp run req) <| run_State := StateCompensationPending |>).

(** The approval an action needs: the destructive actions always, the start
    when the definition asks for it. *)
Definition approval_ok (def : JobDefinition) (req : Request) : Prop :=
  (requiresApproval (req_Action req) = true -> TrimSpace (req_ApprovalID req) <> "") /\
  (def_RequiresApproval def = true -> req_Action req = ActionStart ->
   TrimSpace (req_ApprovalID req) <> "").

(** ** Lemmas *)

Ltac solve_member := repeat first [ left; reflexivity | right ].

Lemma step_sound def run req next : step def run req = Ok next -> transition def run req next.
Proof.
  unfold step; intros H.
  guards H; injection H as <-; breflect; subst;
    repeat match goal with
    | E : orb _ _ = true |- _ => apply orb_true_iff in E as [E|E]
    | E : andb _ _ = false |- _ => apply andb_false_iff in E as [E|E]
    end; breflect;
    first [ apply T_start; done | apply T_succeed; done | apply T_fail_dead; auto; lia
          | apply T_fail_retryable; auto; lia | apply T_retry; auto; lia
          | apply T_compensate; auto; done
          | apply T_plain;
            repeat match goal with E : _ = _ |- _ => rewrite E; clear E end;
            rewrite ?elem_of_cons; tauto ].
Qed.

Lemma step_complete def run req next : transition def run req next -> step def run req = Ok next.
Proof.
  intros H; unfold step; destruct H; split_members;
    repeat match goal with
    | E : req_Action req = _ |- _ => rewrite E; clear E
    | E : run_State run = _ |- _ => rewrite E; clear E
    | E : def_RequiresCompensation def = _ |- _ => rewrite E; clear E
    | E : TrimSpace _ <> "" |- _ => apply seqb_neq in E; rewrite E; clear E
    end; eval_strings; try reflexivity.
  all: goal_guards; unfold Before in *; try reflexivity; lia.
Qed.

(** [Apply] is validation, then the authorisation of the request, then the
    switch. *)
Lemma job_Apply_inv def run req next entry :
  Apply def run req = Ok (next, entry) ->
  ValidateRun def run = Ok tt /\ TrimSpace (req_ActorID req) <> "" /\ req_At req <> 0 /\
  approval_ok def req /\ step def run req = Ok next /\
  entry = mkAuditEntry (run_ID run) (run_JobName run) (req_Action req) (run_State run)
            (run_State next) (req_ActorID req) (TrimSpace (req_ApprovalID req))
            (req_At req) (run_IdempotencyKey run) (truncate (req_Cause req) 1000).
Proof.
  unfold Apply; intros H.
  destruct (ValidateRun def run) as [[]|] eqn:V; [|discriminate].
  guards H. destruct (step def run req) as [next'|] eqn:S; [|discriminate].
  injection H as <- <-. breflect.
  repeat split; auto; intros Ha; [intros|intros Hs].
  - apply String.eqb_neq. rewrite Ha in *. done.
  - apply String.eqb_neq. rewrite Hs, Ha in *. eval_strings. done.
Qed.

(** What an accepted transition leaves alone. *)
Lemma transition_frame def run req next :
  transition def run req next ->
  run_ID next = run_ID run /\ run_JobName next = run_JobName run /\
  run_OrganizationID next = run_OrganizationID run /\
  run_IdempotencyKey next = run_IdempotencyKey run /\ run_MaxAttempts next = run_MaxAttempts run.
Proof. destruct 1; unfold stamp; destruct (req_Cause req =s ""); cbn; auto. Qed.

Lemma stamp_attempt run req :
  run_Attempt (stamp run req) = run_Attempt run /\ run_MaxAttempts (stamp run req) = run_MaxAttempts run.
Proof. unfold stamp; destruct (req_Cause req =s ""); cbn; auto. Qed.

Lemma ValidateRun_inv def run :
  ValidateRun def run = Ok tt ->
  ValidateDefinition def = Ok tt /\ run_JobName run = def_Name def /\
  run_MaxAttempts run = def_MaxAttempts def /\ 0 <= run_Attempt run <= run_MaxAttempts run.
Proof.
  unfold ValidateRun; intros H.
  destruct (ValidateDefinition def) as [[]|]; [|discriminate].
  guards H. breflect. repeat split; auto; lia.
Qed.

Lemma ValidateDefinition_inv def :
  ValidateDefinition def = Ok tt ->
  1 <= def_MaxAttempts def <= 100 /\ Second <= def_RetryBaseDelay def /\
  def_RetryBaseDelay def <= def_RetryMaxDelay def <= 7 * 24 * Hour.
Proof. unfold ValidateDefinition; intros H. guards H. breflect. lia. Qed.

(** ** Runs of the machine *)

(** A run as it is created: pending, no attempt made. *)
Definition fresh (run : Run) : Prop := run_State run = StatePending /\ run_Attempt run = 0.

(** A sequence of accepted transitions, with the audit entries it produced. *)
Inductive trace (def : JobDefinition) : Run -> list AuditEntry -> Run -> Prop :=
| trace_nil run : trace def run [] run
| trace_snoc run entries mid req next entry :
    trace def run entries mid -> Apply def mid req = Ok (next, entry) ->
    trace def run (entries ++ [entry]) next.

(** The starts of the job's work that the audit trail shows. *)
Definition started (entry : AuditEntry) : bool := entry_After entry =s StateRunning.

(** The invariant of every run: its state is one of the package's, and the
    attempt counter agrees with it. *)
Inductive consistent (run : Run) : Prop :=
| C_pending : run_State run = StatePending -> run_Attempt run = 0 -> consistent run
| C_running : run_State run = StateRunning -> 1 <= run_Attempt run <= run_MaxAttempts run -> consistent run
| C_failed : run_State run = StateFailed -> 1 <= run_Attempt run < run_MaxAttempts run -> consistent run
| C_dead : run_State run = StateDeadLetter -> run_Attempt run = run_MaxAttempts run -> consistent run
| C_final :
    run_State run ∈ [StateSucceeded; StateCompensationPending; StateCompensating; StateCompensated;
                     StateRollbackPending; StateRollingBack; StateRolledBack; StateCancelled] ->
    0 <= run_Attempt run <= run_MaxAttempts run -> consistent run.

(** The work left: it bounds the transitions a run can still make. *)
Definition rank (run : Run) : Z :=
  let left := run_MaxAttempts run - run_Attempt run in
  if run_State run =s StatePending then 2 * run_MaxAttempts run + 6
  else if run_State run =s StateRunning then 2 * left + 5
  else if run_State run =s StateFailed then 2 * left + 4
  else if run_State run =s StateDeadLetter then 4
  else if run_State run =s StateSucceeded then 4
  else if run_State run =s StateCompensationPending then 3
  else if run_State run =s StateRollbackPending then 3
  else if run_State run =s StateCompensating then 2
  else if run_State run =s StateRollingBack then 2
  else if run_State run =s StateRolledBack then 1
  else 0.

Lemma transition_consistent def run req next :
  ValidateRun def run = Ok tt -> consistent run -> transition def run req next ->
  consistent next /\ rank next < rank run /\ 0 <= rank next /\
  run_Attempt next =
    run_Attempt run + (if run_State next =s StateRunning then 1 else 0).
Proof.
  intros V C T.
  apply ValidateRun_inv in V as (D & _ & M & A). apply ValidateDefinition_inv in D as (Dm & _).
  assert (W : wrap64 (run_Attempt run + 1) = run_Attempt run + 1)
    by (apply wrap64_id; unfold minInt64, maxInt64; lia).
  destruct (stamp_attempt run req) as [Sa Sm].
  destruct T; split_members; destruct C; split_members;
    repeat match goal with
    | E : run_State run = ?a, F : run_State run = ?b |- _ =>
      rewrite E in F; first [discriminate F | clear F]
    end;
    unfold rank; cbn [set Run_eta run_State run_Attempt run_MaxAttempts];
    repeat match goal with E : run_State run = _ |- _ => rewrite E end;
    eval_strings; rewrite ?Sa, ?Sm, ?W.
  all: split; [|split; [|split]]; try lia.
  all: first [ apply C_running; cbn; rewrite ?Sa, ?Sm, ?W; (done || lia)
             | apply C_failed; cbn; rewrite ?Sa, ?Sm; (done || lia)
             | apply C_dead; cbn; rewrite ?Sa, ?Sm; (done || lia)
             | apply C_final; cbn; rewrite ?Sa, ?Sm; [rewrite ?elem_of_cons; tauto | lia] ].
Qed.

Lemma transition_valid def run req next :
  ValidateRun def run = Ok tt -> consistent run -> transition def run req next ->
  ValidateRun def next = Ok tt.
Proof.
  intros V C T.
  destruct (transition_consistent _ _ _ _ V C T) as (C' & _).
  destruct (transition_frame _ _ _ _ T) as (F1 & F2 & _ & F4 & F5).
  assert (A : 0 <= run_Attempt next <= run_MaxAttempts next).
  { apply ValidateRun_inv in V as (D & _ & M & _). apply ValidateDefinition_inv in D as (D & _).
    destruct C'; rewrite F5, M in *; lia. }
  unfold ValidateRun in *. rewrite F1, F2, F4.
  destruct (ValidateDefinition def) as [[]|]; [|done].
  guards V. rewrite F5, Heqb1.
  replace (run_Attempt next <? 0) with false by (symmetry; apply Z.ltb_ge; lia).
  replace (run_MaxAttempts run <? run_Attempt next) with false
    by (symmetry; apply Z.ltb_ge; lia).
  done.
Qed.

Lemma fresh_consistent run : fresh run -> consistent run.
Proof. intros [S A]. by apply C_pending. Qed.

(** The facts every trace from a fresh run maintains. *)
Lemma trace_facts def run entries final :
  fresh run -> ValidateRun def run = Ok tt -> trace def run entries final ->
  ValidateRun def final = Ok tt /\ consistent final /\
  count_if started entries = run_Attempt final /\
  rank final + llen entries <= rank run /\ 0 <= rank final.
Proof.
  intros F V T. induction T as [run|run entries mid req next entry T IH A].
  - pose proof (fresh_consistent _ F) as C. split; [done|]. split; [done|].
    destruct F as [S At]. rewrite At. unfold llen; cbn.
    split; [done|]. split; [lia|]. unfold rank. rewrite S. eval_strings.
    apply ValidateRun_inv in V as (D & _ & M & _). apply ValidateDefinition_inv in D. lia.
  - destruct (IH F V) as (V' & C & N & L & _). clear IH.
    apply job_Apply_inv in A as (_ & _ & _ & _ & S & ->). apply step_sound in S.
    destruct (transition_consistent _ _ _ _ V' C S) as (C' & R & P & At).
    split; [by eapply transition_valid|]. split; [done|]. split; [|split; [|done]].
    + autorewrite with forge_rw. unfold started at 2. cbn [entry_After]. lia.
    + autorewrite with forge_rw. lia.
Qed.

(** ** The backoff *)

Lemma retryLoop_spec n max delay :
  0 < delay <= max -> max <= maxInt64 ->
  let exact := delay * 2 ^ Z.of_nat n in
  Z.min max exact <= retryLoop n max delay <= Z.min max (exact + 1) /\
  (Z.even max = true -> retryLoop n max delay = Z.min max exact).
Proof.
  revert delay; induction n as [|n IH]; intros delay H M exact; subst exact; cbn [retryLoop].
  - rewrite Z.pow_0_r. destruct (Z.ltb_spec max delay); lia.
  - assert (P : 1 <= 2 ^ Z.of_nat n) by (apply (Z.pow_le_mono_r 2 0); lia).
    rewrite Nat2Z.inj_succ, Z.pow_succ_r by lia.
    rewrite Z.quot_div_nonneg by lia.
    destruct (Z.leb_spec (max / 2) delay) as [L|L].
    + pose proof (Z.mod_pos_bound max 2 ltac:(lia)). pose proof (Z.div_mod max 2 ltac:(lia)).
      assert (max <= delay * 2 + 1) by lia.
      assert (Z.even max = true -> max <= delay * 2).
      { intros E. apply Z.even_spec in E as [k ->]. rewrite Z.mul_comm, Z.div_mul in L; lia. }
      assert (delay * 2 <= delay * (2 * 2 ^ Z.of_nat n)) by nia.
      generalize dependent (delay * (2 * 2 ^ Z.of_nat n)). intros e He.
      split; [lia|]. intros E. specialize (H3 E). lia.
    + pose proof (Z.mul_div_le max 2 ltac:(lia)). assert (delay * 2 < max) by lia.
      rewrite wrap64_id by (unfold minInt64; lia).
      specialize (IH (delay * 2)). cbn in IH.
      replace (delay * (2 * 2 ^ Z.of_nat n)) with (delay * 2 * 2 ^ Z.of_nat n) by lia.
      apply IH; lia.
Qed.

(** ** Properties *)

(** C6.  [Apply] implements the transition relation: it accepts a request
    exactly when the run is valid for its definition, the request names an
    actor, an instant and the approval its action needs, and a rule allows the
    action in the current state; it then returns the rule's run and an audit
    entry with the states before and after. *)
Theorem Apply_implements_transition def run req next entry :
  Apply def run req = Ok (next, entry) <->
  ValidateRun def run = Ok tt /\ TrimSpace (req_ActorID req) <> "" /\ req_At req <> 0 /\
  approval_ok def req /\ transition def run req next /\
  entry = mkAuditEntry (run_ID run) (run_JobName run) (req_Action req) (run_State run)
            (run_State next) (req_ActorID req) (TrimSpace (req_ApprovalID req))
            (req_At req) (run_IdempotencyKey run) (truncate (req_Cause req) 1000).
Proof.
  split.
  - intros H. apply job_Apply_inv in H as (V & A & Z & P & S & E).
    apply step_sound in S. by split_and!.
  - intros (V & A & Z & [P1 P2] & T & ->). apply step_complete in T.
    unfold Apply. rewrite V, T.
    rewrite (seqb_neq _ _ A). replace (IsZero (req_At req)) with false
      by (symmetry; by apply Z.eqb_neq).
    cbn [orb].
    destruct (requiresApproval (req_Action req)) eqn:R;
      [rewrite (seqb_neq _ _ (P1 eq_refl))|]; cbn [andb];
      (destruct (def_RequiresApproval def && (req_Action req =s ActionStart)) eqn:B;
       [breflect; rewrite ?seqb_neq by auto|]); done.
Qed.

Definition sample_def : JobDefinition := mkJobDefinition "nightly" 3 Second (Hour) true false.
Definition sample_run : Run :=
  mkRun "r1" "nightly" "org" "k1" StatePending 0 3 0 "" "" "" 0.
Definition sample_start : Request := mkRequest ActionStart 5 "ops" " A-1 " "".

(** Along every trace of accepted transitions from a fresh run the state
    is one of the package's states and agrees with the attempt counter, and the
    audit trail shows exactly as many starts as the counter says: never more
    than the definition's maximum. *)
Theorem attempts_are_bounded def run entries final :
  fresh run -> ValidateRun def run = Ok tt -> trace def run entries final ->
  consistent final /\ count_if started entries = run_Attempt final /\
  count_if started entries <= def_MaxAttempts def.
Proof.
  intros F V T. destruct (trace_facts _ _ _ _ F V T) as (V' & C & N & _).
  apply ValidateRun_inv in V' as (_ & _ & M & A). repeat split; auto; lia.
Qed.

Definition sample_running : Run :=
  mkRun "r1" "nightly" "org" "k1" StateRunning 1 3 0 "A-1" "ops" "" 5.
Definition sample_entry : AuditEntry :=
  mkAuditEntry "r1" "nightly" ActionStart StatePending StateRunning "ops" "A-1" 5 "k1" "".

Lemma sample_trace : trace sample_def sample_run [sample_entry] sample_running.
Proof.
  apply (trace_snoc _ _ [] sample_run sample_start); [constructor|].
  vm_compute. reflexivity.
Defined.

Lemma attempts_are_bounded_witness :
  consistent sample_running /\ count_if started [sample_entry] = 1 /\
  count_if started [sample_entry] <= 3.
Proof.
  apply (attempts_are_bounded sample_def sample_run [sample_entry] sample_running).
  - split; reflexivity.
  - reflexivity.
  - exact sample_trace.
Defined.

(** C7.  A run terminates: a trace from a fresh run has at most
    [2 * MaxAttempts + 6] transitions, whatever the requests. *)
Theorem traces_terminate def run entries final :
  fresh run -> ValidateRun def run = Ok tt -> trace def run entries final ->
  llen entries <= 2 * def_MaxAttempts def + 6.
Proof.
  intros F V T. destruct (trace_facts _ _ _ _ F V T) as (_ & _ & _ & R & P).
  apply ValidateRun_inv in V as (_ & _ & M & _). destruct F as [S _].
  unfold rank at 2 in R. rewrite S in R. eval_strings. lia.
Qed.

(** The backoff of the [n]-th attempt is the base delay doubled [n - 1]
    times and capped by the maximum (when the maximum is an odd number of
    nanoseconds it may reach the cap one nanosecond early); the doubling never
    overflows. *)
Theorem retryDelay_is_capped_exponential def attempt :
  ValidateDefinition def = Ok tt -> 1 <= attempt ->
  let exact := def_RetryBaseDelay def * 2 ^ (attempt - 1) in
  def_RetryBaseDelay def <= retryDelay def attempt <= def_RetryMaxDelay def /\
  Z.min (def_RetryMaxDelay def) exact <= retryDelay def attempt <= exact + 1 /\
  (Z.even (def_RetryMaxDelay def) = true ->
   retryDelay def attempt = Z.min (def_RetryMaxDelay def) exact).
Proof.
  intros V A exact. apply ValidateDefinition_inv in V as (_ & B & M).
  unfold retryDelay. pose proof (retryLoop_spec (Z.to_nat (attempt - 1))
    (def_RetryMaxDelay def) (def_RetryBaseDelay def)) as L.
  rewrite Z2Nat.id in L by lia. fold exact in L. cbn zeta in L.
  unfold Hour, Minute, Second in *.
  assert (1 <= 2 ^ (attempt - 1)) by (apply (Z.pow_le_mono_r 2 0); lia).
  assert (def_RetryBaseDelay def <= exact) by (unfold exact; nia).
  destruct L as [L E]; [lia|unfold maxInt64; lia|]. repeat split; auto; lia.
Qed.

Lemma traces_terminate_witness : llen [sample_entry] <= 12.
Proof.
  apply (traces_terminate sample_def sample_run [sample_entry] sample_running).
  - split; reflexivity.
  - reflexivity.
  - exact sample_trace.
Defined.

Lemma retryDelay_witness :
  1 <= 4 /\ Z.even (def_RetryMaxDelay sample_def) = true /\ retryDelay sample_def 4 = 8 * Second.
Proof.
  assert (A : 1 <= 4) by lia.
  assert (E : Z.even (def_RetryMaxDelay sample_def) = true) by reflexivity.
  split; [exact A|split; [exact E|]].
  exact (proj2 (proj2 (retryDelay_is_capped_exponential sample_def 4 eq_refl A)) E).
Defined.
