(* ===== verification/ConfigChange.v ===== *)
(** * Configuration changes

    [internal/platform/configchange] (the state machine), the service
    [internal/app/configchange] and its table
    [internal/adapters/repository/config_change.go]. *)

From S2P Require Import Prelude GoString Database Identity.

Definition StatePendingApproval := "PENDING_APPROVAL".
Definition StateApproved := "APPROVED".
Definition StatePublished := "PUBLISHED".
Definition StateRollbackPending := "ROLLBACK_PENDING".
Definition StateRolledBack := "ROLLED_BACK".
Definition StateRejected := "REJECTED".

Definition ActionApprove := "APPROVE".
Definition ActionPublish := "PUBLISH".
Definition ActionRequestRollback := "REQUEST_ROLLBACK".
Definition ActionRollback := "ROLLBACK".
Definition ActionReject := "REJECT".

(** [Version] and [ExpectedPreviousVersion] are [uint64]. *)
Record Change := mkChange {
  ch_ID : string;
  ch_OrganizationID : string;
  ch_Namespace : string;
  ch_Group : string;
  ch_DataID : string;
  ch_Version : Z;
  ch_ExpectedPreviousVersion : Z;
  ch_ValueDigest : string;
  ch_ValueRef : string;
  ch_Sensitive : bool;
  ch_CreatedBy : string;
  ch_ApprovedBy : string;
  ch_ApprovalID : string;
  ch_State : string;
  ch_UpdatedAt : Time
}.
#[export] Instance Change_eta : Eta Change := fun c =>
  mkChange (ch_ID c) (ch_OrganizationID c) (ch_Namespace c) (ch_Group c) (ch_DataID c)
    (ch_Version c) (ch_ExpectedPreviousVersion c) (ch_ValueDigest c) (ch_ValueRef c)
    (ch_Sensitive c) (ch_CreatedBy c) (ch_ApprovedBy c) (ch_ApprovalID c) (ch_State c)
    (ch_UpdatedAt c).

Record Request := mkRequest {
  rq_Action : string;
  rq_At : Time;
  rq_ActorID : string;
  rq_ApprovalID : string
}.

Record AuditEntry := mkAuditEntry {
  ae_ChangeID : string;
  ae_Action : string;
  ae_Before : string;
  ae_After : string;
  ae_ActorID : string;
  ae_ApprovalID : string;
  ae_At : Time;
  ae_ValueDigest : string
}.

Definition MaxInt64 : Z := maxInt64.

(** The required fields; the source ranges over a Go map, whose order is
    unspecified, so which of several blank fields the message names is too:
    here, the first of the literal. *)
Definition required_fields (c : Change) : list (string * string) :=
  [("change id", ch_ID c); ("organization id", ch_OrganizationID c); ("namespace", ch_Namespace c);
   ("group", ch_Group c); ("data id", ch_DataID c); ("creator", ch_CreatedBy c);
   ("value reference", ch_ValueRef c)].

Definition blank_field (fields : list (string * string)) : option string :=
  match List.find (fun f => TrimSpace (snd f) =s "") fields with
  | Some f => Some (fst f)
  | None => None
  end.

Definition Validate (c : Change) : result unit :=
  match blank_field (required_fields c) with
  | Some label => Err (Errorf "config %s is required" [FStr label])
  | None =>
    if (ch_Version c =? 0) || (MaxInt64 <? ch_Version c) ||
       (MaxInt64 <? ch_ExpectedPreviousVersion c) ||
       (ch_Version c <=? ch_ExpectedPreviousVersion c) then
      Err (Errorf "config version must be greater than the expected previous version" [])
    else
      let digest := TrimSpace (ch_ValueDigest c) in
      if negb (slen digest =? 64) then
        Err (Errorf "config value digest must be a sha256 digest" [])
      else match DecodeString digest with
      | None => Err (Errorf "config value digest is not hexadecimal" [])
      | Some _ =>
        if IsZero (ch_UpdatedAt c) then Err (Errorf "config change timestamp is required" [])
        else Ok tt
      end
  end.

Definition New (id organizationID namespace group dataID valueDigest valueRef creator : string)
    (version expectedPreviousVersion : Z) (sensitive : bool) (at_ : Time) : result Change :=
  let change := mkChange id organizationID namespace group dataID version expectedPreviousVersion
    valueDigest valueRef sensitive creator "" "" StatePendingApproval (UTC at_) in
  match Validate change with
  | Err e => Err e
  | Ok _ => Ok change
  end.

Definition transitionError (state action : string) : error :=
  Errorf "config action %q is not allowed from state %q" [FStr action; FStr state].

(** The [switch request.Action] of [Apply]. *)
Definition step (change : Change) (request : Request) : result Change :=
  let next := change <| ch_UpdatedAt := UTC (rq_At request) |>
                     <| ch_ApprovalID := TrimSpace (rq_ApprovalID request) |> in
  let action := rq_Action request in
  if action =s ActionApprove then
    if (ch_State change <>s StatePendingApproval) || (rq_ActorID request =s ch_CreatedBy change) then
      Err (Errorf "config change requires a different approver" [])
    else Ok (next <| ch_State := StateApproved |> <| ch_ApprovedBy := rq_ActorID request |>)
  else if action =s ActionPublish then
    if (ch_State change <>s StateApproved) || (rq_ActorID request <>s ch_ApprovedBy change) then
      Err (Errorf "only the recorded approver can publish this config change" [])
    else Ok (next <| ch_State := StatePublished |>)
  else if action =s ActionRequestRollback then
    if ch_State change <>s StatePublished then Err (transitionError (ch_State change) action)
    else Ok (next <| ch_State := StateRollbackPending |>)
  else if action =s ActionRollback then
    if (ch_State change <>s StateRollbackPending) || (rq_ActorID request =s ch_CreatedBy change) then
      Err (Errorf "config rollback requires an independent operator" [])
    else Ok (next <| ch_State := StateRolledBack |>)
  else if action =s ActionReject then
    if (ch_State change <>s StatePendingApproval) || (rq_ActorID request =s ch_CreatedBy change) then
      Err (transitionError (ch_State change) action)
    else Ok (next <| ch_State := StateRejected |>)
  else Err (Errorf "unsupported config action %q" [FStr action]).

Definition Apply (change : Change) (request : Request) : result (Change * AuditEntry) :=
  match Validate change with
  | Err e => Err e
  | Ok _ =>
    if (TrimSpace (rq_ActorID request) =s "") || IsZero (rq_At request) ||
       (TrimSpace (rq_ApprovalID request) =s "") then
      Err (Errorf "config transition actor, timestamp, and approval are required" [])
    else match step change request with
    | Err e => Err e
    | Ok next =>
      Ok (next, mkAuditEntry (ch_ID change) (rq_Action request) (ch_State change) (ch_State next)
                  (rq_ActorID request) (rq_ApprovalID request) (UTC (rq_At request))
                  (ch_ValueDigest change))
    end
  end.

Definition ApplyWithAudit (auditor : option (AuditEntry -> option error))
    (change : Change) (request : Request) : result Change :=
  match auditor with
  | None => Err (Errorf "config transition auditor is required" [])
  | Some record =>
    match Apply change request with
    | Err e => Err e
    | Ok (next, entry) =>
      match record entry with
      | Some e => Err (Wrapf "record config transition audit: %w" [] e)
      | None => Ok next
      end
    end
  end.

(** ** The table [config_change_history] *)

Record Row := mkRow {
  row_id : string;
  row_organization_id : string;
  row_namespace : string;
  row_config_group : string;
  row_data_id : string;
  row_version : Z;
  row_expected_previous_version : Z;
  row_value_digest : string;
  row_value_ref : string;
  row_sensitive : bool;
  row_created_by : string;
  row_approved_by : option string;
  row_approval_id : option string;
  row_state : string;
  row_updated_at : Time
}.
#[export] Instance Row_eta : Eta Row := fun r =>
  mkRow (row_id r) (row_organization_id r) (row_namespace r) (row_config_group r) (row_data_id r)
    (row_version r) (row_expected_previous_version r) (row_value_digest r) (row_value_ref r)
    (row_sensitive r) (row_created_by r) (row_approved_by r) (row_approval_id r) (row_state r)
    (row_updated_at r).

Definition Table := list Row.

Definition databaseVersion (version : Z) : result Z :=
  if MaxInt64 <? version then Err (Errorf "config version exceeds database integer range" [])
  else Ok version.

Definition column (value : option string) : string :=
  match value with Some s => s | None => "" end.

Definition scanConfigChange (r : Row) : result Change :=
  if (row_version r <? 0) || (row_expected_previous_version r <? 0) then
    Err (Errorf "config version cannot be negative" [])
  else
    let item := mkChange (row_id r) (row_organization_id r) (row_namespace r) (row_config_group r)
      (row_data_id r) (row_version r) (row_expected_previous_version r) (row_value_digest r)
      (row_value_ref r) (row_sensitive r) (row_created_by r) (column (row_approved_by r))
      (column (row_approval_id r)) (row_state r) (row_updated_at r) in
    match Validate item with
    | Err e => Err (Wrapf "validate config change record: %w" [] e)
    | Ok _ => Ok item
    end.

(** [UNIQUE KEY (organization_id, namespace, config_group, data_id, version)]. *)
Definition row_key (r : Row) : string * string * string * string * Z :=
  (row_organization_id r, row_namespace r, row_config_group r, row_data_id r, row_version r).

Definition insert_row (row : Row) (rows : Table) : result (unit * Table) :=
  if existsb (fun r => (row_id r =s row_id row) || bool_decide (row_key r = row_key row)) rows
  then Err ErrDuplicate else Ok (tt, rows ++ [row]).

(** [ORDER BY updated_at DESC,id DESC]. *)
Definition newest_first (a b : Row) : bool :=
  (row_updated_at b <? row_updated_at a) ||
  ((row_updated_at a =? row_updated_at b) && str_le (row_id b) (row_id a)).

Definition List_ (organizationID : string) : M Table (list Change) :=
  rows ← query (fun rows =>
    take 200 (order_by newest_first (select (fun r => row_organization_id r =s organizationID) rows)));
  mapMM (fun r => lift (scanConfigChange r)) rows.

Definition ByID (organizationID id : string) : M Table Change :=
  row ← queryR (select_row (fun r => (row_organization_id r =s organizationID) && (row_id r =s id)));
  lift (scanConfigChange row).

Definition Create (change : Change) : M Table Change :=
  version ← lift (databaseVersion (ch_Version change));
  previousVersion ← lift (databaseVersion (ch_ExpectedPreviousVersion change));
  _ ← stmt (insert_row (mkRow (ch_ID change) (ch_OrganizationID change) (ch_Namespace change)
        (ch_Group change) (ch_DataID change) version previousVersion (ch_ValueDigest change)
        (ch_ValueRef change) (ch_Sensitive change) (ch_CreatedBy change)
        (nullIfEmpty (ch_ApprovedBy change)) (nullIfEmpty (ch_ApprovalID change))
        (ch_State change) (ch_UpdatedAt change)));
  mret change.

Definition same_row (change : Change) (r : Row) : bool :=
  (row_organization_id r =s ch_OrganizationID change) && (row_id r =s ch_ID change).

Definition write_change (change : Change) (r : Row) : Row :=
  r <| row_approved_by := nullIfEmpty (ch_ApprovedBy change) |>
    <| row_approval_id := nullIfEmpty (ch_ApprovalID change) |>
    <| row_state := ch_State change |>
    <| row_updated_at := ch_UpdatedAt change |>.

(** The statement and the number of rows it affected. *)
Definition Update (change : Change) : M Table Change :=
  affected ← stmt (fun rows => Ok (count_if (same_row change) rows,
                                   update_where (same_row change) (write_change change) rows));
  if negb (affected =? 1) then fail ErrNoRows else mret change.

(** ** The service *)

Definition ErrActorRequired : error := Sentinel "configchange.ErrActorRequired".

Record CreateInput := mkCreateInput {
  ci_Namespace : string;
  ci_Group : string;
  ci_DataID : string;
  ci_Version : Z;
  ci_ExpectedPreviousVersion : Z;
  ci_ValueDigest : string;
  ci_ValueRef : string;
  ci_Sensitive : bool
}.

Definition requireActor (actor : Principal) : result unit :=
  if (p_Type actor <>s "USER") || (TrimSpace (p_UserID actor) =s "") ||
     (TrimSpace (p_OrganizationID actor) =s "") then Err ErrActorRequired
  else Ok tt.

Definition service_List (actor : Principal) : M Table (list Change) :=
  _ ← lift (requireActor actor);
  List_ (p_OrganizationID actor).

Definition service_Create (actor : Principal) (input : CreateInput) : M Table Change :=
  _ ← lift (requireActor actor);
  id ← NewString;
  at_ ← now;
  change ← lift (New id (p_OrganizationID actor) (ci_Namespace input) (ci_Group input)
    (ci_DataID input) (ci_ValueDigest input) (ci_ValueRef input) (p_UserID actor)
    (ci_Version input) (ci_ExpectedPreviousVersion input) (ci_Sensitive input) (UTC at_));
  Create change.

(** The request with the actor filled in. *)
Definition with_actor (actor : Principal) (request : Request) : Request :=
  if rq_ActorID request =s "" then
    mkRequest (rq_Action request) (rq_At request) (p_UserID actor) (rq_ApprovalID request)
  else request.

(** [Transition] up to and including the read of the row... *)
Definition transition_load (actor : Principal) (id : string) : M Table Change :=
  _ ← lift (requireActor actor);
  let id := TrimSpace id in
  _ ← guard_not (id =s "") (Errorf "config change id is required" []);
  ByID (p_OrganizationID actor) id.

(** ... and from there on. *)
Definition transition_save (actor : Principal) (request : Request) (change : Change)
  : M Table (Change * AuditEntry) :=
  next_entry ← lift (Apply change (with_actor actor request));
  saved ← Update (fst next_entry);
  mret (saved, snd next_entry).

Definition Transition (actor : Principal) (id : string) (request : Request)
  : M Table (Change * AuditEntry) :=
  change ← transition_load actor id;
  transition_save actor request change.

(** ** Specification

    The life of a change as a relation: who may move it from which state. *)
Inductive may_move (c : Change) (r : Request) : string -> string -> Prop :=
| M_approve : rq_Action r = ActionApprove -> ch_State c = StatePendingApproval ->
    rq_ActorID r <> ch_CreatedBy c -> may_move c r StateApproved (rq_ActorID r)
| M_publish : rq_Action r = ActionPublish -> ch_State c = StateApproved ->
    rq_ActorID r = ch_ApprovedBy c -> may_move c r StatePublished (ch_ApprovedBy c)
| M_request_rollback : rq_Action r = ActionRequestRollback -> ch_State c = StatePublished ->
    may_move c r StateRollbackPending (ch_ApprovedBy c)
| M_rollback : rq_Action r = ActionRollback -> ch_State c = StateRollbackPending ->
    rq_ActorID r <> ch_CreatedBy c -> may_move c r StateRolledBack (ch_ApprovedBy c)
| M_reject : rq_Action r = ActionReject -> ch_State c = StatePendingApproval ->
    rq_ActorID r <> ch_CreatedBy c -> may_move c r StateRejected (ch_ApprovedBy c).

(** A change whose approval was given by somebody else than its creator. *)
Definition four_eyes (c : Change) : Prop :=
  (ch_State c = StatePendingApproval \/ ch_State c = StateRejected) /\ ch_ApprovedBy c = "" \/
  (ch_State c = StateApproved \/ ch_State c = StatePublished \/ ch_State c = StateRollbackPending \/
   ch_State c = StateRolledBack) /\
  ch_ApprovedBy c <> ch_CreatedBy c /\ TrimSpace (ch_ApprovedBy c) <> "".

(** The table's invariant: the keys are unique and every row reads back as a
    valid change that obeys the four-eyes rule. *)
Definition row_ok (r : Row) : Prop := exists c, scanConfigChange r = Ok c /\ four_eyes c.
Definition table_ok (rows : Table) : Prop :=
  NoDup (map row_id rows) /\ NoDup (map row_key rows) /\ Forall row_ok rows.

(** *** Concurrent requests

    The service reads the row and writes it back in separate statements, with
    no lock and no condition on the state.  A configuration is the table and
    the transitions that have read their row and not yet written it; a step is
    one of these halves, or a creation, under any environment. *)
Record Pending := mkPending { pe_actor : Principal; pe_request : Request; pe_change : Change }.
Definition Config : Type := Table * list Pending.

Inductive cstep : Config -> Config -> Prop :=
| S_create actor input env n n' rows rows' ps r :
    0 <= ci_Version input -> 0 <= ci_ExpectedPreviousVersion input ->
    service_Create actor input env n rows = (r, n', rows') ->
    cstep (rows, ps) (rows', ps)
| S_load actor id request env n n' rows rows' ps change :
    transition_load actor id env n rows = (Ok change, n', rows') ->
    cstep (rows, ps) (rows', mkPending actor request change :: ps)
| S_save actor request change env n n' rows rows' ps1 ps2 r :
    transition_save actor request change env n rows = (r, n', rows') ->
    cstep (rows, ps1 ++ mkPending actor request change :: ps2) (rows', ps1 ++ ps2).

(** ** Lemmas *)

Lemma Validate_inv c :
  Validate c = Ok tt <->
  Forall (fun f => TrimSpace (snd f) <> "") (required_fields c) /\
  ch_Version c <> 0 /\ ch_Version c <= MaxInt64 /\ ch_ExpectedPreviousVersion c < ch_Version c /\
  slen (TrimSpace (ch_ValueDigest c)) = 64 /\ is_Some (DecodeString (TrimSpace (ch_ValueDigest c))) /\
  ch_UpdatedAt c <> 0.
Proof.
  assert (B : blank_field (required_fields c) = None <->
    Forall (fun f => TrimSpace (snd f) <> "") (required_fields c)).
  { unfold blank_field. generalize (required_fields c) as l. intros l. destruct (List.find _ l) eqn:E.
    - apply List.find_some in E as [I E]. breflect. split; [done|]. intros F.
      rewrite Forall_forall in F. destruct (F p); [by apply list_elem_of_In|done].
    - split; [|done]. intros _. apply Forall_forall. intros f Hf. apply list_elem_of_In in Hf.
      pose proof (List.find_none _ _ E f Hf) as N. cbn in N. by breflect. }
  unfold Validate. destruct (blank_field (required_fields c)) eqn:F.
  { split; [done|]. intros (H & _). apply B in H. done. }
  split.
  - intros H. cbn zeta in H. cases H. breflect. apply proj1 in B. specialize (B eq_refl).
    split_and!; (done || lia || eauto).
  - intros (_ & V & V1 & V2 & D & [d E] & T).
    replace ((ch_Version c =? 0) || _ || _ || _) with false.
    + rewrite D, E. cbn. by replace (IsZero (ch_UpdatedAt c)) with false
        by (symmetry; by apply Z.eqb_neq).
    + symmetry. rewrite !orb_false_iff, Z.eqb_neq, !Z.ltb_ge, Z.leb_gt. lia.
Qed.

(** What a transition does to the record. *)
Definition moved (c : Change) (r : Request) (state by_ : string) : Change :=
  c <| ch_UpdatedAt := rq_At r |> <| ch_ApprovalID := TrimSpace (rq_ApprovalID r) |>
    <| ch_State := state |> <| ch_ApprovedBy := by_ |>.

Lemma step_spec c r next :
  step c r = Ok next <-> exists state by_, may_move c r state by_ /\ next = moved c r state by_.
Proof.
  split.
  - unfold step; intros H. guards H; injection H as <-; breflect;
      eexists _, _; (split; [econstructor; done|by destruct c]).
  - intros (state & by_ & M & ->). unfold step. destruct M as [A S N|A S N|A S|A S N|A S N];
      rewrite A, S; eval_strings; cbn [negb orb];
      first [rewrite (seqb_neq _ _ N)|rewrite N, seqb_refl|idtac]; by destruct c.
Qed.

Lemma moved_identity c r state by_ :
  Validate c = Ok tt -> rq_At r <> 0 -> Validate (moved c r state by_) = Ok tt.
Proof. rewrite !Validate_inv. intros (? & ? & ? & ? & ? & ? & ?) N. split_and!; done. Qed.

Lemma moved_four_eyes c r state by_ :
  four_eyes c -> may_move c r state by_ -> TrimSpace (rq_ActorID r) <> "" ->
  four_eyes (moved c r state by_).
Proof.
  unfold four_eyes. intros F M T.
  destruct M as [A S N|A S N|A S|A S N|A S N]; rewrite S in F; cbn;
    unfold StatePendingApproval, StateApproved, StatePublished, StateRollbackPending,
      StateRolledBack, StateRejected in *;
    destruct F as [[[F|F] E]|[[F|[F|[F|F]]] E]]; try discriminate F; tauto.
Qed.

Lemma Apply_inv c r next entry :
  Apply c r = Ok (next, entry) ->
  Validate c = Ok tt /\ TrimSpace (rq_ActorID r) <> "" /\ rq_At r <> 0 /\
  TrimSpace (rq_ApprovalID r) <> "" /\
  (exists state by_, may_move c r state by_ /\ next = moved c r state by_) /\
  entry = mkAuditEntry (ch_ID c) (rq_Action r) (ch_State c) (ch_State next) (rq_ActorID r)
            (rq_ApprovalID r) (rq_At r) (ch_ValueDigest c).
Proof.
  unfold Apply. destruct (Validate c) as [[]|] eqn:V; [|discriminate].
  destruct (_ || _ || _) eqn:G; [discriminate|].
  destruct (step c r) as [m|] eqn:S; [|discriminate]. intros [= -> <-].
  apply step_spec in S. breflect. split_and!; done.
Qed.

Lemma Validate_unit c u : Validate c = Ok u -> Validate c = Ok tt.
Proof. by destruct u. Qed.

Lemma scan_inv r c :
  scanConfigChange r = Ok c <->
  Validate c = Ok tt /\ 0 <= row_version r /\ 0 <= row_expected_previous_version r /\
  c = mkChange (row_id r) (row_organization_id r) (row_namespace r) (row_config_group r)
      (row_data_id r) (row_version r) (row_expected_previous_version r) (row_value_digest r)
      (row_value_ref r) (row_sensitive r) (row_created_by r) (column (row_approved_by r))
      (column (row_approval_id r)) (row_state r) (row_updated_at r).
Proof.
  unfold scanConfigChange. destruct ((row_version r <? 0) || _) eqn:G.
  - split; [done|]. intros (_ & A & B & _). orsplit; lia.
  - breflect. destruct (Validate _) as [[]|] eqn:V; split; try done.
    + intros [= <-]. by split_and!.
    + intros (_ & _ & _ & ->). done.
    + intros (V' & _ & _ & ->). congruence.
Qed.

Lemma column_nullIfEmpty s : column (nullIfEmpty s) = s.
Proof. unfold column, nullIfEmpty. destruct (String.eqb_spec s ""); by subst. Qed.

(** The part of a row that no statement changes, and a change read from the
    table: it obeys the four-eyes rule and its creator is the row's. *)
Definition row_frame (r : Row) : string * string * string :=
  (row_id r, row_organization_id r, row_created_by r).
Definition snapshot (rows : Table) (c : Change) : Prop :=
  four_eyes c /\ (ch_ID c, ch_OrganizationID c, ch_CreatedBy c) ∈ map row_frame rows.

Lemma same_row_spec c r :
  same_row c r = true <-> row_organization_id r = ch_OrganizationID c /\ row_id r = ch_ID c.
Proof. unfold same_row. rewrite andb_true_iff, !String.eqb_eq. done. Qed.

Lemma NoDup_map_inj {A B} (f : A -> B) l x y :
  NoDup (map f l) -> x ∈ l -> y ∈ l -> f x = f y -> x = y.
Proof.
  induction l as [|z l IH]; cbn; intros N Hx Hy E; [by inversion Hx|].
  apply NoDup_cons in N as [N0 N].
  apply elem_of_cons in Hx as [->|Hx]; apply elem_of_cons in Hy as [->|Hy]; auto.
  - exfalso. apply N0. rewrite E. apply list_elem_of_In, in_map. by apply list_elem_of_In.
  - exfalso. apply N0. rewrite <- E. apply list_elem_of_In, in_map. by apply list_elem_of_In.
Qed.

(** The row written from a snapshot reads back as a valid four-eyes change. *)
Lemma write_row_ok c r :
  row_ok r -> row_created_by r = ch_CreatedBy c -> four_eyes c -> ch_UpdatedAt c <> 0 ->
  row_ok (write_change c r).
Proof.
  intros (d & S & _) CB F U. apply scan_inv in S as (V & V1 & V2 & ->).
  eexists. split.
  - apply scan_inv. split; [|split; [exact V1|split; [exact V2|reflexivity]]].
    apply Validate_inv in V. apply Validate_inv. unfold write_change. cbn in *.
    destruct V as (? & ? & ? & ? & ? & ? & ?). by split_and!.
  - unfold four_eyes in *. unfold write_change. cbn. rewrite !column_nullIfEmpty, CB. exact F.
Qed.

Lemma update_table_ok rows c :
  table_ok rows -> snapshot rows c -> ch_UpdatedAt c <> 0 ->
  table_ok (update_where (same_row c) (write_change c) rows).
Proof.
  intros (N1 & N2 & R) (F & I) U. split; [|split].
  - by rewrite map_update_where.
  - by rewrite map_update_where.
  - apply Forall_update_where; [done|]. intros r Hr S OK. apply write_row_ok; auto.
    apply same_row_spec in S as [S1 S2].
    apply list_elem_of_In, in_map_iff in I as (r' & E & Hr'). apply list_elem_of_In in Hr'.
    injection E as E1 E2 E3. rewrite <- E3. f_equal.
    apply (NoDup_map_inj row_id rows); auto; congruence.
Qed.

Lemma insert_table_ok row rows rows' :
  table_ok rows -> row_ok row -> insert_row row rows = Ok (tt, rows') -> table_ok rows'.
Proof.
  intros (N1 & N2 & R) OK. unfold insert_row. destruct (existsb _ rows) eqn:E; [discriminate|].
  intros [= <-]. rewrite existsb_false in E. unfold table_ok. rewrite !map_app. cbn.
  split; [|split].
  - apply NoDup_app. split_and!; [done| |apply NoDup_singleton].
    intros x Hx Hs. apply list_elem_of_singleton in Hs as ->.
    apply list_elem_of_In, in_map_iff in Hx as (r & Er & Hr). apply list_elem_of_In in Hr.
    specialize (E r Hr). orsplit. congruence.
  - apply NoDup_app. split_and!; [done| |apply NoDup_singleton].
    intros x Hx Hs. apply list_elem_of_singleton in Hs as ->.
    apply list_elem_of_In, in_map_iff in Hx as (r & Er & Hr). apply list_elem_of_In in Hr.
    specialize (E r Hr). breflect. congruence.
  - apply Forall_app. split; [done|]. by constructor.
Qed.

Lemma New_inv id org ns grp data digest ref creator v pv sens at_ c :
  New id org ns grp data digest ref creator v pv sens at_ = Ok c ->
  Validate c = Ok tt /\
  c = mkChange id org ns grp data v pv digest ref sens creator "" "" StatePendingApproval at_.
Proof.
  unfold New. destruct (Validate _) as [[]|] eqn:V; [|discriminate]. intros [= <-]. done.
Qed.

Lemma Create_inv c env n rows r n' rows' :
  Create c env n rows = (r, n', rows') ->
  rows' = rows \/
  exists row, insert_row row rows = Ok (tt, rows') /\
    row = mkRow (ch_ID c) (ch_OrganizationID c) (ch_Namespace c) (ch_Group c) (ch_DataID c)
      (ch_Version c) (ch_ExpectedPreviousVersion c) (ch_ValueDigest c) (ch_ValueRef c)
      (ch_Sensitive c) (ch_CreatedBy c) (nullIfEmpty (ch_ApprovedBy c))
      (nullIfEmpty (ch_ApprovalID c)) (ch_State c) (ch_UpdatedAt c).
Proof.
  unfold Create, mbind, M_bind, lift, stmt, mret, M_ret, databaseVersion.
  destruct (MaxInt64 <? ch_Version c); [intros [= _ _ <-]; auto|].
  destruct (MaxInt64 <? ch_ExpectedPreviousVersion c); [intros [= _ _ <-]; auto|].
  destruct (faults env n); [intros [= _ _ <-]; auto|].
  destruct (insert_row _ rows) as [[[] s]|] eqn:E; intros [= _ _ <-]; [|auto].
  right. eauto.
Qed.

Lemma insert_frame row rows rows' :
  insert_row row rows = Ok (tt, rows') -> map row_frame rows ⊆ map row_frame rows'.
Proof.
  unfold insert_row. destruct (existsb _ _); [discriminate|]. intros [= <-].
  rewrite map_app. set_solver.
Qed.

Lemma service_Create_ok actor input env n n' rows rows' r :
  0 <= ci_Version input -> 0 <= ci_ExpectedPreviousVersion input ->
  service_Create actor input env n rows = (r, n', rows') -> table_ok rows ->
  table_ok rows' /\ map row_frame rows ⊆ map row_frame rows'.
Proof.
  intros P1 P2 H OK. unfold service_Create, mbind at 1, M_bind, lift at 1 in H.
  destruct (requireActor actor) as [[]|]; [|injection H as _ _ <-; set_solver].
  unfold NewString, now, UTC, mbind, M_bind, lift in H.
  destruct (New _ _ _ _ _ _ _ _ _ _ _ _) as [c|] eqn:N; [|injection H as _ _ <-; set_solver].
  apply New_inv in N as [V ->]. apply Create_inv in H as [->|(row & I & ->)]; [set_solver|].
  split; [|by eapply insert_frame].
  eapply insert_table_ok; [done| |done]. eexists. split.
  - apply scan_inv. cbn. split; [|split; [done|split; [done|reflexivity]]]. exact V.
  - left. cbn. auto.
Qed.

Lemma transition_load_ok actor id env n rows change n' rows' :
  transition_load actor id env n rows = (Ok change, n', rows') -> table_ok rows ->
  rows' = rows /\ snapshot rows change.
Proof.
  intros H (_ & _ & R). unfold transition_load, ByID in H. run. split; [done|].
  match goal with E : select_row _ _ = Ok ?row |- _ =>
    apply select_row_ok in E as [I P];
    rewrite Forall_forall in R; destruct (R row I) as (c & S & F) end.
  match goal with E : scanConfigChange _ = Ok change |- _ => rewrite E in S; injection S as ->;
    apply scan_inv in E as (_ & _ & _ & ->) end.
  split; [done|]. apply list_elem_of_In, in_map_iff. eexists. split; [|by apply list_elem_of_In].
  done.
Qed.

Lemma transition_save_inv actor request change env n rows r n' rows' :
  transition_save actor request change env n rows = (r, n', rows') ->
  rows' = rows \/
  exists next entry, Apply change (with_actor actor request) = Ok (next, entry) /\
    rows' = update_where (same_row next) (write_change next) rows.
Proof.
  unfold transition_save, Update, mbind, M_bind, lift, stmt.
  destruct (Apply _ _) as [[next entry]|] eqn:A; [|intros [= _ _ <-]; auto].
  destruct (faults env n); [intros [= _ _ <-]; auto|]. cbn [fst snd].
  intros H. right. exists next, entry. split; [done|].
  destruct (negb (count_if (same_row next) rows =? 1)); unfold fail, mret, M_ret in H; cbn in H;
    congruence.
Qed.

Lemma transition_save_ok actor request change env n rows r n' rows' :
  transition_save actor request change env n rows = (r, n', rows') ->
  table_ok rows -> snapshot rows change ->
  table_ok rows' /\ map row_frame rows = map row_frame rows'.
Proof.
  intros H OK (F & I). apply transition_save_inv in H as [->|(next & entry & A & ->)]; [done|].
  apply Apply_inv in A as (V & T & Z & _ & (state & by_ & M & ->) & _).
  split; [|by rewrite map_update_where].
  apply update_table_ok; [done| |done]. split; [by apply moved_four_eyes|done].
Qed.

Definition config_ok (c : Config) : Prop :=
  table_ok (fst c) /\ Forall (fun p => snapshot (fst c) (pe_change p)) (snd c).

Lemma snapshot_frame rows rows' c :
  map row_frame rows ⊆ map row_frame rows' -> snapshot rows c -> snapshot rows' c.
Proof. unfold snapshot. intros S [F I]. split; [done|]. by apply S. Qed.

Lemma cstep_ok c c' : config_ok c -> cstep c c' -> config_ok c'.
Proof.
  intros [OK P] S. destruct S as [actor input env n n' rows rows' ps r V1 V2 H
    |actor id request env n n' rows rows' ps change H
    |actor request change env n n' rows rows' ps1 ps2 r H]; cbn in *.
  - destruct (service_Create_ok _ _ _ _ _ _ _ _ V1 V2 H OK) as [OK' Fr].
    split; [done|]. eapply Forall_impl; [exact P|]. intros p. by apply snapshot_frame.
  - destruct (transition_load_ok _ _ _ _ _ _ _ _ H OK) as [-> Sn]. split; [done|].
    by constructor.
  - apply Forall_app in P as [P1 P2]. apply Forall_cons in P2 as [P P2]. cbn in P.
    destruct (transition_save_ok _ _ _ _ _ _ _ _ _ H OK P) as [OK' Fr]. split; [done|].
    assert (Sub : map row_frame rows ⊆ map row_frame rows') by (rewrite Fr; done).
    apply Forall_app. split; (eapply Forall_impl; [done|]); intros p; by apply snapshot_frame.
Qed.

(** ** Properties *)

(** [Apply] accepts a request exactly when the change is valid, the
    request names an actor, an instant and an approval, and the life-cycle
    allows the move: approval, rejection and rollback by somebody else than the
    creator, publication by the recorded approver only. *)
Theorem config_Apply_spec c r next entry :
  Apply c r = Ok (next, entry) <->
  Validate c = Ok tt /\ TrimSpace (rq_ActorID r) <> "" /\ rq_At r <> 0 /\
  TrimSpace (rq_ApprovalID r) <> "" /\
  (exists state by_, may_move c r state by_ /\ next = moved c r state by_) /\
  entry = mkAuditEntry (ch_ID c) (rq_Action r) (ch_State c) (ch_State next) (rq_ActorID r)
            (rq_ApprovalID r) (rq_At r) (ch_ValueDigest c).
Proof.
  split; [apply Apply_inv|]. intros (V & T & Z & P & M & ->).
  apply step_spec in M. unfold Apply. rewrite V, (seqb_neq _ _ T), (seqb_neq _ _ P), M.
  by replace (IsZero (rq_At r)) with false by (symmetry; by apply Z.eqb_neq).
Qed.

(** C8.  Whatever the interleaving of concurrent creations and transitions (a
    transition reads its row and writes it back in two statements), and
    whatever statements fail, the stored history stays well formed: unique
    identifiers and versions, every row valid, and a change that is approved,
    published or rolled back carries an approver who is not its creator. *)
Theorem concurrent_config_changes_keep_four_eyes c :
  rtc cstep ([], []) c -> table_ok (fst c) /\
  forall env n change n' rows',
    ByID (ch_OrganizationID change) (ch_ID change) env n (fst c) = (Ok change, n', rows') ->
    ch_State change = StatePublished ->
    ch_ApprovedBy change <> ch_CreatedBy change /\ TrimSpace (ch_ApprovedBy change) <> "".
Proof.
  intros H.
  assert (OK : config_ok c).
  { assert (I : config_ok ([], [])).
    { split; [|constructor]. split; [constructor|split; constructor]. }
    revert I. generalize dependent (([], []) : Config). intros c0 H I.
    induction H; [done|]. apply IHrtc. by eapply cstep_ok. }
  destruct OK as [OK _]. split; [done|]. intros env n change n' rows' B P. unfold ByID in B. run.
  match goal with E : select_row _ _ = Ok ?row |- _ => apply select_row_ok in E as [I _] end.
  destruct OK as (_ & _ & R). rewrite Forall_forall in R. destruct (R _ I) as (d & S & F).
  assert (d = change) as -> by congruence.
  destruct F as [[[F|F] _]|[_ F]]; [rewrite P in F; discriminate F..|exact F].
Qed.

Definition sample_env : Env := mkEnv (fun _ => 100) (fun _ => "c1") (fun _ => None) (fun _ _ => "0"%char) false.
Definition person (id : string) : Principal :=
  mkPrincipal "USER" id "org" id id [] [] [] false "s" 0 (mkDataScope true false []) "MFA" None.
Definition sample_input : CreateInput :=
  mkCreateInput "app" "g" "d" 2 1 (srepeat 64 "a") "vault://x" true.
Definition req (action : string) : Request := mkRequest action 200 "" "ap-1".

(** The table after a sequence of halves. *)
Definition table_of {A} (x : result A * nat * Table) : Table := snd x.

Definition pending_table : Table := table_of (service_Create (person "maker") sample_input sample_env 0%nat []).
Definition loaded (rows : Table) : Change :=
  match transition_load (person "bob") "c1" sample_env 0%nat rows with
  | (Ok c, _, _) => c
  | _ => mkChange "" "" "" "" "" 0 0 "" "" false "" "" "" "" 0
  end.
Definition run_save (who action : string) (c : Change) (rows : Table) : Table :=
  table_of (transition_save (person who) (req action) c sample_env 0%nat rows).

(** A request that runs alone: its two halves, one after the other. *)
Lemma alone who action rows :
  transition_load (person who) "c1" sample_env 0%nat rows = (Ok (loaded rows), 1%nat, rows) ->
  rtc cstep (rows, []) (run_save who action (loaded rows) rows, []).
Proof.
  intros L. eapply rtc_l; [exact (S_load (person who) "c1" (req action) sample_env _ _ _ _ [] _ L)|].
  eapply rtc_l; [|apply rtc_refl].
  apply (S_save (person who) (req action) (loaded rows) sample_env 0 
    (snd (fst (transition_save (person who) (req action) (loaded rows) sample_env 0%nat rows)))
    rows _ [] [] (fst (fst (transition_save (person who) (req action) (loaded rows) sample_env 0%nat rows)))).
  unfold run_save, table_of. by destruct (transition_save _ _ _ _ _ _) as [[? ?] ?].
Defined.

(** A published change of the model, for the witnesses. *)
Definition approved_table : Table := run_save "bob" ActionApprove (loaded pending_table) pending_table.
Definition published_table : Table := run_save "bob" ActionPublish (loaded approved_table) approved_table.

Lemma published_reachable : rtc cstep ([], []) (published_table, []).
Proof.
  eapply rtc_l.
  { apply (S_create (person "maker") sample_input sample_env 0 3 [] pending_table []
      (fst (fst (service_Create (person "maker") sample_input sample_env 0%nat []))));
      [done|done|]. vm_compute. reflexivity. }
  etrans; [apply (alone "bob" ActionApprove); vm_compute; reflexivity|].
  apply (alone "bob" ActionPublish). vm_compute. reflexivity.
Defined.

Lemma concurrent_config_changes_witness :
  ch_State (loaded published_table) = StatePublished /\
  ch_ApprovedBy (loaded published_table) <> ch_CreatedBy (loaded published_table) /\
  TrimSpace (ch_ApprovedBy (loaded published_table)) <> "".
Proof.
  assert (P : ch_State (loaded published_table) = StatePublished) by (vm_compute; reflexivity).
  split; [exact P|].
  apply (proj2 (concurrent_config_changes_keep_four_eyes _ published_reachable)
          sample_env 0%nat (loaded published_table) 1%nat published_table);
    [vm_compute; reflexivity|exact P].
Defined.

(** A rejection can be lost: with the row read before and written after
    somebody else's rejection, an approval overwrites the rejected state and
    the change is then published; run one after the other, the approval of the
    rejected change is refused. *)
Theorem concurrent_rejection_is_lost :
  let rejected := run_save "carol" ActionReject (loaded pending_table) pending_table in
  let overwritten := run_save "bob" ActionApprove (loaded pending_table) rejected in
  ch_State (loaded rejected) = StateRejected /\
  ch_State (loaded overwritten) = StateApproved /\
  ch_State (loaded (run_save "bob" ActionPublish (loaded overwritten) overwritten)) = StatePublished /\
  run_save "bob" ActionApprove (loaded rejected) rejected = rejected.
Proof. vm_compute. auto. Qed.
