(* ===== verification/ReleaseControl.v ===== *)
(** * Release control

    The package [internal/platform/releasecontrol]: a release moves from draft
    to success or failure, and possibly through a rollback, under dual control.
    The [ReleaseStore] is an interface of the package with no implementation
    in the repository: here it is a class of operations, and its contract (its
    comment in the source: a transition and its audit event are persisted in
    one local transaction) the class [ReleaseStoreLaws]. *)

From S2P Require Import Prelude GoString Database.

Definition StateDraft := "Draft".
Definition StatePendingApproval := "PendingApproval".
Definition StateApproved := "Approved".
Definition StateExecuting := "Executing".
Definition StateSucceeded := "Succeeded".
Definition StateFailed := "Failed".
Definition StateRollbackRequested := "RollbackRequested".
Definition StateRollbackApproved := "RollbackApproved".
Definition StateRollingBack := "RollingBack".
Definition StateRolledBack := "RolledBack".

Record ReleaseRequest := mkReleaseRequest {
  rr_ID : string;
  rr_Version : string;
  rr_TargetEnvironment : string;
  rr_ArtifactDigest : string;
  rr_SBOMDigest : string;
  rr_SourceCommit : string;
  rr_ProvenanceEvidence : string;
  rr_TestEvidence : string;
  rr_VulnerabilityStatus : string;
  rr_LicenseStatus : string;
  rr_RollbackPlan : string;
  rr_RequestedBy : string;
  rr_RequiredApprovals : Z;
  rr_WindowStart : Time;
  rr_WindowEnd : Time
}.

Record ReleaseRecord := mkReleaseRecord {
  rec_Request : ReleaseRequest;
  rec_State : string;
  rec_Approvers : list string;
  rec_RollbackApprovers : list string;
  rec_DeploymentEvidence : string;
  rec_RollbackEvidence : string;
  rec_FailureReason : string;
  rec_CreatedAt : Time;
  rec_UpdatedAt : Time
}.
#[export] Instance ReleaseRecord_eta : Eta ReleaseRecord := fun r =>
  mkReleaseRecord (rec_Request r) (rec_State r) (rec_Approvers r) (rec_RollbackApprovers r)
    (rec_DeploymentEvidence r) (rec_RollbackEvidence r) (rec_FailureReason r) (rec_CreatedAt r)
    (rec_UpdatedAt r).

(** The promoted fields of the embedded request. *)
Definition rec_ID (r : ReleaseRecord) : string := rr_ID (rec_Request r).
Definition rec_RequestedBy (r : ReleaseRecord) : string := rr_RequestedBy (rec_Request r).
Definition rec_RequiredApprovals (r : ReleaseRecord) : Z := rr_RequiredApprovals (rec_Request r).

Record AuditEvent := mkAuditEvent {
  ev_ReleaseID : string;
  ev_Event : string;
  ev_Actor : string;
  ev_From : string;
  ev_To : string;
  ev_At : Time
}.

(** ** The store's interface *)

Class ReleaseStore (S : Type) := {
  store_Create : ReleaseRecord -> AuditEvent -> M S unit;
  store_Get : string -> M S ReleaseRecord;
  store_Transition : string -> string -> ReleaseRecord -> AuditEvent -> M S unit
}.

(** What a store promises: [view] is the record stored under an identifier and
    [log] the audit events, oldest first.  A write happens with its event or
    not at all, and a transition only from the expected state. *)
Class ReleaseStoreLaws (S : Type) `{ReleaseStore S}
    (view : S -> string -> option ReleaseRecord) (log : S -> list AuditEvent) := {
  create_ok : forall r ev e n s n' s',
    store_Create r ev e n s = (Ok tt, n', s') ->
    view s (rec_ID r) = None /\ log s' = log s ++ [ev] /\
    forall id, view s' id = if id =s rec_ID r then Some r else view s id;
  create_err : forall r ev e n s err n' s',
    store_Create r ev e n s = (Err err, n', s') -> view s' = view s /\ log s' = log s;
  get_ok : forall id e n s r n' s',
    store_Get id e n s = (Ok r, n', s') -> view s id = Some r;
  get_frame : forall id e n s r n' s',
    store_Get id e n s = (r, n', s') -> view s' = view s /\ log s' = log s;
  transition_ok : forall id from next ev e n s n' s',
    store_Transition id from next ev e n s = (Ok tt, n', s') ->
    (exists old, view s id = Some old /\ rec_State old = from) /\ log s' = log s ++ [ev] /\
    forall i, view s' i = if i =s id then Some next else view s i;
  transition_err : forall id from next ev e n s err n' s',
    store_Transition id from next ev e n s = (Err err, n', s') -> view s' = view s /\ log s' = log s
}.

(** ** Validation *)

Definition validDigest (value : string) : bool :=
  let value := TrimPrefix (TrimSpace value) "sha256:" in
  if negb (slen value =? 64) then false
  else match DecodeString value with Some _ => true | None => false end.

Definition required_fields (r : ReleaseRequest) : list (string * string) :=
  [("release id", rr_ID r); ("version", rr_Version r); ("target environment", rr_TargetEnvironment r);
   ("source commit", rr_SourceCommit r); ("provenance evidence", rr_ProvenanceEvidence r);
   ("test evidence", rr_TestEvidence r); ("rollback plan", rr_RollbackPlan r);
   ("requested by", rr_RequestedBy r)].

(** The source ranges over a Go map, whose order is unspecified; the message
    names the first blank field of the literal here. *)
Definition validateReleaseRequest (r : ReleaseRequest) : result unit :=
  match List.find (fun f => TrimSpace (snd f) =s "") (required_fields r) with
  | Some (name, _) => Err (Errorf "%s is required" [FStr name])
  | None =>
    if negb (validDigest (rr_ArtifactDigest r)) || negb (validDigest (rr_SBOMDigest r)) then
      Err (Errorf "artifact and sbom digests must be sha256 hex digests" [])
    else if (rr_VulnerabilityStatus r <>s "passed") || (rr_LicenseStatus r <>s "passed") then
      Err (Errorf "vulnerability and license evidence must be passed" [])
    else if rr_RequiredApprovals r <? 2 then
      Err (Errorf "production releases require at least two approvals" [])
    else if IsZero (rr_WindowStart r) || IsZero (rr_WindowEnd r) ||
            negb (After (rr_WindowEnd r) (rr_WindowStart r)) then
      Err (Errorf "a valid release window is required" [])
    else Ok tt
  end.

(** ** The controller *)

Section controller.
Context {S : Type} `{ReleaseStore S}.

(** [if err := m; err != nil { return fmt.Errorf(format, args..., err) }]. *)
Definition wrapping (format : string) (args : list farg) (m : M S unit) : M S unit :=
  r ← attempt m;
  match r with
  | Ok _ => mret tt
  | Err e => fail (Wrapf format args e)
  end.

Definition Create (request : ReleaseRequest) : M S ReleaseRecord :=
  _ ← lift (validateReleaseRequest request);
  at_ ← now;
  let record := mkReleaseRecord request StateDraft [] [] "" "" "" (UTC at_) (UTC at_) in
  let event := mkAuditEvent (rec_ID record) "release.created" (rr_RequestedBy request) "" StateDraft (UTC at_) in
  _ ← wrapping "create release: %w" [] (store_Create record event);
  mret record.

Definition transitionAt (record : ReleaseRecord) (actor event state : string) (at_ : Time)
    (mutate : ReleaseRecord -> ReleaseRecord) : M S ReleaseRecord :=
  _ ← guard_not (TrimSpace actor =s "") (Errorf "release actor is required" []);
  let next := (mutate record) <| rec_State := state |> <| rec_UpdatedAt := at_ |> in
  let audit := mkAuditEvent (rec_ID record) event actor (rec_State record) state at_ in
  _ ← wrapping "release state transition %s -> %s: %w" [FStr (rec_State record); FStr state]
        (store_Transition (rec_ID record) (rec_State record) next audit);
  mret next.

(** What each operation does with the record it read. *)
Definition transition_after (expected actor event : string)
    (mutate : ReleaseRecord -> ReleaseRecord) (state : string) (record : ReleaseRecord) : M S ReleaseRecord :=
  _ ← guard_not (rec_State record <>s expected)
        (Errorf "release state is %s, expected %s" [FStr (rec_State record); FStr expected]);
  at_ ← now;
  transitionAt record actor event state (UTC at_) mutate.

Definition transition (id expected actor event : string)
    (mutate : ReleaseRecord -> ReleaseRecord) (state : string) : M S ReleaseRecord :=
  record ← store_Get id;
  transition_after expected actor event mutate state record.

Definition RequestApproval (id actor : string) : M S ReleaseRecord :=
  transition id StateDraft actor "release.approval_requested" (fun r => r) StatePendingApproval.

Definition Approve_after (id approver : string) (record : ReleaseRecord) : M S ReleaseRecord :=
  _ ← guard_not (rec_State record <>s StatePendingApproval)
        (Errorf "release is not awaiting approval: %s" [FStr (rec_State record)]);
  _ ← guard_not ((TrimSpace approver =s "") || (approver =s rec_RequestedBy record))
        (Errorf "requester cannot approve its own release" []);
  _ ← guard_not (contains (rec_Approvers record) approver)
        (Errorf "approver has already approved this release" []);
  let next := record <| rec_Approvers := rec_Approvers record ++ [approver] |> in
  let to := if rec_RequiredApprovals record <=? llen (rec_Approvers next)
            then StateApproved else StatePendingApproval in
  at_ ← now;
  let next := next <| rec_State := to |> <| rec_UpdatedAt := UTC at_ |> in
  let event := mkAuditEvent id "release.approved" approver (rec_State record) to (UTC at_) in
  _ ← wrapping "approve release: %w" [] (store_Transition id (rec_State record) next event);
  mret next.

Definition Approve (id approver : string) : M S ReleaseRecord :=
  record ← store_Get id;
  Approve_after id approver record.

Definition Start_after (actor : string) (record : ReleaseRecord) : M S ReleaseRecord :=
  _ ← guard_not (rec_State record <>s StateApproved)
        (Errorf "release is not approved: %s" [FStr (rec_State record)]);
  at_ ← now;
  _ ← guard_not (Before (UTC at_) (rr_WindowStart (rec_Request record)) ||
                 negb (Before (UTC at_) (rr_WindowEnd (rec_Request record))))
        (Errorf "release is outside the approved change window" []);
  transitionAt record actor "release.started" StateExecuting (UTC at_) (fun r => r).

Definition Start (id actor : string) : M S ReleaseRecord :=
  record ← store_Get id;
  Start_after actor record.

Definition finish_after (actor evidence event state : string) (record : ReleaseRecord) : M S ReleaseRecord :=
  _ ← guard_not (rec_State record <>s StateExecuting)
        (Errorf "release is not executing: %s" [FStr (rec_State record)]);
  at_ ← now;
  transitionAt record actor event state (UTC at_) (fun r => r <| rec_DeploymentEvidence := evidence |>).

Definition finish (id actor evidence event state : string) : M S ReleaseRecord :=
  _ ← guard_not (TrimSpace evidence =s "") (Errorf "deployment evidence is required" []);
  record ← store_Get id;
  finish_after actor evidence event state record.

Definition Succeed (id actor evidence : string) : M S ReleaseRecord :=
  finish id actor evidence "release.succeeded" StateSucceeded.

Definition Fail_after (actor reason : string) (record : ReleaseRecord) : M S ReleaseRecord :=
  _ ← guard_not (rec_State record <>s StateExecuting)
        (Errorf "release is not executing: %s" [FStr (rec_State record)]);
  at_ ← now;
  transitionAt record actor "release.failed" StateFailed (UTC at_)
    (fun r => r <| rec_FailureReason := reason |>).

Definition Fail_ (id actor reason : string) : M S ReleaseRecord :=
  _ ← guard_not (TrimSpace reason =s "") (Errorf "release failure reason is required" []);
  record ← store_Get id;
  Fail_after actor reason record.

Definition RequestRollback_after (actor reason : string) (record : ReleaseRecord) : M S ReleaseRecord :=
  _ ← guard_not (rec_State record <>s StateSucceeded)
        (Errorf "release is not eligible for rollback: %s" [FStr (rec_State record)]);
  at_ ← now;
  transitionAt record actor "release.rollback_requested" StateRollbackRequested (UTC at_)
    (fun r => r <| rec_FailureReason := reason |> <| rec_RollbackApprovers := [] |>).

Definition RequestRollback (id actor reason : string) : M S ReleaseRecord :=
  _ ← guard_not (TrimSpace reason =s "") (Errorf "rollback reason is required" []);
  record ← store_Get id;
  RequestRollback_after actor reason record.

Definition ApproveRollback_after (id approver : string) (record : ReleaseRecord) : M S ReleaseRecord :=
  _ ← guard_not (rec_State record <>s StateRollbackRequested)
        (Errorf "rollback is not awaiting approval: %s" [FStr (rec_State record)]);
  _ ← guard_not ((TrimSpace approver =s "") || (approver =s rec_RequestedBy record))
        (Errorf "requester cannot approve its own rollback" []);
  _ ← guard_not (contains (rec_RollbackApprovers record) approver)
        (Errorf "rollback approver has already approved this release" []);
  let next := record <| rec_RollbackApprovers := rec_RollbackApprovers record ++ [approver] |> in
  let to := if rec_RequiredApprovals record <=? llen (rec_RollbackApprovers next)
            then StateRollbackApproved else StateRollbackRequested in
  at_ ← now;
  let next := next <| rec_State := to |> <| rec_UpdatedAt := UTC at_ |> in
  let event := mkAuditEvent id "release.rollback_approved" approver (rec_State record) to (UTC at_) in
  _ ← wrapping "approve rollback: %w" [] (store_Transition id (rec_State record) next event);
  mret next.

Definition ApproveRollback (id approver : string) : M S ReleaseRecord :=
  record ← store_Get id;
  ApproveRollback_after id approver record.

Definition StartRollback (id actor : string) : M S ReleaseRecord :=
  transition id StateRollbackApproved actor "release.rollback_started" (fun r => r) StateRollingBack.

Definition CompleteRollback_after (actor evidence : string) (record : ReleaseRecord) : M S ReleaseRecord :=
  _ ← guard_not (rec_State record <>s StateRollingBack)
        (Errorf "rollback is not executing: %s" [FStr (rec_State record)]);
  at_ ← now;
  transitionAt record actor "release.rollback_completed" StateRolledBack (UTC at_)
    (fun r => r <| rec_RollbackEvidence := evidence |>).

Definition CompleteRollback (id actor evidence : string) : M S ReleaseRecord :=
  _ ← guard_not (TrimSpace evidence =s "") (Errorf "rollback evidence is required" []);
  record ← store_Get id;
  CompleteRollback_after actor evidence record.
End controller.

(** ** Specification *)

(** The operations on an existing release. *)
Inductive op :=
| ORequestApproval (actor : string)
| OApprove (approver : string)
| OStart (actor : string)
| OSucceed (actor evidence : string)
| OFail (actor reason : string)
| ORequestRollback (actor reason : string)
| OApproveRollback (approver : string)
| OStartRollback (actor : string)
| OCompleteRollback (actor evidence : string).

(** The argument an operation requires before it reads the record. *)
Definition required_text (o : op) : option string :=
  match o with
  | OSucceed _ t | OFail _ t | ORequestRollback _ t | OCompleteRollback _ t => Some t
  | _ => None
  end.

Definition text_ok (o : op) : Prop :=
  match required_text o with Some t => TrimSpace t <> "" | None => True end.

Section operations.
Context {S : Type} `{ReleaseStore S}.

Definition run_op (id : string) (o : op) : M S ReleaseRecord :=
  match o with
  | ORequestApproval a => RequestApproval id a
  | OApprove a => Approve id a
  | OStart a => Start id a
  | OSucceed a t => Succeed id a t
  | OFail a t => Fail_ id a t
  | ORequestRollback a t => RequestRollback id a t
  | OApproveRollback a => ApproveRollback id a
  | OStartRollback a => StartRollback id a
  | OCompleteRollback a t => CompleteRollback id a t
  end.

(** The second half of an operation: what follows the read of the record. *)
Definition op_after (id : string) (o : op) : ReleaseRecord -> M S ReleaseRecord :=
  match o with
  | ORequestApproval a => transition_after StateDraft a "release.approval_requested" (fun r => r) StatePendingApproval
  | OApprove a => Approve_after id a
  | OStart a => Start_after a
  | OSucceed a t => finish_after a t "release.succeeded" StateSucceeded
  | OFail a t => Fail_after a t
  | ORequestRollback a t => RequestRollback_after a t
  | OApproveRollback a => ApproveRollback_after id a
  | OStartRollback a => transition_after StateRollbackApproved a "release.rollback_started" (fun r => r) StateRollingBack
  | OCompleteRollback a t => CompleteRollback_after a t
  end.
End operations.

(** The moves of the life cycle: from which state, to which state, and what
    the operation changes in the record besides its state and timestamp. *)
Inductive moves : op -> ReleaseRecord -> string -> ReleaseRecord -> Prop :=
| M_request r a : rec_State r = StateDraft -> moves (ORequestApproval a) r StatePendingApproval r
| M_approve r a to :
    rec_State r = StatePendingApproval -> TrimSpace a <> "" -> a <> rec_RequestedBy r ->
    a ∉ rec_Approvers r ->
    ((rec_RequiredApprovals r <= llen (rec_Approvers r) + 1 /\ to = StateApproved) \/
     (llen (rec_Approvers r) + 1 < rec_RequiredApprovals r /\ to = StatePendingApproval)) ->
    moves (OApprove a) r to (r <| rec_Approvers := rec_Approvers r ++ [a] |>)
| M_start r a : rec_State r = StateApproved -> moves (OStart a) r StateExecuting r
| M_succeed r a t : rec_State r = StateExecuting ->
    moves (OSucceed a t) r StateSucceeded (r <| rec_DeploymentEvidence := t |>)
| M_fail r a t : rec_State r = StateExecuting ->
    moves (OFail a t) r StateFailed (r <| rec_FailureReason := t |>)
| M_request_rollback r a t : rec_State r = StateSucceeded ->
    moves (ORequestRollback a t) r StateRollbackRequested
      (r <| rec_FailureReason := t |> <| rec_RollbackApprovers := [] |>)
| M_approve_rollback r a to :
    rec_State r = StateRollbackRequested -> TrimSpace a <> "" -> a <> rec_RequestedBy r ->
    a ∉ rec_RollbackApprovers r ->
    ((rec_RequiredApprovals r <= llen (rec_RollbackApprovers r) + 1 /\ to = StateRollbackApproved) \/
     (llen (rec_RollbackApprovers r) + 1 < rec_RequiredApprovals r /\ to = StateRollbackRequested)) ->
    moves (OApproveRollback a) r to (r <| rec_RollbackApprovers := rec_RollbackApprovers r ++ [a] |>)
| M_start_rollback r a : rec_State r = StateRollbackApproved -> moves (OStartRollback a) r StateRollingBack r
| M_complete r a t : rec_State r = StateRollingBack ->
    moves (OCompleteRollback a t) r StateRolledBack (r <| rec_RollbackEvidence := t |>).

(** The states in which the release, and then its rollback, has been approved. *)
Definition approved_states := [StateApproved; StateExecuting; StateSucceeded; StateFailed;
  StateRollbackRequested; StateRollbackApproved; StateRollingBack; StateRolledBack].
Definition rollback_approved_states := [StateRollbackApproved; StateRollingBack; StateRolledBack].
Definition deployed_states := [StateSucceeded; StateRollbackRequested; StateRollbackApproved;
  StateRollingBack; StateRolledBack].

(** Enough distinct approvers, none of them the requester. *)
Definition dual_control (r : ReleaseRecord) (approvers : list string) : Prop :=
  NoDup approvers /\ (rec_RequestedBy r ∉ approvers) /\ 2 <= rec_RequiredApprovals r <= llen approvers.

Definition record_ok (r : ReleaseRecord) : Prop :=
  validateReleaseRequest (rec_Request r) = Ok tt /\
  NoDup (rec_Approvers r) /\ (rec_RequestedBy r ∉ rec_Approvers r) /\
  NoDup (rec_RollbackApprovers r) /\ (rec_RequestedBy r ∉ rec_RollbackApprovers r) /\
  (rec_State r ∈ StateDraft :: StatePendingApproval :: approved_states) /\
  (rec_State r ∈ approved_states -> rec_RequiredApprovals r <= llen (rec_Approvers r)) /\
  (rec_State r ∈ rollback_approved_states -> rec_RequiredApprovals r <= llen (rec_RollbackApprovers r)) /\
  (rec_State r ∈ deployed_states -> TrimSpace (rec_DeploymentEvidence r) <> "") /\
  (rec_State r = StateRolledBack -> TrimSpace (rec_RollbackEvidence r) <> "").

(** The state of a release according to the audit trail, [""] before its
    creation, and a trail in which every event starts where the last one of
    its release ended. *)
Definition last_state (id : string) (events : list AuditEvent) : string :=
  fold_left (fun st ev => if ev_ReleaseID ev =s id then ev_To ev else st) events "".

Inductive audited : list AuditEvent -> Prop :=
| A_nil : audited []
| A_snoc events ev : audited events -> ev_From ev = last_state (ev_ReleaseID ev) events ->
    audited (events ++ [ev]).

Section concurrency.
Context {S : Type} `{ReleaseStore S}.

(** Concurrent controllers: the store and the records read so far; an
    operation may save from any record read earlier, however stale. *)
Inductive cstep : S * list (string * ReleaseRecord) -> S * list (string * ReleaseRecord) -> Prop :=
| S_create request e n s r n' s' snaps :
    Create request e n s = (r, n', s') -> cstep (s, snaps) (s', snaps)
| S_load id e n s r n' s' snaps :
    store_Get id e n s = (Ok r, n', s') -> cstep (s, snaps) (s', (id, r) :: snaps)
| S_save id o record e n s r n' s' snaps :
    (id, record) ∈ snaps -> text_ok o -> op_after id o record e n s = (r, n', s') ->
    cstep (s, snaps) (s', snaps).
End concurrency.

(** ** Lemmas *)

Lemma validate_inv r :
  validateReleaseRequest r = Ok tt -> TrimSpace (rr_ID r) <> "" /\ 2 <= rr_RequiredApprovals r.
Proof.
  unfold validateReleaseRequest. destruct (List.find _ _) as [[name v]|] eqn:F; [discriminate|].
  intros H. guards H. breflect. split; [|lia].
  assert (N := List.find_none _ _ F ("release id", rr_ID r)).
  cbn [required_fields snd] in N. apply String.eqb_neq, N. left. done.
Qed.

Lemma last_state_snoc id events ev :
  last_state id (events ++ [ev]) = if ev_ReleaseID ev =s id then ev_To ev else last_state id events.
Proof. unfold last_state. by rewrite fold_left_app. Qed.

Lemma llen_snoc {A} (l : list A) x : llen (l ++ [x]) = llen l + 1.
Proof. unfold llen. rewrite length_app. cbn. lia. Qed.

(** An approved record becomes the stored one, with its event. *)
Definition stored (r : ReleaseRecord) (at_ : Time) (to : string) : ReleaseRecord :=
  r <| rec_State := to |> <| rec_UpdatedAt := at_ |>.

Section store.
Context {S : Type} {RS : ReleaseStore S} (view : S -> string -> option ReleaseRecord)
  (log : S -> list AuditEvent) {Laws : ReleaseStoreLaws S view log}.

Definition unchanged (s s' : S) : Prop := view s' = view s /\ log s' = log s.

(** The store after a transition of [id] from [from] to the record [next]. *)
Definition wrote (s s' : S) (id from : string) (next : ReleaseRecord) : Prop :=
  (exists old, view s id = Some old /\ rec_State old = from) /\
  (exists ev, log s' = log s ++ [ev] /\ ev_ReleaseID ev = id /\ ev_From ev = from /\
              ev_To ev = rec_State next) /\
  forall i, view s' i = if i =s id then Some next else view s i.

Lemma save_effect {A} format args id from next ev (a : A) e n s r n' s' :
  (_ ← wrapping format args (store_Transition id from next ev); mret a) e n s = (r, n', s') ->
  ev_ReleaseID ev = id -> ev_From ev = from -> ev_To ev = rec_State next ->
  unchanged s s' \/ wrote s s' id from next.
Proof.
  unfold wrapping, attempt, mbind, M_bind, mret, M_ret, fail. intros H E1 E2 E3.
  destruct (store_Transition id from next ev e n s) as [[[[]|err] k] t] eqn:T; injection H as _ _ <-.
  - right. apply transition_ok in T as (O & L & V). split; [done|]. split; [|done]. by exists ev.
  - left. by apply transition_err in T.
Qed.

Lemma transitionAt_effect record actor event state at_ mutate e n s r n' s' :
  transitionAt record actor event state at_ mutate e n s = (r, n', s') ->
  unchanged s s' \/ wrote s s' (rec_ID record) (rec_State record) (stored (mutate record) at_ state).
Proof.
  unfold transitionAt, guard_not. destruct (TrimSpace actor =s "").
  - unfold mbind, M_bind, fail. intros [= _ _ <-]. by left.
  - intros H. eapply save_effect in H; [|done..]. done.
Qed.

(** The second half of every operation leaves the store as it was or makes one
    of the moves. *)
Definition moves_or_not (id : string) (o : op) (record : ReleaseRecord) (s s' : S) : Prop :=
  unchanged s s' \/
  exists to next at_, moves o record to next /\
    wrote s s' id (rec_State record) (stored next at_ to).

Lemma transitionAt_moves o record actor event state at_ mutate e n s r n' s' :
  transitionAt record actor event state at_ mutate e n s = (r, n', s') ->
  moves o record state (mutate record) -> moves_or_not (rec_ID record) o record s s'.
Proof.
  intros H M. apply transitionAt_effect in H as [H|H]; [by left|]. right. eauto.
Qed.

Lemma op_after_effect id o record e n s r n' s' :
  op_after id o record e n s = (r, n', s') -> rec_ID record = id -> 
  moves_or_not id o record s s'.
Proof.
  intros H <-. destruct o; cbn in H;
  unfold transition_after, Approve_after, Start_after, finish_after, Fail_after,
    RequestRollback_after, ApproveRollback_after, CompleteRollback_after, UTC in H;
  repeat (apply guard_split in H as [(_ & _ & ->)|[? H]]; [by left|rewrite ?now_split in H]);
  rewrite ?now_split in H; breflect;
  try solve [eapply transitionAt_moves; [exact H|]; by constructor].
  all: repeat match goal with E : contains _ _ = false |- _ => apply contains_false in E end.
  all: eapply save_effect in H as [H|H]; [by left| |done..]; right; cbn in H.
  all: eexists _, _, _; (split; [|exact H]); constructor; try done; rewrite llen_snoc;
    match goal with |- context [?x <=? ?y] => destruct (Z.leb_spec x y) end; tauto.
Qed.
End store.

(** Membership of a constant state in a constant list, by evaluation. *)
Lemma state_in s l : s ∈ l <-> contains l s = true.
Proof. symmetry. apply contains_spec. Qed.

Ltac eval_members :=
  repeat match goal with
  | |- context [contains ?l ?s] =>
    let v := eval vm_compute in (contains l s) in
    match v with true => change (contains l s) with true | false => change (contains l s) with false end
  | H : context [contains ?l ?s] |- _ =>
    let v := eval vm_compute in (contains l s) in
    match v with true => change (contains l s) with true in H | false => change (contains l s) with false in H end
  end.

Lemma NoDup_snoc {A} (l : list A) x : NoDup l -> x ∉ l -> NoDup (l ++ [x]).
Proof.
  intros N X. apply NoDup_app. split_and!; [done| |apply NoDup_singleton].
  intros y Hy Hs. apply list_elem_of_singleton in Hs as ->. done.
Qed.

Lemma not_elem_snoc {A} (l : list A) x y : y ∉ l -> x <> y -> y ∉ l ++ [x].
Proof. intros Y N H. apply elem_of_app in H as [H|H]; [done|]. by apply list_elem_of_singleton in H. Qed.

#[export] Hint Resolve NoDup_snoc not_elem_snoc NoDup_nil_2 not_elem_of_nil : forge.

Lemma moves_ok o r to next at_ :
  record_ok r -> text_ok o -> moves o r to next -> record_ok (stored next at_ to).
Proof.
  unfold record_ok. rewrite !state_in. intros (V & N1 & R1 & N2 & R2 & K & A & B & D & E) T M.
  destruct M as [r a S|r a to S X Y Z W|r a S|r a t S|r a t S|r a t S|r a to S X Y Z W|r a S|r a t S];
    rewrite ?S in *; eval_members; cbn in T;
    try (destruct W as [[W ->]|[W ->]]);
    unfold stored, rec_RequestedBy, rec_RequiredApprovals in *; cbn; eval_members;
    rewrite ?llen_snoc; split_and!; eauto with forge; try done; try lia; intros; try discriminate; auto.
  all: rewrite <- state_in in *; auto with forge.
Qed.

Section reachable.
Context {S : Type} {RS : ReleaseStore S} (view : S -> string -> option ReleaseRecord)
  (log : S -> list AuditEvent) {Laws : ReleaseStoreLaws S view log}.

(** What holds in every reachable configuration: records are well formed, they
    agree with the audit trail, and the records read so far belong to the same
    requests. *)
Definition store_ok (s : S) : Prop :=
  audited (log s) /\
  forall id, match view s id with
  | Some r => rec_ID r = id /\ record_ok r /\ last_state id (log s) = rec_State r
  | None => last_state id (log s) = ""
  end.

Definition snaps_ok (s : S) (snaps : list (string * ReleaseRecord)) : Prop :=
  Forall (fun p => record_ok (snd p) /\
    exists cur, view s (fst p) = Some cur /\ rec_Request cur = rec_Request (snd p)) snaps.

Lemma moves_request o r to next : moves o r to next -> rec_Request next = rec_Request r.
Proof. by intros []. Qed.

Lemma unchanged_ok s s' snaps :
  unchanged view log s s' -> store_ok s -> snaps_ok s snaps -> store_ok s' /\ snaps_ok s' snaps.
Proof. unfold store_ok, snaps_ok. intros [-> ->]; auto. Qed.

Lemma Create_effect request e n s r n' s' :
  Create request e n s = (r, n', s') ->
  unchanged view log s s' \/
  exists record ev, record_ok record /\ view s (rec_ID record) = None /\
    rec_State record = StateDraft /\
    log s' = log s ++ [ev] /\ ev_ReleaseID ev = rec_ID record /\ ev_From ev = "" /\
    ev_To ev = StateDraft /\
    forall id, view s' id = if id =s rec_ID record then Some record else view s id.
Proof.
  unfold Create, mbind at 1, M_bind at 1, lift.
  destruct (validateReleaseRequest request) as [[]|] eqn:V; [|intros [= _ _ <-]; by left].
  rewrite now_split. unfold wrapping, attempt, mbind, M_bind, mret, M_ret, fail, UTC.
  set (record := mkReleaseRecord _ _ _ _ _ _ _ _ _).
  destruct (store_Create record _ _ _ _) as [[[[]|err] k] t] eqn:C; intros [= _ _ <-].
  - right. apply create_ok in C as (N & L & F). exists record. eexists. split_and!; try done.
    unfold record_ok, record; cbn. rewrite !state_in. eval_members.
    split_and!; try done; auto with forge; try constructor; intros H; inversion H.
  - left. by apply create_err in C.
Qed.

Lemma create_step_ok request e n s r n' s' snaps :
  Create request e n s = (r, n', s') -> store_ok s -> snaps_ok s snaps ->
  store_ok s' /\ snaps_ok s' snaps.
Proof.
  intros H OK SN. apply Create_effect in H as [U|H]; [by eapply unchanged_ok|].
  destruct H as (record & ev & R & N & D & L & E1 & E2 & E3 & F).
  destruct OK as [A OK]. split; [split|].
  - rewrite L. constructor; [done|]. rewrite E1, E2. specialize (OK (rec_ID record)).
    by rewrite N in OK.
  - intros id. rewrite F, L, last_state_snoc, E1, String.eqb_sym.
    destruct (String.eqb_spec (rec_ID record) id) as [<-|X]; [|apply OK].
    by rewrite E3, D.
  - unfold snaps_ok in *. eapply Forall_impl; [exact SN|]. intros [id c] (Rc & cur & V & Q).
    split; [done|]. exists cur. split; [|done]. cbn in *. rewrite F.
    destruct (String.eqb_spec id (rec_ID record)) as [->|X]; [congruence|done].
Qed.

Lemma save_step_ok id o record e n s r n' s' snaps :
  op_after id o record e n s = (r, n', s') -> text_ok o -> (id, record) ∈ snaps ->
  store_ok s -> snaps_ok s snaps -> store_ok s' /\ snaps_ok s' snaps.
Proof.
  intros H T I OK SN. pose proof SN as SN'. unfold snaps_ok in SN'. rewrite Forall_forall in SN'.
  destruct (SN' _ I) as (R & cur & V & Q). cbn in *. destruct OK as [A OK].
  pose proof (OK id) as C. rewrite V in C. destruct C as (ID & _ & _).
  assert (ID' : rec_ID record = id) by (unfold rec_ID in *; congruence).
  destruct (op_after_effect view log _ _ _ _ _ _ _ _ _ H ID') as [U|(to & next & at_ & Mv & W)];
    [by eapply unchanged_ok|].
  pose proof (moves_request _ _ _ _ Mv) as Q'.
  destruct W as ((old & V' & So) & (ev & L & E1 & E2 & E3) & F). assert (old = cur) as -> by congruence.
  split; [split|].
  - rewrite L. constructor; [done|]. rewrite E1, E2, <- So. specialize (OK id). rewrite V in OK.
    by destruct OK as (_ & _ & ->).
  - intros i. rewrite F, L, last_state_snoc, E1, String.eqb_sym.
    destruct (String.eqb_spec id i) as [<-|X]; [|apply OK].
    rewrite E3. split_and!; [|by eapply moves_ok|done].
    unfold stored, rec_ID in *; cbn. congruence.
  - unfold snaps_ok in *. eapply Forall_impl; [exact SN|]. intros [i c] (Rc & cu & Vi & Qi). cbn in *.
    split; [done|]. rewrite F. destruct (String.eqb_spec i id) as [->|X]; [|by exists cu].
    eexists. split; [done|]. unfold stored; cbn. congruence.
Qed.

Lemma release_cstep_ok s snaps s' snaps' :
  cstep (s, snaps) (s', snaps') -> store_ok s /\ snaps_ok s snaps -> store_ok s' /\ snaps_ok s' snaps'.
Proof.
  intros H [OK SN]. inversion H as [request e n s0 r n' s1 sn E|id e n s0 r n' s1 sn E
    |id o record e n s0 r n' s1 sn I T E]; subst.
  - by eapply create_step_ok.
  - pose proof (get_ok _ _ _ _ _ _ _ E) as G. pose proof (get_frame _ _ _ _ _ _ _ E) as F.
    destruct (unchanged_ok _ _ _ F OK SN) as [OK' SN']. split; [done|]. constructor; [|done].
    destruct OK as [_ OK]. specialize (OK id). rewrite G in OK. cbn. split; [tauto|].
    exists r. by rewrite (proj1 F).
  - by eapply save_step_ok.
Qed.

Lemma rtc_ok s0 s snaps :
  (forall i, view s0 i = None) -> log s0 = [] -> rtc cstep (s0, []) (s, snaps) ->
  store_ok s /\ snaps_ok s snaps.
Proof.
  intros E L H.
  assert (I : store_ok s0 /\ snaps_ok s0 []).
  { split; [|constructor]. split; [rewrite L; constructor|]. intros id. by rewrite E, L. }
  assert (G : forall c c', rtc cstep c c' -> store_ok (fst c) /\ snaps_ok (fst c) (snd c) ->
    store_ok (fst c') /\ snaps_ok (fst c') (snd c')).
  { intros c c' R. induction R as [|[x1 x2] [y1 y2] z C R IH]; [done|].
    intros K. apply IH. by eapply release_cstep_ok. }
  exact (G _ _ H I).
Qed.
End reachable.

(** ** A store in memory

    An implementation of the contract, which shows that it can be met. *)
Definition MemStore : Type := gmap string ReleaseRecord * list AuditEvent.
Definition mem_view (s : MemStore) (id : string) : option ReleaseRecord := fst s !! id.
Definition mem_log (s : MemStore) : list AuditEvent := snd s.

#[export] Instance mem_store : ReleaseStore MemStore := {
  store_Create r ev := stmt (fun s =>
    match fst s !! rec_ID r with
    | Some _ => Err ErrDuplicate
    | None => Ok (tt, (<[rec_ID r := r]> (fst s), snd s ++ [ev]))
    end);
  store_Get id := queryR (fun s => match fst s !! id with Some r => Ok r | None => Err ErrNoRows end);
  store_Transition id from next ev := stmt (fun s =>
    match fst s !! id with
    | Some old => if rec_State old =s from then Ok (tt, (<[id := next]> (fst s), snd s ++ [ev]))
                  else Err ErrNoRows
    | None => Err ErrNoRows
    end)
}.

Lemma lookup_insert_if (m : gmap string ReleaseRecord) k r i :
  <[k := r]> m !! i = if i =s k then Some r else m !! i.
Proof.
  destruct (String.eqb_spec i k) as [->|N]; [by rewrite lookup_insert_eq|].
  by rewrite lookup_insert_ne.
Qed.

#[export] Instance mem_laws : ReleaseStoreLaws MemStore mem_view mem_log.
Proof.
  split; cbn; unfold mem_view, mem_log, queryR, stmt; intros;
    repeat match goal with
    | H : context [faults ?e ?n] |- _ => destruct (faults e n)
    | H : context [match ?m !! ?k with _ => _ end] |- _ => destruct (m !! k) eqn:?
    | H : context [if ?b then _ else _] |- _ => destruct b eqn:?
    end; breflect; simplify_eq; cbn; try done; split_and!; eauto using lookup_insert_if.
Qed.

(** ** Properties *)

(** C9.  Dual control: however the operations of concurrent controllers
    interleave (each reads its record and saves later, possibly from a stale
    one), and whatever store calls fail, a release that is approved, executing,
    finished or rolled back has at least two approvers, distinct and none of
    them the requester; a rollback that is approved has as many of its own;
    and a release that succeeded carries deployment evidence. *)
Theorem releases_keep_dual_control {S} {RS : ReleaseStore S} view log
    {Laws : ReleaseStoreLaws S view log} s0 s snaps id r :
  (forall i, view s0 i = None) -> log s0 = [] ->
  rtc cstep (s0, []) (s, snaps) -> view s id = Some r ->
  (rec_State r ∈ approved_states -> dual_control r (rec_Approvers r)) /\
  (rec_State r ∈ rollback_approved_states -> dual_control r (rec_RollbackApprovers r)) /\
  (rec_State r ∈ deployed_states -> TrimSpace (rec_DeploymentEvidence r) <> "").
Proof.
  intros E L H V. destruct (rtc_ok view log s0 s snaps E L H) as [[_ OK] _].
  specialize (OK id). rewrite V in OK. destruct OK as (_ & R & _).
  destruct R as (Va & N1 & R1 & N2 & R2 & K & A & B & D & _).
  apply validate_inv in Va as [_ Two]. unfold dual_control, rec_RequiredApprovals in *.
  split_and!; auto; intros; split_and!; auto.
Qed.

(** The audit trail is complete: in every reachable store each event of a
    release starts in the state the previous one ended in (the first is its
    creation), and the last one ends in the state that is stored. *)
Theorem release_trail_is_complete {S} {RS : ReleaseStore S} view log
    {Laws : ReleaseStoreLaws S view log} s0 s snaps :
  (forall i, view s0 i = None) -> log s0 = [] -> rtc cstep (s0, []) (s, snaps) ->
  audited (log s) /\
  forall id, last_state id (log s) = match view s id with Some r => rec_State r | None => "" end.
Proof.
  intros E L H. destruct (rtc_ok view log s0 s snaps E L H) as [[A OK] _].
  split; [done|]. intros id. specialize (OK id). destruct (view s id); [tauto|done].
Qed.

(** A release approved by two people, on the store in memory. *)
Definition sample_env : Env := mkEnv (fun _ => 100) (fun _ => "u") (fun _ => None) (fun _ _ => "0"%char) false.
Definition sample_request : ReleaseRequest :=
  mkReleaseRequest "rel-1" "1.0" "production" (srepeat 64 "a") (srepeat 64 "b") "c0ffee" "att" "ci"
    "passed" "passed" "plan" "maker" 2 50 200.
Definition mem_empty : MemStore := (∅, []).
Definition mem_after {A} (m : M MemStore A) (s : MemStore) : MemStore := snd (m sample_env 0%nat s).
Definition mem_get (s : MemStore) : ReleaseRecord :=
  default (mkReleaseRecord sample_request "" [] [] "" "" "" 0 0) (mem_view s "rel-1").

Definition mem_created := mem_after (Create sample_request) mem_empty.
Definition mem_run (o : op) (s : MemStore) : MemStore := mem_after (op_after "rel-1" o (mem_get s)) s.
Definition mem_requested := mem_run (ORequestApproval "maker") mem_created.
Definition mem_approved := mem_run (OApprove "bob") (mem_run (OApprove "ann") mem_requested).

Lemma mem_step o s snaps :
  text_ok o -> store_Get "rel-1" sample_env 0%nat s = (Ok (mem_get s), 1%nat, s) ->
  rtc cstep (s, snaps) (mem_run o s, ("rel-1", mem_get s) :: snaps).
Proof.
  intros T G. eapply rtc_l; [exact (S_load "rel-1" _ _ _ _ _ _ snaps G)|].
  eapply rtc_l; [|apply rtc_refl].
  apply (S_save "rel-1" o (mem_get s) sample_env 0%nat s
    (fst (fst (op_after "rel-1" o (mem_get s) sample_env 0%nat s)))
    (snd (fst (op_after "rel-1" o (mem_get s) sample_env 0%nat s)))); [constructor|done|].
  unfold mem_run, mem_after. by destruct (op_after _ _ _ _ _ _) as [[? ?] ?].
Defined.

Definition mem_trace : list (string * ReleaseRecord) :=
  [("rel-1", mem_get (mem_run (OApprove "ann") mem_requested));
   ("rel-1", mem_get mem_requested); ("rel-1", mem_get mem_created)].

Lemma mem_reachable : rtc cstep (mem_empty, []) (mem_approved, mem_trace).
Proof.
  eapply rtc_l.
  { apply (S_create sample_request sample_env 0%nat mem_empty
      (fst (fst (Create sample_request sample_env 0%nat mem_empty)))
      (snd (fst (Create sample_request sample_env 0%nat mem_empty))) mem_created []).
    unfold mem_created, mem_after. by destruct (Create _ _ _ _) as [[? ?] ?]. }
  etrans; [apply (mem_step (ORequestApproval "maker")); [done|vm_compute; reflexivity]|].
  etrans; [apply (mem_step (OApprove "ann")); [done|vm_compute; reflexivity]|].
  apply (mem_step (OApprove "bob")); [done|vm_compute; reflexivity].
Defined.

Lemma releases_keep_dual_control_witness :
  rec_State (mem_get mem_approved) ∈ approved_states /\
  dual_control (mem_get mem_approved) (rec_Approvers (mem_get mem_approved)).
Proof.
  assert (V : mem_view mem_approved "rel-1" = Some (mem_get mem_approved)) by (vm_compute; reflexivity).
  assert (St : rec_State (mem_get mem_approved) ∈ approved_states)
    by (apply state_in; vm_compute; reflexivity).
  split; [exact St|].
  exact (proj1 (releases_keep_dual_control mem_view mem_log mem_empty mem_approved mem_trace "rel-1"
    (mem_get mem_approved) (fun i => lookup_empty i) eq_refl mem_reachable V) St).
Defined.

Lemma release_trail_is_complete_witness : last_state "rel-1" (mem_log mem_approved) = StateApproved.
Proof.
  assert (V : match mem_view mem_approved "rel-1" with Some r => rec_State r | None => "" end = StateApproved)
    by (vm_compute; reflexivity).
  transitivity (match mem_view mem_approved "rel-1" with Some r => rec_State r | None => "" end); [|exact V].
  apply (proj2 (release_trail_is_complete mem_view mem_log mem_empty mem_approved mem_trace
    (fun i => lookup_empty i) eq_refl mem_reachable)).
Defined.
