(* ===== verification/Approval.v ===== *)
(** * Approvals

    [internal/domain/approval], the service [internal/app/approval] and the
    tables of [internal/adapters/repository/approval.go]: requests, the tasks
    of their approvers and the executions they authorise. *)

From S2P Require Import Prelude GoString Crypto Json Database Identity GrantPolicy.

Definition ModeAny := "ANY".
Definition ModeAll := "ALL".
Definition ModeQuorum := "QUORUM".

Definition StatusPending := "PENDING".
Definition StatusApproved := "APPROVED".
Definition StatusRejected := "REJECTED".
Definition StatusWithdrawn := "WITHDRAWN".
Definition StatusExpired := "EXPIRED".
Definition StatusCancelled := "CANCELLED".

Definition DecisionApprove := "APPROVE".
Definition DecisionReject := "REJECT".

Definition ErrInvalidRequest : error := Sentinel "approval.ErrInvalidRequest".
Definition ErrMakerChecker : error := Sentinel "approval.ErrMakerChecker".
Definition ErrNotPending : error := Sentinel "approval.ErrNotPending".
Definition ErrTaskNotAssigned : error := Sentinel "approval.ErrTaskNotAssigned".
Definition ErrDigestMismatch : error := Sentinel "approval.ErrDigestMismatch".
Definition ErrAlreadyExecuted : error := Sentinel "approval.ErrAlreadyExecuted".

Record Task := mkTask {
  t_ID : string;
  t_RequestID : string;
  t_AssigneeID : string;
  t_Status : string;
  t_Decision : string;
  t_Comment : string;
  t_TransferredFrom : string;
  t_DecidedAt : option Time;
  t_CreatedAt : Time;
  t_UpdatedAt : Time
}.
#[export] Instance Task_eta : Eta Task := fun t =>
  mkTask (t_ID t) (t_RequestID t) (t_AssigneeID t) (t_Status t) (t_Decision t) (t_Comment t)
    (t_TransferredFrom t) (t_DecidedAt t) (t_CreatedAt t) (t_UpdatedAt t).

Record Request := mkRequest {
  r_ID : string;
  r_OrganizationID : string;
  r_RequestType : string;
  r_Action : string;
  r_Resource : string;
  r_ResourceID : string;
  r_Summary : string;
  r_PayloadJSON : string;
  r_RequestDigest : string;
  r_ApplicantID : string;
  r_Mode : string;
  r_RequiredApprovals : Z;
  r_Status : string;
  r_ExpiresAt : Time;
  r_CreatedAt : Time;
  r_UpdatedAt : Time;
  r_Tasks : list Task
}.
#[export] Instance Request_eta : Eta Request := fun r =>
  mkRequest (r_ID r) (r_OrganizationID r) (r_RequestType r) (r_Action r) (r_Resource r)
    (r_ResourceID r) (r_Summary r) (r_PayloadJSON r) (r_RequestDigest r) (r_ApplicantID r) (r_Mode r)
    (r_RequiredApprovals r) (r_Status r) (r_ExpiresAt r) (r_CreatedAt r) (r_UpdatedAt r) (r_Tasks r).

(** ** Creation rules and resolution *)

(** The loop over the approvers: none blank or the applicant, none twice. *)
Fixpoint check_approvers (applicant : string) (seen : list string) (approverIDs : list string) : result unit :=
  match approverIDs with
  | [] => Ok tt
  | approverID :: rest =>
    if (approverID =s "") || (approverID =s applicant) then Err ErrMakerChecker
    else if contains seen approverID then Err ErrInvalidRequest
    else check_approvers applicant (approverID :: seen) rest
  end.

(** [at_] is the clock's reading in the check of the expiry. *)
Definition ValidateCreation (request : Request) (approverIDs : list string) (at_ : Time) : result unit :=
  let mode := ToUpper (TrimSpace (r_Mode request)) in
  if (r_OrganizationID request =s "") || (r_ApplicantID request =s "") ||
     (r_RequestType request =s "") || (r_Action request =s "") || (r_Resource request =s "") ||
     (r_RequestDigest request =s "") || (r_Summary request =s "") || (llen approverIDs =? 0) ||
     negb (After (r_ExpiresAt request) (UTC at_)) then Err ErrInvalidRequest
  else match check_approvers (r_ApplicantID request) [] approverIDs with
  | Err e => Err e
  | Ok _ =>
    if mode =s ModeAny then
      if negb (r_RequiredApprovals request =? 1) then Err ErrInvalidRequest else Ok tt
    else if mode =s ModeAll then
      if negb (r_RequiredApprovals request =? llen approverIDs) then Err ErrInvalidRequest else Ok tt
    else if mode =s ModeQuorum then
      if (r_RequiredApprovals request <? 1) || (llen approverIDs <? r_RequiredApprovals request)
      then Err ErrInvalidRequest else Ok tt
    else Err ErrInvalidRequest
  end.

Definition ResolveStatus (required approved rejected pending : Z) : string :=
  if (0 <? rejected) || (approved + pending <? required) then StatusRejected
  else if required <=? approved then StatusApproved
  else StatusPending.

Definition IsApprovalParticipant (request : Request) (userID : string) : bool :=
  if r_ApplicantID request =s userID then true
  else existsb (fun task => (t_AssigneeID task =s userID) || (t_TransferredFrom task =s userID))
         (r_Tasks request).

(** ** The tables

    The rows of [approval_requests] are requests without their tasks; of the
    users the queries read the identifier, the organization and the status. *)
Record UserRow := mkUserRow { u_id : string; u_organization_id : string; u_status : string }.

Record Execution := mkExecution {
  x_id : string;
  x_request_id : string;
  x_executed_by : string;
  x_request_digest : string;
  x_executed_at : Time
}.

Record Tables := mkTables {
  tb_users : list UserRow;
  tb_requests : list Request;
  tb_tasks : list Task;
  tb_executions : list Execution
}.
#[export] Instance Tables_eta : Eta Tables := fun t =>
  mkTables (tb_users t) (tb_requests t) (tb_tasks t) (tb_executions t).

(** [SELECT COUNT] of the active users with an identifier in an organization. *)
Definition count_active (userID orgID : string) (t : Tables) : Z :=
  count_if (fun u => (u_id u =s userID) && (u_organization_id u =s orgID) && (u_status u =s "ACTIVE"))
    (tb_users t).

Definition insert_request (r : Request) (t : Tables) : result (unit * Tables) :=
  if existsb (fun x => r_ID x =s r_ID r) (tb_requests t) then Err ErrDuplicate
  else Ok (tt, t <| tb_requests := tb_requests t ++ [r <| r_Tasks := [] |>] |>).

(** Primary key [id], unique key [(request_id, assignee_id)]. *)
Definition insert_task (k : Task) (t : Tables) : result (unit * Tables) :=
  if existsb (fun x => (t_ID x =s t_ID k) ||
       ((t_RequestID x =s t_RequestID k) && (t_AssigneeID x =s t_AssigneeID k))) (tb_tasks t)
  then Err ErrDuplicate
  else Ok (tt, t <| tb_tasks := tb_tasks t ++ [k] |>).

(** Primary key [id], unique key [request_id]. *)
Definition insert_execution (x : Execution) (t : Tables) : result (unit * Tables) :=
  if existsb (fun y => (x_id y =s x_id x) || (x_request_id y =s x_request_id x)) (tb_executions t)
  then Err ErrDuplicate
  else Ok (tt, t <| tb_executions := tb_executions t ++ [x] |>).

Definition update_requests (p : Request -> bool) (f : Request -> Request) (t : Tables) : Tables :=
  t <| tb_requests := update_where p f (tb_requests t) |>.
Definition update_tasks (p : Task -> bool) (f : Task -> Task) (t : Tables) : Tables :=
  t <| tb_tasks := update_where p f (tb_tasks t) |>.

Definition by_id (orgID requestID : string) (r : Request) : bool :=
  (r_ID r =s requestID) && (r_OrganizationID r =s orgID).
Definition task_of (requestID assigneeID : string) (k : Task) : bool :=
  (t_RequestID k =s requestID) && (t_AssigneeID k =s assigneeID).

(** The [UPDATE] that expires pending requests. *)
Definition expire (p : Request -> bool) (at_ : Time) : Tables -> Tables :=
  update_requests
    (fun r => p r && (r_Status r =s StatusPending) && (r_ExpiresAt r <=? at_))
    (fun r => r <| r_Status := StatusExpired |> <| r_UpdatedAt := at_ |>).

(** ** The repository *)

(** [ORDER BY created_at,id]. *)
Definition task_order (a b : Task) : bool :=
  (t_CreatedAt a <? t_CreatedAt b) ||
  ((t_CreatedAt a =? t_CreatedAt b) && str_le (t_ID a) (t_ID b)).

Definition tasks (requestID : string) : M Tables (list Task) :=
  query (fun t => order_by task_order (select (fun k => t_RequestID k =s requestID) (tb_tasks t))).

Definition ByID (orgID requestID : string) : M Tables Request :=
  at_ ← now;
  _ ← attempt (exec (expire (by_id orgID requestID) (UTC at_)));
  request ← queryR (fun t => select_row (by_id orgID requestID) (tb_requests t));
  ts ← tasks requestID;
  mret (request <| r_Tasks := ts |>).

(** The count of the active users must be one. *)
Definition require_active (userID orgID : string) : M Tables unit :=
  count ← query (count_active userID orgID);
  guard_not (negb (count =? 1)) ErrNoRows.

Definition create_task (request : Request) (assigneeID : string) : M Tables unit :=
  id ← NewString;
  stmt (insert_task (mkTask id (r_ID request) assigneeID StatusPending "" "" "" None
    (r_CreatedAt request) (r_CreatedAt request))).

Definition Create (request : Request) (approverIDs : list string) : M Tables Request :=
  _ ← WithTx (
    _ ← forM (r_ApplicantID request :: approverIDs)
          (fun userID => require_active userID (r_OrganizationID request));
    _ ← stmt (insert_request request);
    forM approverIDs (create_task request));
  ByID (r_OrganizationID request) (r_ID request).

(** [SELECT ... FOR UPDATE]: the row is locked until the transaction ends. *)
Definition lockRequest (orgID requestID : string) : M Tables Request :=
  queryR (fun t => select_row (by_id orgID requestID) (tb_requests t)).

(** The decision counts; [SUM] over no row is NULL, which does not scan. *)
Definition decision_counts (requestID : string) (t : Tables) : result (Z * Z * Z) :=
  let ks := select (fun k => t_RequestID k =s requestID) (tb_tasks t) in
  match ks with
  | [] => Err (Errorf "sql: Scan error: converting NULL to int is unsupported" [])
  | _ => Ok (count_if (fun k => t_Decision k =s DecisionApprove) ks,
             count_if (fun k => t_Decision k =s DecisionReject) ks,
             count_if (fun k => t_Status k =s StatusPending) ks)
  end.

Definition cancel_pending (requestID : string) (f : Task -> Task) : Tables -> Tables :=
  update_tasks (fun k => (t_RequestID k =s requestID) && (t_Status k =s StatusPending))
    (fun k => f (k <| t_Status := StatusCancelled |>)).

(** The request is pending and not expired, as [Decide] and [Transfer] check. *)
Definition require_pending (request : Request) : M Tables unit :=
  _ ← guard_not (r_Status request <>s StatusPending) ErrNotPending;
  at_ ← now;
  guard_not (negb (After (r_ExpiresAt request) (UTC at_))) ErrNotPending.

(** The actor's task on the request: its identifier, when it is pending. *)
Definition own_pending_task (requestID actorID : string) : M Tables string :=
  row ← attempt (queryR (fun t => select_row (task_of requestID actorID) (tb_tasks t)));
  match row with
  | Err _ => fail ErrTaskNotAssigned
  | Ok k => _ ← guard_not (t_Status k <>s StatusPending) ErrNotPending; mret (t_ID k)
  end.

Definition decide_task (taskID decision comment : string) (at_ : Time) : Tables -> Tables :=
  update_tasks (fun k => t_ID k =s taskID)
    (fun k => k <| t_Status := decision |> <| t_Decision := decision |> <| t_Comment := comment |>
                <| t_DecidedAt := Some at_ |> <| t_UpdatedAt := at_ |>).

Definition Decide (orgID requestID actorID decision comment : string) : M Tables Request :=
  _ ← WithTx (
    request ← lockRequest orgID requestID;
    _ ← require_pending request;
    _ ← guard_not (r_ApplicantID request =s actorID) ErrMakerChecker;
    taskID ← own_pending_task requestID actorID;
    at_ ← now;
    let at_ := UTC at_ in
    _ ← exec (decide_task taskID decision comment at_);
    counts ← queryR (decision_counts requestID);
    let '(approved, rejected, pending) := counts in
    let status := ResolveStatus (r_RequiredApprovals request) approved rejected pending in
    _ ← exec (update_requests (fun r => r_ID r =s requestID)
                (fun r => r <| r_Status := status |> <| r_UpdatedAt := at_ |>));
    if status <>s StatusPending
    then exec (cancel_pending requestID (fun k => k <| t_UpdatedAt := at_ |>))
    else mret tt);
  ByID orgID requestID.

(** The [UPDATE] of a transfer; the unique key is checked just before. *)
Definition transfer_task (taskID newAssigneeID actorID comment : string) (at_ : Time) : Tables -> Tables :=
  update_tasks (fun k => t_ID k =s taskID)
    (fun k => k <| t_AssigneeID := newAssigneeID |> <| t_TransferredFrom := actorID |>
                <| t_Comment := comment |> <| t_UpdatedAt := at_ |>).

Definition Transfer (orgID requestID actorID newAssigneeID comment : string) : M Tables Request :=
  _ ← WithTx (
    request ← lockRequest orgID requestID;
    _ ← require_pending request;
    _ ← guard_not (newAssigneeID =s r_ApplicantID request) ErrMakerChecker;
    _ ← require_active newAssigneeID orgID;
    taskID ← own_pending_task requestID actorID;
    count ← query (fun t => count_if (task_of requestID newAssigneeID) (tb_tasks t));
    _ ← guard_not (0 <? count) ErrInvalidRequest;
    at_ ← now;
    exec (transfer_task taskID newAssigneeID actorID comment (UTC at_)));
  ByID orgID requestID.

Definition Withdraw (orgID requestID actorID comment : string) : M Tables Request :=
  _ ← WithTx (
    request ← lockRequest orgID requestID;
    _ ← guard_not (r_ApplicantID request <>s actorID) ErrNoRows;
    _ ← guard_not (r_Status request <>s StatusPending) ErrNotPending;
    at_ ← now;
    let at_ := UTC at_ in
    _ ← exec (update_requests (fun r => r_ID r =s requestID)
                (fun r => r <| r_Status := StatusWithdrawn |> <| r_UpdatedAt := at_ |>));
    exec (cancel_pending requestID (fun k => k <| t_Comment := comment |> <| t_UpdatedAt := at_ |>)));
  ByID orgID requestID.

Definition ClaimExecution (orgID requestID actorID expectedDigest : string) : M Tables unit :=
  WithTx (
    request ← lockRequest orgID requestID;
    _ ← guard_not (r_ApplicantID request <>s actorID) ErrMakerChecker;
    _ ← guard_not (r_Status request <>s StatusApproved) ErrNotPending;
    at_ ← now;
    _ ← guard_not (negb (After (r_ExpiresAt request) (UTC at_))) ErrNotPending;
    _ ← guard_not (r_RequestDigest request <>s expectedDigest) ErrDigestMismatch;
    count ← query (fun t => count_if (fun x => x_request_id x =s requestID) (tb_executions t));
    _ ← guard_not (0 <? count) ErrAlreadyExecuted;
    id ← NewString;
    executed ← now;
    stmt (insert_execution (mkExecution id requestID actorID expectedDigest (UTC executed)))).

(** The requests an organization's member sees: all of them, or those where
    they are the applicant or have or had a task. *)
Definition visible (orgID userID : string) (organizationWide : bool) (t : Tables) (r : Request) : bool :=
  (r_OrganizationID r =s orgID) &&
  (organizationWide || (r_ApplicantID r =s userID) ||
   existsb (fun k => (t_RequestID k =s r_ID r) &&
                     ((t_AssigneeID k =s userID) || (t_TransferredFrom k =s userID))) (tb_tasks t)).

Definition newest_first (a b : Request) : bool := r_CreatedAt b <=? r_CreatedAt a.

Definition List_ (orgID userID : string) (organizationWide : bool) (limit : Z) : M Tables (list Request) :=
  let limit := if (limit <=? 0) || (500 <? limit) then 200 else limit in
  at_ ← now;
  _ ← attempt (exec (expire (fun r => r_OrganizationID r =s orgID) (UTC at_)));
  out ← query (fun t => take (Z.to_nat limit)
          (order_by newest_first (select (visible orgID userID organizationWide t) (tb_requests t))));
  mapMM (fun r => ts ← tasks (r_ID r); mret (r <| r_Tasks := ts |>)) out.

(** ** The service *)

Definition ErrAccessDenied : error := Sentinel "approval.ErrAccessDenied".
Definition ErrApprovalRequired : error := Sentinel "approval.ErrApprovalRequired".

Record CreateInput := mkCreateInput {
  in_RequestType : string;
  in_Action : string;
  in_Resource : string;
  in_ResourceID : string;
  in_Summary : string;
  in_PayloadJSON : string;
  in_Mode : string;
  in_RequiredApprovals : Z;
  in_ApproverIDs : list string;
  in_ExpiresIn : Duration
}.

Record ExecutionInput := mkExecutionInput {
  ei_RequestType : string;
  ei_Action : string;
  ei_Resource : string;
  ei_ResourceID : string;
  ei_PayloadJSON : string
}.

Definition requireActor (actor : Principal) : result unit :=
  if (p_Type actor <>s "USER") || (p_UserID actor =s "") || (p_OrganizationID actor =s "")
  then Err ErrInteractiveSessionRequired else Ok tt.

(** [canonicalJSON]: one document, re-encoded with sorted keys. *)
Definition canonicalJSON (raw : string) : option string := Marshal <$> parse_document raw.

(** [requestDigest]: the payload is a byte slice inside the array, which
    [Marshal] writes in base64. *)
Definition requestDigest (requestType action resource resourceID canonicalPayload : string) : string :=
  Sum256hex (Marshal (JArr [JStr requestType; JStr action; JStr resource; JStr resourceID;
                            JStr (StdEncoding canonicalPayload)])).

Definition blocked : list string :=
  ["password"; "passwd"; "secret"; "clientsecret"; "accesstoken"; "refreshtoken";
   "credential"; "credentials"; "privatekey"; "recoverycode"; "mfacode";
   "authorization"; "cookie"; "sessiontoken"].

(** [strings.NewReplacer] with the four single-character deletions. *)
Definition strip_separators (s : string) : string :=
  string_of_list_ascii (List.filter (fun c =>
    negb (Ascii.eqb c "_" || Ascii.eqb c "-" || Ascii.eqb c "." || Ascii.eqb c " "))
    (list_ascii_of_string s)).
Definition normalized_key (key : string) : string := strip_separators (ToLower key).

(** [inspect]: no key of the value, at any depth, is blocked. *)
Fixpoint inspect (value : json) : bool :=
  match value with
  | JObj l => forallb (fun kv => negb (contains blocked (normalized_key (fst kv))) && inspect (snd kv)) l
  | JArr l => forallb inspect l
  | _ => true
  end.

Definition validateReviewablePayload (canonical : string) : result unit :=
  match parse_document canonical with
  | Some (JObj l) => if inspect (JObj l) then Ok tt else Err ErrInvalidRequest
  | _ => Err ErrInvalidRequest
  end.

Definition input_out_of_bounds (input : CreateInput) : bool :=
  (slen (in_PayloadJSON input) =? 0) || (16 * 1024 <? slen (in_PayloadJSON input)) ||
  (100 <? slen (TrimSpace (in_RequestType input))) || (160 <? slen (TrimSpace (in_Action input))) ||
  (160 <? slen (TrimSpace (in_Resource input))) || (160 <? slen (TrimSpace (in_ResourceID input))) ||
  (500 <? slen (TrimSpace (in_Summary input))) || (in_ExpiresIn input <? Minute) ||
  (30 * 24 * Hour <? in_ExpiresIn input).

Definition service_Create (actor : Principal) (input : CreateInput) : M Tables Request :=
  _ ← lift (requireActor actor);
  _ ← RequireRecentMFA actor;
  let requestType := TrimSpace (in_RequestType input) in
  let action := TrimSpace (in_Action input) in
  let resource := TrimSpace (in_Resource input) in
  let resourceID := TrimSpace (in_ResourceID input) in
  let summary := TrimSpace (in_Summary input) in
  let mode := ToUpper (TrimSpace (in_Mode input)) in
  _ ← guard_not (input_out_of_bounds input) ErrInvalidRequest;
  match canonicalJSON (in_PayloadJSON input) with
  | None => fail ErrInvalidRequest
  | Some canonical =>
    _ ← guard_not (negb (is_ok (validateReviewablePayload canonical))) ErrInvalidRequest;
    let digest := requestDigest requestType action resource resourceID canonical in
    at_ ← now;
    let at_ := UTC at_ in
    id ← NewString;
    let request := mkRequest id (p_OrganizationID actor) requestType action resource resourceID
      summary canonical digest (p_UserID actor) mode (in_RequiredApprovals input) StatusPending
      (timeAdd at_ (in_ExpiresIn input)) at_ at_ [] in
    checked ← now;
    _ ← lift (ValidateCreation request (in_ApproverIDs input) checked);
    Create request (in_ApproverIDs input)
  end.

Definition AuthorizeExecution (actor : Principal) (approvalID : string) (input : ExecutionInput)
  : M Tables unit :=
  _ ← guard_not (TrimSpace approvalID =s "") ErrApprovalRequired;
  _ ← lift (requireActor actor);
  _ ← RequireRecentMFA actor;
  match canonicalJSON (ei_PayloadJSON input) with
  | None => fail ErrInvalidRequest
  | Some canonical =>
    let digest := requestDigest (TrimSpace (ei_RequestType input)) (TrimSpace (ei_Action input))
      (TrimSpace (ei_Resource input)) (TrimSpace (ei_ResourceID input)) canonical in
    ClaimExecution (p_OrganizationID actor) (TrimSpace approvalID) (p_UserID actor) digest
  end.

Definition service_Get (actor : Principal) (requestID : string) : M Tables Request :=
  _ ← lift (requireActor actor);
  request ← ByID (p_OrganizationID actor) (TrimSpace requestID);
  _ ← guard_not (negb (IsApprovalParticipant request (p_UserID actor)) &&
                 negb (HasRole actor ["system_admin"; "auditor"])) ErrAccessDenied;
  mret request.

Definition service_List (actor : Principal) : M Tables (list Request) :=
  _ ← lift (requireActor actor);
  List_ (p_OrganizationID actor) (p_UserID actor) (HasRole actor ["system_admin"; "auditor"]) 200.

Definition service_Decide (actor : Principal) (requestID decision comment : string) : M Tables Request :=
  _ ← lift (requireActor actor);
  _ ← RequireRecentMFA actor;
  let decision := ToUpper (TrimSpace decision) in
  _ ← guard_not (((decision <>s DecisionApprove) && (decision <>s DecisionReject)) ||
                 (1000 <? slen comment)) ErrInvalidRequest;
  Decide (p_OrganizationID actor) (TrimSpace requestID) (p_UserID actor) decision (TrimSpace comment).

Definition service_Transfer (actor : Principal) (requestID newAssigneeID comment : string) : M Tables Request :=
  _ ← lift (requireActor actor);
  _ ← RequireRecentMFA actor;
  let newAssigneeID := TrimSpace newAssigneeID in
  _ ← guard_not ((newAssigneeID =s "") || (1000 <? slen comment)) ErrInvalidRequest;
  Transfer (p_OrganizationID actor) (TrimSpace requestID) (p_UserID actor) newAssigneeID (TrimSpace comment).

Definition service_Withdraw (actor : Principal) (requestID comment : string) : M Tables Request :=
  _ ← lift (requireActor actor);
  _ ← guard_not (1000 <? slen comment) ErrInvalidRequest;
  Withdraw (p_OrganizationID actor) (TrimSpace requestID) (p_UserID actor) (TrimSpace comment).

(** ** Specification

    The invariant of the tables, kept by every statement. *)

Definition task_key (k : Task) : string * string := (t_RequestID k, t_AssigneeID k).
Definition tasks_of (t : Tables) (id : string) : list Task :=
  select (fun k => t_RequestID k =s id) (tb_tasks t).
Definition approvals (t : Tables) (id : string) : Z :=
  count_if (fun k => t_Decision k =s DecisionApprove) (tasks_of t id).
Definition rejections (t : Tables) (id : string) : Z :=
  count_if (fun k => t_Decision k =s DecisionReject) (tasks_of t id).

(** A task belongs to a request whose applicant is not its assignee. *)
Definition task_ok (t : Tables) (k : Task) : Prop :=
  exists q, q ∈ tb_requests t /\ r_ID q = t_RequestID k /\ r_ApplicantID q <> t_AssigneeID k.

(** An approved request has the approvals it requires and no rejection. *)
Definition request_ok (t : Tables) (q : Request) : Prop :=
  1 <= r_RequiredApprovals q /\
  (r_Status q = StatusApproved ->
   r_RequiredApprovals q <= approvals t (r_ID q) /\ rejections t (r_ID q) = 0).

(** An execution was made by the applicant of an approved request, for the
    digest that was approved. *)
Definition execution_ok (t : Tables) (x : Execution) : Prop :=
  exists q, q ∈ tb_requests t /\ r_ID q = x_request_id x /\ r_Status q = StatusApproved /\
    x_executed_by x = r_ApplicantID q /\ x_request_digest x = r_RequestDigest q.

Record wf (t : Tables) : Prop := {
  wf_request_ids : NoDup (map r_ID (tb_requests t));
  wf_task_ids : NoDup (map t_ID (tb_tasks t));
  wf_task_keys : NoDup (map task_key (tb_tasks t));
  wf_execution_ids : NoDup (map x_request_id (tb_executions t));
  wf_tasks : Forall (task_ok t) (tb_tasks t);
  wf_requests : Forall (request_ok t) (tb_requests t);
  wf_executions : Forall (execution_ok t) (tb_executions t)
}.

(** ** Lemmas *)

Lemma by_id_spec orgID id r : by_id orgID id r = true <-> r_ID r = id /\ r_OrganizationID r = orgID.
Proof. unfold by_id. rewrite andb_true_iff, !String.eqb_eq. done. Qed.

Lemma task_of_spec id a k : task_of id a k = true <-> t_RequestID k = id /\ t_AssigneeID k = a.
Proof. unfold task_of. rewrite andb_true_iff, !String.eqb_eq. done. Qed.

(** Updates of requests that keep the identity and either keep the status or
    move a request that is not approved. *)
Lemma update_requests_wf p f t :
  wf t ->
  (forall q, q ∈ tb_requests t -> p q = true ->
     r_ID (f q) = r_ID q /\ r_ApplicantID (f q) = r_ApplicantID q /\
     r_RequiredApprovals (f q) = r_RequiredApprovals q /\ r_RequestDigest (f q) = r_RequestDigest q /\
     r_Status q <> StatusApproved /\ request_ok t (f q)) ->
  wf (update_requests p f t).
Proof.
  intros [W1 W2 W3 W4 W5 W6 W7] H. constructor; cbn; try done.
  - replace (map r_ID (update_where p f (tb_requests t))) with (map r_ID (tb_requests t)); [done|].
    unfold update_where. rewrite map_map. apply map_ext_in. intros q Hq.
    destruct (p q) eqn:P; [|done]. symmetry. apply H; [by apply list_elem_of_In|done].
  - eapply Forall_impl; [exact W5|]. intros k (q & Hq & E & N).
    exists (if p q then f q else q). split; [apply elem_of_update_where; eauto|].
    destruct (p q) eqn:P; [|done]. destruct (H q Hq P) as (-> & -> & _). done.
  - apply Forall_update_where; [done|]. intros q Hq P _. by destruct (H q Hq P) as (_ & _ & _ & _ & _ & R).
  - eapply Forall_impl; [exact W7|]. intros x (q & Hq & E & St & B & D).
    exists q. split; [|done]. apply elem_of_update_where. exists q. split; [done|].
    destruct (p q) eqn:P; [|done]. by destruct (H q Hq P) as (_ & _ & _ & _ & N & _).
Qed.

Lemma count_update_where {A} (c : A -> bool) (p : A -> bool) f l :
  (forall x, x ∈ l -> p x = true -> c (f x) = c x) -> count_if c (update_where p f l) = count_if c l.
Proof.
  induction l as [|x l IH]; intros H; [done|]. cbn. rewrite !count_if_cons.
  unfold update_where in IH. rewrite IH by (intros y Hy; apply H; by constructor).
  destruct (p x) eqn:P; [|done]. rewrite H; [done|constructor|done].
Qed.

Lemma count_select {A} (c p : A -> bool) l : count_if c (select p l) = count_if (fun x => p x && c x) l.
Proof.
  unfold select. induction l as [|x l IH]; [done|]. cbn. rewrite count_if_cons.
  destruct (p x); cbn; [rewrite count_if_cons|]; rewrite IH; lia.
Qed.

(** Updates of tasks that keep their request, and the decision of the tasks of
    approved requests. *)
Lemma update_tasks_wf p f t :
  wf t ->
  (forall k, k ∈ tb_tasks t -> p k = true ->
     t_ID (f k) = t_ID k /\ t_RequestID (f k) = t_RequestID k /\
     task_ok t (f k) /\
     (forall q, q ∈ tb_requests t -> r_ID q = t_RequestID k -> r_Status q = StatusApproved ->
        t_Decision (f k) = t_Decision k)) ->
  NoDup (map task_key (update_where p f (tb_tasks t))) ->
  wf (update_tasks p f t).
Proof.
  intros [W1 W2 W3 W4 W5 W6 W7] H N. constructor; cbn; try done.
  - replace (map t_ID (update_where p f (tb_tasks t))) with (map t_ID (tb_tasks t)); [done|].
    unfold update_where. rewrite map_map. apply map_ext_in. intros k Hk.
    destruct (p k) eqn:P; [|done]. symmetry. apply H; [by apply list_elem_of_In|done].
  - apply Forall_update_where; [exact W5|]. intros k Hk P _. by apply H.
  - rewrite Forall_forall in *. intros q Hq. destruct (W6 q Hq) as [R A]. split; [done|].
    intros St. specialize (A St). unfold approvals, rejections, tasks_of in *. cbn.
    rewrite !count_select in *. rewrite !count_update_where; [done| |].
    all: intros k Hk P; destruct (H k Hk P) as (_ & -> & _ & D);
      destruct (String.eqb_spec (t_RequestID k) (r_ID q)) as [E|]; [|done]; cbn;
      rewrite (D q Hq (eq_sym E) St); done.
Qed.

Lemma insert_request_wf q t t' :
  wf t -> r_Status q = StatusPending -> 1 <= r_RequiredApprovals q ->
  insert_request q t = Ok (tt, t') -> wf t' /\ q <| r_Tasks := [] |> ∈ tb_requests t'.
Proof.
  intros [W1 W2 W3 W4 W5 W6 W7] St R. unfold insert_request.
  destruct (existsb _ _) eqn:E; [discriminate|]. intros [= <-]. rewrite existsb_false in E.
  split; [|apply elem_of_app; right; constructor]. constructor; cbn; try done.
  - apply NoDup_map_snoc; [done|]. intros y Hy. specialize (E y Hy). by breflect.
  - eapply Forall_impl; [exact W5|]. intros k (x & Hx & ? & ?). exists x. split; [set_solver|done].
  - apply Forall_app. split; [exact W6|]. constructor; [|constructor]. split; [done|]. cbn.
    rewrite St. discriminate.
  - eapply Forall_impl; [exact W7|]. intros k (x & Hx & ?). exists x. split; [set_solver|done].
Qed.

Lemma insert_task_wf k t t' :
  wf t -> t_Decision k = "" -> task_ok t k -> insert_task k t = Ok (tt, t') ->
  wf t' /\ tb_requests t' = tb_requests t.
Proof.
  intros [W1 W2 W3 W4 W5 W6 W7] D K. unfold insert_task.
  destruct (existsb _ _) eqn:E; [discriminate|]. intros [= <-]. rewrite existsb_false in E.
  split; [|done]. constructor; cbn; try done.
  - apply NoDup_map_snoc; [done|]. intros y Hy. specialize (E y Hy). by orsplit.
  - apply NoDup_map_snoc; [done|]. intros y Hy. specialize (E y Hy). unfold task_key. intros [= E1 E2].
    orsplit; congruence.
  - apply Forall_app. split; [exact W5|]. by constructor.
  - eapply Forall_impl; [exact W6|]. intros q [R A]. split; [done|]. intros St. specialize (A St).
    unfold approvals, rejections, tasks_of in *. cbn. unfold select in *.
    rewrite !List.filter_app, !count_if_app. cbn.
    destruct (t_RequestID k =s r_ID q); rewrite ?count_if_cons, ?D, ?count_if_nil; cbn; lia.
Qed.

Lemma insert_execution_wf x t t' :
  wf t -> execution_ok t x -> insert_execution x t = Ok (tt, t') -> wf t'.
Proof.
  intros [W1 W2 W3 W4 W5 W6 W7] K. unfold insert_execution.
  destruct (existsb _ _) eqn:E; [discriminate|]. intros [= <-]. rewrite existsb_false in E.
  constructor; cbn; try done.
  - apply NoDup_map_snoc; [done|]. intros y Hy. specialize (E y Hy). by orsplit.
  - apply Forall_app. split; [exact W7|]. by constructor.
Qed.

Lemma expire_wf p at_ t : wf t -> wf (expire p at_ t).
Proof.
  intros W. apply update_requests_wf; [done|]. intros q Hq P. breflect.
  pose proof (wf_requests t W) as R. rewrite Forall_forall in R. destruct (R q Hq) as [R1 _].
  do 4 (split; [done|]). split; [intros E; by rewrite E in *|]. split; [done|discriminate].
Qed.

#[export] Hint Resolve expire_wf : forge.

Lemma tasks_keeps I id : keeps I (tasks id).
Proof. apply keeps_query. Qed.

Lemma ByID_keeps orgID id : keeps wf (ByID orgID id).
Proof.
  unfold ByID. apply keeps_bind; [apply keeps_now|]. intros at_.
  apply keeps_bind; [apply keeps_attempt, keeps_exec; auto with forge|]. intros _.
  apply keeps_bind; [apply keeps_queryR|]. intros r.
  apply keeps_bind; [apply tasks_keeps|]. intros ts. apply keeps_ret.
Qed.

Lemma mapMM_keeps {S A B} (I : S -> Prop) (f : A -> M S B) l :
  (forall x, keeps I (f x)) -> keeps I (mapMM f l).
Proof.
  intros H. induction l as [|x l IH]; cbn; [apply keeps_ret|].
  apply keeps_bind; [apply H|]. intros y. apply keeps_bind; [apply IH|]. intros ys. apply keeps_ret.
Qed.

Lemma List_keeps orgID userID wide limit : keeps wf (List_ orgID userID wide limit).
Proof.
  unfold List_. apply keeps_bind; [apply keeps_now|]. intros at_.
  apply keeps_bind; [apply keeps_attempt, keeps_exec; auto with forge|]. intros _.
  apply keeps_bind; [apply keeps_query|]. intros out. apply mapMM_keeps. intros r.
  apply keeps_bind; [apply tasks_keeps|]. intros ts. apply keeps_ret.
Qed.

Lemma require_active_keeps I u o : keeps I (require_active u o).
Proof. apply keeps_bind; [apply keeps_query|]. intros c. apply keeps_guard. Qed.

Lemma check_approvers_ok applicant seen ids :
  check_approvers applicant seen ids = Ok tt ->
  NoDup ids /\ forall a, a ∈ ids -> a <> "" /\ a <> applicant /\ a ∉ seen.
Proof.
  revert seen; induction ids as [|x ids IH]; cbn; intros seen H.
  - split; [constructor|]. intros a Ha; inversion Ha.
  - destruct ((x =s "") || (x =s applicant)) eqn:G; [discriminate|]. orsplit.
    destruct (contains seen x) eqn:C; [discriminate|]. apply contains_false in C.
    apply IH in H as [N H]. split.
    + constructor; [|done]. intros X. destruct (H x X) as (_ & _ & K). apply K. constructor.
    + intros a Ha. apply elem_of_cons in Ha as [->|Ha]; [done|].
      destruct (H a Ha) as (? & ? & K). split_and!; try done. set_solver.
Qed.

Lemma ValidateCreation_ok r ids at_ :
  ValidateCreation r ids at_ = Ok tt ->
  NoDup ids /\ (forall a, a ∈ ids -> a <> "" /\ a <> r_ApplicantID r) /\
  1 <= r_RequiredApprovals r <= llen ids /\ at_ < r_ExpiresAt r.
Proof.
  unfold ValidateCreation, UTC. intros H.
  destruct (_ || _ || _ || _ || _ || _ || _ || _ || _) eqn:G in H; [discriminate|].
  destruct (check_approvers _ _ _) as [[]|] eqn:C; [|discriminate].
  apply check_approvers_ok in C as [N C].
  assert (0 <= llen ids) by (unfold llen; lia). orsplit.
  split; [done|]. split; [intros a Ha; by destruct (C a Ha) as (? & ? & _)|].
  guards H; orsplit; split; lia.
Qed.

Lemma Create_keeps q ids :
  r_Status q = StatusPending -> 1 <= r_RequiredApprovals q ->
  (forall a, a ∈ ids -> a <> r_ApplicantID q) -> keeps wf (Create q ids).
Proof.
  intros St R A. unfold Create. apply keeps_bind; [|intros _; apply ByID_keeps].
  apply keeps_WithTx. apply keeps_bind.
  { apply keeps_forM. intros u. apply require_active_keeps. }
  intros _. apply (keeps_spec _ _ (fun _ _ => True)).
  eapply spec_bind.
  { eapply (spec_stmt _ _ _ (fun _ t => q <| r_Tasks := [] |> ∈ tb_requests t)).
    intros s [] s' W _ E. by eapply insert_request_wf. }
  intros u. cbn beta.
  set (J := fun (rest : list string) t => q <| r_Tasks := [] |> ∈ tb_requests t /\ forall a, a ∈ rest -> a <> r_ApplicantID q).
  eapply (spec_conseq _ _ (J ids) _ _ (fun _ => J [])); [|by intros s _ Hq|done].
  apply spec_forM. intros a rest. unfold create_task.
  eapply spec_bind; [apply spec_uuid|]. intros id.
  apply spec_stmt. intros s [] s' W [Hq Ha] E.
  assert (K : wf s' /\ tb_requests s' = tb_requests s); [|destruct K as [W' Q']].
  - apply insert_task_wf with (4 := E); [done|done|].
    exists (q <| r_Tasks := [] |>). split; [done|]. split; [done|]. cbn. intros X. apply (Ha a); [constructor|done].
  - split; [done|]. split; [by rewrite Q'|]. intros b Hb. apply Ha. by constructor.
Qed.

(** What the reads of the operations establish. *)
Definition locked (id : string) (q : Request) (t : Tables) : Prop :=
  q ∈ tb_requests t /\ r_ID q = id.
Definition own_task (id actorID taskID : string) (t : Tables) : Prop :=
  exists k, k ∈ tb_tasks t /\ t_RequestID k = id /\ t_AssigneeID k = actorID /\ t_ID k = taskID /\
    t_Status k = StatusPending.

Lemma lockRequest_spec I P orgID id :
  spec I P (lockRequest orgID id) (fun q t => P t /\ locked id q t /\ r_OrganizationID q = orgID).
Proof.
  eapply spec_weaken; [apply spec_queryR|]. intros q t [HP E].
  apply select_row_ok in E as [Hq B]. apply by_id_spec in B as [E1 E2]. done.
Qed.

Lemma require_pending_spec I P q :
  spec I P (require_pending q) (fun _ t => P t /\ r_Status q = StatusPending).
Proof.
  unfold require_pending. eapply spec_bind; [apply spec_guard|]. intros u.
  eapply spec_bind; [apply spec_now|]. intros at_.
  eapply spec_weaken; [apply spec_guard|]. intros u' t [[HP G] _]. by breflect.
Qed.

Lemma own_pending_task_spec I P id actorID :
  spec I P (own_pending_task id actorID) (fun taskID t => P t /\ own_task id actorID taskID t).
Proof.
  unfold own_pending_task. eapply spec_bind; [apply spec_attempt_queryR|]. intros [k|e]; [|apply spec_fail].
  eapply spec_bind; [apply spec_guard|]. intros u. apply spec_ret.
  intros t _ [[HP E] G]. specialize (E k eq_refl). apply select_row_ok in E as [Hk T].
  apply task_of_spec in T as [E1 E2]. breflect. split; [done|]. by exists k.
Qed.

Lemma require_active_spec I P u o : spec I P (require_active u o) (fun _ => P).
Proof.
  unfold require_active. eapply spec_bind; [apply spec_query|]. intros c.
  eapply spec_weaken; [apply spec_guard|]. intros u' t [[HP _] _]. done.
Qed.

(** A pending request is not approved. *)
Lemma pending_not_approved id q t q' :
  wf t -> locked id q t -> r_Status q = StatusPending ->
  q' ∈ tb_requests t -> r_ID q' = id -> r_Status q' <> StatusApproved.
Proof.
  intros W [Hq E] St Hq' E' A.
  assert (q' = q) as -> by (eapply (NoDup_map_eq r_ID); [apply W|done|done|congruence]).
  rewrite St in A. discriminate.
Qed.

(** Updates of the tasks of a pending request that keep request and assignee. *)
Lemma pending_tasks_wf id q t p f :
  wf t -> locked id q t -> r_Status q = StatusPending ->
  (forall k, k ∈ tb_tasks t -> p k = true -> t_RequestID k = id) ->
  (forall k, t_ID (f k) = t_ID k /\ t_RequestID (f k) = t_RequestID k /\ t_AssigneeID (f k) = t_AssigneeID k) ->
  wf (update_tasks p f t).
Proof.
  intros W L St P F. apply update_tasks_wf; [done| |].
  - intros k Hk Pk. destruct (F k) as (F1 & F2 & F3). do 2 (split; [done|]). split.
    + pose proof (wf_tasks t W) as T. rewrite Forall_forall in T. destruct (T k Hk) as (x & Hx & E & N).
      exists x. rewrite F2, F3. done.
    + intros q' Hq' E A. exfalso. rewrite (P k Hk Pk) in E.
      by eapply pending_not_approved.
  - rewrite map_update_where; [apply W|]. intros k. unfold task_key. by destruct (F k) as (_ & -> & ->).
Qed.

Lemma decision_counts_ok id t a r p :
  decision_counts id t = Ok (a, r, p) -> a = approvals t id /\ r = rejections t id.
Proof.
  unfold decision_counts, approvals, rejections, tasks_of.
  destruct (select _ _); [discriminate|]. intros [= <- <- _]. done.
Qed.

Lemma ResolveStatus_approved required a r p :
  ResolveStatus required a r p = StatusApproved -> required <= a /\ r <= 0.
Proof.
  unfold ResolveStatus. intros H. destruct ((0 <? r) || _) eqn:G; [discriminate|]. orsplit.
  destruct (required <=? a) eqn:G2; [|discriminate]. breflect. lia.
Qed.

Lemma rejections_nonneg t id : 0 <= rejections t id.
Proof. apply count_if_nonneg. Qed.

Lemma locked_tasks id q p f t : locked id q t -> locked id q (update_tasks p f t).
Proof. done. Qed.

Lemma set_status_wf id q status at_ t :
  wf t -> locked id q t -> r_Status q = StatusPending ->
  (status = StatusApproved -> r_RequiredApprovals q <= approvals t id /\ rejections t id = 0) ->
  wf (update_requests (fun r => r_ID r =s id) (fun r => r <| r_Status := status |> <| r_UpdatedAt := at_ |>) t).
Proof.
  intros W L St A. apply update_requests_wf; [done|]. intros q' Hq' P. breflect.
  do 4 (split; [done|]). split; [by eapply pending_not_approved|].
  pose proof (wf_requests t W) as R. rewrite Forall_forall in R. destruct (R q' Hq') as [R1 _].
  split; [done|]. cbn. intros E. destruct L as [Hq E'].
  assert (q' = q) as -> by (eapply (NoDup_map_eq r_ID); [apply W|done|done|congruence]).
  rewrite E'. auto.
Qed.

(** After the status is set, the remaining pending tasks are cancelled; no
    decision changes. *)
Lemma cancel_pending_wf id f t :
  wf t ->
  (forall k, t_ID (f k) = t_ID k /\ t_RequestID (f k) = t_RequestID k /\
             t_AssigneeID (f k) = t_AssigneeID k /\ t_Decision (f k) = t_Decision k) ->
  wf (cancel_pending id f t).
Proof.
  intros W F. apply update_tasks_wf; [done| |].
  - intros k Hk _. destruct (F (k <| t_Status := StatusCancelled |>)) as (F1 & F2 & F3 & F4).
    do 2 (split; [done|]). split; [|by intros; rewrite F4].
    pose proof (wf_tasks t W) as T. rewrite Forall_forall in T. destruct (T k Hk) as (x & Hx & E & N).
    exists x. rewrite F2, F3. done.
  - rewrite map_update_where; [apply W|]. intros k. unfold task_key.
    by destruct (F (k <| t_Status := StatusCancelled |>)) as (_ & -> & -> & _).
Qed.

Lemma Decide_keeps orgID id actorID decision comment :
  keeps wf (Decide orgID id actorID decision comment).
Proof.
  unfold Decide. apply keeps_bind; [|intros _; apply ByID_keeps]. apply keeps_WithTx.
  apply (keeps_spec _ _ (fun _ _ => True)).
  eapply spec_bind; [apply lockRequest_spec|]. intros q.
  eapply spec_bind; [apply require_pending_spec|]. intros _u.
  eapply spec_bind; [apply spec_guard|]. intros _u0.
  eapply spec_bind; [apply own_pending_task_spec|]. intros taskID.
  eapply spec_bind; [apply spec_now|]. intros at_. cbn zeta.
  eapply spec_bind.
  { apply (spec_exec _ _ _ (fun t => locked id q t /\ r_Status q = StatusPending)).
    intros t W [[[(_ & L & _) St] _] (k & Hk & E1 & E2 & E3 & _)]. split; [|done].
    eapply pending_tasks_wf; [done|done|done| |done].
    intros k' Hk' P. breflect.
    assert (k' = k) as -> by (eapply (NoDup_map_eq t_ID); [apply W|done|done|congruence]). done. }
  intros _u1. eapply spec_bind; [apply spec_queryR|]. intros [[a r] p].
  eapply spec_bind.
  { apply (spec_exec _ _ _ (fun _ => True)). intros t W [[L St] C].
    split; [|done]. apply decision_counts_ok in C as [-> ->].
    apply (set_status_wf id q); try done. intros E. apply ResolveStatus_approved in E.
    pose proof (rejections_nonneg t id). lia. }
  intros _u2. apply spec_if; intros _; [|by apply spec_ret].
  apply spec_exec. intros t W _. split; [|done]. by apply cancel_pending_wf.
Qed.

Lemma count_zero {A} (p : A -> bool) l : count_if p l <= 0 -> forall x, x ∈ l -> p x = false.
Proof.
  induction l as [|y l IH]; intros C x Hx; [inversion Hx|]. rewrite count_if_cons in C.
  pose proof (count_if_nonneg p l).
  apply elem_of_cons in Hx as [->|Hx]; [destruct (p y); [lia|done]|].
  apply IH; [destruct (p y); lia|done].
Qed.

(** Moving one task to an assignee who had none keeps the keys distinct. *)
Lemma transfer_keys (p : Task -> bool) f l k new :
  NoDup (map t_ID l) -> NoDup (map task_key l) -> k ∈ l ->
  (forall x, p x = true <-> t_ID x = t_ID k) ->
  (forall x, t_ID (f x) = t_ID x /\ task_key (f x) = (t_RequestID x, new)) ->
  (forall x, x ∈ l -> task_of (t_RequestID k) new x = false) ->
  NoDup (map task_key (update_where p f l)).
Proof.
  intros N1 N2 Hk P F Z.
  assert (G : forall x, x ∈ l -> p x = true -> x = k).
  { intros x Hx Px. apply P in Px. by eapply (NoDup_map_eq t_ID). }
  assert (Fresh : forall z, z ∈ l -> task_key z <> (t_RequestID k, new)).
  { intros z Hz E. unfold task_key in E. injection E as E1 E2.
    specialize (Z z Hz). apply not_true_iff_false in Z. apply Z, task_of_spec. done. }
  apply (NoDup_map_via t_ID); [rewrite map_update_where; [done|intros x; apply F]|].
  intros x' y' Hx' Hy'.
  apply elem_of_update_where in Hx' as (x & Hx & ->). apply elem_of_update_where in Hy' as (y & Hy & ->).
  destruct (p x) eqn:Px, (p y) eqn:Py.
  - by rewrite (G x), (G y).
  - destruct (F x) as [_ ->]. rewrite (G x Hx Px). intros E. by destruct (Fresh y Hy).
  - destruct (F y) as [_ ->]. rewrite (G y Hy Py). intros E. by destruct (Fresh x Hx).
  - intros E. f_equal. by eapply (NoDup_map_eq task_key).
Qed.

Lemma transfer_wf id q actorID taskID new comment at_ t :
  wf t -> locked id q t -> r_Status q = StatusPending -> own_task id actorID taskID t ->
  new <> r_ApplicantID q -> count_if (task_of id new) (tb_tasks t) <= 0 ->
  wf (transfer_task taskID new actorID comment at_ t).
Proof.
  intros W L St (k & Hk & E1 & E2 & E3 & _) Nw C.
  apply update_tasks_wf; [done| |].
  - intros k' Hk' P. breflect.
    assert (k' = k) as -> by (eapply (NoDup_map_eq t_ID); [apply W|done|done|congruence]).
    do 2 (split; [done|]). split; [|done]. exists q. cbn. destruct L as [Hq E].
    split_and!; [done|congruence|]. congruence.
  - eapply (transfer_keys _ _ _ k new); [apply W|apply W|done| |done|].
    + intros x. rewrite String.eqb_eq. by rewrite E3.
    + intros x Hx. rewrite E1. by apply (count_zero _ _ C).
Qed.

Lemma Transfer_keeps orgID id actorID new comment : keeps wf (Transfer orgID id actorID new comment).
Proof.
  unfold Transfer. apply keeps_bind; [|intros _; apply ByID_keeps]. apply keeps_WithTx.
  apply (keeps_spec _ _ (fun _ _ => True)).
  eapply spec_bind; [apply lockRequest_spec|]. intros q.
  eapply spec_bind; [apply require_pending_spec|]. intros _u.
  eapply spec_bind; [apply spec_guard|]. intros _u0.
  eapply spec_bind; [apply require_active_spec|]. intros _u1.
  eapply spec_bind; [apply own_pending_task_spec|]. intros taskID.
  eapply spec_bind; [apply spec_query|]. intros count.
  eapply spec_bind; [apply spec_guard|]. intros _u2.
  eapply spec_bind; [apply spec_now|]. intros at_.
  apply spec_exec. intros t W H. split; [|done].
  destruct H as [[[[[(_ & L & _) St] G] O] C] G2]. breflect.
  eapply transfer_wf; [done|done|done|done|done|lia].
Qed.

Lemma Withdraw_keeps orgID id actorID comment : keeps wf (Withdraw orgID id actorID comment).
Proof.
  unfold Withdraw. apply keeps_bind; [|intros _; apply ByID_keeps]. apply keeps_WithTx.
  apply (keeps_spec _ _ (fun _ _ => True)).
  eapply spec_bind; [apply lockRequest_spec|]. intros q.
  eapply spec_bind; [apply spec_guard|]. intros _u.
  eapply spec_bind; [apply spec_guard|]. intros _u0.
  eapply spec_bind; [apply spec_now|]. intros at_. cbn zeta.
  eapply spec_bind.
  { apply (spec_exec _ _ _ (fun _ => True)). intros t W [[(_ & L & _) _] St]. split; [|done].
    breflect. by apply (set_status_wf id q). }
  intros _u1. apply spec_exec. intros t W _. split; [|done]. by apply cancel_pending_wf.
Qed.

Lemma ClaimExecution_keeps orgID id actorID digest : keeps wf (ClaimExecution orgID id actorID digest).
Proof.
  unfold ClaimExecution. apply keeps_WithTx. apply (keeps_spec _ _ (fun _ _ => True)).
  eapply spec_bind; [apply lockRequest_spec|]. intros q.
  eapply spec_bind; [apply spec_guard|]. intros _u.
  eapply spec_bind; [apply spec_guard|]. intros _u0.
  eapply spec_bind; [apply spec_now|]. intros at_.
  eapply spec_bind; [apply spec_guard|]. intros _u1.
  eapply spec_bind; [apply spec_guard|]. intros _u2.
  eapply spec_bind; [apply spec_query|]. intros count.
  eapply spec_bind; [apply spec_guard|]. intros _u3.
  eapply spec_bind; [apply spec_uuid|]. intros xid.
  eapply spec_bind; [apply spec_now|]. intros executed.
  apply spec_stmt. intros t [] t' W H E. split; [|done].
  destruct H as [[[[[[(_ & [Hq Eq] & _) A] St] _] D] _] _]. breflect.
  eapply insert_execution_wf; [done| |done]. exists q. by split_and!.
Qed.

(** *** Histories of the service *)

Inductive command :=
| CCreate (actor : Principal) (input : CreateInput)
| CDecide (actor : Principal) (requestID decision comment : string)
| CTransfer (actor : Principal) (requestID newAssigneeID comment : string)
| CWithdraw (actor : Principal) (requestID comment : string)
| CAuthorize (actor : Principal) (approvalID : string) (input : ExecutionInput)
| CGet (actor : Principal) (requestID : string)
| CList (actor : Principal).

Definition discard {A} (m : M Tables A) : M Tables unit := _ ← m; mret tt.

Definition run_command (c : command) : M Tables unit :=
  match c with
  | CCreate a i => discard (service_Create a i)
  | CDecide a r d k => discard (service_Decide a r d k)
  | CTransfer a r n k => discard (service_Transfer a r n k)
  | CWithdraw a r k => discard (service_Withdraw a r k)
  | CAuthorize a r i => AuthorizeExecution a r i
  | CGet a r => discard (service_Get a r)
  | CList a => discard (service_List a)
  end.

(** The tables after any commands, successful or not, under any environments,
    while other components change the users. *)
Inductive history : Tables -> Prop :=
| H_init users : history (mkTables users [] [] [])
| H_users users t : history t -> history (t <| tb_users := users |>)
| H_command c e n r n' t t' : history t -> run_command c e n t = (r, n', t') -> history t'.

Lemma RequireRecentMFA_keeps {S} (I : S -> Prop) actor : keeps I (RequireRecentMFA actor).
Proof.
  unfold RequireRecentMFA. destruct (p_MFAVerifiedAt actor); [|apply keeps_fail].
  apply keeps_bind; [apply keeps_now|]. intros. apply keeps_lift.
Qed.

#[export] Hint Resolve RequireRecentMFA_keeps ByID_keeps List_keeps Decide_keeps Transfer_keeps
  Withdraw_keeps ClaimExecution_keeps : forge.

Lemma service_Create_keeps actor input : keeps wf (service_Create actor input).
Proof.
  unfold service_Create. apply keeps_bind; [apply keeps_lift|]. intros _.
  apply keeps_bind; [apply RequireRecentMFA_keeps|]. intros _. cbn zeta.
  apply keeps_bind; [apply keeps_guard|]. intros _.
  destruct (canonicalJSON _) as [canonical|]; [|apply keeps_fail].
  apply keeps_bind; [apply keeps_guard|]. intros _.
  apply keeps_bind; [apply keeps_now|]. intros at_.
  apply keeps_bind; [apply keeps_uuid|]. intros id.
  apply keeps_bind; [apply keeps_now|]. intros checked.
  set (q := mkRequest _ _ _ _ _ _ _ _ _ _ _ _ _ _ _ _ _).
  destruct (ValidateCreation q (in_ApproverIDs input) checked) as [[]|] eqn:V.
  - change (keeps wf (Create q (in_ApproverIDs input))).
    apply ValidateCreation_ok in V as (_ & A & R & _).
    apply Create_keeps; [done|lia|]. intros a Ha. by apply A.
  - intros e' n t W. exact W.
Qed.

#[export] Hint Resolve service_Create_keeps : forge.

(** Requests under an identifier keep the digest of [q]. *)
Definition digest_of (q : Request) (t : Tables) : Prop :=
  forall x, x ∈ tb_requests t -> r_ID x = r_ID q -> r_RequestDigest x = r_RequestDigest q.

Lemma insert_request_digest q t u t' : insert_request q t = Ok (u, t') -> digest_of q t'.
Proof.
  unfold insert_request. destruct (existsb _ _) eqn:E; [discriminate|]. intros [= _ <-]. rewrite existsb_false in E.
  intros x Hx I. cbn in Hx. apply elem_of_app in Hx as [Hx|Hx]; [|by apply list_elem_of_singleton in Hx as ->].
  specialize (E x Hx). rewrite I, seqb_refl in E. discriminate.
Qed.

Lemma create_task_digest q r a : keeps (digest_of q) (create_task r a).
Proof.
  unfold create_task. keeps_walk. apply keeps_stmt. intros t u t' D E. unfold insert_task in E. guards E.
  by injection E as _ <-.
Qed.

Lemma expire_digest q p at_ : keeps (digest_of q) (exec (expire p at_)).
Proof.
  apply keeps_exec. intros t D x Hx I. apply elem_of_update_where in Hx as (y & Hy & ->).
  destruct (_ && _) in I |- *; cbn in *; auto.
Qed.

Lemma Create_returns q ids e n t r n' t' : Create q ids e n t = (Ok r, n', t') ->
  r_ID r = r_ID q /\ r_RequestDigest r = r_RequestDigest q.
Proof.
  intros R. apply bind_ok in R as (u & n1 & t1 & R1 & R).
  assert (D : digest_of q t1).
  { apply WithTx_run in R1 as (e1 & k & k' & _ & R1). apply bind_ok in R1 as (u1 & n2 & t2 & _ & R1).
    apply bind_ok in R1 as (u2 & n3 & t3 & R2 & R1). apply stmt_ok in R2 as (_ & _ & R2).
    pose proof (insert_request_digest _ _ _ _ R2) as D.
    assert (K : keeps (digest_of q) (forM ids (create_task q))) by (apply keeps_forM; intros; apply create_task_digest).
    specialize (K e1 n3 t3 D). by rewrite R1 in K. }
  unfold ByID in R. apply bind_ok in R as (at_ & n2 & t2 & R2 & R). apply now_ok in R2 as (_ & _ & <-).
  apply bind_ok in R as (u2 & n3 & t3 & R2 & R). apply (proj1 (attempt_ok _ _ _ _ _ _ _)) in R2.
  pose proof (expire_digest q (by_id (r_OrganizationID q) (r_ID q)) (UTC at_) e n2 t1 D) as D3. rewrite R2 in D3. cbn in D3.
  run. match goal with E : select_row _ _ = Ok _ |- _ => apply select_row_ok in E as [In P] end.
  unfold by_id in P. breflect. split; [done|]. exact (D3 _ In ltac:(assumption)).
Qed.

(** A request that was created has the identifier that was drawn for it, after
    its payload was read, and the digest of that payload. *)
Lemma service_Create_digest actor input e n t q n' t' : service_Create actor input e n t = (Ok q, n', t') ->
  exists k canonical, r_ID q = uuids e k /\ canonicalJSON (in_PayloadJSON input) = Some canonical /\
    r_RequestDigest q = requestDigest (TrimSpace (in_RequestType input)) (TrimSpace (in_Action input))
      (TrimSpace (in_Resource input)) (TrimSpace (in_ResourceID input)) canonical.
Proof.
  intros R. unfold service_Create in R. run. destruct (canonicalJSON (in_PayloadJSON input)) as [canonical|] eqn:C; [|run].
  run. match goal with E : Create _ _ _ _ _ = _ |- _ => apply Create_returns in E as [I D] end.
  by eexists _, canonical.
Qed.

Lemma command_keeps c : keeps wf (run_command c).
Proof.
  destruct c; cbn; unfold discard, service_Decide, service_Transfer, service_Withdraw,
    AuthorizeExecution, service_Get, service_List; keeps_walk.
Qed.

Lemma history_wf t : history t -> wf t.
Proof.
  intros H. induction H as [users|users t H [W1 W2 W3 W4 W5 W6 W7]|c e n r n' t t' H IH E].
  - constructor; cbn; constructor.
  - by constructor.
  - replace t' with (run_command c e n t).2 by (by rewrite E). by apply command_keeps.
Qed.

(** The approvers of a request: who decided to approve it. *)
Definition approvers (t : Tables) (id : string) : list string :=
  map t_AssigneeID (select (fun k => t_Decision k =s DecisionApprove) (tasks_of t id)).

Lemma approvers_distinct t id : wf t -> NoDup (approvers t id).
Proof.
  intros W. unfold approvers, tasks_of.
  assert (G : forall l, NoDup (map task_key l) ->
    NoDup (map t_AssigneeID (select (fun k => t_Decision k =s DecisionApprove)
                               (select (fun k => t_RequestID k =s id) l)))).
  { unfold select. induction l as [|k l IH]; cbn; intros N; [constructor|].
    apply NoDup_cons in N as [N0 N]. destruct (t_RequestID k =s id) eqn:E; [|by apply IH]. cbn.
    destruct (t_Decision k =s DecisionApprove); [|by apply IH]. cbn. constructor; [|by apply IH].
    intros X. apply N0. apply list_elem_of_In, in_map_iff in X as (y & Ey & Hy).
    apply List.filter_In in Hy as [Hy _]. apply List.filter_In in Hy as [Hy E'].
    apply list_elem_of_In, in_map_iff. exists y. split; [|done]. unfold task_key. breflect. congruence. }
  apply G. apply W.
Qed.

Lemma approvers_length t id : llen (approvers t id) = approvals t id.
Proof. unfold approvers, approvals, count_if, llen, select. by rewrite length_map. Qed.

Lemma elem_of_approvers t id a :
  a ∈ approvers t id <->
  exists k, k ∈ tb_tasks t /\ t_RequestID k = id /\ t_AssigneeID k = a /\ t_Decision k = DecisionApprove.
Proof.
  unfold approvers, tasks_of. rewrite list_elem_of_In, in_map_iff. split.
  - intros (k & E & Hk). apply list_elem_of_In, elem_of_select in Hk as [Hk D].
    apply elem_of_select in Hk as [Hk R]. breflect. eauto 6.
  - intros (k & Hk & R & E & D). exists k. split; [done|].
    apply list_elem_of_In, elem_of_select. split; [apply elem_of_select; split; [done|]|];
      by apply String.eqb_eq.
Qed.

Lemma ClaimExecution_ok orgID id by_ digest e n t n' t' :
  ClaimExecution orgID id by_ digest e n t = (Ok tt, n', t') ->
  exists q x checked,
    select_row (by_id orgID id) (tb_requests t) = Ok q /\
    r_ApplicantID q = by_ /\ r_Status q = StatusApproved /\ checked < r_ExpiresAt q /\
    r_RequestDigest q = digest /\
    (forall y, y ∈ tb_executions t -> x_request_id y <> id) /\
    x_request_id x = id /\ tb_executions t' = tb_executions t ++ [x].
Proof.
  unfold ClaimExecution. intros H. apply WithTx_run in H as (e' & n0 & k & _ & H). unfold lockRequest in H. run.
  match goal with H : insert_execution ?x _ = _ |- _ => set (row := x) in *; unfold insert_execution in H end.
  match goal with H : context [existsb ?p ?l] |- _ => destruct (existsb p l) eqn:E; [discriminate|] end.
  match goal with H : Ok _ = Ok _ |- _ => injection H as <- end.
  breflect. unfold UTC in *. eexists _, row, _. split_and!; try done.
  intros y Hy. rewrite existsb_false in E. specialize (E y Hy). by orsplit.
Qed.

Lemma AuthorizeExecution_claims actor approvalID input e n t n' t' :
  AuthorizeExecution actor approvalID input e n t = (Ok tt, n', t') ->
  exists q canonical x at_ checked,
    select_row (by_id (p_OrganizationID actor) (TrimSpace approvalID)) (tb_requests t) = Ok q /\
    r_ApplicantID q = p_UserID actor /\ r_Status q = StatusApproved /\ checked < r_ExpiresAt q /\
    recent_mfa_at actor at_ = Ok tt /\
    canonicalJSON (ei_PayloadJSON input) = Some canonical /\
    r_RequestDigest q = requestDigest (TrimSpace (ei_RequestType input)) (TrimSpace (ei_Action input))
      (TrimSpace (ei_Resource input)) (TrimSpace (ei_ResourceID input)) canonical /\
    (forall y, y ∈ tb_executions t -> x_request_id y <> TrimSpace approvalID) /\
    x_request_id x = TrimSpace approvalID /\ tb_executions t' = tb_executions t ++ [x].
Proof.
  intros H. unfold AuthorizeExecution in H. run. unfold RequireRecentMFA in *.
  destruct (p_MFAVerifiedAt actor) eqn:Mf; run.
  destruct (canonicalJSON (ei_PayloadJSON input)) as [canonical|]; run.
  match goal with H : ClaimExecution _ _ _ _ _ _ _ = _ |- _ =>
    repeat match goal with u : unit |- _ => destruct u end;
    apply ClaimExecution_ok in H as (q & row & checked & Sel & A & St & Ex & D & Fresh & X & L) end.
  by eexists q, canonical, row, _, checked.
Qed.

(** ** Properties *)

(** C10.  In every history of the service, whatever fails and whoever calls, an
    execution that was granted belongs to a request that is approved: it was
    claimed by the applicant, for the digest that was approved, at most once;
    at least the required number of distinct people approved it, the applicant
    is not among them and nobody rejected it. *)
Theorem executions_are_approved t x :
  history t -> x ∈ tb_executions t ->
  exists q, q ∈ tb_requests t /\ r_ID q = x_request_id x /\ r_Status q = StatusApproved /\
    x_executed_by x = r_ApplicantID q /\ x_request_digest x = r_RequestDigest q /\
    NoDup (approvers t (r_ID q)) /\ (r_ApplicantID q ∉ approvers t (r_ID q)) /\
    1 <= r_RequiredApprovals q <= llen (approvers t (r_ID q)) /\ rejections t (r_ID q) = 0 /\
    (forall y, y ∈ tb_executions t -> x_request_id y = x_request_id x -> y = x).
Proof.
  intros H Hx. apply history_wf in H as W. pose proof W as [W1 W2 W3 W4 W5 W6 W7].
  rewrite Forall_forall in W5. rewrite Forall_forall in W6. rewrite Forall_forall in W7.
  destruct (W7 x Hx) as (q & Hq & E & St & B & D).
  destruct (W6 q Hq) as [R A]. destruct (A St) as [A1 A2].
  exists q. rewrite approvers_length. split_and!; try done.
  - by apply approvers_distinct.
  - intros X. apply elem_of_approvers in X as (k & Hk & Rk & Ek & _).
    destruct (W5 k Hk) as (q' & Hq' & E' & N).
    assert (q' = q) as -> by (eapply (NoDup_map_eq r_ID); [apply W|done|done|congruence]).
    congruence.
  - intros y Hy Ey. by eapply (NoDup_map_eq x_request_id).
Qed.

(** [AuthorizeExecution] succeeds only for the applicant, with a second
    factor verified in the last ten minutes, on an approved and unexpired
    request of the organization whose digest is that of the very command being
    executed and that was never executed; it then records the execution, and
    no later claim of that request can succeed. *)
Theorem AuthorizeExecution_sound actor approvalID input e n t n' t' :
  AuthorizeExecution actor approvalID input e n t = (Ok tt, n', t') ->
  exists q canonical x at_ checked,
    select_row (by_id (p_OrganizationID actor) (TrimSpace approvalID)) (tb_requests t) = Ok q /\
    r_ApplicantID q = p_UserID actor /\ r_Status q = StatusApproved /\ checked < r_ExpiresAt q /\
    recent_mfa_at actor at_ = Ok tt /\
    canonicalJSON (ei_PayloadJSON input) = Some canonical /\
    r_RequestDigest q = requestDigest (TrimSpace (ei_RequestType input)) (TrimSpace (ei_Action input))
      (TrimSpace (ei_Resource input)) (TrimSpace (ei_ResourceID input)) canonical /\
    (forall y, y ∈ tb_executions t -> x_request_id y <> TrimSpace approvalID) /\
    x_request_id x = TrimSpace approvalID /\ tb_executions t' = tb_executions t ++ [x] /\
    (forall orgID by_ digest e2 n2 n3 t3,
       ClaimExecution orgID (TrimSpace approvalID) by_ digest e2 n2 t' <> (Ok tt, n3, t3)).
Proof.
  intros H. apply AuthorizeExecution_claims in H
    as (q & canonical & x & at_ & checked & Sel & A & St & Ex & Mfa & C & D & Fresh & X & L).
  exists q, canonical, x, at_, checked. split_and!; try done.
  intros orgID by_ digest e2 n2 n3 t3 Cl.
  apply ClaimExecution_ok in Cl as (q2 & x2 & c2 & _ & _ & _ & _ & _ & F2 & _ & _).
  apply (F2 x); [|done]. rewrite L. apply elem_of_app. right. constructor.
Qed.

(** The resolution of a request is decided by its votes: with [approved],
    [rejected] and [pending] tasks (as many as the request has approvers) and a
    requirement between one and that number, it is rejected exactly when
    somebody rejected, approved exactly when nobody did and the required number
    approved, and it is never left pending once everybody voted. *)
Theorem ResolveStatus_spec required approved rejected pending :
  0 <= approved -> 0 <= rejected -> 0 <= pending ->
  1 <= required <= approved + rejected + pending ->
  (ResolveStatus required approved rejected pending = StatusRejected <-> 0 < rejected) /\
  (ResolveStatus required approved rejected pending = StatusApproved <->
     rejected = 0 /\ required <= approved) /\
  (ResolveStatus required approved rejected pending = StatusPending <->
     rejected = 0 /\ approved < required) /\
  (pending = 0 -> ResolveStatus required approved rejected pending <> StatusPending).
Proof.
  intros A R P Q. unfold ResolveStatus, StatusRejected, StatusApproved, StatusPending.
  destruct ((0 <? rejected) || (approved + pending <? required)) eqn:G; orsplit;
    [| |destruct (Z.leb_spec required approved)];
    split_and!; try split; intros; try discriminate; try lia; split; lia.
Qed.

Lemma ResolveStatus_spec_witness : ResolveStatus 2 2 0 1 = StatusApproved.
Proof.
  assert (H1 : 0 <= 2) by lia. assert (H2 : 0 <= 0) by lia. assert (H3 : 0 <= 1) by lia.
  assert (H4 : 1 <= 2 <= 2 + 0 + 1) by lia.
  apply (proj1 (proj2 (ResolveStatus_spec 2 2 0 1 H1 H2 H3 H4))). lia.
Defined.

(** A history in which a request is created, approved by two people and
    executed. *)
Definition person (id : string) : Principal :=
  mkPrincipal "USER" id "org" id id [] [] [] false "s" 0 (mkDataScope true false []) "MFA" (Some 1000).
Definition sample_env : Env :=
  mkEnv (fun _ => 1000) (fun n => "id-" +:+ Itoa (Z.of_nat n)) (fun _ => None) (fun _ _ => "0"%char) false.
Definition sample_payload : string := dq " { 'user' : 'u1', 'role':'auditor' }".
Definition sample_input : CreateInput :=
  mkCreateInput "ROLE" "user.roles.update" "user" "u1" "give a role" sample_payload "quorum" 2
    ["ann"; "bob"; "carl"] Hour.
Definition sample_command : ExecutionInput :=
  mkExecutionInput "ROLE" "user.roles.update" "user" "u1" (dq "{'role':'auditor','user':'u1'}").
Definition active (id : string) : UserRow := mkUserRow id "org" "ACTIVE".
Definition t0 : Tables := mkTables [active "maker"; active "ann"; active "bob"; active "carl"] [] [] [].
Definition after (c : command) (t : Tables) : Tables := snd (run_command c sample_env 0%nat t).
Definition t_created : Tables := Eval vm_compute in after (CCreate (person "maker") sample_input) t0.
Definition sample_id : string := Eval vm_compute in
  match tb_requests t_created with r :: _ => r_ID r | [] => "" end.
Definition t_half : Tables := Eval vm_compute in after (CDecide (person "ann") sample_id "APPROVE" "") t_created.
Definition t_approved : Tables := Eval vm_compute in
  after (CDecide (person "bob") sample_id "approve" "ok") t_half.
Definition t_executed : Tables := Eval vm_compute in
  after (CAuthorize (person "maker") sample_id sample_command) t_approved.

Lemma history_after c t t' : history t -> after c t = t' -> history t'.
Proof.
  intros H E. eapply (H_command c sample_env 0%nat (fst (fst (run_command c sample_env 0%nat t)))
    (snd (fst (run_command c sample_env 0%nat t)))); [exact H|].
  rewrite <- E. unfold after. by destruct (run_command c sample_env 0%nat t) as [[? ?] ?].
Defined.

Lemma executed_history : history t_executed.
Proof.
  eapply (history_after (CAuthorize (person "maker") sample_id sample_command) t_approved);
    [|vm_compute; reflexivity].
  eapply (history_after (CDecide (person "bob") sample_id "approve" "ok") t_half);
    [|vm_compute; reflexivity].
  eapply (history_after (CDecide (person "ann") sample_id "APPROVE" "") t_created);
    [|vm_compute; reflexivity].
  eapply (history_after (CCreate (person "maker") sample_input) t0); [|vm_compute; reflexivity].
  exact (H_init _).
Defined.

Definition sample_execution : Execution :=
  match tb_executions t_executed with x :: _ => x | [] => mkExecution "" "" "" "" 0 end.

Lemma executions_are_approved_witness :
  exists q, r_ID q = sample_id /\ r_Status q = StatusApproved /\ r_ApplicantID q = "maker".
Proof.
  assert (Hx : sample_execution ∈ tb_executions t_executed) by (vm_compute; constructor).
  destruct (executions_are_approved t_executed sample_execution executed_history Hx)
    as (q & Hq & E & St & B & _).
  exists q. split; [rewrite E; vm_compute; reflexivity|]. split; [exact St|].
  rewrite <- B. vm_compute. reflexivity.
Defined.

Lemma AuthorizeExecution_sound_witness :
  exists x, tb_executions t_executed = tb_executions t_approved ++ [x] /\
    x_request_id x = TrimSpace sample_id.
Proof.
  assert (H : AuthorizeExecution (person "maker") sample_id sample_command sample_env 0%nat t_approved
    = (Ok tt, snd (fst (AuthorizeExecution (person "maker") sample_id sample_command sample_env 0%nat t_approved)),
       t_executed)) by (vm_compute; reflexivity).
  destruct (AuthorizeExecution_sound _ _ _ _ _ _ _ _ H)
    as (q & canonical & x & at_ & checked & _ & _ & _ & _ & _ & _ & _ & _ & X & L & _).
  exists x. split; [exact L|exact X].
Defined.
