(* ===== verification/AuditLog.v ===== *)
(** * The audit log

    [internal/app/audit]: the hash-chained log ([Write], [VerifyIntegrity],
    [List]) and its archival ([PurgeExpired], archive.go).

    The column type of an instant is the database's: [column_time] is the value
    read back for a stored instant.  The forwarder and the WORM archive are
    interfaces of the package. *)

From S2P Require Import Prelude GoString GoTime Crypto Json Database.

Record Event := mkEvent {
  e_ID : string;
  e_OccurredAt : Time;
  e_RequestID : string;
  e_OrganizationID : string;
  e_ActorID : string;
  e_ActorName : string;
  e_Action : string;
  e_ResourceType : string;
  e_ResourceID : string;
  e_Result : string;
  e_ClientIP : string;
  e_Details : json;           (* [JNull] for a nil map *)
  e_SequenceNo : Z;
  e_PrevHash : string;
  e_EventHash : string
}.
#[export] Instance Event_eta : Eta Event := fun e =>
  mkEvent (e_ID e) (e_OccurredAt e) (e_RequestID e) (e_OrganizationID e) (e_ActorID e)
    (e_ActorName e) (e_Action e) (e_ResourceType e) (e_ResourceID e) (e_Result e) (e_ClientIP e)
    (e_Details e) (e_SequenceNo e) (e_PrevHash e) (e_EventHash e).

(** A row of [audit_logs]; the last three columns are nullable, for the rows
    written before the chain existed. *)
Record Row := mkRow {
  l_id : string;
  l_occurred_at : Time;
  l_request_id : string;
  l_organization_id : option string;
  l_actor_id : option string;
  l_actor_name : string;
  l_action : string;
  l_resource_type : string;
  l_resource_id : string;
  l_result : string;
  l_client_ip : string;
  l_details_json : string;
  l_sequence_no : option Z;
  l_prev_hash : option string;
  l_event_hash : option string
}.
#[export] Instance Row_eta : Eta Row := fun r =>
  mkRow (l_id r) (l_occurred_at r) (l_request_id r) (l_organization_id r) (l_actor_id r)
    (l_actor_name r) (l_action r) (l_resource_type r) (l_resource_id r) (l_result r) (l_client_ip r)
    (l_details_json r) (l_sequence_no r) (l_prev_hash r) (l_event_hash r).

Record ArchiveReceipt := mkReceipt {
  rc_Provider : string;
  rc_ObjectKey : string;
  rc_VersionID : string;
  rc_ContentHash : string;
  rc_EventCount : Z;
  rc_ArchivedAt : Time;
  rc_ImmutableUntil : Time
}.
#[export] Instance ArchiveReceipt_eta : Eta ArchiveReceipt := fun r =>
  mkReceipt (rc_Provider r) (rc_ObjectKey r) (rc_VersionID r) (rc_ContentHash r) (rc_EventCount r)
    (rc_ArchivedAt r) (rc_ImmutableUntil r).

(** The tables: the log, the head of each chain, the anchor of each archived
    prefix, the receipts, and what the forwarder keeps in the same database. *)
Record Tables (X : Type) := mkTables {
  au_logs : list Row;
  au_heads : gmap string (Z * string);
  au_anchors : gmap string (Z * string);
  au_receipts : list (string * ArchiveReceipt);
  au_outbox : X
}.
Arguments mkTables {X}.
Arguments au_logs {X}.
Arguments au_heads {X}.
Arguments au_anchors {X}.
Arguments au_receipts {X}.
Arguments au_outbox {X}.
#[export] Instance Tables_eta X : Eta (Tables X) := fun t =>
  mkTables (au_logs t) (au_heads t) (au_anchors t) (au_receipts t) (au_outbox t).

Definition ErrIntegrityViolation : error := Sentinel "audit.ErrIntegrityViolation".

(** ** The hash of an event *)

(** [writeAuditHashPart]: the length, the value, and separators. *)
Definition writeAuditHashPart (value : string) : string :=
  Itoa (slen value) +:+ String ":" (value +:+ "|").

Definition hash_parts (e : Event) (raw : string) : list string :=
  [e_ID e; RFC3339Nano (UTC (e_OccurredAt e)); e_RequestID e; e_OrganizationID e; e_ActorID e;
   e_ActorName e; e_Action e; e_ResourceType e; e_ResourceID e; e_Result e; e_ClientIP e; raw;
   Itoa (e_SequenceNo e); e_PrevHash e].

Fixpoint write_parts (parts : list string) : string :=
  match parts with
  | [] => ""
  | p :: rest => writeAuditHashPart p +:+ write_parts rest
  end.

Definition auditEventHash (e : Event) (raw : string) : string :=
  Sum256hex (write_parts (hash_parts e raw)).

Definition auditScope (orgID : string) : string := if orgID =s "" then "global" else orgID.

(** [sql.NullString.String]. *)
Definition nullString (v : option string) : string := match v with Some s => s | None => "" end.

Section writer.
Context {X : Type} (column_time : Time -> Time).

(** The forwarder: its provider's name and what [EnqueueTx] does in the
    transaction. *)
Record Forwarder := mkForwarder { fw_Provider : string; fw_EnqueueTx : Event -> X -> result X }.

Definition enqueue (forwarder : option Forwarder) (e : Event) : M (Tables X) unit :=
  match forwarder with
  | None => mret tt
  | Some f => stmt (fun t =>
      match fw_EnqueueTx f e (au_outbox t) with
      | Ok x => Ok (tt, t <| au_outbox := x |>)
      | Err err => Err (Wrapf "enqueue audit reliable event via %s: %w" [FStr (fw_Provider f)] err)
      end)
  end.

(** The row inserted for an event. *)
Definition row_of (e : Event) (raw : string) : Row :=
  mkRow (e_ID e) (column_time (e_OccurredAt e)) (e_RequestID e) (nullIfEmpty (e_OrganizationID e))
    (nullIfEmpty (e_ActorID e)) (e_ActorName e) (e_Action e) (e_ResourceType e) (e_ResourceID e)
    (e_Result e) (e_ClientIP e) raw (Some (e_SequenceNo e)) (Some (e_PrevHash e)) (Some (e_EventHash e)).

Definition insert_log (r : Row) (t : Tables X) : result (unit * Tables X) :=
  if existsb (fun x => l_id x =s l_id r) (au_logs t) then Err ErrDuplicate
  else Ok (tt, t <| au_logs := au_logs t ++ [r] |>).

(** [INSERT IGNORE]. *)
Definition insert_head (scope : string) (t : Tables X) : Tables X :=
  match au_heads t !! scope with
  | Some _ => t
  | None => t <| au_heads := <[scope := (0, "")]> (au_heads t) |>
  end.

Definition select_head (scope : string) (t : Tables X) : result (Z * string) :=
  match au_heads t !! scope with Some h => Ok h | None => Err ErrNoRows end.

Definition Write (forwarder : option Forwarder) (e : Event) : M (Tables X) unit :=
  let e := if e_Result e =s "" then e <| e_Result := "SUCCESS" |> else e in
  let raw := Marshal (e_Details e) in
  WithTx (
    let scope := if e_OrganizationID e =s "" then "global" else e_OrganizationID e in
    _ ← exec (insert_head scope);
    head ← queryR (select_head scope);
    let '(sequence, previous) := head in
    id ← NewString;
    at_ ← now;
    let e := e <| e_ID := id |> <| e_OccurredAt := UTC at_ |> <| e_SequenceNo := sequence + 1 |>
               <| e_PrevHash := previous |> in
    let e := e <| e_EventHash := auditEventHash e raw |> in
    _ ← stmt (insert_log (row_of e raw));
    _ ← enqueue forwarder e;
    exec (fun t => t <| au_heads := alter (fun _ => (e_SequenceNo e, e_EventHash e)) scope (au_heads t) |>)).

(** ** Reading *)

(** A row scanned into an event (the details are read from [details_json]). *)
Definition scan_event (details : json) (r : Row) : Event :=
  mkEvent (l_id r) (l_occurred_at r) (l_request_id r) (nullString (l_organization_id r))
    (nullString (l_actor_id r)) (l_actor_name r) (l_action r) (l_resource_type r) (l_resource_id r)
    (l_result r) (l_client_ip r) details (match l_sequence_no r with Some n => n | None => 0 end)
    (nullString (l_prev_hash r)) (nullString (l_event_hash r)).

(** [json.Unmarshal] into a [map[string]any]: an object or null. *)
Definition unmarshal_details (raw : string) : option json :=
  match parse_document raw with
  | Some (JObj l) => Some (JObj l)
  | Some JNull => Some JNull
  | _ => None
  end.

(** [List] ignores an error of the decoding. *)
Definition List_ (orgID : string) (limit : Z) : M (Tables X) (list Event) :=
  let limit := if limit <=? 0 then 200 else limit in
  let limit := if 5000 <? limit then 5000 else limit in
  rows ← query (fun t => take (Z.to_nat limit)
    (order_by (fun a b => l_occurred_at b <=? l_occurred_at a)
      (select (fun r => bool_decide (l_organization_id r = Some orgID)) (au_logs t))));
  mret (map (fun r => scan_event (default JNull (unmarshal_details (l_details_json r))) r) rows).

(** The rows of a chain: [organization_id=? OR (?='' AND organization_id IS NULL)]. *)
Definition in_chain (orgID : string) (r : Row) : bool :=
  match l_organization_id r with
  | Some o => o =s orgID
  | None => orgID =s ""
  end.

(** [ORDER BY sequence_no ASC,id ASC]; a NULL sorts first. *)
Definition chain_order (a b : Row) : bool :=
  match l_sequence_no a, l_sequence_no b with
  | Some x, Some y => (x <? y) || ((x =? y) && str_le (l_id a) (l_id b))
  | None, Some _ => true
  | Some _, None => false
  | None, None => str_le (l_id a) (l_id b)
  end.

(** The loop of [VerifyIntegrity]. *)
Fixpoint verify_rows (expectedSequence : Z) (previous : string) (rows : list Row) : result unit :=
  match rows with
  | [] => Ok tt
  | r :: rest =>
    match l_sequence_no r, l_event_hash r with
    | Some sequence, Some eventHash =>
      let e := scan_event JNull r in
      if negb (sequence =? expectedSequence) || (e_PrevHash e <>s previous) ||
         (eventHash <>s auditEventHash e (l_details_json r))
      then Err (Wrapf "%w at sequence %d" [FInt sequence] ErrIntegrityViolation)
      else verify_rows (expectedSequence + 1) eventHash rest
    | _, _ => Err (Wrapf "%w: legacy audit event has no integrity proof" [] ErrIntegrityViolation)
    end
  end.

Definition chain_rows (orgID : string) (t : Tables X) : list Row :=
  order_by chain_order (select (in_chain orgID) (au_logs t)).

Definition VerifyIntegrity (orgID : string) : M (Tables X) unit :=
  rows ← query (chain_rows orgID);
  anchor ← query (fun t => au_anchors t !! auditScope orgID);
  let '(sequence, previous) :=
    match anchor with Some (s, h) => (s + 1, h) | None => (1, "") end in
  lift (verify_rows sequence previous rows).

(** ** Archival *)

Definition member (name : string) (v : string) : list (string * json) :=
  if v =s "" then [] else [(name, JStr v)].

(** The JSON of an event: the fields in the order of the struct, the optional
    ones omitted when empty. *)
Definition event_json (e : Event) : json :=
  JObj ([("id", JStr (e_ID e)); ("occurred_at", JStr (RFC3339Nano (e_OccurredAt e)));
         ("request_id", JStr (e_RequestID e))] ++
        member "organization_id" (e_OrganizationID e) ++ member "actor_id" (e_ActorID e) ++
        member "actor_name" (e_ActorName e) ++ [("action", JStr (e_Action e))] ++
        member "resource_type" (e_ResourceType e) ++ member "resource_id" (e_ResourceID e) ++
        [("result", JStr (e_Result e))] ++ member "client_ip" (e_ClientIP e) ++
        (match e_Details e with JNull | JObj [] => [] | d => [("details", d)] end) ++
        (if e_SequenceNo e =? 0 then [] else [("sequence_no", JNum (Itoa (e_SequenceNo e)))]) ++
        member "prev_hash" (e_PrevHash e) ++ member "event_hash" (e_EventHash e)).

Definition DigestEvents (events : list Event) : string :=
  Sum256hex (Marshal (JArr (map event_json events))).

Definition ValidateArchiveReceipt (events : list Event) (receipt : ArchiveReceipt) (now : Time)
  : result unit :=
  if (rc_Provider receipt =s "") || (rc_ObjectKey receipt =s "") || (rc_VersionID receipt =s "") ||
     (rc_ContentHash receipt =s "") then
    Err (Errorf "audit archive receipt is incomplete" [])
  else if (rc_ContentHash receipt <>s DigestEvents events) ||
          negb (rc_EventCount receipt =? llen events) then
    Err (Errorf "audit archive receipt does not cover the archived batch" [])
  else if IsZero (rc_ImmutableUntil receipt) || negb (After (rc_ImmutableUntil receipt) now) then
    Err (Errorf "audit archive receipt has no future immutable retention" [])
  else Ok tt.

(** The WORM archive: what [Archive] and [Verify] answer. *)
Record WORMArchive := mkArchive {
  wa_Archive : list Event -> Time -> result ArchiveReceipt;
  wa_Verify : ArchiveReceipt -> result unit
}.

(** [ORDER BY organization_id,sequence_no,id], a NULL organization first. *)
Definition archive_order (a b : Row) : bool :=
  let x := nullString (l_organization_id a) in let y := nullString (l_organization_id b) in
  if x =s y then chain_order a b else str_le x y.

Fixpoint decode_events (rows : list Row) : result (list Event) :=
  match rows with
  | [] => Ok []
  | r :: rest =>
    match unmarshal_details (l_details_json r) with
    | None => Err (Wrapf "decode audit details: %w" [] (Errorf "json" []))
    | Some d => events ← decode_events rest; Ok (scan_event d r :: events)
    end
  end.

Definition expiredEvents (cutoff : Time) : M (Tables X) (list Event) :=
  rows ← query (fun t => order_by archive_order (select (fun r => l_occurred_at r <? cutoff) (au_logs t)));
  lift (decode_events rows).

(** The newest event of each scope, by sequence number. *)
Fixpoint collect_anchors (anchors : gmap string Event) (events : list Event)
  : result (gmap string Event) :=
  match events with
  | [] => Ok anchors
  | e :: rest =>
    if (e_SequenceNo e <=? 0) || (e_EventHash e =s "") then
      Err (Wrapf "%w: expired audit event %s has no integrity proof" [FStr (e_ID e)] ErrIntegrityViolation)
    else
      let scope := auditScope (e_OrganizationID e) in
      let anchors := match anchors !! scope with
                     | Some current => if e_SequenceNo current <? e_SequenceNo e
                                       then <[scope := e]> anchors else anchors
                     | None => <[scope := e]> anchors
                     end in
      collect_anchors anchors rest
  end.

(** The batches of five hundred identifiers; [RowsAffected] is summed. *)
Definition delete_batch (ids : list string) (t : Tables X) : result (Z * Tables X) :=
  Ok (count_if (fun r => contains ids (l_id r)) (au_logs t),
      t <| au_logs := delete_where (fun r => contains ids (l_id r)) (au_logs t) |>).

Fixpoint delete_batches (fuel : nat) (ids : list string) (deleted : Z) : M (Tables X) Z :=
  match fuel, ids with
  | S fuel, _ :: _ =>
    n ← stmt (delete_batch (take 500 ids));
    delete_batches fuel (drop 500 ids) (deleted + n)
  | _, _ => mret deleted
  end.

Definition deleteArchived (events : list Event) (anchors : gmap string Event)
    (receipt : ArchiveReceipt) : M (Tables X) Z :=
  WithTx (
    receipt ← (if IsZero (rc_ArchivedAt receipt)
               then at_ ← now; mret (receipt <| rc_ArchivedAt := UTC at_ |>) else mret receipt);
    id ← NewString;
    _ ← exec (fun t => t <| au_receipts := au_receipts t ++ [(id, receipt)] |>);
    _ ← forM (map_to_list anchors) (fun anchor =>
          exec (fun t => t <| au_anchors :=
            <[fst anchor := (e_SequenceNo (snd anchor), e_EventHash (snd anchor))]> (au_anchors t) |>));
    delete_batches (length events) (map e_ID events) 0).

(** [time.Duration(retentionDays) * 24 * time.Hour] in 64 bits. *)
Definition retention (days : Z) : Duration := wrap64 (wrap64 (days * 24) * Hour).

Definition PurgeExpired (archive : option WORMArchive) (retentionDays : Z) : M (Tables X) Z :=
  if retentionDays <=? 0 then mret 0
  else match archive with
  | None => fail (Errorf "audit purge requires verified WORM archive adapter" [])
  | Some w =>
    at_ ← now;
    events ← expiredEvents (timeAdd (UTC at_) (retention (- retentionDays)));
    if llen events =? 0 then mret 0
    else
      anchors ← lift (collect_anchors ∅ events);
      _ ← forM (map_to_list anchors) (fun anchor =>
            let scope := fst anchor in
            r ← attempt (VerifyIntegrity (if scope =s "global" then "" else scope));
            match r with
            | Ok _ => mret tt
            | Err e => fail (Wrapf "verify audit scope %s before archive: %w" [FStr scope] e)
            end);
      until ← now;
      receipt ← (match wa_Archive w events (timeAdd (UTC until) (retention retentionDays)) with
                 | Ok r => mret r
                 | Err e => fail (Wrapf "archive audit events: %w" [] e)
                 end);
      checked ← now;
      _ ← lift (ValidateArchiveReceipt events receipt (UTC checked));
      _ ← (match wa_Verify w receipt with
           | Ok _ => mret tt
           | Err e => fail (Wrapf "verify audit archive receipt: %w" [] e)
           end);
      deleteArchived events anchors receipt
  end.
End writer.

(** ** The chain *)

#[local] Arguments RFC3339Nano : simpl never.
#[local] Arguments Itoa : simpl never.
#[local] Arguments UTC : simpl never.
#[local] Arguments auditEventHash : simpl never.

Definition row_event (r : Row) : Event := scan_event JNull r.
Definition row_scope (r : Row) : string := auditScope (nullString (l_organization_id r)).
Definition row_seq (r : Row) : Z := default 0 (l_sequence_no r).

(** The hash after the rows, [h] before them. *)
Fixpoint last_hash (h : string) (rows : list Row) : string :=
  match rows with [] => h | r :: rest => last_hash (nullString (l_event_hash r)) rest end.

(** A row that continues the chain at [n] after the hash [h]. *)
Definition link (n : Z) (h : string) (r : Row) : Prop :=
  l_sequence_no r = Some n /\
  nullString (l_prev_hash r) = h /\
  l_event_hash r = Some (auditEventHash (row_event r) (l_details_json r)).

Lemma verify_rows_cons n h r rest :
  verify_rows n h (r :: rest) = Ok tt <->
  link n h r /\ verify_rows (n + 1) (nullString (l_event_hash r)) rest = Ok tt.
Proof.
  cbn [verify_rows]. unfold link, row_event.
  destruct (l_sequence_no r) as [k|]; [|split; [discriminate|intros ((? & _) & _); discriminate]].
  destruct (l_event_hash r) as [v|]; [|split; [discriminate|intros ((_ & _ & ?) & _); discriminate]].
  destruct (negb (k =? n) || _ || _) eqn:E.
  - split; [discriminate|]. intros ((K & P & V) & _). injection K as ->. injection V as V.
    exfalso. orsplit; cbn [e_PrevHash scan_event] in *; congruence.
  - apply orb_false_iff in E as [E V]. apply orb_false_iff in E as [K P]. breflect. subst.
    cbn [nullString]. split; [intros H; repeat split; congruence|tauto].
Qed.

Lemma verify_rows_app n h rows rows' :
  verify_rows n h (rows ++ rows') = Ok tt <->
  verify_rows n h rows = Ok tt /\ verify_rows (n + llen rows) (last_hash h rows) rows' = Ok tt.
Proof.
  revert n h. induction rows as [|r rows IH]; intros n h.
  - cbn [app last_hash]. rewrite llen_nil, Z.add_0_r. cbn. tauto.
  - cbn [app last_hash]. rewrite !verify_rows_cons, IH, llen_cons, Z.add_assoc. tauto.
Qed.

Lemma last_hash_app h rows rows' : last_hash h (rows ++ rows') = last_hash (last_hash h rows) rows'.
Proof. revert h. induction rows; cbn; auto. Qed.

(** The sequence numbers of a chain that verifies are consecutive. *)
Lemma verify_rows_seq n h rows r :
  verify_rows n h rows = Ok tt -> r ∈ rows ->
  exists k, l_sequence_no r = Some k /\ n <= k < n + llen rows.
Proof.
  revert n h. induction rows as [|x rows IH]; intros n h V Hr; [inversion Hr|].
  apply verify_rows_cons in V as [(K & _) V]. rewrite llen_cons. pose proof (llen_nonneg rows).
  apply elem_of_cons in Hr as [->|Hr]; [exists n; split; [done|lia]|].
  destruct (IH _ _ V Hr) as (k & ? & ?). exists k. split; [done|lia].
Qed.

(** So the order of the query changes nothing. *)
Lemma chain_order_verified n h rows :
  verify_rows n h rows = Ok tt -> order_by chain_order rows = rows.
Proof.
  intros V. apply order_by_sorted. revert n h V.
  induction rows as [|r rows IH]; intros n h V; [constructor|].
  apply verify_rows_cons in V as [(K & _) V]. constructor; [by eapply IH|].
  apply Forall_forall. intros x Hx. destruct (verify_rows_seq _ _ _ _ V Hx) as (k & E & L).
  unfold strictly, chain_order. rewrite K, E.
  replace (n <? k) with true by (symmetry; apply Z.ltb_lt; lia).
  replace (k <? n) with false by (symmetry; apply Z.ltb_ge; lia).
  replace (k =? n) with false by (symmetry; apply Z.eqb_neq; lia). done.
Qed.

(** ** Histories *)

Section histories.
Context {X : Type} (column_time : Time -> Time).
Implicit Types t : Tables X.

(** The rows of an organization's chain, and where the chain starts. *)
Definition live (o : string) t : list Row := select (in_chain o) (au_logs t).
Definition start (scope : string) t : Z * string := default (0, "") (au_anchors t !! scope).

(** Writes by any caller, in a transaction of their own or of a caller that goes
    on when they succeed, and purges with any archive, each in an environment of
    its own and with any outcome.  The clock does not run backwards from one
    write to the next, and the column keeps its readings. *)
Inductive history : Time -> Tables X -> Prop :=
| h_start T x : history T (mkTables [] ∅ ∅ [] x)
| h_write T T' t forwarder e env n r n' t' :
    history T t -> in_tx env = false \/ is_ok r = true -> e_OrganizationID e <> "global" ->
    (forall k, T <= clock env k <= T' /\ column_time (clock env k) = clock env k) ->
    Write column_time forwarder e env n t = (r, n', t') -> history T' t'
| h_purge T t archive days env n r n' t' :
    history T t -> in_tx env = false ->
    PurgeExpired archive days env n t = (r, n', t') -> history T t'.

Record chained (T : Time) t : Prop := {
  ch_orgs : Forall (fun r => l_organization_id r <> Some "" /\ l_organization_id r <> Some "global")
              (au_logs t);
  ch_ids : NoDup (map l_id (au_logs t));
  ch_times : StronglySorted (fun r s => l_occurred_at r <= l_occurred_at s) (au_logs t);
  ch_past : Forall (fun r => l_occurred_at r <= T) (au_logs t);
  ch_verified o : o <> "global" ->
    verify_rows (fst (start (auditScope o) t) + 1) (snd (start (auditScope o) t)) (live o t) = Ok tt;
  ch_heads o : o <> "global" ->
    default (0, "") (au_heads t !! auditScope o) =
    (fst (start (auditScope o) t) + llen (live o t), last_hash (snd (start (auditScope o) t)) (live o t))
}.

Lemma auditScope_inj o o' :
  o <> "global" -> o' <> "global" -> auditScope o = auditScope o' -> o = o'.
Proof.
  unfold auditScope. intros H H'.
  destruct (String.eqb_spec o ""), (String.eqb_spec o' ""); congruence.
Qed.

Lemma nullString_nullIfEmpty s : nullString (nullIfEmpty s) = s.
Proof. unfold nullIfEmpty. by destruct (String.eqb_spec s "") as [->|]. Qed.

Lemma in_chain_spec o r :
  l_organization_id r <> Some "" -> in_chain o r = (nullString (l_organization_id r) =s o).
Proof.
  unfold in_chain. intros H. destruct (l_organization_id r) as [v|]; [done|]. cbn [nullString].
  by rewrite (String.eqb_sym o "").
Qed.

Lemma in_chain_scope o r :
  o <> "global" -> l_organization_id r <> Some "" -> l_organization_id r <> Some "global" ->
  in_chain o r = true <-> row_scope r = auditScope o.
Proof.
  intros Ho H1 H2. rewrite in_chain_spec, seqb_true by done. split; [by intros <-|].
  unfold row_scope. apply auditScope_inj; [|done]. destruct (l_organization_id r); [cbn; congruence|done].
Qed.

Lemma enqueue_ok forwarder e env n t u n' t' :
  enqueue forwarder e env n t = (Ok u, n', t') ->
  au_logs t' = au_logs t /\ au_heads t' = au_heads t /\ au_anchors t' = au_anchors t.
Proof.
  unfold enqueue. destruct forwarder as [f|]; intros H; run; [|done].
  destruct (fw_EnqueueTx f e (au_outbox t)); [|discriminate].
  match goal with E : Ok _ = Ok _ |- _ => by injection E as _ <- end.
Qed.

Lemma insert_head_spec scope t :
  select_head scope (insert_head scope t) = Ok (default (0, "") (au_heads t !! scope)) /\
  au_logs (insert_head scope t) = au_logs t /\ au_anchors (insert_head scope t) = au_anchors t /\
  (forall f, alter f scope (au_heads (insert_head scope t)) =
             <[scope := f (default (0, "") (au_heads t !! scope))]> (au_heads t)).
Proof.
  unfold insert_head, select_head. destruct (au_heads t !! scope) as [h|] eqn:E; cbn; rewrite ?E.
  - split_and!; try done. intros f. apply map_eq. intros k. destruct (decide (k = scope)) as [->|].
    + by rewrite lookup_alter_eq, lookup_insert_eq, E.
    + by rewrite lookup_alter_ne, lookup_insert_ne.
  - rewrite lookup_insert_eq. split_and!; try done. intros f. apply map_eq. intros k.
    destruct (decide (k = scope)) as [->|].
    + by rewrite lookup_alter_eq, !lookup_insert_eq.
    + by rewrite lookup_alter_ne, !lookup_insert_ne.
Qed.

(** What a write that succeeds did. *)
(** What an event keeps when it is written. *)
Record same_event (e e' : Event) : Prop := {
  se_request : e_RequestID e' = e_RequestID e;
  se_org : e_OrganizationID e' = e_OrganizationID e;
  se_actor : e_ActorID e' = e_ActorID e;
  se_actor_name : e_ActorName e' = e_ActorName e;
  se_action : e_Action e' = e_Action e;
  se_type : e_ResourceType e' = e_ResourceType e;
  se_resource : e_ResourceID e' = e_ResourceID e;
  se_result : e_Result e' = (if e_Result e =s "" then "SUCCESS" else e_Result e);
  se_ip : e_ClientIP e' = e_ClientIP e
}.

Lemma Write_ok forwarder e env n t n' t' :
  Write column_time forwarder e env n t = (Ok tt, n', t') ->
  exists e' raw k, let head := default (0, "") (au_heads t !! auditScope (e_OrganizationID e)) in
    e_OrganizationID e' = e_OrganizationID e /\ e_OccurredAt e' = clock env k /\
    e_SequenceNo e' = fst head + 1 /\ e_PrevHash e' = snd head /\
    e_EventHash e' = auditEventHash e' raw /\
    (e_ID e' ∉ map l_id (au_logs t)) /\
    au_logs t' = (au_logs t ++ [row_of column_time e' raw])%list /\
    au_heads t' = <[auditScope (e_OrganizationID e) := (e_SequenceNo e', e_EventHash e')]> (au_heads t) /\
    au_anchors t' = au_anchors t /\ raw = Marshal (e_Details e) /\ same_event e e'.
Proof.
  intros H. unfold Write in H. apply WithTx_run in H as (env' & m & k & Clk & H). rewrite <- Clk.
  set (e0 := if e_Result e =s "" then _ else _) in H.
  assert (O : e_OrganizationID e0 = e_OrganizationID e) by (unfold e0; by destruct (e_Result e =s "")).
  run. match goal with E : select_head _ _ = Ok _ |- _ => rename E into Sel end.
  fold (auditScope (e_OrganizationID e0)) in *.
  destruct (insert_head_spec (auditScope (e_OrganizationID e0)) t) as (Sh & L & An & Al).
  rewrite Sel in Sh. injection Sh as ->. set (head := default _ _) in *.
  destruct head as [sequence previous] eqn:Eh. run.
  match goal with E : insert_log (row_of _ ?e1 ?raw) _ = _ |- _ =>
    rename E into Ins; set (e' := e1) in *; exists e', raw, (S (S (S m))) end.
  match goal with E : enqueue _ _ _ _ _ = _ |- _ => apply enqueue_ok in E as (E1 & E2 & E3) end.
  unfold insert_log in Ins. destruct (existsb _ _) eqn:Ex; [discriminate|]. injection Ins as _ Ins.
  rewrite <- Ins in E1, E2, E3. rewrite <- O. fold head. rewrite Eh.
  split_and!; try done.
  - intros In. apply list_elem_of_fmap in In as (r & Hid & Hr). rewrite L in Ex.
    rewrite existsb_false in Ex. apply Ex in Hr. cbn [l_id row_of] in Hr. by rewrite <- Hid, seqb_refl in Hr.
  - cbn [au_logs set]. rewrite E1. cbn. by rewrite L.
  - cbn. rewrite E2. cbn. rewrite Al. done.
  - cbn. rewrite E3. cbn. done.
  - unfold e0. by destruct (e_Result e =s "").
  - unfold e', e0. by destruct (e_Result e =s "") eqn:R; split; cbn; rewrite ?R.
Qed.

(** The row of an event hashes as the event when the column keeps its instant. *)
Lemma hash_row e raw :
  column_time (e_OccurredAt e) = e_OccurredAt e ->
  hash_parts (row_event (row_of column_time e raw)) raw = hash_parts e raw.
Proof. intros C. unfold hash_parts, row_event. cbn. by rewrite C, !nullString_nullIfEmpty. Qed.

Lemma start_eq scope t t' : au_anchors t' = au_anchors t -> start scope t' = start scope t.
Proof. unfold start. by intros ->. Qed.

Lemma StronglySorted_snoc {A} (R : relation A) l (x : A) :
  StronglySorted R l -> Forall (fun y => R y x) l -> StronglySorted R (l ++ [x]).
Proof.
  intros H F. apply StronglySorted_app_2; [|done|by repeat constructor].
  intros y z Hy Hz. apply list_elem_of_singleton in Hz as ->. rewrite Forall_forall in F. auto.
Qed.

Lemma live_app o t t' r :
  au_logs t' = (au_logs t ++ [r])%list ->
  live o t' = (live o t ++ (if in_chain o r then [r] else []))%list.
Proof. unfold live, select. intros ->. by rewrite List.filter_app. Qed.

Lemma Write_chained T T' t forwarder e env n r n' t' :
  chained T t -> in_tx env = false \/ is_ok r = true -> e_OrganizationID e <> "global" ->
  (forall k, T <= clock env k <= T' /\ column_time (clock env k) = clock env k) ->
  Write column_time forwarder e env n t = (r, n', t') -> chained T' t'.
Proof.
  intros C Tx Og Clk H. destruct r as [[]|err].
  2: { destruct Tx as [Tx|Tx]; [|done]. assert (t' = t) as -> by (unfold Write in H; by apply WithTx_atomic in H).
       destruct C. constructor; auto. eapply Forall_impl; [done|]. cbn. intros x Hx.
       specialize (Clk O). lia. }
  apply Write_ok in H as (e' & raw & k & Org & At & Seq & Prev & Hash & Id & L & Hd & An & _).
  destruct (Clk k) as [Bnd Col]. set (row := row_of column_time e' raw) in *.
  assert (Rorg : nullString (l_organization_id row) = e_OrganizationID e)
    by (cbn; by rewrite nullString_nullIfEmpty).
  assert (Rne : l_organization_id row <> Some "").
  { cbn. unfold nullIfEmpty. destruct (String.eqb_spec (e_OrganizationID e') ""); congruence. }
  assert (Rat : l_occurred_at row = clock env k) by (cbn; by rewrite At, Col).
  assert (Past : Forall (fun r => l_occurred_at r <= l_occurred_at row) (au_logs t)).
  { eapply Forall_impl; [apply (ch_past _ _ C)|]. cbn beta. intros x Hx. lia. }
  assert (Link : forall a h, default (0, "") (au_heads t !! auditScope (e_OrganizationID e)) = (a, h) ->
            link (a + 1) h row).
  { intros a h E. rewrite E in Seq, Prev. cbn in Seq, Prev. unfold link. cbn. rewrite Seq, Prev.
    split_and!; [done..|]. rewrite Hash. unfold auditEventHash. fold row.
    unfold row. rewrite hash_row; [done|]. by rewrite At. }
  constructor.
  - rewrite L, Forall_app. split; [apply (ch_orgs _ _ C)|]. repeat constructor; [done|].
    destruct (l_organization_id row); cbn in Rorg; congruence.
  - rewrite L, map_app. apply NoDup_app. split; [apply (ch_ids _ _ C)|]. split; [|apply NoDup_singleton].
    intros x Hx Hx'. apply list_elem_of_singleton in Hx' as ->. done.
  - rewrite L. apply StronglySorted_snoc; [apply (ch_times _ _ C)|done].
  - rewrite L, Forall_app. split; [|constructor; [lia|constructor]].
    eapply Forall_impl; [done|]. cbn beta. intros x Hx. lia.
  - intros o Ho. rewrite (start_eq _ _ _ An), (live_app _ _ _ _ L), in_chain_spec, Rorg by done.
    apply verify_rows_app. split; [by apply (ch_verified _ _ C)|].
    destruct (String.eqb_spec (e_OrganizationID e) o) as [<-|]; [|done].
    apply verify_rows_cons. split; [|done].
    replace (_ + 1 + _) with (fst (start (auditScope (e_OrganizationID e)) t) +
      llen (live (e_OrganizationID e) t) + 1) by lia.
    apply Link, (ch_heads _ _ C), Og.
  - intros o Ho. rewrite (start_eq _ _ _ An), (live_app _ _ _ _ L), in_chain_spec, Rorg, Hd by done.
    destruct (String.eqb_spec (e_OrganizationID e) o) as [<-|Ne].
    + rewrite lookup_insert_eq, Seq, (ch_heads _ _ C) by done. cbn. rewrite llen_app, last_hash_app.
      cbn. f_equal. unfold llen. cbn. lia.
    + rewrite lookup_insert_ne by (intros E; apply Ne; by apply auditScope_inj in E).
      rewrite app_nil_r. by apply (ch_heads _ _ C).
Qed.

(** *** Purges *)

Lemma VerifyIntegrity_keeps (I : Tables X -> Prop) o : keeps I (VerifyIntegrity o).
Proof. unfold VerifyIntegrity. keeps_walk. Qed.

Lemma expiredEvents_keeps (I : Tables X -> Prop) cutoff : keeps I (expiredEvents cutoff).
Proof. unfold expiredEvents. keeps_walk. Qed.

#[local] Hint Resolve VerifyIntegrity_keeps expiredEvents_keeps : forge.

(** A purge does nothing or deletes the events it archived. *)
Lemma PurgeExpired_cases archive days env n t r n' t' :
  PurgeExpired archive days env n t = (r, n', t') ->
  t' = t \/ exists w cutoff events anchors receipt until k n1,
    archive = Some w /\ wa_Archive w events until = Ok receipt /\ wa_Verify w receipt = Ok tt /\
    ValidateArchiveReceipt events receipt (clock env k) = Ok tt /\
    decode_events (order_by archive_order (select (fun r => l_occurred_at r <? cutoff) (au_logs t))) = Ok events /\
    collect_anchors ∅ events = Ok anchors /\
    deleteArchived events anchors receipt env n1 t = (r, n', t').
Proof.
  unfold PurgeExpired. destruct (days <=? 0); [intros [= _ _ ->]; by left|].
  destruct archive as [w|]; [|intros [= _ _ ->]; by left]. intros H.
  next_read H. next_read H. destruct (_ =? 0); [injection H as _ _ ->; by left|].
  do 7 next_read H. right. unfold expiredEvents in *.
  match goal with E : context [wa_Archive w ?l ?u] |- _ =>
    destruct (wa_Archive w l u) as [rc|] eqn:Ar; [|by apply fail_ok in E] end.
  match goal with E : context [wa_Verify w ?rc] |- _ =>
    destruct (wa_Verify w rc) as [[]|] eqn:Ve; [|by apply fail_ok in E] end.
  run. match goal with E : ValidateArchiveReceipt _ _ _ = Ok ?u |- _ => destruct u end.
  repeat eexists; eassumption.
Qed.

Lemma delete_batches_ok fuel ids deleted env n t d n' t' :
  (length ids <= fuel)%nat -> delete_batches fuel ids deleted env n t = (Ok d, n', t') ->
  au_logs t' = delete_where (fun r => contains ids (l_id r)) (au_logs t) /\
  au_heads t' = au_heads t /\ au_anchors t' = au_anchors t.
Proof.
  revert ids deleted n t. induction fuel as [|fuel IH]; intros ids deleted n t F H.
  - destruct ids; [|cbn in F; lia]. cbn in H. run. rewrite delete_none; [done|]. done.
  - destruct ids as [|i ids]; cbn [delete_batches] in H; run; [by rewrite delete_none|].
    match goal with E : delete_batch _ _ = Ok _ |- _ => injection E as _ <- end.
    apply IH in H0 as (L & Hd & An); [|rewrite length_drop; cbn in F |- *; lia].
    rewrite L, Hd, An. split_and!; [|done..]. unfold set; cbn [au_logs].
    rewrite delete_delete. apply delete_ext. intros r _.
    change (contains (take 500 (i :: ids)) (l_id r) || contains (drop 500 (i :: ids)) (l_id r) =
            contains (i :: ids) (l_id r)).
    by rewrite <- contains_app, take_drop.
Qed.

(** The anchors that result hold, per scope, an event of it with the greatest
    sequence number. *)
Lemma collect_anchors_spec m events m' :
  collect_anchors m events = Ok m' -> forall scope,
  match m' !! scope with
  | Some e => (m !! scope = Some e \/ (e ∈ events /\ auditScope (e_OrganizationID e) = scope)) /\
              (forall x, m !! scope = Some x \/ (x ∈ events /\ auditScope (e_OrganizationID x) = scope) ->
                         e_SequenceNo x <= e_SequenceNo e)
  | None => m !! scope = None /\ forall x, x ∈ events -> auditScope (e_OrganizationID x) <> scope
  end.
Proof.
  revert m. induction events as [|x events IH]; intros m H scope.
  - injection H as <-. destruct (m !! scope) as [e|] eqn:E; [|split; [done|intros x Hx; inversion Hx]].
    split; [by left|]. intros x [[= ->]|[Hx _]]; [lia|inversion Hx].
  - cbn [collect_anchors] in H. destruct (_ || _); [discriminate|].
    specialize (IH _ H scope). clear H. set (sx := auditScope (e_OrganizationID x)) in *.
    set (m1 := match m !! sx with Some _ => _ | None => _ end) in IH.
    destruct (decide (scope = sx)) as [->|Ne].
    + assert (M1 : exists y, m1 !! sx = Some y /\ (y = x \/ m !! sx = Some y) /\
                     e_SequenceNo x <= e_SequenceNo y /\
                     forall c, m !! sx = Some c -> e_SequenceNo c <= e_SequenceNo y).
      { unfold m1. destruct (m !! sx) as [c|] eqn:Ec; [destruct (_ <? _) eqn:L|]; breflect.
        - exists x. rewrite lookup_insert_eq. split_and!; auto; try lia. intros c' [= <-]. lia.
        - exists c. split_and!; auto. intros c' [= <-]. lia.
        - exists x. rewrite lookup_insert_eq. split_and!; auto; try lia. discriminate. }
      destruct M1 as (y & E & Y & Ly & Lc). rewrite E in IH. destruct (m' !! sx) as [e|].
      * destruct IH as [IH1 IH2]. pose proof (IH2 y ltac:(by left)) as Le. split.
        -- destruct IH1 as [[= <-]|[E1 E2]]; [|right; split; [by right|done]].
           destruct Y as [->|Y]; [right; split; [by left|done]|by left].
        -- intros z [Hz|[Hz Hs]]; [specialize (Lc z Hz); lia|].
           apply elem_of_cons in Hz as [->|Hz]; [lia|apply IH2; by right].
      * by destruct IH as [IH _].
    + assert (E : m1 !! scope = m !! scope).
      { unfold m1. destruct (m !! sx); [destruct (_ <? _)|]; rewrite ?lookup_insert_ne by done; done. }
      rewrite E in IH. destruct (m' !! scope) as [e|].
      * destruct IH as [IH1 IH2]. split.
        -- destruct IH1 as [?|[? ?]]; [by left|]. right. split; [by right|done].
        -- intros y [Hy|[Hy Hs]]; [apply IH2; by left|].
           apply elem_of_cons in Hy as [->|Hy]; [by subst|]. apply IH2. by right.
      * destruct IH as [IH1 IH2]. split; [done|]. intros y Hy.
        apply elem_of_cons in Hy as [->|Hy]; [done|auto].
Qed.

(** The upserts of the anchors. *)
Definition upsert_anchor (anchor : string * Event) t : Tables X :=
  t <| au_anchors := <[fst anchor := (e_SequenceNo (snd anchor), e_EventHash (snd anchor))]> (au_anchors t) |>.

Lemma upsert_anchors_ok (l : list (string * Event)) env n t u n' t' :
  NoDup l.*1 -> forM l (fun anchor => exec (upsert_anchor anchor)) env n t = (Ok u, n', t') ->
  au_logs t' = au_logs t /\ au_heads t' = au_heads t /\
  forall scope, au_anchors t' !! scope =
    match (list_to_map l : gmap string Event) !! scope with
    | Some e => Some (e_SequenceNo e, e_EventHash e)
    | None => au_anchors t !! scope
    end.
Proof.
  revert n t. induction l as [|[k e] l IH]; intros n t ND H; cbn [forM] in H; run.
  { split_and!; [done..|]. intros scope. cbn. by rewrite lookup_empty. }
  apply NoDup_cons in ND as [Nk ND]. apply IH in H0 as (L & Hd & An); [|done].
  rewrite L, Hd. split_and!; [done..|]. intros scope. rewrite An. cbn.
  destruct (decide (k = scope)) as [->|Ne].
  - rewrite lookup_insert_eq. rewrite not_elem_of_list_to_map_1 by done. cbn. by rewrite lookup_insert_eq.
  - by rewrite !lookup_insert_ne.
Qed.

Lemma deleteArchived_ok events anchors receipt env n t d n' t' :
  in_tx env = false -> deleteArchived events anchors receipt env n t = (Ok d, n', t') ->
  au_logs t' = delete_where (fun r => contains (map e_ID events) (l_id r)) (au_logs t) /\
  au_heads t' = au_heads t /\
  forall scope, au_anchors t' !! scope =
    match anchors !! scope with
    | Some e => Some (e_SequenceNo e, e_EventHash e)
    | None => au_anchors t !! scope
    end.
Proof.
  intros Tx H. unfold deleteArchived in H. apply WithTx_ok in H as (k & _ & H & _ & _); [|done].
  assert (St : exists rc n1, (let receipt := rc in
     (id ← NewString;
    _ ← exec (fun t => t <| au_receipts := au_receipts t ++ [(id, receipt)] |>);
    _ ← forM (map_to_list anchors) (fun anchor => exec (upsert_anchor anchor));
    delete_batches (length events) (map e_ID events) 0)) (env <| in_tx := true |>) n1 t = (Ok d, k, t')).
  { apply bind_ok in H as (rc & n1 & t1 & R & H).
    destruct (IsZero (rc_ArchivedAt receipt));
      [apply bind_ok in R as (a & n2 & t2 & R1 & R); apply now_ok in R1 as (_ & _ & <-)|];
      apply ret_ok in R as (_ & _ & <-); exists rc, n1; exact H. }
  clear H. destruct St as (rc & n1 & H). cbv zeta in H. run.
  match goal with E : forM _ _ _ _ _ = _ |- _ => apply upsert_anchors_ok in E as (L & Hd & An) end.
  2: apply NoDup_fst_map_to_list.
  match goal with E : delete_batches _ _ _ _ _ _ = _ |- _ => apply delete_batches_ok in E as (L' & Hd' & An') end.
  2: by rewrite length_map.
  rewrite L', L, Hd', Hd. split_and!; [done..|]. intros scope. rewrite An', An.
  by rewrite list_to_map_to_list.
Qed.

(** In a log in order of time the expired rows come first. *)
Lemma expired_prefix cutoff rows :
  StronglySorted (fun r s => l_occurred_at r <= l_occurred_at s) rows ->
  let old r := l_occurred_at r <? cutoff in
  rows = (select old rows ++ delete_where old rows)%list.
Proof.
  intros H old. induction H as [|r rows H IH F]; [done|]. unfold select, delete_where in *. cbn.
  destruct (old r) eqn:O; cbn; [by f_equal|].
  assert (N : forall s, s ∈ rows -> old s = false).
  { intros s Hs. unfold old in *. breflect. rewrite Forall_forall in F. specialize (F s Hs). cbn in F.
    apply Z.ltb_ge. lia. }
  replace (List.filter old rows) with (@nil Row).
  - cbn. f_equal. symmetry. by apply (delete_none old).
  - symmetry. clear - N. induction rows as [|s rows IH]; [done|]. cbn. rewrite (N s) by (by left).
    apply IH. intros x Hx. apply N. by right.
Qed.

Lemma decode_events_ok rows events :
  decode_events rows = Ok events -> Forall2 (fun r e => exists d, e = scan_event d r) rows events.
Proof.
  revert events. induction rows as [|r rows IH]; intros events H; cbn in H.
  - injection H as <-. constructor.
  - destruct (unmarshal_details _) as [d|]; [|discriminate]. apply result_bind_ok in H as (es & H & [= <-]).
    constructor; [by exists d|auto].
Qed.

(** The newest row of a chain that verifies ends it. *)
Lemma newest_row n h rows r :
  verify_rows n h rows = Ok tt -> r ∈ rows -> (forall x, x ∈ rows -> row_seq x <= row_seq r) ->
  row_seq r = n + llen rows - 1 /\ nullString (l_event_hash r) = last_hash h rows.
Proof.
  revert n h. induction rows as [|x rows IH]; intros n h V Hr N; [inversion Hr|].
  apply verify_rows_cons in V as [(K & _) V]. rewrite llen_cons. cbn [last_hash].
  destruct rows as [|y rows].
  { apply list_elem_of_singleton in Hr as ->. unfold row_seq. rewrite K, Z.add_0_r.
    change (default 0 (Some n)) with n. split; [lia|done]. }
  assert (Hr' : r ∈ y :: rows).
  { apply elem_of_cons in Hr as [->|Hr]; [|done]. exfalso. specialize (N y ltac:(right; left)).
    destruct (verify_rows_seq _ _ _ y V ltac:(left)) as (k & E & L).
    unfold row_seq in N. rewrite K, E in N. cbn in N. lia. }
  destruct (IH _ _ V Hr') as [S H]; [intros z Hz; apply N; by right|]. split; [lia|done].
Qed.

Lemma live_split o t pre post :
  au_logs t = (pre ++ post)%list -> live o t = (select (in_chain o) pre ++ select (in_chain o) post)%list.
Proof. unfold live, select. intros ->. apply List.filter_app. Qed.

(** The anchors of a purge stand for the rows it removed. *)
Lemma anchors_stand_for o (old : Row -> bool) rows events anchors a h :
  o <> "global" ->
  Forall (fun r => l_organization_id r <> Some "" /\ l_organization_id r <> Some "global") rows ->
  decode_events (order_by archive_order (select old rows)) = Ok events ->
  collect_anchors ∅ events = Ok anchors ->
  let gone := select (in_chain o) (select old rows) in
  verify_rows (a + 1) h gone = Ok tt ->
  match anchors !! auditScope o with
  | Some e => e_SequenceNo e = a + llen gone /\ e_EventHash e = last_hash h gone
  | None => gone = []
  end.
Proof.
  intros Ho F D C gone V. apply decode_events_ok in D.
  pose proof (collect_anchors_spec _ _ _ C (auditScope o)) as A.
  assert (G : forall r, r ∈ gone <-> r ∈ order_by archive_order (select old rows) /\ row_scope r = auditScope o).
  { intros r. unfold gone. rewrite elem_of_order_by, elem_of_select. split; intros [Hr Hc]; (split; [done|]).
    all: apply elem_of_select in Hr as [Hr _]; rewrite Forall_forall in F; destruct (F r Hr);
      by apply (in_chain_scope o r). }
  destruct (anchors !! auditScope o) as [e|].
  - destruct A as [[E|[He Hs]] Max]; [done|].
    destruct (list_elem_of_lookup_1 _ _ He) as [i Hi].
    destruct (Forall2_lookup_r _ _ _ _ _ D Hi) as (r & Hr & d & ->).
    assert (Hg : r ∈ gone) by (apply G; split; [by eapply list_elem_of_lookup_2|done]).
    assert (Seq : forall x, x ∈ gone -> row_seq x = match l_sequence_no x with Some k => k | None => 0 end)
      by (intros x _; unfold row_seq; by destruct (l_sequence_no x)).
    destruct (newest_row _ _ _ r V Hg) as [S H].
    + intros x Hx. rewrite !Seq by done. apply G in Hx as [Hx Hsx].
      destruct (list_elem_of_lookup_1 _ _ Hx) as [j Hj].
      destruct (Forall2_lookup_l _ _ _ _ _ D Hj) as (y & Hy & d' & ->).
      apply (Max (scan_event d' x)). right. split; [by eapply list_elem_of_lookup_2|done].
    + cbn. rewrite <- Seq by done. split; [lia|done].
  - destruct A as [_ A]. destruct gone as [|r g] eqn:Eg; [done|]. exfalso.
    destruct (proj1 (G r)) as [Hr Hs]; [left|].
    destruct (list_elem_of_lookup_1 _ _ Hr) as [j Hj].
    destruct (Forall2_lookup_l _ _ _ _ _ D Hj) as (y & Hy & d' & ->).
    apply (A (scan_event d' r)); [by eapply list_elem_of_lookup_2|done].
Qed.

(** The rows deleted by identifier are the expired ones. *)
Lemma deleted_rows (old : Row -> bool) rows events :
  NoDup (map l_id rows) -> decode_events (order_by archive_order (select old rows)) = Ok events ->
  delete_where (fun r => contains (map e_ID events) (l_id r)) rows = delete_where old rows.
Proof.
  intros ND D. apply delete_ext. intros r Hr. apply decode_events_ok in D.
  assert (Ids : map e_ID events = map l_id (order_by archive_order (select old rows))).
  { clear - D. induction D as [|r' e' rows' events' (d & ->) D IH]; [done|]. cbn. by f_equal. }
  rewrite Ids. destruct (old r) eqn:O.
  - apply contains_spec, list_elem_of_fmap. exists r. split; [done|].
    apply elem_of_order_by, elem_of_select. done.
  - apply contains_false. intros Hi. apply list_elem_of_fmap in Hi as (x & E & Hx).
    apply (elem_of_order_by archive_order), elem_of_select in Hx as [Hx O']. 
    assert (r = x) as <- by (by eapply (NoDup_map_eq l_id)). congruence.
Qed.

Lemma StronglySorted_delete {A} (R : relation A) p l :
  StronglySorted R l -> StronglySorted R (delete_where p l).
Proof.
  unfold delete_where. induction 1 as [|x l H IH F]; cbn; [constructor|]. destruct (negb (p x)); [|done].
  constructor; [done|]. rewrite Forall_forall in F |- *. intros y Hy. apply F.
  by apply (elem_of_delete_where p) in Hy as [Hy _].
Qed.

Lemma Forall_delete {A} (P : A -> Prop) p l : Forall P l -> Forall P (delete_where p l).
Proof.
  rewrite !Forall_forall. intros F x Hx. apply F. by apply (elem_of_delete_where p) in Hx as [Hx _].
Qed.

Lemma PurgeExpired_chained T t archive days env n r n' t' :
  chained T t -> in_tx env = false ->
  PurgeExpired archive days env n t = (r, n', t') -> chained T t'.
Proof.
  intros C Tx H. apply PurgeExpired_cases in H as [->|(w & cutoff & events & anchors & rc & until & k & n1 & _ & _ & _ & _ & D & A & H)];
    [done|].
  destruct r as [d|err]; [|unfold deleteArchived in H; apply WithTx_atomic in H; [by subst|done]].
  apply deleteArchived_ok in H as (L & Hd & An); [|done].
  set (old := fun r => l_occurred_at r <? cutoff) in *.
  rewrite (deleted_rows old) in L by (apply C || done).
  pose proof (expired_prefix cutoff (au_logs t) (ch_times _ _ C)) as Split. fold old in Split. cbv zeta in Split.
  rewrite <- L in Split.
  assert (Key : forall o, o <> "global" ->
    live o t = (select (in_chain o) (select old (au_logs t)) ++ live o t')%list /\
    fst (start (auditScope o) t') =
      fst (start (auditScope o) t) + llen (select (in_chain o) (select old (au_logs t))) /\
    snd (start (auditScope o) t') =
      last_hash (snd (start (auditScope o) t)) (select (in_chain o) (select old (au_logs t)))).
  { intros o Ho. pose proof (live_split o t _ _ Split) as Ls. split; [done|].
    pose proof (ch_verified _ _ C o Ho) as V. rewrite Ls in V. apply verify_rows_app in V as [V _].
    pose proof (anchors_stand_for o old _ _ _ _ _ Ho (ch_orgs _ _ C) D A V) as St. cbv zeta in St.
    unfold start in *. rewrite (An (auditScope o)). destruct (anchors !! auditScope o) as [e|].
    - destruct St as [St1 St2]. cbn. by rewrite St1, St2.
    - rewrite St. cbn [last_hash]. split; [unfold llen; cbn [length]; lia|done]. }
  constructor.
  - rewrite L. apply Forall_delete, C.
  - rewrite L. pose proof (ch_ids _ _ C) as N. rewrite Split, L, map_app in N.
    by apply NoDup_app in N as (_ & _ & N).
  - rewrite L. apply StronglySorted_delete, C.
  - rewrite L. apply Forall_delete, C.
  - intros o Ho. destruct (Key o Ho) as (K1 & K2 & K3). pose proof (ch_verified _ _ C o Ho) as V.
    rewrite K1 in V. apply verify_rows_app in V as [_ V]. rewrite K2, K3.
    by replace (_ + _ + 1) with (fst (start (auditScope o) t) + 1 +
      llen (select (in_chain o) (select old (au_logs t)))) by lia.
  - intros o Ho. destruct (Key o Ho) as (K1 & K2 & K3). rewrite Hd, (ch_heads _ _ C o Ho), K1, K2, K3.
    rewrite llen_app, last_hash_app. f_equal. lia.
Qed.

(** C13. A purge only removes rows whose events the archive took, under a receipt
    that covers exactly them, is retained into the future, and that the archive
    verified. *)
Theorem purged_events_are_archived archive days env n t r n' t' :
  in_tx env = false -> PurgeExpired archive days env n t = (r, n', t') ->
  (forall x, x ∈ au_logs t' -> x ∈ au_logs t) /\
  ((forall x, x ∈ au_logs t -> x ∈ au_logs t') \/
   exists w events receipt until k,
     archive = Some w /\ wa_Archive w events until = Ok receipt /\ wa_Verify w receipt = Ok tt /\
     rc_ContentHash receipt = DigestEvents events /\ rc_EventCount receipt = llen events /\
     clock env k < rc_ImmutableUntil receipt /\
     (forall x, x ∈ au_logs t -> x ∈ au_logs t' \/ l_id x ∈ map e_ID events)).
Proof.
  intros Tx H. apply PurgeExpired_cases in H as [->|(w & cutoff & events & anchors & rc & until & k & n1 & A & Ar & Ve & Va & _ & _ & H)];
    [by auto|].
  destruct r as [d|err]; [|unfold deleteArchived in H; apply WithTx_atomic in H; [by subst; auto|done]].
  apply deleteArchived_ok in H as (L & _ & _); [|done].
  split; [intros x Hx; rewrite L in Hx; by apply elem_of_delete_where in Hx as [Hx _]|].
  right. exists w, events, rc, until, k. unfold ValidateArchiveReceipt in Va. guards Va. breflect. subst.
  split_and!; try done; try lia.
  intros x Hx. rewrite L. destruct (contains (map e_ID events) (l_id x)) eqn:E.
  - right. by apply contains_spec.
  - left. apply elem_of_delete_where. done.
Qed.

Lemma history_chained T t : history T t -> chained T t.
Proof.
  induction 1 as [T x|T T' t f e env n r n' t' _ IH Tx Og Clk W|T t a d env n r n' t' _ IH Tx P].
  - constructor; try done; cbn; try constructor.
  - by eapply Write_chained.
  - by eapply PurgeExpired_chained.
Qed.

(** What [VerifyIntegrity] answers when the database does. *)
Lemma VerifyIntegrity_answers o env n t :
  (forall k, faults env k = None) ->
  VerifyIntegrity o env n t =
    (verify_rows (fst (start (auditScope o) t) + 1) (snd (start (auditScope o) t)) (chain_rows o t),
     S (S n), t).
Proof.
  intros F. unfold VerifyIntegrity, start, mbind, M_bind, query, stmt, lift. rewrite !F.
  destruct (au_anchors t !! auditScope o) as [[a h]|]; done.
Qed.

Lemma chain_rows_live T t o : chained T t -> o <> "global" -> chain_rows o t = live o t.
Proof.
  intros C Ho. unfold chain_rows. eapply chain_order_verified. by apply (ch_verified _ _ C).
Qed.


Lemma newest_gone k n h rows :
  verify_rows n h rows = Ok tt ->
  List.filter (fun r => negb (k <? row_seq r)) rows = take (Z.to_nat (k - n + 1)) rows.
Proof.
  revert n h. induction rows as [|r rows IH]; intros n h V; [by rewrite take_nil|].
  apply verify_rows_cons in V as [(K & _) V]. cbn [List.filter].
  assert (row_seq r = n) as -> by (unfold row_seq; by rewrite K).
  rewrite (IH _ _ V). destruct (Z.ltb_spec k n); cbn [negb].
  - replace (Z.to_nat (k - (n + 1) + 1)) with 0%nat by lia.
    by replace (Z.to_nat (k - n + 1)) with 0%nat by lia.
  - by replace (Z.to_nat (k - n + 1)) with (S (Z.to_nat (k - (n + 1) + 1))) by lia.
Qed.

Lemma verify_rows_newest_gone k n h rows :
  verify_rows n h rows = Ok tt ->
  verify_rows n h (List.filter (fun r => negb (k <? row_seq r)) rows) = Ok tt.
Proof.
  intros V. rewrite (newest_gone _ _ _ _ V). rewrite <- (take_drop (Z.to_nat (k - n + 1)) rows) in V.
  by apply verify_rows_app in V as [V _].
Qed.

(** The check does not compare the last row with the head of the chain:
    after any history, deleting all the rows of a chain that are newer than a
    chosen one leaves a log that still verifies. *)
Theorem truncation_is_not_detected T t o k env n :
  history T t -> o <> "global" -> (forall i, faults env i = None) ->
  let newer r := in_chain o r && (k <? row_seq r) in
  let t' := t <| au_logs := delete_where newer (au_logs t) |> in
  VerifyIntegrity o env n t' = (Ok tt, S (S n), t').
Proof.
  intros H Ho F newer t'. apply history_chained in H. rewrite VerifyIntegrity_answers by done.
  do 2 f_equal. pose proof (ch_verified _ _ H o Ho) as V. change (start (auditScope o) t') with (start (auditScope o) t).
  assert (L : live o t' = List.filter (fun r => negb (k <? row_seq r)) (live o t)).
  { unfold live, t', select, newer, delete_where. cbn. clear.
    induction (au_logs t) as [|r rows IH]; [done|]. cbn.
    destruct (in_chain o r) eqn:E; cbn; [|by rewrite E].
    destruct (k <? row_seq r); cbn; rewrite ?E; [exact IH|f_equal; exact IH]. }
  assert (V' := verify_rows_newest_gone k _ _ _ V). rewrite <- L in V'.
  unfold chain_rows. fold (live o t'). by rewrite (chain_order_verified _ _ _ V').
Qed.
End histories.

(** ** Tampering *)

(** Two inputs with the same digest. *)
Definition collision : Prop := exists x y, x <> y /\ Sum256hex x = Sum256hex y.

(** What the hash of a row covers. *)
Definition content (r : Row) : list string := hash_parts (row_event r) (l_details_json r).

Lemma write_parts_inj ps qs :
  length ps = length qs -> write_parts ps = write_parts qs -> ps = qs.
Proof.
  revert qs. induction ps as [|p ps IH]; intros [|q qs] L E; try done; [discriminate L..|].
  cbn [write_parts] in E. unfold writeAuditHashPart in E.
  rewrite !append_assoc, !append_cons, !append_assoc in E.
  apply digits_split in E as [E1 E2]; [|by apply Itoa_spec; unfold slen; lia..|done].
  apply Itoa_inj in E1; [|unfold slen; lia..]. 
  apply append_inv_same_length in E2 as [-> E2]; [|unfold slen in E1; lia].
  injection E2 as E2. f_equal. apply IH; [by injection L|done].
Qed.

Lemma auditEventHash_inj e raw e' raw' :
  auditEventHash e raw = auditEventHash e' raw' -> hash_parts e raw = hash_parts e' raw' \/ collision.
Proof.
  intros H. destruct (decide (write_parts (hash_parts e raw) = write_parts (hash_parts e' raw'))) as [E|N].
  - left. by apply write_parts_inj.
  - right. by exists (write_parts (hash_parts e raw)), (write_parts (hash_parts e' raw')).
Qed.

Lemma verify_rows_hash n h rows r :
  verify_rows n h rows = Ok tt -> r ∈ rows ->
  l_event_hash r = Some (auditEventHash (row_event r) (l_details_json r)).
Proof.
  revert n h. induction rows as [|x rows IH]; intros n h V Hr; [inversion Hr|].
  apply verify_rows_cons in V as [(_ & _ & E) V].
  apply elem_of_cons in Hr as [->|Hr]; [done|]. by eapply IH.
Qed.

(** Two chains whose last rows have the same hash agree on that row, on their
    length and on the hash before it. *)
Lemma same_last_row n h rows rows' r r' :
  0 <= n -> verify_rows n h (rows ++ [r]) = Ok tt -> verify_rows n h (rows' ++ [r']) = Ok tt ->
  l_event_hash r = l_event_hash r' ->
  (content r = content r' /\ length rows = length rows' /\ last_hash h rows = last_hash h rows') \/ collision.
Proof.
  intros Hn V V' E. apply verify_rows_app in V as [_ V], V' as [_ V'].
  apply verify_rows_cons in V as [(K & P & H) _], V' as [(K' & P' & H') _].
  rewrite H, H' in E. injection E as E. apply auditEventHash_inj in E as [E|?]; [left|by right].
  split; [done|]. unfold hash_parts in E. injection E as _ _ _ _ _ _ _ _ _ _ _ _ S Pr.
  cbn in S, Pr. rewrite K, K' in S. apply Itoa_inj in S; [|unfold llen; lia..]. unfold llen in S.
  split; [lia|congruence].
Qed.

Lemma same_end_same_chain n h rows rows' r r' :
  0 <= n -> verify_rows n h (rows ++ [r]) = Ok tt -> verify_rows n h (rows' ++ [r']) = Ok tt ->
  l_event_hash r = l_event_hash r' ->
  Forall2 (fun x y => content x = content y) (rows ++ [r]) (rows' ++ [r']) \/ collision.
Proof.
  intros Hn. revert r rows' r'. induction rows as [|x rows IH] using rev_ind; intros r rows' r' V V' E;
    destruct (same_last_row _ _ _ _ _ _ Hn V V' E) as [(C & L & Lh)|?]; [|by right| |by right].
  - destruct rows'; [|discriminate]. left. by repeat constructor.
  - destruct rows' as [|x' rows' _] using rev_ind; [rewrite length_app in L; cbn in L; lia|].
    pose proof V as W. pose proof V' as W'. apply verify_rows_app in W as [W _], W' as [W' _].
    rewrite !last_hash_app in Lh. cbn [last_hash] in Lh.
    assert (Hx : l_event_hash x = l_event_hash x').
    { rewrite (verify_rows_hash _ _ _ x W), (verify_rows_hash _ _ _ x' W') in Lh |- * by set_solver.
      cbn in Lh. by f_equal. }
    destruct (IH x rows' x' W W' Hx) as [F|?]; [|by right]. left. apply Forall2_app; [done|]. by repeat constructor.
Qed.

Section evidence.
Context {X : Type}.
Implicit Types t : Tables X.


(** The hash covers the instant to the nanosecond but it is recomputed from
    the column: an event written at an instant that the column does not keep
    makes its chain fail verification forever after (both schemas keep
    microseconds), unless SHA-256 collides. *)
Theorem lost_precision_breaks_the_chain (column_time : Time -> Time) forwarder e env n n' t t' env' m :
  in_tx env = false -> (forall k, faults env' k = None) ->
  (forall k, RFC3339Nano (column_time (clock env k)) <> RFC3339Nano (clock env k)) ->
  Write column_time forwarder e env n t = (Ok tt, n', t') ->
  fst (fst (VerifyIntegrity (e_OrganizationID e) env' m t')) <> Ok tt \/ collision.
Proof.
  intros Tx F Lost W. apply Write_ok in W as (e' & raw & k & Org & At & _ & _ & Hash & _ & L & _).
  rewrite VerifyIntegrity_answers by done. cbn [fst].
  destruct (verify_rows _ _ _) as [[]|] eqn:V; [|by left]. right.
  set (row := row_of column_time e' raw) in *.
  assert (Hr : row ∈ chain_rows (e_OrganizationID e) t').
  { apply elem_of_order_by, elem_of_select. rewrite L. split; [set_solver|]. unfold in_chain. cbn.
    unfold nullIfEmpty. destruct (String.eqb_spec (e_OrganizationID e') "") as [E|N].
    - rewrite <- Org, E. done.
    - rewrite Org. apply seqb_refl. }
  pose proof (verify_rows_hash _ _ _ _ V Hr) as H. cbn in H. rewrite Hash in H. injection H as H.
  apply auditEventHash_inj in H as [H|?]; [|done]. exfalso.
  apply (f_equal (fun l => nth 1 l "")) in H. cbn in H. rewrite At in H. by apply (Lost k).
Qed.
End evidence.

(** ** Witnesses *)

Module examples.
Definition env0 (at_ : Time) (id : string) : Env := mkEnv (fun _ => at_) (fun _ => id) (fun _ => None) (fun _ _ => "0"%char) false.
Definition event (org action : string) : Event :=
  mkEvent "" 0 "req-1" org "u-1" "Ann" action "user" "u-2" "" "10.0.0.1" (JObj [("field", JStr "email")]) 0 "" "".
Definition t0 : Tables unit := mkTables [] ∅ ∅ [] tt.
Definition col (t : Time) : Time := t.
Definition micros (t : Time) : Time := t / 1000 * 1000.
Definition noForwarder : option (Forwarder (X := unit)) := None.
Definition run1 := Eval vm_compute in Write col noForwarder (event "org-1" "user.create") (env0 1000 "a1") 0%nat t0.
Definition t1 : Tables unit := Eval vm_compute in snd run1.
Definition run2 := Eval vm_compute in Write col noForwarder (event "org-2" "user.delete") (env0 2000 "a2") 0%nat t1.
Definition t2 : Tables unit := Eval vm_compute in snd run2.
Definition run3 := Eval vm_compute in Write micros noForwarder (event "org-1" "user.create") (env0 1 "a1") 0%nat t0.
Definition t3 : Tables unit := Eval vm_compute in snd run3.
Definition receipt (events : list Event) (until : Time) : ArchiveReceipt :=
  mkReceipt "s3" "audit/1" "v1" (DigestEvents events) (llen events) 0 until.
Definition worm : WORMArchive :=
  mkArchive (fun events until => Ok (receipt events until)) (fun _ => Ok tt).
Definition purge_env : Env := env0 (100000 * Hour) "p1".
Definition run4 := Eval vm_compute in PurgeExpired (X := unit) (Some worm) 30 purge_env 0%nat t2.
Definition t4 : Tables unit := Eval vm_compute in snd run4.

Lemma history_t1 : history col 1000 t1.
Proof.
  eapply (h_write col 1000 1000 t0 noForwarder (event "org-1" "user.create") (env0 1000 "a1") 0).
  - constructor.
  - by left.
  - discriminate.
  - intros k. cbn. unfold col. lia.
  - vm_compute. reflexivity.
Qed.
Lemma history_t2 : history col 2000 t2.
Proof.
  eapply (h_write col 1000 2000 t1 noForwarder (event "org-2" "user.delete") (env0 2000 "a2") 0).
  - apply history_t1.
  - by left.
  - discriminate.
  - intros k. cbn. unfold col. lia.
  - vm_compute. reflexivity.
Qed.
Lemma history_t4 : history col 2000 t4.
Proof.
  eapply (h_purge col 2000 t2 (Some worm) 30 purge_env 0); [apply history_t2|done|vm_compute; reflexivity].
Qed.
End examples.


Theorem truncation_is_not_detected_witness :
  let t' := examples.t1 <| au_logs := [] |> in
  VerifyIntegrity "org-1" (examples.env0 3000 "") 0%nat t' = (Ok tt, 2%nat, t').
Proof.
  apply (truncation_is_not_detected examples.col 1000 examples.t1 "org-1" 0);
    [apply examples.history_t1|discriminate|done].
Defined.

Theorem purged_events_are_archived_witness :
  exists events until, wa_Archive examples.worm events until = Ok (examples.receipt events until) /\
    "a1" ∈ map e_ID events.
Proof.
  destruct (purged_events_are_archived (Some examples.worm) 30 examples.purge_env 0 examples.t2
    (Ok 2) (snd (fst examples.run4)) examples.t4) as [_ [Keep|(w & events & receipt & until & k & W & A & _ & _ & _ & _ & Gone)]].
  - done.
  - vm_compute. reflexivity.
  - exfalso. specialize (Keep _ ltac:(left)). inversion Keep.
  - injection W as <-. exists events, until. split; [done|].
    destruct (Gone _ ltac:(left)) as [In|In]; [inversion In|exact In].
Defined.


Theorem lost_precision_breaks_the_chain_witness :
  fst (fst (VerifyIntegrity "org-1" (examples.env0 5 "") 0%nat examples.t3)) <> Ok tt \/ collision.
Proof.
  refine (lost_precision_breaks_the_chain examples.micros examples.noForwarder
    (examples.event "org-1" "user.create") (examples.env0 1 "a1") 0 _ examples.t0 examples.t3
    (examples.env0 5 "") 0 _ _ _ _); [done|done|intros k; vm_compute; discriminate|vm_compute; reflexivity].
Defined.
