(* ===== verification/Download.v ===== *)
(** * Governed downloads

    [internal/platform/security/datapolicy/download.go], the controller of
    one-time export tickets over the registry and the object store, the SQL
    registry [internal/adapters/repository/download_artifact.go], and the
    in-memory registry of the tests.

    The object store is an interface: its operations are arbitrary functions on
    a state of their own.  A function that returns an artifact next to an error
    returns the error only; no caller reads the artifact then.  The text of a
    second error in a message ([%v]) is left out of it. *)

From S2P Require Import Prelude GoString Crypto Database.

Definition DownloadArtifactReady := "Ready".
Definition DownloadArtifactDownloaded := "Downloaded".
Definition DownloadArtifactRevoked := "Revoked".
Definition DownloadArtifactExpired := "Expired".
Definition DownloadArtifactCleanup := "CleanupPending".
Definition DefaultDownloadMaxBytes : Z := 50 * 1024 * 1024.

Definition ErrDownloadArtifactNotFound := Sentinel "datapolicy.ErrDownloadArtifactNotFound".
Definition ErrDownloadArtifactExpired := Sentinel "datapolicy.ErrDownloadArtifactExpired".
Definition ErrDownloadArtifactRevoked := Sentinel "datapolicy.ErrDownloadArtifactRevoked".
Definition ErrDownloadArtifactConsumed := Sentinel "datapolicy.ErrDownloadArtifactConsumed".
Definition ErrDownloadArtifactActor := Sentinel "datapolicy.ErrDownloadArtifactActor".
Definition ErrDownloadArtifactInvalid := Sentinel "datapolicy.ErrDownloadArtifactInvalid".
Definition ErrDownloadArtifactChecksum := Sentinel "datapolicy.ErrDownloadArtifactChecksum".
Definition ErrNotAuthorized := Errorf "download actor is not authorized" [].
Definition ErrNotExpired := Errorf "download artifact has not expired" [].

Record DownloadArtifact := mkArtifact {
  a_ID : string;
  a_OrganizationID : string;
  a_ActorID : string;
  a_ApprovalID : string;
  a_ObjectKey : string;
  a_ContentType : string;
  a_SHA256 : string;
  a_Size : Z;
  a_Status : string;
  a_MaxDownloads : Z;
  a_Downloads : Z;
  a_ExpiresAt : Time;
  a_CreatedAt : Time;
  a_UpdatedAt : Time;
  a_DownloadedAt : Time;
  a_RevokedAt : Time;
  a_RevokedReason : string
}.
#[export] Instance DownloadArtifact_eta : Eta DownloadArtifact := fun a =>
  mkArtifact (a_ID a) (a_OrganizationID a) (a_ActorID a) (a_ApprovalID a) (a_ObjectKey a)
    (a_ContentType a) (a_SHA256 a) (a_Size a) (a_Status a) (a_MaxDownloads a) (a_Downloads a)
    (a_ExpiresAt a) (a_CreatedAt a) (a_UpdatedAt a) (a_DownloadedAt a) (a_RevokedAt a) (a_RevokedReason a).

(** ** The SQL registry *)

(** A row of [data_export_artifacts]: the columns, of which three are
    nullable. *)
Record Row := mkRow {
  w_id : string;
  w_organization_id : string;
  w_actor_id : string;
  w_approval_id : string;
  w_object_key : string;
  w_content_type : string;
  w_sha256 : string;
  w_size_bytes : Z;
  w_status : string;
  w_max_downloads : Z;
  w_downloads : Z;
  w_expires_at : Time;
  w_created_at : Time;
  w_updated_at : Time;
  w_downloaded_at : option Time;
  w_revoked_at : option Time;
  w_revoked_reason : option string
}.
#[export] Instance Row_eta : Eta Row := fun w =>
  mkRow (w_id w) (w_organization_id w) (w_actor_id w) (w_approval_id w) (w_object_key w)
    (w_content_type w) (w_sha256 w) (w_size_bytes w) (w_status w) (w_max_downloads w) (w_downloads w)
    (w_expires_at w) (w_created_at w) (w_updated_at w) (w_downloaded_at w) (w_revoked_at w)
    (w_revoked_reason w).

Record Tables (O : Type) := mkTables { dl_rows : list Row; dl_objects : O }.
Arguments mkTables {O}.
Arguments dl_rows {O}.
Arguments dl_objects {O}.
#[export] Instance Tables_eta O : Eta (Tables O) := fun t => mkTables (dl_rows t) (dl_objects t).

(** [scan], with [sql.NullTime] and [sql.NullString]. *)
Definition scan (w : Row) : DownloadArtifact :=
  mkArtifact (w_id w) (w_organization_id w) (w_actor_id w) (w_approval_id w) (w_object_key w)
    (w_content_type w) (w_sha256 w) (w_size_bytes w) (w_status w) (w_max_downloads w) (w_downloads w)
    (w_expires_at w) (w_created_at w) (w_updated_at w) (default 0 (w_downloaded_at w))
    (default 0 (w_revoked_at w)) (default "" (w_revoked_reason w)).

Definition validateDownloadArtifact (a : DownloadArtifact) : result unit :=
  if (a_ID a =s "") || (a_OrganizationID a =s "") || (a_ActorID a =s "") || (a_ApprovalID a =s "") ||
     (a_ObjectKey a =s "") || (a_ContentType a =s "") || negb (slen (a_SHA256 a) =? 64) ||
     (a_Size a <=? 0) || (a_Status a <>s DownloadArtifactReady) || negb (a_MaxDownloads a =? 1) ||
     negb (a_Downloads a =? 0) || IsZero (a_ExpiresAt a) || IsZero (a_CreatedAt a) ||
     IsZero (a_UpdatedAt a)
  then Err ErrDownloadArtifactInvalid
  else Ok tt.

Definition validateClaimable (a : DownloadArtifact) (now : Time) : result unit :=
  if a_Status a =s DownloadArtifactRevoked then Err ErrDownloadArtifactRevoked
  else if a_Status a =s DownloadArtifactDownloaded then Err ErrDownloadArtifactConsumed
  else if a_Status a =s DownloadArtifactReady then
    if a_MaxDownloads a <=? a_Downloads a then Err ErrDownloadArtifactConsumed
    else if After (UTC now) (a_ExpiresAt a) || (UTC now =? a_ExpiresAt a) then
      Err ErrDownloadArtifactExpired
    else Ok tt
  else Err ErrDownloadArtifactInvalid.

(** [WHERE organization_id=? AND id=?]. *)
Definition keyed (org id : string) (w : Row) : bool := (w_organization_id w =s org) && (w_id w =s id).
Definition keyed_in (org id : string) (statuses : list string) (w : Row) : bool :=
  keyed org id w && contains statuses (w_status w).

(** [... AND status=? AND downloads<max_downloads AND expires_at>?]. *)
Definition claimable (org id : string) (at_ : Time) (w : Row) : bool :=
  keyed_in org id [DownloadArtifactReady] w && (w_downloads w <? w_max_downloads w) &&
  (UTC at_ <? w_expires_at w).

Definition row_of (a : DownloadArtifact) : Row :=
  mkRow (a_ID a) (a_OrganizationID a) (a_ActorID a) (a_ApprovalID a) (a_ObjectKey a) (a_ContentType a)
    (a_SHA256 a) (a_Size a) (a_Status a) (a_MaxDownloads a) (a_Downloads a) (a_ExpiresAt a)
    (a_CreatedAt a) (a_UpdatedAt a) None None None.

(** The updates of the statements. *)
Definition mark_downloaded (now : Time) (w : Row) : Row :=
  w <| w_status := DownloadArtifactDownloaded |> <| w_downloads := w_downloads w + 1 |>
    <| w_downloaded_at := Some (UTC now) |> <| w_updated_at := UTC now |>.
Definition mark_revoked (reason : string) (now : Time) (w : Row) : Row :=
  w <| w_status := DownloadArtifactRevoked |> <| w_revoked_at := Some (UTC now) |>
    <| w_revoked_reason := Some (TrimSpace reason) |> <| w_updated_at := UTC now |>.
Definition mark_status (status : string) (now : Time) (w : Row) : Row :=
  w <| w_status := status |> <| w_updated_at := UTC now |>.
(** The [CASE] of [CompleteCleanup]. *)
Definition mark_cleaned (now : Time) (w : Row) : Row :=
  mark_status (match w_revoked_at w, w_downloaded_at w with
               | Some _, _ => DownloadArtifactRevoked
               | None, Some _ => DownloadArtifactDownloaded
               | None, None => DownloadArtifactExpired
               end) now w.

Definition clamp (limit : Z) : Z :=
  let limit := if limit <=? 0 then 100 else limit in
  if 1000 <? limit then 1000 else limit.

Section registry.
Context {O : Type}.
Notation M := (M (Tables O)).

Definition update (p : Row -> bool) (f : Row -> Row) : M unit :=
  exec (fun t => t <| dl_rows := update_where p f (dl_rows t) |>).

Definition Create (a : DownloadArtifact) : M unit :=
  _ ← lift (validateDownloadArtifact a);
  stmt (fun t => if existsb (fun w => w_id w =s a_ID a) (dl_rows t) then Err ErrDuplicate
                 else Ok (tt, t <| dl_rows := dl_rows t ++ [row_of a] |>)).

Definition Get (org id : string) : M DownloadArtifact :=
  queryR (fun t => match select_row (keyed org id) (dl_rows t) with
                   | Ok w => Ok (scan w)
                   | Err _ => Err ErrDownloadArtifactNotFound
                   end).

Definition ClaimDownload (org id actorID : string) (now : Time) : M DownloadArtifact :=
  WithTx (
    a ← Get org id;
    _ ← guard_not (a_ActorID a <>s TrimSpace actorID) ErrNotAuthorized;
    _ ← (match validateClaimable a now with
         | Ok _ => mret tt
         | Err e =>
           _ ← (if errors_Is e ErrDownloadArtifactExpired
                then _ ← attempt (update (keyed_in org id [DownloadArtifactReady])
                                    (mark_status DownloadArtifactExpired now)); mret tt
                else mret tt);
           fail e
         end);
    _ ← Get org id;
    _ ← update (claimable org id now) (mark_downloaded now);
    Get org id).

Definition Revoke (org id actorID reason : string) (now : Time) : M DownloadArtifact :=
  WithTx (
    a ← Get org id;
    _ ← guard_not (a_ActorID a <>s TrimSpace actorID) ErrNotAuthorized;
    _ ← guard_not (a_Status a <>s DownloadArtifactReady) ErrDownloadArtifactConsumed;
    _ ← guard_not ((TrimSpace reason =s "") || (500 <? slen reason)) ErrDownloadArtifactInvalid;
    _ ← update (keyed_in org id [DownloadArtifactReady]) (mark_revoked reason now);
    Get org id).

Definition Expire (org id : string) (now : Time) : M DownloadArtifact :=
  WithTx (
    a ← Get org id;
    _ ← guard_not (a_Status a <>s DownloadArtifactReady) ErrDownloadArtifactConsumed;
    _ ← guard_not (Before now (a_ExpiresAt a)) ErrNotExpired;
    _ ← update (keyed_in org id [DownloadArtifactReady]) (mark_status DownloadArtifactExpired now);
    Get org id).

Definition MarkCleanupPending (org id : string) (now : Time) : M DownloadArtifact :=
  _ ← update (keyed_in org id [DownloadArtifactRevoked; DownloadArtifactExpired; DownloadArtifactDownloaded])
        (mark_status DownloadArtifactCleanup now);
  Get org id.

Definition CompleteCleanup (org id : string) (now : Time) : M DownloadArtifact :=
  _ ← update (keyed_in org id [DownloadArtifactCleanup]) (mark_cleaned now);
  Get org id.

Definition ListCleanupPending (limit : Z) : M (list DownloadArtifact) :=
  query (fun t => map scan (take (Z.to_nat (clamp limit))
    (order_by (fun x y => (w_updated_at x <? w_updated_at y) ||
                          ((w_updated_at x =? w_updated_at y) && str_le (w_id x) (w_id y)))
      (select (fun w => w_status w =s DownloadArtifactCleanup) (dl_rows t))))).

Definition ListExpiredReady (now : Time) (limit : Z) : M (list DownloadArtifact) :=
  query (fun t => map scan (take (Z.to_nat (clamp limit))
    (order_by (fun x y => (w_expires_at x <? w_expires_at y) ||
                          ((w_expires_at x =? w_expires_at y) && str_le (w_id x) (w_id y)))
      (select (fun w => (w_status w =s DownloadArtifactReady) && (w_expires_at w <=? UTC now)) (dl_rows t))))).

(** ** The controller *)

(** The object store: what [Put], the read of [Get]'s body and its close, and
    [Delete] answer. *)
Record ArtifactObjectStore := mkStore {
  os_Put : string -> string -> O -> result unit * O;
  os_Get : string -> O -> result (result string * result unit) * O;
  os_Delete : string -> O -> result unit * O
}.

Definition object {A} (f : O -> result A * O) : M A := fun _ n t =>
  let '(r, o) := f (dl_objects t) in (r, n, t <| dl_objects := o |>).

Context (objects : ArtifactObjectStore) (maxBytes : Z).

Definition Publish (organizationID actorID approvalID contentType payload : string) (expiresAt : Time)
  : M DownloadArtifact :=
  let organizationID := TrimSpace organizationID in
  let actorID := TrimSpace actorID in
  let approvalID := TrimSpace approvalID in
  let contentType := TrimSpace contentType in
  at_ ← now;
  let at_ := UTC at_ in
  _ ← guard_not ((organizationID =s "") || (actorID =s "") || (approvalID =s "") || (contentType =s "") ||
                 (slen payload =? 0) || (maxBytes <? slen payload) || Before (UTC expiresAt) at_ ||
                 (UTC expiresAt =? at_)) ErrDownloadArtifactInvalid;
  artifactID ← NewString;
  let key := "governed-exports/" +:+ organizationID +:+ "/" +:+ artifactID in
  stored ← attempt (object (os_Put objects key payload));
  _ ← (match stored with
       | Ok _ => mret tt
       | Err e => fail (Wrapf "store governed export: %w" [] e)
       end);
  let artifact := mkArtifact artifactID organizationID actorID approvalID key contentType
    (Sum256hex payload) (slen payload) DownloadArtifactReady 1 0 (UTC expiresAt) at_ at_ 0 0 "" in
  created ← attempt (Create artifact);
  match created with
  | Ok _ => mret artifact
  | Err e =>
    _ ← attempt (object (os_Delete objects key));
    fail (Wrapf "create governed export record: %w" [] e)
  end.

(** [strings.EqualFold] with a hexadecimal string on the left. *)
Definition EqualFold (hex value : string) : bool := ToLower hex =s ToLower value.

(** [io.LimitReader]: at most [n] bytes. *)
Definition LimitReader (s : string) (n : Z) : string := stake (Z.to_nat n) s.

(** The checks of [Open] before it touches the object. *)
Definition open_checks (a : DownloadArtifact) (actorID : string) (at_ : Time) : result unit :=
  if a_Status a =s DownloadArtifactRevoked then Err ErrDownloadArtifactRevoked
  else if a_Status a =s DownloadArtifactCleanup then Err ErrDownloadArtifactInvalid
  else if (a_Status a =s DownloadArtifactDownloaded) || (a_MaxDownloads a <=? a_Downloads a) then
    Err ErrDownloadArtifactConsumed
  else if (TrimSpace actorID =s "") || (a_ActorID a <>s TrimSpace actorID) then
    Err ErrDownloadArtifactActor
  else if After (UTC at_) (a_ExpiresAt a) then Err ErrDownloadArtifactExpired
  else if (a_Size a <=? 0) || (maxBytes <? a_Size a) || negb (slen (a_SHA256 a) =? 64) then
    Err ErrDownloadArtifactInvalid
  else Ok tt.

(** The bytes of the object, read up to the limit. *)
Definition read_object (a : DownloadArtifact) : M string :=
  body ← attempt (object (os_Get objects (a_ObjectKey a)));
  match body with
  | Err e => fail (Wrapf "read governed export: %w" [] e)
  | Ok (Err readErr, _) => fail (Wrapf "read governed export: %w" [] readErr)
  | Ok (Ok _, Err closeErr) => fail (Wrapf "close governed export: %w" [] closeErr)
  | Ok (Ok bytes, Ok _) => mret (LimitReader bytes (maxBytes + 1))
  end.

Definition Open_ (organizationID artifactID actorID : string) : M (DownloadArtifact * string) :=
  a ← Get (TrimSpace organizationID) (TrimSpace artifactID);
  at_ ← now;
  _ ← lift (open_checks a actorID at_);
  payload ← read_object a;
  _ ← guard_not (negb (slen payload =? a_Size a) || (maxBytes <? slen payload)) ErrDownloadArtifactChecksum;
  _ ← guard_not (negb (EqualFold (Sum256hex payload) (a_SHA256 a))) ErrDownloadArtifactChecksum;
  at_ ← now;
  claimed ← ClaimDownload (a_OrganizationID a) (a_ID a) (TrimSpace actorID) (UTC at_);
  deleted ← attempt (object (os_Delete objects (a_ObjectKey claimed)));
  match deleted with
  | Ok _ => mret (claimed, payload)
  | Err e =>
    at_ ← now;
    marked ← attempt (MarkCleanupPending (a_OrganizationID claimed) (a_ID claimed) (UTC at_));
    match marked with
    | Err _ => fail (Wrapf "delete downloaded export object: %w; mark cleanup pending: %v" [] e)
    | Ok _ => mret (claimed, payload)
    end
  end.

Definition cleanupArtifact (a : DownloadArtifact) : M unit :=
  deleted ← attempt (object (os_Delete objects (a_ObjectKey a)));
  match deleted with
  | Err e =>
    at_ ← now;
    marked ← attempt (MarkCleanupPending (a_OrganizationID a) (a_ID a) (UTC at_));
    match marked with
    | Err _ => fail (Wrapf "delete export object: %w; mark cleanup pending: %v" [] e)
    | Ok _ => fail (Wrapf "delete export object; cleanup pending: %w" [] e)
    end
  | Ok _ =>
    if a_Status a =s DownloadArtifactCleanup then
      at_ ← now;
      completed ← attempt (CompleteCleanup (a_OrganizationID a) (a_ID a) (UTC at_));
      match completed with
      | Err e => fail (Wrapf "complete export cleanup: %w" [] e)
      | Ok _ => mret tt
      end
    else mret tt
  end.

Definition RevokeState (organizationID artifactID actorID reason : string) : M DownloadArtifact :=
  at_ ← now;
  Revoke (TrimSpace organizationID) (TrimSpace artifactID) (TrimSpace actorID) (TrimSpace reason) (UTC at_).

Definition ExpireState (organizationID artifactID : string) : M DownloadArtifact :=
  at_ ← now;
  Expire (TrimSpace organizationID) (TrimSpace artifactID) (UTC at_).

Definition controller_Revoke (organizationID artifactID actorID reason : string) : M unit :=
  a ← RevokeState organizationID artifactID actorID reason;
  cleanupArtifact a.

Definition controller_Expire (organizationID artifactID : string) : M unit :=
  a ← ExpireState organizationID artifactID;
  cleanupArtifact a.

Definition Cleanup (organizationID artifactID : string) : M unit :=
  a ← Get (TrimSpace organizationID) (TrimSpace artifactID);
  _ ← guard_not ((a_Status a <>s DownloadArtifactCleanup) && (a_Status a <>s DownloadArtifactRevoked) &&
                 (a_Status a <>s DownloadArtifactExpired)) ErrDownloadArtifactInvalid;
  cleanupArtifact a.

(** The loops of the batches: the number done and the first error. *)
Fixpoint each (f : DownloadArtifact -> M unit) (items : list DownloadArtifact) (done : Z)
    (firstErr : option error) : M (Z * option error) :=
  match items with
  | [] => mret (done, firstErr)
  | a :: rest =>
    r ← attempt (f a);
    match r with
    | Ok _ => each f rest (done + 1) firstErr
    | Err e => each f rest done (match firstErr with None => Some e | Some _ => firstErr end)
    end
  end.

Definition CleanupPending (limit : Z) : M (Z * option error) :=
  pending ← ListCleanupPending (clamp limit);
  each (fun a => Cleanup (a_OrganizationID a) (a_ID a)) pending 0 None.

Definition ExpirePending (limit : Z) : M (Z * option error) :=
  at_ ← now;
  items ← ListExpiredReady (UTC at_) (clamp limit);
  each (fun a => closed ← ExpireState (a_OrganizationID a) (a_ID a); cleanupArtifact closed) items 0 None.
End registry.

(** ** The registry of the tests

    A map from identifiers to artifacts; its two lists range over the map in an
    unspecified order and are left out. *)
Module memory.
Definition items := gmap string DownloadArtifact.

Definition Create (a : DownloadArtifact) (m : items) : result unit * items :=
  match m !! a_ID a with
  | Some _ => (Err (Errorf "artifact already exists" []), m)
  | None => (Ok tt, <[a_ID a := a]> m)
  end.

Definition find (org id : string) (m : items) : option DownloadArtifact :=
  match m !! id with
  | Some a => if a_OrganizationID a <>s org then None else Some a
  | None => None
  end.

Definition Get (org id : string) (m : items) : result DownloadArtifact :=
  match find org id m with Some a => Ok a | None => Err ErrDownloadArtifactNotFound end.

Definition ClaimDownload (org id actorID : string) (now : Time) (m : items)
  : result DownloadArtifact * items :=
  match find org id m with
  | None => (Err ErrDownloadArtifactNotFound, m)
  | Some a =>
    if a_Status a =s DownloadArtifactRevoked then (Err ErrDownloadArtifactRevoked, m)
    else if (a_Status a =s DownloadArtifactDownloaded) || (a_MaxDownloads a <=? a_Downloads a) then
      (Err ErrDownloadArtifactConsumed, m)
    else if After now (a_ExpiresAt a) then
      (Err ErrDownloadArtifactExpired, <[id := a <| a_Status := DownloadArtifactExpired |>]> m)
    else if (actorID =s "") || (actorID <>s a_ActorID a) then (Err ErrNotAuthorized, m)
    else
      let a := a <| a_Downloads := a_Downloads a + 1 |> <| a_Status := DownloadArtifactDownloaded |>
                 <| a_DownloadedAt := UTC now |> <| a_UpdatedAt := UTC now |> in
      (Ok a, <[id := a]> m)
  end.

Definition Revoke (org id actorID reason : string) (now : Time) (m : items)
  : result DownloadArtifact * items :=
  match find org id m with
  | None => (Err ErrDownloadArtifactNotFound, m)
  | Some a =>
    if (actorID =s "") || (actorID <>s a_ActorID a) then (Err ErrNotAuthorized, m)
    else if (a_Status a =s DownloadArtifactDownloaded) || (a_Status a =s DownloadArtifactRevoked) ||
            (a_Status a =s DownloadArtifactExpired) then (Err ErrDownloadArtifactConsumed, m)
    else
      let a := a <| a_Status := DownloadArtifactRevoked |> <| a_RevokedAt := UTC now |>
                 <| a_RevokedReason := reason |> <| a_UpdatedAt := UTC now |> in
      (Ok a, <[id := a]> m)
  end.

Definition Expire (org id : string) (now : Time) (m : items) : result DownloadArtifact * items :=
  match find org id m with
  | None => (Err ErrDownloadArtifactNotFound, m)
  | Some a =>
    if a_Status a <>s DownloadArtifactReady then (Err ErrDownloadArtifactConsumed, m)
    else if Before now (a_ExpiresAt a) then (Err ErrNotExpired, m)
    else
      let a := a <| a_Status := DownloadArtifactExpired |> <| a_UpdatedAt := UTC now |> in
      (Ok a, <[id := a]> m)
  end.

Definition MarkCleanupPending (org id : string) (now : Time) (m : items)
  : result DownloadArtifact * items :=
  match find org id m with
  | None => (Err ErrDownloadArtifactNotFound, m)
  | Some a =>
    if (a_Status a <>s DownloadArtifactRevoked) && (a_Status a <>s DownloadArtifactExpired) &&
       (a_Status a <>s DownloadArtifactDownloaded) then (Err ErrDownloadArtifactInvalid, m)
    else
      let a := a <| a_Status := DownloadArtifactCleanup |> <| a_UpdatedAt := UTC now |> in
      (Ok a, <[id := a]> m)
  end.

Definition CompleteCleanup (org id : string) (now : Time) (m : items)
  : result DownloadArtifact * items :=
  match find org id m with
  | None => (Err ErrDownloadArtifactNotFound, m)
  | Some a =>
    if a_Status a <>s DownloadArtifactCleanup then (Err ErrDownloadArtifactInvalid, m)
    else
      let status := if negb (IsZero (a_RevokedAt a)) then DownloadArtifactRevoked
                    else if negb (IsZero (a_DownloadedAt a)) then DownloadArtifactDownloaded
                    else DownloadArtifactExpired in
      let a := a <| a_Status := status |> <| a_UpdatedAt := UTC now |> in
      (Ok a, <[id := a]> m)
  end.
End memory.

(** ** Histories

    The calls on the SQL registry, by any number of controllers, each with any
    outcome, with the claims that succeeded, the newest first.  A controller
    keeps no state between its calls, so every interleaving of controllers is
    one of these; the object store may change at any time. *)
Record claim := mkClaim {
  cl_org : string; cl_id : string; cl_actor : string; cl_now : Time; cl_artifact : DownloadArtifact
}.

Section histories.
Context {O : Type}.
Implicit Types t : Tables O.

Inductive call : M (Tables O) DownloadArtifact -> Prop :=
| call_revoke org id actor reason at_ : call (Revoke org id actor reason at_)
| call_expire org id at_ : call (Expire org id at_)
| call_mark org id at_ : call (MarkCleanupPending org id at_)
| call_complete org id at_ : call (CompleteCleanup org id at_).

Inductive history : Tables O -> list claim -> Tables O -> Prop :=
| h_refl t : history t [] t
| h_objects t log t' o : history t log t' -> history t log (t' <| dl_objects := o |>)
| h_create t log t1 a env n r n' t' :
    history t log t1 -> Create a env n t1 = (r, n', t') -> history t log t'
| h_call t log t1 m env n r n' t' :
    history t log t1 -> call m -> m env n t1 = (r, n', t') -> history t log t'
| h_claim t log t1 org id actor at_ env n a n' t' :
    history t log t1 -> in_tx env = false ->
    ClaimDownload org id actor at_ env n t1 = (Ok a, n', t') ->
    history t (mkClaim org id actor at_ a :: log) t'
| h_refused t log t1 org id actor at_ env n e n' t' :
    history t log t1 -> in_tx env = false ->
    ClaimDownload org id actor at_ env n t1 = (Err e, n', t') -> history t log t'.

Lemma validateClaimable_ok a at_ :
  validateClaimable a at_ = Ok tt ->
  a_Status a = DownloadArtifactReady /\ a_Downloads a < a_MaxDownloads a /\ at_ < a_ExpiresAt a.
Proof.
  unfold validateClaimable. intros H. guards H. unfold UTC in *.
  match goal with E : orb _ _ = false |- _ => apply orb_false_iff in E as [E1 E2] end.
  breflect. split_and!; [done|lia|]. unfold UTC in *. lia.
Qed.

Lemma Get_ok org id env n t a n' t' :
  Get org id env n t = (Ok a, n', t') -> t' = t /\ exists w, select_row (keyed org id) (dl_rows t) = Ok w /\ a = scan w.
Proof.
  unfold Get. intros H. run. destruct (select_row _ _) as [w|] eqn:E; [|discriminate].
  split; [done|]. exists w. split; [done|congruence].
Qed.

(** What a claim that succeeds did. *)
Lemma ClaimDownload_ok org id actor at_ env n t a n' t' :
  in_tx env = false -> ClaimDownload org id actor at_ env n t = (Ok a, n', t') ->
  exists w, select_row (keyed org id) (dl_rows t) = Ok w /\
    w_actor_id w = TrimSpace actor /\ w_status w = DownloadArtifactReady /\
    w_downloads w < w_max_downloads w /\ at_ < w_expires_at w /\
    t' = t <| dl_rows := update_where (claimable org id at_) (mark_downloaded at_) (dl_rows t) |> /\
    exists w', select_row (keyed org id) (dl_rows t') = Ok w' /\ a = scan w'.
Proof.
  intros Tx H. unfold ClaimDownload in H. apply WithTx_ok in H as (k & _ & H & _ & _); [|done].
  apply bind_ok in H as (a0 & n1 & t1 & G & H). apply Get_ok in G as (-> & w & Sel & ->).
  apply bind_ok in H as (u & n2 & t2 & G & H). apply guard_ok in G as (Act & _ & <-).
  apply bind_ok in H as (u' & n3 & t3 & V & H).
  destruct (validateClaimable (scan w) at_) as [[]|e] eqn:Va.
  2: { apply bind_ok in V as (? & ? & ? & _ & V). by apply fail_ok in V. }
  apply ret_ok in V as (_ & _ & <-). apply validateClaimable_ok in Va as (St & Dn & Ex).
  apply bind_ok in H as (a1 & n4 & t4 & G & H). apply Get_ok in G as (-> & _).
  apply bind_ok in H as (u2 & n5 & t5 & U & H). unfold update in U. apply exec_ok in U as (_ & _ & ->).
  apply Get_ok in H as (-> & w' & Sel' & ->). breflect.
  exists w. split_and!; try done. by exists w'.
Qed.

(** The invariant: the tickets count the claims of the log. *)
Record counted (log : list claim) t : Prop := {
  c_ids : NoDup (map w_id (dl_rows t));
  c_rows : Forall (fun w => w_max_downloads w = 1 /\
             w_downloads w = count_if (fun c => cl_id c =s w_id w) log /\ w_downloads w <= 1 /\
             (w_status w = DownloadArtifactReady -> w_downloads w = 0)) (dl_rows t);
  c_log : Forall (fun c => cl_id c ∈ map w_id (dl_rows t)) log
}.

Lemma counted_update log t p f :
  (forall w, w_id (f w) = w_id w /\ w_max_downloads (f w) = w_max_downloads w /\
             w_downloads (f w) = w_downloads w) ->
  (forall w, p w = true -> w_status (f w) <> DownloadArtifactReady) ->
  counted log t -> counted log (t <| dl_rows := update_where p f (dl_rows t) |>).
Proof.
  intros F R [N C L].
  assert (Ids : map w_id (update_where p f (dl_rows t)) = map w_id (dl_rows t))
    by (apply map_update_where; intros w; apply F).
  constructor; cbn [dl_rows set]; unfold set; cbn [dl_rows]; rewrite ?Ids; try done.
  apply Forall_update_where; [done|]. intros w _ P (C1 & C2 & C3 & C4).
  destruct (F w) as (-> & -> & ->). split_and!; try done. intros S. by apply R in P.
Qed.

Lemma counted_call log m : call m -> keeps (counted log) m.
Proof.
  assert (U : forall p f, (forall w, w_id (f w) = w_id w /\ w_max_downloads (f w) = w_max_downloads w /\
             w_downloads (f w) = w_downloads w) ->
             (forall w, p w = true -> w_status (f w) <> DownloadArtifactReady) ->
             keeps (counted log) (@update O p f)).
  { intros p f F R. apply keeps_exec. intros t. by apply counted_update. }
  intros []; unfold Revoke, Expire, MarkCleanupPending, CompleteCleanup, Get;
    keeps_walk; apply U; try done.
  intros w _. cbn. by destruct (w_revoked_at w), (w_downloaded_at w).
Qed.

Lemma count_if_zero {A} (p : A -> bool) l : (forall x, x ∈ l -> p x = false) -> count_if p l = 0.
Proof.
  induction l as [|x l IH]; intros H; [done|]. rewrite count_if_cons, (H x) by (by left).
  rewrite IH; [done|]. intros y Hy. apply H. by right.
Qed.

Lemma counted_create log a : keeps (counted log) (@Create O a).
Proof.
  unfold Create. destruct (validateDownloadArtifact a) as [[]|e] eqn:V; [|by intros e' n s H].
  keeps_walk. apply keeps_stmt. intros t u t' [N C L] H.
  destruct (existsb _ _) eqn:E; [discriminate|]. injection H as _ <-. rewrite existsb_false in E.
  assert (New : forall w, w ∈ dl_rows t -> w_id w <> a_ID a).
  { intros w Hw. specialize (E w Hw). by breflect. }
  unfold validateDownloadArtifact in V. guards V. breflect.
  constructor; unfold set; cbn [dl_rows].
  - by apply NoDup_map_snoc.
  - apply Forall_app. split; [done|]. constructor; [|constructor]. cbn.
    assert (Z0 : count_if (fun c => cl_id c =s a_ID a) log = 0).
    { apply count_if_zero. intros c Hc. apply seqb_neq. intros Eq. rewrite Forall_forall in L.
      specialize (L c Hc). rewrite Eq in L. apply list_elem_of_fmap in L as (w & Ew & Hw).
      by apply (New w). }
    rewrite Z0. split_and!; lia.
  - eapply Forall_impl; [done|]. cbn beta. intros c Hc. rewrite map_app. set_solver.
Qed.

Lemma keyed_spec org id w : keyed org id w = true <-> w_organization_id w = org /\ w_id w = id.
Proof. unfold keyed. by rewrite andb_true_iff, !seqb_true. Qed.

Lemma claimable_self org id at_ w :
  keyed org id w = true -> w_status w = DownloadArtifactReady -> w_downloads w < w_max_downloads w ->
  at_ < w_expires_at w -> claimable org id at_ w = true.
Proof.
  intros K S D E. unfold claimable, keyed_in. rewrite K, S. cbn.
  apply andb_true_iff. split; [apply Z.ltb_lt|apply Z.ltb_lt]; done.
Qed.

Lemma counted_claim log org id actor at_ env n t a n' t' :
  in_tx env = false -> ClaimDownload org id actor at_ env n t = (Ok a, n', t') ->
  counted log t -> counted (mkClaim org id actor at_ a :: log) t'.
Proof.
  intros Tx H [N C L]. apply ClaimDownload_ok in H as (w & Sel & Act & St & Dn & Ex & -> & _); [|done].
  apply select_row_ok in Sel as [Hw K]. apply keyed_spec in K as K'. destruct K' as [Ko Ki].
  assert (Ids : map w_id (update_where (claimable org id at_) (mark_downloaded at_) (dl_rows t)) =
                map w_id (dl_rows t)) by (by apply map_update_where).
  constructor; unfold set; cbn [dl_rows]; rewrite ?Ids; try done.
  - rewrite Forall_forall in C |- *. intros y Hy. apply elem_of_update_where in Hy as (x & Hx & ->).
    destruct (C x Hx) as (C1 & C2 & C3 & C4). rewrite count_if_cons. cbn [cl_id].
    destruct (claimable org id at_ x) eqn:P.
    + assert (x = w) as ->.
      { unfold claimable, keyed_in in P. breflect.
        match goal with E : keyed org id x = true |- _ => apply keyed_spec in E as [_ E] end.
        apply (NoDup_map_eq w_id (dl_rows t)); [done..|congruence]. }
      cbn. rewrite Ki, seqb_refl. specialize (C4 St). rewrite <- Ki. split_and!; [done|lia|lia|discriminate].
    + destruct (String.eqb_spec id (w_id x)) as [E|E]; [|split_and!; [done|lia|done|done]].
      assert (x = w) as -> by (apply (NoDup_map_eq w_id (dl_rows t)); [done..|congruence]).
      by rewrite claimable_self in P.
  - constructor; [|done]. cbn. rewrite <- Ki. apply list_elem_of_fmap. by exists w.
Qed.

Lemma history_counted t log t' l0 :
  counted l0 t -> history t log t' -> counted (log ++ l0) t'.
Proof.
  intros C H. induction H as [|? ? ? o H IH|? ? ? ? env n r n' t' H IH E|? ? ? m env n r n' t' H IH K E|? ? ? ? ? ? ? env n a n' t' H IH Tx E|? ? ? ? ? ? ? env n e n' t' H IH Tx E].
  - done.
  - specialize (IH C). by destruct IH.
  - pose proof (counted_create (log ++ l0) a env n t1 (IH C)) as X. by rewrite E in X.
  - pose proof (counted_call (log ++ l0) m K env n t1 (IH C)) as X. by rewrite E in X.
  - cbn [app]. by eapply counted_claim, IH.
  - unfold ClaimDownload in E. apply WithTx_atomic in E; [|done]. subst. by apply IH.
Qed.

(** C14. A ticket is good for one download: whatever the interleaving of
    publications, downloads, revocations, expiries and cleanups by any number
    of workers, no artifact is claimed twice. *)
Theorem downloads_at_most_once o log t :
  history (mkTables [] o) log t -> NoDup (map cl_id log).
Proof.
  intros H.
  assert (C : forall log t', history (mkTables [] o) log t' -> counted log t').
  { intros l t' H'. rewrite <- (app_nil_r l). eapply history_counted; [|done]. by constructor; constructor. }
  remember (mkTables [] o) as t0. induction H as [| | | |? ? ? ? ? ? ? env n a n' t' H IH Tx E|]; auto.
  - constructor.
  - cbn. constructor; [|by auto]. intros Hi. specialize (IH Heqt0 C). subst.
    specialize (C _ _ (h_claim _ _ _ _ _ _ _ _ _ _ _ _ H Tx E)) as [_ R L].
    apply Forall_cons in L as [L _]. apply list_elem_of_fmap in L as (w & Ew & Hw). cbn in Ew.
    rewrite Forall_forall in R. destruct (R w Hw) as (_ & R2 & R3 & _).
    rewrite count_if_cons in R2. cbn [cl_id] in R2. rewrite Ew, seqb_refl in R2.
    apply list_elem_of_fmap in Hi as (c & Ec & Hc).
    assert (1 <= count_if (fun c => cl_id c =s w_id w) log).
    { apply (count_if_pos _ _ c); [done|]. rewrite <- Ec, Ew. apply seqb_refl. }
    lia.
Qed.

(** *** Closed tickets *)

(** A ticket that exists and is no longer [Ready]. *)
Definition closed (id : string) t : Prop :=
  id ∈ map w_id (dl_rows t) /\
  forall w, w ∈ dl_rows t -> w_id w = id -> w_status w <> DownloadArtifactReady.

Lemma closed_update id t p f :
  (forall w, w_id (f w) = w_id w) -> (forall w, p w = true -> w_status (f w) <> DownloadArtifactReady) ->
  closed id t -> closed id (t <| dl_rows := update_where p f (dl_rows t) |>).
Proof.
  intros F R [E C]. split; unfold set; cbn [dl_rows]; [by rewrite map_update_where|].
  intros w Hw Id. apply elem_of_update_where in Hw as (x & Hx & ->). destruct (p x) eqn:P; [by apply R|].
  by apply C.
Qed.

Lemma closed_exec id p f :
  (forall w, w_id (f w) = w_id w) -> (forall w, p w = true -> w_status (f w) <> DownloadArtifactReady) ->
  keeps (closed id) (@update O p f).
Proof. intros F R. apply keeps_exec. intros t. by apply closed_update. Qed.

Lemma mark_cleaned_closed at_ w : w_status (mark_cleaned at_ w) <> DownloadArtifactReady.
Proof. cbn. by destruct (w_revoked_at w), (w_downloaded_at w). Qed.

Lemma closed_call id m : call m -> keeps (closed id) m.
Proof.
  intros []; unfold Revoke, Expire, MarkCleanupPending, CompleteCleanup, Get; keeps_walk;
    apply closed_exec; try done; intros w _; apply mark_cleaned_closed.
Qed.

Lemma closed_create id a : keeps (closed id) (@Create O a).
Proof.
  unfold Create. keeps_walk. apply keeps_stmt. intros t u t' [E C] H.
  destruct (existsb _ _) eqn:Ex; [discriminate|]. injection H as _ <-. rewrite existsb_false in Ex.
  split; unfold set; cbn [dl_rows]; [rewrite map_app; set_solver|].
  intros w Hw Id. apply elem_of_app in Hw as [Hw|Hw]; [by apply C|].
  apply list_elem_of_singleton in Hw as ->. exfalso. cbn in Id. subst id.
  apply list_elem_of_fmap in E as (x & Ex' & Hx). specialize (Ex x Hx). breflect. congruence.
Qed.

Lemma closed_history id t log t' :
  closed id t -> history t log t' -> closed id t' /\ (id ∉ map cl_id log).
Proof.
  intros C H. induction H as [|? ? ? o H IH|? ? ? ? env n r n' t' H IH E|? ? ? m env n r n' t' H IH K E|? ? ? org i ? ? env n a n' t' H IH Tx E|? ? ? ? ? ? ? env n e n' t' H IH Tx E].
  - split; [done|]. cbn. set_solver.
  - by apply IH.
  - destruct (IH C) as [C' ?]. pose proof (closed_create id a env n _ C') as X. by rewrite E in X.
  - destruct (IH C) as [C' ?]. pose proof (closed_call id m K env n _ C') as X. by rewrite E in X.
  - destruct (IH C) as [C' Ni]. apply ClaimDownload_ok in E as (w & Sel & _ & St & _ & _ & -> & _); [|done].
    split; [by apply closed_update|]. cbn. apply not_elem_of_cons. split; [|done].
    intros ->. apply select_row_ok in Sel as [Hw K]. apply keyed_spec in K as [_ K]. by apply C' in Hw.
  - unfold ClaimDownload in E. apply WithTx_atomic in E; [|done]. subst. by apply IH.
Qed.

(** A revoked or expired ticket is never downloaded afterwards: once an
    artifact has left [Ready], through a failed deletion and its retries
    included, no claim of it succeeds. *)
Theorem closed_tickets_stay_closed id t log t' :
  closed id t -> history t log t' -> id ∉ map cl_id log.
Proof. intros C H. by apply (closed_history id t log t'). Qed.
End histories.

(** ** Downloads *)

Section controller.
Context {O : Type} (objects : ArtifactObjectStore (O := O)) (maxBytes : Z).
Implicit Types t : Tables O.

Lemma object_rows {A} (f : O -> result A * O) env n t r n' t' :
  object f env n t = (r, n', t') -> dl_rows t' = dl_rows t.
Proof. unfold object. destruct (f (dl_objects t)) as [x o]. by intros [= _ _ <-]. Qed.

Lemma read_object_rows a env n t p n' t' :
  read_object objects maxBytes a env n t = (Ok p, n', t') -> dl_rows t' = dl_rows t.
Proof.
  unfold read_object. intros H. apply bind_ok in H as (r & n1 & t1 & G & H). apply attempt_inv in G.
  apply object_rows in G. destruct r as [[[b|e] [u|e']]|e]; try by apply fail_ok in H.
  apply ret_ok in H as (_ & _ & <-). done.
Qed.

Lemma open_checks_ok a actor at_ :
  open_checks maxBytes a actor at_ = Ok tt -> TrimSpace actor <> "" /\ a_ActorID a = TrimSpace actor.
Proof.
  unfold open_checks. intros H. guards H.
  match goal with E : orb (TrimSpace actor =s "") _ = false |- _ => apply orb_false_iff in E as [E1 E2] end.
  by breflect.
Qed.

Lemma closed_object {A} id (f : O -> result A * O) : keeps (closed id) (object f).
Proof.
  intros env n t C. destruct (object f env n t) as [[r n'] t'] eqn:E. apply object_rows in E.
  unfold closed in *. cbn. by rewrite E.
Qed.

(** A download hands out only what its ticket promises, to its owner,
    before its expiry: the ticket was [Ready], the bytes have the recorded size
    and digest (so they are the published ones, or a SHA-256 collision), and
    the ticket is closed when the caller gets them. *)
Theorem Open_delivers_the_artifact org id actor env n t a payload n' t' :
  in_tx env = false -> NoDup (map w_id (dl_rows t)) ->
  Open_ objects maxBytes org id actor env n t = (Ok (a, payload), n', t') ->
  exists w k, w ∈ dl_rows t /\ w_organization_id w = TrimSpace org /\ w_id w = TrimSpace id /\
    w_status w = DownloadArtifactReady /\ w_downloads w < w_max_downloads w /\
    w_actor_id w = TrimSpace actor /\ TrimSpace actor <> "" /\ clock env k < w_expires_at w /\
    slen payload = w_size_bytes w /\ slen payload <= maxBytes /\ closed (w_id w) t' /\
    forall published, w_sha256 w = Sum256hex published ->
      payload = published \/ (payload <> published /\ Sum256hex payload = Sum256hex published).
Proof.
  intros Tx ND H. unfold Open_ in H.
  apply bind_ok in H as (a0 & n1 & t1 & G & H). apply Get_ok in G as (-> & w & Sel & ->).
  apply bind_ok in H as (at1 & n2 & t2 & G & H). apply now_ok in G as (_ & _ & <-).
  apply bind_ok in H as (u & n3 & t3 & G & H). apply lift_ok in G as (Chk & _ & <-). destruct u.
  apply open_checks_ok in Chk as [Ne Act].
  apply bind_ok in H as (p & n4 & t4 & G & H). apply read_object_rows in G.
  apply bind_ok in H as (u & n5 & t5 & Sz & H). apply guard_ok in Sz as (Sz & _ & <-).
  apply bind_ok in H as (u' & n6 & t6 & Ck & H). apply guard_ok in Ck as (Ck & _ & <-).
  apply bind_ok in H as (at2 & n7 & t7 & N & H). apply now_ok in N as (N & _ & <-).
  apply bind_ok in H as (cl & n8 & t8 & C & H).
  apply ClaimDownload_ok in C as (w2 & Sel2 & _ & St & Dn & Ex & E8 & _); [|done].
  cbn [a_OrganizationID a_ID scan] in Sel2.
  apply select_row_ok in Sel as [Hw K]. apply keyed_spec in K as [Ko Ki].
  apply select_row_ok in Sel2 as [Hw2 K2]. rewrite G in Hw2. apply keyed_spec in K2 as K2'. destruct K2' as [_ Ki2].
  assert (w2 = w) as -> by (by apply (NoDup_map_eq w_id (dl_rows t))).
  assert (Cl : closed (w_id w) t8).
  { rewrite E8. split; unfold set; cbn [dl_rows]; rewrite ?G.
    - rewrite map_update_where by done. apply list_elem_of_fmap. by exists w.
    - intros y Hy Iy. apply elem_of_update_where in Hy as (x & Hx & ->).
      destruct (claimable _ _ _ x) eqn:P; [done|].
      assert (x = w) as -> by (apply (NoDup_map_eq w_id (dl_rows t)); done).
      by rewrite claimable_self in P. }
  assert (Fin : payload = p /\ closed (w_id w) t').
  { apply bind_ok in H as (d & n9 & t9 & D & H). apply attempt_inv in D.
    pose proof (closed_object (w_id w) (os_Delete objects (a_ObjectKey cl)) env n8 t8 Cl) as Cl9. rewrite D in Cl9. cbn in Cl9.
    destruct d as [?|e]; [apply ret_ok in H as ([= _ ->] & _ & <-); done|].
    apply bind_ok in H as (at3 & n10 & t10 & N' & H). apply now_ok in N' as (_ & _ & <-).
    apply bind_ok in H as (m & n11 & t11 & Mk & H). apply attempt_inv in Mk.
    pose proof (closed_call (w_id w) _ (call_mark (a_OrganizationID cl) (a_ID cl) (UTC at3)) env n10 t9 Cl9) as Cl11.
    rewrite Mk in Cl11. cbn in Cl11. destruct m; [|by apply fail_ok in H].
    apply ret_ok in H as ([= _ ->] & _ & <-). done. }
  destruct Fin as [-> Cl']. cbn in Sz, Ck, Act. orsplit. breflect.
  exists w, n6. split_and!; try done; [subst; unfold UTC in Ex; lia|].
  intros published Hp. destruct (decide (p = published)) as [->|Nep]; [by left|]. right. split; [done|].
  unfold EqualFold in Ck. breflect. rewrite Hp in Ck. unfold Sum256hex in *. by rewrite !ToLower_hex in Ck.
Qed.
End controller.

(** ** The two registries *)

Section agreement.
Context {O : Type}.
Implicit Types t : Tables O.

Lemma select_keyed org id rows w :
  NoDup (map w_id rows) -> w ∈ rows -> keyed org id w = true -> select_row (keyed org id) rows = Ok w.
Proof.
  intros N Hw K. destruct (select_row (keyed org id) rows) as [x|e] eqn:E.
  - apply select_row_ok in E as [Hx Kx]. apply keyed_spec in K as [_ K], Kx as [_ Kx].
    f_equal. apply (NoDup_map_eq w_id rows); [done..|congruence].
  - apply select_row_err in E as [_ E]. by rewrite (E w Hw) in K.
Qed.

Lemma Get_runs org id env n t w :
  faults env n = None -> select_row (keyed org id) (dl_rows t) = Ok w ->
  Get org id env n t = (Ok (scan w), S n, t).
Proof. intros F Sel. unfold Get, queryR, stmt. by rewrite F, Sel. Qed.

(** On a ticket that is [Ready], asked for by its owner at an instant that
    is not exactly its expiry, the registry of the tests answers a claim as the
    SQL one does: the same artifact, or the same refusal. *)
Theorem registries_agree_on_ready_tickets org id actor at_ env n t w (m : memory.items) :
  in_tx env = false -> (forall k, faults env k = None) -> NoDup (map w_id (dl_rows t)) ->
  w ∈ dl_rows t -> keyed org id w = true -> w_status w = DownloadArtifactReady ->
  w_actor_id w = actor -> TrimSpace actor = actor -> actor <> "" -> at_ <> w_expires_at w ->
  m !! id = Some (scan w) ->
  fst (memory.ClaimDownload org id actor at_ m) = fst (fst (ClaimDownload org id actor at_ env n t)).
Proof.
  intros Tx F N Hw K St Act Tr Ne Exp Mem. apply keyed_spec in K as K'. destruct K' as [Ko Ki].
  pose proof (select_keyed org id _ w N Hw K) as Sel.
  assert (Left : memory.find org id m = Some (scan w)).
  { unfold memory.find. rewrite Mem. cbn. by rewrite Ko, seqb_refl. }
  unfold memory.ClaimDownload. rewrite Left. cbn [a_Status a_MaxDownloads a_Downloads a_ExpiresAt a_ActorID scan].
  unfold ClaimDownload, WithTx. rewrite Tx, F. unfold mbind, M_bind.
  rewrite (Get_runs _ _ _ _ _ w) by (apply F || done). unfold guard_not at 1. cbn [a_ActorID scan].
  rewrite Act, Tr, seqb_refl. cbn [negb]. unfold mret at 1, M_ret at 1.
  unfold validateClaimable. cbn [a_Status a_MaxDownloads a_Downloads a_ExpiresAt scan].
  rewrite St. change (DownloadArtifactReady =s DownloadArtifactRevoked) with false.
  change (DownloadArtifactReady =s DownloadArtifactDownloaded) with false.
  change (DownloadArtifactReady =s DownloadArtifactReady) with true. cbn [orb].
  assert (F' : forall k, faults (env <| in_tx := true |>) k = None) by exact F.
  replace (actor =s "") with false by (symmetry; by apply seqb_neq). cbn [orb].
  destruct (w_max_downloads w <=? w_downloads w) eqn:Mx.
  { cbn. done. }
  change (UTC at_) with at_. replace (at_ =? w_expires_at w) with false by (symmetry; by apply Z.eqb_neq).
  rewrite orb_false_r. destruct (After at_ (w_expires_at w)) eqn:Af.
  { change (errors_Is ErrDownloadArtifactExpired ErrDownloadArtifactExpired) with true. cbv iota. unfold attempt.
    by destruct (update _ _ _ _ _) as [[[u|e] n1] s1]. }
  breflect. unfold mret, M_ret. rewrite (Get_runs _ _ _ _ _ w) by (apply F' || done).
  unfold update, exec, stmt. rewrite F'.
  rewrite (Get_runs _ _ _ _ _ (mark_downloaded at_ w)); [by rewrite F|apply F'|].
  unfold set; cbn [dl_rows]. apply select_keyed; [by rewrite map_update_where| |done].
  apply elem_of_update_where. exists w. split; [done|].
  rewrite claimable_self; [done..|unfold After in *; lia].
Qed.
End agreement.

(** The registry of the tests reopens a revoked ticket whose object could not be
    deleted; the SQL registry refuses it. *)
Example memory_claims_after_revocation :
  let a := mkArtifact "x" "org" "u" "ap" "k" "t" "" 1 DownloadArtifactReady 1 0 100 1 1 0 0 "" in
  let m := snd (memory.Revoke "org" "x" "u" "leak" 5 (<["x" := a]> ∅)) in
  let m := snd (memory.MarkCleanupPending "org" "x" 6 m) in
  is_ok (fst (memory.ClaimDownload "org" "x" "u" 7 m)) = true.
Proof. vm_compute. reflexivity. Qed.

(** ** Witnesses *)

Module examples.
Definition env0 (at_ : Time) : Env := mkEnv (fun _ => at_) (fun _ => "id-1") (fun _ => None) (fun _ _ => "0"%char) false.
Definition store := gmap string string.
Definition objects : ArtifactObjectStore (O := store) :=
  mkStore (fun k v o => (Ok tt, <[k := v]> o))
    (fun k o => (match o !! k with Some v => Ok (Ok v, Ok tt) | None => Err (Errorf "missing" []) end, o))
    (fun k o => (Ok tt, delete k o)).
Definition t0 : Tables store := mkTables [] ∅.
Definition artifact : DownloadArtifact :=
  mkArtifact "id-1" "org" "u-1" "ap-1" "governed-exports/org/id-1" "text/csv" (Sum256hex "a,b") 3
    DownloadArtifactReady 1 0 100 10 10 0 0 "".
Definition published := Eval vm_compute in
  Publish objects 1000 "org" " u-1" "ap-1" "text/csv" "a,b" 100 (env0 10) 0%nat t0.
Definition t1 : Tables store := Eval vm_compute in snd published.
Definition opened := Eval vm_compute in Open_ objects 1000 "org" "id-1" "u-1" (env0 20) 0%nat t1.
Definition t2 : Tables store := Eval vm_compute in snd opened.
Definition claimed := Eval vm_compute in ClaimDownload "org" "id-1" "u-1" 20 (env0 20) 0%nat t1.
Definition t3 : Tables store := Eval vm_compute in snd claimed.
Definition revoked := Eval vm_compute in Revoke "org" "id-1" "u-1" "leak" 20 (env0 20) 0%nat t1.
Definition t4 : Tables store := Eval vm_compute in snd revoked.
Definition row : Row := Eval vm_compute in row_of artifact.

Example published_artifact : fst (fst published) = Ok artifact.
Proof. vm_compute. reflexivity. Qed.
Example opened_bytes : match opened with (Ok (_, p), _, _) => p = "a,b" | _ => False end.
Proof. vm_compute. reflexivity. Qed.

Lemma history_t3 : exists a, history t0 [mkClaim "org" "id-1" "u-1" 20 a] t3.
Proof.
  eexists. eapply (h_claim t0 [] t1 "org" "id-1" "u-1" 20 (env0 20) 0%nat); [|done|vm_compute; reflexivity].
  assert (E : t1 = (mkTables [row] (dl_objects t1))) by reflexivity. rewrite E.
  apply (h_objects t0 [] (mkTables [row] ∅)).
  eapply (h_create t0 [] t0 artifact (env0 10) 0%nat); [constructor|vm_compute; reflexivity].
Qed.
End examples.

Theorem downloads_at_most_once_witness : NoDup ["id-1"].
Proof.
  destruct examples.history_t3 as [a H]. exact (downloads_at_most_once ∅ [mkClaim "org" "id-1" "u-1" 20 a] examples.t3 H).
Defined.

Theorem closed_tickets_stay_closed_witness :
  closed "id-1" examples.t4 /\ ("id-1" ∉ map cl_id []).
Proof.
  assert (C : closed "id-1" examples.t4).
  { split; [vm_compute; left|]. intros w Hw _. apply list_elem_of_singleton in Hw as ->. discriminate. }
  split; [done|]. refine (closed_tickets_stay_closed "id-1" examples.t4 [] examples.t4 C _). constructor.
Defined.

Theorem Open_delivers_the_artifact_witness :
  exists w, w ∈ dl_rows examples.t1 /\ closed (w_id w) examples.t2.
Proof.
  edestruct (Open_delivers_the_artifact examples.objects 1000 "org" "id-1" "u-1" (examples.env0 20) 0%nat
    examples.t1) as (w & k & H1 & _ & _ & _ & _ & _ & _ & _ & _ & _ & H2 & _).
  - done.
  - apply NoDup_singleton.
  - vm_compute. reflexivity.
  - by exists w.
Defined.

Theorem registries_agree_on_ready_tickets_witness :
  fst (memory.ClaimDownload "org" "id-1" "u-1" 20 {["id-1" := examples.artifact]}) =
  fst (fst (ClaimDownload "org" "id-1" "u-1" 20 (examples.env0 20) 0%nat examples.t1)).
Proof.
  apply (registries_agree_on_ready_tickets "org" "id-1" "u-1" 20 (examples.env0 20) 0%nat examples.t1 examples.row);
    [done|done|apply NoDup_singleton|left|reflexivity|reflexivity|reflexivity|reflexivity|discriminate|
     discriminate|reflexivity].
Defined.
