(* ===== verification/DataPolicy.v ===== *)
(** * Data policies and exports

    [internal/platform/security/datapolicy/policy.go] and [export.go],
    [internal/platform/security/masking], the tables of
    [internal/adapters/repository/data_policy.go] and the service of
    [internal/app/datapolicy].

    A [map[string]...] is a [gmap]; the CSV writer of the standard library is
    modelled with its default settings. *)

From S2P Require Import Prelude GoString GoTime Crypto Json Database Identity Download.

(** ** Masking *)
Module masking.
Definition stars (n : Z) : string := srepeat (Z.to_nat n) "*".

Definition Stars (v : string) : string :=
  if v =s "" then "" else stars (Z.min 8 (rune_count v)).
Definition Mobile (v : string) : string :=
  if slen v <? 7 then Stars v
  else stake 3 v +:+ "****" +:+ sdrop (String.length v - 4) v.
Definition IDCard (v : string) : string :=
  if slen v <? 8 then Stars v
  else stake 4 v +:+ stars (slen v - 8) +:+ sdrop (String.length v - 4) v.
Definition BankCard (v : string) : string :=
  if slen v <? 8 then Stars v
  else stake 4 v +:+ stars (slen v - 8) +:+ sdrop (String.length v - 4) v.
Definition Email (v : string) : string :=
  match IndexByte v "@" with
  | Some (S (S n)) => stake 1 v +:+ stars (Z.of_nat (S n)) +:+ sdrop (S (S n)) v
  | _ => Stars v
  end.
Definition Name (v : string) : string :=
  match runes v with
  | [] | [_] => "*"
  | r :: rest => encode_rune (rune_val r) +:+ stars (llen rest)
  end.
End masking.

(** ** Field policies *)

Definition ClassificationRestricted := "restricted".
Definition ClassificationPersonalInformation := "personal_information".
Definition classifications : list string :=
  ["public"; "internal"; "confidential"; ClassificationRestricted; ClassificationPersonalInformation;
   "important_data"].
Definition MaskNone := "none".
Definition masks : list string :=
  [MaskNone; "stars"; "mobile"; "id_card"; "bank_card"; "email"; "name"].

Record FieldPolicy := mkPolicy {
  f_Key : string;
  f_Classification : string;
  f_Owner : string;
  f_Purpose : string;
  f_Residency : string;
  f_RetentionDays : Z;
  f_Tags : list string;
  f_Mask : string;
  f_ExportApproval : bool;
  f_Watermark : bool
}.
#[export] Instance FieldPolicy_eta : Eta FieldPolicy := fun p =>
  mkPolicy (f_Key p) (f_Classification p) (f_Owner p) (f_Purpose p) (f_Residency p)
    (f_RetentionDays p) (f_Tags p) (f_Mask p) (f_ExportApproval p) (f_Watermark p).

Record ExportRequest := mkExportRequest { x_ApprovalID : string; x_Purpose : string; x_Watermark : string }.

Definition validClassification (value : string) : bool := contains classifications value.
Definition validMask (value : string) : bool := contains masks value.

Definition sensitive (classification : string) : bool :=
  (classification =s ClassificationPersonalInformation) || (classification =s ClassificationRestricted).

(** The body of the loop of [NewCatalog]. *)
Definition catalog_entry (fields : gmap string FieldPolicy) (policy : FieldPolicy) : result FieldPolicy :=
  let policy := policy <| f_Key := TrimSpace (f_Key policy) |> <| f_Owner := TrimSpace (f_Owner policy) |>
                       <| f_Purpose := TrimSpace (f_Purpose policy) |>
                       <| f_Residency := TrimSpace (f_Residency policy) |> in
  if (f_Key policy =s "") || (f_Owner policy =s "") || (f_Purpose policy =s "") || (f_Residency policy =s "")
  then Err (Errorf "data field policy requires key, owner, purpose and residency" [])
  else match fields !! f_Key policy with
  | Some _ => Err (Errorf "duplicate data field policy %q" [FStr (f_Key policy)])
  | None =>
    if f_RetentionDays policy <=? 0 then
      Err (Errorf "data field policy %q requires positive retention days" [FStr (f_Key policy)])
    else if negb (validClassification (f_Classification policy)) then
      Err (Errorf "data field policy %q has unknown classification" [FStr (f_Key policy)])
    else if sensitive (f_Classification policy) && (f_Mask policy =s MaskNone) then
      Err (Errorf "data field policy %q requires masking" [FStr (f_Key policy)])
    else
      let policy := if sensitive (f_Classification policy)
                    then policy <| f_ExportApproval := true |> <| f_Watermark := true |> else policy in
      if negb (validMask (f_Mask policy)) then
        Err (Errorf "data field policy %q has unknown mask strategy" [FStr (f_Key policy)])
      else Ok policy
  end.

Fixpoint catalog_loop (fields : gmap string FieldPolicy) (policies : list FieldPolicy)
  : result (gmap string FieldPolicy) :=
  match policies with
  | [] => Ok fields
  | policy :: rest =>
    policy ← catalog_entry fields policy;
    catalog_loop (<[f_Key policy := policy]> fields) rest
  end.

Notation Catalog := (gmap string FieldPolicy).
Definition NewCatalog (policies : list FieldPolicy) : result Catalog := catalog_loop ∅ policies.

Definition Policy (c : Catalog) (key : string) : result FieldPolicy :=
  match c !! TrimSpace key with
  | None => Err (Errorf "data field policy %q is not registered" [FStr key])
  | Some policy => Ok policy
  end.

Definition MaskValue (c : Catalog) (key value : string) : result string :=
  policy ← Policy c key;
  let m := f_Mask policy in
  if m =s MaskNone then Ok value
  else if m =s "stars" then Ok (masking.Stars value)
  else if m =s "mobile" then Ok (masking.Mobile value)
  else if m =s "id_card" then Ok (masking.IDCard value)
  else if m =s "bank_card" then Ok (masking.BankCard value)
  else if m =s "email" then Ok (masking.Email value)
  else if m =s "name" then Ok (masking.Name value)
  else Err (Errorf "data field policy %q has unsupported mask strategy" [FStr key]).

Fixpoint authorize_keys (c : Catalog) (keys : list string) (request : ExportRequest) : result unit :=
  match keys with
  | [] => Ok tt
  | key :: rest =>
    policy ← Policy c key;
    if f_ExportApproval policy && (TrimSpace (x_ApprovalID request) =s "") then
      Err (Errorf "data export for %q requires approval" [FStr key])
    else if f_Watermark policy && (TrimSpace (x_Watermark request) =s "") then
      Err (Errorf "data export for %q requires watermark" [FStr key])
    else authorize_keys c rest request
  end.

Definition AuthorizeExport (c : Catalog) (keys : list string) (request : ExportRequest) : result unit :=
  if TrimSpace (x_Purpose request) =s "" then Err (Errorf "data export purpose is required" [])
  else authorize_keys c keys request.

(** ** Exports *)

Definition ExportFormatJSON := "json".
Definition ExportFormatCSV := "csv".
Definition DefaultExportMaxRows : Z := 5000.
Definition MaximumExportMaxRows : Z := 100000.

Definition ErrNoExportFields := Sentinel "datapolicy.ErrNoExportFields".
Definition ErrInvalidExportFormat := Sentinel "datapolicy.ErrInvalidExportFormat".
Definition ErrExportRowLimit := Sentinel "datapolicy.ErrExportRowLimit".
Definition ErrExportFieldMissing := Sentinel "datapolicy.ErrExportFieldMissing".
Definition ErrDuplicateExportField := Sentinel "datapolicy.ErrDuplicateExportField".

Record ExportOptions := mkOptions {
  o_Fields : list string;
  o_Purpose : string;
  o_ApprovalID : string;
  o_Watermark : string;
  o_Format : string;
  o_MaxRows : Z
}.
Definition ExportRow := gmap string string.

Record ExportArtifact := mkExport {
  ea_Content : string;
  ea_ContentType : string;
  ea_Format : string;
  ea_Fields : list string;
  ea_RowCount : Z;
  ea_Watermark : string;
  ea_SHA256 : string
}.

Fixpoint normalize_fields (seen : list string) (fields : list string) : result (list string) :=
  match fields with
  | [] => Ok []
  | field :: rest =>
    let field := TrimSpace field in
    if field =s "" then Err ErrNoExportFields
    else if contains seen field then Err (Wrapf "%w: %q" [FStr field] ErrDuplicateExportField)
    else
      normalized ← normalize_fields (field :: seen) rest;
      Ok (field :: normalized)
  end.

Definition normalizeExportFields (fields : list string) : result (list string) :=
  if llen fields =? 0 then Err ErrNoExportFields else normalize_fields [] fields.

(** One row of the export: the requested fields, masked. *)
Fixpoint render_row (c : Catalog) (rowIndex : Z) (row : ExportRow) (fields : list string)
  : result (list string) :=
  match fields with
  | [] => Ok []
  | field :: rest =>
    match row !! field with
    | None => Err (Wrapf "%w: field %q at row %d" [FStr field; FInt rowIndex] ErrExportFieldMissing)
    | Some value =>
      masked ← MaskValue c field value;
      values ← render_row c rowIndex row rest;
      Ok (masked :: values)
    end
  end.

Fixpoint render_rows (c : Catalog) (rowIndex : Z) (rows : list ExportRow) (fields : list string)
  : result (list (list string)) :=
  match rows with
  | [] => Ok []
  | row :: rest =>
    values ← render_row c rowIndex row fields;
    more ← render_rows c (rowIndex + 1) rest fields;
    Ok (values :: more)
  end.

Definition sanitizeCSVCell (value : string) : string :=
  let trimmed := TrimLeftFunc (fun r => IsSpace r || (r =? 65279)) value in
  match trimmed with
  | EmptyString => value
  | String c _ => if ContainsAny (String c "") "=+-@" then String "'" value else value
  end.

(** [encoding/csv]: a field is quoted when it holds a separator, a quote or a
    line break, when it starts with a space, or when it is the end-of-data mark
    of PostgreSQL; a quote inside is doubled. *)
Definition fieldNeedsQuotes (field : string) : bool :=
  if field =s "" then false
  else if field =s String backslash "." then true
  else if ContainsAny field (String "010" (String "013" (String quote ","))) then true
  else match runes field with r :: _ => IsSpace (rune_val r) | [] => false end.

Fixpoint double_quotes (s : string) : string :=
  match s with
  | EmptyString => ""
  | String c rest => if Ascii.eqb c quote then String quote (String quote (double_quotes rest))
                     else String c (double_quotes rest)
  end.

Definition csv_field (field : string) : string :=
  if fieldNeedsQuotes field then String quote (double_quotes field +:+ str1 quote) else field.

Definition csv_record (record : list string) : string :=
  joined (map csv_field record) +:+ str1 "010".

Fixpoint concat_strings (l : list string) : string :=
  match l with [] => "" | s :: rest => s +:+ concat_strings rest end.

Definition renderExportContent (format : string) (fields : list string) (rows : list (list string))
    (watermark : string) : string * string :=
  if format =s ExportFormatJSON then
    (Marshal (JObj ([("fields", JArr (map JStr fields)); ("rows", JArr (map (fun r => JArr (map JStr r)) rows))] ++
                    (if watermark =s "" then [] else [("watermark", JStr watermark)]))),
     "application/json; charset=utf-8")
  else
    (concat_strings (csv_record (map sanitizeCSVCell (fields ++ ["watermark"])) ::
       map (fun row => csv_record (map sanitizeCSVCell (row ++ [watermark]))) rows),
     "text/csv; charset=utf-8").

Definition RenderExport (c : Catalog) (options : ExportOptions) (rows : list ExportRow)
  : result ExportArtifact :=
  fields ← normalizeExportFields (o_Fields options);
  let format := if o_Format options =s "" then ExportFormatJSON else o_Format options in
  if (format <>s ExportFormatJSON) && (format <>s ExportFormatCSV) then Err ErrInvalidExportFormat
  else
    let maxRows := if o_MaxRows options =? 0 then DefaultExportMaxRows else o_MaxRows options in
    if (maxRows <? 1) || (MaximumExportMaxRows <? maxRows) then
      Err (Wrapf "%w: must be between 1 and %d" [FInt MaximumExportMaxRows] ErrExportRowLimit)
    else if maxRows <? llen rows then
      Err (Wrapf "%w: got %d, maximum %d" [FInt (llen rows); FInt maxRows] ErrExportRowLimit)
    else
      _ ← AuthorizeExport c fields (mkExportRequest (o_ApprovalID options) (o_Purpose options) (o_Watermark options));
      values ← render_rows c 0 rows fields;
      let '(content, contentType) := renderExportContent format fields values (o_Watermark options) in
      Ok (mkExport content contentType format fields (llen values) (o_Watermark options) (Sum256hex content)).

Definition ExportExpiry (now : Time) (lifetime : Duration) : result Time :=
  if IsZero now || (lifetime <=? 0) then
    Err (Errorf "export expiry requires a valid time and positive lifetime" [])
  else Ok (timeAdd (UTC now) lifetime).

(** ** The tables *)

Record PolicyRow := mkPolicyRow {
  q_id : string;
  q_organization_id : string;
  q_field_key : string;
  q_classification : string;
  q_owner : string;
  q_purpose : string;
  q_residency : string;
  q_retention_days : Z;
  q_tags_json : string;
  q_mask_strategy : string;
  q_export_approval : bool;
  q_watermark : bool;
  q_created_at : Time;
  q_updated_at : Time
}.
#[export] Instance PolicyRow_eta : Eta PolicyRow := fun q =>
  mkPolicyRow (q_id q) (q_organization_id q) (q_field_key q) (q_classification q) (q_owner q)
    (q_purpose q) (q_residency q) (q_retention_days q) (q_tags_json q) (q_mask_strategy q)
    (q_export_approval q) (q_watermark q) (q_created_at q) (q_updated_at q).

(** [Record], with its embedded policy. *)
Record PolicyRecord := mkRecord {
  pr_ID : string; pr_OrganizationID : string; pr_FieldPolicy : FieldPolicy;
  pr_CreatedAt : Time; pr_UpdatedAt : Time
}.

Record DeletionEvidence := mkEvidence {
  d_ID : string;
  d_OrganizationID : string;
  d_ResourceType : string;
  d_ResourceDigest : string;
  d_FieldKeys : list string;
  d_Reason : string;
  d_RecordsDeleted : Z;
  d_DeletedAt : Time;
  d_EvidenceHash : string;
  d_CreatedAt : Time
}.
#[export] Instance DeletionEvidence_eta : Eta DeletionEvidence := fun d =>
  mkEvidence (d_ID d) (d_OrganizationID d) (d_ResourceType d) (d_ResourceDigest d) (d_FieldKeys d)
    (d_Reason d) (d_RecordsDeleted d) (d_DeletedAt d) (d_EvidenceHash d) (d_CreatedAt d).

(** A row of [data_deletion_evidence]: the evidence with its keys as JSON. *)
Record EvidenceRow := mkEvidenceRow { ev_evidence : DeletionEvidence; ev_field_keys_json : string }.

Record Tables (O : Type) := mkTables {
  dp_policies : list PolicyRow;
  dp_evidence : list EvidenceRow;
  dp_downloads : Download.Tables O
}.
Arguments mkTables {O}.
Arguments dp_policies {O}.
Arguments dp_evidence {O}.
Arguments dp_downloads {O}.
#[export] Instance Tables_eta O : Eta (Tables O) := fun t =>
  mkTables (dp_policies t) (dp_evidence t) (dp_downloads t).

Definition row_policy (tags : list string) (q : PolicyRow) : FieldPolicy :=
  mkPolicy (q_field_key q) (q_classification q) (q_owner q) (q_purpose q) (q_residency q)
    (q_retention_days q) tags (q_mask_strategy q) (q_export_approval q) (q_watermark q).

Definition scanDataPolicy (q : PolicyRow) : result PolicyRecord :=
  match unmarshal_strings (q_tags_json q) with
  | None => Err (Wrapf "decode data policy tags: %w" [] (Errorf "json" []))
  | Some tags => Ok (mkRecord (q_id q) (q_organization_id q) (row_policy tags q) (q_created_at q) (q_updated_at q))
  end.

Definition scanDeletionEvidence (r : EvidenceRow) : result DeletionEvidence :=
  match unmarshal_strings (ev_field_keys_json r) with
  | None => Err (Wrapf "decode deletion evidence fields: %w" [] (Errorf "json" []))
  | Some keys => Ok ((ev_evidence r) <| d_FieldKeys := keys |>)
  end.

Definition policy_key (org key : string) (q : PolicyRow) : bool :=
  (q_organization_id q =s org) && (q_field_key q =s key).
Definition policy_id (org id : string) (q : PolicyRow) : bool :=
  (q_id q =s id) && (q_organization_id q =s org).

Definition update_policy (p : FieldPolicy) (tagsJSON : string) (now : Time) (q : PolicyRow) : PolicyRow :=
  mkPolicyRow (q_id q) (q_organization_id q) (q_field_key q) (f_Classification p) (f_Owner p)
    (f_Purpose p) (f_Residency p) (f_RetentionDays p) tagsJSON (f_Mask p) (f_ExportApproval p)
    (f_Watermark p) (q_created_at q) now.
Definition new_policy (id org : string) (p : FieldPolicy) (tagsJSON : string) (now : Time) : PolicyRow :=
  mkPolicyRow id org (f_Key p) (f_Classification p) (f_Owner p) (f_Purpose p) (f_Residency p)
    (f_RetentionDays p) tagsJSON (f_Mask p) (f_ExportApproval p) (f_Watermark p) now now.

Definition ErrInvalidPolicy := Sentinel "app/datapolicy.ErrInvalidPolicy".
Definition ErrServiceNoExportFields := Sentinel "app/datapolicy.ErrNoExportFields".
Definition ErrOrganizationRequired := Sentinel "app/datapolicy.ErrOrganizationRequired".
Definition ErrExportDownloadUnavailable := Sentinel "app/datapolicy.ErrExportDownloadUnavailable".
Definition ErrExportActorRequired := Sentinel "app/datapolicy.ErrExportActorRequired".

Section service.
Context {O : Type}.
Notation M := (M (Tables O)).

(** *** The repository *)

Definition repo_List (org : string) : M (list PolicyRecord) :=
  rows ← query (fun t => order_by (fun x y => str_le (q_field_key x) (q_field_key y))
                           (select (fun q => q_organization_id q =s org) (dp_policies t)));
  lift (result_mapM scanDataPolicy rows).

Definition insert_policy (q : PolicyRow) (t : Tables O) : result (unit * Tables O) :=
  if existsb (fun x => (q_id x =s q_id q) || policy_key (q_organization_id q) (q_field_key q) x) (dp_policies t)
  then Err ErrDuplicate
  else Ok (tt, t <| dp_policies := dp_policies t ++ [q] |>).

Definition repo_Upsert (org : string) (policy : FieldPolicy) : M PolicyRecord :=
  let tagsJSON := marshal_strings (f_Tags policy) in
  at_ ← now;
  let at_ := UTC at_ in
  WithTx (
    found ← attempt (queryR (fun t => select_row (policy_key org (f_Key policy)) (dp_policies t)));
    id ← (match found with
          | Ok q =>
            _ ← exec (fun t => t <| dp_policies := update_where (policy_id org (q_id q))
                                 (update_policy policy tagsJSON at_) (dp_policies t) |>);
            mret (q_id q)
          | Err e =>
            if bool_decide (e = ErrNoRows) then
              id ← NewString;
              _ ← stmt (insert_policy (new_policy id org policy tagsJSON at_));
              mret id
            else fail e
          end);
    q ← queryR (fun t => select_row (policy_id org id) (dp_policies t));
    lift (scanDataPolicy q)).

Definition repo_ListDeletionEvidence (org : string) : M (list DeletionEvidence) :=
  rows ← query (fun t => take 200 (order_by (fun x y =>
            let x := ev_evidence x in let y := ev_evidence y in
            (d_CreatedAt y <? d_CreatedAt x) || ((d_CreatedAt x =? d_CreatedAt y) && str_le (d_ID y) (d_ID x)))
          (select (fun r => d_OrganizationID (ev_evidence r) =s org) (dp_evidence t))));
  lift (result_mapM scanDeletionEvidence rows).

Definition insert_evidence (d : DeletionEvidence) (t : Tables O) : result (unit * Tables O) :=
  if existsb (fun r => (d_ID (ev_evidence r) =s d_ID d) ||
                       ((d_OrganizationID (ev_evidence r) =s d_OrganizationID d) &&
                        (d_EvidenceHash (ev_evidence r) =s d_EvidenceHash d))) (dp_evidence t)
  then Err ErrDuplicate
  else Ok (tt, t <| dp_evidence := dp_evidence t ++ [mkEvidenceRow d (marshal_strings (d_FieldKeys d))] |>).

Definition repo_RecordDeletionEvidence (evidence : DeletionEvidence) : M DeletionEvidence :=
  _ ← stmt (insert_evidence evidence);
  mret evidence.

(** *** The service *)

Definition normalize (policy : FieldPolicy) : FieldPolicy :=
  policy <| f_Key := TrimSpace (f_Key policy) |> <| f_Owner := TrimSpace (f_Owner policy) |>
         <| f_Purpose := TrimSpace (f_Purpose policy) |> <| f_Residency := TrimSpace (f_Residency policy) |>
         <| f_Mask := TrimSpace (f_Mask policy) |>
         <| f_Tags := List.filter (fun tag => tag <>s "") (map TrimSpace (f_Tags policy)) |>.

Fixpoint unique_keys (seen : list string) (keys : list string) : list string :=
  match keys with
  | [] => []
  | key :: rest =>
    let key := TrimSpace key in
    if key =s "" then unique_keys seen rest
    else if contains seen key then unique_keys seen rest
    else key :: unique_keys (key :: seen) rest
  end.

Definition normalizeEvidence (evidence : DeletionEvidence) : DeletionEvidence :=
  evidence <| d_ResourceType := TrimSpace (d_ResourceType evidence) |>
           <| d_ResourceDigest := ToLower (TrimSpace (d_ResourceDigest evidence)) |>
           <| d_Reason := TrimSpace (d_Reason evidence) |>
           <| d_FieldKeys := unique_keys [] (d_FieldKeys evidence) |>.

Definition Validate (policy : FieldPolicy) : result unit :=
  match NewCatalog [normalize policy] with
  | Ok _ => Ok tt
  | Err e => Err (Join ErrInvalidPolicy e)
  end.

Definition List_ (actor : Principal) : M (list PolicyRecord) :=
  _ ← guard_not (p_OrganizationID actor =s "") ErrOrganizationRequired;
  repo_List (p_OrganizationID actor).

Definition Upsert (actor : Principal) (policy : FieldPolicy) : M PolicyRecord :=
  _ ← guard_not (p_OrganizationID actor =s "") ErrOrganizationRequired;
  let policy := normalize policy in
  _ ← lift (Validate policy);
  repo_Upsert (p_OrganizationID actor) policy.

Definition catalog (org : string) : M Catalog :=
  records ← repo_List org;
  lift (NewCatalog (map pr_FieldPolicy records)).

Definition service_AuthorizeExport (actor : Principal) (keys : list string) (request : ExportRequest) : M unit :=
  _ ← guard_not (p_OrganizationID actor =s "") ErrOrganizationRequired;
  _ ← guard_not (llen keys =? 0) ErrServiceNoExportFields;
  c ← catalog (p_OrganizationID actor);
  lift (AuthorizeExport c (map TrimSpace keys) request).

Definition service_RenderExport (actor : Principal) (options : ExportOptions) (rows : list ExportRow)
  : M ExportArtifact :=
  _ ← guard_not (p_OrganizationID actor =s "") ErrOrganizationRequired;
  c ← catalog (p_OrganizationID actor);
  lift (RenderExport c options rows).

(** The download controller, when one is configured, works on its own tables. *)
Definition downloads {A} (m : Database.M (Download.Tables O) A) : M A :=
  zoom dp_downloads (fun d t => t <| dp_downloads := d |>) m.

Context (controller : option (ArtifactObjectStore (O := O) * Z)).

Definition with_controller {A} (actor : Principal) (needs_user : bool)
    (k : ArtifactObjectStore (O := O) -> Z -> M A) : M A :=
  _ ← guard_not (p_OrganizationID actor =s "") ErrOrganizationRequired;
  _ ← guard_not (needs_user && (p_UserID actor =s "")) ErrExportActorRequired;
  match controller with
  | None => fail ErrExportDownloadUnavailable
  | Some (objects, maxBytes) => k objects maxBytes
  end.

Definition PublishExport (actor : Principal) (options : ExportOptions) (rows : list ExportRow) (expiresAt : Time)
  : M DownloadArtifact :=
  with_controller actor true (fun objects maxBytes =>
    artifact ← service_RenderExport actor options rows;
    downloads (Publish objects maxBytes (p_OrganizationID actor) (p_UserID actor) (o_ApprovalID options)
      (ea_ContentType artifact) (ea_Content artifact) expiresAt)).

Definition OpenExport (actor : Principal) (artifactID : string) : M (DownloadArtifact * string) :=
  with_controller actor true (fun objects maxBytes =>
    downloads (Open_ objects maxBytes (p_OrganizationID actor) artifactID (p_UserID actor))).

Definition RevokeExport (actor : Principal) (artifactID reason : string) : M unit :=
  with_controller actor true (fun objects _ =>
    downloads (controller_Revoke objects (p_OrganizationID actor) artifactID (p_UserID actor) reason)).

Definition RevokeExportState (actor : Principal) (artifactID reason : string) : M unit :=
  with_controller actor true (fun _ _ =>
    _ ← downloads (RevokeState (p_OrganizationID actor) artifactID (p_UserID actor) reason); mret tt).

Definition CleanupExport (actor : Principal) (artifactID : string) : M unit :=
  with_controller actor false (fun objects _ =>
    downloads (Cleanup objects (p_OrganizationID actor) artifactID)).

(** *** Deletion evidence *)

Definition ListDeletionEvidence (actor : Principal) : M (list DeletionEvidence) :=
  _ ← guard_not (p_OrganizationID actor =s "") ErrOrganizationRequired;
  repo_ListDeletionEvidence (p_OrganizationID actor).

(** The size and emptiness checks; the instant is the last but one of the
    operands of the code, evaluated once here. *)
Definition evidence_invalid (evidence : DeletionEvidence) (now : Time) : bool :=
  (d_ResourceType evidence =s "") || (160 <? slen (d_ResourceType evidence)) ||
  negb (slen (d_ResourceDigest evidence) =? 64) || (d_Reason evidence =s "") ||
  (500 <? slen (d_Reason evidence)) || (d_RecordsDeleted evidence <? 0) ||
  IsZero (d_DeletedAt evidence) || After (d_DeletedAt evidence) (timeAdd (UTC now) (5 * Minute)) ||
  (llen (d_FieldKeys evidence) =? 0).

Fixpoint registered (c : Catalog) (keys : list string) : result unit :=
  match keys with
  | [] => Ok tt
  | key :: rest => _ ← Policy c key; registered c rest
  end.

Definition ValidateDeletionEvidence (actor : Principal) (evidence : DeletionEvidence) : M unit :=
  _ ← guard_not (p_OrganizationID actor =s "") ErrOrganizationRequired;
  let evidence := normalizeEvidence evidence in
  at_ ← now;
  _ ← guard_not (evidence_invalid evidence at_) ErrInvalidPolicy;
  _ ← guard_not (match DecodeString (d_ResourceDigest evidence) with None => true | Some _ => false end)
        ErrInvalidPolicy;
  c ← catalog (p_OrganizationID actor);
  lift (registered c (d_FieldKeys evidence)).

Definition evidence_payload (d : DeletionEvidence) : string :=
  Marshal (JArr [JStr (d_OrganizationID d); JStr (d_ResourceType d); JStr (d_ResourceDigest d);
                 JArr (map JStr (d_FieldKeys d)); JStr (d_Reason d); JNum (Itoa (d_RecordsDeleted d));
                 JStr (RFC3339Nano (UTC (d_DeletedAt d))); JStr (d_ID d)]).

Definition RecordDeletionEvidence (actor : Principal) (evidence : DeletionEvidence) : M DeletionEvidence :=
  let evidence := normalizeEvidence evidence in
  _ ← ValidateDeletionEvidence actor evidence;
  id ← NewString;
  at_ ← now;
  let evidence := evidence <| d_ID := id |> <| d_OrganizationID := p_OrganizationID actor |>
                           <| d_CreatedAt := UTC at_ |> in
  let evidence := evidence <| d_EvidenceHash := Sum256hex (evidence_payload evidence) |> in
  repo_RecordDeletionEvidence evidence.
End service.

(** ** Catalogs *)

Record policy_wf (key : string) (p : FieldPolicy) : Prop := {
  pw_key : f_Key p = key;
  pw_required : f_Owner p <> "" /\ f_Purpose p <> "" /\ f_Residency p <> "" /\ key <> "";
  pw_retention : 0 < f_RetentionDays p;
  pw_classification : f_Classification p ∈ classifications;
  pw_mask : f_Mask p ∈ masks;
  pw_sensitive : sensitive (f_Classification p) = true ->
    f_Mask p <> MaskNone /\ f_ExportApproval p = true /\ f_Watermark p = true
}.

Lemma catalog_entry_ok fields policy p :
  catalog_entry fields policy = Ok p ->
  f_Key p = TrimSpace (f_Key policy) /\ fields !! f_Key p = None /\ policy_wf (f_Key p) p.
Proof.
  unfold catalog_entry. intros H. set (q := policy <| f_Key := _ |> <| f_Owner := _ |> <| f_Purpose := _ |>
    <| f_Residency := _ |>) in H.
  destruct ((f_Key q =s "") || _ || _ || _) eqn:Rq; [discriminate|]. destruct (fields !! f_Key q) eqn:Fr; [discriminate|].
  destruct (f_RetentionDays q <=? 0) eqn:Re; [discriminate|].
  destruct (negb (validClassification _)) eqn:Vc; [discriminate|].
  destruct (sensitive (f_Classification q)) eqn:Se; cbn [andb] in H.
  - destruct (f_Mask q =s MaskNone) eqn:Mn; [discriminate|].
    destruct (negb (validMask _)) eqn:Vm; [discriminate|]. injection H as <-. breflect.
    unfold validClassification, validMask in *. rewrite contains_spec in Vc, Vm.
    split; [done|]. split; [done|]. constructor; try done. all: cbn; (lia || done).
  - destruct (negb (validMask _)) eqn:Vm; [discriminate|]. injection H as <-. breflect.
    unfold validClassification, validMask in *. rewrite contains_spec in Vc, Vm.
    split; [done|]. split; [done|]. constructor; try done. congruence.
Qed.

Definition catalog_wf (c : Catalog) : Prop := forall key p, c !! key = Some p -> policy_wf key p.

Lemma catalog_loop_wf fields policies c :
  catalog_wf fields -> catalog_loop fields policies = Ok c -> catalog_wf c.
Proof.
  revert fields. induction policies as [|policy rest IH]; intros fields W H; cbn in H; [by injection H as <-|].
  apply result_bind_ok in H as (p & E & H). apply catalog_entry_ok in E as (_ & _ & P).
  apply IH in H; [done|]. intros key q Hq. destruct (decide (f_Key p = key)) as [<-|N].
  - rewrite lookup_insert_eq in Hq. by injection Hq as <-.
  - rewrite lookup_insert_ne in Hq by done. by apply W.
Qed.

Lemma NewCatalog_wf policies c : NewCatalog policies = Ok c -> catalog_wf c.
Proof. apply catalog_loop_wf. intros key p H. by rewrite lookup_empty in H. Qed.

Lemma Policy_ok c key p : Policy c key = Ok p <-> c !! TrimSpace key = Some p.
Proof. unfold Policy. destruct (c !! TrimSpace key); split; congruence. Qed.

(** A registered field always has a mask. *)
Lemma MaskValue_total c key p value :
  catalog_wf c -> c !! TrimSpace key = Some p -> is_ok (MaskValue c key value) = true.
Proof.
  intros W H. unfold MaskValue. assert (E : Policy c key = Ok p) by (by apply Policy_ok).
  rewrite E. cbn [mbind result_bind]. pose proof (pw_mask _ _ (W _ _ H)) as M.
  unfold masks in M. repeat (apply elem_of_cons in M as [M|M]; [rewrite M; reflexivity|]). inversion M.
Qed.

(** ** Exports *)

Lemma normalize_fields_ok seen fields out :
  normalize_fields seen fields = Ok out ->
  out = map TrimSpace fields /\ NoDup out /\ (forall f, f ∈ out -> f <> "" /\ f ∉ seen).
Proof.
  revert seen out. induction fields as [|f fields IH]; intros seen out H; cbn in H.
  - injection H as <-. split_and!; [done|constructor|]. intros f Hf. inversion Hf.
  - destruct (TrimSpace f =s "") eqn:B; [discriminate|]. destruct (contains seen (TrimSpace f)) eqn:S; [discriminate|].
    apply result_bind_ok in H as (rest & H & [= <-]). apply IH in H as (-> & N & F). breflect.
    apply contains_false in S. split_and!; [done| |].
    + constructor; [|done]. intros Hin. apply F in Hin as [_ Hin]. apply Hin. by left.
    + intros g Hg. apply elem_of_cons in Hg as [->|Hg]; [done|]. apply F in Hg as [? Hg].
      split; [done|]. set_solver.
Qed.

Lemma authorize_keys_ok c keys request :
  authorize_keys c keys request = Ok tt ->
  forall key, key ∈ keys -> exists p, c !! TrimSpace key = Some p /\
    (f_ExportApproval p = true -> TrimSpace (x_ApprovalID request) <> "") /\
    (f_Watermark p = true -> TrimSpace (x_Watermark request) <> "").
Proof.
  induction keys as [|k keys IH]; intros H key Hk; [inversion Hk|]. cbn in H.
  apply result_bind_ok in H as (p & P & H). apply Policy_ok in P.
  destruct (f_ExportApproval p && _) eqn:A; [discriminate|]. destruct (f_Watermark p && _) eqn:W; [discriminate|].
  apply elem_of_cons in Hk as [->|Hk]; [|by apply IH].
  exists p. split; [done|]. split; intros E; rewrite E in *; cbn [andb] in *; by breflect.
Qed.

Lemma render_row_ok c i row fields cells :
  render_row c i row fields = Ok cells ->
  Forall2 (fun field cell => exists v, row !! field = Some v /\ MaskValue c field v = Ok cell) fields cells.
Proof.
  revert cells. induction fields as [|f fields IH]; intros cells H; cbn in H; [injection H as <-; constructor|].
  destruct (row !! f) as [v|] eqn:E; [|discriminate]. apply result_bind_ok in H as (m & M & H).
  apply result_bind_ok in H as (rest & H & [= <-]). constructor; [by exists v|auto].
Qed.

Lemma render_rows_ok c i rows fields values :
  render_rows c i rows fields = Ok values ->
  Forall2 (fun row cells =>
    Forall2 (fun field cell => exists v, row !! field = Some v /\ MaskValue c field v = Ok cell) fields cells)
    rows values.
Proof.
  revert i values. induction rows as [|r rows IH]; intros i values H; cbn in H; [injection H as <-; constructor|].
  apply result_bind_ok in H as (cells & C & H). apply result_bind_ok in H as (rest & H & [= <-]).
  constructor; [by eapply render_row_ok|by eapply IH].
Qed.

(** C15. An export discloses only what the catalog allows: the purpose is given,
    the fields are distinct and registered, every cell is the field's value
    through the field's mask, a restricted or personal field is masked and
    requires an approval and a watermark, and the row limit holds. *)
Theorem exports_are_governed policies c options rows artifact :
  NewCatalog policies = Ok c -> RenderExport c options rows = Ok artifact ->
  TrimSpace (o_Purpose options) <> "" /\ NoDup (ea_Fields artifact) /\
  ea_RowCount artifact = llen rows /\ llen rows <= MaximumExportMaxRows /\
  ea_SHA256 artifact = Sum256hex (ea_Content artifact) /\
  (forall field, field ∈ ea_Fields artifact -> exists p, c !! field = Some p /\
     (f_ExportApproval p = true -> TrimSpace (o_ApprovalID options) <> "") /\
     (f_Watermark p = true -> TrimSpace (o_Watermark options) <> "") /\
     (sensitive (f_Classification p) = true ->
      f_Mask p <> MaskNone /\ TrimSpace (o_ApprovalID options) <> "" /\ TrimSpace (o_Watermark options) <> "")) /\
  exists values,
    (ea_Content artifact, ea_ContentType artifact) =
      renderExportContent (ea_Format artifact) (ea_Fields artifact) values (o_Watermark options) /\
    Forall2 (fun row cells => Forall2 (fun field cell =>
      exists v, row !! field = Some v /\ MaskValue c field v = Ok cell) (ea_Fields artifact) cells) rows values.
Proof.
  intros C H. apply NewCatalog_wf in C. unfold RenderExport in H.
  apply result_bind_ok in H as (fields & F & H).
  unfold normalizeExportFields in F. destruct (llen (o_Fields options) =? 0); [discriminate|].
  apply normalize_fields_ok in F as (Ef & N & Fr).
  destruct (_ && _); [discriminate|]. destruct (_ || _) eqn:Rg; [discriminate|].
  destruct (_ <? llen rows) eqn:Lim; [discriminate|].
  apply result_bind_ok in H as ([] & A & H). apply result_bind_ok in H as (values & V & H).
  unfold AuthorizeExport in A. cbn [x_Purpose] in A. destruct (TrimSpace (o_Purpose options) =s "") eqn:P; [discriminate|].
  destruct (renderExportContent _ fields values _) as [content contentType] eqn:R. injection H as <-. cbn.
  apply render_rows_ok in V. orsplit. breflect. split_and!; try done.
  - apply Forall2_length in V. unfold llen. lia.
  - lia.
  - intros field Hf. destruct (authorize_keys_ok _ _ _ A field Hf) as (p & Hp & Ap & Wm).
    assert (TrimSpace field = field) as Tf.
    { rewrite Ef in Hf. apply list_elem_of_fmap in Hf as (x & -> & _). apply TrimSpace_idem. }
    rewrite Tf in Hp. exists p. split_and!; try done. intros S.
    destruct (pw_sensitive _ _ (C _ _ Hp) S) as (? & ? & ?). auto.
  - exists values. done.
Qed.

(** ** Spreadsheet formulas *)

Definition csv_space (r : Z) : bool := IsSpace r || (r =? 65279).
Definition formula_start (c : ascii) : bool := ContainsAny (String c "") "=+-@".

(** No exported cell is a spreadsheet formula: after the spaces and byte
    order marks a spreadsheet skips, it does not begin with [=], [+], [-] or
    [@]. *)
Theorem csv_cells_are_not_formulas value :
  match TrimLeftFunc csv_space (sanitizeCSVCell value) with
  | EmptyString => True
  | String c _ => formula_start c = false
  end.
Proof.
  unfold sanitizeCSVCell. fold csv_space. destruct (TrimLeftFunc csv_space value) as [|c rest] eqn:T.
  - by rewrite T.
  - fold (formula_start c). destruct (formula_start c) eqn:F; [|by rewrite T, F].
    assert (E : TrimLeftFunc csv_space (String "'" value) = String "'" value).
    { unfold TrimLeftFunc. rewrite runes_step. change (decode_step "'" value) with (Rune 39 "'", value).
      cbn [fst snd drop_while]. change (csv_space (rune_val (Rune 39 "'"))) with false. cbv iota.
      cbn [unrunes rune_bytes]. by rewrite unrunes_runes. }
    by rewrite E.
Qed.

(** ** What the masks disclose *)

Lemma stake_sdrop_full n v :
  (String.length v = n + 4)%nat -> stake n v +:+ sdrop (String.length v - 4) v = v.
Proof. intros H. replace (String.length v - 4)%nat with n by lia. apply stake_sdrop. Qed.

(** The masks of identity and bank card numbers keep four bytes at each end,
    so they disclose a value of eight bytes entirely; the mask of mobile numbers
    keeps three and four, all of a value of seven bytes. *)
Theorem short_identifiers_are_disclosed v :
  (slen v = 8 -> masking.IDCard v = v /\ masking.BankCard v = v) /\
  (slen v = 7 -> masking.Mobile v = stake 3 v +:+ "****" +:+ sdrop 3 v).
Proof.
  unfold masking.IDCard, masking.BankCard, masking.Mobile. split; intros H; rewrite H.
  - change (8 <? 8) with false. change (masking.stars (8 - 8)) with "". cbv iota.
    rewrite append_nil. unfold slen in H. rewrite stake_sdrop_full by lia. done.
  - change (7 <? 7) with false. cbv iota. unfold slen in H.
    by replace (String.length v - 4)%nat with 3%nat by lia.
Qed.

(** ** Stored policies *)

#[local] Arguments sensitive : simpl never.
#[local] Arguments validClassification : simpl never.
#[local] Arguments validMask : simpl never.

(** What [catalog_entry] asks of a policy, apart from its key being new. *)
Definition entry_valid (p : FieldPolicy) : bool :=
  negb ((TrimSpace (f_Key p) =s "") || (TrimSpace (f_Owner p) =s "") || (TrimSpace (f_Purpose p) =s "") ||
        (TrimSpace (f_Residency p) =s "")) && (0 <? f_RetentionDays p) &&
  validClassification (f_Classification p) &&
  negb (sensitive (f_Classification p) && (f_Mask p =s MaskNone)) && validMask (f_Mask p).

Lemma catalog_entry_valid fields p :
  fields !! TrimSpace (f_Key p) = None ->
  match catalog_entry fields p with
  | Ok q => entry_valid p = true /\ f_Key q = TrimSpace (f_Key p)
  | Err _ => entry_valid p = false
  end.
Proof.
  intros F. unfold catalog_entry, entry_valid. cbn. rewrite F.
  destruct ((TrimSpace (f_Key p) =s "") || _ || _ || _); [done|].
  rewrite (Z.leb_antisym 0 (f_RetentionDays p)). destruct (0 <? f_RetentionDays p); [|done]. cbn [negb andb].
  destruct (validClassification _); [|done]. destruct (sensitive _); cbn [andb negb].
  - destruct (f_Mask p =s MaskNone); [done|]. cbn. destruct (validMask (f_Mask p)); done.
  - cbn. destruct (validMask (f_Mask p)); done.
Qed.

Lemma catalog_loop_valid fields ps :
  Forall (fun p => entry_valid p = true) ps -> NoDup (map (fun p => TrimSpace (f_Key p)) ps) ->
  (forall p, p ∈ ps -> fields !! TrimSpace (f_Key p) = None) -> is_ok (catalog_loop fields ps) = true.
Proof.
  revert fields. induction ps as [|p ps IH]; intros fields V N F; [done|]. cbn [catalog_loop].
  apply Forall_cons in V as [Vp V]. cbn in N. apply NoDup_cons in N as [Np N].
  pose proof (catalog_entry_valid fields p (F p ltac:(left))) as E.
  destruct (catalog_entry fields p) as [q|]; [|congruence]. destruct E as [_ E]. cbn [mbind result_bind].
  apply IH; [done..|]. intros r Hr. rewrite E. rewrite lookup_insert_ne; [apply F; by right|].
  intros Eq. apply Np. rewrite Eq. apply list_elem_of_fmap. by exists r.
Qed.

Section stored.
Context {O : Type}.
Implicit Types t : Tables O.

Record stored (t : Tables O) : Prop := {
  s_valid : Forall (fun q => entry_valid (row_policy [] q) = true /\ TrimSpace (q_field_key q) = q_field_key q)
              (dp_policies t);
  s_unique : NoDup (map (fun q => (q_organization_id q, q_field_key q)) (dp_policies t))
}.

Lemma normalize_valid p :
  Validate (normalize p) = Ok tt ->
  entry_valid (normalize p) = true /\ TrimSpace (f_Key (normalize p)) = f_Key (normalize p).
Proof.
  unfold Validate, NewCatalog. cbn [catalog_loop]. intros H. split; [|apply TrimSpace_idem].
  assert (E : entry_valid (normalize (normalize p)) = true).
  { pose proof (catalog_entry_valid ∅ (normalize (normalize p)) (lookup_empty _)) as E.
    destruct (catalog_entry ∅ _) as [q|]; [by destruct E|discriminate]. }
  revert E. unfold entry_valid, normalize. cbn. by rewrite !TrimSpace_idem.
Qed.

Lemma entry_valid_row tags q : entry_valid (row_policy tags q) = entry_valid (row_policy [] q).
Proof. done. Qed.

Lemma stored_update org id p tags at_ t :
  entry_valid p = true -> stored t ->
  stored (t <| dp_policies := update_where (policy_id org id)
                (update_policy p tags at_) (dp_policies t) |>).
Proof.
  intros V [S U]. constructor; unfold set; cbn [dp_policies].
  - apply Forall_update_where; [done|]. intros q _ _ [Q1 Q2]. split; [|done].
    revert V Q1. unfold entry_valid. cbn. rewrite !andb_true_iff, !negb_true_iff, !orb_false_iff. tauto.
  - by rewrite map_update_where.
Qed.

Lemma stored_insert q t u t' :
  entry_valid (row_policy [] q) = true -> TrimSpace (q_field_key q) = q_field_key q ->
  insert_policy q t = Ok (u, t') -> stored t -> stored t'.
Proof.
  unfold insert_policy. intros V K H [S U]. destruct (existsb _ _) eqn:E; [discriminate|]. injection H as _ <-.
  rewrite existsb_false in E. constructor; unfold set; cbn [dp_policies].
  - apply Forall_app. split; [done|]. by constructor.
  - apply NoDup_map_snoc; [done|]. intros x Hx [= E1 E2]. specialize (E x Hx).
    apply orb_false_iff in E as [_ E]. unfold policy_key in E. rewrite E1, E2, !seqb_refl in E. done.
Qed.

Lemma Upsert_keeps_stored actor policy : keeps stored (@Upsert O actor policy).
Proof.
  unfold Upsert. apply keeps_bind; [apply keeps_guard|intros u].
  destruct (Validate (normalize policy)) as [[]|e] eqn:V; [|by intros env n t H].
  apply normalize_valid in V as [V K]. set (p := normalize policy) in *. clearbody p.
  unfold repo_Upsert. keeps_walk.
  - apply keeps_exec. intros t. by apply stored_update.
  - apply keeps_stmt. intros t [] t' S H. eapply stored_insert; [| |exact H|exact S]; done.
Qed.

(** Histories of the policy table: upserts by any actors, with any outcome, and
    whatever else leaves the table alone. *)
Inductive reachable : Tables O -> Prop :=
| r_init ev dl : reachable (mkTables [] ev dl)
| r_upsert actor policy env n r n' t t' :
    reachable t -> Upsert actor policy env n t = (r, n', t') -> reachable t'
| r_other t t' : reachable t -> dp_policies t' = dp_policies t -> reachable t'.

Lemma reachable_stored t : reachable t -> stored t.
Proof.
  induction 1 as [ev dl|actor policy env n r n' t t' _ IH E|t t' _ IH E].
  - constructor; constructor.
  - pose proof (Upsert_keeps_stored actor policy env n t IH) as X. by rewrite E in X.
  - destruct IH. constructor; by rewrite E.
Qed.

Lemma scanned_policies rows records :
  result_mapM scanDataPolicy rows = Ok records ->
  Forall2 (fun q p => exists tags, p = row_policy tags q) rows (map pr_FieldPolicy records).
Proof.
  intros H. apply result_mapM_ok in H. induction H as [|q r rows records E H IH]; [constructor|].
  constructor; [|done]. unfold scanDataPolicy in E. destruct (unmarshal_strings _) as [tags|]; [|discriminate].
  injection E as <-. by exists tags.
Qed.

(** The stored policies of an organization always form a catalog: whatever
    was accepted by [Upsert] can never make the exports, the masking or the
    evidence of the organization fail on its own policies. *)
Theorem stored_policies_form_a_catalog t actor records env n n' t' :
  reachable t -> List_ actor env n t = (Ok records, n', t') ->
  is_ok (NewCatalog (map pr_FieldPolicy records)) = true.
Proof.
  intros R H. apply reachable_stored in R as [S U]. unfold List_, repo_List in H. run.
  match goal with E : result_mapM _ ?rows = Ok _ |- _ => apply scanned_policies in E; set (l := rows) in * end.
  assert (In : forall q, q ∈ l -> q ∈ dp_policies t' /\ q_organization_id q = p_OrganizationID actor).
  { intros q Hq. apply elem_of_order_by, elem_of_select in Hq as [Hq Ho]. by breflect. }
  assert (Ul : NoDup (map (fun q => (q_organization_id q, q_field_key q)) l)).
  { eapply NoDup_Permutation_proper; [apply Permutation_map, order_by_Permutation|].
    clear - U. unfold select. induction (dp_policies t') as [|q rows IH]; [constructor|].
    cbn in U |- *. apply NoDup_cons in U as [Nq U]. destruct (_ =s _); [|by apply IH].
    cbn. constructor; [|by apply IH]. intros Hi. apply Nq. apply list_elem_of_fmap in Hi as (x & E & Hx).
    apply list_elem_of_In, List.filter_In in Hx as [Hx _]. apply list_elem_of_fmap. exists x.
    split; [done|by apply list_elem_of_In]. }
  match goal with F : Forall2 _ l _ |- _ => rename F into F2 end.
  apply catalog_loop_valid; [| |intros; apply lookup_empty].
  - apply Forall_forall. intros p Hp. destruct (list_elem_of_lookup_1 _ _ Hp) as [i Hi].
    destruct (Forall2_lookup_r _ _ _ _ _ F2 Hi) as (q & Hq & tags & ->). rewrite entry_valid_row.
    rewrite Forall_forall in S. apply S. apply In. by eapply list_elem_of_lookup_2.
  - assert (E : map (fun p => TrimSpace (f_Key p)) (map pr_FieldPolicy records) = map q_field_key l).
    { clear Ul. assert (Tr : forall q, q ∈ l -> TrimSpace (q_field_key q) = q_field_key q).
      { intros q Hq. rewrite Forall_forall in S. apply S. by apply In. }
      clear - F2 Tr. induction F2 as [|q p l ps (tags & ->) F2 IH]; [done|]. cbn.
      rewrite (Tr q) by left. f_equal. apply IH. intros x Hx. apply Tr. by right. }
    rewrite E. eapply NoDup_map_via; [exact Ul|]. intros q1 q2 Hq1 Hq2 Eq.
    destruct (In q1 Hq1) as [_ ->], (In q2 Hq2) as [_ ->]. by f_equal.
Qed.
End stored.

(** ** Witnesses *)

Module examples.
Definition policies : list FieldPolicy :=
  [mkPolicy " user.phone " "personal_information" "crm" "support" "cn" 30 [] "mobile" false false;
   mkPolicy "user.city" "internal" "crm" "support" "cn" 30 [] "none" false false].
Definition catalog : Catalog := match NewCatalog policies with Ok c => c | Err _ => ∅ end.
Definition options : ExportOptions :=
  mkOptions ["user.phone"; "user.city"] "report" "ap-1" "for Ann" "csv" 0.
Definition rows : list ExportRow := [<["user.phone" := "13812345678"]> {["user.city" := "=1+1"]}].
Definition artifact := Eval vm_compute in RenderExport catalog options rows.

Example artifact_content :
  match artifact with
  | Ok a => ea_Content a = String.concat "" ["user.phone,user.city,watermark"; str1 "010"; "138****5678,'=1+1,for Ann"; str1 "010"]
  | Err _ => False
  end.
Proof. vm_compute. reflexivity. Qed.

Definition exported : ExportArtifact := Eval vm_compute in
  match artifact with Ok a => a | Err _ => mkExport "" "" "" [] 0 "" "" end.
Definition actor : Principal :=
  mkPrincipal "USER" "u-1" "org" "ann" "Ann" [] [] [] false "s" 0 (mkDataScope true false []) "MFA" None.
Definition env0 : Env := mkEnv (fun _ => 10) (fun _ => "id-1") (fun _ => None) (fun _ _ => "0"%char) false.
Definition t0 : Tables unit := mkTables [] [] (Download.mkTables [] tt).
Definition upserted := Eval vm_compute in
  Upsert actor (mkPolicy " user.phone" "restricted" "crm" "support" "cn" 30 ["a"] "mobile" false false) env0 0%nat t0.
Definition t1 : Tables unit := Eval vm_compute in snd upserted.
Definition listed := Eval vm_compute in List_ actor env0 0%nat t1.
Definition records : list PolicyRecord := Eval vm_compute in
  match listed with (Ok l, _, _) => l | _ => [] end.
End examples.

Theorem exports_are_governed_witness : llen examples.rows <= MaximumExportMaxRows.
Proof.
  destruct (exports_are_governed examples.policies examples.catalog examples.options examples.rows examples.exported)
    as (_ & _ & _ & H & _); [vm_compute; reflexivity|vm_compute; reflexivity|exact H].
Defined.

Theorem short_identifiers_are_disclosed_witness : masking.IDCard "12345678" = "12345678".
Proof. apply (short_identifiers_are_disclosed "12345678"). reflexivity. Defined.

Theorem stored_policies_form_a_catalog_witness :
  llen examples.records = 1 /\ is_ok (NewCatalog (map pr_FieldPolicy examples.records)) = true.
Proof.
  split; [reflexivity|].
  apply (stored_policies_form_a_catalog examples.t1 examples.actor examples.records examples.env0 0%nat 1%nat examples.t1).
  - eapply (r_upsert examples.actor
      (mkPolicy " user.phone" "restricted" "crm" "support" "cn" 30 ["a"] "mobile" false false) examples.env0 0%nat
      _ _ examples.t0); [constructor|vm_compute; reflexivity].
  - vm_compute. reflexivity.
Defined.
