(* ===== verification/Platform.v ===== *)
(** * The platform API

    The handlers of [internal/adapters/kratosapi]: each takes the principal
    from the context, runs an operation of the services and its audit event in
    one transaction, for critical changes after it has claimed an approval, and
    turns the error into a reply.

    The tables of all components are one database here.  The messages of
    [api/gen] are generated code: a handler takes the fields it reads from the
    request and answers with the value it copies into the response. *)

From S2P Require Import Prelude GoString GoTime Json Database Identity GrantPolicy SecurityPolicy Directory IdentityStore.
From S2P Require Import Password Keyring Roles Accounts Oversight ConfigChange Approval AuditLog Download DataPolicy RequestGate.

(** ** The database *)

(** [X] is what the forwarder of the audit log keeps, [O] the object store. *)
Record Tables (X O : Type) := mkTables {
  pf_oversight : Oversight.Tables;
  pf_requests : list Approval.Request;
  pf_tasks : list Approval.Task;
  pf_executions : list Approval.Execution;
  pf_changes : ConfigChange.Table;
  pf_policies : DataPolicy.Tables O;
  pf_audit : AuditLog.Tables X
}.
Arguments mkTables {X O}.
Arguments pf_oversight {X O}.
Arguments pf_requests {X O}.
Arguments pf_tasks {X O}.
Arguments pf_executions {X O}.
Arguments pf_changes {X O}.
Arguments pf_policies {X O}.
Arguments pf_audit {X O}.
#[export] Instance Tables_eta X O : Eta (Tables X O) := fun t =>
  mkTables (pf_oversight t) (pf_requests t) (pf_tasks t) (pf_executions t) (pf_changes t) (pf_policies t) (pf_audit t).

(** ** Replies *)

(** [kratoserrors], the constructors the gate does not use. *)
Class KratosReplies := {
  NotFound : string -> string -> error;
  Conflict : string -> string -> error;
  BadRequest : string -> string -> error;
  InternalServer : string -> string -> error
}.

(** A request as the handlers see it: its context, and the host of the peer's
    address when [net.SplitHostPort] finds one. *)
Record Call := mkCall { call_ctx : RequestGate.Ctx; call_host : option string }.

Section errors.
Context `{KratosErrors} `{KratosReplies}.

Definition internalError (err : error) : error := InternalServer "INTERNAL" "operation failed".

(** The cases of a [switch] on [errors.Is]. *)
Fixpoint reply_of (cases : list (list error * error)) (err : error) : error :=
  match cases with
  | [] => internalError err
  | (targets, reply) :: rest => if existsb (errors_Is err) targets then reply else reply_of rest err
  end.

Definition service_cases : list (list error * error) :=
  [([ErrNoRows], NotFound "NOT_FOUND" "resource not found");
   ([ErrGrantCeiling; ErrLastSystemAdmin], Forbidden "PERMISSION_DENIED" "operation is not permitted");
   ([ErrRoleConflict], Conflict "ROLE_CONFLICT" "role combination violates segregation of duties");
   ([ErrInteractiveSessionRequired], Forbidden "INTERACTIVE_SESSION_REQUIRED" "interactive session is required");
   ([ErrStepUpRequired], Forbidden "STEP_UP_REQUIRED" "recent multi-factor authentication is required");
   ([Approval.ErrApprovalRequired], BadRequest "APPROVAL_REQUIRED" "approved execution ticket is required");
   ([Approval.ErrDigestMismatch], Conflict "APPROVAL_DIGEST_MISMATCH" "approval does not authorize this operation");
   ([Approval.ErrAlreadyExecuted], Conflict "APPROVAL_ALREADY_EXECUTED" "approval execution ticket has already been used");
   ([Approval.ErrNotPending], Conflict "APPROVAL_NOT_EXECUTABLE" "approval is not executable");
   ([Approval.ErrMakerChecker; Approval.ErrAccessDenied], Forbidden "APPROVAL_ACCESS_DENIED" "approval execution is not permitted");
   ([ErrIntegrityViolation], Conflict "AUDIT_INTEGRITY_FAILED" "audit log integrity verification failed");
   ([ErrDownloadArtifactNotFound], NotFound "EXPORT_NOT_FOUND" "export artifact not found");
   ([ErrDownloadArtifactActor], Forbidden "EXPORT_ACCESS_DENIED" "export artifact access is not permitted");
   ([ErrDownloadArtifactExpired; ErrDownloadArtifactRevoked; ErrDownloadArtifactConsumed],
      Conflict "EXPORT_UNAVAILABLE" "export artifact is no longer downloadable");
   ([ErrDownloadArtifactChecksum], InternalServer "EXPORT_INTEGRITY_FAILED" "export artifact integrity validation failed");
   ([ErrExportDownloadUnavailable], InternalServer "EXPORT_UNAVAILABLE" "export download control is unavailable");
   ([ErrExportActorRequired], Forbidden "INTERACTIVE_SESSION_REQUIRED" "interactive session is required");
   ([ErrInvalidCredentials], Unauthorized "UNAUTHENTICATED" "authentication failed");
   ([ErrInvalidMFA], Unauthorized "INVALID_MFA" "invalid multi-factor authentication code");
   ([ErrMFAAlreadyEnabled], Conflict "MFA_ALREADY_ENABLED" "multi-factor authentication is already enabled");
   ([ErrMFANotPending], BadRequest "MFA_ENROLLMENT_NOT_PENDING" "multi-factor authentication enrollment is not pending");
   ([ErrInvalidRole; ErrInvalidLoginName; ErrPasswordPolicy; ErrPasswordReused; ErrInvalidSecurityPolicy;
     ErrInvalidDepartment; ErrInvalidPosition; ErrInvalidUserGroup; ErrInvalidUserAssignment; ErrInvalidDataScope;
     Sentinel "identity.ErrInvalidMenu"], BadRequest "INVALID_ARGUMENT" "request violates policy");
   ([ErrInvalidFederatedIdentity], BadRequest "INVALID_FEDERATED_IDENTITY" "external identity mapping violates policy");
   ([ErrInvalidAccessReview], BadRequest "INVALID_ACCESS_REVIEW" "access review violates policy");
   ([ErrInvalidTemporaryGrant], BadRequest "INVALID_TEMPORARY_GRANT" "temporary role grant violates policy")].

Definition serviceError (err : error) : error := reply_of service_cases err.

Definition approval_cases : list (list error * error) :=
  [([ErrNoRows], NotFound "NOT_FOUND" "approval resource not found");
   ([Approval.ErrMakerChecker; Approval.ErrTaskNotAssigned; Approval.ErrAccessDenied],
      Forbidden "PERMISSION_DENIED" "approval operation is not permitted");
   ([Approval.ErrNotPending], Conflict "APPROVAL_NOT_PENDING" "approval request is not pending");
   ([Approval.ErrInvalidRequest], BadRequest "INVALID_ARGUMENT" "invalid approval request")].

Definition approvalServiceError (err : error) : error :=
  reply_of (approval_cases ++ [([ErrStepUpRequired; ErrInteractiveSessionRequired], serviceError err)]) err.

Definition requiredPrincipal (c : Call) : result Principal :=
  match c_principal (call_ctx c) with
  | Some p => if p_OrganizationID p =s ""
              then Err (Unauthorized "UNAUTHENTICATED" "authenticated organization is required") else Ok p
  | None => Err (Unauthorized "UNAUTHENTICATED" "authenticated organization is required")
  end.

(** [int] has 64 bits here. *)
Definition checkedInt (value : Z) : result Z :=
  if value <? 0 then Err (BadRequest "INVALID_ARGUMENT" "numeric value is out of range") else Ok value.
End errors.

(** The error of an operation turned into a reply. *)
Definition mapped {S A} (reply : error -> error) (m : Database.M S A) : Database.M S A := fun e n t =>
  match m e n t with
  | (Ok a, n', t') => (Ok a, n', t')
  | (Err err, n', t') => (Err (reply err), n', t')
  end.

(** ** Audit events *)

(** A Go map of details, and [json.Marshal] of one. *)
Definition object (l : list (string * json)) : json := JObj (fold_left (fun o kv => obj_set kv.1 kv.2 o) l []).
Definition strings (l : list string) : json := JArr (map JStr l).
(** A repeated field of a message is a nil slice when it is empty. *)
Definition repeated (l : list string) : json := match l with [] => JNull | _ => strings l end.
Definition count {A} (l : list A) : json := JNum (Itoa (llen l)).
Definition instant (t : Time) : json := JStr (RFC3339Nano t).

Definition newAuditEvent (c : Call) (p : Principal) (action resourceType resourceID : string) (details : json) : Event :=
  mkEvent "" zeroTime
    (match c_transport (call_ctx c) with Some tr => tr_Header tr "X-Request-ID" | None => "" end)
    (p_OrganizationID p) (p_UserID p) (p_LoginName p) action resourceType resourceID ""
    (match call_host c with Some host => host | None => "" end) details 0 "" "".

(** The event of a failure. *)
Definition failed (event : Event) : Event :=
  event <| e_Result := "FAILURE" |>
        <| e_Details := JObj (obj_set "outcome" (JStr "business-operation-failed")
             (match e_Details event with JObj l => l | _ => [] end)) |>.

Definition unnamed {A} (_ : A) (event : Event) : Event := event.
Definition resource (id : string) (event : Event) : Event := event <| e_ResourceID := id |>.

(** ** The service *)

(** Which of the dependencies are configured. *)
Record PlatformService := mkPlatformService {
  has_approval : bool;
  has_configChange : bool;
  has_dataPolicy : bool;
  has_audit : bool;
  has_db : bool
}.

Section service.
Context {X O : Type} `{UnicodeTables} `{Argon2} `{TOTP} `{KratosErrors} `{KratosReplies}.
Notation M := (Database.M (Tables X O)).
Context (service : Service) (crypt : option Provider) (controller : option (ArtifactObjectStore (O := O) * Z)).
Context (column_time : Time -> Time) (forwarder : option (Forwarder (X := X))).
Context (protojson : SecurityPolicy -> string) (protojson_field : FieldPolicy -> string).
Context (s : PlatformService).

(** *** The tables of each component *)

Definition in_oversight {A} (m : Database.M Oversight.Tables A) : M A :=
  zoom pf_oversight (fun x t => t <| pf_oversight := x |>) m.
Definition in_identity {A} (m : Database.M IdentityStore.Tables A) : M A := in_oversight (Oversight.in_identity m).
Definition in_directory {A} (m : Database.M Directory.Tables A) : M A := in_identity (IdentityStore.in_directory m).
Definition in_settings {A} (m : Database.M Settings A) : M A := in_identity (IdentityStore.in_settings m).

(** The users as the approvals read them. *)
Definition approval_user (r : userRow) : Approval.UserRow := Approval.mkUserRow (uid r) (uorg r) (ustatus r).
Definition approval_view (t : Tables X O) : Approval.Tables :=
  Approval.mkTables (map approval_user (users (ov_identity (pf_oversight t)))) (pf_requests t) (pf_tasks t) (pf_executions t).
Definition put_approval (a : Approval.Tables) (t : Tables X O) : Tables X O :=
  t <| pf_requests := Approval.tb_requests a |> <| pf_tasks := Approval.tb_tasks a |>
    <| pf_executions := Approval.tb_executions a |>.
Definition in_approval {A} (m : Database.M Approval.Tables A) : M A := zoom approval_view put_approval m.
Definition in_changes {A} (m : Database.M ConfigChange.Table A) : M A := zoom pf_changes (fun x t => t <| pf_changes := x |>) m.
Definition in_policies {A} (m : Database.M (DataPolicy.Tables O) A) : M A :=
  zoom pf_policies (fun x t => t <| pf_policies := x |>) m.
Definition in_audit {A} (m : Database.M (AuditLog.Tables X) A) : M A := zoom pf_audit (fun x t => t <| pf_audit := x |>) m.

Definition write (event : Event) : M unit := in_audit (AuditLog.Write column_time forwarder event).

(** *** Audited operations *)

(** The transaction of an operation and its event, which the operation names
    ([event.ResourceID = created.ID]). *)
Definition with_event {A} (event : Event) (op : M A) (named : A -> Event -> Event) : M A :=
  WithTx (a ← op; _ ← write (named a event); mret a).

(** The event is shared with the operation: what it wrote there before the
    transaction failed is still there. *)
Definition event_after {A} (event : Event) (op : M A) (named : A -> Event -> Event) (e : Env) (n : nat) (t : Tables X O)
  : Event :=
  let ran := if in_tx e then op e n t
             else match faults e n with
                  | Some err => (Err err, n, t)
                  | None => op (e <| in_tx := true |>) (Datatypes.S n) t
                  end in
  match ran with
  | (Ok a, _, _) => named a event
  | (Err _, _, _) => event
  end.

Definition audited {A} (event : Event) (op : M A) (named : A -> Event -> Event) : M A := fun e n t =>
  if negb (has_db s) || negb (has_audit s) then (Err (Errorf "reliable audit is unavailable" []), n, t)
  else match with_event event op named e n t with
  | (Ok a, n', t') => (Ok a, n', t')
  | (Err err, n', t') =>
    match WithTx (write (failed (event_after event op named e n t))) e n' t' with
    | (Ok _, n2, t2) => (Err err, n2, t2)
    | (Err _, n2, t2) => (Err (Wrapf "platform operation failed: %w; failure audit failed: %v" [] err), n2, t2)
    end
  end.

(** The one of the approval service does not record failures. *)
Definition approval_audited {A} (event : Event) (op : M A) (named : A -> Event -> Event) : M A :=
  if negb (has_db s) || negb (has_audit s) then fail (Errorf "reliable audit is unavailable" [])
  else with_event event op named.

(** The claim of an approval by a critical operation. *)
Definition authorize (actor : Principal) (approval requestType action resource resourceID payload : string) : M unit :=
  _ ← guard_not (negb (has_approval s)) Approval.ErrApprovalRequired;
  in_approval (Approval.AuthorizeExecution actor approval
    (Approval.mkExecutionInput requestType action resource resourceID payload)).

(** A handler: the principal, then its audited operation. *)
Definition handler {A} (c : Call) (k : Principal -> M A) : M A :=
  actor ← lift (requiredPrincipal c);
  k actor.
Definition run {A} (event : Event) (op : M A) (named : A -> Event -> Event) : M A :=
  mapped serviceError (audited event op named).

(** *** Users, roles and groups *)

Definition CreateUser (c : Call) (login display password : string) (keys : list string) : M User :=
  handler c (fun actor =>
    run (newAuditEvent c actor "user.create" "user" "" (object [("login_name", JStr login); ("roles", repeated keys)]))
      (in_identity (Roles.CreateUser service actor (p_OrganizationID actor) login display password keys))
      (fun created => resource (user_ID created))).

Definition CreateUserGroup (c : Call) (key name description status : string) : M UserGroup :=
  handler c (fun actor =>
    run (newAuditEvent c actor "user_group.create" "user_group" "" (object [("group_key", JStr key)]))
      (in_identity (Roles.CreateUserGroup actor (p_OrganizationID actor)
         (mkUserGroup "" "" key name description status [] [] 0 zeroTime zeroTime)))
      (fun created => resource (ug_ID created))).

Definition UpdateUserGroup (c : Call) (group name description status : string) : M UserGroup :=
  handler c (fun actor =>
    run (newAuditEvent c actor "user_group.update" "user_group" group (object [("status", JStr status)]))
      (in_identity (Roles.UpdateUserGroup actor (p_OrganizationID actor) group
         (mkUserGroup "" "" "" name description status [] [] 0 zeroTime zeroTime))) unnamed).

Definition UpdateUserGroupMembers (c : Call) (group : string) (members : list string) : M unit :=
  handler c (fun actor =>
    run (newAuditEvent c actor "user_group.members.update" "user_group" group (object [("member_count", count members)]))
      (in_identity (Roles.UpdateUserGroupMembers actor (p_OrganizationID actor) group members)) unnamed).

Definition UpdateUserGroupRoles (c : Call) (group : string) (keys : list string) : M unit :=
  handler c (fun actor =>
    run (newAuditEvent c actor "user_group.roles.update" "user_group" group (object [("roles", repeated keys)]))
      (in_identity (Roles.UpdateUserGroupRoles actor (p_OrganizationID actor) group keys)) unnamed).

(** [stringSetPayload]: the trimmed values that are not blank, sorted, each
    once. *)
Definition stringSet (values : list string) : list string :=
  distinct_sorted (List.filter (fun v => v <>s "") (map TrimSpace values)).
Definition stringSetPayload (key : string) (values : list string) : list string * string :=
  (stringSet values, Marshal (object [(key, strings (stringSet values))])).

Definition UpdateRolePermissions (c : Call) (role approval : string) (permissions : list string) : M (list string) :=
  handler c (fun actor =>
    let '(permissions, payload) := stringSetPayload "permissions" permissions in
    run (newAuditEvent c actor "role.permissions.update" "role" role
           (object [("permissions", strings permissions); ("approval_id", JStr approval)]))
      (_ ← authorize actor approval "ROLE_PERMISSION_CHANGE" "role.permissions.update" "role" role payload;
       _ ← in_identity (Roles.UpdateRolePermissions actor (p_OrganizationID actor) role permissions);
       mret permissions) unnamed).

Definition roleDataScopePayload (dataScope : string) (departments : list string) : list string * string :=
  let departments := stringSet departments in
  (departments, Marshal (object [("data_scope", JStr (TrimSpace dataScope)); ("department_ids", strings departments)])).

Definition UpdateRoleDataScope (c : Call) (role dataScope approval : string) (departments : list string) : M (list string) :=
  handler c (fun actor =>
    let '(departments, payload) := roleDataScopePayload dataScope departments in
    run (newAuditEvent c actor "role.data_scope.update" "role" role
           (object [("data_scope", JStr dataScope); ("department_count", count departments); ("approval_id", JStr approval)]))
      (_ ← authorize actor approval "ROLE_DATA_SCOPE_CHANGE" "role.data_scope.update" "role" role payload;
       _ ← in_identity (Roles.UpdateRoleDataScope actor (p_OrganizationID actor) role dataScope departments);
       mret departments) unnamed).

Definition UpdateUserRoles (c : Call) (user approval : string) (keys : list string) : M (list string) :=
  handler c (fun actor =>
    let '(roles, payload) := stringSetPayload "roles" keys in
    run (newAuditEvent c actor "user.roles.update" "user" user
           (object [("roles", strings roles); ("approval_id", JStr approval)]))
      (_ ← authorize actor approval "USER_ROLE_CHANGE" "user.roles.update" "user" user payload;
       _ ← in_identity (Roles.UpdateUserRoles actor (p_OrganizationID actor) user roles);
       mret roles) unnamed).

Definition UpdateUserStatus (c : Call) (user status : string) : M unit :=
  handler c (fun actor =>
    run (newAuditEvent c actor "user.status.update" "user" user (object [("status", JStr status)]))
      (in_identity (Roles.SetUserStatus (p_OrganizationID actor) user status)) unnamed).

Definition UnlockUser (c : Call) (user : string) : M unit :=
  handler c (fun actor =>
    run (newAuditEvent c actor "user.unlock" "user" user JNull)
      (in_identity (Accounts.UnlockUser (p_OrganizationID actor) user)) unnamed).

Definition ResetUserPassword (c : Call) (user password approval : string) : M unit :=
  handler c (fun actor =>
    run (newAuditEvent c actor "user.password.reset" "user" user
           (object [("force_change", JBool true); ("approval_id", JStr approval)]))
      (_ ← authorize actor approval "USER_PASSWORD_RESET" "user.password.reset" "user" user
             (Marshal (object [("force_change", JBool true)]));
       in_identity (Accounts.AdminResetPassword service (p_OrganizationID actor) user password)) unnamed).

Definition RevokeSession (c : Call) (session : string) : M unit :=
  handler c (fun actor =>
    run (newAuditEvent c actor "session.revoke" "session" session JNull)
      (in_identity (Accounts.RevokeSession (p_OrganizationID actor) session (p_SessionID actor))) unnamed).

(** The instants of the request, when it has both. *)
Definition CreateTemporaryRoleGrant (c : Call) (user role reason approval : string) (validity : option (Time * Time))
  : M TemporaryRoleGrant :=
  handler c (fun actor =>
    match validity with
    | None => fail (serviceError ErrInvalidTemporaryGrant)
    | Some (from, until) =>
      let validFrom := UTC from in
      let validUntil := UTC until in
      let payload := Marshal (object [("reason", JStr reason); ("role_key", JStr role); ("user_id", JStr user);
        ("valid_from", instant validFrom); ("valid_until", instant validUntil)]) in
      run (newAuditEvent c actor "temporary_role_grant.create" "user" user
             (object [("role_key", JStr role); ("valid_until", instant validUntil); ("approval_id", JStr approval)]))
        (_ ← authorize actor approval "TEMPORARY_ROLE_GRANT" "temporary_role_grant.create" "user" user payload;
         in_identity (Roles.CreateTemporaryRoleGrant actor user role reason approval validFrom validUntil))
        (fun grant => resource (tg_ID grant))
    end).

Definition RevokeTemporaryRoleGrant (c : Call) (grant reason : string) : M unit :=
  handler c (fun actor =>
    run (newAuditEvent c actor "temporary_role_grant.revoke" "temporary_role_grant" grant (object [("reason", JStr reason)]))
      (in_identity (Roles.RevokeTemporaryRoleGrant actor grant reason)) unnamed).
(** *** The directory *)

Definition CreateDepartment (c : Call) (parent key name status : string) (sortOrder : Z) : M Department :=
  handler c (fun actor =>
    sortOrder ← lift (checkedInt sortOrder);
    run (newAuditEvent c actor "department.create" "department" ""
           (object [("department_key", JStr key); ("parent_id", JStr parent)]))
      (in_directory (Directory.CreateDepartment actor (p_OrganizationID actor)
         (mkDepartment "" "" parent key name status sortOrder zeroTime zeroTime)))
      (fun created => resource (dep_ID created))).

Definition UpdateDepartment (c : Call) (department parent name status : string) (sortOrder : Z) : M Department :=
  handler c (fun actor =>
    sortOrder ← lift (checkedInt sortOrder);
    run (newAuditEvent c actor "department.update" "department" department
           (object [("parent_id", JStr parent); ("status", JStr status)]))
      (in_directory (Directory.UpdateDepartment actor (p_OrganizationID actor) department
         (mkDepartment "" "" parent "" name status sortOrder zeroTime zeroTime))) unnamed).

Definition CreatePosition (c : Call) (department key name description status : string) (sortOrder : Z) : M Position :=
  handler c (fun actor =>
    sortOrder ← lift (checkedInt sortOrder);
    run (newAuditEvent c actor "position.create" "position" ""
           (object [("position_key", JStr key); ("department_id", JStr department)]))
      (in_directory (Directory.CreatePosition actor (p_OrganizationID actor)
         (mkPosition "" "" department key name description status sortOrder zeroTime zeroTime)))
      (fun created => resource (pos_ID created))).

Definition UpdatePosition (c : Call) (position department name description status : string) (sortOrder : Z) : M Position :=
  handler c (fun actor =>
    sortOrder ← lift (checkedInt sortOrder);
    run (newAuditEvent c actor "position.update" "position" position
           (object [("department_id", JStr department); ("status", JStr status)]))
      (in_directory (Directory.UpdatePosition actor (p_OrganizationID actor) position
         (mkPosition "" "" department "" name description status sortOrder zeroTime zeroTime))) unnamed).

(** An assignment of the request: a start or an end may be missing. *)
Definition requested_assignment (a : string * string * bool * option Time * option Time) : UserAssignment :=
  let '(department, position, primary, from, until) := a in
  mkAssignment "" "" "" department position primary (match from with Some t => t | None => zeroTime end) until zeroTime.

Definition ReplaceUserAssignments (c : Call) (user : string)
    (assignments : list (string * string * bool * option Time * option Time)) : M unit :=
  handler c (fun actor =>
    let assignments := map requested_assignment assignments in
    run (newAuditEvent c actor "user.assignments.replace" "user" user (object [("assignment_count", count assignments)]))
      (in_directory (Directory.ReplaceUserAssignments actor (p_OrganizationID actor) user assignments)) unnamed).

(** *** Organization and security policy *)

Definition UpdateOrganization (c : Call) (name description status : string) (maxUsers maxSessions : Z) : M Organization :=
  handler c (fun actor =>
    maxUsers ← lift (checkedInt maxUsers);
    maxSessions ← lift (checkedInt maxSessions);
    run (newAuditEvent c actor "organization.update" "organization" (p_OrganizationID actor) (object [("status", JStr status)]))
      (in_identity (Accounts.UpdateOrganization (p_OrganizationID actor)
         (mkOrganization "" "" name status description maxUsers maxSessions zeroTime zeroTime))) unnamed).

(** The message of a policy has [int64] fields and the meaning of the domain's
    record; a missing message is [None]. *)
Definition securityPolicyDomain (policy : option SecurityPolicy) : result SecurityPolicy :=
  match policy with
  | None => Err (BadRequest "INVALID_ARGUMENT" "policy is required")
  | Some p =>
    _ ← checkedInt (sp_PasswordMinLength p);
    _ ← checkedInt (sp_PasswordHistory p);
    _ ← checkedInt (sp_PasswordMaxAgeDays p);
    _ ← checkedInt (sp_LoginMaxFailures p);
    _ ← checkedInt (sp_MaxConcurrentSessions p);
    Ok p
  end.

(** [protojson] is the third-party encoder of messages. *)
Definition UpdateSecurityPolicy (c : Call) (policy : option SecurityPolicy) (approval : string) : M SecurityPolicy :=
  handler c (fun actor =>
    policy ← lift (securityPolicyDomain policy);
    run (newAuditEvent c actor "security.config.update" "security" "policy" (object [("approval_id", JStr approval)]))
      (_ ← authorize actor approval "SECURITY_POLICY_CHANGE" "security.config.update" "security" "policy" (protojson policy);
       in_settings (SecurityPolicy.UpdateSecurityPolicy service (p_OrganizationID actor) (p_UserID actor) policy)) unnamed).

(** *** Oversight *)

Definition CreateAccessReview (c : Call) (reviewer : string) (dueAt : option Time) : M AccessReview :=
  handler c (fun actor =>
    match dueAt with
    | None => fail (serviceError ErrInvalidAccessReview)
    | Some dueAt =>
      run (newAuditEvent c actor "access_review.create" "access_review" ""
             (object [("reviewer_id", JStr reviewer); ("due_at", instant dueAt)]))
        (in_oversight (Oversight.CreateAccessReview actor reviewer dueAt)) (fun review => resource (ar_ID review))
    end).

Definition DecideAccessReviewItem (c : Call) (review item decision reason : string) : M unit :=
  handler c (fun actor =>
    run (newAuditEvent c actor "access_review.item.decide" "access_review_item" item
           (object [("review_id", JStr review); ("decision", JStr decision)]))
      (in_oversight (Oversight.DecideAccessReviewItem actor review item decision reason)) unnamed).

(** [normalizedPrivilegeKeys]: trimmed, each once, in their order. *)
Fixpoint normalize_keys (seen : list string) (values : list string) : list string :=
  match values with
  | [] => []
  | value :: rest =>
    let key := TrimSpace value in
    if contains seen key then normalize_keys seen rest else key :: normalize_keys (key :: seen) rest
  end.
Definition normalizedPrivilegeKeys (values : list string) : list string := normalize_keys [] values.

Definition CreateEmergencyAccess (c : Call) (target scope approval reason : string) (keys : list string)
    (expiresAt : option Time) : M EmergencyAccessGrant :=
  handler c (fun actor =>
    match expiresAt with
    | None => fail (serviceError ErrInvalidEmergencyAccess)
    | Some expiresAt =>
      let keys := normalizedPrivilegeKeys keys in
      at_ ← now;
      let requestedAt := UTC at_ in
      let expiresAt := UTC expiresAt in
      let target := TrimSpace target in
      let scope := TrimSpace scope in
      let approval := TrimSpace approval in
      let reason := TrimSpace reason in
      let payload := Marshal (object [("expires_at", instant expiresAt); ("privilege_keys", strings keys);
        ("reason", JStr reason); ("scope", JStr scope); ("target_user_id", JStr target)]) in
      let request := mkEmergencyRequest (p_OrganizationID actor) (p_UserID actor) target scope approval reason keys
        requestedAt expiresAt in
      let resourceID := if target =s "" then scope else target in
      run (newAuditEvent c actor "emergency_access.create" "emergency_access" resourceID
             (object [("approval_id", JStr approval); ("expires_at", instant expiresAt);
                      ("privilege_count", count keys); ("scope", JStr scope)]))
        (_ ← authorize actor approval "EMERGENCY_ACCESS" "emergency_access.create" "emergency_access" resourceID payload;
         in_oversight (Oversight.CreateEmergencyAccess actor request))
        (fun grant => resource (eg_ID grant))
    end).

Definition RevokeEmergencyAccess (c : Call) (grant reason : string) : M unit :=
  handler c (fun actor =>
    run (newAuditEvent c actor "emergency_access.revoke" "emergency_access" grant (object [("reason", JStr reason)]))
      (in_oversight (Oversight.RevokeEmergencyAccess actor grant reason)) unnamed).

(** *** External identities *)

Definition LinkFederatedIdentity (c : Call) (provider subject user approval : string) : M FederatedIdentityLink :=
  handler c (fun actor =>
    let payload := Marshal (object [("provider", JStr provider); ("subject", JStr subject); ("user_id", JStr user)]) in
    run (newAuditEvent c actor "identity_mapping.link" "identity_mapping" user
           (object [("provider", JStr provider); ("user_id", JStr user); ("approval_id", JStr approval)]))
      (_ ← authorize actor approval "FEDERATED_IDENTITY_LINK" "identity_mapping.link" "identity_mapping" user payload;
       in_identity (Accounts.LinkFederatedIdentity actor provider subject user approval))
      (fun linked => resource (ei_ID (fl_row linked)))).

Definition UnlinkFederatedIdentity (c : Call) (link : string) : M unit :=
  handler c (fun actor =>
    run (newAuditEvent c actor "identity_mapping.unlink" "identity_mapping" link JNull)
      (in_identity (Accounts.UnlinkFederatedIdentity actor link)) unnamed).

(** *** Configuration changes *)

Definition unavailable (code message : string) : error := InternalServer code message.

Definition CreateConfigChange (c : Call) (input : ConfigChange.CreateInput) : M Change :=
  handler c (fun actor =>
    _ ← guard_not (negb (has_configChange s)) (unavailable "CONFIG_CHANGE_UNAVAILABLE" "config change service is unavailable");
    run (newAuditEvent c actor "config_change.create" "config_change" (ci_DataID input)
           (object [("version", JNum (Itoa (ci_Version input))); ("sensitive", JBool (ci_Sensitive input))]))
      (in_changes (ConfigChange.service_Create actor input)) unnamed).

Definition transitionConfigChange (c : Call) (id approval action requestType auditAction : string) : M Change :=
  handler c (fun actor =>
    _ ← guard_not (negb (has_configChange s) || negb (has_approval s))
          (unavailable "CONFIG_CHANGE_UNAVAILABLE" "config change approval boundary is unavailable");
    let id := TrimSpace id in
    let approval := TrimSpace approval in
    _ ← guard_not ((id =s "") || (approval =s ""))
          (BadRequest "CONFIG_CHANGE_APPROVAL_REQUIRED" "change_id and approval_id are required");
    let payload := Marshal (object [("change_id", JStr id); ("approval_id", JStr approval); ("action", JStr action)]) in
    run (newAuditEvent c actor auditAction "config_change" id (object [("approval_id", JStr approval)]))
      (_ ← in_approval (Approval.AuthorizeExecution actor approval
             (Approval.mkExecutionInput requestType auditAction "config_change" id payload));
       at_ ← now;
       moved ← in_changes (Transition actor id (ConfigChange.mkRequest action (UTC at_) (p_UserID actor) approval));
       mret (fst moved)) unnamed).

Definition ApproveConfigChange (c : Call) (id approval : string) : M Change :=
  transitionConfigChange c id approval ActionApprove "CONFIG_CHANGE_APPROVE" "config_change.approve".
Definition PublishConfigChange (c : Call) (id approval : string) : M Change :=
  transitionConfigChange c id approval ActionPublish "CONFIG_CHANGE_PUBLISH" "config_change.publish".
Definition RequestConfigRollback (c : Call) (id approval : string) : M Change :=
  transitionConfigChange c id approval ActionRequestRollback "CONFIG_CHANGE_ROLLBACK_REQUEST" "config_change.rollback.request".
Definition RollbackConfigChange (c : Call) (id approval : string) : M Change :=
  transitionConfigChange c id approval ActionRollback "CONFIG_CHANGE_ROLLBACK" "config_change.rollback".

(** *** Data policies and exports *)

Definition UpsertDataFieldPolicy (c : Call) (input : option FieldPolicy) (approval : string) : M PolicyRecord :=
  handler c (fun actor =>
    _ ← guard_not (negb (has_dataPolicy s) || negb (has_approval s))
          (unavailable "DATA_POLICY_UNAVAILABLE" "data policy approval boundary is unavailable");
    match input with
    | None => fail (BadRequest "INVALID_DATA_POLICY" "data policy field_key is required")
    | Some policy =>
      _ ← guard_not (TrimSpace (f_Key policy) =s "") (BadRequest "INVALID_DATA_POLICY" "data policy field_key is required");
      _ ← mapped serviceError (lift (DataPolicy.Validate policy));
      run (newAuditEvent c actor "data_policy.upsert" "data_field_policy" (f_Key policy)
             (object [("approval_id", JStr approval); ("classification", JStr (f_Classification policy));
                      ("mask_strategy", JStr (f_Mask policy))]))
        (_ ← in_approval (Approval.AuthorizeExecution actor approval
               (Approval.mkExecutionInput "DATA_POLICY_CHANGE" "data_policy.upsert" "data_field_policy" (f_Key policy)
                  (protojson_field policy)));
         in_policies (DataPolicy.Upsert actor policy)) unnamed
    end).

Definition AuthorizeDataExport (c : Call) (approval purpose watermark : string) (keys : list string) : M unit :=
  handler c (fun actor =>
    _ ← guard_not (negb (has_dataPolicy s) || negb (has_approval s))
          (unavailable "DATA_POLICY_UNAVAILABLE" "data policy approval boundary is unavailable");
    let payload := Marshal (object [("field_keys", repeated keys); ("purpose", JStr purpose); ("watermark", JStr watermark)]) in
    run (newAuditEvent c actor "data_export.authorize" "data_export" (joined keys)
           (object [("approval_id", JStr approval); ("purpose", JStr purpose); ("field_count", count keys)]))
      (_ ← in_policies (DataPolicy.service_AuthorizeExport actor keys (mkExportRequest approval purpose watermark));
       in_approval (Approval.AuthorizeExecution actor approval
         (Approval.mkExecutionInput "DATA_EXPORT" "data.export" "data_field_policy" (joined keys) payload))) unnamed).

Definition RecordDataDeletionEvidence (c : Call) (approval resourceType resourceDigest reason : string) (keys : list string)
    (recordsDeleted : Z) (deletedAt : option Time) : M DeletionEvidence :=
  handler c (fun actor =>
    _ ← guard_not (negb (has_dataPolicy s) || negb (has_approval s))
          (unavailable "DATA_RETENTION_UNAVAILABLE" "data retention approval boundary is unavailable");
    match deletedAt with
    | None => fail (BadRequest "INVALID_RETENTION_EVIDENCE" "deleted_at is required")
    | Some deletedAt =>
      let evidence := mkEvidence "" "" resourceType resourceDigest keys reason recordsDeleted (UTC deletedAt) "" zeroTime in
      _ ← mapped serviceError (in_policies (ValidateDeletionEvidence actor evidence));
      let payload := Marshal (object [("resource_type", JStr resourceType); ("resource_digest", JStr resourceDigest);
        ("field_keys", repeated keys); ("reason", JStr reason); ("records_deleted", JNum (Itoa recordsDeleted));
        ("deleted_at", instant (UTC deletedAt))]) in
      run (newAuditEvent c actor "data_retention.deletion_evidence.record" "data_deletion_evidence" resourceDigest
             (object [("approval_id", JStr approval); ("field_count", count keys);
                      ("records_deleted", JNum (Itoa recordsDeleted))]))
        (_ ← in_approval (Approval.AuthorizeExecution actor approval
               (Approval.mkExecutionInput "DATA_RETENTION" "data_retention.deletion_evidence.record" "data_deletion_evidence"
                  resourceDigest payload));
         in_policies (RecordDeletionEvidence actor evidence)) unnamed
    end).

Definition DownloadDataExport (c : Call) (artifact : string) : M (DownloadArtifact * string) :=
  handler c (fun actor =>
    _ ← guard_not (negb (has_dataPolicy s) || (TrimSpace artifact =s ""))
          (BadRequest "EXPORT_ARTIFACT_REQUIRED" "artifact_id is required");
    run (newAuditEvent c actor "data_export.download" "data_export" artifact JNull)
      (in_policies (OpenExport controller actor artifact))
      (fun '(a, _) event => event <| e_Details := object [("artifact_id", JStr (a_ID a)); ("sha256", JStr (a_SHA256 a));
                                                           ("size_bytes", JNum (Itoa (a_Size a)))] |>)).

Definition RevokeDataExport (c : Call) (artifact reason : string) : M unit :=
  handler c (fun actor =>
    let artifact := TrimSpace artifact in
    _ ← guard_not (artifact =s "") (BadRequest "EXPORT_ARTIFACT_REQUIRED" "artifact_id is required");
    let reason := TrimSpace reason in
    _ ← guard_not ((reason =s "") || (512 <? slen reason))
          (BadRequest "EXPORT_REVOKE_REASON_REQUIRED" "a bounded revoke reason is required");
    _ ← guard_not (negb (has_dataPolicy s)) (unavailable "DATA_POLICY_UNAVAILABLE" "data policy service is unavailable");
    _ ← run (newAuditEvent c actor "data_export.revoke" "data_export" artifact (object [("reason", JStr reason)]))
          (in_policies (RevokeExportState controller actor artifact reason)) unnamed;
    mapped serviceError (in_policies (CleanupExport controller actor artifact))).
(** *** The audit log *)

Definition defaultAuditExportLimit : Z := 1000.
Definition maximumAuditExportLimit : Z := 5000.

(** The cells of the audit export are made safe without regard to byte order
    marks. *)
Definition sanitizeAuditCell (value : string) : string :=
  match TrimLeftFunc IsSpace value with
  | EmptyString => value
  | String ch _ => if ContainsAny (String ch "") "=+-@" then String "'" value else value
  end.

Definition audit_columns : list string :=
  ["id"; "occurred_at"; "request_id"; "organization_id"; "actor_id"; "actor_name"; "action"; "resource_type";
   "resource_id"; "result"; "client_ip"; "details"].
Definition audit_record (event : Event) : list string :=
  [e_ID event; RFC3339Nano (UTC (e_OccurredAt event)); e_RequestID event; e_OrganizationID event; e_ActorID event;
   e_ActorName event; e_Action event; e_ResourceType event; e_ResourceID event; e_Result event; e_ClientIP event;
   Marshal (e_Details event)].

Definition encodeAuditCSV (items : list Event) : string :=
  concat_strings (csv_record audit_columns :: map (fun item => csv_record (map sanitizeAuditCell (audit_record item))) items).
Definition encodeAuditExport (items : list Event) (format : string) : string :=
  if format =s "json" then Marshal (JArr (map event_json items)) else encodeAuditCSV items.

(** The content; the file name and the content type follow from the format. *)
Definition ExportAuditLogs (c : Call) (format approval : string) (limit : Z) : M string :=
  handler c (fun actor =>
    let format := ToLower (TrimSpace format) in
    let format := if format =s "" then "json" else format in
    _ ← guard_not ((format <>s "json") && (format <>s "csv"))
          (BadRequest "INVALID_EXPORT_FORMAT" "export format must be json or csv");
    let limit := if limit =? 0 then defaultAuditExportLimit else limit in
    _ ← guard_not ((limit <? 1) || (maximumAuditExportLimit <? limit))
          (BadRequest "INVALID_EXPORT_LIMIT" "export limit must be between 1 and 5000");
    let payload := Marshal (object [("format", JStr format); ("limit", JNum (Itoa limit))]) in
    run (newAuditEvent c actor "audit.export" "audit_log" "organization"
           (object [("format", JStr format); ("limit", JNum (Itoa limit)); ("approval_id", JStr approval)]))
      (_ ← authorize actor approval "AUDIT_LOG_EXPORT" "audit.export" "audit_log" "organization" payload;
       items ← in_audit (AuditLog.List_ (p_OrganizationID actor) limit);
       mret (encodeAuditExport items format)) unnamed).

Definition VerifyAuditIntegrity (c : Call) : M unit :=
  handler c (fun actor => mapped serviceError (in_audit (AuditLog.VerifyIntegrity (p_OrganizationID actor)))).

(** *** Approvals *)

Definition durationSeconds (value : Z) : Duration := wrap64 (value * Second).

Definition run_approval {A} (event : Event) (op : M A) (named : A -> Event -> Event) : M A :=
  mapped approvalServiceError (approval_audited event op named).

Definition set_detail (key value : string) (event : Event) : Event :=
  event <| e_Details := JObj (obj_set key (JStr value) (match e_Details event with JObj l => l | _ => [] end)) |>.

Definition CreateApproval (c : Call) (requestType action resource_ resourceID summary payload mode : string)
    (required expiresInSeconds : Z) (approvers : list string) : M Approval.Request :=
  handler c (fun actor =>
    run_approval (newAuditEvent c actor "approval.create" "approval" ""
                    (object [("request_type", JStr requestType); ("action", JStr action); ("resource", JStr resource_)]))
      (in_approval (Approval.service_Create actor (Approval.mkCreateInput requestType action resource_ resourceID summary
         payload mode required approvers (durationSeconds expiresInSeconds))))
      (fun created event => set_detail "request_digest" (Approval.r_RequestDigest created)
                              (resource (Approval.r_ID created) event))).

Definition DecideApproval (c : Call) (approval decision comment : string) : M Approval.Request :=
  handler c (fun actor =>
    run_approval (newAuditEvent c actor "approval.decide" "approval" approval (object [("decision", JStr decision)]))
      (in_approval (Approval.service_Decide actor approval decision comment)) unnamed).

Definition TransferApproval (c : Call) (approval assignee comment : string) : M Approval.Request :=
  handler c (fun actor =>
    run_approval (newAuditEvent c actor "approval.transfer" "approval" approval (object [("new_assignee_id", JStr assignee)]))
      (in_approval (Approval.service_Transfer actor approval assignee comment)) unnamed).

Definition WithdrawApproval (c : Call) (approval comment : string) : M Approval.Request :=
  handler c (fun actor =>
    run_approval (newAuditEvent c actor "approval.withdraw" "approval" approval JNull)
      (in_approval (Approval.service_Withdraw actor approval comment)) unnamed).

Definition GetApproval (c : Call) (approval : string) : M Approval.Request :=
  handler c (fun actor => mapped approvalServiceError (in_approval (Approval.service_Get actor approval))).
Definition ListApprovals (c : Call) : M (list Approval.Request) :=
  handler c (fun actor => mapped approvalServiceError (in_approval (Approval.service_List actor))).
End service.
