(* ===== verification/Composition.v ===== *)
(** * The platform as a whole

    What the handlers of [Platform] make of the components together: every
    change comes with its audit event, critical changes with the approval they
    claim, and every history of requests is, in the tables of each component, a
    history of that component, so that what is proved of the components holds of
    the platform. *)

From S2P Require Import Prelude GoString GoTime Json Database Identity GrantPolicy SecurityPolicy Directory IdentityStore.
From S2P Require Import Password Keyring Roles Accounts Oversight ConfigChange Approval AuditLog Download DataPolicy RequestGate Platform.

Lemma zoom_run {S T A} (get : S -> T) (put : T -> S -> S) (m : Database.M T A) e n s r n' s' :
  zoom get put m e n s = (r, n', s') -> exists x, m e n (get s) = (r, n', x) /\ s' = put x s.
Proof. unfold zoom. destruct (m e n (get s)) as [[r0 n0] x]. intros [= -> -> <-]. by exists x. Qed.

Lemma mapped_run {S A} reply (m : Database.M S A) e n t r n' t' : mapped reply m e n t = (r, n', t') ->
  exists r0, m e n t = (r0, n', t') /\ is_ok r = is_ok r0 /\ (forall a, r = Ok a <-> r0 = Ok a).
Proof.
  unfold mapped. destruct (m e n t) as [[[a|err] k] t1]; intros [= <- -> ->]; eexists;
    (split; [reflexivity|split; [done|]]); intros b; split; congruence.
Qed.

(** ** Accounts and roles *)

(** What happens to accounts leaves the tables of roles as they are. *)
Lemma same_map_users t0 t p f : (forall r, user_triple (f r) = user_triple r) -> same_roles t0 t ->
  same_roles t0 (put_users (update_where p f (users t)) t).
Proof. intros F []. split; try done. cbn. rewrite map_update_where; done. Qed.

Lemma keeps_change_users t0 p f : (forall r, user_triple (f r) = user_triple r) ->
  keeps (same_roles t0) (exec (change_users p f)).
Proof. intros F. apply keeps_exec. intros t S. by apply same_map_users. Qed.
Lemma keeps_affected_users t0 p f : (forall r, user_triple (f r) = user_triple r) ->
  keeps (same_roles t0) (affected users put_users p f).
Proof. intros F. apply keeps_stmt. intros t n t' S [= _ <-]. by apply same_map_users. Qed.
Lemma keeps_sessions t0 p : keeps (same_roles t0) (exec (drop_sessions p)).
Proof. apply keeps_exec. intros t []. by split. Qed.
Lemma keeps_history t0 h : keeps (same_roles t0) (stmt (insert_history h)).
Proof.
  apply keeps_stmt. intros t u t' [] E. unfold insert_history in E. guards E. injection E as _ <-. by split.
Qed.
#[local] Hint Resolve keeps_change_users keeps_affected_users keeps_sessions keeps_history keeps_UserByID : forge.


Section accounts.
Context `{UnicodeTables} `{Argon2} (service : Service).

Lemma UnlockUser_same t0 org user : keeps (same_roles t0) (Accounts.UnlockUser org user).
Proof. unfold Accounts.UnlockUser, repo_UnlockUser. keeps_walk; by apply keeps_affected_users. Qed.

Lemma AdminResetPassword_same t0 org user next :
  keeps (same_roles t0) (Accounts.AdminResetPassword service org user next).
Proof.
  assert (Y : keeps (same_roles t0) (IdentityStore.in_settings (resolveSecurityPolicy service org)))
    by apply reads_keeps, in_settings_reads, reads_resolve.
  unfold Accounts.AdminResetPassword, PasswordHashByID, repo_AdminResetPassword, check_reuse, PasswordHistory, Hash.
  keeps_walk; by apply keeps_change_users.
Qed.

Lemma RevokeSession_same t0 org session current : keeps (same_roles t0) (Accounts.RevokeSession org session current).
Proof.
  unfold Accounts.RevokeSession, repo_RevokeSession. keeps_walk.
  apply keeps_stmt. intros t n t' [] [= _ <-]. by split.
Qed.

Lemma UpdateOrganization_same t0 org req : keeps (same_roles t0) (Accounts.UpdateOrganization org req).
Proof.
  unfold Accounts.UpdateOrganization, repo_UpdateOrganization, OrganizationByID. keeps_walk.
  apply keeps_exec. intros t []. by split.
Qed.

Lemma LinkFederatedIdentity_same t0 actor provider subject user approval :
  keeps (same_roles t0) (Accounts.LinkFederatedIdentity actor provider subject user approval).
Proof.
  unfold Accounts.LinkFederatedIdentity, require_actor, RequireRecentMFA, CreateFederatedIdentityLink,
    FederatedIdentityByProviderSubject. keeps_walk.
  apply keeps_stmt. intros t u t' [] E. unfold insert_external in E. guards E. injection E as _ <-. by split.
Qed.

Lemma UnlinkFederatedIdentity_same t0 actor link :
  keeps (same_roles t0) (Accounts.UnlinkFederatedIdentity actor link).
Proof.
  unfold Accounts.UnlinkFederatedIdentity, require_actor, RequireRecentMFA, DeleteFederatedIdentityLink. keeps_walk.
  apply keeps_stmt. intros t n t' [] [= _ <-]. by split.
Qed.
End accounts.

(** ** Requests *)

Section platform.
Context {X O : Type} `{UnicodeTables} `{Argon2} `{TOTP} `{KratosErrors} `{KratosReplies}.
Notation M := (Database.M (Tables X O)).
Context (service : Service) (controller : option (ArtifactObjectStore (O := O) * Z)).
Context (column_time : Time -> Time) (forwarder : option (Forwarder (X := X))).
Context (protojson : SecurityPolicy -> string) (protojson_field : FieldPolicy -> string).
Context (s : PlatformService).

(** What runs inside the transaction of a request: operations of the
    components, in sequence. *)
Inductive part : forall A, M A -> Prop :=
| part_roles A (m : Database.M IdentityStore.Tables A) : role_operation service A m -> part A (in_identity m)
| part_accounts A (m : Database.M IdentityStore.Tables A) :
    (forall t, keeps (same_roles t) m) -> part A (in_identity m)
| part_directory A (m : Database.M Directory.Tables A) : part A (Platform.in_directory m)
| part_settings A (m : Database.M Settings A) : part A (Platform.in_settings m)
| part_oversight A (m : Database.M Oversight.Tables A) : Oversight.operation m -> part A (in_oversight m)
| part_approval A (m : Database.M Approval.Tables A) c : Approval.run_command c = Approval.discard m ->
    part A (in_approval m)
| part_authorize actor approval input : part unit (in_approval (Approval.AuthorizeExecution actor approval input))
| part_changes A (m : Database.M ConfigChange.Table A) : part A (in_changes m)
| part_policies A (m : Database.M (DataPolicy.Tables O) A) : part A (in_policies m)
| part_audit A (m : Database.M (AuditLog.Tables X) A) : reads m -> part A (in_audit m)
| part_ret A (a : A) : part A (mret a)
| part_fail A err : part A (fail err)
| part_guard b err : part unit (guard_not b err)
| part_now : part Time now
| part_bind A B (m : M A) (f : A -> M B) : part A m -> (forall a, part B (f a)) -> part B (m ≫= f).

(** A request: checks that only read, then an audited operation, whose event is
    the principal's. *)
Record event_of (actor : Principal) (action : string) (event : Event) : Prop := {
  ev_org : e_OrganizationID event = p_OrganizationID actor;
  ev_actor : e_ActorID event = p_UserID actor;
  ev_action : e_Action event = action;
  ev_result : e_Result event = ""
}.
Definition names {A} (named : A -> Event -> Event) : Prop := forall a event actor action,
  event_of actor action event -> event_of actor action (named a event).

Inductive request (actor : Principal) (action : string) : forall A, M A -> Prop :=
| rq_audited A event (op : M A) named : part A op -> event_of actor action event -> names named ->
    request actor action A (run column_time forwarder s event op named)
| rq_approval A event (op : M A) named : part A op -> event_of actor action event -> names named ->
    request actor action A (run_approval column_time forwarder s event op named)
| rq_fail A err : request actor action A (fail err)
| rq_check A B (m : M A) (f : A -> M B) :
    reads m -> (forall a, request actor action B (f a)) -> request actor action B (m ≫= f).

(** The handlers that change something; [RevokeDataExport] deletes the object
    after its transaction and is left out. *)
Inductive api (c : Call) : string -> forall A, M A -> Prop :=
| api_CreateUser login display password keys : api c "user.create" _ (Platform.CreateUser service column_time forwarder s c login display password keys)
| api_CreateUserGroup key name description status : api c "user_group.create" _ (Platform.CreateUserGroup column_time forwarder s c key name description status)
| api_UpdateUserGroup group name description status : api c "user_group.update" _ (Platform.UpdateUserGroup column_time forwarder s c group name description status)
| api_UpdateUserGroupMembers group members : api c "user_group.members.update" _ (Platform.UpdateUserGroupMembers column_time forwarder s c group members)
| api_UpdateUserGroupRoles group keys : api c "user_group.roles.update" _ (Platform.UpdateUserGroupRoles column_time forwarder s c group keys)
| api_UpdateRolePermissions role approval permissions : api c "role.permissions.update" _ (Platform.UpdateRolePermissions column_time forwarder s c role approval permissions)
| api_UpdateRoleDataScope role dataScope approval departments : api c "role.data_scope.update" _ (Platform.UpdateRoleDataScope column_time forwarder s c role dataScope approval departments)
| api_UpdateUserRoles user approval keys : api c "user.roles.update" _ (Platform.UpdateUserRoles column_time forwarder s c user approval keys)
| api_UpdateUserStatus user status : api c "user.status.update" _ (Platform.UpdateUserStatus column_time forwarder s c user status)
| api_UnlockUser user : api c "user.unlock" _ (Platform.UnlockUser column_time forwarder s c user)
| api_ResetUserPassword user password approval : api c "user.password.reset" _ (Platform.ResetUserPassword service column_time forwarder s c user password approval)
| api_RevokeSession session : api c "session.revoke" _ (Platform.RevokeSession column_time forwarder s c session)
| api_CreateTemporaryRoleGrant user role reason approval validity : api c "temporary_role_grant.create" _ (Platform.CreateTemporaryRoleGrant column_time forwarder s c user role reason approval validity)
| api_RevokeTemporaryRoleGrant grant reason : api c "temporary_role_grant.revoke" _ (Platform.RevokeTemporaryRoleGrant column_time forwarder s c grant reason)
| api_CreateDepartment parent key name status sortOrder : api c "department.create" _ (Platform.CreateDepartment column_time forwarder s c parent key name status sortOrder)
| api_UpdateDepartment department parent name status sortOrder : api c "department.update" _ (Platform.UpdateDepartment column_time forwarder s c department parent name status sortOrder)
| api_CreatePosition department key name description status sortOrder : api c "position.create" _ (Platform.CreatePosition column_time forwarder s c department key name description status sortOrder)
| api_UpdatePosition position department name description status sortOrder : api c "position.update" _ (Platform.UpdatePosition column_time forwarder s c position department name description status sortOrder)
| api_ReplaceUserAssignments user assignments : api c "user.assignments.replace" _ (Platform.ReplaceUserAssignments column_time forwarder s c user assignments)
| api_UpdateOrganization name description status maxUsers maxSessions : api c "organization.update" _ (Platform.UpdateOrganization column_time forwarder s c name description status maxUsers maxSessions)
| api_UpdateSecurityPolicy policy approval : api c "security.config.update" _ (Platform.UpdateSecurityPolicy service column_time forwarder protojson s c policy approval)
| api_CreateAccessReview reviewer dueAt : api c "access_review.create" _ (Platform.CreateAccessReview column_time forwarder s c reviewer dueAt)
| api_DecideAccessReviewItem review item decision reason : api c "access_review.item.decide" _ (Platform.DecideAccessReviewItem column_time forwarder s c review item decision reason)
| api_CreateEmergencyAccess target scope approval reason keys expiresAt : api c "emergency_access.create" _ (Platform.CreateEmergencyAccess column_time forwarder s c target scope approval reason keys expiresAt)
| api_RevokeEmergencyAccess grant reason : api c "emergency_access.revoke" _ (Platform.RevokeEmergencyAccess column_time forwarder s c grant reason)
| api_LinkFederatedIdentity provider subject user approval : api c "identity_mapping.link" _ (Platform.LinkFederatedIdentity column_time forwarder s c provider subject user approval)
| api_UnlinkFederatedIdentity link : api c "identity_mapping.unlink" _ (Platform.UnlinkFederatedIdentity column_time forwarder s c link)
| api_CreateConfigChange input : api c "config_change.create" _ (Platform.CreateConfigChange column_time forwarder s c input)
| api_ApproveConfigChange id approval : api c "config_change.approve" _ (Platform.ApproveConfigChange column_time forwarder s c id approval)
| api_PublishConfigChange id approval : api c "config_change.publish" _ (Platform.PublishConfigChange column_time forwarder s c id approval)
| api_RequestConfigRollback id approval : api c "config_change.rollback.request" _ (Platform.RequestConfigRollback column_time forwarder s c id approval)
| api_RollbackConfigChange id approval : api c "config_change.rollback" _ (Platform.RollbackConfigChange column_time forwarder s c id approval)
| api_UpsertDataFieldPolicy input approval : api c "data_policy.upsert" _ (Platform.UpsertDataFieldPolicy column_time forwarder protojson_field s c input approval)
| api_AuthorizeDataExport approval purpose watermark keys : api c "data_export.authorize" _ (Platform.AuthorizeDataExport column_time forwarder s c approval purpose watermark keys)
| api_RecordDataDeletionEvidence approval resourceType resourceDigest reason keys recordsDeleted deletedAt : api c "data_retention.deletion_evidence.record" _ (Platform.RecordDataDeletionEvidence column_time forwarder s c approval resourceType resourceDigest reason keys recordsDeleted deletedAt)
| api_DownloadDataExport artifact : api c "data_export.download" _ (Platform.DownloadDataExport controller column_time forwarder s c artifact)
| api_ExportAuditLogs format approval limit : api c "audit.export" _ (Platform.ExportAuditLogs column_time forwarder s c format approval limit)
| api_CreateApproval requestType action resource_ resourceID summary payload mode required expiresInSeconds approvers : api c "approval.create" _ (Platform.CreateApproval column_time forwarder s c requestType action resource_ resourceID summary payload mode required expiresInSeconds approvers)
| api_DecideApproval approval decision comment : api c "approval.decide" _ (Platform.DecideApproval column_time forwarder s c approval decision comment)
| api_TransferApproval approval assignee comment : api c "approval.transfer" _ (Platform.TransferApproval column_time forwarder s c approval assignee comment)
| api_WithdrawApproval approval comment : api c "approval.withdraw" _ (Platform.WithdrawApproval column_time forwarder s c approval comment).

(** *** Every handler is a request *)

Lemma part_authorization actor approval requestType action resource_ id payload :
  part unit (authorize s actor approval requestType action resource_ id payload).
Proof. apply part_bind; [constructor|intros _]. apply part_authorize. Qed.

Lemma fresh_event c actor action type id details : event_of actor action (newAuditEvent c actor action type id details).
Proof. by split. Qed.
Lemma names_unnamed A : names (@unnamed A).
Proof. by intros a event actor action E. Qed.
Lemma names_resource A (id : A -> string) : names (fun a => resource (id a)).
Proof. intros a [] actor action []. by split. Qed.

Lemma mapped_reads {A} reply (m : M A) : reads m -> reads (mapped reply m).
Proof.
  intros Rd e n t. specialize (Rd e n t). unfold mapped. by destruct (m e n t) as [[[a|err] k] t1].
Qed.
Lemma validate_evidence_reads actor evidence : reads (in_policies (X := X) (O := O) (ValidateDeletionEvidence actor evidence)).
Proof.
  apply zoom_view; [by intros []|]. apply keeps_reads. intros t. unfold ValidateDeletionEvidence. keeps_walk.
Qed.

Lemma list_reads org limit : reads (AuditLog.List_ (X := X) org limit).
Proof. apply keeps_reads. intros t. unfold List_. keeps_walk. Qed.

Ltac solve_part :=
  repeat first
    [ apply part_authorization
    | apply part_authorize
    | apply part_roles; solve [constructor]
    | apply part_accounts; intros ?;
      solve [apply UnlockUser_same | apply AdminResetPassword_same | apply RevokeSession_same
            |apply UpdateOrganization_same | apply LinkFederatedIdentity_same | apply UnlinkFederatedIdentity_same]
    | apply part_directory
    | apply part_settings
    | apply part_oversight; solve [constructor]
    | apply part_changes
    | apply part_policies
    | apply part_audit, list_reads
    | apply part_ret
    | apply part_now
    | apply part_bind; [|intros ?]
    | eapply (part_approval _ _ (Approval.CCreate _ _)); reflexivity
    | eapply (part_approval _ _ (Approval.CDecide _ _ _ _)); reflexivity
    | eapply (part_approval _ _ (Approval.CTransfer _ _ _ _)); reflexivity
    | eapply (part_approval _ _ (Approval.CWithdraw _ _ _)); reflexivity ].

Ltac solve_names :=
  first [apply names_unnamed | apply names_resource | intros [] [] ? ? []; by split | intros ? [] ? ? []; by split].

Ltac solve_request :=
  repeat first
    [ apply rq_audited; [solve_part|apply fresh_event|solve_names]
    | apply rq_approval; [solve_part|apply fresh_event|solve_names]
    | apply rq_fail
    | match goal with |- request _ _ _ (match ?x with _ => _ end) => destruct x end
    | apply rq_check; [first [apply mapped_reads; first [apply validate_evidence_reads|apply keeps_reads; intros ?; keeps_walk]
                             |apply keeps_reads; intros ?; keeps_walk]|intros ?] ].

Lemma api_request c action A m : api c action A m ->
  exists k, m = handler c k /\ forall actor, request actor action A (k actor).
Proof.
  intros Ap. destruct Ap; (eexists; split; [reflexivity|]); intros actor; cbn beta zeta; try solve [solve_request].
Qed.

(** ** What a request does to the tables of each component *)

Definition identity_of (t : Tables X O) : IdentityStore.Tables := ov_identity (pf_oversight t).

Record moved (t t' : Tables X O) : Prop := {
  mv_approval : Approval.history (approval_view t) -> Approval.history (approval_view t');
  mv_roles : Roles.history service (identity_of t) (identity_of t');
  mv_oversight : Oversight.history (pf_oversight t) (pf_oversight t')
}.

Lemma moved_refl t : moved t t.
Proof. split; [done|apply rtc_refl..]. Qed.
Lemma moved_trans t1 t2 t3 : moved t1 t2 -> moved t2 t3 -> moved t1 t3.
Proof. intros [A1 B1 C1] [A2 B2 C2]. split; [auto|by etransitivity..]. Qed.

(** A change of the identity tables alone. *)
Lemma identity_moves t i : Roles.history service (identity_of t) i ->
  moved t (t <| pf_oversight := (pf_oversight t) <| ov_identity := i |> |>).
Proof.
  intros R. split; [|exact R|apply rtc_once; by eapply step_identity].
  intros A. apply (Approval.H_users (map approval_user (users i))) in A. exact A.
Qed.

Lemma WithTx_nested {S A} (m : Database.M S A) e n t : in_tx e = true -> WithTx m e n t = m e n t.
Proof. intros T. unfold WithTx. by rewrite T. Qed.

Lemma same_directory d t : same_roles t (put_directory d t).
Proof. by split. Qed.

Lemma part_moves A m : part A m -> forall e n t a n' t', in_tx e = true ->
  (forall k, TrimSpace (uuids e k) = uuids e k) -> m e n t = (Ok a, n', t') -> moved t t'.
Proof.
  induction 1 as [A m Op|A m K|A m|A m|A m Op|A m c Ec|actor approval input|A m|A m|A m Rd|A a0|A err|b err| |A B m f _ IH _ IHf];
    intros e n t a n' t' T U E.
  - apply zoom_run in E as (o & E & ->). apply zoom_run in E as (i & E & ->). apply identity_moves.
    apply rtc_once. eapply (step_operation service _ m e n _ (Ok a)); [done|by right|done|]. by rewrite WithTx_nested.
  - apply zoom_run in E as (o & E & ->). apply zoom_run in E as (i & E & ->). apply identity_moves.
    apply rtc_once, step_other. specialize (K (identity_of t) e n (identity_of t) (same_roles_refl _)).
    unfold identity_of in *. by rewrite E in K.
  - apply zoom_run in E as (o & E & ->). apply zoom_run in E as (i & E & ->). apply zoom_run in E as (d & E & ->).
    apply identity_moves. apply rtc_once, step_other, same_directory.
  - apply zoom_run in E as (o & E & ->). apply zoom_run in E as (i & E & ->). apply zoom_run in E as (d & E & ->).
    apply identity_moves. apply rtc_once, step_other. by split.
  - apply zoom_run in E as (o & E & ->). pose proof (operation_identity _ _ _ _ _ _ _ _ Op E) as I.
    split; cbn; [|unfold identity_of; cbn; rewrite I; apply rtc_refl|].
    + intros A0. unfold approval_view. cbn. rewrite I. exact A0.
    + apply rtc_once. eapply (step_request _ _ m e n (Ok a)); [done|by right|]. by rewrite WithTx_nested.
  - apply zoom_run in E as (x & E & ->). split; [|apply rtc_refl..]. intros A0.
    apply (Approval.H_command c e n (Ok tt) n' _ x) in A0.
    + exact (Approval.H_users (map approval_user (users (identity_of t))) x A0).
    + rewrite Ec. unfold discard, mbind, M_bind. by rewrite E.
  - apply zoom_run in E as (x & E & ->). split; [|apply rtc_refl..]. intros A0. destruct a.
    apply (Approval.H_command (Approval.CAuthorize actor approval input) e n (Ok tt) n' _ x) in A0; [|exact E].
    exact (Approval.H_users (map approval_user (users (identity_of t))) x A0).
  - apply zoom_run in E as (x & E & ->). split; [done|apply rtc_refl..].
  - apply zoom_run in E as (x & E & ->). split; [done|apply rtc_refl..].
  - apply zoom_run in E as (x & E & ->). specialize (Rd e n (pf_audit t)). rewrite E in Rd. cbn in Rd. subst x.
    split; [done|apply rtc_refl..].
  - apply ret_ok in E as (_ & _ & <-). apply moved_refl.
  - discriminate.
  - apply guard_runs in E as [_ ->]. apply moved_refl.
  - apply now_ok in E as (_ & _ & <-). apply moved_refl.
  - apply bind_ok in E as (x & n1 & t1 & E1 & E2). eapply moved_trans; [by eapply IH|by eapply IHf].
Qed.

(** ** One request *)

Lemma in_tx_set e : in_tx e = true -> e <| in_tx := true |> = e.
Proof. destruct e. cbn. by intros ->. Qed.

Lemma WithTx_inside {S A} (m : Database.M S A) e n t a n' t' : WithTx m e n t = (Ok a, n', t') ->
  exists n0 k, m (e <| in_tx := true |>) n0 t = (Ok a, k, t').
Proof.
  unfold WithTx. destruct (in_tx e) eqn:T.
  - intros E. exists n, n'. by rewrite (in_tx_set e T).
  - destruct (faults e n); [discriminate|]. destruct (m _ _ _) as [[[b|err] k] s1] eqn:E; [|discriminate].
    destruct (faults e k); [discriminate|]. intros [= <- _ <-]. by exists (Datatypes.S n), k.
Qed.

(** The audit log after an event was written, and the tables after it. *)
Record wrote (e : Env) (event : Event) (t t' : Tables X O) : Prop := {
  wr_rest : t' = t <| pf_audit := pf_audit t' |>;
  wr_run : exists k m, AuditLog.Write column_time forwarder event (e <| in_tx := true |>) k (pf_audit t) = (Ok tt, m, pf_audit t')
}.

Lemma write_runs e event n t u n' t' : in_tx e = true -> write column_time forwarder event e n t = (Ok u, n', t') ->
  wrote e event t t'.
Proof.
  intros T E. apply zoom_run in E as (x & E & ->). split; [done|]. destruct u. exists n, n'.
  rewrite (in_tx_set e T). exact E.
Qed.

Lemma with_event_runs A event (op : M A) named e n t a n' t' :
  with_event column_time forwarder event op named e n t = (Ok a, n', t') ->
  exists n0 k t1, op (e <| in_tx := true |>) n0 t = (Ok a, k, t1) /\ wrote e (named a event) t1 t'.
Proof.
  intros E. apply WithTx_inside in E as (n0 & k & E). apply bind_ok in E as (b & n1 & t1 & E1 & E).
  apply bind_ok in E as (u & n2 & t2 & E2 & E). apply ret_ok in E as (<- & _ & <-).
  exists n0, n1, t1. split; [done|]. apply write_runs in E2 as [W1 (j & m & W2)]; [|done]. split; [done|].
  exists j, m. exact W2.
Qed.

(** What runs in the transaction leaves the audit log alone. *)
Lemma keeps_zoom {T A} (I : Tables X O -> Prop) get put (m : Database.M T A) :
  (forall x t, I t -> I (put x t)) -> keeps I (zoom get put m).
Proof. intros P e n t It. unfold zoom. destruct (m e n (get t)) as [[r k] x]. by apply P. Qed.

Lemma part_keeps_audit l A m : part A m -> keeps (fun t => pf_audit t = l) m.
Proof.
  induction 1 as [A m Op|A m K|A m|A m|A m Op|A m c Ec|actor approval input|A m|A m|A m Rd|A a0|A err|b err| |A B m f _ IH _ IHf];
    try (by apply keeps_zoom); try (by auto with forge).
  - by apply reads_keeps, zoom_view; [intros []|].
  - by apply keeps_bind.
Qed.

(** What a request does: it succeeds, having run its operation and written an
    event of the principal; or it fails and leaves everything but, perhaps, an
    event of the failure. *)
Inductive outcome (actor : Principal) (action : string) (e : Env) (t t' : Tables X O) : bool -> Prop :=
| succeeded A (op : M A) n0 k a t1 event : part A op -> op (e <| in_tx := true |>) n0 t = (Ok a, k, t1) ->
    event_of actor action event -> wrote e event t1 t' -> outcome actor action e t t' true
| refused : t' = t -> outcome actor action e t t' false
| failure_recorded event : e_OrganizationID event = p_OrganizationID actor -> e_ActorID event = p_UserID actor ->
    e_Action event = action -> e_Result event = "FAILURE" -> wrote e event t t' -> outcome actor action e t t' false.

Lemma named_event A (named : A -> Event -> Event) event (op : M A) actor action e n t :
  names named -> event_of actor action event -> event_of actor action (event_after event op named e n t).
Proof.
  intros N E. unfold event_after. destruct (in_tx e); [|destruct (faults e n); [done|]];
    destruct (op _ _ _) as [[[a|err] k] t1]; auto.
Qed.

Lemma with_event_outcome A event (op : M A) named actor action e n t r n' t' : in_tx e = false ->
  part A op -> event_of actor action event -> names named ->
  with_event column_time forwarder event op named e n t = (r, n', t') -> outcome actor action e t t' (is_ok r).
Proof.
  intros T P E N R. destruct r as [a|err].
  - apply with_event_runs in R as (n0 & k & t2 & R & W). eapply succeeded; [exact P|exact R|by apply N|exact W].
  - assert (t' = t) as -> by (unfold with_event in R; by eapply WithTx_atomic). by apply refused.
Qed.

Lemma audited_outcome A event (op : M A) named actor action e n t r n' t' : in_tx e = false ->
  part A op -> event_of actor action event -> names named ->
  audited column_time forwarder s event op named e n t = (r, n', t') -> outcome actor action e t t' (is_ok r).
Proof.
  intros T P E N R. unfold audited in R. destruct (_ || _); [injection R as <- _ <-; by apply refused|].
  destruct (with_event _ _ _ _ _ _ _ _) as [[[a|err] n1] t1] eqn:W.
  - injection R as <- _ <-. by eapply with_event_outcome in W.
  - assert (t1 = t) as -> by (unfold with_event in W; by eapply WithTx_atomic).
    destruct (WithTx _ e n1 t) as [[[u|err2] n2] t2] eqn:F; injection R as <- _ <-.
    + apply WithTx_inside in F as (n0 & k & F). apply write_runs in F as [F1 (j & m & F2)]; [|done].
      destruct (named_event A named event op actor action e n t N E).
      eapply (failure_recorded _ _ _ _ _ (failed (event_after event op named e n t))); [done..|].
      split; [exact F1|]. by exists j, m.
    + apply WithTx_atomic in F as ->; [|done]. by apply refused.
Qed.

Lemma request_outcome actor action A m : request actor action A m -> forall e n t r n' t', in_tx e = false ->
  m e n t = (r, n', t') -> outcome actor action e t t' (is_ok r).
Proof.
  induction 1 as [A event op named P E N|A event op named P E N|A err|A B m f Rd _ IH]; intros e n t r n' t' T R.
  - apply mapped_run in R as (r0 & R & -> & _). by eapply audited_outcome.
  - apply mapped_run in R as (r0 & R & -> & _). unfold approval_audited in R. destruct (_ || _).
    + injection R as <- _ <-. by apply refused.
    + by eapply with_event_outcome.
  - injection R as <- _ <-. by apply refused.
  - apply reads_split in R as [[-> K]|(a & n1 & _ & R)]; [rewrite K; by apply refused| |done]. by eapply IH.
Qed.

Lemma handler_outcome c action A (k : Principal -> M A) e n t r n' t' :
  handler c k e n t = (r, n', t') -> in_tx e = false -> (forall actor, request actor action A (k actor)) ->
  (exists actor, requiredPrincipal c = Ok actor /\ outcome actor action e t t' (is_ok r)) \/
  (is_ok r = false /\ t' = t).
Proof.
  intros R T Rq. unfold handler in R.
  destruct (requiredPrincipal c) as [actor|err].
  - left. exists actor. split; [done|]. change (k actor e n t = (r, n', t')) in R. by eapply request_outcome.
  - right. change ((Err err, n, t) = (r, n', t')) in R. by injection R as <- _ <-.
Qed.

Lemma api_outcome c action A m e n t r n' t' : api c action A m -> in_tx e = false -> m e n t = (r, n', t') ->
  (exists actor, requiredPrincipal c = Ok actor /\ outcome actor action e t t' (is_ok r)) \/
  (is_ok r = false /\ t' = t).
Proof.
  intros Ap T R. apply api_request in Ap as (k & -> & Rq). by eapply handler_outcome.
Qed.

(** *** What the audit log says of it *)

(** A row of the log that says what the principal did, and how it went. *)
Record recorded (actor : Principal) (action result : string) (row : AuditLog.Row) : Prop := {
  rec_org : l_organization_id row = nullIfEmpty (p_OrganizationID actor);
  rec_actor : l_actor_id row = nullIfEmpty (p_UserID actor);
  rec_action : l_action row = action;
  rec_result : l_result row = result
}.

Lemma wrote_row e event t t' actor action result :
  e_OrganizationID event = p_OrganizationID actor -> e_ActorID event = p_UserID actor -> e_Action event = action ->
  (if e_Result event =s "" then "SUCCESS" else e_Result event) = result -> wrote e event t t' ->
  exists row, recorded actor action result row /\ au_logs (pf_audit t') = (au_logs (pf_audit t) ++ [row])%list.
Proof.
  intros E1 E2 E3 E4 [_ (k & m & W)]. apply Write_ok in W as (e' & raw & j & _ & _ & _ & _ & _ & _ & L & _ & _ & _ & S).
  exists (AuditLog.row_of column_time e' raw). split; [|exact L]. destruct S. split; cbn; congruence.
Qed.

Lemma outcome_recorded actor action e t t' ok : outcome actor action e t t' ok ->
  if ok then exists row, recorded actor action "SUCCESS" row /\ au_logs (pf_audit t') = (au_logs (pf_audit t) ++ [row])%list
  else t' = t \/ exists row, recorded actor action "FAILURE" row /\
         au_logs (pf_audit t') = (au_logs (pf_audit t) ++ [row])%list /\ t' = t <| pf_audit := pf_audit t' |>.
Proof.
  intros [A op n0 k a t1 event P R Ev W|E|event E1 E2 E3 E4 W].
  - pose proof (part_keeps_audit (pf_audit t) A op P (e <| in_tx := true |>) n0 t eq_refl) as K. rewrite R in K. cbn in K.
    rewrite <- K. destruct Ev as [V1 V2 V3 V4]. apply (wrote_row e event); [done..| |exact W]. by rewrite V4.
  - by left.
  - right. assert (Rest := wr_rest _ _ _ _ W). destruct (wrote_row e event t t' actor action "FAILURE") as (row & Rw & L); [done..|by rewrite E4|done|].
    by exists row.
Qed.

(** ** Histories of the platform *)

(** Requests to the handlers, one after the other and with any outcome, between
    any changes of the accounts that leave the roles alone (logins, passwords,
    sessions), of the configuration changes and data policies, and of the audit
    log by its other writers and purges.  The clock does not run backwards. *)
Definition steady (T T' : Time) (e : Env) : Prop :=
  forall k, T <= clock e k <= T' /\ column_time (clock e k) = clock e k.

Inductive history (t0 : Tables X O) : Time -> Tables X O -> Prop :=
| hs_start T : pf_requests t0 = [] -> pf_tasks t0 = [] -> pf_executions t0 = [] ->
    (exists x, pf_audit t0 = AuditLog.mkTables [] ∅ ∅ [] x) -> history t0 T t0
| hs_request T T' t c action A m e n r n' t' : history t0 T t -> api c action A m ->
    (forall p, c_principal (call_ctx c) = Some p -> p_OrganizationID p <> "global") ->
    in_tx e = false -> (forall k, TrimSpace (uuids e k) = uuids e k) -> steady T T' e ->
    m e n t = (r, n', t') -> history t0 T' t'
| hs_accounts T t i : history t0 T t -> same_roles (identity_of t) i ->
    history t0 T (t <| pf_oversight := (pf_oversight t) <| ov_identity := i |> |>)
| hs_policies T t changes policies : history t0 T t ->
    history t0 T (t <| pf_changes := changes |> <| pf_policies := policies |>)
| hs_audit T T' t forwarder' event e n r n' l : history t0 T t -> in_tx e = false \/ is_ok r = true ->
    e_OrganizationID event <> "global" -> steady T T' e ->
    AuditLog.Write column_time forwarder' event e n (pf_audit t) = (r, n', l) ->
    history t0 T' (t <| pf_audit := l |>)
| hs_purge T t archive days e n r n' l : history t0 T t -> in_tx e = false ->
    AuditLog.PurgeExpired archive days e n (pf_audit t) = (r, n', l) ->
    history t0 T (t <| pf_audit := l |>).

(** What a history is in the tables of each component. *)
Record refines (t0 : Tables X O) (T : Time) (t : Tables X O) : Prop := {
  rf_approval : Approval.history (approval_view t);
  rf_roles : Roles.history service (identity_of t0) (identity_of t);
  rf_oversight : Oversight.history (pf_oversight t0) (pf_oversight t);
  rf_audit : AuditLog.history column_time T (pf_audit t)
}.

Lemma refines_moved t0 T t t' : refines t0 T t -> moved t t' -> pf_audit t' = pf_audit t -> refines t0 T t'.
Proof.
  intros [A1 B1 C1 D1] [A2 B2 C2] E. split; [by apply A2|by etransitivity|by etransitivity|by rewrite E].
Qed.

Lemma steady_inside T T' e : steady T T' e -> steady T T' (e <| in_tx := true |>).
Proof. intros S k. apply S. Qed.

Lemma refines_wrote t0 T T' t t' e event : refines t0 T t -> wrote e event t t' -> steady T T' e ->
  e_OrganizationID event <> "global" -> refines t0 T' t'.
Proof.
  intros [A1 B1 C1 D1] [E (k & m & W)] S G. rewrite E. split; cbn; try done.
  eapply (AuditLog.h_write column_time T T' _ forwarder event); [exact D1| |done|exact (steady_inside _ _ _ S)|exact W]; by right.
Qed.

(** Time passes when nothing is written. *)
Lemma refines_later t0 T T' t e : refines t0 T t -> in_tx e = false -> steady T T' e -> refines t0 T' t.
Proof.
  intros [A1 B1 C1 D1] I S. split; [done..|].
  eapply (AuditLog.h_write column_time T T' _ None (mkEvent "" zeroTime "" "" "" "" "" "" "" "" "" JNull 0 "" "")
            (e <| faults := fun _ => Some ErrNoRows |>) 0); [exact D1|by left|done|exact S|].
  unfold AuditLog.Write, WithTx. cbn. rewrite I. reflexivity.
Qed.

Lemma required_org c actor : requiredPrincipal c = Ok actor -> c_principal (call_ctx c) = Some actor.
Proof.
  unfold requiredPrincipal. destruct (c_principal (call_ctx c)) as [p|]; [|done]. by destruct (_ =s _); intros [= ->].
Qed.

Lemma refines_outcome t0 T T' t t' actor action e ok : refines t0 T t -> outcome actor action e t t' ok ->
  p_OrganizationID actor <> "global" -> in_tx e = false -> (forall k, TrimSpace (uuids e k) = uuids e k) ->
  steady T T' e -> refines t0 T' t'.
Proof.
  intros Rf [A op n0 k a t1 event P R Ev W| ->|event E1 E2 E3 E4 W] G I U S.
  - assert (K := part_keeps_audit (pf_audit t) A op P (e <| in_tx := true |>) n0 t eq_refl). rewrite R in K. cbn in K.
    eapply refines_wrote; [|exact W|exact S|by rewrite (ev_org _ _ _ Ev)].
    eapply refines_moved; [exact Rf| |exact K]. by eapply (part_moves _ _ P (e <| in_tx := true |>)).
  - by eapply refines_later.
  - eapply refines_wrote; [exact Rf|exact W|exact S|by rewrite E1].
Qed.

Lemma history_refines t0 T t : history t0 T t -> refines t0 T t.
Proof.
  induction 1 as [T E1 E2 E3 (x & E4)|T T' t c action A m e n r n' t' _ IH Ap G I U S R|T t i _ IH Sm|T t changes policies _ IH
    |T T' t forwarder' event e n r n' l _ IH I G S W|T t archive days e n r n' l _ IH I P].
  - split; [|apply rtc_refl..|rewrite E4; constructor]. unfold approval_view. rewrite E1, E2, E3. constructor.
  - apply (api_outcome c action A m e n t r n' t') in R as [(actor & Rq & R)|[_ ->]]; [|by eapply refines_later|done..].
    eapply refines_outcome; [exact IH|exact R| |done..]. by apply G, required_org.
  - eapply refines_moved; [exact IH| |done]. apply identity_moves. by apply rtc_once, step_other.
  - by destruct IH.
  - destruct IH. split; try done. by eapply AuditLog.h_write.
  - destruct IH. split; try done. by eapply AuditLog.h_purge.
Qed.

(** ** Approvals of critical changes *)

(** The critical handlers, each with the approval it is given and the execution
    it asks the approval for: the payload is what the handler is about to do. *)
Notation input := Approval.mkExecutionInput.
Inductive critical (c : Call) : string -> Approval.ExecutionInput -> forall A, M A -> Prop :=
| crit_UpdateRolePermissions role approval permissions :
    critical c approval (input "ROLE_PERMISSION_CHANGE" "role.permissions.update" "role" role
      (stringSetPayload "permissions" permissions).2) _
      (Platform.UpdateRolePermissions column_time forwarder s c role approval permissions)
| crit_UpdateRoleDataScope role dataScope approval departments :
    critical c approval (input "ROLE_DATA_SCOPE_CHANGE" "role.data_scope.update" "role" role
      (roleDataScopePayload dataScope departments).2) _
      (Platform.UpdateRoleDataScope column_time forwarder s c role dataScope approval departments)
| crit_UpdateUserRoles user approval keys :
    critical c approval (input "USER_ROLE_CHANGE" "user.roles.update" "user" user (stringSetPayload "roles" keys).2) _
      (Platform.UpdateUserRoles column_time forwarder s c user approval keys)
| crit_ResetUserPassword user password approval :
    critical c approval (input "USER_PASSWORD_RESET" "user.password.reset" "user" user
      (Marshal (object [("force_change", JBool true)]))) _
      (Platform.ResetUserPassword service column_time forwarder s c user password approval)
| crit_CreateTemporaryRoleGrant user role reason approval from until :
    critical c approval (input "TEMPORARY_ROLE_GRANT" "temporary_role_grant.create" "user" user
      (Marshal (object [("reason", JStr reason); ("role_key", JStr role); ("user_id", JStr user);
        ("valid_from", instant (UTC from)); ("valid_until", instant (UTC until))]))) _
      (Platform.CreateTemporaryRoleGrant column_time forwarder s c user role reason approval (Some (from, until)))
| crit_UpdateSecurityPolicy policy approval :
    critical c approval (input "SECURITY_POLICY_CHANGE" "security.config.update" "security" "policy" (protojson policy)) _
      (Platform.UpdateSecurityPolicy service column_time forwarder protojson s c (Some policy) approval)
| crit_CreateEmergencyAccess target scope approval reason keys expiresAt :
    critical c (TrimSpace approval) (input "EMERGENCY_ACCESS" "emergency_access.create" "emergency_access"
      (if TrimSpace target =s "" then TrimSpace scope else TrimSpace target)
      (Marshal (object [("expires_at", instant (UTC expiresAt)); ("privilege_keys", strings (normalizedPrivilegeKeys keys));
        ("reason", JStr (TrimSpace reason)); ("scope", JStr (TrimSpace scope));
        ("target_user_id", JStr (TrimSpace target))]))) _
      (Platform.CreateEmergencyAccess column_time forwarder s c target scope approval reason keys (Some expiresAt))
| crit_LinkFederatedIdentity provider subject user approval :
    critical c approval (input "FEDERATED_IDENTITY_LINK" "identity_mapping.link" "identity_mapping" user
      (Marshal (object [("provider", JStr provider); ("subject", JStr subject); ("user_id", JStr user)]))) _
      (Platform.LinkFederatedIdentity column_time forwarder s c provider subject user approval)
| crit_ConfigChange id approval action requestType auditAction :
    critical c (TrimSpace approval) (input requestType auditAction "config_change" (TrimSpace id)
      (Marshal (object [("change_id", JStr (TrimSpace id)); ("approval_id", JStr (TrimSpace approval));
        ("action", JStr action)]))) _
      (transitionConfigChange column_time forwarder s c id approval action requestType auditAction)
| crit_UpsertDataFieldPolicy policy approval :
    critical c approval (input "DATA_POLICY_CHANGE" "data_policy.upsert" "data_field_policy" (f_Key policy)
      (protojson_field policy)) _
      (Platform.UpsertDataFieldPolicy column_time forwarder protojson_field s c (Some policy) approval)
| crit_AuthorizeDataExport approval purpose watermark keys :
    critical c approval (input "DATA_EXPORT" "data.export" "data_field_policy" (joined keys)
      (Marshal (object [("field_keys", repeated keys); ("purpose", JStr purpose); ("watermark", JStr watermark)]))) _
      (Platform.AuthorizeDataExport column_time forwarder s c approval purpose watermark keys)
| crit_RecordDataDeletionEvidence approval resourceType resourceDigest reason keys recordsDeleted deletedAt :
    critical c approval (input "DATA_RETENTION" "data_retention.deletion_evidence.record" "data_deletion_evidence"
      resourceDigest
      (Marshal (object [("resource_type", JStr resourceType); ("resource_digest", JStr resourceDigest);
        ("field_keys", repeated keys); ("reason", JStr reason); ("records_deleted", JNum (Itoa recordsDeleted));
        ("deleted_at", instant (UTC deletedAt))]))) _
      (Platform.RecordDataDeletionEvidence column_time forwarder s c approval resourceType resourceDigest reason keys
         recordsDeleted (Some deletedAt))
| crit_ExportAuditLogs format approval limit :
    critical c approval (input "AUDIT_LOG_EXPORT" "audit.export" "audit_log" "organization"
      (Marshal (object [("format", JStr (let f := ToLower (TrimSpace format) in if f =s "" then "json" else f));
        ("limit", JNum (Itoa (if limit =? 0 then defaultAuditExportLimit else limit)))]))) _
      (Platform.ExportAuditLogs column_time forwarder s c format approval limit).

(** [spends]: a run that succeeds has claimed the approval, once. *)
Definition spends (actor : Principal) (approval : string) (i : Approval.ExecutionInput) {A} (m : M A) : Prop :=
  forall e n t a n' t', m e n t = (Ok a, n', t') -> exists e' n0 n1 v v',
    Approval.AuthorizeExecution actor approval i e' n0 v = (Ok tt, n1, v') /\
    Approval.tb_requests v = pf_requests t /\ Approval.tb_executions v = pf_executions t /\
    pf_executions t' = Approval.tb_executions v'.

(** [quiet]: it has nothing to do with approvals. *)
Definition quiet {A} (m : M A) : Prop :=
  forall r x, keeps (fun t => pf_requests t = r /\ pf_executions t = x) m.

Lemma quiet_ok {A} (m : M A) e n t r n' t' : quiet m -> m e n t = (r, n', t') ->
  pf_requests t' = pf_requests t /\ pf_executions t' = pf_executions t.
Proof. intros Q R. specialize (Q (pf_requests t) (pf_executions t) e n t (conj eq_refl eq_refl)). by rewrite R in Q. Qed.

Lemma quiet_reads {A} (m : M A) : reads m -> quiet m.
Proof. intros Rd r x. by apply reads_keeps. Qed.

Lemma spends_claim actor approval i : spends actor approval i (in_approval (Approval.AuthorizeExecution actor approval i)).
Proof.
  intros e n t [] n' t' R. apply zoom_run in R as (v & R & ->). by exists e, n, n', (approval_view t), v.
Qed.
Lemma spends_first actor approval i A B (m : M A) (f : A -> M B) :
  spends actor approval i m -> (forall a, quiet (f a)) -> spends actor approval i (m ≫= f).
Proof.
  intros Sp Q e n t b n' t' R. apply bind_ok in R as (a & n1 & t1 & R1 & R2).
  apply quiet_ok in R2 as [_ L]; [|apply Q]. rewrite L. by eapply Sp.
Qed.
Lemma spends_then actor approval i A B (m : M A) (f : A -> M B) :
  quiet m -> (forall a, spends actor approval i (f a)) -> spends actor approval i (m ≫= f).
Proof.
  intros Q Sp e n t b n' t' R. apply bind_ok in R as (a & n1 & t1 & R1 & R2).
  apply quiet_ok in R1 as [E1 E2]; [|done]. rewrite <- E1, <- E2. by eapply Sp.
Qed.
Lemma spends_authorize actor approval requestType action resource_ id payload :
  spends actor approval (input requestType action resource_ id payload)
    (authorize s actor approval requestType action resource_ id payload).
Proof.
  unfold authorize. apply spends_then; [|intros _; apply spends_claim]. intros r x. apply keeps_guard.
Qed.
Lemma spends_run actor approval i A event (op : M A) named : spends actor approval i op ->
  spends actor approval i (run column_time forwarder s event op named).
Proof.
  intros Sp e n t a n' t' R. unfold run in R. apply mapped_run in R as (r & R & _ & E).
  assert (r = Ok a) as -> by (by apply (proj1 (E a))). unfold audited in R. destruct (_ || _); [done|].
  destruct (with_event _ _ _ _ _ _ _ _) as [[[b|err] n1] t1] eqn:W; [injection R as -> _ ->|by destruct (WithTx _ _ _ _) as [[[]]]].
  apply with_event_runs in W as (n0 & k & t2 & W & [L _]). rewrite L. exact (Sp _ _ _ _ _ _ W).
Qed.

Lemma spends_lift actor approval i A B (r : result A) (f : A -> M B) :
  (forall a, r = Ok a -> spends actor approval i (f a)) -> spends actor approval i (lift r ≫= f).
Proof. intros Sp e n t b n' t' R. destruct r as [a|err]; [exact (Sp a eq_refl e n t b n' t' R)|done]. Qed.
Lemma spends_reads actor approval i A B (m : M A) (f : A -> M B) :
  reads m -> (forall a, spends actor approval i (f a)) -> spends actor approval i (m ≫= f).
Proof. intros Rd. apply spends_then. by apply quiet_reads. Qed.

Lemma same_policy policy p : securityPolicyDomain (Some policy) = Ok p -> p = policy.
Proof.
  unfold securityPolicyDomain. destruct (checkedInt (sp_PasswordMinLength policy)); [|done].
  destruct (checkedInt (sp_PasswordHistory policy)); [|done].
  destruct (checkedInt (sp_PasswordMaxAgeDays policy)); [|done].
  destruct (checkedInt (sp_LoginMaxFailures policy)); [|done].
  destruct (checkedInt (sp_MaxConcurrentSessions policy)); [|done]. by intros [= ->].
Qed.

Ltac solve_quiet :=
  intros r x; unfold in_identity, in_settings, in_oversight, Platform.in_directory, in_policies, in_changes, in_audit;
  repeat first [by apply keeps_zoom | progress keeps_walk].

Lemma critical_spends c approval i A m : critical c approval i A m ->
  exists k, m = handler c k /\ forall actor, spends actor approval i (k actor).
Proof.
  intros Cr. destruct Cr; (eexists; split; [reflexivity|]); intros actor; cbn beta iota zeta;
  repeat first
    [ apply spends_run
    | apply spends_first; [first [apply spends_authorize | apply spends_claim]|intros ?; solve [solve_quiet]]
    | apply spends_claim
    | apply spends_lift; intros ? ->%same_policy
    | apply spends_reads; [apply mapped_reads; first [apply validate_evidence_reads|apply keeps_reads; intros ?; keeps_walk]|intros ?]
    | apply spends_then; [solve [solve_quiet]|intros ?] ].
Qed.

(** The approval that lets a critical change through. *)
Lemma critical_claims c approval i A m e n t a n' t' : critical c approval i A m -> m e n t = (Ok a, n', t') ->
  exists actor q canonical x, requiredPrincipal c = Ok actor /\
    select_row (Approval.by_id (p_OrganizationID actor) (TrimSpace approval)) (pf_requests t) = Ok q /\
    Approval.r_ApplicantID q = p_UserID actor /\ Approval.r_Status q = Approval.StatusApproved /\
    Approval.canonicalJSON (Approval.ei_PayloadJSON i) = Some canonical /\
    Approval.r_RequestDigest q = Approval.requestDigest (TrimSpace (Approval.ei_RequestType i))
      (TrimSpace (Approval.ei_Action i)) (TrimSpace (Approval.ei_Resource i)) (TrimSpace (Approval.ei_ResourceID i)) canonical /\
    (forall y, y ∈ pf_executions t -> Approval.x_request_id y <> TrimSpace approval) /\
    Approval.x_request_id x = TrimSpace approval /\ pf_executions t' = pf_executions t ++ [x].
Proof.
  intros Cr R. apply critical_spends in Cr as (k & -> & Sp). unfold handler in R.
  destruct (requiredPrincipal c) as [actor|err]; [|done]. change (k actor e n t = (Ok a, n', t')) in R.
  apply Sp in R as (e' & n0 & n1 & v & v' & R & <- & <- & ->).
  apply Approval.AuthorizeExecution_claims in R
    as (q & canonical & x & at_ & checked & Sel & Ap & St & Ex & Mfa & C & D & Fresh & E & L).
  by exists actor, q, canonical, x.
Qed.
(** ** Replies *)

(** Everything a handler answers when it fails: its own replies, and those that
    the errors of the services become. *)
Definition own_replies : list error :=
  [internalError ErrNoRows; Unauthorized "UNAUTHENTICATED" "authenticated organization is required";
   BadRequest "INVALID_ARGUMENT" "numeric value is out of range"; BadRequest "INVALID_ARGUMENT" "policy is required";
   unavailable "CONFIG_CHANGE_UNAVAILABLE" "config change service is unavailable";
   unavailable "CONFIG_CHANGE_UNAVAILABLE" "config change approval boundary is unavailable";
   BadRequest "CONFIG_CHANGE_APPROVAL_REQUIRED" "change_id and approval_id are required";
   unavailable "DATA_POLICY_UNAVAILABLE" "data policy approval boundary is unavailable";
   BadRequest "INVALID_DATA_POLICY" "data policy field_key is required";
   unavailable "DATA_RETENTION_UNAVAILABLE" "data retention approval boundary is unavailable";
   BadRequest "INVALID_RETENTION_EVIDENCE" "deleted_at is required";
   BadRequest "EXPORT_ARTIFACT_REQUIRED" "artifact_id is required";
   BadRequest "INVALID_EXPORT_FORMAT" "export format must be json or csv";
   BadRequest "INVALID_EXPORT_LIMIT" "export limit must be between 1 and 5000"].
Definition replies : list error := own_replies ++ map snd service_cases ++ map snd approval_cases.

(** [answers]: a failure is one of them. *)
Definition answers {A} (m : M A) : Prop := forall e n t err n' t', m e n t = (Err err, n', t') -> In err replies.

Lemma reply_of_cases cases err : In (reply_of cases err) (internalError ErrNoRows :: map snd cases).
Proof.
  induction cases as [|[targets reply] cases IH]; [by left|]. cbn [reply_of map snd].
  destruct (existsb _ _); [right; by left|]. destruct IH as [E|I]; [left; exact E|right; by right].
Qed.
Lemma serviceError_reply err : In (serviceError err) replies.
Proof.
  destruct (reply_of_cases service_cases err) as [E|I]; [left; exact E|].
  apply in_or_app. right. apply in_or_app. left. exact I.
Qed.
Lemma approvalServiceError_reply err : In (approvalServiceError err) replies.
Proof.
  unfold approvalServiceError. destruct (reply_of_cases (approval_cases ++ [([ErrStepUpRequired; ErrInteractiveSessionRequired], serviceError err)]) err)
    as [E|I]; [left; exact E|].
  rewrite map_app in I. apply in_app_or in I as [I|[<-|[]]]; [|apply serviceError_reply].
  apply in_or_app. right. apply in_or_app. by right.
Qed.

Lemma answers_mapped {A} reply (m : M A) : (forall err, In (reply err) replies) -> answers (mapped reply m).
Proof.
  intros R e n t err n' t' E. unfold mapped in E. destruct (m e n t) as [[[a|x] k] t1]; [discriminate|].
  injection E as <- _ _. apply R.
Qed.
Lemma answers_bind {A B} (m : M A) (f : A -> M B) : answers m -> (forall a, answers (f a)) -> answers (m ≫= f).
Proof.
  intros Am Af e n t err n' t' E. unfold mbind, M_bind in E. destruct (m e n t) as [[[a|x] k] t1] eqn:R.
  - by eapply Af.
  - injection E as -> -> ->. by eapply Am.
Qed.
Lemma answers_fail {A} err : In err replies -> answers (@fail (Tables X O) A err).
Proof. intros I e n t x n' t' [= <- _ _]. exact I. Qed.
Lemma answers_guard b err : In err replies -> answers (guard_not b err).
Proof. intros I e n t x n' t' E. destruct b; [by injection E as <- _ _|discriminate]. Qed.
Lemma answers_now : answers now.
Proof. done. Qed.
Lemma answers_lift {A} (r : result A) : (forall err, r = Err err -> In err replies) -> answers (lift r).
Proof. intros I e n t x n' t' E. destruct r as [a|err]; [discriminate|]. injection E as <- _ _. by apply I. Qed.

Lemma own_reply err : In err own_replies -> In err replies.
Proof. intros I. apply in_or_app. by left. Qed.
Ltac reply := apply own_reply; unfold own_replies; repeat first [left; reflexivity | right].

Lemma principal_reply c err : requiredPrincipal c = Err err -> In err replies.
Proof.
  unfold requiredPrincipal. destruct (c_principal (call_ctx c)) as [p|]; [destruct (_ =s _); [|done]|]; intros [= <-]; reply.
Qed.
Lemma checked_reply value err : checkedInt value = Err err -> In err replies.
Proof. unfold checkedInt. destruct (value <? 0); [|done]. intros [= <-]. reply. Qed.
Lemma policy_reply policy err : securityPolicyDomain policy = Err err -> In err replies.
Proof.
  destruct policy as [p|]; [|intros [= <-]; reply]. unfold securityPolicyDomain. intros E.
  repeat match type of E with
  | context [checkedInt ?v] =>
    let C := fresh in destruct (checkedInt v) eqn:C;
    [change (Ok ?a ≫= ?f) with (f a) in E|injection E as <-; by eapply checked_reply]
  end. discriminate.
Qed.

Lemma answers_run {A} event (op : M A) named : answers (run column_time forwarder s event op named).
Proof. apply answers_mapped, serviceError_reply. Qed.
Lemma answers_run_approval {A} event (op : M A) named : answers (run_approval column_time forwarder s event op named).
Proof. apply answers_mapped, approvalServiceError_reply. Qed.

Ltac solve_answers :=
  repeat first
    [ simple apply answers_run
    | simple apply answers_run_approval
    | simple apply answers_mapped; exact serviceError_reply
    | apply answers_fail; solve [apply serviceError_reply | reply]
    | apply answers_lift; solve [exact (checked_reply _) | exact (policy_reply _)]
    | apply answers_guard; solve [reply]
    | apply answers_now
    | match goal with |- answers (match ?x with _ => _ end) => destruct x end
    | apply answers_bind; [|intros ?] ].

Lemma answers_handler {A} c (k : Principal -> M A) : (forall actor, answers (k actor)) -> answers (handler c k).
Proof. intros K. apply answers_bind; [apply answers_lift; exact (principal_reply c)|exact K]. Qed.

Lemma api_answers c action A m : api c action A m -> answers m.
Proof.
  intros Ap. destruct Ap; (apply answers_handler; intros actor); cbn beta iota zeta; solve [solve_answers].
Qed.
(** ** Lemmas of the properties *)

Lemma critical_request c approval i A m : critical c approval i A m ->
  exists action k, m = handler c k /\ forall actor, request actor action A (k actor).
Proof.
  intros Cr. destruct Cr; (eexists _, _; split; [reflexivity|]); intros actor; cbn beta iota zeta; try solve [solve_request].
Qed.

Lemma created_digest c requestType action resource_ id summary payload mode required expires approvers e n t q n' t' :
  Platform.CreateApproval (O := O) column_time forwarder s c requestType action resource_ id summary payload mode required
    expires approvers e n t = (Ok q, n', t') ->
  exists k canonical, Approval.r_ID q = uuids e k /\ Approval.canonicalJSON payload = Some canonical /\
    Approval.r_RequestDigest q =
      Approval.requestDigest (TrimSpace requestType) (TrimSpace action) (TrimSpace resource_) (TrimSpace id) canonical.
Proof.
  unfold Platform.CreateApproval, handler. destruct (requiredPrincipal c) as [actor|err]; [|done].
  intros R. change (run_approval column_time forwarder s
    (newAuditEvent c actor "approval.create" "approval" "" (object [("request_type", JStr requestType);
      ("action", JStr action); ("resource", JStr resource_)]))
    (in_approval (Approval.service_Create actor (Approval.mkCreateInput requestType action resource_ id summary payload
      mode required approvers (durationSeconds expires))))
    (fun created event => set_detail "request_digest" (Approval.r_RequestDigest created) (resource (Approval.r_ID created) event))
    e n t = (Ok q, n', t')) in R.
  apply mapped_run in R as (r0 & R & _ & Q). assert (r0 = Ok q) as -> by (by apply (proj1 (Q q))).
  unfold approval_audited in R. destruct (_ || _); [done|]. apply with_event_runs in R as (n0 & k & t2 & R & _).
  apply zoom_run in R as (x & R & _). exact (Approval.service_Create_digest _ _ _ _ _ _ _ _ R).
Qed.

(** ** Properties *)


(** C2.  Critical changes need an approval of that very change: a critical
    handler succeeds only for the applicant of an approved request whose digest
    is that of the operation, the resource and the payload being executed, and
    that was never executed; the execution is recorded with the change.  When it
    fails the approval is not spent. *)
Theorem critical_changes_need_approval c approval i A m e n t r n' t' :
  critical c approval i A m -> in_tx e = false -> m e n t = (r, n', t') ->
  match r with
  | Ok _ => exists actor q canonical x, requiredPrincipal c = Ok actor /\
      select_row (Approval.by_id (p_OrganizationID actor) (TrimSpace approval)) (pf_requests t) = Ok q /\
      Approval.r_ApplicantID q = p_UserID actor /\ Approval.r_Status q = Approval.StatusApproved /\
      Approval.canonicalJSON (Approval.ei_PayloadJSON i) = Some canonical /\
      Approval.r_RequestDigest q = Approval.requestDigest (TrimSpace (Approval.ei_RequestType i))
        (TrimSpace (Approval.ei_Action i)) (TrimSpace (Approval.ei_Resource i)) (TrimSpace (Approval.ei_ResourceID i)) canonical /\
      (forall y, y ∈ pf_executions t -> Approval.x_request_id y <> TrimSpace approval) /\
      Approval.x_request_id x = TrimSpace approval /\ pf_executions t' = pf_executions t ++ [x]
  | Err _ => t' = t <| pf_audit := pf_audit t' |>
  end.
Proof.
  intros Cr T R. destruct r as [a|err]; [by eapply critical_claims|].
  destruct (critical_request c approval i A m Cr) as (action & k & -> & Rq).
  destruct (handler_outcome c action A k e n t (Err err) n' t' R T Rq) as [(actor & _ & Out)|[_ ->]]; [|by destruct t].
  apply outcome_recorded in Out as [->|(row & _ & _ & Out)]; [by destruct t|exact Out].
Qed.


(** C5.  No error of a service gets out: a handler that fails answers with one
    of a fixed list of replies, none of which depends on the text of the error. *)
Theorem failures_are_replies c action A m e n t err n' t' :
  api c action A m -> m e n t = (Err err, n', t') -> In err replies.
Proof. intros Ap. by apply (api_answers c action A m Ap). Qed.

(** A transition of a configuration change needs an approval whose payload
    names the approval itself: when one succeeds, the applicant had written in
    the payload the identifier that was drawn only after it was submitted, or
    two payloads have one digest. *)
Theorem config_changes_name_their_approval c1 c2 requestType1 action1 resource1 id1 summary payload mode required
    expires approvers e1 n1 t1 q m1 t1' id approval action requestType auditAction e n t change n' t' :
  Platform.CreateApproval (O := O) column_time forwarder s c1 requestType1 action1 resource1 id1 summary payload mode required
    expires approvers e1 n1 t1 = (Ok q, m1, t1') ->
  TrimSpace approval = Approval.r_ID q ->
  (forall org q', select_row (Approval.by_id org (Approval.r_ID q)) (pf_requests t) = Ok q' ->
     Approval.r_RequestDigest q' = Approval.r_RequestDigest q) ->
  transitionConfigChange (O := O) column_time forwarder s c2 id approval action requestType auditAction e n t = (Ok change, n', t') ->
  exists k written claimed, Approval.r_ID q = uuids e1 k /\ Approval.canonicalJSON payload = Some written /\
    Approval.canonicalJSON (Marshal (object [("change_id", JStr (TrimSpace id)); ("approval_id", JStr (uuids e1 k));
      ("action", JStr action)])) = Some claimed /\
    (written = claimed \/ written <> claimed /\
       Approval.requestDigest (TrimSpace requestType1) (TrimSpace action1) (TrimSpace resource1) (TrimSpace id1) written =
       Approval.requestDigest (TrimSpace requestType) (TrimSpace auditAction) "config_change" (TrimSpace (TrimSpace id)) claimed).
Proof.
  intros Cr I Same Tr. apply created_digest in Cr as (k & written & Id & W & Dw).
  apply (critical_claims c2 (TrimSpace approval) _ _ _ _ _ _ _ _ _ (crit_ConfigChange c2 id approval action requestType auditAction))
    in Tr as (actor & q' & claimed & x & _ & Sel & _ & _ & C & D & _).
  rewrite TrimSpace_idem, I in Sel. apply Same in Sel. rewrite I, Id in C.
  exists k, written, claimed. split_and!; try done.
  destruct (decide (written = claimed)); [by left|right]. split; [done|].
  transitivity (Approval.r_RequestDigest q); [by symmetry|]. rewrite <- Sel. exact D.
Qed.
End platform.

(** ** An example *)

Module examples.
Definition kratos_replies : KratosReplies :=
  {| NotFound := fun reason message => Wrapf reason [FStr message] ErrNoRows;
     Conflict := fun reason message => Errorf reason [FStr message];
     BadRequest := fun reason message => Errorf reason [FStr message];
     InternalServer := fun reason message => Errorf reason [FStr message] |}.
#[export] Existing Instances RequestGate.examples.kratos kratos_replies Roles.examples.unicode sample_argon2.

Definition col (at_ : Time) : Time := at_.
Definition noForwarder : option (Forwarder (X := unit)) := None.
Definition configured : PlatformService := mkPlatformService true true true true true.

(** The administrator and the security officer of [Roles.examples]. *)
Definition start : Tables unit unit :=
  mkTables (Oversight.mkTables Roles.examples.tables [] [] []) [] [] [] []
    (DataPolicy.mkTables [] [] (Download.mkTables [] tt)) (AuditLog.mkTables [] ∅ ∅ [] tt).

Definition ids (step : string) : list string := map (fun n => step +:+ "-" +:+ Itoa (Z.of_nat n)) (seq 0 40).
Definition env (step : string) : Env :=
  mkEnv (fun _ => 100) (fun n => nth n (ids step) "z") (fun _ => None) (fun _ _ => "0"%char) false.
Definition by_ (actor : Principal) : Call := mkCall (RequestGate.mkCtx None (Some actor)) (Some "10.0.0.1").
Definition result_of {A} (m : Database.M (Tables unit unit) A) (step : string) (t : Tables unit unit) : result A * Tables unit unit :=
  let '(r, _, t') := m (env step) O t in (r, t').

(** The administrator asks that Bob become an auditor, the security officer
    agrees, and the administrator makes the change; he cannot make it twice,
    nor another one with the same approval. *)
Definition asked := result_of (Platform.CreateApproval col noForwarder configured (by_ Roles.examples.admin)
  "USER_ROLE_CHANGE" "user.roles.update" "user" "bob" "stand in" (dq "{'roles':['auditor','user']}") "ALL" 1 3600 ["sec"])
  "s1" start.
Definition approval : string := match asked.1 with Ok q => Approval.r_ID q | Err _ => "" end.
Definition agreed := result_of (Platform.DecideApproval col noForwarder configured (by_ Oversight.examples.sec)
  approval "approve" "fine") "s2" asked.2.
Definition change (keys : list string) : Database.M (Tables unit unit) (list string) :=
  Platform.UpdateUserRoles col noForwarder configured (by_ Roles.examples.admin) "bob" approval keys.
Definition changed := result_of (change ["user"; " auditor"]) "s3" agreed.2.
Definition again := result_of (change ["user"; "auditor"]) "s4" changed.2.
Definition other := result_of (change ["user"; "security_admin"]) "s4" agreed.2.

(** A change of configuration, the approval that is asked for it with a payload,
    and the attempt to approve the change with it. *)
Definition drafted := result_of (Platform.CreateConfigChange col noForwarder configured (by_ Roles.examples.admin)
  ConfigChange.sample_input) "c1" start.
Definition change_id : string := match drafted.1 with Ok x => ch_ID x | Err _ => "" end.
Definition payload (approval : string) : string :=
  dq ("{'change_id':'" +:+ change_id +:+ "','approval_id':'" +:+ approval +:+ "','action':'APPROVE'}").
Definition ticket (named : string) : Database.M (Tables unit unit) Approval.Request := Platform.CreateApproval col noForwarder configured (by_ Oversight.examples.sec)
  "CONFIG_CHANGE_APPROVE" "config_change.approve" "config_change" change_id "roll out" (payload named) "ALL" 1 3600 ["adm"].
Definition sign (named : string) := result_of (ticket named) "c2" drafted.2.
Definition signed (named : string) := result_of (Platform.DecideApproval col noForwarder configured (by_ Roles.examples.admin)
  "c2-3" "approve" "fine") "c3" (sign named).2.
Definition approve_change : Database.M (Tables unit unit) Change :=
  Platform.ApproveConfigChange col noForwarder configured (by_ Oversight.examples.sec) change_id "c2-3".
Definition roll_out (named : string) := result_of approve_change "c4" (signed named).2.

(** A group can give what a user may only get with an approval. *)
Definition grouped := result_of (Platform.UpdateUserGroupMembers col noForwarder configured (by_ Roles.examples.admin)
  "g1" ["bob"]) "g1" start.
Definition direct := result_of (Platform.UpdateUserRoles (O := unit) col noForwarder configured (by_ Roles.examples.admin)
  "bob" "" ["user"; "auditor"]) "g1" start.

Lemma result_run {A} (m : Database.M (Tables unit unit) A) step t : exists n',
  m (env step) 0%nat t = ((result_of m step t).1, n', (result_of m step t).2).
Proof. unfold result_of. destruct (m (env step) 0%nat t) as [[r n'] t']. by exists n'. Qed.

Lemma policy_changed_run : exists n',
  change ["user"; " auditor"] (env "s3") 0%nat agreed.2 = (Ok ["auditor"; "user"], n', changed.2).
Proof.
  assert (Done : changed.1 = Ok ["auditor"; "user"]) by (vm_compute; reflexivity). rewrite <- Done.
  unfold changed. apply result_run.
Qed.
Lemma again_run : exists n', change ["user"; "auditor"] (env "s4") 0%nat changed.2 =
  (Err (Conflict "APPROVAL_ALREADY_EXECUTED" "approval execution ticket has already been used"), n', again.2).
Proof.
  assert (Done : again.1 = Err (Conflict "APPROVAL_ALREADY_EXECUTED" "approval execution ticket has already been used"))
    by (vm_compute; reflexivity). rewrite <- Done. unfold again. apply result_run.
Qed.
Lemma signed_run : exists n' q, Platform.CreateApproval col noForwarder configured (by_ Oversight.examples.sec)
    "CONFIG_CHANGE_APPROVE" "config_change.approve" "config_change" change_id "roll out" (payload "c2-3") "ALL" 1 3600
    ["adm"] (env "c2") 0%nat drafted.2 = (Ok q, n', (sign "c2-3").2) /\
  Approval.r_ID q = "c2-3" /\ forall org q',
    select_row (Approval.by_id org (Approval.r_ID q)) (pf_requests (signed "c2-3").2) = Ok q' ->
    Approval.r_RequestDigest q' = Approval.r_RequestDigest q.
Proof.
  destruct (result_run (ticket "c2-3") "c2" drafted.2) as (n1 & C). fold (sign "c2-3") in C. unfold ticket in C.
  destruct (sign "c2-3").1 as [q|err] eqn:Q; [|vm_compute in Q; discriminate Q]. exists n1, q. split; [exact C|].
  vm_compute in Q. injection Q as <-. split; [reflexivity|]. intros org q' E. apply select_row_ok in E as [E _].
  vm_compute in E. apply list_elem_of_singleton in E as ->. reflexivity.
Qed.
Lemma roll_out_run : exists n' x, transitionConfigChange col noForwarder configured (by_ Oversight.examples.sec)
    change_id "c2-3" ActionApprove "CONFIG_CHANGE_APPROVE" "config_change.approve" (env "c4") 0%nat (signed "c2-3").2 =
  (Ok x, n', (roll_out "c2-3").2).
Proof.
  destruct (result_run approve_change "c4" (signed "c2-3").2) as (n2 & T). fold (roll_out "c2-3") in T.
  unfold approve_change, ApproveConfigChange in T.
  destruct (roll_out "c2-3").1 as [x|err] eqn:Ch; [|vm_compute in Ch; discriminate Ch]. by exists n2, x.
Qed.

Lemma ids_trimmed step : Forall (fun x => TrimSpace x = x) (ids step) -> forall k, TrimSpace (uuids (env step) k) = uuids (env step) k.
Proof.
  intros F k. cbn [uuids env]. destruct (nth_in_or_default k (ids step) "z") as [I|E]; [|by rewrite E].
  rewrite Forall_forall in F. apply F. by apply list_elem_of_In.
Qed.

Notation platform_history := (history Roles.examples.service None col noForwarder (fun _ => "{}") (fun _ => "{}") configured).
Notation platform_api := (api Roles.examples.service None col noForwarder (fun _ => "{}") (fun _ => "{}") configured).

Lemma request_step {A} t0 t actor action (m : Database.M (Tables unit unit) A) step :
  platform_history t0 100 t -> platform_api (by_ actor) action A m -> p_OrganizationID actor = "o" ->
  Forall (fun x => TrimSpace x = x) (ids step) -> platform_history t0 100 (result_of m step t).2.
Proof.
  intros Hs Ap Org F. destruct (result_run m step t) as (n' & R).
  eapply (hs_request _ _ _ _ _ _ _ t0 100 100 t (by_ actor) action A m (env step) 0 _ n'); [exact Hs|exact Ap| |done|by apply ids_trimmed| |exact R].
  - intros p [= <-]. by rewrite Org.
  - intros k. cbn. unfold col. lia.
Qed.

Lemma served_history : platform_history start 100 again.2.
Proof.
  assert (T : forall step, In step ["s1"; "s2"; "s3"; "s4"] -> Forall (fun x => TrimSpace x = x) (ids step))
    by (intros step [<-|[<-|[<-|[<-|[]]]]]; apply (bool_decide_unpack _); vm_compute; exact I).
  unfold again, changed, agreed, asked.
  apply (request_step _ _ Roles.examples.admin "user.roles.update"); [|constructor|done|apply T; cbn; tauto].
  apply (request_step _ _ Roles.examples.admin "user.roles.update"); [|constructor|done|apply T; cbn; tauto].
  apply (request_step _ _ Oversight.examples.sec "approval.decide"); [|constructor|done|apply T; cbn; tauto].
  apply (request_step _ _ Roles.examples.admin "approval.create"); [|constructor|done|apply T; cbn; tauto].
  apply hs_start; [done..|]. by exists tt.
Qed.
End examples.
#[local] Existing Instances RequestGate.examples.kratos examples.kratos_replies Roles.examples.unicode sample_argon2.


Lemma critical_changes_need_approval_witness : exists q,
  Approval.r_ID q = TrimSpace examples.approval /\ Approval.r_Status q = Approval.StatusApproved /\
  Approval.r_ApplicantID q = "adm".
Proof.
  destruct examples.policy_changed_run as (n' & R).
  assert (Cr : critical Roles.examples.service examples.col examples.noForwarder (fun _ => "{}") (fun _ => "{}")
    examples.configured (examples.by_ Roles.examples.admin) examples.approval
    (Approval.mkExecutionInput "USER_ROLE_CHANGE" "user.roles.update" "user" "bob"
       (stringSetPayload "roles" ["user"; " auditor"]).2) _
    (examples.change ["user"; " auditor"])) by apply crit_UpdateUserRoles.
  destruct (critical_changes_need_approval _ _ _ _ _ _ _ _ _ _ _ (examples.env "s3") _ _ _ _ _ Cr eq_refl R)
    as (actor & q & canonical & x & Rq & Sel & Ap & St & _).
  injection Rq as <-. exists q. split; [|split; [exact St|exact Ap]].
  apply select_row_ok in Sel as [_ P]. unfold Approval.by_id in P. apply andb_prop in P as [P _].
  apply String.eqb_eq in P. exact P.
Defined.


Lemma failures_are_replies_witness :
  In (Conflict "APPROVAL_ALREADY_EXECUTED" "approval execution ticket has already been used") replies.
Proof.
  destruct examples.again_run as (n' & R).
  assert (Ap : examples.platform_api (examples.by_ Roles.examples.admin) "user.roles.update" _
    (examples.change ["user"; "auditor"])) by apply api_UpdateUserRoles.
  exact (failures_are_replies _ _ _ _ _ _ _ _ _ _ _ _ _ _ _ _ _ Ap R).
Defined.

(** The one that guessed the identifier gets through, the one that did not
    cannot. *)
Lemma config_changes_name_their_approval_witness :
  (exists claimed, Approval.canonicalJSON (examples.payload "c2-3") = Some claimed) /\
  (examples.roll_out "").1 = Err (Conflict "APPROVAL_DIGEST_MISMATCH" "approval does not authorize this operation").
Proof.
  split; [|vm_compute; reflexivity].
  destruct examples.signed_run as (n1 & q & C & Id & Same). destruct examples.roll_out_run as (n2 & x & T).
  assert (Tr : TrimSpace "c2-3" = Approval.r_ID q) by (rewrite Id; reflexivity).
  destruct (config_changes_name_their_approval Roles.examples.service _ _ (fun _ => "{}") (fun _ => "{}") _ _ _ _ _ _ _ _ _ _ _ _ _ _ _ _ _ _ _ _ _ _ _ _ _ _ _ _ _ _ C Tr Same T) as (k & written & claimed & _ & W & _).
  exists written. exact W.
Defined.

(** A group gives a role without an approval: the administrator, whose
    attempt to make Bob an auditor is refused for want of one, puts him in a
    group of auditors, and no approval was asked for or spent. *)
Theorem a_group_gives_a_role_without_approval :
  examples.direct.1 = Err (BadRequest "APPROVAL_REQUIRED" "approved execution ticket is required") /\
  examples.grouped.1 = Ok tt /\ lasting "bob" (identity_of examples.grouped.2) "auditor" /\
  pf_requests examples.grouped.2 = [] /\ pf_executions examples.grouped.2 = [].
Proof.
  split; [vm_compute; reflexivity|]. split; [vm_compute; reflexivity|].
  split; [|split; vm_compute; reflexivity].
  exists (mkRole "r3" "o" "auditor" "auditor" DataScopeOrganization [] 1). split; [|split; [reflexivity|]].
  - assert (E : roles (identity_of examples.grouped.2) = roles Roles.examples.tables) by (vm_compute; reflexivity).
    rewrite E. cbn. set_solver.
  - vm_compute. by right.
Qed.
