(* ===== verification/SelfService.v ===== *)
(** * Signing in and one's own account

    [internal/adapters/kratosapi/identity.go] and [federated_login.go]: logins
    with a password, over OpenID Connect and over LDAP, and what users do to their
    own account, each with its rate limit, its audit event and its cookies; with
    [internal/platform/identitysource], whose client libraries are parameters. *)

From S2P Require Import Prelude GoString GoTime Json Crypto Database Identity GrantPolicy SecurityPolicy Directory IdentityStore.
From S2P Require Import Password Keyring Roles Accounts Oversight AuditLog RequestGate SharedState Platform Composition.

(** ** Identity sources *)

Record FederatedIdentity := mkFederated {
  fi_Subject : string;
  fi_LoginName : string;
  fi_DisplayName : string;
  fi_Email : string;
  fi_Groups : list string;
  fi_Provider : string;
  fi_AuthenticationAt : Time
}.
#[export] Instance FederatedIdentity_eta : Eta FederatedIdentity := fun f =>
  mkFederated (fi_Subject f) (fi_LoginName f) (fi_DisplayName f) (fi_Email f) (fi_Groups f) (fi_Provider f)
    (fi_AuthenticationAt f).

Definition ErrAuthenticationFailed : error := Sentinel "identitysource.ErrAuthenticationFailed".

(** [uniqueStrings]: trimmed, not blank, each once. *)
Fixpoint unique_from (seen values : list string) : list string :=
  match values with
  | [] => []
  | value :: rest =>
    let value := TrimSpace value in
    if (value =s "") || contains seen value then unique_from seen rest else value :: unique_from (value :: seen) rest
  end.
Definition uniqueStrings (values : list string) : list string := unique_from [] values.

(** The claims of a token of [go-oidc] that verified. *)
Record Claims := mkClaims {
  cl_Subject : string; cl_Email : string; cl_Name : string; cl_PreferredUsername : string;
  cl_Groups : list string; cl_Nonce : string
}.

(** [oauth2.Config] and the verifier of [go-oidc]: the exchange answers with the
    [id_token] of the token, the verification with its claims. *)
Record OIDCProvider := mkOIDC {
  op_name : string;
  op_AuthCodeURL : string -> string -> string;
  op_Exchange : string -> option (option string);
  op_Verify : string -> option Claims
}.

Definition AuthorizationURL (p : OIDCProvider) (state nonce : string) : string := op_AuthCodeURL p state nonce.

Definition oidc_identity (p : OIDCProvider) (claims : Claims) (at_ : Time) : FederatedIdentity :=
  let login := if cl_PreferredUsername claims =s "" then cl_Email claims else cl_PreferredUsername claims in
  mkFederated (cl_Subject claims) login (if cl_Name claims =s "" then login else cl_Name claims) (cl_Email claims)
    (uniqueStrings (cl_Groups claims)) (op_name p) at_.

Definition AuthenticateCode {S} (p : OIDCProvider) (code nonce : string) : Database.M S FederatedIdentity :=
  if (TrimSpace code =s "") || (TrimSpace nonce =s "") then fail ErrAuthenticationFailed
  else match op_Exchange p code with
  | Some (Some raw) =>
    if raw =s "" then fail ErrAuthenticationFailed
    else match op_Verify p raw with
    | Some claims =>
      if (cl_Subject claims =s "") || (cl_Nonce claims <>s nonce) then fail ErrAuthenticationFailed
      else at_ ← now; mret (oidc_identity p claims (UTC at_))
    | None => fail ErrAuthenticationFailed
    end
  | _ => fail ErrAuthenticationFailed
  end.

(** An entry of [go-ldap], with its attributes. *)
Record LDAPEntry := mkEntry { le_DN : string; le_Attributes : string -> list string }.
Definition GetAttributeValue (e : LDAPEntry) (name : string) : string :=
  match le_Attributes e name with v :: _ => v | [] => "" end.

(** The configuration, and what [go-ldap] does with the directory it names: a
    connection (with StartTLS where it is configured), a bind, and a search below
    the base for at most two entries with a login attribute of a value. *)
Record LDAPProvider := mkLDAP {
  lp_name : string;
  lp_BindDN : string;
  lp_BindPassword : string;
  lp_LoginAttribute : string;
  lp_DisplayAttribute : string;
  lp_EmailAttribute : string;
  lp_GroupAttribute : string;
  lp_Dial : bool;
  lp_Bind : string -> string -> bool;
  lp_Search : string -> string -> option (list LDAPEntry)
}.

Definition ldap_identity (p : LDAPProvider) (entry : LDAPEntry) (at_ : Time) : FederatedIdentity :=
  let login := GetAttributeValue entry (lp_LoginAttribute p) in
  let display := GetAttributeValue entry (lp_DisplayAttribute p) in
  mkFederated (le_DN entry) login (if display =s "" then login else display)
    (GetAttributeValue entry (lp_EmailAttribute p)) (uniqueStrings (le_Attributes entry (lp_GroupAttribute p)))
    (lp_name p) at_.

Definition Authenticate {S} (p : LDAPProvider) (login password : string) : Database.M S FederatedIdentity :=
  if (TrimSpace login =s "") || (password =s "") then fail ErrAuthenticationFailed
  else if negb (lp_Dial p) then fail ErrAuthenticationFailed
  else if negb (lp_Bind p (lp_BindDN p) (lp_BindPassword p)) then fail ErrAuthenticationFailed
  else match lp_Search p (lp_LoginAttribute p) login with
  | Some [entry] =>
    if negb (lp_Bind p (le_DN entry) password) then fail ErrAuthenticationFailed
    else at_ ← now; mret (ldap_identity p entry (UTC at_))
  | _ => fail ErrAuthenticationFailed
  end.

(** ** Replies *)

(** The constructors of [kratoserrors] that carry a status of their own. *)
Class KratosStatuses := {
  New_ : Z -> string -> string -> error;
  ServiceUnavailable : string -> string -> error
}.

Inductive SameSite := SameSiteStrictMode | SameSiteNoneMode | SameSiteLaxMode.
Definition parseSameSite (value : string) : SameSite :=
  let v := ToLower (TrimSpace value) in
  if v =s "strict" then SameSiteStrictMode else if v =s "none" then SameSiteNoneMode else SameSiteLaxMode.

Record Cookie := mkCookie {
  ck_Name : string; ck_Value : string; ck_Path : string; ck_Expires : Time; ck_MaxAge : Z;
  ck_HttpOnly : bool; ck_Secure : bool; ck_SameSite : SameSite
}.

(** What a handler puts in the header of its reply. *)
Inductive Header :=
| SetCookie (c : Cookie)
| RetryAfter (seconds : string).

Definition sessionCookieName := "forge_session".

(** ** The state *)

(** [C] is the state of the cache. *)
Record Exchange (X O C : Type) := mkExchange {
  ex_tables : Platform.Tables X O;
  ex_limits : Limits C;
  ex_reply : list Header
}.
Arguments mkExchange {X O C}.
Arguments ex_tables {X O C}.
Arguments ex_limits {X O C}.
Arguments ex_reply {X O C}.
#[export] Instance Exchange_eta X O C : Eta (Exchange X O C) := fun x =>
  mkExchange (ex_tables x) (ex_limits x) (ex_reply x).

(** The configuration of the service; the limiter may be missing. *)
Record IdentityService (C : Type) := mkIdentityService {
  is_audit : bool;
  is_db : bool;
  is_limiter : option (option (Cache C));
  is_secure : bool;
  is_sameSite : SameSite;
  is_federated : option (option (Cache C) * (string -> option OIDCProvider) * (string -> option LDAPProvider))
}.
Arguments is_audit {C}.
Arguments is_db {C}.
Arguments is_limiter {C}.
Arguments is_secure {C}.
Arguments is_sameSite {C}.
Arguments is_federated {C}.

(** A call, and whether it came over HTTP. *)
Record Visit := mkVisit { vi_call : Call; vi_http : bool }.

Definition header_of (c : Call) (name : string) : string :=
  match c_transport (call_ctx c) with Some tr => tr_Header tr name | None => "" end.
Definition requestHeader (c : Call) (name : string) (maximum : Z) : string :=
  let value := TrimSpace (header_of c name) in
  if maximum <? slen value then stake (Z.to_nat maximum) value else value.
(** One line of cookies, as in [RequestGate]. *)
Definition requestCookie (c : Call) (name : string) : string := cookieValue (header_of c "Cookie") name.

Definition nobody (login : string) : Principal :=
  mkPrincipal "" "" "" login "" [] [] [] false "" zeroTime (mkDataScope false false []) "" None.
Definition clientIP (c : Call) : string := e_ClientIP (newAuditEvent c (nobody "") "" "" "" JNull).

Definition expectedLoginFailure (err : error) : bool :=
  existsb (errors_Is err) [ErrInvalidCredentials; ErrLocked; ErrDisabled; ErrMFARequired; ErrInvalidMFA].

(** The organization as it was asked for. *)
Definition organization_key (value : string) : string :=
  let value := TrimSpace value in if value =s "" then "default" else value.

Definition normalizeProviderName (value : string) : string := ToLower (TrimSpace value).

(** Decompose a successful run, with the cases of results on the way. *)
Ltac run_cases :=
  repeat (run; match goal with
  | R : (match ?x with Ok _ => _ | Err _ => _ end) _ _ _ = (Ok _, _, _) |- _ => destruct x
  | R : (match ?x with Some _ => _ | None => _ end) _ _ _ = (Ok _, _, _) |- _ => destruct x
  | R : fail _ _ _ _ = (Ok _, _, _) |- _ => by apply fail_ok in R
  end); run.

(** ** The service *)

Section service.
Context {X O C : Type} `{UnicodeTables} `{Argon2} `{TOTP} `{KratosErrors} `{KratosReplies} `{KratosStatuses}.
Context (service : Service) (crypt : option Provider).
Context (column_time : Time -> Time) (forwarder : option (Forwarder (X := X))).
Context (s : IdentityService C).
Notation W := (Database.M (Exchange X O C)).
Notation TM := (Database.M (Platform.Tables X O)).

Definition in_tables {A} (m : TM A) : W A := zoom ex_tables (fun t x => x <| ex_tables := t |>) m.
Definition in_limits {A} (m : Database.M (Limits C) A) : W A := zoom ex_limits (fun l x => x <| ex_limits := l |>) m.
Definition in_cache {A} (m : Database.M C A) : W A :=
  in_limits (zoom lm_cache (fun c l => mkLimits c (lm_local l)) m).
Definition reply (f : list Header -> list Header) : W unit := poke (fun x => x <| ex_reply := f (ex_reply x) |>).

(** *** Rate limits and cookies *)

Definition limiter_unavailable : error := ServiceUnavailable "RATE_LIMIT_UNAVAILABLE" "security rate limiter is unavailable".
Definition rate_limited : error := New_ 429 "RATE_LIMITED" "too many requests".

(** [Header.Set]. *)
Definition set_retry_after (seconds : string) (l : list Header) : list Header :=
  (List.filter (fun h => match h with RetryAfter _ => false | SetCookie _ => true end) l ++ [RetryAfter seconds])%list.

Definition allow (v : Visit) (key : string) (limit : Z) (window : Duration) (retryAfter : string) : W unit :=
  match is_limiter s with
  | None => fail limiter_unavailable
  | Some cache =>
    allowed ← attempt (in_limits (SharedState.allow cache (mkAttempted key limit window)));
    match allowed with
    | Err _ => fail limiter_unavailable
    | Ok true => mret tt
    | Ok false =>
      _ ← (match c_transport (call_ctx (vi_call v)) with
           | Some _ => reply (set_retry_after retryAfter)
           | None => mret tt
           end);
      fail rate_limited
    end
  end.

Definition over_http (v : Visit) : bool :=
  match c_transport (call_ctx (vi_call v)) with Some _ => vi_http v | None => false end.

Definition login_cookies (session csrf : string) (expires : Time) : list Header :=
  [SetCookie (mkCookie sessionCookieName session "/" expires 0 true (is_secure s) (is_sameSite s));
   SetCookie (mkCookie csrfCookieName csrf "/" expires 0 false (is_secure s) (is_sameSite s))].
Definition setLoginCookies (v : Visit) (session csrf : string) (expires : Time) : W unit :=
  if over_http v then reply (fun l => l ++ login_cookies session csrf expires)%list else mret tt.

Definition cleared_cookie (name : string) (httpOnly : bool) : Header :=
  SetCookie (mkCookie name "" "/" 0 (-1) httpOnly (is_secure s) (is_sameSite s)).
Definition clearLoginCookies (v : Visit) : W unit :=
  if over_http v then
    reply (fun l => l ++ [cleared_cookie sessionCookieName true; cleared_cookie csrfCookieName false])%list
  else mret tt.

(** *** Logins *)

Definition write (event : Event) : TM unit := Platform.write column_time forwarder event.

Definition organization_id (organization : string) : TM string :=
  in_identity (queryR (fun t => match select_row (fun o => org_Key o =s organization) (organizations t) with
                                | Ok o => Ok (org_ID o)
                                | Err err => Err err
                                end)).

(** The error of a login, [ErrLocked] among them. *)
Definition login_error (r : result login_outcome) : option error :=
  match r with
  | Ok (LoggedIn _ _ _ _) => None
  | Ok (Locked _) => Some ErrLocked
  | Err err => Some err
  end.

(** What a successful login adds to its event. *)
Definition signed_in (r : result login_outcome) (event : Event) : Event :=
  match r with
  | Ok (LoggedIn p _ _ _) =>
    event <| e_ActorID := p_UserID p |> <| e_ActorName := p_LoginName p |> <| e_ResourceID := p_SessionID p |>
          <| e_Result := "SUCCESS" |>
  | _ => event
  end.

(** A login and its event; an error that is not expected fails the
    transaction. *)
Definition recorded_login (expected : error -> bool) (event : Event) (m : TM login_outcome) : TM (result login_outcome) :=
  r ← attempt m;
  match login_error r with
  | Some err => if expected err then _ ← write event; mret r else fail err
  | None => _ ← write (signed_in r event); mret r
  end.

Definition login_reply (err : error) : error :=
  if errors_Is err ErrMFARequired then New_ 428 "MFA_REQUIRED" "multi-factor authentication is required"
  else if errors_Is err ErrInvalidMFA then Unauthorized "INVALID_MFA" "invalid multi-factor authentication code"
  else if errors_Is err ErrLocked then New_ 423 "ACCOUNT_LOCKED" "account is locked"
  else Unauthorized "INVALID_CREDENTIALS" "invalid credentials".

(** A login succeeds with its principal, and the cookies. *)
Definition finish_login (v : Visit) (as_reply : error -> error) (r : result login_outcome) : W (Principal * string) :=
  match r with
  | Ok (LoggedIn p token csrf expires) => _ ← setLoginCookies v token csrf expires; mret (p, csrf)
  | Ok (Locked _) => fail (as_reply ErrLocked)
  | Err err => fail (as_reply err)
  end.

Definition failed_attempt (v : Visit) (login action : string) (details : json) : Event :=
  (newAuditEvent (vi_call v) (nobody login) action "session" "" details) <| e_Result := "FAILED" |>.

Definition Login (v : Visit) (organization login password mfaCode recoveryCode : string) : W (Principal * string) :=
  let event := failed_attempt v (TrimSpace login) "auth.login" JNull in
  _ ← allow v (e_ClientIP event +:+ "|login") 10 Minute "60";
  org ← attempt (in_tables (organization_id (organization_key organization)));
  match org with
  | Err _ =>
    _ ← mapped internalError (in_tables (write event));
    fail (Unauthorized "INVALID_CREDENTIALS" "invalid credentials")
  | Ok org =>
    let event := event <| e_OrganizationID := org |> in
    r ← mapped internalError (in_tables (WithTx (recorded_login expectedLoginFailure event
          (in_identity (LoginWithMFA service crypt org login password mfaCode recoveryCode (e_ClientIP event)
             (requestHeader (vi_call v) "User-Agent" 512))))));
    finish_login v login_reply r
  end.

(** *** Logins with another identity *)

Definition federated_failed : error := Unauthorized "FEDERATED_LOGIN_FAILED" "federated login failed".
Definition federatedUnavailable : error := ServiceUnavailable "FEDERATED_UNAVAILABLE" "federated identity provider is unavailable".

Definition expected_federated (err : error) : bool := errors_Is err ErrInvalidCredentials || errors_Is err ErrDisabled.

(** The organization is looked up inside the transaction; an unknown one is a
    login with invalid credentials. *)
Definition federated_tx (v : Visit) (organization provider subject : string) : TM (result login_outcome) :=
  let event := failed_attempt v provider "auth.federated.login" (object [("provider", JStr provider)]) in
  org ← attempt (organization_id (TrimSpace organization));
  match org with
  | Err _ => _ ← write event; mret (Err ErrInvalidCredentials)
  | Ok org =>
    let event := event <| e_OrganizationID := org |> in
    recorded_login expected_federated event
      (in_identity (LoginFederated service org provider subject (e_ClientIP event)
         (requestHeader (vi_call v) "User-Agent" 512)))
  end.

Definition loginFederated (v : Visit) (organization provider subject : string) : W (Principal * string) :=
  r ← mapped internalError (in_tables (WithTx (federated_tx v organization provider subject)));
  finish_login v (fun _ => federated_failed) r.

Definition randomFederatedValue : W string := b ← rand_Read 32; mret (EncodeToString b).

(** What the state of a login over OpenID Connect stands for. *)
Definition state_payload (provider organization nonce : string) : string :=
  Marshal (object [("provider", JStr provider); ("organization", JStr organization); ("nonce", JStr nonce)]).

Record StateData := mkStateData { st_Provider : string; st_Organization : string; st_Nonce : string }.
#[export] Instance StateData_eta : Eta StateData := fun d => mkStateData (st_Provider d) (st_Organization d) (st_Nonce d).

(** [json.Unmarshal] into the struct: the keys match in any case, [null]
    leaves a field as it is, other keys are passed over. *)
Fixpoint state_members (l : list (string * json)) (d : StateData) : option StateData :=
  match l with
  | [] => Some d
  | (k, v) :: rest =>
    let set (f : string -> StateData) :=
      match v with JStr x => state_members rest (f x) | JNull => state_members rest d | _ => None end in
    if EqualFold k "provider" then set (fun x => d <| st_Provider := x |>)
    else if EqualFold k "organization" then set (fun x => d <| st_Organization := x |>)
    else if EqualFold k "nonce" then set (fun x => d <| st_Nonce := x |>)
    else state_members rest d
  end.
Definition parse_state (payload : string) : option StateData :=
  match parse_document payload with
  | Some (JObj l) => state_members l (mkStateData "" "" "")
  | Some JNull => Some (mkStateData "" "" "")
  | _ => None
  end.

(** The cache and the provider of a login over OpenID Connect. *)
Definition oidc_setup (provider : string) : W (Cache C * OIDCProvider) :=
  match is_federated s with
  | Some (Some c, oidc, _) =>
    if @cache_Provider C c =s "disabled" then fail federatedUnavailable
    else match oidc (normalizeProviderName provider) with
    | Some p => mret (c, p)
    | None => fail (NotFound "FEDERATED_PROVIDER_NOT_FOUND" "OIDC provider is not configured")
    end
  | _ => fail federatedUnavailable
  end.

Definition state_key (state : string) : string := "oidc:state:" +:+ state.

Definition BeginOIDCLogin (v : Visit) (provider organization : string) : W string :=
  setup ← oidc_setup provider;
  let '(c, p) := setup in
  let name := normalizeProviderName provider in
  _ ← allow v (clientIP (vi_call v) +:+ "|oidc-begin|" +:+ name) 20 Minute "60";
  state ← mapped (fun _ => federatedUnavailable) randomFederatedValue;
  nonce ← mapped (fun _ => federatedUnavailable) randomFederatedValue;
  _ ← mapped (fun _ => federatedUnavailable)
        (in_cache (@cache_Set C c (state_key state) (state_payload name (organization_key organization) nonce) (5 * Minute)));
  mret (AuthorizationURL p state nonce).

(** A callback reads what its state stands for, consumes the state, and goes on
    with the code. *)
Definition read_state (v : Visit) (provider state code : string) : W (Cache C * OIDCProvider * string * StateData) :=
  setup ← oidc_setup provider;
  let '(c, p) := setup in
  let name := normalizeProviderName provider in
  _ ← allow v (clientIP (vi_call v) +:+ "|oidc-callback|" +:+ name) 20 Minute "60";
  let state := TrimSpace state in
  _ ← guard_not ((state =s "") || (TrimSpace code =s "")) federated_failed;
  payload ← mapped (fun _ => federated_failed) (in_cache (@cache_Get C c (state_key state)));
  match parse_state payload with
  | None => fail federated_failed
  | Some data =>
    _ ← guard_not ((st_Provider data <>s name) || (st_Organization data =s "") || (st_Nonce data =s "")) federated_failed;
    mret (c, p, payload, data)
  end.

Definition consume_state (c : Cache C) (state payload : string) : W unit :=
  consumed ← attempt (in_cache (@cache_CompareAndDelete C c (state_key (TrimSpace state)) payload));
  match consumed with
  | Ok true => mret tt
  | _ => fail (Unauthorized "FEDERATED_LOGIN_FAILED" "federated login state was already used")
  end.

Definition finish_callback (v : Visit) (p : OIDCProvider) (name code : string) (data : StateData) : W (Principal * string) :=
  federated ← mapped (fun _ => federated_failed) (AuthenticateCode p code (st_Nonce data));
  _ ← guard_not ((fi_Provider federated <>s name) || (fi_Subject federated =s "")) federated_failed;
  loginFederated v (st_Organization data) name (fi_Subject federated).

Definition CompleteOIDCLogin (v : Visit) (provider state code : string) : W (Principal * string) :=
  read ← read_state v provider state code;
  let '(c, p, payload, data) := read in
  _ ← consume_state c state payload;
  finish_callback v p (normalizeProviderName provider) code data.

(** The error of the audit of a failure is dropped. *)
Definition LoginLDAP (v : Visit) (provider organization login password : string) : W (Principal * string) :=
  match is_federated s with
  | None => fail federatedUnavailable
  | Some (_, _, ldap) =>
    let name := normalizeProviderName provider in
    match ldap name with
    | None => fail (NotFound "FEDERATED_PROVIDER_NOT_FOUND" "LDAP provider is not configured")
    | Some p =>
      let event := failed_attempt v (TrimSpace login) "auth.federated.login" (object [("provider", JStr name)]) in
      _ ← allow v (e_ClientIP event +:+ "|federated|" +:+ name) 10 Minute "60";
      found ← attempt (Authenticate p login password);
      let subject := match found with
                     | Ok f => if (fi_Provider f <>s name) || (fi_Subject f =s "") then None else Some (fi_Subject f)
                     | Err _ => None
                     end in
      match subject with
      | None => _ ← attempt (in_tables (write event)); fail federated_failed
      | Some subject => loginFederated v (organization_key organization) name subject
      end
    end
  end.

(** *** One's own account *)

(** [IdentityService.audited]: that of a platform service with the same
    database and audit writer. *)
Definition platform : PlatformService := mkPlatformService false false false (is_audit s) (is_db s).
Definition audited {A} (event : Event) (op : TM A) (named : A -> Event -> Event) : W A :=
  in_tables (Platform.run column_time forwarder platform event op named).
Definition visitor {A} (v : Visit) (k : Principal -> W A) : W A :=
  actor ← lift (requiredPrincipal (vi_call v));
  k actor.

Definition GetMFAStatus (v : Visit) : W bool :=
  visitor v (fun actor => mapped serviceError (in_tables (in_identity (MFAEnabled actor)))).

Definition BeginMFAEnrollment (v : Visit) (password : string) : W MFAEnrollment :=
  visitor v (fun actor =>
    audited (newAuditEvent (vi_call v) actor "auth.mfa.enrollment.begin" "user" (p_UserID actor) JNull)
      (in_identity (Accounts.BeginMFAEnrollment crypt actor password)) unnamed).

Definition ConfirmMFAEnrollment (v : Visit) (code : string) : W (list string) :=
  visitor v (fun actor =>
    _ ← allow v ("mfa-confirm:user:" +:+ p_UserID actor) 5 (5 * Minute) "300";
    audited (newAuditEvent (vi_call v) actor "auth.mfa.enrollment.confirm" "user" (p_UserID actor) JNull)
      (in_identity (Accounts.ConfirmMFAEnrollment crypt actor code)) unnamed).

Definition DisableMFA (v : Visit) (password code recoveryCode : string) : W unit :=
  visitor v (fun actor =>
    _ ← allow v ("mfa-disable:user:" +:+ p_UserID actor) 5 (15 * Minute) "900";
    audited (newAuditEvent (vi_call v) actor "auth.mfa.disable" "user" (p_UserID actor) JNull)
      (in_identity (Accounts.DisableMFA crypt actor password code recoveryCode)) unnamed).

Definition Logout (v : Visit) : W unit :=
  visitor v (fun actor =>
    _ ← guard_not (EqualFold (p_Type actor) "TOKEN") (serviceError ErrInteractiveSessionRequired);
    _ ← audited (newAuditEvent (vi_call v) actor "auth.logout" "session" (p_SessionID actor) JNull)
          (in_identity (Accounts.Logout (requestCookie (vi_call v) sessionCookieName))) unnamed;
    clearLoginCookies v).

Definition GetCurrentUser (v : Visit) : W Principal := visitor v mret.

Definition ChangePassword (v : Visit) (current next : string) : W unit :=
  visitor v (fun actor =>
    _ ← forM ["password-change:user:" +:+ p_UserID actor; "password-change:ip:" +:+ clientIP (vi_call v)]
          (fun key => allow v key 5 (15 * Minute) "900");
    audited (newAuditEvent (vi_call v) actor "auth.password.change" "user" (p_UserID actor) JNull)
      (in_identity (Accounts.ChangePassword service actor current next)) unnamed).

Definition StepUpAuthentication (v : Visit) (password code recoveryCode : string) : W Time :=
  visitor v (fun actor =>
    _ ← allow v ("step-up:user:" +:+ p_UserID actor) 5 (5 * Minute) "300";
    audited (newAuditEvent (vi_call v) actor "auth.step_up" "session" (p_SessionID actor) JNull)
      (in_identity (Accounts.StepUpAuthentication crypt actor password code recoveryCode)) unnamed).

Definition ListApiTokens (v : Visit) : W (list APIToken) :=
  visitor v (fun actor => mapped serviceError (in_tables (in_identity (ListAPITokens actor)))).

(** [days] is an [int32]: a year is no overflow. *)
Definition CreateApiToken (v : Visit) (name : string) (scopes : list string) (days : Z) : W (APIToken * string) :=
  visitor v (fun actor =>
    let days := if days =? 0 then 90 else days in
    _ ← guard_not ((days <? 1) || (365 <? days)) (serviceError ErrInvalidSecurityPolicy);
    audited (newAuditEvent (vi_call v) actor "security.api_token.create" "api_token" ""
               (object [("name", JStr name); ("scopes", repeated scopes)]))
      (in_identity (CreateAPIToken service actor name scopes (days * 24 * Hour)))
      (fun created => resource (at_ID created.1))).

Definition RevokeApiToken (v : Visit) (token : string) : W unit :=
  visitor v (fun actor =>
    audited (newAuditEvent (vi_call v) actor "security.api_token.revoke" "api_token" token JNull)
      (in_identity (RevokeAPIToken actor token)) unnamed).

(** ** Logins and their events *)

(** Whoever is logged in belongs to the organization. *)
Definition of_organization (org : string) (o : login_outcome) : Prop :=
  match o with LoggedIn p _ _ _ => p_OrganizationID p = org | Locked _ => True end.

Lemma open_session_user user policy mfa ip ua e n t o n' t' :
  open_session user policy mfa ip ua e n t = (Ok o, n', t') -> of_organization (user_OrganizationID user) o.
Proof. intros R. unfold open_session in R. by run. Qed.

Lemma UserByLogin_org org login e n t row n' t' : UserByLogin org login e n t = (Ok row, n', t') ->
  user_OrganizationID (row_User row) = org.
Proof.
  intros R. unfold UserByLogin, with_roles in R. run. cbn.
  match goal with L : _ = Ok ?x |- user_OrganizationID (row_User ?x) = _ => apply select_row_ok in L as [_ L] end.
  by breflect.
Qed.

Lemma LoginWithMFA_org org login password code recovery ip ua e n t o n' t' :
  LoginWithMFA service crypt org login password code recovery ip ua e n t = (Ok o, n', t') -> of_organization org o.
Proof.
  intros R. unfold LoginWithMFA, login_as in R. run_cases; [done|].
  match goal with L : UserByLogin _ _ _ _ _ = _ |- _ => apply UserByLogin_org in L as <- end.
  match goal with L : open_session _ _ _ _ _ _ _ _ = _ |- _ => by apply open_session_user in L end.
Qed.

Lemma LoginFederated_org org provider subject ip ua e n t o n' t' :
  LoginFederated service org provider subject ip ua e n t = (Ok o, n', t') -> of_organization org o.
Proof.
  intros R. unfold LoginFederated in R. run_cases. breflect. done.
Qed.

(** A row of a failed attempt: it names no user. *)
Record attempt_failed (action : string) (row : AuditLog.Row) : Prop := {
  af_actor : l_actor_id row = None;
  af_action : l_action row = action;
  af_result : l_result row = "FAILED"
}.

Notation logs t := (au_logs (pf_audit (ex_tables t))).

(** What a transaction of a login leaves: a login and the row that names its
    user, a refusal and the row of the attempt, or nothing at all. *)
Inductive login_done (action : string) (t t' : Platform.Tables X O) : result (result login_outcome) -> Prop :=
| ld_in p token csrf expires row : recorded p action "SUCCESS" row ->
    au_logs (pf_audit t') = (au_logs (pf_audit t) ++ [row])%list -> login_done action t t' (Ok (Ok (LoggedIn p token csrf expires)))
| ld_refused r row : login_error r <> None -> attempt_failed action row ->
    au_logs (pf_audit t') = (au_logs (pf_audit t) ++ [row])%list -> login_done action t t' (Ok r)
| ld_rolled_back err : t' = t -> login_done action t t' (Err err).

(** The event of an attempt that nobody is named in yet. *)
Record attempt_event (action org : string) (event : Event) : Prop := {
  ae_action : e_Action event = action;
  ae_org : e_OrganizationID event = org;
  ae_actor : e_ActorID event = "";
  ae_result : e_Result event = "FAILED"
}.

Lemma failed_row e event t t' action org : attempt_event action org event ->
  wrote (X := X) (O := O) column_time forwarder e event t t' ->
  exists row, attempt_failed action row /\ au_logs (pf_audit t') = (au_logs (pf_audit t) ++ [row])%list.
Proof.
  intros [E1 E2 E3 E4] Wr.
  destruct (wrote_row column_time forwarder e event t t' ((nobody "") <| p_OrganizationID := org |>) action "FAILED")
    as (row & [R1 R2 R3 R4] & L); [done..|by rewrite E4|done|]. by exists row.
Qed.

Lemma signed_row e event t t' action org p token csrf expires : attempt_event action org event -> p_OrganizationID p = org ->
  wrote (X := X) (O := O) column_time forwarder e (signed_in (Ok (LoggedIn p token csrf expires)) event) t t' ->
  exists row, recorded p action "SUCCESS" row /\ au_logs (pf_audit t') = (au_logs (pf_audit t) ++ [row])%list.
Proof.
  intros [E1 E2 E3 E4] Org Wr. eapply (wrote_row column_time forwarder e _ t t' p); [| | | |exact Wr]; cbn; congruence.
Qed.

Lemma recorded_login_done expected event org action (m : TM login_outcome) e n t r n' t' :
  attempt_event action org event -> (forall l, keeps (fun t => pf_audit t = l) m) ->
  (forall e n t o n' t', m e n t = (Ok o, n', t') -> of_organization org o) -> in_tx e = true ->
  recorded_login expected event m e n t = (Ok r, n', t') -> login_done action t t' (Ok r).
Proof.
  intros Ev K G T R. unfold recorded_login in R. apply bind_ok in R as (r0 & n1 & t1 & M & R). apply attempt_inv in M.
  pose proof (K (pf_audit t) e n t eq_refl) as L. rewrite M in L. cbn in L.
  destruct (login_error r0) as [err|] eqn:F.
  - destruct (expected err); [|by apply fail_ok in R]. run.
    match goal with W : write _ _ _ _ = _ |- _ => apply write_runs in W; [|done]; destruct (failed_row _ _ _ _ _ _ Ev W) as (row & A & Lg) end.
    by apply (ld_refused _ _ _ _ row); [rewrite F| |rewrite <- L].
  - destruct r0 as [[p token csrf expires|]|]; try done. run.
    match goal with W : write _ _ _ _ = _ |- _ => apply write_runs in W; [|done];
      destruct (signed_row _ _ _ _ _ _ p token csrf expires Ev (G _ _ _ _ _ _ M) W) as (row & A & Lg) end.
    by apply (ld_in _ _ _ _ _ _ _ row); [|rewrite <- L].
Qed.

Lemma WithTx_done action (m : TM (result login_outcome)) e n t r n' t' :
  (forall n r n' t', m (e <| in_tx := true |>) n t = (Ok r, n', t') -> login_done action t t' (Ok r)) ->
  in_tx e = false -> WithTx m e n t = (r, n', t') -> login_done action t t' r.
Proof.
  intros D T R. destruct r as [r|err].
  - apply WithTx_inside in R as (n0 & k & R). by eapply D.
  - apply ld_rolled_back. by eapply WithTx_atomic.
Qed.

(** An event written in a transaction of its own. *)
Lemma write_alone event action org e n t r n' t' : attempt_event action org event -> in_tx e = false ->
  write event e n t = (r, n', t') ->
  t' = t \/ exists row, attempt_failed action row /\ au_logs (pf_audit t') = (au_logs (pf_audit t) ++ [row])%list.
Proof.
  intros Ev T R. apply zoom_run in R as (l & R & ->). destruct r as [u|err].
  - right. destruct (WithTx_inside _ _ _ _ _ _ _ R) as (n0 & k & R0).
    apply (failed_row e event t (t <| pf_audit := l |>) action org Ev). split; [done|]. exists n0, k. destruct u. exact R0.
  - left. assert (l = pf_audit t) as -> by (unfold AuditLog.Write in R; by eapply WithTx_atomic). by destruct t.
Qed.

(** *** Steps before a login *)

Definition cookies (x : Exchange X O C) : list Cookie :=
  omap (fun h => match h with SetCookie c => Some c | RetryAfter _ => None end) (ex_reply x).

(** A step that neither touches the tables nor sets a cookie; when it succeeds
    it leaves the reply alone. *)
Definition calm {A} (m : W A) : Prop := forall e n x r n' x', m e n x = (r, n', x') ->
  ex_tables x' = ex_tables x /\ cookies x' = cookies x /\ (is_ok r = true -> ex_reply x' = ex_reply x).

Lemma calm_lift {A} (r : result A) : calm (lift r).
Proof. by intros e n x r0 n' x' [= _ _ <-]. Qed.
Lemma calm_ret {A} (a : A) : calm (mret a).
Proof. by intros e n x r0 n' x' [= _ _ <-]. Qed.
Lemma calm_fail {A} err : calm (fail err : W A).
Proof. by intros e n x r0 n' x' [= _ _ <-]. Qed.
Lemma calm_now : calm now.
Proof. by intros e n x r0 n' x' [= _ _ <-]. Qed.
Lemma calm_guard b err : calm (guard_not b err).
Proof. destruct b; [apply calm_fail|apply calm_ret]. Qed.
Lemma calm_rand len : calm (rand_Read len).
Proof. intros e n x r n' x'. unfold rand_Read. destruct (faults e n); by intros [= _ _ <-]. Qed.
Lemma calm_mapped {A} f (m : W A) : calm m -> calm (mapped f m).
Proof.
  intros K e n x r n' x' R. apply mapped_run in R as (r0 & R & -> & _). by eapply K.
Qed.
Lemma calm_attempt {A} (m : W A) : (forall e n x r n' x', m e n x = (r, n', x') -> ex_tables x' = ex_tables x /\ ex_reply x' = ex_reply x) ->
  calm (attempt m).
Proof.
  intros K e n x r n' x'. unfold attempt. destruct (m e n x) as [[r0 k] y] eqn:R. intros [= _ _ <-].
  apply K in R as [-> R]. unfold cookies. by rewrite R.
Qed.
Lemma calm_bind {A B} (m : W A) (f : A -> W B) : calm m -> (forall a, calm (f a)) -> calm (m ≫= f).
Proof.
  intros K F e n x r n' x' R. unfold mbind, M_bind in R. destruct (m e n x) as [[[a|err] k] y] eqn:R0.
  - apply K in R0 as (T1 & C1 & R1). apply F in R as (T2 & C2 & R2). rewrite T2, C2, T1, C1. split_and!; [done..|].
    intros Ok_. by rewrite R2, R1.
  - injection R as <- <- <-. apply K in R0 as (T1 & C1 & R1). done.
Qed.

(** What is done to the limits alone. *)
Lemma limits_aside {A} (m : Database.M (Limits C) A) e n x r n' x' : in_limits m e n x = (r, n', x') ->
  ex_tables x' = ex_tables x /\ ex_reply x' = ex_reply x.
Proof. intros R. by apply zoom_run in R as (l & _ & ->). Qed.
Lemma calm_limits {A} (m : Database.M (Limits C) A) : calm (in_limits m).
Proof. intros e n x r n' x' R. apply limits_aside in R as [T R]. unfold cookies. by rewrite R. Qed.
Lemma calm_cache {A} (m : Database.M C A) : calm (in_cache m).
Proof. apply calm_limits. Qed.
#[local] Hint Resolve calm_lift calm_ret calm_fail calm_now calm_guard calm_rand calm_limits calm_cache : core.

Lemma calm_reads {A} (m : TM A) : reads m -> calm (attempt (in_tables m)).
Proof.
  intros Rd. apply calm_attempt. intros e n x r n' x' R. apply zoom_run in R as (t & R & ->).
  specialize (Rd e n (ex_tables x)). rewrite R in Rd. by cbn in *.
Qed.

Lemma retry_cookies seconds l :
  omap (fun h => match h with SetCookie c => Some c | RetryAfter _ => None end) (set_retry_after seconds l) =
  omap (fun h => match h with SetCookie c => Some c | RetryAfter _ => None end) l.
Proof.
  unfold set_retry_after. rewrite omap_app. cbn. rewrite app_nil_r. induction l as [|[c|secs] l IH]; cbn; [done| |done].
  by rewrite IH.
Qed.

Lemma calm_allow v key limit window retryAfter : calm (allow v key limit window retryAfter).
Proof.
  unfold allow. destruct (is_limiter s) as [c|]; [|done].
  apply calm_bind; [apply calm_attempt; intros; by eapply limits_aside|]. intros [[|]|err]; [done| |done].
  intros e n x r n' x'. destruct (c_transport _); intros [= <- _ <-]; [|done].
  split; [done|]. split; [|done]. apply retry_cookies.
Qed.

Lemma calm_setup provider : calm (oidc_setup provider).
Proof.
  unfold oidc_setup. destruct (is_federated s) as [[[[c|] oidc] ldap]|]; [|done..]. destruct (_ =s _); [done|].
  by destruct (oidc _).
Qed.

Ltac calm_walk :=
  repeat first
    [ done
    | apply calm_bind; [|intros ?]
    | apply calm_mapped
    | match goal with |- calm (match ?x with _ => _ end) => destruct x end ].

Lemma calm_read_state v provider state code : calm (read_state v provider state code).
Proof.
  unfold read_state. apply calm_bind; [apply calm_setup|]. intros [c p].
  apply calm_bind; [apply calm_allow|intros _]. calm_walk.
Qed.
Lemma calm_consume c state payload : calm (consume_state c state payload).
Proof.
  apply calm_bind; [apply calm_attempt; intros; by eapply limits_aside|].
  intros [[|]|err]; [apply calm_ret|apply calm_fail..].
Qed.
Lemma calm_ldap p login password : calm (attempt (Authenticate p login password)).
Proof.
  apply calm_attempt. intros e n x r n' x' R.
  assert (Rd : reads (S := Exchange X O C) (Authenticate p login password))
    by (apply keeps_reads; intros; unfold Authenticate; keeps_walk).
  specialize (Rd e n x). rewrite R in Rd. cbn in Rd. by subst.
Qed.
Lemma calm_code p code nonce : calm (AuthenticateCode p code nonce).
Proof. unfold AuthenticateCode. calm_walk. Qed.

(** *** The logins *)

(** The three ways to sign in. *)
Inductive sign_in (v : Visit) : string -> W (Principal * string) -> Prop :=
| si_Login organization login password mfaCode recoveryCode :
    sign_in v "auth.login" (Login v organization login password mfaCode recoveryCode)
| si_OIDC provider state code : sign_in v "auth.federated.login" (CompleteOIDCLogin v provider state code)
| si_LDAP provider organization login password :
    sign_in v "auth.federated.login" (LoginLDAP v provider organization login password).

(** What the caller gets, and what the log says of it. *)
Definition accounted (v : Visit) (action : string) (x x' : Exchange X O C) (r : result (Principal * string)) : Prop :=
  match r with
  | Ok (p, csrf) => exists token expires row, recorded p action "SUCCESS" row /\ logs x' = (logs x ++ [row])%list /\
      ex_reply x' = (ex_reply x ++ (if over_http v then login_cookies token csrf expires else []))%list
  | Err _ => cookies x' = cookies x /\
      (ex_tables x' = ex_tables x \/ exists row, attempt_failed action row /\ logs x' = (logs x ++ [row])%list)
  end.
Definition signs (v : Visit) (action : string) (m : W (Principal * string)) : Prop :=
  forall e n x r n' x', in_tx e = false -> m e n x = (r, n', x') -> accounted v action x x' r.

Lemma signs_fail v action err : signs v action (fail err).
Proof. intros e n x r n' x' _ [= <- _ <-]. split; [done|by left]. Qed.

Lemma signs_bind v action {A} (m : W A) f : calm m -> (forall a, signs v action (f a)) -> signs v action (m ≫= f).
Proof.
  intros K F e n x r n' x' T R. unfold mbind, M_bind in R. destruct (m e n x) as [[[a|err] k] y] eqn:R0;
    apply K in R0 as (T1 & C1 & R1).
  - apply F in R; [|done]. unfold accounted in *. rewrite T1, C1, R1 in R by done. exact R.
  - injection R as <- <- <-. split; [done|by left].
Qed.

(** An attempt that fails with its event. *)
Lemma signs_recorded_failure v action org event as_reply err : attempt_event action org event ->
  signs v action (_ ← mapped as_reply (in_tables (write event)); fail err) /\
  signs v action (_ ← attempt (in_tables (write event)); fail err).
Proof.
  intros Ev. assert (Wr : forall e n x r n' x', in_tx e = false -> in_tables (write event) e n x = (r, n', x') ->
    cookies x' = cookies x /\
    (ex_tables x' = ex_tables x \/ exists row, attempt_failed action row /\ logs x' = (logs x ++ [row])%list)).
  { intros e n x r n' x' T R. apply zoom_run in R as (t & R & ->). split; [done|].
    by apply (write_alone event action org e n (ex_tables x) r n' t). }
  split; intros e n x r n' x' T R; unfold mbind, M_bind in R.
  - unfold mapped in R. destruct (in_tables (write event) e n x) as [[[u|err0] k] y] eqn:R0; injection R as <- _ <-;
      by eapply Wr.
  - unfold attempt in R. destruct (in_tables (write event) e n x) as [[r0 k] y] eqn:R0; injection R as <- _ <-; by eapply Wr.
Qed.

(** A transaction of a login, then its reply. *)
Lemma signs_tx v action as_reply (m : TM (result login_outcome)) :
  (forall e n t r n' t', in_tx e = true -> m e n t = (Ok r, n', t') -> login_done action t t' (Ok r)) ->
  signs v action (r ← mapped internalError (in_tables (WithTx m)); finish_login v as_reply r).
Proof.
  intros D e n x r n' x' T R. unfold mbind, M_bind, mapped in R.
  assert (W : forall r0 k t, WithTx m e n (ex_tables x) = (r0, k, t) -> login_done action (ex_tables x) t r0).
  { intros r0 k t. apply WithTx_done; [|done]. intros n1 r1 n2 t2. by apply (D (e <| in_tx := true |>)). }
  destruct (in_tables (WithTx m) e n x) as [[[r0|err] k] y] eqn:R0; apply zoom_run in R0 as (t & R0 & ->); apply W in R0.
  - inversion R0 as [p token csrf expires row Rec Lg|r1 row F A Lg|]; subst.
    + unfold finish_login, setLoginCookies in R. destruct (over_http v) eqn:Ht; injection R as <- _ <-;
        exists token, expires, row; rewrite Ht; split_and!; try done. by rewrite app_nil_r.
    + destruct r0 as [[p token csrf expires|until]|err]; [done| |]; injection R as <- _ <-; split; try done; right; by exists row.
  - inversion R0; subst. injection R as <- _ <-. split; [done|]. by left.
Qed.

Lemma attempt_event_new v login action details : attempt_event action "" (failed_attempt v login action details).
Proof. by split. Qed.
Lemma attempt_event_in v login action details org :
  attempt_event action org ((failed_attempt v login action details) <| e_OrganizationID := org |>).
Proof. by split. Qed.

Lemma in_identity_keeps {A} (m : Database.M IdentityStore.Tables A) l :
  keeps (fun t => pf_audit t = l) (in_identity (X := X) (O := O) m).
Proof. by apply keeps_zoom. Qed.
Lemma in_identity_run {A} (m : Database.M IdentityStore.Tables A) e n t a n' t' :
  in_identity (X := X) (O := O) m e n t = (Ok a, n', t') -> exists i i', m e n i = (Ok a, n', i').
Proof. intros R. apply zoom_run in R as (o & R & _). apply zoom_run in R as (i & R & _). by eauto. Qed.

Lemma login_tx_done v login action details org (m : Database.M IdentityStore.Tables login_outcome) expected e n t r n' t' :
  (forall e n i o n' i', m e n i = (Ok o, n', i') -> of_organization org o) -> in_tx e = true ->
  recorded_login expected ((failed_attempt v login action details) <| e_OrganizationID := org |>) (in_identity m) e n t = (Ok r, n', t') ->
  login_done action t t' (Ok r).
Proof.
  intros G T. apply recorded_login_done with org; [by split|intros; apply in_identity_keeps| |done].
  intros e1 n1 t1 o n2 t2 R. apply in_identity_run in R as (i & i' & R). by eapply G.
Qed.

Lemma organization_id_reads organization : reads (organization_id organization).
Proof.
  apply keeps_reads. intros t e n t1 ->. unfold organization_id, in_identity, in_oversight, Oversight.in_identity, zoom, queryR, stmt.
  destruct (faults e n); cbn; [by destruct t as [[] ? ? ? ? ? ?]|]. destruct (select_row _ _); by destruct t as [[] ? ? ? ? ? ?].
Qed.

Lemma federated_tx_done v organization provider subject e n t r n' t' : in_tx e = true ->
  federated_tx v organization provider subject e n t = (Ok r, n', t') -> login_done "auth.federated.login" t t' (Ok r).
Proof.
  intros T R. unfold federated_tx in R. apply reads_split in R as [[_ K]|(org & n1 & _ & R)]; [done| |].
  - destruct org as [org|err].
    + eapply login_tx_done; [|done|exact R]. intros. by eapply LoginFederated_org.
    + run. match goal with W : write _ _ _ _ = _ |- _ => apply write_runs in W; [|done];
        destruct (failed_row _ _ _ _ _ _ (attempt_event_new _ _ _ _) W) as (row & A & Lg) end.
      by apply (ld_refused _ _ _ _ row).
  - apply keeps_reads. intros t0. apply keeps_attempt, reads_keeps, organization_id_reads.
Qed.

Lemma signs_federated v organization provider subject :
  signs v "auth.federated.login" (loginFederated v organization provider subject).
Proof. apply signs_tx. intros. by eapply federated_tx_done. Qed.

Lemma sign_in_signs v action m : sign_in v action m -> signs v action m.
Proof.
  intros [organization login password mfaCode recoveryCode|provider state code|provider organization login password].
  - unfold Login. apply signs_bind; [apply calm_allow|intros _].
    apply signs_bind; [apply calm_reads, organization_id_reads|]. intros [org|err].
    + apply signs_tx. intros e n t r n' t' T. apply login_tx_done; [|done]. intros. by eapply LoginWithMFA_org.
    + apply (signs_recorded_failure v "auth.login" ""). apply attempt_event_new.
  - unfold CompleteOIDCLogin. apply signs_bind; [apply calm_read_state|]. intros [[[c p] payload] data].
    apply signs_bind; [apply calm_consume|intros _]. unfold finish_callback.
    apply signs_bind; [apply calm_mapped, calm_code|intros f]. apply signs_bind; [apply calm_guard|intros _].
    apply signs_federated.
  - unfold LoginLDAP. destruct (is_federated s) as [[[c oidc] ldap]|]; [|apply signs_fail].
    destruct (ldap _) as [p|]; [|apply signs_fail]. apply signs_bind; [apply calm_allow|intros _].
    apply signs_bind; [apply calm_ldap|]. intros f. destruct (match f with Ok f0 => _ | Err _ => None end) as [subject|]; [apply signs_federated|].
    apply (signs_recorded_failure v "auth.federated.login" "" _ internalError). apply attempt_event_new.
Qed.

(** Nobody signs in without a trace: a login with a password, over OpenID
    Connect or over LDAP that succeeds has added one row to the audit log, which
    names the user and his organization, and only then sets the two cookies of
    the session; one that fails sets no cookie, and every change it leaves in
    the database (a counted failure, a lock) comes with the row of the failed
    attempt. *)
Theorem sign_ins_are_audited v action m e n x r n' x' :
  sign_in v action m -> in_tx e = false -> m e n x = (r, n', x') ->
  match r with
  | Ok (p, csrf) => exists token expires row, recorded p action "SUCCESS" row /\ logs x' = (logs x ++ [row])%list /\
      ex_reply x' = (ex_reply x ++ (if over_http v then login_cookies token csrf expires else []))%list
  | Err _ => cookies x' = cookies x /\
      (ex_tables x' = ex_tables x \/ exists row, attempt_failed action row /\ logs x' = (logs x ++ [row])%list)
  end.
Proof. intros Si T R. exact (sign_in_signs v action m Si e n x r n' x' T R). Qed.
End service.

(** ** The states of logins over OpenID Connect *)

Section oidc_states.
Context {X O : Type} `{UnicodeTables} `{Argon2} `{TOTP} `{KratosErrors} `{KratosReplies} `{KratosStatuses}.
Context (service : Service) (crypt : option Provider).
Context (column_time : Time -> Time) (forwarder : option (Forwarder (X := X))).
Context (prefix : string) (oidc : string -> option OIDCProvider) (ldap : string -> option LDAPProvider).
Notation W := (Database.M (Exchange X O data)).
Notation E := (Exchange X O data).

(** A service whose limiter and federated logins share the cache in memory, as
    [bootstrap] wires them. *)
Context (audit db secure : bool) (sameSite : SameSite).
Definition wired : IdentityService data :=
  mkIdentityService data audit db (Some (Some (memory prefix))) secure sameSite (Some (Some (memory prefix), oidc, ldap)).

(** What the cache holds for the state. *)
Definition held_state (state : string) (x : E) : option item := lm_cache (ex_limits x) !! full prefix (state_key state).

(** Turns of handlers that may run at the same time: each touches the cache
    under its mutex once per turn.  With what a turn that consumes the state
    says of it. *)
Inductive turn (state : string) : E -> option bool -> E -> Prop :=
| tn_begin v provider organization e n x r n' x' : (forall k, EncodeToString (random_bytes e k 32) <> state) ->
    BeginOIDCLogin wired v provider organization e n x = (r, n', x') -> turn state x None x'
| tn_read v provider other code e n x r n' x' :
    read_state (X := X) (O := O) wired v provider other code e n x = (r, n', x') -> turn state x None x'
| tn_consume other payload e n x r n' x' :
    consume_state (X := X) (O := O) (memory prefix) other payload e n x = (r, n', x') ->
    turn state x (if TrimSpace other =s state then Some (is_ok r) else None) x'
| tn_finish v p name code st e n x r n' x' :
    finish_callback service column_time forwarder wired v p name code st e n x = (r, n', x') -> turn state x None x'
| tn_login v organization login password mfaCode recoveryCode e n x r n' x' :
    Login service crypt column_time forwarder wired v organization login password mfaCode recoveryCode e n x = (r, n', x') ->
    turn state x None x'
| tn_ldap v provider organization login password e n x r n' x' :
    LoginLDAP service column_time forwarder wired v provider organization login password e n x = (r, n', x') ->
    turn state x None x'
| tn_other x x' : held_state state x' = held_state state x -> turn state x None x'.

(** What the turns that consumed the state were told, in their order. *)
Inductive turns (state : string) : E -> list bool -> E -> Prop :=
| ts_done x : turns state x [] x
| ts_more x o x1 os x' : turn state x o x1 -> turns state x1 os x' -> turns state x (option_list o ++ os) x'.

Lemma told state other payload e n x r n' x' o : (if TrimSpace other =s state then Some (is_ok r) else None) = o ->
  consume_state (X := X) (O := O) (memory prefix) other payload e n x = (r, n', x') -> turn state x o x'.
Proof. intros <-. apply tn_consume. Qed.

Section one_state.
Variables (state : string) (h : option item).
Notation I := (fun x : E => held_state state x = h).

Lemma keeps_poke {T} (J : T -> Prop) f : (forall t, J t -> J (f t)) -> keeps J (poke f).
Proof. intros K e n t Jt. by apply K. Qed.
Lemma keeps_peek {T A} (J : T -> Prop) (f : T -> A) : keeps J (peek f).
Proof. by intros e n t Jt. Qed.
Lemma keeps_mapped {S A} (J : S -> Prop) f (m : Database.M S A) : keeps J m -> keeps J (mapped f m).
Proof.
  intros K e n t Jt. specialize (K e n t Jt). unfold mapped. by destruct (m e n t) as [[[a|err] k] t'].
Qed.

Lemma keeps_tables {A} (m : Database.M (Platform.Tables X O) A) : keeps I (in_tables m).
Proof. intros e n x Ix. unfold in_tables, zoom. by destruct (m e n (ex_tables x)) as [[r k] t]. Qed.
Lemma keeps_reply f : keeps I (reply f).
Proof. by apply keeps_poke. Qed.

Lemma keeps_insert k m v : k <> full prefix (state_key state) ->
  m !! full prefix (state_key state) = h -> <[k := v]> (m : data) !! full prefix (state_key state) = h.
Proof. intros Ne. by rewrite lookup_insert_ne. Qed.

Lemma rate_key_ne key : full prefix ("ratelimit:" +:+ key) <> full prefix (state_key state).
Proof. unfold full. intros E0. apply append_inv_head in E0. discriminate. Qed.

Lemma keeps_limits a : keeps I (in_limits (SharedState.allow (Some (memory prefix)) a)).
Proof.
  intros e n x Ix. unfold in_limits, zoom.
  assert (K : keeps (fun l => lm_cache l !! full prefix (state_key state) = h) (SharedState.allow (Some (memory prefix)) a)).
  { unfold SharedState.allow, Allow, count_in_cache, count_locally. cbn [cache_Provider memory cache_Increment].
    assert (Inc : keeps (fun l => lm_cache l !! full prefix (state_key state) = h)
      (zoom lm_cache (fun t l => mkLimits t (lm_local l)) (memory_Increment prefix ("ratelimit:" +:+ at_key a) (at_window a)))).
    { intros e1 n1 l Il. unfold zoom.
      assert (K : keeps (fun m : data => m !! full prefix (state_key state) = h)
                    (memory_Increment prefix ("ratelimit:" +:+ at_key a) (at_window a))).
      { unfold memory_Increment, expired, expiry. keeps_walk; first [apply keeps_peek|apply keeps_poke; intros m Im].
        apply keeps_insert; [apply rate_key_ne|done]. }
      specialize (K e1 n1 (lm_cache l) Il). by destruct (memory_Increment _ _ _ e1 n1 (lm_cache l)) as [[r k] m]. }
    keeps_walk; first [apply keeps_peek | by apply keeps_poke]. }
  specialize (K e n (ex_limits x) Ix). by destruct (SharedState.allow _ _ e n (ex_limits x)) as [[r k] l].
Qed.

Lemma keeps_allow v key limit window retryAfter : keeps I (allow wired v key limit window retryAfter).
Proof. unfold allow. cbn [is_limiter wired]. keeps_walk; first [apply keeps_limits|apply keeps_reply]. Qed.
#[local] Hint Resolve keeps_allow keeps_tables keeps_reply : forge.

Lemma keeps_setup provider : keeps I (oidc_setup (C := data) wired provider).
Proof. unfold oidc_setup. cbn. destruct (oidc _); auto with forge. Qed.

Lemma keeps_cache {A} (m : Database.M data A) :
  keeps (fun t : data => t !! full prefix (state_key state) = h) m -> keeps I (in_cache m).
Proof.
  intros K e n x Ix. specialize (K e n (lm_cache (ex_limits x)) Ix). unfold in_cache, in_limits, zoom.
  by destruct (m e n (lm_cache (ex_limits x))) as [[r k] t].
Qed.

Lemma keeps_finish_login v f r : keeps I (finish_login wired v f r).
Proof. unfold finish_login, setLoginCookies. keeps_walk. Qed.
#[local] Hint Resolve keeps_setup keeps_finish_login : forge.

Lemma keeps_federated v organization provider subject :
  keeps I (loginFederated service column_time forwarder wired v organization provider subject).
Proof. unfold loginFederated. keeps_walk. by apply keeps_mapped, keeps_tables. Qed.
#[local] Hint Resolve keeps_federated : forge.

Lemma keeps_code p code nonce : keeps I (AuthenticateCode p code nonce).
Proof. unfold AuthenticateCode. keeps_walk. Qed.

Lemma keeps_finish v p name code st : keeps I (finish_callback service column_time forwarder wired v p name code st).
Proof. unfold finish_callback. keeps_walk. apply keeps_mapped, keeps_code. Qed.

Lemma keeps_login v organization login password mfaCode recoveryCode :
  keeps I (Login service crypt column_time forwarder wired v organization login password mfaCode recoveryCode).
Proof. unfold Login. keeps_walk; apply keeps_mapped, keeps_tables. Qed.

Lemma keeps_ldap v provider organization login password :
  keeps I (LoginLDAP service column_time forwarder wired v provider organization login password).
Proof. unfold LoginLDAP. cbn [is_federated wired]. unfold Authenticate. keeps_walk. Qed.

Lemma memory_get_reads k : reads (memory_Get prefix k).
Proof. apply keeps_reads. intros t. unfold memory_Get, expired. keeps_walk. Qed.

(** The cache of the logins is the one in memory. *)
Lemma keeps_after_setup {A} provider (f : Cache data * OIDCProvider -> W A) J :
  (forall p, keeps J (f (memory prefix, p))) -> keeps J (oidc_setup wired provider ≫= f).
Proof.
  intros K e n x Jx. unfold oidc_setup. cbn [is_federated wired].
  destruct (oidc (normalizeProviderName provider)) as [p|]; [by apply K|done].
Qed.

Lemma keeps_read v provider other code : keeps I (read_state wired v provider other code).
Proof.
  unfold read_state. apply keeps_after_setup. intros p. keeps_walk.
  apply keeps_mapped, keeps_cache, reads_keeps, memory_get_reads.
Qed.

(** A fresh state is another one. *)
Lemma keeps_bind_at (J : E -> Prop) e {A B} (m : W A) (f : A -> W B) : keeps J m ->
  (forall n x a n' x', m e n x = (Ok a, n', x') -> forall n x, J x -> J (f a e n x).2) ->
  forall n x, J x -> J ((m ≫= f) e n x).2.
Proof.
  intros K F n x Jx. unfold mbind, M_bind. specialize (K e n x Jx).
  destruct (m e n x) as [[[a|err] k] y] eqn:R; [by eapply F|done].
Qed.

Lemma random_state as_reply e n x a n' x' : mapped (S := E) as_reply randomFederatedValue e n x = (Ok a, n', x') ->
  exists k, a = EncodeToString (random_bytes e k 32).
Proof.
  intros R. unfold mapped, randomFederatedValue, rand_Read, mbind, M_bind in R. destruct (faults e n); [done|].
  injection R as <- _ _. by exists n.
Qed.

Lemma begin_keeps v provider organization e : (forall k, EncodeToString (random_bytes e k 32) <> state) ->
  forall n x, held_state state x = h -> held_state state (BeginOIDCLogin wired v provider organization e n x).2 = h.
Proof.
  intros Fresh n x Ix. unfold BeginOIDCLogin, oidc_setup. cbn [is_federated wired].
  destruct (oidc (normalizeProviderName provider)) as [p|]; [|done].
  assert (Rand : keeps I (mapped (fun _ => federatedUnavailable) randomFederatedValue)) by
    (apply keeps_mapped; unfold randomFederatedValue; keeps_walk).
  unfold mbind at 1, M_bind at 1.
  apply (keeps_bind_at I); [apply keeps_allow|intros _ _ _ _ _ _|done].
  apply (keeps_bind_at I); [exact Rand|]. intros n1 x1 fresh n2 x2 R.
  apply random_state in R as (k & ->).
  apply (keeps_bind_at I); [exact Rand|]. intros _ _ nonce _ _ _.
  apply (keeps_bind_at I); [|by intros _ _ _ _ _ _].
  apply keeps_mapped, keeps_cache. cbn [cache_Set memory]. unfold memory_Set, expiry. keeps_walk. apply keeps_poke.
  intros m Im. apply keeps_insert; [|done]. unfold full, state_key. intros E0. by repeat apply append_inv_head in E0; apply (Fresh k).
Qed.
End one_state.

(** A comparison that succeeds found the key, and deleted it. *)
Lemma compare_and_delete k wanted e n m r n' m' : memory_CompareAndDelete prefix k wanted e n m = (r, n', m') ->
  (m' = m \/ m' = delete (full prefix k) m) /\
  (r = Ok true -> m !! full prefix k <> None /\ m' = delete (full prefix k) m).
Proof.
  intros R. unfold memory_CompareAndDelete, peek, mbind, M_bind, mret, M_ret, poke in R.
  destruct (m !! full prefix k) as [v|].
  - unfold expired in R. destruct (IsZero (it_expires v)); [|unfold mbind, M_bind, now, mret, M_ret in R; destruct (After _ _)].
    + cbn in R. destruct (_ <>s _); injection R as <- _ <-; split; auto; done.
    + injection R as <- _ <-. split; [by right|done].
    + cbn in R. destruct (_ <>s _); injection R as <- _ <-; split; auto; done.
  - injection R as <- _ <-. split; [by right|done].
Qed.

Lemma state_key_eq a b : full prefix (state_key a) = full prefix (state_key b) -> a = b.
Proof. unfold full, state_key. intros E0. by do 2 apply append_inv_head in E0. Qed.

Lemma consume_cases state other payload e n x r n' x' :
  consume_state (X := X) (O := O) (memory prefix) other payload e n x = (r, n', x') ->
  (held_state state x = None -> held_state state x' = None) /\
  (TrimSpace other = state -> is_ok r = true -> held_state state x <> None /\ held_state state x' = None).
Proof.
  intros R. unfold consume_state, attempt, in_cache, in_limits, zoom in R. cbn [cache_CompareAndDelete memory] in R.
  unfold mbind at 1, M_bind at 1 in R.
  destruct (memory_CompareAndDelete prefix (state_key (TrimSpace other)) payload e n (lm_cache (ex_limits x)))
    as [[r0 k] m] eqn:R0.
  apply compare_and_delete in R0 as [D C].
  assert (x' = x <| ex_limits := mkLimits m (lm_local (ex_limits x)) |> /\ (is_ok r = true -> r0 = Ok true)) as [-> T]
    by (destruct r0 as [[|]|err]; injection R as <- _ <-; done).
  unfold held_state. cbn. split.
  - intros Hx. destruct D as [->| ->]; [done|]. by rewrite lookup_delete_None; right.
  - intros <- Ok_. destruct (C (T Ok_)) as [C1 ->]. split; [done|]. apply lookup_delete_eq.
Qed.

Lemma turn_gone state x o x' : turn state x o x' ->
  (held_state state x = None -> held_state state x' = None /\ o <> Some true) /\
  (o = Some true -> held_state state x' = None).
Proof.
  assert (K : forall A (m : W A) e n r n' y y', keeps (fun z => held_state state z = held_state state y) m ->
    m e n y = (r, n', y') -> held_state state y' = held_state state y).
  { intros A m e n r n' y y' K R. specialize (K e n y eq_refl). by rewrite R in K. }
  intros [v provider organization e n x1 r n' x2 Fresh R|v provider other code e n x1 r n' x2 R|other payload e n x1 r n' x2 R
    |v p name code st e n x1 r n' x2 R|v organization login password mfaCode recoveryCode e n x1 r n' x2 R
    |v provider organization login password e n x1 r n' x2 R|x1 x2 R].
  3: { apply (consume_cases state) in R as [G1 G2]. destruct (String.eqb_spec (TrimSpace other) state) as [Eq|Ne].
       - specialize (G2 Eq). split; [intros G; split; [auto|]|]; intros [= Ok_]; by apply G2 in Ok_ as [? ?].
       - split; [|done]. intros G. by split; [apply G1|]. }
  all: assert (Same : held_state state x2 = held_state state x1).
  1: { pose proof (begin_keeps state (held_state state x1) v provider organization e Fresh n x1 eq_refl) as B. by rewrite R in B. }
  all: try (by split; [rewrite Same|]).
  - by eapply K; [apply keeps_read|].
  - by eapply K; [apply keeps_finish|].
  - by eapply K; [apply keeps_login|].
  - by eapply K; [apply keeps_ldap|].
  - exact R.
Qed.

Lemma turns_gone state x os x' : turns state x os x' -> held_state state x = None -> Forall (fun o => o = false) os.
Proof.
  induction 1 as [x|x o x1 os x' T _ IH]; intros G; [constructor|]. apply turn_gone in T as [T _]. destruct (T G) as [G1 Ne].
  apply Forall_app_2; [|by apply IH]. destruct o as [[|]|]; cbn; [done|by constructor|constructor].
Qed.

Lemma turns_once state x os x' : turns state x os x' -> llen (List.filter id os) <= 1.
Proof.
  induction 1 as [x|x o x1 os x' T Ts IH]; [done|]. apply turn_gone in T as [_ T].
  destruct o as [[|]|]; cbn; [|exact IH..]. apply turns_gone in Ts; [|by apply T].
  enough (List.filter id os = []) as -> by done.
  clear -Ts. induction Ts as [|? ? -> ? IH]; [done|exact IH].
Qed.

Lemma finished_callback v provider state code e n x a n' x' :
  CompleteOIDCLogin service column_time forwarder wired v provider state code e n x = (Ok a, n', x') ->
  turns (TrimSpace state) x [true] x'.
Proof.
  intros R. unfold CompleteOIDCLogin in R. apply bind_ok in R as ([[[c p] payload] d] & n1 & x1 & R1 & R).
  apply bind_ok in R as ([] & n2 & x2 & R2 & R).
  assert (c = memory prefix) as ->.
  { unfold read_state, oidc_setup in R1. cbn [is_federated wired] in R1.
    destruct (oidc (normalizeProviderName provider)) as [q|]; [|done].
    apply bind_ok in R1 as (cp & k & y & S0 & R1). injection S0 as <- <- <-. run_cases.
    by match goal with P : (_, _, _, _) = _ |- _ => injection P end. }
  change [true] with (option_list (A := bool) None ++ (option_list (Some true) ++ (option_list None ++ [])))%list.
  eapply ts_more; [by eapply tn_read|]. eapply ts_more; [|eapply ts_more; [by eapply tn_finish|apply ts_done]].
  pose proof (tn_consume (TrimSpace state) state payload e n1 x1 _ n2 x2 R2) as T. by rewrite String.eqb_refl in T.
Qed.

(** A login over OpenID Connect consumes its state, and a state is consumed
    once: however the handlers take turns at the cache, if no new login draws
    the same 32 random bytes, at most one of the callbacks with the state is
    told to go on; and every callback that signs somebody in is a sequence of
    such turns in which it was told so. *)
Theorem oidc_states_are_used_once state x os x' : turns state x os x' ->
  llen (List.filter id os) <= 1 /\
  forall v provider given code e n y a n' y', TrimSpace given = state ->
    CompleteOIDCLogin service column_time forwarder wired v provider given code e n y = (Ok a, n', y') ->
    turns state y [true] y'.
Proof.
  intros T. split; [by eapply turns_once|]. intros v provider given code e n y a n' y' <-. apply finished_callback.
Qed.
End oidc_states.

(** ** Examples *)

Module examples.
Definition statuses : KratosStatuses :=
  {| New_ := fun code reason message => Errorf reason [FStr message];
     ServiceUnavailable := fun reason message => Errorf reason [FStr message] |}.
#[export] Existing Instances RequestGate.examples.kratos Composition.examples.kratos_replies statuses Roles.examples.unicode
  sample_argon2 Accounts.examples.totp.

(** Bob has a password and an identity of the provider [corp]. *)
Definition tables : Platform.Tables unit unit :=
  Composition.examples.start <| pf_oversight := Oversight.mkTables
    (put_externals [mkExternal "x1" "o" "corp" "bob@corp" "bob" "adm" "a1" 1 None] Accounts.sessions_example.tables) [] [] [] |>.
Definition start : Exchange unit unit data := mkExchange tables (mkLimits ∅ ∅) [].

(** The provider knows one code. *)
Definition corp (nonce : string) : OIDCProvider :=
  mkOIDC "corp" (fun state nonce => state +:+ "&" +:+ nonce) (fun code => if code =s "code-1" then Some (Some "token") else None)
    (fun _ => Some (mkClaims "bob@corp" "" "" "bob" [] nonce)).
Definition env (now_ : Time) : Env :=
  mkEnv (fun n => now_ + Z.of_nat n) (fun n => "i" +:+ Itoa (now_ + Z.of_nat n)) (fun _ => None)
    (fun n i => ascii_of_nat (n + i)) false.

Definition nonce : string := EncodeToString (random_bytes (env 1000) 3 32).
Definition providers (name : string) : option OIDCProvider := if name =s "corp" then Some (corp nonce) else None.
Definition service : IdentityService data := wired "forge:" providers (fun _ => None) true true true SameSiteLaxMode.
Definition browser : Visit :=
  mkVisit (mkCall (RequestGate.mkCtx (Some (mkTransport "login" (fun _ => ""))) None) (Some "10.0.0.1")) true.

Notation after m x n := ((m : Database.M (Exchange unit unit data) _) (env n) O x).

Definition login (password : string) : Database.M (Exchange unit unit data) (Principal * string) :=
  Login Roles.examples.service None Composition.examples.col Composition.examples.noForwarder service browser
    " main" "bob" password "" "".
Definition signed_in_ := after (login "Current-Pass-1") start 1000.

(** Bob begins a login; two callbacks with its state read it before either
    consumes it. *)
Definition begun := after (BeginOIDCLogin service browser " Corp" "main") start 1000.
Definition state : string := EncodeToString (random_bytes (env 1000) 2 32).
Definition payload : string := state_payload "corp" "main" nonce.
Definition read_one := after (read_state service browser "corp" state "code-1") begun.2 2000.
Definition read_two := after (read_state service browser "corp" state "code-1") read_one.2 3000.
Definition first_ := after (consume_state (X := unit) (O := unit) (memory "forge:") state payload) read_two.2 4000.
Definition second_ := after (consume_state (X := unit) (O := unit) (memory "forge:") state payload) first_.2 5000.
Definition callback := after (CompleteOIDCLogin Roles.examples.service Composition.examples.col
  Composition.examples.noForwarder service browser "corp" state "code-1") begun.2 2000.

Lemma runs {A} (m : Database.M (Exchange unit unit data) A) x at_ : exists n',
  m (env at_) 0%nat x = ((after m x at_).1.1, n', (after m x at_).2).
Proof. destruct (m (env at_) 0%nat x) as [[r n'] x']. by exists n'. Qed.

Lemma signed_in_run : exists n' p csrf, login "Current-Pass-1" (env 1000) 0%nat start = (Ok (p, csrf), n', signed_in_.2) /\
  p_UserID p = "bob".
Proof.
  destruct (runs (login "Current-Pass-1") start 1000) as (n' & R). fold signed_in_ in R.
  destruct signed_in_.1.1 as [[p csrf]|err] eqn:Q; [|vm_compute in Q; discriminate Q].
  exists n', p, csrf. split; [exact R|]. vm_compute in Q. by injection Q as <- _.
Qed.

Lemma raced : turns Roles.examples.service None Composition.examples.col Composition.examples.noForwarder "forge:" providers
  (fun _ => None) true true true SameSiteLaxMode state begun.2 [true; false] second_.2.
Proof.
  change [true; false] with (option_list (A := bool) None ++ (option_list None ++ (option_list (Some true) ++ (option_list (Some false) ++ []))))%list.
  eapply ts_more with (x1 := read_one.2); [|eapply ts_more with (x1 := read_two.2); [|eapply ts_more with (x1 := first_.2); [|eapply ts_more; [|apply ts_done]]]].
  - destruct (runs (read_state service browser "corp" state "code-1") begun.2 2000) as (n' & R). by eapply tn_read.
  - destruct (runs (read_state service browser "corp" state "code-1") read_one.2 3000) as (n' & R). by eapply tn_read.
  - destruct (runs (consume_state (X := unit) (O := unit) (memory "forge:") state payload) read_two.2 4000) as (n' & R).
    assert (D : (if TrimSpace state =s state then Some (is_ok first_.1.1) else None) = Some true) by (vm_compute; reflexivity).
    eapply told with (other := state) (r := first_.1.1); [exact D|exact R].
  - destruct (runs (consume_state (X := unit) (O := unit) (memory "forge:") state payload) first_.2 5000) as (n' & R).
    assert (D : (if TrimSpace state =s state then Some (is_ok second_.1.1) else None) = Some false) by (vm_compute; reflexivity).
    eapply told with (other := state) (r := second_.1.1); [exact D|exact R].
Qed.
End examples.
#[local] Existing Instances RequestGate.examples.kratos Composition.examples.kratos_replies examples.statuses
  Roles.examples.unicode sample_argon2 Accounts.examples.totp.

Lemma sign_ins_are_audited_witness : exists token expires,
  ex_reply examples.signed_in_.2 = login_cookies examples.service token
    "1112131415161718191a1b1c1d1e1f202122232425262728" expires.
Proof.
  destruct examples.signed_in_run as (n' & p & csrf & R & _).
  assert (C : csrf = "1112131415161718191a1b1c1d1e1f202122232425262728").
  { assert (Q : examples.signed_in_.1.1 = Ok (p, csrf)) by (unfold examples.signed_in_, examples.login in *; by rewrite R).
    vm_compute in Q. by injection Q as _ <-. }
  assert (Si : sign_in Roles.examples.service None Composition.examples.col Composition.examples.noForwarder examples.service
    examples.browser "auth.login" (examples.login "Current-Pass-1")) by (unfold examples.login; apply si_Login).
  destruct (sign_ins_are_audited _ _ _ _ _ _ _ _ (examples.env 1000) _ _ _ _ _ Si eq_refl R)
    as (token & expires & row & _ & _ & Rep).
  exists token, expires. rewrite <- C. exact Rep.
Defined.

Lemma oidc_states_are_used_once_witness : llen (List.filter id [true; false]) <= 1 /\ is_ok examples.callback.1.1 = true.
Proof.
  split; [|vm_compute; reflexivity].
  exact (proj1 (oidc_states_are_used_once _ _ _ _ _ _ _ _ _ _ _ _ _ _ _ examples.raced)).
Defined.
