(* ===== verification/Visits.v ===== *)
(** * Visits

    What the handlers of [SelfService] do to the platform: a visit changes
    accounts and never roles, with the event that says so, so that a history of
    the platform goes on with it. *)

From S2P Require Import Prelude GoString GoTime Json Database Keyring Identity GrantPolicy SecurityPolicy Directory IdentityStore.
From S2P Require Import Password Roles Accounts Oversight AuditLog DataPolicy RequestGate SharedState Platform Composition SelfService.

(** ** What happens to an account leaves the roles alone *)

Section accounts.
Context `{UnicodeTables} `{Argon2} `{TOTP} (service : Service) (crypt : option Provider) (t0 : IdentityStore.Tables).
Notation same := (same_roles t0).

Lemma same_settings org : keeps same (IdentityStore.in_settings (resolveSecurityPolicy service org)).
Proof. apply reads_keeps, in_settings_reads, reads_resolve. Qed.
Lemma same_active org : keeps same (enforceOrganizationActive org).
Proof. apply reads_keeps, reads_organization_active. Qed.
Lemma same_encrypt c p aad : keeps same (@prov_Encrypt c IdentityStore.Tables p aad).
Proof. apply reads_keeps, prov_Encrypt_reads. Qed.
Lemma same_generate issuer account : keeps same (Generate issuer account).
Proof. by intros e n t S. Qed.
#[local] Hint Resolve same_settings same_active same_encrypt same_generate keeps_change_users keeps_affected_users
  keeps_sessions keeps_history keeps_UserByID same_roles_refl : forge.

(** Statements on the tables that the roles are not in. *)
Ltac aside :=
  first [ apply keeps_exec; intros ? []; by split
        | apply keeps_change_users; intros ?; by repeat case_match
        | by apply keeps_affected_users
        | apply keeps_stmt; intros ? ? ? [] [= _ <-]; by split
        | let E := fresh in apply keeps_stmt; intros ? ? ? [] E;
          unfold insert_session, insert_factor, insert_code, insert_token in E; guards E; injection E as _ <-; by split ].

Lemma same_failure user max lock : keeps same (RecordLoginFailure user max lock).
Proof. unfold RecordLoginFailure. keeps_walk; aside. Qed.
Lemma same_reset user : keeps same (ResetLoginFailure user).
Proof. unfold ResetLoginFailure. keeps_walk; aside. Qed.
Lemma same_create_session user hash expires ip ua level mfa : keeps same (CreateSession user hash expires ip ua level mfa).
Proof. unfold CreateSession. keeps_walk; aside. Qed.
Lemma same_drop_session id : keeps same (DeleteSessionByID id).
Proof. unfold DeleteSessionByID. aside. Qed.
#[local] Hint Resolve same_failure same_reset same_create_session same_drop_session : forge.
Lemma same_max_sessions user max : keeps same (enforceMaxConcurrentSessions user max).
Proof. unfold enforceMaxConcurrentSessions, ListUserSessionIDs. keeps_walk. Qed.
Lemma same_or_drop {A} (m : Database.M IdentityStore.Tables A) session : keeps same m -> keeps same (or_drop_session m session).
Proof. intros K. unfold or_drop_session. keeps_walk. Qed.
Lemma same_must must at_ age : keeps same (must_change must at_ age).
Proof. unfold must_change, passwordExpiredAt. keeps_walk. Qed.
Lemma same_factor factor code recovery : keeps same (verifyMFAFactor crypt factor code recovery).
Proof. unfold verifyMFAFactor, check_code, check_recovery, ConsumeMFARecoveryCode. keeps_walk; aside. Qed.
#[local] Hint Resolve same_max_sessions same_must same_factor : forge.

Lemma LoginWithMFA_same org login raw code recovery ip ua :
  keeps same (LoginWithMFA service crypt org login raw code recovery ip ua).
Proof.
  unfold LoginWithMFA, UserByLogin, with_roles, login_as, RolesForUser, PermissionsForUser, OrganizationByID, still_locked,
    check_credentials, verifyLoginMFA, ActiveMFAFactor, mfaFactor, open_session, randomToken.
  keeps_walk; by apply same_or_drop, same_max_sessions.
Qed.

Lemma LoginFederated_same org provider subject ip ua : keeps same (LoginFederated service org provider subject ip ua).
Proof.
  unfold LoginFederated, FederatedIdentityByProviderSubject, OrganizationByID, randomToken, TouchFederatedIdentityAuthentication.
  keeps_walk; first [apply same_or_drop; auto with forge; aside | aside].
Qed.

(** What users do to their own account. *)
Lemma BeginMFAEnrollment_same actor password : keeps same (Accounts.BeginMFAEnrollment crypt actor password).
Proof. unfold Accounts.BeginMFAEnrollment, PasswordHashByID, SavePendingMFAFactor. keeps_walk; aside. Qed.
Lemma ConfirmMFAEnrollment_same actor code : keeps same (Accounts.ConfirmMFAEnrollment crypt actor code).
Proof.
  unfold Accounts.ConfirmMFAEnrollment, PendingMFAFactor, mfaFactor, ActivateMFAFactor.
  assert (Tokens : keeps same (mapMM (fun _ => randomToken 12) (seq 0 10))).
  { generalize (seq 0 10). intros l. unfold randomToken. induction l; cbn; keeps_walk. }
  keeps_walk; aside.
Qed.
Lemma DisableMFA_same actor password code recovery : keeps same (Accounts.DisableMFA crypt actor password code recovery).
Proof.
  unfold Accounts.DisableMFA, PasswordHashByID, ActiveMFAFactor, mfaFactor, DeleteMFAAndOtherSessions. keeps_walk; aside.
Qed.
Lemma Logout_same token : keeps same (Accounts.Logout token).
Proof. unfold Accounts.Logout, DeleteSessionByHash. keeps_walk. Qed.
Lemma ChangePassword_same actor current next : keeps same (Accounts.ChangePassword service actor current next).
Proof.
  unfold Accounts.ChangePassword, PasswordHashByID, check_reuse, PasswordHistory, Hash, UpdatePasswordAndRevokeOtherSessions.
  keeps_walk; aside.
Qed.
Lemma StepUp_same actor password code recovery : keeps same (Accounts.StepUpAuthentication crypt actor password code recovery).
Proof.
  unfold Accounts.StepUpAuthentication, PasswordHashByID, ActiveMFAFactor, mfaFactor, MarkSessionMFAVerified. keeps_walk; aside.
Qed.
Lemma CreateAPIToken_same actor name scopes ttl : keeps same (CreateAPIToken service actor name scopes ttl).
Proof. unfold CreateAPIToken, randomToken, repo_CreateAPIToken. keeps_walk; aside. Qed.
Lemma RevokeAPIToken_same actor token : keeps same (RevokeAPIToken actor token).
Proof. unfold RevokeAPIToken, repo_RevokeAPIToken. keeps_walk; aside. Qed.
End accounts.

(** ** Visits *)

Section visits.
Context {X O C : Type} `{UnicodeTables} `{Argon2} `{TOTP} `{KratosErrors} `{KratosReplies} `{KratosStatuses}.
Context (service : Service) (crypt : option Provider).
Context (column_time : Time -> Time) (forwarder : option (Forwarder (X := X))).
Context (s : IdentityService C).
Notation W := (Database.M (Exchange X O C)).
Notation TM := (Database.M (Platform.Tables X O)).

(** What users do to their own account. *)
Inductive own (v : Visit) : string -> forall A, W A -> Prop :=
| own_BeginMFAEnrollment password :
    own v "auth.mfa.enrollment.begin" _ (BeginMFAEnrollment crypt column_time forwarder s v password)
| own_ConfirmMFAEnrollment code :
    own v "auth.mfa.enrollment.confirm" _ (ConfirmMFAEnrollment crypt column_time forwarder s v code)
| own_DisableMFA password code recoveryCode :
    own v "auth.mfa.disable" _ (DisableMFA crypt column_time forwarder s v password code recoveryCode)
| own_Logout : own v "auth.logout" _ (Logout column_time forwarder s v)
| own_ChangePassword current next :
    own v "auth.password.change" _ (ChangePassword service column_time forwarder s v current next)
| own_StepUpAuthentication password code recoveryCode :
    own v "auth.step_up" _ (StepUpAuthentication crypt column_time forwarder s v password code recoveryCode)
| own_CreateApiToken name scopes days :
    own v "security.api_token.create" _ (CreateApiToken service column_time forwarder s v name scopes days)
| own_RevokeApiToken token : own v "security.api_token.revoke" _ (RevokeApiToken column_time forwarder s v token).

Inductive visit (v : Visit) : forall A, W A -> Prop :=
| visit_own action A m : own v action A m -> visit v A m
| visit_sign_in action m : sign_in service crypt column_time forwarder s v action m -> visit v _ m.

(** *** What a visit does to the tables *)

(** A change of accounts, then an event; or nothing. *)
Inductive visited (e : Env) (t t' : Platform.Tables X O) : Prop :=
| vs_changed i event : same_roles (identity_of t) i -> e_OrganizationID event <> "global" ->
    wrote column_time forwarder e event (t <| pf_oversight := (pf_oversight t) <| ov_identity := i |> |>) t' -> visited e t t'
| vs_unchanged : t' = t -> visited e t t'.

Lemma set_identity_same (t : Platform.Tables X O) : t <| pf_oversight := (pf_oversight t) <| ov_identity := identity_of t |> |> = t.
Proof. by destruct t as [[]]. Qed.

Lemma vs_written e event t t' : e_OrganizationID event <> "global" ->
  wrote column_time forwarder e event t t' -> visited e t t'.
Proof.
  intros G Wr. apply (vs_changed e t t' (identity_of t) event); [apply same_roles_refl|done|].
  by rewrite set_identity_same.
Qed.

Lemma identity_runs {A} (m : Database.M IdentityStore.Tables A) e n t r n' t' :
  (forall t0, keeps (same_roles t0) m) -> in_identity (X := X) (O := O) m e n t = (r, n', t') ->
  exists i, same_roles (identity_of t) i /\ t' = t <| pf_oversight := (pf_oversight t) <| ov_identity := i |> |>.
Proof.
  intros K R. apply zoom_run in R as (o & R & ->). apply zoom_run in R as (i & R & ->). exists i. split; [|done].
  specialize (K (identity_of t) e n (identity_of t) (same_roles_refl _)). unfold identity_of in *. by rewrite R in K.
Qed.

(** An operation on accounts and its event, in one transaction. *)
Lemma account_event {A B} (op : TM A) (m : A -> TM B) e n t b n' t' :
  (forall a e n t n' t', in_tx e = true -> m a e n t = (Ok b, n', t') ->
     exists event, e_OrganizationID event <> "global" /\ wrote column_time forwarder e event t t') ->
  (forall a n t n' t', op e n t = (Ok a, n', t') ->
     exists i, same_roles (identity_of t) i /\ t' = t <| pf_oversight := (pf_oversight t) <| ov_identity := i |> |>) ->
  in_tx e = true -> (op ≫= m) e n t = (Ok b, n', t') -> visited e t t'.
Proof.
  intros M Op T R. apply bind_ok in R as (a & n1 & t1 & R1 & R2). apply Op in R1 as (i & Si & ->).
  apply M in R2 as (event & G & Wr); [|done]. by apply (vs_changed e t t' i event).
Qed.

Lemma wrote_outside e event t t' : wrote (X := X) (O := O) column_time forwarder (e <| in_tx := true |>) event t t' ->
  wrote column_time forwarder e event t t'.
Proof. intros [E (k & m & R)]. split; [done|]. exists k, m. exact R. Qed.

Lemma visited_outside e t t' : visited (e <| in_tx := true |>) t t' -> visited e t t'.
Proof.
  intros [i event Si G Wr| ->]; [|by apply vs_unchanged]. apply (vs_changed e t t' i event); [done..|by apply wrote_outside].
Qed.

Lemma refines_visited t0 T T' e t t' : refines service column_time t0 T t -> visited e t t' -> steady column_time T T' e ->
  in_tx e = false -> refines service column_time t0 T' t'.
Proof.
  intros Rf [i event Si G Wr| ->] St I; [|by eapply refines_later].
  eapply refines_wrote; [|exact Wr|exact St|exact G].
  eapply refines_moved; [exact Rf| |done]. by apply identity_moves, rtc_once, step_other.
Qed.

(** *** Sign-ins *)

(** A sign-in whose tables are those of a visit. *)
Definition local (t : Platform.Tables X O) : Prop := Forall (fun o => org_ID o <> "global") (organizations (identity_of t)).
Definition traced {A} (m : W A) : Prop := forall e n x r n' x', in_tx e = false -> local (ex_tables x) ->
  m e n x = (r, n', x') -> visited e (ex_tables x) (ex_tables x').

Lemma traced_fail {A} err : traced (fail err : W A).
Proof. intros e n x r n' x' _ _ [= _ _ <-]. by apply vs_unchanged. Qed.
Lemma traced_bind {A B} (m : W A) (f : A -> W B) : calm m -> (forall a, traced (f a)) -> traced (m ≫= f).
Proof.
  intros K F e n x r n' x' T L R. unfold mbind, M_bind in R. destruct (m e n x) as [[[a|err] k] y] eqn:R0;
    apply K in R0 as (T1 & _ & _).
  - rewrite <- T1 in *. by eapply F.
  - injection R as _ _ <-. by apply vs_unchanged.
Qed.

Lemma traced_write event : e_OrganizationID event <> "global" -> traced (in_tables (SelfService.write column_time forwarder event)).
Proof.
  intros G e n x r n' x' T _ R. apply zoom_run in R as (t & R & ->). cbn.
  apply zoom_run in R as (l & R & ->). destruct r as [[]|err].
  - apply (vs_written e event); [done|]. destruct (WithTx_inside _ _ _ _ _ _ _ R) as (n0 & k & R0).
    split; [done|]. by exists n0, k.
  - apply vs_unchanged. assert (l = pf_audit (ex_tables x)) as -> by (unfold AuditLog.Write in R; by eapply WithTx_atomic).
    by destruct (ex_tables x).
Qed.

Lemma organization_local organization e n t org n' t' : local t ->
  organization_id (X := X) (O := O) organization e n t = (Ok org, n', t') -> org <> "global".
Proof.
  intros L R. unfold organization_id in R. apply zoom_run in R as (o & R & _). apply zoom_run in R as (i & R & _).
  apply queryR_ok in R as (_ & _ & F & _). destruct (select_row (A := Organization) _ _) as [r|] eqn:Sel; [|done]. injection F as <-.
  apply select_row_ok in Sel as [Sel _]. unfold local in L. rewrite Forall_forall in L. by apply L.
Qed.

Lemma recorded_visited expected event (m : Database.M IdentityStore.Tables login_outcome) e n t r n' t' :
  e_OrganizationID event <> "global" -> (forall t0, keeps (same_roles t0) m) -> in_tx e = true ->
  recorded_login column_time forwarder expected event (in_identity m) e n t = (Ok r, n', t') -> visited e t t'.
Proof.
  intros G K T. apply account_event; [|intros a n1 t1 n2 t2 R; by apply attempt_inv, identity_runs in R|done].
  intros r0 e1 n1 t1 n2 t2 T1 R. destruct (login_error r0).
  - destruct (expected _); [|by apply fail_ok in R]. run.
    match goal with Wr : SelfService.write _ _ _ _ _ _ = _ |- _ => apply write_runs in Wr; [|done]; by exists event end.
  - run. match goal with Wr : SelfService.write _ _ _ _ _ _ = _ |- _ => apply write_runs in Wr; [|done] end.
    eexists. split; [|done]. by match goal with |- context [signed_in ?q _] => destruct q as [[]|] end.
Qed.

Lemma finish_login_tables v f r e n (x : Exchange X O C) : ex_tables (finish_login s v f r e n x).2 = ex_tables x.
Proof. unfold finish_login, setLoginCookies. by destruct r as [[p token csrf expires|]|]; [destruct (over_http v)|..]. Qed.

(** A transaction of a login, under the organizations it starts from. *)
Lemma traced_tx v as_reply (P : Platform.Tables X O -> Prop) (m : TM (result login_outcome)) :
  (forall e n t r n' t', in_tx e = true -> P t -> m e n t = (Ok r, n', t') -> visited e t t') ->
  forall e n x r n' x', in_tx e = false -> P (ex_tables x) ->
  (r ← mapped internalError (in_tables (WithTx m)); finish_login s v as_reply r) e n x = (r, n', x') ->
  visited e (ex_tables x) (ex_tables x').
Proof.
  intros D e n x r n' x' T Px R. unfold mbind, M_bind, mapped in R.
  destruct (in_tables (WithTx m) e n x) as [[r0 k] y] eqn:R0. apply zoom_run in R0 as (t & R0 & ->).
  assert (V : visited e (ex_tables x) t).
  { unfold WithTx in R0. rewrite T in R0. destruct (faults e n); [injection R0 as _ _ <-; by apply vs_unchanged|].
    destruct (m (e <| in_tx := true |>) (Datatypes.S n) (ex_tables x)) as [[[a|err] j] t1] eqn:M.
    - destruct (faults e j); injection R0 as _ _ <-; [by apply vs_unchanged|].
      apply visited_outside. by eapply D.
    - injection R0 as _ _ <-. by apply vs_unchanged. }
  destruct r0 as [r0|err].
  - pose proof (finish_login_tables v as_reply r0 e k (x <| ex_tables := t |>)) as F. rewrite R in F. cbn in F. by rewrite F.
  - by injection R as _ _ <-.
Qed.

Lemma federated_traced v organization provider subject :
  traced (loginFederated service column_time forwarder s v organization provider subject).
Proof.
  intros e n x r n' x' T L. apply (traced_tx v _ local); [|done|done].
  intros e1 n1 t1 r1 n2 t2 T1 L1 R. unfold federated_tx in R. apply bind_ok in R as (org & k & y & R1 & R).
  apply attempt_inv in R1. assert (y = t1) as ->.
  { pose proof (organization_id_reads (X := X) (O := O) (TrimSpace organization) e1 n1 t1) as Rd. by rewrite R1 in Rd. }
  destruct org as [org|err].
  - eapply recorded_visited; [| |done|exact R]; [by eapply organization_local|]. intros. apply LoginFederated_same.
  - run. match goal with Wr : SelfService.write _ _ _ _ _ _ = _ |- _ => apply write_runs in Wr; [|done]; refine (vs_written _ _ _ _ _ Wr) end. discriminate.
Qed.

(** An attempt that fails with its event leaves what the event leaves. *)
Lemma traced_failure {A} as_reply event (err : error) : e_OrganizationID event <> "global" ->
  traced (_ ← mapped as_reply (in_tables (SelfService.write column_time forwarder event)); fail err : W A) /\
  traced (_ ← attempt (in_tables (SelfService.write column_time forwarder event)); fail err : W A).
Proof.
  intros G. split; intros e n x r n' x' T L R; unfold mbind, M_bind, mapped, attempt in R;
    destruct (in_tables _ e n x) as [[[u|err0] k] y] eqn:R0; injection R as _ _ <-; by eapply traced_write.
Qed.

Lemma sign_in_traced v action m : sign_in service crypt column_time forwarder s v action m -> traced m.
Proof.
  intros [organization login password mfaCode recoveryCode|provider state code|provider organization login password].
  - unfold Login. apply traced_bind; [apply calm_allow|intros _].
    intros e n x r n' x' T L R. apply reads_split in R as [[-> _]|(org & n1 & Rg & R)]; [by apply vs_unchanged| |].
    + destruct org as [org|err];
        [|refine (proj1 (traced_failure internalError _ _ _) e n1 x r n' x' T L R); discriminate].
      eapply (traced_tx v _ local); [|exact T|exact L|exact R]. cbn beta. intros e1 n0 t r1 n2 t2 T1 _.
      apply recorded_visited; [|intros; apply LoginWithMFA_same|done].
      apply attempt_inv in Rg. apply zoom_run in Rg as (t3 & Rg & _). by eapply organization_local.
    + apply keeps_reads. intros x0. apply keeps_attempt. intros e0 n0 x1 ->.
      pose proof (organization_id_reads (X := X) (O := O) (organization_key organization) e0 n0 (ex_tables x0)) as Rd.
      unfold in_tables, zoom. destruct (organization_id _ e0 n0 (ex_tables x0)) as [[r0 k] t]. cbn in *. subst. by destruct x0.
  - unfold CompleteOIDCLogin. apply traced_bind; [apply calm_read_state|]. intros [[[c p] payload] d].
    apply traced_bind; [apply calm_consume|intros _]. unfold finish_callback.
    apply traced_bind; [apply calm_mapped, calm_code|intros f]. apply traced_bind; [apply calm_guard|intros _].
    apply federated_traced.
  - unfold LoginLDAP. destruct (is_federated s) as [[[c oidc] ldap]|]; [|apply traced_fail].
    destruct (ldap _) as [p|]; [|apply traced_fail]. apply traced_bind; [apply calm_allow|intros _].
    apply traced_bind; [apply calm_ldap|]. intros f.
    destruct (match f with Ok f0 => _ | Err _ => None end) as [subject|]; [apply federated_traced|].
    by apply (traced_failure internalError).
Qed.

(** *** One's own account *)

Notation outcome := (Composition.outcome service column_time forwarder).

Definition settled (actor : Principal) (action : string) (e : Env) (x x' : Exchange X O C) (ok : bool) : Prop :=
  outcome actor action e (ex_tables x) (ex_tables x') ok.
Definition settles (actor : Principal) (action : string) {A} (m : W A) : Prop := forall e n x r n' x',
  in_tx e = false -> m e n x = (r, n', x') -> settled actor action e x x' (is_ok r).

Lemma settles_fail actor action {A} err : settles actor action (fail err : W A).
Proof. intros e n x r n' x' _ [= <- _ <-]. by apply refused. Qed.
Lemma settles_bind actor action {A B} (m : W A) (f : A -> W B) :
  calm m -> (forall a, settles actor action (f a)) -> settles actor action (m ≫= f).
Proof.
  intros K F e n x r n' x' T R. unfold mbind, M_bind in R. unfold settled.
  destruct (m e n x) as [[[a|err] k] y] eqn:R0; apply K in R0 as (T1 & _ & _).
  - rewrite <- T1. by eapply F.
  - injection R as <- _ <-. rewrite T1. by apply refused.
Qed.

Lemma settles_audited actor action {A} event (m : Database.M IdentityStore.Tables A) named :
  (forall t0, keeps (same_roles t0) m) -> event_of actor action event -> names named ->
  settles actor action (audited column_time forwarder s event (in_identity m) named).
Proof.
  intros K Ev Nm e n x r n' x' T R. apply zoom_run in R as (t & R & ->). unfold settled. cbn.
  eapply request_outcome; [|exact T|exact R]. by apply rq_audited; [apply part_accounts|..].
Qed.

(** Cookies are cleared after the transaction. *)
Lemma settles_logout actor action (m : W unit) v : settles actor action m -> settles actor action (_ ← m; clearLoginCookies s v).
Proof.
  intros K e n x r n' x' T R. unfold mbind, M_bind in R. destruct (m e n x) as [[[a|err] k] y] eqn:R0.
  - apply K in R0; [|done]. unfold clearLoginCookies in R. destruct (over_http v); by injection R as <- _ <-.
  - injection R as <- _ <-. by eapply K in R0.
Qed.

Lemma calm_allow_all v keys limit window retryAfter : calm (X := X) (O := O) (forM keys (fun key => allow s v key limit window retryAfter)).
Proof. induction keys as [|key keys IH]; [apply calm_ret|]. cbn. apply calm_bind; [apply calm_allow|by intros _]. Qed.

Ltac solve_settled :=
  repeat first
    [ apply settles_fail
    | apply settles_logout
    | apply settles_bind; [first [apply calm_allow|apply calm_allow_all|apply calm_guard]|intros _]
    | apply settles_audited;
      [ intros ?; first [apply BeginMFAEnrollment_same|apply ConfirmMFAEnrollment_same|apply DisableMFA_same|apply Logout_same
                        |apply ChangePassword_same|apply StepUp_same|apply CreateAPIToken_same|apply RevokeAPIToken_same]
      | apply fresh_event
      | first [apply names_unnamed|apply (names_resource _ (fun created => at_ID created.1))] ] ].

Lemma own_settled v action A m e n x r n' x' : own v action A m -> in_tx e = false -> m e n x = (r, n', x') ->
  (exists actor, requiredPrincipal (vi_call v) = Ok actor /\ settled actor action e x x' (is_ok r)) \/
  (is_ok r = false /\ ex_tables x' = ex_tables x).
Proof.
  intros Ow T R. assert (K : exists k, m = visitor v k /\ forall actor, settles actor action (k actor)).
  { destruct Ow; (eexists; split; [reflexivity|]); intros actor; cbn beta zeta; solve_settled. }
  destruct K as (k & -> & K). unfold visitor in R.
  destruct (requiredPrincipal (vi_call v)) as [actor|err].
  - left. exists actor. split; [done|]. change (k actor e n x = (r, n', x')) in R. by eapply K.
  - right. change ((Err err, n, x) = (r, n', x')) in R. by injection R as <- _ <-.
Qed.

(** ** Properties *)

(** C1.  What users do to their own account is audited, and changes nothing
    else: a request that succeeds has added one row, which names the user and
    the action; one that fails (wrong password, wrong code, too many requests)
    leaves every table as it was, except for the row that says so. *)
Theorem own_changes_are_audited v action A m e n x r n' x' :
  own v action A m -> in_tx e = false -> m e n x = (r, n', x') ->
  if is_ok r then exists actor row, requiredPrincipal (vi_call v) = Ok actor /\ recorded actor action "SUCCESS" row /\
    au_logs (pf_audit (ex_tables x')) = (au_logs (pf_audit (ex_tables x)) ++ [row])%list
  else ex_tables x' = ex_tables x \/ exists actor row, requiredPrincipal (vi_call v) = Ok actor /\
    recorded actor action "FAILURE" row /\
    au_logs (pf_audit (ex_tables x')) = (au_logs (pf_audit (ex_tables x)) ++ [row])%list /\
    ex_tables x' = (ex_tables x) <| pf_audit := pf_audit (ex_tables x') |>.
Proof.
  intros Ow T R. destruct (own_settled v action A m e n x r n' x' Ow T R) as [(actor & Rq & St)|[-> ->]]; [|by left].
  apply outcome_recorded in St. destruct (is_ok r).
  - destruct St as (row & St). by exists actor, row.
  - destruct St as [->|(row & St)]; [by left|right]. by exists actor, row.
Qed.

End visits.

(** ** Examples *)

Module examples.
Import SelfService.examples.
(** Bob, who is logged in, changes his password. *)
Definition at_home : Visit :=
  mkVisit (mkCall (RequestGate.mkCtx (Some (mkTransport "change" (fun _ => ""))) (Some Accounts.sessions_example.bob))
             (Some "10.0.0.1")) true.
Definition change (current : string) : Database.M (Exchange unit unit data) unit :=
  ChangePassword Roles.examples.service Composition.examples.col Composition.examples.noForwarder SelfService.examples.service
    at_home current "Another-Pass-2".
Definition now_env : Env := (env 0) <| clock := fun _ => 100 |> <| uuids := fun _ => "u" |>.
Definition changed := change "Current-Pass-1" now_env O start.
Definition refused_ := change "wrong" now_env O start.

Lemma change_run current : exists n', change current now_env 0%nat start =
  ((change current now_env 0%nat start).1.1, n', (change current now_env 0%nat start).2).
Proof. destruct (change current now_env 0%nat start) as [[r n'] x']. by exists n'. Qed.

Lemma changed_run : exists n', change "Current-Pass-1" now_env 0%nat start = (Ok tt, n', changed.2).
Proof.
  destruct (change_run "Current-Pass-1") as (n' & R). assert (D : changed.1.1 = Ok tt) by (vm_compute; reflexivity).
  exists n'. rewrite <- D. exact R.
Qed.
Lemma changes_own : own Roles.examples.service None Composition.examples.col Composition.examples.noForwarder
  SelfService.examples.service at_home "auth.password.change" _ (change "Current-Pass-1").
Proof. unfold change. apply own_ChangePassword. Qed.
End examples.
#[local] Existing Instances RequestGate.examples.kratos Composition.examples.kratos_replies SelfService.examples.statuses
  Roles.examples.unicode sample_argon2 Accounts.examples.totp.

Lemma own_changes_are_audited_witness : exists row,
  recorded Accounts.sessions_example.bob "auth.password.change" "SUCCESS" row /\
  au_logs (pf_audit (ex_tables examples.changed.2)) = (au_logs (pf_audit (ex_tables SelfService.examples.start)) ++ [row])%list.
Proof.
  destruct examples.changed_run as (n' & R).
  destruct (own_changes_are_audited _ _ _ _ _ _ _ _ _ examples.now_env _ _ _ _ _ examples.changes_own eq_refl R)
    as (actor & row & Rq & Rec & L).
  injection Rq as <-. exists row. split; [exact Rec|exact L].
Defined.

