(* ===== verification/Storage.v ===== *)
(** * Object storage

    [internal/platform/storage]: the provider profiles, the capability contract
    of a target, the S3 store whose regulated operations need that contract, and
    the keys of the store on the local disk.

    The client of the AWS SDK is a parameter: it answers a request at a tick; the
    state is the list of requests it was given. *)

From S2P Require Import Prelude GoString GoTime Crypto Strconv Database Keyring.

(** ** Profiles *)

Definition ProviderProfileGenericS3 := "generic-s3".
Definition ProviderProfileAWSS3 := "aws-s3".
Definition ProviderProfileMinIO := "minio".
Definition ProviderProfileCephRGW := "ceph-rgw".
Definition ProviderProfileAlibabaOSS := "alibaba-oss".
Definition ProviderProfileTencentCOS := "tencent-cos".
Definition ProviderProfileHuaweiOBS := "huawei-obs".
Definition ProviderProfileLocal := "local".

Definition errUnsupportedProfile : error := Errorf "unsupported storage provider profile" [].

Definition profile_aliases : list (list string * string) :=
  [(["s3"; "aws"; "aws-s3"; "amazon-s3"], ProviderProfileAWSS3);
   (["s3-compatible"; "s3_compatible"; "generic-s3"; "generic"], ProviderProfileGenericS3);
   (["minio"; "minio-s3"], ProviderProfileMinIO);
   (["ceph"; "ceph-rgw"; "radosgw"], ProviderProfileCephRGW);
   (["oss"; "aliyun-oss"; "alibaba-oss"], ProviderProfileAlibabaOSS);
   (["cos"; "tencent-cos"], ProviderProfileTencentCOS);
   (["obs"; "huawei-obs"], ProviderProfileHuaweiOBS)].

Definition ResolveProviderProfile (value : string) : result string :=
  let name := ToLower (TrimSpace value) in
  if contains [""; "local"; "filesystem"] name then Ok ProviderProfileLocal
  else match List.find (fun p => contains p.1 name) profile_aliases with
       | Some (_, profile) => Ok profile
       | None => Err errUnsupportedProfile
       end.

Definition IsS3Profile (profile : string) : bool := profile <>s ProviderProfileLocal.

(** ** Capabilities *)

Definition CapabilityBasicObjectIO := "basic_object_io".
Definition CapabilityMultipartRecovery := "multipart_recovery".
Definition CapabilityChecksum := "checksum".
Definition CapabilitySSES3 := "sse_s3".
Definition CapabilitySSEKMS := "sse_kms".
Definition CapabilityVersioning := "versioning".
Definition CapabilityObjectLock := "object_lock".
Definition CapabilityRetention := "retention".
Definition CapabilityLegalHold := "legal_hold".
Definition CapabilityConstrainedPresign := "constrained_presign".
Definition CapabilityTemporaryCredential := "temporary_credentials".

Definition CapabilitySupported := "supported".
Definition CapabilityUnsupported := "unsupported".
Definition CapabilityUnknown := "unknown".

Record CapabilityStatus := mkStatus { cs_State : string; cs_Evidence : string }.

Definition EvidenceTargetTested := "Target-tested".
Definition EvidenceNotCertified := "Not certified".

Record CapabilityContract := mkContract {
  cc_Profile : string;
  cc_Level : string;
  cc_Target : string;
  cc_EvidenceRef : string;
  cc_EvidenceDigest : string;
  cc_TestedAt : Time;
  cc_Capabilities : gmap string CapabilityStatus
}.

(** A map is ranged over in an order of its own: which of several capabilities
    an error names is up to it. *)
Fixpoint check_supported (capabilities : list (string * CapabilityStatus)) : result unit :=
  match capabilities with
  | [] => Ok tt
  | (capability, status) :: rest =>
    if (cs_State status =s CapabilitySupported) && (TrimSpace (cs_Evidence status) =s "") then
      Err (Errorf "supported storage capability %q has no evidence" [FStr capability])
    else check_supported rest
  end.

Fixpoint check_required (capabilities : gmap string CapabilityStatus) (required : list string) : result unit :=
  match required with
  | [] => Ok tt
  | capability :: rest =>
    match capabilities !! capability with
    | Some status =>
      if cs_State status <>s CapabilitySupported then
        Err (Errorf "storage capability %q is not target-tested and supported" [FStr capability])
      else check_required capabilities rest
    | None => Err (Errorf "storage capability %q is not target-tested and supported" [FStr capability])
    end
  end.

Definition Validate (c : CapabilityContract) (required : list string) : result unit :=
  if negb (IsS3Profile (cc_Profile c)) then Err (Errorf "capability contract requires an s3 provider profile" [])
  else if cc_Level c <>s EvidenceTargetTested then
    Err (Errorf "storage capability contract level %q is not target-tested" [FStr (cc_Level c)])
  else if (TrimSpace (cc_Target c) =s "") || (TrimSpace (cc_EvidenceRef c) =s "") || IsZero (cc_TestedAt c) then
    Err (Errorf "storage capability contract target, evidence reference, and test time are required" [])
  else
    let digest := TrimSpace (cc_EvidenceDigest c) in
    if negb (slen digest =? 64) then Err (Errorf "storage capability contract requires a sha256 evidence digest" [])
    else match DecodeString digest with
    | None => Err (Errorf "storage capability contract evidence digest is not hexadecimal" [])
    | Some _ =>
      if bool_decide (cc_Capabilities c = ∅) then Err (Errorf "storage capability contract has no capability results" [])
      else _ ← check_supported (map_to_list (cc_Capabilities c)); check_required (cc_Capabilities c) required
    end.

Definition unknown : CapabilityStatus := mkStatus CapabilityUnknown "target contract test required".
Definition defaultCapabilityContract (profile : string) : CapabilityContract :=
  mkContract profile EvidenceNotCertified "" "" "" zeroTime (list_to_map
    [(CapabilityBasicObjectIO, mkStatus CapabilitySupported "S3 API profile; target contract test required for certification");
     (CapabilityMultipartRecovery, unknown);
     (CapabilityChecksum, unknown);
     (CapabilitySSES3, unknown);
     (CapabilitySSEKMS, mkStatus CapabilityUnknown "target KMS contract test required");
     (CapabilityVersioning, unknown);
     (CapabilityObjectLock, mkStatus CapabilityUnknown "target object-lock contract test required");
     (CapabilityRetention, mkStatus CapabilityUnknown "target retention contract test required");
     (CapabilityLegalHold, mkStatus CapabilityUnknown "target legal-hold contract test required");
     (CapabilityConstrainedPresign, mkStatus CapabilityUnknown "target presign contract test required");
     (CapabilityTemporaryCredential, mkStatus CapabilityUnknown "target STS contract test required")]).

(** [RequireCapabilities], for a store that reports capabilities or not. *)
Fixpoint verified (capabilities : gmap string CapabilityStatus) (required : list string) : result unit :=
  match required with
  | [] => Ok tt
  | capability :: rest =>
    match capabilities !! capability with
    | Some status =>
      if cs_State status <>s CapabilitySupported then
        Err (Errorf "storage capability %q is not verified" [FStr capability])
      else verified capabilities rest
    | None => Err (Errorf "storage capability %q is not verified" [FStr capability])
    end
  end.
Definition RequireCapabilities (reported : option (gmap string CapabilityStatus)) (required : list string) : result unit :=
  match reported with
  | None => Err (Errorf "storage provider does not report capabilities" [])
  | Some capabilities => verified capabilities required
  end.
Definition RequireTargetTestedCapabilities (contract : option CapabilityContract) (required : list string) : result unit :=
  match contract with
  | None => Err (Errorf "storage provider does not report a capability contract" [])
  | Some c => Validate c required
  end.

(** [LoadCapabilityContract]: the file, its document and the file of the
    evidence; [read] is [securefile.Read] and [unmarshal] [json.Unmarshal] into
    the contract. *)
Definition LoadCapabilityContract (read : string -> result string) (unmarshal : string -> result CapabilityContract)
    (path : string) : result CapabilityContract :=
  let path := TrimSpace path in
  if path =s "" then Err (Errorf "storage capability contract path is required" [])
  else match read path with
  | Err err => Err (Wrapf "read storage capability contract: %w" [] err)
  | Ok raw =>
    match unmarshal raw with
    | Err err => Err (Wrapf "parse storage capability contract: %w" [] err)
    | Ok contract =>
      _ ← Validate contract [CapabilityBasicObjectIO];
      match read (cc_EvidenceRef contract) with
      | Err err => Err (Wrapf "read storage capability evidence: %w" [] err)
      | Ok evidence =>
        if ToLower (Sum256hex evidence) <>s ToLower (TrimSpace (cc_EvidenceDigest contract)) then
          Err (Errorf "storage capability evidence digest does not match contract" [])
        else Ok contract
      end
    end
  end.

(** ** Keys *)

Definition validateMultipartKey (key : string) : result unit :=
  if (TrimSpace key =s "") || (1024 <? slen key) then Err (Errorf "invalid multipart object key" []) else Ok tt.
Definition validateMultipartPart (number : Z) : result unit :=
  if (number <? 1) || (10000 <? number) then Err (Errorf "multipart part number must be between 1 and 10000" []) else Ok tt.
Definition maxPresignTTL : Duration := 15 * Minute.
Definition validatePresignTTL (ttl : Duration) : result unit :=
  if (ttl <? Minute) || (maxPresignTTL <? ttl) then Err (Errorf "presign ttl must be between 1 minute and 15 minutes" [])
  else Ok tt.

(** [filepath.Clean] on Unix: empty and dot elements go, [..] takes the element
    before it, a leading one of a rooted path goes. *)
Fixpoint clean_elements (rooted : bool) (out elements : list string) : list string :=
  match elements with
  | [] => reverse out
  | e :: rest =>
    if (e =s "") || (e =s ".") then clean_elements rooted out rest
    else if e =s ".." then
      match out with
      | last :: out' => if last =s ".." then clean_elements rooted (e :: out) rest else clean_elements rooted out' rest
      | [] => if rooted then clean_elements rooted [] rest else clean_elements rooted [e] rest
      end
    else clean_elements rooted (e :: out) rest
  end.
Fixpoint join_elements (l : list string) : string :=
  match l with
  | [] => ""
  | [e] => e
  | e :: rest => e +:+ "/" +:+ join_elements rest
  end.
Definition Clean (path : string) : string :=
  let rooted := HasPrefix path "/" in
  let elements := join_elements (clean_elements rooted [] (Split path "/")) in
  if rooted then "/" +:+ elements else if elements =s "" then "." else elements.
Definition IsAbs (path : string) : bool := HasPrefix path "/".

(** [local.path]. *)
Definition local_path (key : string) : result string :=
  let clean := Clean key in
  if (clean =s ".") || IsAbs clean || (clean =s "..") || HasPrefix clean "../" then Err (Errorf "invalid key" [])
  else Ok clean.

Definition local_capabilities : gmap string CapabilityStatus := list_to_map
  [(CapabilityBasicObjectIO, mkStatus CapabilitySupported "local filesystem contract");
   (CapabilityMultipartRecovery, mkStatus CapabilityUnsupported "local provider has no multipart protocol")].

(** ** Requests *)

Inductive LockMode := Compliance | Governance | OtherMode (name : string).
Inductive Encryption := Aes256 | AwsKms.

Record PutObjectInput := mkPut {
  pi_Key : string;
  pi_Body : string;
  pi_ContentType : option string;
  pi_ChecksumSHA256 : option string;
  pi_ServerSideEncryption : option Encryption;
  pi_SSEKMSKeyId : option string;
  pi_ObjectLockMode : option LockMode;
  pi_ObjectLockRetainUntilDate : option Time;
  pi_LegalHold : bool
}.
#[export] Instance PutObjectInput_eta : Eta PutObjectInput := fun i =>
  mkPut (pi_Key i) (pi_Body i) (pi_ContentType i) (pi_ChecksumSHA256 i) (pi_ServerSideEncryption i) (pi_SSEKMSKeyId i)
    (pi_ObjectLockMode i) (pi_ObjectLockRetainUntilDate i) (pi_LegalHold i).

Record MultipartPart := mkPart { mp_Number : Z; mp_ETag : string; mp_ChecksumSHA256 : string }.

(** What the store asks of the client, for its bucket. *)
Inductive Request :=
| PutObject (input : PutObjectInput)
| GetObject (key : string) (version : option string)
| DeleteObject (key : string)
| HeadBucket
| HeadObject (key version : string)
| GetBucketVersioning
| EnableBucketVersioning
| PutObjectRetention (key version : string) (mode : LockMode) (until : Time)
| PutObjectLegalHold (key version : string) (on : bool)
| CreateMultipartUpload (key : string) (contentType : option string)
| UploadPartRequest (key upload : string) (number : Z) (body : string) (checksum : option string)
| CompleteMultipartUpload (key upload : string) (parts : list MultipartPart)
| AbortMultipartUpload (key upload : string)
| PresignGetObject (key : string) (expires : Duration)
| PresignPutObject (key : string) (contentType : option string) (expires : Duration).

(** The fields of the answers that are read. *)
Record Response := mkResponse {
  rp_VersionId : option string;
  rp_ETag : option string;
  rp_ChecksumSHA256 : option string;
  rp_UploadId : option string;
  rp_ObjectLockMode : option LockMode;
  rp_RetainUntil : option Time;
  rp_Status : string;
  rp_Body : string;
  rp_URL : string
}.

Record ObjectWriteOptions := mkOptions {
  ow_ContentType : string;
  ow_ChecksumSHA256 : string;
  ow_SSES3 : bool;
  ow_SSEKMSKeyID : string;
  ow_RetainUntil : Time;
  ow_LegalHold : bool
}.
#[export] Instance ObjectWriteOptions_eta : Eta ObjectWriteOptions := fun o =>
  mkOptions (ow_ContentType o) (ow_ChecksumSHA256 o) (ow_SSES3 o) (ow_SSEKMSKeyID o) (ow_RetainUntil o) (ow_LegalHold o).

Record ObjectReceipt := mkReceipt { or_Key : string; or_VersionID : string; or_ETag : string; or_ChecksumSHA256 : string }.
Record ImmutableReceipt := mkImmutable { ir_Key : string; ir_VersionID : string; ir_SHA256 : string; ir_RetainUntil : Time }.

Definition some_text (value : string) : option string := if value =s "" then None else Some value.

Section store.
Context {S : Type}.
(** The check reads the clock only when there is a retention date. *)
Definition validateGovernedWrite (key : string) (options : ObjectWriteOptions) : M S unit :=
  _ ← lift (validateMultipartKey key);
  _ ← guard_not (ow_SSES3 options && (TrimSpace (ow_SSEKMSKeyID options) <>s ""))
        (Errorf "sse-s3 and sse-kms are mutually exclusive" []);
  _ ← guard_not ((ow_LegalHold options || negb (IsZero (ow_RetainUntil options))) && (TrimSpace (ow_ChecksumSHA256 options) =s ""))
        (Errorf "object retention and legal hold require an object checksum" []);
  _ ← (if IsZero (ow_RetainUntil options) then mret tt
       else at_ ← now; guard_not (negb (After (ow_RetainUntil options) (UTC at_))) (Errorf "object retention must be in the future" []));
  if ow_ChecksumSHA256 options <>s "" then
    match StdDecoding (ow_ChecksumSHA256 options) with
    | Some decoded =>
      guard_not (negb (slen decoded =? 32)) (Errorf "checksum sha256 must be a base64 encoded 32-byte digest" [])
    | None => fail (Errorf "checksum sha256 must be a base64 encoded 32-byte digest" [])
    end
  else mret tt.
End store.

Section s3.
Context (respond : Request -> Env -> nat -> result Response) (contract : CapabilityContract).
Notation R := (M (list Request)).

Definition send (r : Request) : R Response := fun e n sent => (respond r e n, S n, (sent ++ [r])%list).
Definition tested (required : list string) : R unit := lift (RequireTargetTestedCapabilities (Some contract) required).

Definition Put (key body : string) : R unit :=
  _ ← lift (validateMultipartKey key);
  _ ← send (PutObject (mkPut key body None None None None None None false));
  mret tt.
Definition Get (key : string) : R string :=
  _ ← lift (validateMultipartKey key);
  out ← send (GetObject key None);
  mret (rp_Body out).
Definition Delete (key : string) : R unit :=
  _ ← lift (validateMultipartKey key);
  _ ← send (DeleteObject key);
  mret tt.
Definition Ping : R unit := _ ← send HeadBucket; mret tt.

(** *** Governed writes *)

Definition governed_capabilities (options : ObjectWriteOptions) : list string :=
  [CapabilityBasicObjectIO]
  ++ (if ow_ChecksumSHA256 options <>s "" then [CapabilityChecksum] else [])
  ++ (if ow_SSES3 options then [CapabilitySSES3] else [])
  ++ (if TrimSpace (ow_SSEKMSKeyID options) <>s "" then [CapabilitySSEKMS] else [])
  ++ (if IsZero (ow_RetainUntil options) then []
      else [CapabilityVersioning; CapabilityObjectLock; CapabilityRetention; CapabilityChecksum])
  ++ (if ow_LegalHold options then [CapabilityVersioning; CapabilityObjectLock; CapabilityLegalHold; CapabilityChecksum] else []).

Definition governed_input (key payload : string) (options : ObjectWriteOptions) : PutObjectInput :=
  mkPut key payload (some_text (ow_ContentType options)) (some_text (ow_ChecksumSHA256 options))
    (if ow_SSEKMSKeyID options <>s "" then Some AwsKms else if ow_SSES3 options then Some Aes256 else None)
    (some_text (ow_SSEKMSKeyID options))
    (if IsZero (ow_RetainUntil options) then None else Some Compliance)
    (if IsZero (ow_RetainUntil options) then None else Some (UTC (ow_RetainUntil options)))
    (ow_LegalHold options).

Definition PutGoverned (key payload : string) (options : ObjectWriteOptions) : R ObjectReceipt :=
  _ ← validateGovernedWrite key options;
  _ ← tested (governed_capabilities options);
  out ← attempt (send (PutObject (governed_input key payload options)));
  match out with
  | Err err => fail (Wrapf "s3 governed put: %w" [] err)
  | Ok out => mret (mkReceipt key (default "" (rp_VersionId out)) (default "" (rp_ETag out)) (default "" (rp_ChecksumSHA256 out)))
  end.

Definition bad_key (key : string) : bool := negb (is_ok (validateMultipartKey key)).

Definition GetVersion (key version : string) : R string :=
  _ ← guard_not (bad_key key || (TrimSpace version =s "")) (Errorf "object key and version id are required" []);
  _ ← tested [CapabilityVersioning];
  out ← attempt (send (GetObject key (Some version)));
  match out with
  | Err err => fail (Wrapf "s3 get object version: %w" [] err)
  | Ok out => mret (rp_Body out)
  end.

Definition VersioningStatus : R string :=
  _ ← tested [CapabilityVersioning];
  out ← attempt (send GetBucketVersioning);
  match out with
  | Err err => fail (Wrapf "s3 get versioning: %w" [] err)
  | Ok out => mret (rp_Status out)
  end.

Definition EnableVersioning : R unit :=
  _ ← tested [CapabilityVersioning];
  _ ← send EnableBucketVersioning;
  mret tt.

(** The clock is read last, when the other parts of the condition hold. *)
Definition SetRetention (key version : string) (mode : LockMode) (until : Time) : R unit :=
  let invalid := Errorf "valid object key, version id, and future retention time are required" [] in
  _ ← guard_not (bad_key key || (TrimSpace version =s "") || IsZero until) invalid;
  at_ ← now;
  _ ← guard_not (negb (After until (UTC at_))) invalid;
  _ ← guard_not (match mode with OtherMode _ => true | _ => false end) (Errorf "unsupported object retention mode" []);
  _ ← tested [CapabilityVersioning; CapabilityObjectLock; CapabilityRetention];
  _ ← send (PutObjectRetention key version mode (UTC until));
  mret tt.

Definition SetLegalHold (key version : string) (enabled : bool) : R unit :=
  _ ← guard_not (bad_key key || (TrimSpace version =s "")) (Errorf "object key and version id are required" []);
  _ ← tested [CapabilityVersioning; CapabilityObjectLock; CapabilityLegalHold];
  _ ← send (PutObjectLegalHold key version enabled);
  mret tt.

(** *** Immutable objects *)

Definition immutable_capabilities : list string :=
  [CapabilityChecksum; CapabilityVersioning; CapabilityObjectLock; CapabilityRetention].

Definition PutImmutable (key payload : string) (until : Time) : R ImmutableReceipt :=
  let invalid := Errorf "immutable object retention must be in the future" [] in
  _ ← guard_not (IsZero until) invalid;
  at_ ← now;
  _ ← guard_not (negb (After until (UTC at_))) invalid;
  _ ← tested immutable_capabilities;
  out ← attempt (send (PutObject (mkPut key payload (Some "application/json") (Some (StdEncoding (Sum256 payload))) None None
                                     (Some Compliance) (Some until) false)));
  match out with
  | Err err => fail (Wrapf "s3 immutable put: %w" [] err)
  | Ok out =>
    match rp_VersionId out with
    | Some version => if version =s "" then fail (Errorf "s3 immutable put did not return a version id" [])
                      else mret (mkImmutable key version (Sum256hex payload) until)
    | None => fail (Errorf "s3 immutable put did not return a version id" [])
    end
  end.

Definition VerifyImmutable (receipt : ImmutableReceipt) : R unit :=
  _ ← guard_not ((ir_Key receipt =s "") || (ir_VersionID receipt =s "") || (ir_SHA256 receipt =s "") || IsZero (ir_RetainUntil receipt))
        (Errorf "immutable receipt is incomplete" []);
  _ ← tested immutable_capabilities;
  out ← attempt (send (HeadObject (ir_Key receipt) (ir_VersionID receipt)));
  match out with
  | Err err => fail (Wrapf "s3 immutable head: %w" [] err)
  | Ok out =>
    let weaker := Errorf "s3 object-lock compliance retention proof is missing or weaker than receipt" [] in
    match rp_ObjectLockMode out, rp_RetainUntil out with
    | Some Compliance, Some until =>
      _ ← guard_not (Before until (ir_RetainUntil receipt)) weaker;
      match rp_ChecksumSHA256 out with
      | None => fail (Errorf "s3 immutable object checksum proof is missing" [])
      | Some checksum =>
        match DecodeString (ir_SHA256 receipt) with
        | Some digest =>
          guard_not (StdEncoding digest <>s checksum) (Errorf "s3 immutable object checksum proof does not match receipt" [])
        | None => fail (Errorf "s3 immutable object checksum proof does not match receipt" [])
        end
      end
    | _, _ => fail weaker
    end
  end.

(** *** Uploads in parts *)

Definition CreateMultipart (key contentType : string) : R string :=
  _ ← lift (validateMultipartKey key);
  _ ← tested [CapabilityMultipartRecovery];
  out ← send (CreateMultipartUpload key (some_text contentType));
  match rp_UploadId out with
  | Some id => if TrimSpace id =s "" then fail (Errorf "multipart create did not return an upload id" []) else mret id
  | None => fail (Errorf "multipart create did not return an upload id" [])
  end.

(** The body may be missing. *)
Definition UploadPart (key upload : string) (number : Z) (body : option string) (checksum : string) : R MultipartPart :=
  _ ← lift (validateMultipartKey key);
  _ ← lift (validateMultipartPart number);
  match body with
  | None => fail (Errorf "multipart upload id and body are required" [])
  | Some body =>
    _ ← guard_not (TrimSpace upload =s "") (Errorf "multipart upload id and body are required" []);
    _ ← tested [CapabilityMultipartRecovery];
    out ← send (UploadPartRequest key upload number body (some_text checksum));
    match rp_ETag out with
    | Some etag => if TrimSpace etag =s "" then fail (Errorf "multipart upload did not return an etag" [])
                   else mret (mkPart number etag (default "" (rp_ChecksumSHA256 out)))
    | None => fail (Errorf "multipart upload did not return an etag" [])
    end
  end.

Fixpoint check_parts (last : Z) (parts : list MultipartPart) : result unit :=
  match parts with
  | [] => Ok tt
  | part :: rest =>
    if negb (is_ok (validateMultipartPart (mp_Number part))) || (mp_Number part =? last) || (TrimSpace (mp_ETag part) =s "") then
      Err (Errorf "multipart parts must have unique valid numbers and etags" [])
    else check_parts (mp_Number part) rest
  end.

Definition CompleteMultipart (key upload : string) (parts : list MultipartPart) : R unit :=
  _ ← lift (validateMultipartKey key);
  _ ← guard_not ((TrimSpace upload =s "") || (llen parts =? 0)) (Errorf "multipart upload id and parts are required" []);
  _ ← tested [CapabilityMultipartRecovery];
  let ordered := order_by (fun x y => mp_Number x <=? mp_Number y) parts in
  _ ← lift (check_parts 0 ordered);
  _ ← send (CompleteMultipartUpload key upload ordered);
  mret tt.

Definition AbortMultipart (key upload : string) : R unit :=
  _ ← lift (validateMultipartKey key);
  _ ← guard_not (TrimSpace upload =s "") (Errorf "multipart upload id is required" []);
  _ ← tested [CapabilityMultipartRecovery];
  _ ← send (AbortMultipartUpload key upload);
  mret tt.

Definition PresignGet (key : string) (ttl : Duration) : R string :=
  _ ← lift (validateMultipartKey key);
  _ ← lift (validatePresignTTL ttl);
  _ ← tested [CapabilityConstrainedPresign];
  out ← send (PresignGetObject key ttl);
  mret (rp_URL out).
Definition PresignPut (key : string) (ttl : Duration) (contentType : string) : R string :=
  _ ← lift (validateMultipartKey key);
  _ ← lift (validatePresignTTL ttl);
  _ ← tested [CapabilityConstrainedPresign];
  out ← send (PresignPutObject key (some_text contentType) ttl);
  mret (rp_URL out).
End s3.

(** ** What a contract proves *)

(** The target was tested for the capability, and the evidence is named. *)
Record evidenced (c : CapabilityContract) (capability : string) : Prop := {
  ev_level : cc_Level c = EvidenceTargetTested;
  ev_digest : slen (TrimSpace (cc_EvidenceDigest c)) = 64 /\ DecodeString (TrimSpace (cc_EvidenceDigest c)) <> None;
  ev_status : exists status, cc_Capabilities c !! capability = Some status /\ cs_State status = CapabilitySupported /\
    TrimSpace (cs_Evidence status) <> ""
}.

Lemma check_supported_ok l : check_supported l = Ok tt -> forall capability status, (capability, status) ∈ l ->
  cs_State status = CapabilitySupported -> TrimSpace (cs_Evidence status) <> "".
Proof.
  induction l as [|[c st] l IH]; cbn; intros E capability status Hc Sup; [by apply elem_of_nil in Hc|].
  destruct (_ && _) eqn:B; [done|]. apply elem_of_cons in Hc as [[= -> ->]|Hc]; [|by eapply IH].
  rewrite Sup in B. cbn in B. intros T. by rewrite T in B.
Qed.

Lemma check_required_ok m required : check_required m required = Ok tt ->
  Forall (fun c => exists status, m !! c = Some status /\ cs_State status = CapabilitySupported) required.
Proof.
  induction required as [|c l IH]; cbn; intros E; [constructor|].
  destruct (m !! c) as [status|] eqn:L; [|done]. destruct (_ <>s _) eqn:B; [done|]. breflect.
  constructor; [by exists status|by apply IH].
Qed.

Lemma Validate_evidenced c required : Validate c required = Ok tt -> Forall (evidenced c) required.
Proof.
  unfold Validate. intros E. destruct (negb (IsS3Profile _)); [done|]. destruct (cc_Level c <>s _) eqn:L; [done|].
  destruct (_ || _); [done|]. destruct (negb (slen _ =? 64)) eqn:D; [done|]. destruct (DecodeString _) eqn:X; [|done].
  destruct (bool_decide _); [done|]. destruct (check_supported _) as [[]|] eqn:Sup; [|done]. cbn in E.
  apply check_required_ok in E. eapply Forall_impl; [exact E|]. intros capability (status & Lk & St).
  breflect. split; [done|split; [done|by rewrite X]|]. exists status. split_and!; [done..|].
  eapply check_supported_ok; [exact Sup| |exact St]. by apply elem_of_map_to_list.
Qed.

Lemma Validate_refuses c required : cc_Level c <> EvidenceTargetTested -> is_ok (Validate c required) = false.
Proof.
  intros L. unfold Validate. destruct (negb _); [done|]. destruct (String.eqb_spec (cc_Level c) EvidenceTargetTested); [done|]. done.
Qed.

(** What a request asks of the target beyond plain reads and writes. *)
Definition put_needs (i : PutObjectInput) : list string :=
  (match pi_ChecksumSHA256 i with Some _ => [CapabilityChecksum] | None => [] end)
  ++ (match pi_ServerSideEncryption i with Some Aes256 => [CapabilitySSES3] | _ => [] end)
  ++ (match pi_SSEKMSKeyId i with Some key => if TrimSpace key =s "" then [] else [CapabilitySSEKMS] | None => [] end)
  ++ (match pi_ObjectLockMode i with
      | Some _ => [CapabilityVersioning; CapabilityObjectLock; CapabilityRetention; CapabilityChecksum]
      | None => []
      end)
  ++ (if pi_LegalHold i then [CapabilityVersioning; CapabilityObjectLock; CapabilityLegalHold] else []).
Definition needs (r : Request) : list string :=
  match r with
  | PutObject i => put_needs i
  | GetObject _ None | DeleteObject _ | HeadBucket => []
  | GetObject _ (Some _) | GetBucketVersioning | EnableBucketVersioning => [CapabilityVersioning]
  | HeadObject _ _ => [CapabilityVersioning; CapabilityObjectLock; CapabilityRetention]
  | PutObjectRetention _ _ _ _ => [CapabilityVersioning; CapabilityObjectLock; CapabilityRetention]
  | PutObjectLegalHold _ _ _ => [CapabilityVersioning; CapabilityObjectLock; CapabilityLegalHold]
  | CreateMultipartUpload _ _ | UploadPartRequest _ _ _ _ _ | CompleteMultipartUpload _ _ _ | AbortMultipartUpload _ _ =>
    [CapabilityMultipartRecovery]
  | PresignGetObject _ _ | PresignPutObject _ _ _ => [CapabilityConstrainedPresign]
  end.

(** Objects are locked for compliance and until after the request; the parts of
    an upload are numbered in increasing order. *)
Definition well_formed (at_ : Time) (r : Request) : Prop :=
  match r with
  | PutObject i => (is_Some (pi_ObjectLockMode i) -> pi_ObjectLockMode i = Some Compliance /\
                     exists until, pi_ObjectLockRetainUntilDate i = Some until /\ at_ < until) /\
                   (is_Some (pi_ObjectLockMode i) \/ pi_LegalHold i = true -> pi_ChecksumSHA256 i <> None)
  | PutObjectRetention _ _ mode until => (mode = Compliance \/ mode = Governance) /\ at_ < until
  | CompleteMultipartUpload _ _ parts =>
    StronglySorted (fun x y => mp_Number x < mp_Number y) parts /\ Forall (fun p => 1 <= mp_Number p <= 10000) parts
  | PresignGetObject _ ttl | PresignPutObject _ _ ttl => Minute <= ttl <= 15 * Minute
  | _ => True
  end.

Section requests.
Context (respond : Request -> Env -> nat -> result Response) (contract : CapabilityContract).
Notation R := (M (list Request)).

(** The operations of the store. *)
Inductive operation : forall A, R A -> Prop :=
| op_Put key body : operation _ (Put respond key body)
| op_Get key : operation _ (Get respond key)
| op_Delete key : operation _ (Delete respond key)
| op_Ping : operation _ (Ping respond)
| op_PutGoverned key payload options : operation _ (PutGoverned respond contract key payload options)
| op_GetVersion key version : operation _ (GetVersion respond contract key version)
| op_VersioningStatus : operation _ (VersioningStatus respond contract)
| op_EnableVersioning : operation _ (EnableVersioning respond contract)
| op_SetRetention key version mode until : operation _ (SetRetention respond contract key version mode until)
| op_SetLegalHold key version enabled : operation _ (SetLegalHold respond contract key version enabled)
| op_PutImmutable key payload until : operation _ (PutImmutable respond contract key payload until)
| op_VerifyImmutable receipt : operation _ (VerifyImmutable respond contract receipt)
| op_CreateMultipart key contentType : operation _ (CreateMultipart respond contract key contentType)
| op_UploadPart key upload number body checksum : operation _ (UploadPart respond contract key upload number body checksum)
| op_CompleteMultipart key upload parts : operation _ (CompleteMultipart respond contract key upload parts)
| op_AbortMultipart key upload : operation _ (AbortMultipart respond contract key upload)
| op_PresignGet key ttl : operation _ (PresignGet respond contract key ttl)
| op_PresignPut key ttl contentType : operation _ (PresignPut respond contract key ttl contentType).

(** It sends nothing, or one request that the contract covers. *)
Definition covered (e : Env) (sent sent' : list Request) : Prop :=
  sent' = sent \/ exists r k, sent' = (sent ++ [r])%list /\ Forall (evidenced contract) (needs r) /\
    well_formed (clock e k) r.

Lemma send_sent {A} r (f : result Response -> R A) e n sent res n' sent' : (forall a, reads (f a)) ->
  (out ← attempt (send respond r); f out) e n sent = (res, n', sent') -> sent' = (sent ++ [r])%list.
Proof.
  intros Rd E. unfold mbind, M_bind, attempt, send in E. specialize (Rd (respond r e n) e (S n) (sent ++ [r])%list).
  by rewrite E in Rd.
Qed.
Lemma send_then {A} r (f : Response -> R A) e n sent res n' sent' : (forall a, reads (f a)) ->
  (send respond r ≫= f) e n sent = (res, n', sent') -> sent' = (sent ++ [r])%list.
Proof.
  intros Rd E. unfold mbind, M_bind, send in E. destruct (respond r e n) as [a|err].
  - specialize (Rd a e (S n) (sent ++ [r])%list). by rewrite E in Rd.
  - by injection E.
Qed.

Lemma governed_reads {S} key options : reads (validateGovernedWrite (S := S) key options).
Proof. apply keeps_reads. intros t. unfold validateGovernedWrite. keeps_walk. Qed.

Lemma governed_ok key options e n sent u n' sent' :
  validateGovernedWrite (S := list Request) key options e n sent = (Ok u, n', sent') ->
  (ow_LegalHold options = true \/ IsZero (ow_RetainUntil options) = false -> ow_ChecksumSHA256 options <> "") /\
  (IsZero (ow_RetainUntil options) = false -> exists k, clock e k < ow_RetainUntil options).
Proof.
  intros E. unfold validateGovernedWrite in E. run. split.
  - intros D C. rewrite C in *. match goal with B : _ && (TrimSpace "" =s "") = false |- _ => rename B into Hb end.
    destruct D as [D|D]; rewrite D in Hb; [done|]. by destruct (ow_LegalHold options).
  - intros Z. match goal with K : (if IsZero _ then _ else _) _ _ _ = _ |- _ => rewrite Z in K end. run.
    match goal with A : negb (After _ _) = false |- _ => apply negb_false_iff, Z.ltb_lt in A end. by eexists.
Qed.

(** Step over a part that only reads, or end there. *)
Ltac look E :=
  apply reads_split in E;
  [destruct E as [[? ?]|(? & ? & ? & E)]; [left; by subst|]
  |solve [apply governed_reads|apply keeps_reads; intros ?; keeps_walk]].
(** The request that ends an operation. *)
Ltac sent E k0 :=
  right; eexists; exists k0; split;
  [first [eapply send_sent; [|exact E]|eapply send_then; [|exact E]]; intros ?; apply keeps_reads; intros ?; keeps_walk|].
Ltac evident :=
  repeat match goal with
  | T : tested _ _ _ _ _ = (Ok ?u, _, _) |- _ =>
    destruct u; unfold tested, RequireTargetTestedCapabilities in T; apply lift_ok in T as (T & _ & _); apply Validate_evidenced in T
  end.

Lemma elem_evidenced required capability : Forall (evidenced contract) required -> capability ∈ required -> evidenced contract capability.
Proof. rewrite Forall_forall. auto. Qed.

Lemma governed_needs key payload options : forall c, c ∈ put_needs (governed_input key payload options) -> c ∈ governed_capabilities options.
Proof.
  intros c. unfold put_needs, governed_input, governed_capabilities, some_text. cbn [pi_ChecksumSHA256 pi_ServerSideEncryption
    pi_SSEKMSKeyId pi_ObjectLockMode pi_LegalHold]. rewrite !elem_of_app. intros [Hc|[Hc|[Hc|[Hc|Hc]]]].
  - right. left. destruct (ow_ChecksumSHA256 options =s ""); [by apply elem_of_nil in Hc|exact Hc].
  - right. right. left. destruct (ow_SSEKMSKeyID options =s ""); cbn in Hc; [|by apply elem_of_nil in Hc].
    by destruct (ow_SSES3 options).
  - do 3 right. left. destruct (ow_SSEKMSKeyID options =s ""); [by apply elem_of_nil in Hc|].
    by destruct (TrimSpace (ow_SSEKMSKeyID options) =s "").
  - do 4 right. left. by destruct (IsZero (ow_RetainUntil options)).
  - do 5 right. destruct (ow_LegalHold options); set_solver.
Qed.

Ltac plain E := repeat look E; sent E 0%nat; evident; split; [first [assumption|exact (Forall_nil_2 _)]|try done].

Lemma put_governed_covered key payload options e n sent r n' sent' :
  PutGoverned respond contract key payload options e n sent = (r, n', sent') -> covered e sent sent'.
Proof.
  intros E. unfold PutGoverned in E. look E. look E.
  match goal with V : validateGovernedWrite _ _ _ _ _ = _ |- _ => apply governed_ok in V as [Ck Rt] end. evident.
  assert (exists k, IsZero (ow_RetainUntil options) = false -> clock e k < ow_RetainUntil options) as (k & Fut).
  { destruct (IsZero (ow_RetainUntil options)); [by exists 0%nat|]. destruct Rt as (k & Rt); [done|]. by exists k. }
  sent E k. split.
  - apply Forall_forall. intros c Hc. eapply elem_evidenced; [eassumption|exact (governed_needs key payload options c Hc)].
  - cbn. unfold some_text. destruct (IsZero (ow_RetainUntil options)) eqn:Z; cbn; split.
    + intros [? ?]. done.
    + intros [[? ?]|L]; [done|]. by rewrite (seqb_neq (ow_ChecksumSHA256 options) "") by auto.
    + intros _. split; [done|]. exists (ow_RetainUntil options). auto.
    + intros _. by rewrite (seqb_neq (ow_ChecksumSHA256 options) "") by auto.
Qed.

Lemma check_parts_ok l : forall last, check_parts last l = Ok tt -> StronglySorted (fun x y => mp_Number x <= mp_Number y) l ->
  (forall p, p ∈ l -> last < 1 \/ last <= mp_Number p) ->
  StronglySorted (fun x y => mp_Number x < mp_Number y) l /\ Forall (fun p => 1 <= mp_Number p <= 10000) l /\
  forall p, p ∈ l -> last < mp_Number p.
Proof.
  induction l as [|p l IH]; intros last E Sr L; [by repeat constructor; intros ? ?%elem_of_nil|].
  cbn in E. destruct (_ || _) eqn:B in E; [done|]. apply orb_false_iff in B as [B _]. apply orb_false_iff in B as [V N].
  apply Z.eqb_neq in N. unfold validateMultipartPart in V. destruct (_ || _) eqn:B in V; [done|].
  apply orb_false_iff in B as [B1 B2]. apply Z.ltb_ge in B1, B2.
  inversion Sr as [|? ? Sr' F]; subst. rewrite Forall_forall in F.
  destruct (IH (mp_Number p) E Sr') as (I1 & I2 & I3); [intros q Hq; right; by apply F|].
  assert (last <= mp_Number p) by (destruct (L p); [left|lia..]).
  split; [constructor; [done|apply Forall_forall; exact I3]|]. split; [by constructor|].
  intros q [->|Hq]%elem_of_cons; [lia|]. apply I3 in Hq. lia.
Qed.

Lemma parts_sorted parts : StronglySorted (fun x y => mp_Number x <= mp_Number y)
  (order_by (fun x y => mp_Number x <=? mp_Number y) parts).
Proof.
  assert (St : StronglySorted (fun x y => (mp_Number x <=? mp_Number y) = true) (order_by (fun x y => mp_Number x <=? mp_Number y) parts)).
  { unfold order_by. apply StronglySorted_merge_sort.
    - intros x y z A B. apply Z.leb_le in A, B. apply Z.leb_le. lia.
    - intros x y. destruct (Z.leb_spec (mp_Number x) (mp_Number y)); [by left|right]. apply Z.leb_le. lia. }
  induction St as [|x l St IH F]; constructor; [done|]. eapply Forall_impl; [exact F|]. intros y. apply Z.leb_le.
Qed.

Lemma presign_ttl ttl u : validatePresignTTL ttl = Ok u -> Minute <= ttl <= 15 * Minute.
Proof.
  unfold validatePresignTTL. destruct (_ || _) eqn:B; [done|]. apply orb_false_iff in B as [B1 B2].
  apply Z.ltb_ge in B1, B2. by unfold maxPresignTTL in *.
Qed.

Lemma operation_covered A m e n sent r n' sent' : operation A m -> m e n sent = (r, n', sent') -> covered e sent sent'.
Proof.
  intros Op E. destruct Op; [.. |].
  - unfold Put in E. plain E. split; [by intros [? ?]|by intros [[? ?]|?]].
  - unfold Get in E. plain E.
  - unfold Delete in E. plain E.
  - unfold Ping in E. plain E.
  - by apply put_governed_covered in E.
  - unfold GetVersion in E. plain E.
  - unfold VersioningStatus in E. plain E.
  - unfold EnableVersioning in E. plain E.
  - unfold SetRetention in E. cbv zeta in E. repeat look E. run. evident.
    match goal with A : negb (After _ _) = false |- _ => apply negb_false_iff, Z.ltb_lt in A; rename A into Fut end.
    match type of Fut with UTC (clock e ?k) < _ => sent E k end. split; [assumption|]. split; [|exact Fut].
    destruct mode; [by left|by right|done].
  - unfold SetLegalHold in E. plain E.
  - unfold PutImmutable in E. cbv zeta in E. repeat look E. run. evident.
    match goal with A : negb (After _ _) = false |- _ => apply negb_false_iff, Z.ltb_lt in A; rename A into Fut end.
    match type of Fut with UTC (clock e ?k) < _ => sent E k end. split.
    + apply Forall_forall. intros c Hc. eapply elem_evidenced; [eassumption|]. unfold needs, put_needs in Hc. cbn in Hc.
      unfold immutable_capabilities. set_solver.
    + split; [|done]. intros _. split; [done|]. by exists until.
  - unfold VerifyImmutable in E. repeat look E. sent E 0%nat. evident. split; [|done].
    apply Forall_forall. intros c Hc. eapply elem_evidenced; [eassumption|]. cbn in Hc. unfold immutable_capabilities. set_solver.
  - unfold CreateMultipart in E. plain E.
  - unfold UploadPart in E. look E. look E. destruct body; [plain E|left]. by injection E.
  - unfold CompleteMultipart in E. cbv zeta in E. repeat look E. run. evident. sent E 0%nat. split; [assumption|].
    match goal with A : check_parts _ _ = Ok ?u |- _ => destruct u; apply check_parts_ok in A as (A1 & A2 & _); [by split|apply parts_sorted|by left] end.
  - unfold AbortMultipart in E. plain E.
  - unfold PresignGet in E. repeat look E. run. evident. sent E 0%nat. split; [assumption|by eapply presign_ttl].
  - unfold PresignPut in E. repeat look E. run. evident. sent E 0%nat. split; [assumption|by eapply presign_ttl].
Qed.

(** The store asks nothing advanced of a target that was not tested for
    it: an operation sends no request, or one; a request that relies on a
    checksum, on encryption, on versions, locks, retention or legal holds, on
    uploads in parts or on presigned addresses is sent only under a contract of
    the level [Target-tested] whose evidence has a digest and that says with
    evidence that the target supports it.  What is locked is locked for
    compliance until a later time and carries a checksum; the parts of an upload
    are numbered in increasing order. *)
Theorem requests_are_evidenced A m e n sent r n' sent' :
  operation A m -> m e n sent = (r, n', sent') ->
  sent' = sent \/ exists req k, sent' = (sent ++ [req])%list /\ Forall (evidenced contract) (needs req) /\
    well_formed (clock e k) req.
Proof. apply operation_covered. Qed.
End requests.

(** ** Keys of the local store *)

Definition no_slash (e : string) : Prop := ~ In "/"%char (list_ascii_of_string e).
(** An element that goes down one level. *)
Record down (e : string) : Prop := {
  dn_empty : e <> ""; dn_dot : e <> "."; dn_up : e <> ".."; dn_slash : no_slash e
}.

Lemma Split_no_slash s : Forall no_slash (Split s "/").
Proof.
  induction s as [|c s IH]; cbn; [by repeat constructor; intros []|].
  destruct (Ascii.eqb_spec c "/") as [->|Ne]; [constructor; [by intros []|exact IH]|].
  destruct (Split s "/") as [|first others]; [by repeat constructor; intros [?|[]]|].
  inversion IH as [|? ? F O]; subst. constructor; [|done]. intros [E|I]; [by apply Ne|by apply F].
Qed.

Lemma Split_join l : l <> [] -> Forall no_slash l -> Split (join_elements l) "/" = l.
Proof.
  induction l as [|e [|e' l] IH]; intros Ne F; [done| |]; inversion F; subst.
  - cbn. by apply Split_none.
  - change (join_elements (e :: e' :: l)) with (e +:+ "/" +:+ join_elements (e' :: l)).
    change (e +:+ "/" +:+ join_elements (e' :: l)) with (e +:+ String "/" (join_elements (e' :: l))).
    rewrite Split_app by done. f_equal. by apply IH.
Qed.

(** What a relative path is cleaned to: steps up, then steps down. *)
Definition steps (l : list string) : Prop := exists us ds, l = (us ++ ds)%list /\ Forall (fun e => e = "..") us /\ Forall down ds.

Lemma clean_steps elements : forall ds us, Forall no_slash elements -> Forall down ds -> Forall (fun e => e = "..") us ->
  steps (clean_elements false (ds ++ us) elements).
Proof.
  induction elements as [|e rest IH]; intros ds us F D U; cbn [clean_elements].
  - exists (reverse us), (reverse ds). rewrite reverse_app. split; [done|].
    by split; apply Forall_reverse.
  - inversion F; subst. destruct ((e =s "") || (e =s ".")) eqn:B; [by apply IH|].
    apply orb_false_iff in B as [B1 B2]. breflect. destruct (String.eqb_spec e "..") as [->|Up].
    + destruct ds as [|d ds]; cbn [app].
      * destruct us as [|u us]; [by apply (IH [] [".."]); repeat constructor|].
        inversion U; subst. cbn. apply (IH [] (".." :: ".." :: us)); by repeat constructor.
      * inversion D as [|? ? Dd Ds]; subst. rewrite (seqb_neq d "..") by apply Dd. by apply IH.
    + apply (IH (e :: ds) us); [done| |done]. by constructor.
Qed.

(** A key of the local store stays below its root: a key that is accepted
    is turned into a relative path of one element or more, none of which is
    empty, [.] or [..]. *)
Theorem local_keys_stay_inside key path : local_path key = Ok path ->
  Split path "/" <> [] /\ Forall down (Split path "/") /\ IsAbs path = false.
Proof.
  unfold local_path, Clean. intros E.
  destruct (HasPrefix key "/") eqn:Rt.
  { exfalso. assert (A : IsAbs ("/" +:+ join_elements (clean_elements true [] (Split key "/"))) = true) by apply HasPrefix_take.
    rewrite A, orb_true_r in E. done. }
  destruct (clean_steps (Split key "/") [] [] (Split_no_slash key)) as (us & ds & L & U & D); [constructor..|].
  cbn [app] in L. rewrite L in E.
  destruct (join_elements (us ++ ds) =s "") eqn:Em; [done|].
  destruct (_ || HasPrefix _ "../") eqn:B in E; [done|]. injection E as <-.
  apply orb_false_iff in B as [B P]. apply orb_false_iff in B as [B P2]. apply orb_false_iff in B as [B1 B2]. breflect.
  assert (us = []) as ->.
  { destruct us as [|u us]; [done|exfalso]. inversion U; subst. cbn [app] in *.
    destruct (us ++ ds)%list as [|x l]; [by apply P2|].
    assert (T : HasPrefix (join_elements (".." :: x :: l)) "../" = true) by apply (HasPrefix_take (join_elements (x :: l)) "../").
    congruence. }
  cbn [app] in *. assert (Ne : ds <> []) by (by intros ->).
  rewrite Split_join; [split_and!; done|done|]. eapply Forall_impl; [exact D|]. by intros x [].
Qed.

(** ** Examples *)

Module examples.
Definition supported : CapabilityStatus := mkStatus CapabilitySupported "run 17".
Definition contract : CapabilityContract :=
  mkContract ProviderProfileMinIO EvidenceTargetTested "minio.example" "/evidence/minio.json" (Sum256hex "evidence") 1
    (list_to_map [(CapabilityBasicObjectIO, supported); (CapabilityChecksum, supported); (CapabilityVersioning, supported);
                  (CapabilityObjectLock, supported); (CapabilityRetention, supported)]).
Definition respond (r : Request) (e : Env) (n : nat) : result Response :=
  Ok (mkResponse (Some "v1") (Some "etag") None None None None "" "" "").
Definition env : Env := mkEnv (fun _ => 100) (fun _ => "id") (fun _ => None) (fun _ _ => "0"%char) false.
Definition options : ObjectWriteOptions := mkOptions "text/plain" (StdEncoding (Sum256 "body")) false "" 1000 false.
Definition stored := PutGoverned respond contract "reports/1" "body" options env O [].
Definition held := PutGoverned respond contract "reports/1" "body" (options <| ow_LegalHold := true |>) env O [].
Definition untested := PutGoverned respond (defaultCapabilityContract ProviderProfileMinIO) "reports/1" "body" options env O [].

Lemma stored_run : exists n', PutGoverned respond contract "reports/1" "body" options env 0%nat [] =
  (Ok (mkReceipt "reports/1" "v1" "etag" ""), n', stored.2).
Proof.
  assert (D : stored.1.1 = Ok (mkReceipt "reports/1" "v1" "etag" "")) by (vm_compute; reflexivity).
  exists stored.1.2. rewrite <- D. unfold stored. by destruct (PutGoverned _ _ _ _ _ _ _ _) as [[]].
Qed.

Lemma accepted_keys : (local_path "a/./b//../c", local_path "a/../../b", local_path "/etc/passwd", local_path "a/..") =
  (Ok "a/c", Err (Errorf "invalid key" []), Err (Errorf "invalid key" []), Err (Errorf "invalid key" [])).
Proof. vm_compute. reflexivity. Qed.
End examples.

(** The retention is written; a legal hold, which the contract does not cover,
    and the default contract send nothing. *)
Lemma requests_are_evidenced_witness :
  (exists req k, examples.stored.2 = [req] /\ Forall (evidenced examples.contract) (needs req) /\
     well_formed (clock examples.env k) req) /\ examples.held.2 = [] /\ examples.untested.2 = [].
Proof.
  split; [|split; vm_compute; reflexivity]. destruct examples.stored_run as (n' & R).
  destruct (requests_are_evidenced _ _ _ _ _ _ _ _ _ _ (op_PutGoverned _ _ _ _ _) R) as [N|X].
  - exfalso. assert (L : length examples.stored.2 = 1%nat) by (vm_compute; reflexivity). by rewrite N in L.
  - exact X.
Defined.

Lemma local_keys_stay_inside_witness : Forall down (Split "a/c" "/").
Proof. exact (proj1 (proj2 (local_keys_stay_inside "a/./b//../c" "a/c" (f_equal (fun x => x.1.1.1) examples.accepted_keys)))). Defined.

(** A key name for encryption of blanks alone asks for no capability and is
    sent, in place of the encryption that was asked for. *)
Example a_blank_key_name_is_sent :
  (PutGoverned examples.respond
     (mkContract ProviderProfileMinIO EvidenceTargetTested "minio.example" "/evidence/minio.json" (Sum256hex "evidence") 1
        (list_to_map [(CapabilityBasicObjectIO, examples.supported); (CapabilitySSES3, examples.supported)]))
     "k" "body" (mkOptions "" "" true "  " 0 false) examples.env O []).2 =
  [PutObject (mkPut "k" "body" None None (Some AwsKms) (Some "  ") None None false)].
Proof. vm_compute. reflexivity. Qed.
