(* ===== verification/Quarantine.v ===== *)
(** * Quarantine of uploads

    [internal/platform/storage/quarantine.go]: what is uploaded waits for a scan
    before it is promoted to the regulated store.  The stores, the scanner and
    the target are interfaces, and several workers share them: an operation of
    a store runs amid what the others do meanwhile, which is what its laws say. *)

From S2P Require Import Prelude GoString GoTime Crypto Strconv Database Keyring Storage.

(** ** Records *)

Definition QuarantineStatusQuarantined := "Quarantined".
Definition QuarantineStatusScanning := "Scanning".
Definition QuarantineStatusClean := "Clean".
Definition QuarantineStatusScanFailed := "ScanFailed".
Definition QuarantineStatusRejected := "Rejected".
Definition QuarantineStatusExpired := "Expired".
Definition QuarantineStatusPromoted := "Promoted".
Definition QuarantineStatusPromotionFail := "PromotionFailed".
Definition QuarantineStatusCleanupPending := "CleanupPending".

Definition ScanVerdictClean := "Clean".
Definition ScanVerdictMalicious := "Malicious".

Record ScanEvidence := mkScan { se_Scanner : string; se_EvidenceID : string; se_Verdict : string; se_CompletedAt : Time }.
Definition noEvidence : ScanEvidence := mkScan "" "" "" zeroTime.

Record QuarantineRecord := mkRecord {
  q_ID : string;
  q_Key : string;
  q_ContentType : string;
  q_DetectedContentType : string;
  q_Size : Z;
  q_SHA256 : string;
  q_Status : string;
  q_CreatedAt : Time;
  q_ExpiresAt : Time;
  q_Scan : ScanEvidence;
  q_PromotionOptions : ObjectWriteOptions;
  q_PromotedVersionID : string
}.
#[export] Instance QuarantineRecord_eta : Eta QuarantineRecord := fun r =>
  mkRecord (q_ID r) (q_Key r) (q_ContentType r) (q_DetectedContentType r) (q_Size r) (q_SHA256 r) (q_Status r)
    (q_CreatedAt r) (q_ExpiresAt r) (q_Scan r) (q_PromotionOptions r) (q_PromotedVersionID r).
Definition noOptions : ObjectWriteOptions := mkOptions "" "" false "" zeroTime false.
Definition noRecord : QuarantineRecord := mkRecord "" "" "" "" 0 "" "" zeroTime zeroTime noEvidence noOptions "".
Definition noReceipt : ObjectReceipt := mkReceipt "" "" "" "".

Record QuarantineRequest := mkRequest {
  qr_Key : string;
  qr_ContentType : string;
  qr_Payload : string;
  qr_MaxBytes : Z;
  qr_AllowedContentTypes : list string;
  qr_PromotionOptions : ObjectWriteOptions
}.

(** ** Interfaces *)

(** [QuarantineObjectStore], [QuarantineRecordStore], [MalwareScanner] and
    [GovernanceStore] over one state. *)
Class QuarantineStores (T : Type) := {
  objects_Put : string -> string -> M T unit;
  objects_Get : string -> M T string;
  objects_Delete : string -> M T unit;
  records_Create : QuarantineRecord -> M T unit;
  records_Get : string -> M T QuarantineRecord;
  records_CompareAndSwap : string -> string -> QuarantineRecord -> M T unit;
  scanner_Scan : string -> string -> M T ScanEvidence;
  target_PutGoverned : string -> string -> ObjectWriteOptions -> M T ObjectReceipt
}.

(** ** The controller *)

Definition normalizeContentType (value : string) : string :=
  TrimSpace (match SplitN2 value ";" with first :: _ => first | [] => "" end).

Definition contentTypeAllowed (value : string) (allowed : list string) : bool :=
  match allowed with
  | [] => true
  | _ =>
    let value := normalizeContentType value in
    existsb (fun candidate =>
      let candidate := normalizeContentType candidate in
      (candidate =s value) || HasSuffix candidate "/*" && HasPrefix value (TrimSuffix candidate "*")) allowed
  end.

Section controller.
Context {T : Type} `{QuarantineStores T}.
(** [http.DetectContentType], the sniffing of the first bytes. *)
Context (DetectContentType : string -> string) (maxSize : Z) (ttl : Duration).
Notation W := (M T).

Definition newQuarantineID : W string :=
  raw ← attempt (rand_Read 16);
  match raw with
  | Err err => fail (Wrapf "generate quarantine id: %w" [] err)
  | Ok raw => mret (EncodeToString raw)
  end.

Definition transition (record : QuarantineRecord) (status : string) (mutated : QuarantineRecord) : W QuarantineRecord :=
  let next := mutated <| q_Status := status |> in
  swapped ← attempt (records_CompareAndSwap (q_ID record) (q_Status record) next);
  match swapped with
  | Err err => fail (Wrapf "quarantine state transition %s -> %s: %w" [FStr (q_Status record); FStr status] err)
  | Ok _ => mret next
  end.

Definition content_type_of (request : QuarantineRequest) : string :=
  let declared := normalizeContentType (qr_ContentType request) in
  if declared =s "" then DetectContentType (qr_Payload request) else declared.

Definition Submit (request : QuarantineRequest) : W QuarantineRecord :=
  let payload := qr_Payload request in
  let options := qr_PromotionOptions request in
  _ ← lift (validateMultipartKey (qr_Key request));
  _ ← guard_not (slen payload =? 0) (Errorf "empty upload is not allowed" []);
  _ ← guard_not ((maxSize <? slen payload) || (0 <? qr_MaxBytes request) && (qr_MaxBytes request <? slen payload))
        (Errorf "upload exceeds quarantine size limit" []);
  let checksum := StdEncoding (Sum256 payload) in
  _ ← guard_not ((ow_ChecksumSHA256 options <>s "") && (ow_ChecksumSHA256 options <>s checksum))
        (Errorf "promotion checksum does not match upload" []);
  let options := options <| ow_ChecksumSHA256 := checksum |> in
  _ ← validateGovernedWrite (qr_Key request) options;
  let detected := DetectContentType payload in
  let declared := content_type_of request in
  _ ← guard_not ((declared <>s "application/octet-stream") && (detected <>s "application/octet-stream") && (declared <>s detected))
        (Errorf "declared content type does not match detected content" []);
  _ ← guard_not (negb (contentTypeAllowed declared (qr_AllowedContentTypes request))) (Errorf "content type is not allowed" []);
  id ← newQuarantineID;
  at_ ← now;
  let record := mkRecord id (qr_Key request) declared detected (slen payload) (Sum256hex payload) QuarantineStatusQuarantined
    (UTC at_) (timeAdd (UTC at_) ttl) noEvidence options "" in
  put ← attempt (objects_Put id payload);
  match put with
  | Err err => fail (Wrapf "store quarantined object: %w" [] err)
  | Ok _ =>
    created ← attempt (records_Create record);
    match created with
    | Err err => _ ← attempt (objects_Delete id); fail (Wrapf "create quarantine record: %w" [] err)
    | Ok _ => mret record
    end
  end.

(** *** Scans: a record is returned along with the error *)

Notation answer := (QuarantineRecord * option error)%type.

Definition is_expired (record : QuarantineRecord) : W bool := at_ ← now; mret (After (UTC at_) (q_ExpiresAt record)).

(** A transition whose error is the answer. *)
Definition moved_to (record : QuarantineRecord) (status : string) (mutated : QuarantineRecord) (err : option error) : W answer :=
  moved ← attempt (transition record status mutated);
  match moved with
  | Err failed => mret (noRecord, Some failed)
  | Ok next => mret (next, err)
  end.

Definition failScan (record : QuarantineRecord) (cause : error) : W answer :=
  moved ← attempt (transition record QuarantineStatusScanFailed record);
  match moved with
  | Err failed => mret (noRecord, Some (Wrapf "%w; record state: %v" [] cause))
  | Ok next => mret (next, Some cause)
  end.

Definition incomplete (evidence : ScanEvidence) : bool :=
  (se_Scanner evidence =s "") || (se_EvidenceID evidence =s "") || IsZero (se_CompletedAt evidence) ||
  (se_Verdict evidence <>s ScanVerdictClean).

(** [body.Close], an operation that may fail. *)
Definition close : W unit := stmt (fun t => Ok (tt, t)).

Definition scan_content (record : QuarantineRecord) : W answer :=
  body ← attempt (objects_Get (q_ID record));
  match body with
  | Err err => failScan record (Wrapf "read quarantined object: %w" [] err)
  | Ok body =>
    evidence ← attempt (scanner_Scan (q_Key record) body);
    closed ← attempt close;
    match evidence, closed with
    | Err err, _ => failScan record (Wrapf "malware scan: %w" [] err)
    | Ok _, Err err => failScan record (Wrapf "close quarantined object: %w" [] err)
    | Ok evidence, Ok _ =>
      if se_Verdict evidence =s ScanVerdictMalicious then
        moved_to record QuarantineStatusRejected (record <| q_Scan := evidence |>)
          (Some (Errorf "malware scan detected malicious content" []))
      else if incomplete evidence then failScan record (Errorf "malware scan did not produce clean evidence" [])
      else moved_to record QuarantineStatusClean (record <| q_Scan := evidence |>) None
    end
  end.

Definition scan_record (record : QuarantineRecord) : W answer :=
  expired ← is_expired record;
  if (expired : bool) then
    moved_to record QuarantineStatusExpired record (Some (Errorf "quarantine object has expired" []))
  else if q_Status record <>s QuarantineStatusQuarantined then
    mret (noRecord, Some (Errorf "quarantine object is not scannable: %s" [FStr (q_Status record)]))
  else
    begun ← attempt (transition record QuarantineStatusScanning record);
    match begun with
    | Err err => mret (noRecord, Some err)
    | Ok record => scan_content record
    end.

Definition Scan (id : string) : W answer :=
  found ← attempt (records_Get id);
  match found with
  | Err err => mret (noRecord, Some err)
  | Ok record => scan_record record
  end.

(** *** Promotions *)

Notation promotion := (ObjectReceipt * QuarantineRecord * option error)%type.

(** [io.ReadAll] of a limited reader, which may fail, and [Close]. *)
Definition read_limited (body : string) (limit : Z) : W string := stmt (fun t => Ok (stake (Z.to_nat limit) body, t)).

(** The content, when it is complete and has the digest of the record. *)
Definition promotable_content (record : QuarantineRecord) : W (result string) :=
  body ← attempt (objects_Get (q_ID record));
  match body with
  | Err err => mret (Err (Wrapf "read quarantined object: %w" [] err))
  | Ok body =>
    payload ← attempt (read_limited body (q_Size record + 1));
    closed ← attempt close;
    match payload, closed with
    | Ok payload, Ok _ =>
      if negb (slen payload =? q_Size record) then mret (Err (Errorf "quarantined object could not be read completely" []))
      else if Sum256hex payload <>s q_SHA256 record then
        _ ← attempt (transition record QuarantineStatusRejected record);
        mret (Err (Errorf "quarantined object checksum changed" []))
      else mret (Ok payload)
    | _, _ => mret (Err (Errorf "quarantined object could not be read completely" []))
    end
  end.

(** The write to the target, or how the promotion ended before it. *)
Definition promote_content (record : QuarantineRecord) : W (ObjectReceipt + promotion) :=
  expired ← is_expired record;
  if (expired : bool) then
    moved ← attempt (transition record QuarantineStatusExpired record);
    match moved with
    | Err err => mret (inr (noReceipt, noRecord, Some err))
    | Ok _ => mret (inr (noReceipt, record, Some (Errorf "quarantine object has expired" [])))
    end
  else if q_Status record <>s QuarantineStatusClean then
    mret (inr (noReceipt, record, Some (Errorf "quarantine object is not promotable: %s" [FStr (q_Status record)])))
  else
    content ← promotable_content record;
    match content with
    | Err err => mret (inr (noReceipt, record, Some err))
    | Ok payload =>
      written ← attempt (target_PutGoverned (q_Key record) payload (q_PromotionOptions record));
      match written with
      | Ok receipt => mret (inl receipt)
      | Err err =>
        moved ← attempt (transition record QuarantineStatusPromotionFail record);
        match moved with
        | Err _ => mret (inr (noReceipt, record, Some (Wrapf "promote quarantined object: %w; record state: %v" [] err)))
        | Ok failed => mret (inr (noReceipt, failed, Some (Wrapf "promote quarantined object: %w" [] err)))
        end
      end
    end.

(** What follows the write. *)
Definition settle (record : QuarantineRecord) (receipt : ObjectReceipt) : W promotion :=
  let record := record <| q_PromotedVersionID := or_VersionID receipt |> in
  deleted ← attempt (objects_Delete (q_ID record));
  match deleted with
  | Err err =>
    moved ← attempt (transition record QuarantineStatusCleanupPending record);
    match moved with
    | Err _ => mret (receipt, record, Some (Wrapf "cleanup quarantined object: %w; record state: %v" [] err))
    | Ok pending => mret (receipt, pending, Some (Wrapf "cleanup quarantined object: %w" [] err))
    end
  | Ok _ =>
    moved ← attempt (transition record QuarantineStatusPromoted record);
    match moved with
    | Err err => mret (receipt, record, Some err)
    | Ok final => mret (receipt, final, None)
    end
  end.

Definition promote_record (record : QuarantineRecord) : W promotion :=
  written ← promote_content record;
  match written with
  | inr ended => mret ended
  | inl receipt => settle record receipt
  end.

Definition Promote (id : string) : W promotion :=
  found ← attempt (records_Get id);
  match found with
  | Err err => mret (noReceipt, noRecord, Some err)
  | Ok record => promote_record record
  end.

Definition Cleanup (id : string) : W answer :=
  found ← attempt (records_Get id);
  match found with
  | Err err => mret (noRecord, Some err)
  | Ok record =>
    if q_Status record <>s QuarantineStatusCleanupPending then
      mret (noRecord, Some (Errorf "quarantine object is not awaiting cleanup: %s" [FStr (q_Status record)]))
    else
      deleted ← attempt (objects_Delete id);
      match deleted with
      | Err err => mret (noRecord, Some err)
      | Ok _ => moved_to record QuarantineStatusPromoted record None
      end
  end.
End controller.

(** ** What the workers do to the stores *)

(** The uploads waiting, their records, what the scanner answered and what was
    written to the target. *)
Record View := mkView {
  v_objects : gmap string string;
  v_records : gmap string QuarantineRecord;
  v_scans : list (string * string * ScanEvidence);
  v_writes : list (string * string * ObjectWriteOptions)
}.
#[export] Instance View_eta : Eta View := fun v => mkView (v_objects v) (v_records v) (v_scans v) (v_writes v).

(** The content that a record describes. *)
Definition content_of (r : QuarantineRecord) (content : string) : Prop :=
  Sum256hex content = q_SHA256 r /\ slen content = q_Size r.

(** What a record says that no transition changes. *)
Definition upload (r : QuarantineRecord) : string * string * string * Z * string * Time * ObjectWriteOptions :=
  (q_ID r, q_Key r, q_ContentType r, q_Size r, q_SHA256 r, q_ExpiresAt r, q_PromotionOptions r).

(** The scanner was given the content of the record and answered, completely,
    that it is clean. *)
Definition scanned (r : QuarantineRecord) (v : View) : Prop :=
  incomplete (q_Scan r) = false /\ exists content, content_of r content /\ (q_Key r, content, q_Scan r) ∈ v_scans v.

Definition after_scan : list string :=
  [QuarantineStatusClean; QuarantineStatusPromotionFail; QuarantineStatusPromoted; QuarantineStatusCleanupPending].

(** The moves the controller makes. *)
Definition moves (from to : string) : bool :=
  ((to =s QuarantineStatusExpired) ||
   (from =s QuarantineStatusQuarantined) && (to =s QuarantineStatusScanning) ||
   (from =s QuarantineStatusScanning) && contains [QuarantineStatusScanFailed; QuarantineStatusRejected; QuarantineStatusClean] to ||
   (from =s QuarantineStatusClean) &&
     contains [QuarantineStatusRejected; QuarantineStatusPromotionFail; QuarantineStatusCleanupPending; QuarantineStatusPromoted] to ||
   (from =s QuarantineStatusCleanupPending) && (to =s QuarantineStatusPromoted)).

(** What a worker knows of a record it has read, for good. *)
Record known (r : QuarantineRecord) (v : View) : Prop := {
  kn_upload : exists current, v_records v !! q_ID r = Some current /\ upload current = upload r;
  kn_scanned : q_Status r ∈ after_scan -> scanned r v
}.

(** A step of a worker who may submit uploads under the identifiers [own]; with
    the move of a record, if it makes one. *)
Inductive act (own : string -> Prop) : View -> option (string * string * string) -> View -> Prop :=
| act_object id content v : own id -> v_records v !! id = None ->
    act own v None (v <| v_objects := partial_alter (fun _ => content) id (v_objects v) |>)
| act_create r v : own (q_ID r) -> v_records v !! q_ID r = None -> q_Status r = QuarantineStatusQuarantined ->
    (forall content, v_objects v !! q_ID r = Some content -> content_of r content) ->
    act own v None (v <| v_records := <[q_ID r := r]> (v_records v) |>)
| act_delete id v : act own v None (v <| v_objects := delete id (v_objects v) |>)
| act_move r next current v : known r v -> v_records v !! q_ID r = Some current -> q_Status current = q_Status r ->
    moves (q_Status r) (q_Status next) = true -> upload next = upload r -> (q_Status next ∈ after_scan -> scanned next v) ->
    act own v (Some (q_ID r, q_Status r, q_Status next)) (v <| v_records := <[q_ID r := next]> (v_records v) |>)
| act_scan entry v : act own v None (v <| v_scans := (v_scans v ++ [entry])%list |>)
| act_write r payload v : known r v -> scanned r v -> content_of r payload ->
    act own v None (v <| v_writes := (v_writes v ++ [(q_Key r, payload, q_PromotionOptions r)])%list |>).

(** Steps, with their moves. *)
Inductive acts (own : string -> Prop) : View -> list (string * string * string) -> View -> Prop :=
| as_done v : acts own v [] v
| as_more v1 o v2 l v3 : act own v1 o v2 -> acts own v2 l v3 -> acts own v1 (option_list o ++ l) v3.
Definition reaches (own : string -> Prop) (v v' : View) : Prop := exists l, acts own v l v'.

Lemma acts_app own v1 l1 v2 l2 v3 : acts own v1 l1 v2 -> acts own v2 l2 v3 -> acts own v1 (l1 ++ l2) v3.
Proof. induction 1; [done|]. intros A. rewrite <- app_assoc. eapply as_more; [done|by auto]. Qed.
#[export] Instance reaches_preorder own : PreOrder (reaches own).
Proof.
  split; [intros v; exists []; constructor|]. intros v1 v2 v3 (l1 & A) (l2 & B). exists (l1 ++ l2)%list. by eapply acts_app.
Qed.
Lemma reaches_act own v o v' : act own v o v' -> reaches own v v'.
Proof. intros A. exists (option_list o ++ [])%list. eapply as_more; [exact A|constructor]. Qed.

Lemma act_weaken (own own' : string -> Prop) v o v' : (forall id, own id -> own' id) -> act own v o v' -> act own' v o v'.
Proof.
  intros W []; [eapply act_object|eapply act_create|eapply act_delete|eapply act_move|eapply act_scan|eapply act_write]; eauto.
Qed.
Lemma reaches_weaken (own own' : string -> Prop) v v' : (forall id, own id -> own' id) -> reaches own v v' -> reaches own' v v'.
Proof. intros W (l & A). exists l. induction A; [constructor|]. eapply as_more; [by eapply act_weaken|done]. Qed.

(** *** What lasts *)

Lemma upload_id r r' : upload r = upload r' -> q_ID r = q_ID r'.
Proof. by intros [= ? ? ? ? ? ? ?]. Qed.

Lemma act_scans own v o v' x : act own v o v' -> x ∈ v_scans v -> x ∈ v_scans v'.
Proof. intros [] Hx; cbn; try done. set_solver. Qed.
Lemma act_records own v o v' id r : act own v o v' -> v_records v !! id = Some r ->
  exists r', v_records v' !! id = Some r' /\ upload r' = upload r.
Proof.
  intros [id' content v0 Ow N|r0 v0 Ow N St D|id' v0|r0 next current v0 Kn L St Mv Up Sc|entry v0|r0 payload v0 Kn Sc Ct] L0;
    cbn; try (by exists r).
  - destruct (decide (q_ID r0 = id)) as [<-|Ne]; [congruence|]. rewrite lookup_insert_ne by done. by exists r.
  - destruct (decide (q_ID r0 = id)) as [<-|Ne]; [|rewrite lookup_insert_ne by done; by exists r].
    rewrite lookup_insert_eq. exists next. split; [done|]. destruct Kn as [(cur & L1 & U) _]. congruence.
Qed.
Lemma known_act own v o v' r : act own v o v' -> known r v -> known r v'.
Proof.
  intros A [(cur & L & U) Sc]. split.
  - destruct (act_records own v o v' _ cur A L) as (r' & L' & U'). exists r'. split; [done|congruence].
  - intros Af. destruct (Sc Af) as (I & content & C & S). split; [done|]. exists content. split; [done|]. by eapply act_scans.
Qed.
Lemma known_reaches own v v' r : reaches own v v' -> known r v -> known r v'.
Proof. intros (l & A). induction A; [done|]. intros K. apply IHA. by eapply known_act. Qed.
Lemma scanned_reaches own v v' r : reaches own v v' -> scanned r v -> scanned r v'.
Proof.
  intros (l & A) (I & content & C & S). split; [done|]. exists content. split; [done|].
  induction A; [done|]. apply IHA. by eapply act_scans.
Qed.

(** Records stay under their identifiers and describe what waits; those past the
    scan were scanned. *)
Record consistent (v : View) : Prop := {
  cn_known : forall id r, v_records v !! id = Some r -> q_ID r = id /\ known r v;
  cn_objects : forall id r content, v_records v !! id = Some r -> v_objects v !! id = Some content -> content_of r content
}.

Lemma content_upload r r' content : upload r = upload r' -> content_of r content -> content_of r' content.
Proof. intros [= ? ? ? ? ? ? ?] [C1 C2]. split; congruence. Qed.

Lemma consistent_act own v o v' : act own v o v' -> consistent v -> consistent v'.
Proof.
  intros A [Kn Ob]. assert (Keep : forall id r, v_records v !! id = Some r -> q_ID r = id /\ known r v').
  { intros id r L. destruct (Kn id r L). split; [done|]. by eapply known_act. }
  destruct A as [id0 content0 v0 Ow N|r0 v0 Ow N St D|id0 v0|r0 next current v0 Kr L0 St Mv Up Sc|entry v0|r0 payload v0 Kr Sc Ct];
    split; cbn in *; try exact Keep; try exact Ob.
  - intros id r content L C. destruct (decide (id = id0)) as [->|Ne]; [congruence|].
    rewrite lookup_partial_alter_ne in C by done. by eapply Ob.
  - intros id r L. destruct (decide (q_ID r0 = id)) as [<-|Ne]; [|rewrite lookup_insert_ne in L by done; by apply Keep].
    rewrite lookup_insert_eq in L. injection L as <-. split; [done|]. split.
    + exists r0. cbn. by rewrite lookup_insert_eq.
    + rewrite St. intros Af. exfalso. revert Af. apply (bool_decide_unpack _). vm_compute. exact I.
  - intros id r content L C. destruct (decide (q_ID r0 = id)) as [<-|Ne].
    + rewrite lookup_insert_eq in L. injection L as <-. by apply D.
    + rewrite lookup_insert_ne in L by done. by eapply Ob.
  - intros id r content L C. apply lookup_delete_Some in C as [_ C]. by eapply Ob.
  - intros id r L. destruct (decide (q_ID r0 = id)) as [<-|Ne]; [|rewrite lookup_insert_ne in L by done; by apply Keep].
    rewrite lookup_insert_eq in L. injection L as <-. split; [by apply upload_id|]. split.
    + exists next. cbn. split; [|done]. by rewrite (upload_id _ _ Up), lookup_insert_eq.
    + intros Af. destruct (Sc Af) as (I & content & C & X). split; [done|]. by exists content.
  - intros id r content L C. destruct (decide (q_ID r0 = id)) as [<-|Ne].
    + rewrite lookup_insert_eq in L. injection L as <-. destruct Kr as [(cur & L1 & U1) _].
      apply (content_upload cur); [congruence|]. eapply Ob; [|exact C]. congruence.
    + rewrite lookup_insert_ne in L by done. by eapply Ob.
Qed.

Lemma consistent_reaches own v v' : reaches own v v' -> consistent v -> consistent v'.
Proof. intros (l & A). induction A; [done|]. intros C. apply IHA. by eapply consistent_act. Qed.

(** What is in the target was scanned. *)
Definition write_ok (v : View) (w : string * string * ObjectWriteOptions) : Prop :=
  exists r current, v_records v !! q_ID r = Some current /\ upload current = upload r /\ scanned r v /\
    w.1.1 = q_Key r /\ content_of r w.1.2 /\ w.2 = q_PromotionOptions r.

Lemma write_ok_act own v o v' w : act own v o v' -> write_ok v w -> write_ok v' w.
Proof.
  intros A (r & cur & L & U & (I & content & C & S) & W1 & W2 & W3). destruct (act_records own v o v' _ cur A L) as (cur' & L' & U').
  exists r, cur'. split_and!; [done|congruence| |done..]. split; [done|]. exists content. split; [done|]. by eapply act_scans.
Qed.

Lemma writes_ok_reaches own v v' : reaches own v v' -> Forall (write_ok v) (v_writes v) -> Forall (write_ok v') (v_writes v').
Proof.
  intros (l & A). induction A as [|v1 o v2 l v3 A As IH]; [done|]. intros F. apply IH.
  assert (F' : Forall (write_ok v2) (v_writes v1)) by (eapply Forall_impl; [exact F|]; intros w; by eapply write_ok_act).
  destruct A as [| | | | |r payload v Kn Sc Ct]; try exact F'. cbn. apply Forall_app. split; [exact F'|]. constructor; [|constructor].
  destruct Kn as [(cur & L & U) _]. by exists r, cur.
Qed.

(** *** One worker scans a record *)

Definition begins (id : string) (m : string * string * string) : bool :=
  (m.1.1 =s id) && (m.1.2 =s QuarantineStatusQuarantined).
Definition left_quarantine (id : string) (v : View) : Prop :=
  exists r, v_records v !! id = Some r /\ q_Status r <> QuarantineStatusQuarantined.

Lemma moves_away from to : moves from to = true -> to <> QuarantineStatusQuarantined.
Proof.
  intros M ->. unfold moves in M. apply orb_true_iff in M as [M|M]; [|by rewrite andb_false_r in M].
  repeat (apply orb_true_iff in M as [M|M]; [|by rewrite andb_false_r in M]); by rewrite ?andb_false_r in M.
Qed.

Lemma act_left own v o v' id : act own v o v' -> left_quarantine id v ->
  left_quarantine id v' /\ (forall m, o = Some m -> begins id m = false).
Proof.
  intros A (r & L & N). destruct A as [| r0 v0 Ow L0 | |r0 next current v0 Kn L0 St Mv Up Sc| |]; try (split; [by exists r|done]).
  - split; [|done]. exists r. cbn. destruct (decide (q_ID r0 = id)) as [<-|Ne]; [congruence|]. by rewrite lookup_insert_ne.
  - split.
    + unfold left_quarantine. cbn. destruct (decide (q_ID r0 = id)) as [<-|Ne].
      * rewrite lookup_insert_eq. exists next. split; [done|]. by eapply moves_away.
      * rewrite lookup_insert_ne by done. by exists r.
    + intros m [= <-]. unfold begins. cbn. destruct (String.eqb_spec (q_ID r0) id) as [<-|]; [|done]. cbn.
      apply seqb_neq. congruence.
Qed.

Lemma act_begins own v o v' id m : act own v o v' -> o = Some m -> begins id m = true -> left_quarantine id v'.
Proof.
  intros A -> B. inversion A as [| | |r next current v0 Kn L St Mv Up Sc| |]; subst. unfold begins in B. cbn in B.
  apply andb_prop in B as [B1 B2]. apply String.eqb_eq in B1 as <-. exists next. cbn. rewrite lookup_insert_eq. split; [done|]. by eapply moves_away.
Qed.

Lemma acts_left own v l v' id : acts own v l v' -> left_quarantine id v -> List.filter (begins id) l = [].
Proof.
  induction 1 as [|v1 o v2 l v3 A As IH]; [done|]. intros L. destruct (act_left own v1 o v2 id A L) as [L' N].
  rewrite List.filter_app, IH by done. destruct o as [m|]; [|done]. cbn. by rewrite (N m).
Qed.

Lemma acts_begin_once own v l v' id : acts own v l v' -> llen (List.filter (begins id) l) <= 1.
Proof.
  induction 1 as [|v1 o v2 l v3 A As IH]; [done|]. rewrite List.filter_app.
  destruct o as [m|]; [|exact IH]. cbn. destruct (begins id m) eqn:B; [|exact IH].
  cbn. rewrite (acts_left own v2 l v3 id) by (done || by eapply act_begins). done.
Qed.

(** ** The interfaces, shared with others *)

Section shared.
Context {T : Type} (view : T -> View) (others : string -> Prop).

(** An operation takes its effect at some moment, and the others go on before
    and after it. *)
Definition amid {A} (m : M T A) (effect : result A -> View -> View -> Prop) : Prop :=
  forall e n t r n' t', m e n t = (r, n', t') -> exists v1 v2,
    reaches others (view t) v1 /\ effect r v1 v2 /\ reaches others v2 (view t').

(** What the interfaces promise: the records are compared and swapped
    atomically; what is put or deleted may or may not be there after an error. *)
Class LawfulStores `{QuarantineStores T} := {
  law_objects_Put id content : amid (objects_Put id content) (fun r v1 v2 => match r with
    | Ok _ => v2 = v1 <| v_objects := partial_alter (fun _ => Some content) id (v_objects v1) |>
    | Err _ => exists left, v2 = v1 <| v_objects := partial_alter (fun _ => left) id (v_objects v1) |>
    end);
  law_objects_Get id : amid (objects_Get id) (fun r v1 v2 => v2 = v1 /\ forall content, r = Ok content -> v_objects v1 !! id = Some content);
  law_objects_Delete id : amid (objects_Delete id) (fun r v1 v2 =>
    v2 = v1 <| v_objects := delete id (v_objects v1) |> \/ is_ok r = false /\ v2 = v1);
  law_records_Create r : amid (records_Create r) (fun a v1 v2 => match a with
    | Ok _ => v2 = v1 <| v_records := <[q_ID r := r]> (v_records v1) |>
    | Err _ => v2 = v1
    end);
  law_records_Get id : amid (records_Get id) (fun r v1 v2 => v2 = v1 /\ forall q, r = Ok q -> v_records v1 !! id = Some q);
  law_CompareAndSwap id expected next : amid (records_CompareAndSwap id expected next) (fun r v1 v2 => match r with
    | Ok _ => exists current, v_records v1 !! id = Some current /\ q_Status current = expected /\
                v2 = v1 <| v_records := <[id := next]> (v_records v1) |>
    | Err _ => v2 = v1
    end);
  law_Scan key content : amid (scanner_Scan key content) (fun r v1 v2 => match r with
    | Ok evidence => v2 = v1 <| v_scans := (v_scans v1 ++ [(key, content, evidence)])%list |>
    | Err _ => v2 = v1
    end);
  law_PutGoverned key payload options : amid (target_PutGoverned key payload options) (fun r v1 v2 =>
    v2 = v1 <| v_writes := (v_writes v1 ++ [(key, payload, options)])%list |> \/ is_ok r = false /\ v2 = v1)
}.

Context `{LawfulStores}.
Context (DetectContentType : string -> string) (maxSize : Z) (ttl : Duration).
Context (own : string -> Prop) (own_others : forall id, others id -> own id) (e : Env).

(** What an operation does, with what holds when it ends. *)
Definition does {A} (P : View -> Prop) (m : M T A) (Q : result A -> View -> Prop) : Prop :=
  forall n t r n' t', consistent (view t) -> P (view t) -> m e n t = (r, n', t') ->
  reaches own (view t) (view t') /\ Q r (view t').
(** What the others leave true. *)
Definition stable (P : View -> Prop) : Prop := forall v v', reaches others v v' -> P v -> P v'.

Lemma does_amid {A} (m : M T A) effect P Q : amid m effect -> stable P -> (forall r, stable (Q r)) ->
  (forall r v1 v2, consistent v1 -> P v1 -> effect r v1 v2 -> reaches own v1 v2 /\ Q r v2) -> does P m Q.
Proof.
  intros Am SP SQ Ef n t r n' t' C Pt R. destruct (Am e n t r n' t' R) as (v1 & v2 & R1 & E & R2).
  assert (C1 : consistent v1) by (by eapply consistent_reaches). destruct (Ef r v1 v2 C1 (SP _ _ R1 Pt) E) as [R3 Qv].
  split; [|by eapply SQ].
  transitivity v1; [by eapply reaches_weaken|]. transitivity v2; [done|by eapply reaches_weaken].
Qed.

Lemma does_bind {A B} (m : M T A) (f : result A -> M T B) P Q R : does P m Q -> (forall r, does (Q r) (f r) R) ->
  does P (attempt m ≫= f) R.
Proof.
  intros Dm Df n t r n' t' C Pt E. unfold mbind, M_bind, attempt in E. destruct (m e n t) as [[a k] t1] eqn:E1.
  destruct (Dm n t a k t1 C Pt E1) as [R1 Q1]. destruct (Df a k t1 r n' t') as [R2 Q2]; [by eapply consistent_reaches|done..|].
  split; [by transitivity (view t1)|done].
Qed.

(** A step that only reads leaves everything; its errors end the operation. *)
Lemma does_reads {A B} (m : M T A) (f : A -> M T B) P Q : reads m -> (forall a, does P (f a) Q) ->
  (forall err v, P v -> Q (Err err) v) -> does P (m ≫= f) Q.
Proof.
  intros Rd Df Qe n t r n' t' C Pt E. unfold mbind, M_bind in E. specialize (Rd e n t).
  destruct (m e n t) as [[[a|err] k] t1]; cbn in Rd; subst; [by eapply Df|]. injection E as <- _ <-. split; [done|by apply Qe].
Qed.
Lemma does_ret {A} (a : A) P Q : (forall v, P v -> Q (Ok a) v) -> does P (mret a) Q.
Proof. intros Qa n t r n' t' _ Pt [= <- _ <-]. split; [done|by apply Qa]. Qed.
Lemma does_fail {A} err P (Q : result A -> View -> Prop) : (forall v, P v -> Q (Err err) v) -> does P (fail err) Q.
Proof. intros Qa n t r n' t' _ Pt [= <- _ <-]. split; [done|by apply Qa]. Qed.
Lemma does_weaken {A} (m : M T A) P Q P' Q' : does P m Q -> (forall v, P' v -> P v) -> (forall r v, Q r v -> Q' r v) -> does P' m Q'.
Proof. intros D WP WQ n t r n' t' C Pt E. destruct (D n t r n' t' C (WP _ Pt) E) as [R1 Q1]. split; [done|by apply WQ]. Qed.

Notation top := (fun (_ : result _) (_ : View) => True).
Lemma known_stable r : stable (known r).
Proof. intros v v'. apply known_reaches. Qed.

(** *** Transitions *)

Lemma CAS_does r next : moves (q_Status r) (q_Status next) = true -> upload next = upload r ->
  does (fun v => known r v /\ (q_Status next ∈ after_scan -> scanned next v))
    (records_CompareAndSwap (q_ID r) (q_Status r) next) (fun a v => is_ok a = true -> known next v).
Proof.
  intros Mv Up. eapply does_amid; [apply law_CompareAndSwap| | |].
  - intros v v' R [K Sc]. split; [by eapply known_reaches|]. intros Af. eapply scanned_reaches; [exact R|by apply Sc].
  - intros a v v' R K Ok_. by eapply known_reaches, K.
  - intros [u|err] v1 v2 C [K Sc] E; [|subst; by split].
    destruct E as (cur & L & St & ->).
    assert (A : act own v1 (Some (q_ID r, q_Status r, q_Status next)) (v1 <| v_records := <[q_ID r := next]> (v_records v1) |>))
      by (by eapply act_move).
    split; [by eapply reaches_act|]. intros _. split.
    + exists next. cbn. split; [|done]. by rewrite (upload_id _ _ Up), lookup_insert_eq.
    + intros Af. destruct (Sc Af) as (Ic & content & Cc & X). split; [done|]. by exists content.
Qed.

Lemma transition_does r status mutated : moves (q_Status r) status = true -> upload mutated = upload r ->
  does (fun v => known r v /\ (status ∈ after_scan -> scanned (mutated <| q_Status := status |>) v))
    (transition r status mutated)
    (fun a v => forall next, a = Ok next -> next = mutated <| q_Status := status |> /\ known next v).
Proof.
  intros Mv Up. unfold transition. eapply does_bind; [exact (CAS_does r (mutated <| q_Status := status |>) Mv Up)|]. intros [u|err].
  - apply does_ret. intros v K next [= <-]. split; [done|by apply K].
  - by apply does_fail.
Qed.

Lemma moved_to_does r status mutated err : moves (q_Status r) status = true -> upload mutated = upload r ->
  does (fun v => known r v /\ (status ∈ after_scan -> scanned (mutated <| q_Status := status |>) v))
    (moved_to r status mutated err) top.
Proof.
  intros Mv Up. unfold moved_to. eapply does_bind; [exact (transition_does r status mutated Mv Up)|]. intros [next|failed]; by apply does_ret.
Qed.

(** A move to a status that no scan is needed for. *)
Lemma plain_move r status mutated err : moves (q_Status r) status = true -> upload mutated = upload r ->
  bool_decide (status ∈ after_scan) = false -> does (known r) (moved_to r status mutated err) top.
Proof.
  intros Mv Up N. eapply does_weaken; [exact (moved_to_does r status mutated err Mv Up)| |done].
  intros v K. split; [done|]. intros Af. by apply bool_decide_eq_false in N.
Qed.
Lemma plain_transition {B} r status (f : result QuarantineRecord -> M T B) Q : moves (q_Status r) status = true ->
  bool_decide (status ∈ after_scan) = false -> (forall a, does (fun _ => True) (f a) Q) ->
  does (known r) (attempt (transition r status r) ≫= f) Q.
Proof.
  intros Mv N Df. eapply does_bind.
  - eapply does_weaken; [exact (transition_does r status r Mv eq_refl)| |].
    + intros v K. split; [done|]. intros Af. by apply bool_decide_eq_false in N.
    + intros a v _. exact I.
  - exact Df.
Qed.

(** *** Scans *)

Lemma failScan_does r cause : q_Status r = QuarantineStatusScanning -> does (known r) (failScan r cause) top.
Proof. intros St. unfold failScan. apply plain_transition; [by rewrite St|done|]. intros [|]; by apply does_ret. Qed.

Lemma get_does r : does (known r) (objects_Get (q_ID r))
  (fun a v => known r v /\ forall content, a = Ok content -> content_of r content).
Proof.
  eapply does_amid; [apply law_objects_Get|apply known_stable|intros a v v' R [K C]; split; [by eapply known_reaches|done]|].
  intros a v1 v2 C K [-> G]. split; [done|]. split; [done|]. intros content Ec. destruct K as [(cur & L & U) _].
  apply (content_upload cur); [done|]. eapply cn_objects; [exact C|exact L|by apply G].
Qed.

Lemma scan_does r content : does (known r) (scanner_Scan (q_Key r) content)
  (fun a v => known r v /\ forall evidence, a = Ok evidence -> (q_Key r, content, evidence) ∈ v_scans v).
Proof.
  eapply does_amid; [apply law_Scan|apply known_stable| |].
  - intros a v v' R [K C]. split; [by eapply known_reaches|]. intros ev Ea. specialize (C ev Ea).
    destruct R as (l & A). induction A; [done|]. apply IHA; [by eapply known_act|by eapply act_scans].
  - intros [ev|err] v1 v2 C K E; [|subst; by split].
    subst. assert (A : act own v1 None (v1 <| v_scans := (v_scans v1 ++ [(q_Key r, content, ev)])%list |>)) by apply act_scan.
    split; [by eapply reaches_act|]. split; [by eapply known_act|]. intros ev0 [= <-]. cbn. set_solver.
Qed.

Lemma close_reads : reads (@close T).
Proof. intros e0 n t. unfold close, stmt. by destruct (faults e0 n). Qed.
Lemma attempt_is_read {A} (m : M T A) : reads m -> reads (attempt m).
Proof. intros Rd. apply keeps_reads. intros t. by apply keeps_attempt, reads_keeps. Qed.
Lemma expired_reads r : reads (is_expired (T := T) r).
Proof. by intros e0 n t. Qed.

(** A fact that the condition fixes whatever the state is. *)
Lemma does_pure {A} (phi : Prop) P (m : M T A) Q : (forall v, P v -> phi) -> (phi -> does P m Q) -> does P m Q.
Proof. intros Ph D n t r n' t' C Pt E. exact (D (Ph _ Pt) n t r n' t' C Pt E). Qed.

Definition answered (r : QuarantineRecord) (content : string) (evidence : ScanEvidence) (v : View) : Prop :=
  known r v /\ (q_Key r, content, evidence) ∈ v_scans v.

Lemma verdict_does r content evidence : q_Status r = QuarantineStatusScanning -> content_of r content ->
  does (answered r content evidence)
    (if se_Verdict evidence =s ScanVerdictMalicious then
       moved_to r QuarantineStatusRejected (r <| q_Scan := evidence |>) (Some (Errorf "malware scan detected malicious content" []))
     else if incomplete evidence then failScan r (Errorf "malware scan did not produce clean evidence" [])
     else moved_to r QuarantineStatusClean (r <| q_Scan := evidence |>) None) top.
Proof.
  intros St Ct. case_match.
  - eapply does_weaken; [apply plain_move; [by rewrite St|done|done]|by intros v [K _]|done].
  - destruct (incomplete evidence) eqn:Ic.
    + eapply does_weaken; [by apply failScan_does|by intros v [K _]|done].
    + eapply does_weaken; [apply moved_to_does; [by rewrite St|done]| |done].
      intros v [K X]. split; [done|]. intros _. split; [done|]. by exists content.
Qed.

Lemma scan_content_does r : q_Status r = QuarantineStatusScanning -> does (known r) (scan_content r) top.
Proof.
  intros St. assert (F : forall cause (P : View -> Prop), (forall v, P v -> known r v) -> does P (failScan r cause) top).
  { intros cause P W. eapply does_weaken; [by apply failScan_does|exact W|done]. }
  unfold scan_content. eapply does_bind; [apply get_does|]. intros [content|err]; [|apply F; by intros v [K _]].
  apply (does_pure (content_of r content)); [intros v [_ C]; by apply C|]. intros Ct.
  eapply does_bind; [eapply does_weaken; [apply (scan_does r content)|by intros v [K _]|intros a v K; exact K]|].
  intros evidence. apply does_reads; [apply attempt_is_read, close_reads| |done]. intros closed.
  destruct evidence as [evidence|err]; [destruct closed as [u|err]|].
  - eapply does_weaken; [by apply verdict_does|intros v [K X]; split; [done|by apply X]|done].
  - apply F. by intros v [K _].
  - apply F. by intros v [K _].
Qed.

Lemma scan_record_does r : does (known r) (scan_record r) top.
Proof.
  unfold scan_record. apply does_reads; [apply expired_reads| |done]. intros expired.
  destruct expired; [by apply plain_move|]. case_match eqn:St; [by apply does_ret|].
  apply negb_false_iff, String.eqb_eq in St. eapply does_bind.
  - eapply does_weaken; [apply (transition_does r QuarantineStatusScanning r); [by rewrite St|done]| |intros a v K; exact K].
    intros v K. split; [done|]. intros Af. exfalso. revert Af. apply (bool_decide_unpack _). vm_compute. exact I.
  - intros [next|err]; [|by apply does_ret]. apply (does_pure (q_Status next = QuarantineStatusScanning)).
    + intros v K. by destruct (K next eq_refl) as [-> _].
    + intros Sn. eapply does_weaken; [by apply scan_content_does|intros v K; by apply K|done].
Qed.

Lemma records_does id : does (fun _ => True) (records_Get id) (fun a v => forall r, a = Ok r -> q_ID r = id /\ known r v).
Proof.
  eapply does_amid; [apply law_records_Get|done| |].
  - intros a v v' R K r E. destruct (K r E). split; [done|]. by eapply known_reaches.
  - intros a v1 v2 C _ [-> G]. split; [done|]. intros r E. apply (cn_known _ C). by apply G.
Qed.
Lemma found_does {B} id (f : result QuarantineRecord -> M T B) Q : (forall r, q_ID r = id -> does (known r) (f (Ok r)) Q) ->
  (forall err, does (fun _ => True) (f (Err err)) Q) -> does (fun _ => True) (attempt (records_Get id) ≫= f) Q.
Proof.
  intros Df De. eapply does_bind; [apply records_does|]. intros [r|err].
  - apply (does_pure (q_ID r = id)); [intros v K; by destruct (K r eq_refl)|]. intros Id.
    eapply does_weaken; [by apply Df|intros v K; by apply K|done].
  - by eapply does_weaken; [apply De| |].
Qed.

Lemma Scan_does id : does (fun _ => True) (Scan id) top.
Proof. apply found_does; [intros r _; apply scan_record_does|intros err; by apply does_ret]. Qed.

(** *** Promotions *)

(** What the worker who promotes knows. *)
Definition promotable (r : QuarantineRecord) (v : View) : Prop := known r v /\ scanned r v.
Lemma promotable_stable r : stable (promotable r).
Proof. intros v v' R [K S]. split; [by eapply known_reaches|by eapply scanned_reaches]. Qed.

(** What a promotion writes when it moves the record on. *)
Lemma promoted_does {B} r status (f : result QuarantineRecord -> M T B) Q : q_Status r = QuarantineStatusClean ->
  moves QuarantineStatusClean status = true -> (forall a, does (fun _ => True) (f a) Q) ->
  does (promotable r) (attempt (transition r status r) ≫= f) Q.
Proof.
  intros St Mv Df. eapply does_bind; [|exact Df]. eapply does_weaken; [apply (transition_does r status r); [by rewrite St|done]| |done].
  intros v [K S]. by split.
Qed.

Lemma promotable_content_does r : q_Status r = QuarantineStatusClean -> does (promotable r) (promotable_content r)
  (fun a v => forall payload, a = Ok (Ok payload) -> content_of r payload /\ promotable r v).
Proof.
  intros St. unfold promotable_content. eapply does_bind.
  - eapply does_amid; [apply law_objects_Get|apply promotable_stable|intros a; exact (promotable_stable r)|].
    by intros a v1 v2 C K [-> _].
  - intros [body|err]; [|by apply does_ret]. apply does_reads; [apply attempt_is_read| |done].
    { intros e0 n t. unfold read_limited, stmt. by destruct (faults e0 n). }
    intros payload. apply does_reads; [apply attempt_is_read, close_reads| |done]. intros closed.
    destruct payload as [payload|err]; [|by apply does_ret]. destruct closed as [u|err]; [|by apply does_ret].
    case_match eqn:Sz; [by apply does_ret|]. case_match eqn:Dg.
    + apply promoted_does; [done..|]. intros [|]; by apply does_ret.
    + apply does_ret. intros v K p [= <-]. split; [|done]. apply negb_false_iff in Sz, Dg. split; [by apply String.eqb_eq|by apply Z.eqb_eq].
Qed.

Lemma write_does r payload : content_of r payload ->
  does (promotable r) (target_PutGoverned (q_Key r) payload (q_PromotionOptions r)) (fun _ => promotable r).
Proof.
  intros Ct. eapply does_amid; [apply law_PutGoverned|apply promotable_stable|intros a; exact (promotable_stable r)|].
  intros a v1 v2 C [K S] [->|[_ ->]]; [|by split].
  assert (A : act own v1 None (v1 <| v_writes := (v_writes v1 ++ [(q_Key r, payload, q_PromotionOptions r)])%list |>)) by (by apply act_write).
  split; [by eapply reaches_act|]. split; [by eapply known_act|]. by eapply scanned_reaches; [eapply reaches_act|].
Qed.

(** An operation whose error ends the rest. *)
Lemma does_then {A B} (m : M T A) (f : A -> M T B) P Q R : does P m Q -> (forall a, does (Q (Ok a)) (f a) R) ->
  (forall err v, Q (Err err) v -> R (Err err) v) -> does P (m ≫= f) R.
Proof.
  intros Dm Df De n t r n' t' C Pt E. unfold mbind, M_bind in E. destruct (m e n t) as [[a k] t1] eqn:E1.
  destruct (Dm n t a k t1 C Pt E1) as [R1 Q1]. destruct a as [a|err].
  - destruct (Df a k t1 r n' t') as [R2 Q2]; [by eapply consistent_reaches|done..|]. split; [by transitivity (view t1)|done].
  - injection E as <- _ <-. split; [done|by apply De].
Qed.

Lemma promote_content_does r : does (known r) (promote_content r)
  (fun a v => forall receipt, a = Ok (inl receipt) -> q_Status r = QuarantineStatusClean /\ promotable r v).
Proof.
  unfold promote_content. apply does_reads; [apply expired_reads| |done]. intros expired. destruct expired.
  { apply plain_transition; [done|done|]. intros [|]; by apply does_ret. }
  case_match eqn:St; [by apply does_ret|]. apply negb_false_iff, String.eqb_eq in St.
  eapply does_then; [| |done].
  - eapply does_weaken; [by apply promotable_content_does| |intros a v K; exact K].
    intros v K. split; [done|]. apply K. rewrite St. apply (bool_decide_unpack _). vm_compute. exact I.
  - intros [payload|err]; [|by apply does_ret]. apply (does_pure (content_of r payload)); [intros v K; by apply (K payload)|]. intros Ct.
    eapply does_bind; [eapply does_weaken; [by apply write_does|intros v K; by apply (K payload)|intros a v K; exact K]|].
    intros [receipt|err].
    + apply does_ret. intros v K _ _. by split.
    + apply promoted_does; [done..|]. intros [|]; by apply does_ret.
Qed.

Lemma delete_does id P : stable P -> (forall v l, P v -> P (v <| v_objects := l |>)) -> does P (objects_Delete id) (fun _ => P).
Proof.
  intros SP Ks. eapply does_amid; [apply law_objects_Delete|exact SP|by intros a|].
  intros a v1 v2 C Pv [->|[_ ->]]; [|done]. split; [eapply reaches_act, act_delete|by apply Ks].
Qed.

Lemma promotable_objects r v l : promotable r v -> promotable r (v <| v_objects := l |>).
Proof. by intros [[U S] Sc]. Qed.

Lemma settle_does r receipt : q_Status r = QuarantineStatusClean -> does (promotable r) (settle r receipt) top.
Proof.
  intros St. set (r' := r <| q_PromotedVersionID := or_VersionID receipt |>).
  assert (W : forall v, promotable r v -> promotable r' v) by (by intros v [[U S] Sc]).
  apply (does_weaken _ (promotable r') top); [|exact W|done]. unfold settle. fold r'. eapply does_bind.
  - apply (delete_does (q_ID r') (promotable r')); [apply promotable_stable|apply promotable_objects].
  - intros [u|err]; (apply promoted_does; [done|done|]; intros [|]; by apply does_ret).
Qed.

Lemma Promote_does id : does (fun _ => True) (Promote id) top.
Proof.
  apply found_does; [intros r _|intros err; by apply does_ret]. eapply does_then; [apply promote_content_does| |done].
  intros [receipt|ended]; [|by apply does_ret]. apply (does_pure (q_Status r = QuarantineStatusClean)); [intros v K; by apply (K receipt)|].
  intros St. eapply does_weaken; [by apply settle_does|intros v K; by apply (K receipt)|done].
Qed.

Lemma Cleanup_does id : does (fun _ => True) (Cleanup id) top.
Proof.
  apply found_does; [intros r <-|intros err; by apply does_ret]. case_match eqn:St; [by apply does_ret|].
  apply negb_false_iff, String.eqb_eq in St. eapply does_bind; [apply (delete_does (q_ID r) (known r)); [apply known_stable|by intros v l []]|].
  intros [u|err]; [|by apply does_ret].
  eapply does_weaken; [apply moved_to_does; [by rewrite St|done]| |done].
  intros v K. split; [done|]. intros _. change (scanned r v). apply K. rewrite St. apply (bool_decide_unpack _). vm_compute. exact I.
Qed.

(** *** Submissions *)

(** The identifiers that [crypto/rand] draws are the worker's own, and new. *)
Definition fresh (v : View) : Prop := forall n, let id := EncodeToString (random_bytes e n 16) in
  own id /\ ~ others id /\ v_records v !! id = None.

(** No other worker submits under an identifier that is not theirs. *)
Lemma stable_new id : ~ others id -> stable (fun v => v_records v !! id = None).
Proof.
  intros No v v' (l & A). induction A as [|v1 o v2 l v3 A As IH]; [done|]. intros N. apply IH.
  destruct A as [| r0 v0 Ow L0 | |r0 next cur v0 Kn L0| |]; cbn; try done.
  - destruct (decide (q_ID r0 = id)) as [<-|Ne]; [done|by rewrite lookup_insert_ne].
  - destruct (decide (q_ID r0 = id)) as [<-|Ne]; [congruence|by rewrite lookup_insert_ne].
Qed.

(** What waits under a new identifier is the payload, as long as it waits. *)
Definition waiting (id payload : string) (v : View) : Prop :=
  v_records v !! id = None /\ (forall content, v_objects v !! id = Some content -> content = payload).
Lemma waiting_stable id payload : ~ others id -> stable (waiting id payload).
Proof.
  intros No v v' R [N O]. split; [by eapply stable_new|]. destruct R as (l & A).
  induction A as [|v1 o v2 l v3 A As IH]; [done|]. apply IH.
  - apply (stable_new id No v1 v2); [by eapply reaches_act|done].
  - destruct A as [id0 content0 v0 Ow N0|r0 v0| id0 v0| | |]; cbn; try done.
    + intros content. rewrite lookup_partial_alter_ne by congruence. apply O.
    + intros content L. apply lookup_delete_Some in L as [_ L]. by apply O.
Qed.

Lemma put_does id payload : own id -> ~ others id ->
  does (fun v => v_records v !! id = None) (objects_Put id payload) (fun a v => is_ok a = true -> waiting id payload v).
Proof.
  intros Ow No. eapply does_amid; [apply law_objects_Put|by apply stable_new| |].
  - intros a v v' R K Ok_. eapply waiting_stable; [done|exact R|by apply K].
  - assert (A : forall v left, v_records v !! id = None ->
      reaches own v (v <| v_objects := partial_alter (fun _ => left) id (v_objects v) |>)) by (intros; by eapply reaches_act, act_object).
    intros [u|err] v1 v2 C N; [intros ->; split; [by apply A|]|intros [left ->]; by split; [apply A|]].
    intros _. split; [done|]. cbn. intros content. rewrite lookup_partial_alter_eq. by intros [= ->].
Qed.

Lemma create_does r payload : own (q_ID r) -> ~ others (q_ID r) -> q_Status r = QuarantineStatusQuarantined -> content_of r payload ->
  does (waiting (q_ID r) payload) (records_Create r) (fun _ _ => True).
Proof.
  intros Ow No St Ct. eapply does_amid; [apply law_records_Create|by apply waiting_stable|done|].
  intros [u|err] v1 v2 C [N W] E; [|by subst]. subst. split; [|done]. eapply reaches_act, act_create; [done..|].
  intros content L. by rewrite (W content L).
Qed.

Lemma record_does r payload : own (q_ID r) -> ~ others (q_ID r) -> q_Status r = QuarantineStatusQuarantined -> content_of r payload ->
  does (fun v => v_records v !! q_ID r = None)
    (put ← attempt (objects_Put (q_ID r) payload);
     match put with
     | Err err => fail (Wrapf "store quarantined object: %w" [] err)
     | Ok _ =>
       created ← attempt (records_Create r);
       match created with
       | Err err => _ ← attempt (objects_Delete (q_ID r)); fail (Wrapf "create quarantine record: %w" [] err)
       | Ok _ => mret r
       end
     end) top.
Proof.
  intros Ow No St Ct. eapply does_bind; [by apply put_does|]. intros [u|err]; [|by apply does_fail].
  apply (does_weaken _ (waiting (q_ID r) payload) top); [|intros v K; by apply K|done].
  eapply does_bind; [by apply create_does|]. intros [u'|err]; [by apply does_ret|].
  eapply does_bind; [by apply (delete_does _ (fun _ => True))|]. intros a. by apply does_fail.
Qed.

Lemma new_id_does {B} (f : string -> M T B) P Q : (forall n, does P (f (EncodeToString (random_bytes e n 16))) Q) ->
  (forall err v, P v -> Q (Err err) v) -> does P (newQuarantineID ≫= f) Q.
Proof.
  intros Df De n t r n' t' C Pt E. unfold newQuarantineID, mbind, M_bind, attempt, rand_Read in E.
  destruct (faults e n) as [err|].
  - injection E as <- _ <-. split; [done|by apply De].
  - exact (Df n _ t r n' t' C Pt E).
Qed.

Lemma Submit_does request : does fresh (Submit DetectContentType maxSize ttl request) top.
Proof.
  assert (L : forall X (x : result X), reads (S := T) (lift x)) by done.
  assert (G : forall b err, reads (S := T) (guard_not b err)) by (intros [] err ? ? ?; done).
  unfold Submit. apply does_reads; [apply L|intros _|done]. do 3 (apply does_reads; [apply G|intros _|done]).
  apply does_reads; [apply governed_reads|intros _|done]. do 2 (apply does_reads; [apply G|intros _|done]).
  apply new_id_does; [intros n|done]. apply does_reads; [done|intros at_|done].
  apply (does_pure (own (EncodeToString (random_bytes e n 16)) /\ ~ others (EncodeToString (random_bytes e n 16)))).
  { intros v F. by destruct (F n) as (? & ? & _). }
  intros [Ow No]. eapply does_weaken; [apply (record_does (mkRecord _ _ _ _ _ _ _ _ _ _ _ _) (qr_Payload request)); done| |done].
  intros v F. apply F.
Qed.

(** ** What workers do, one operation after another *)

Inductive operation (v : View) : forall A, M T A -> Prop :=
| op_Submit request : fresh v -> operation v QuarantineRecord (Submit DetectContentType maxSize ttl request)
| op_Scan id : operation v _ (Scan id)
| op_Promote id : operation v _ (Promote id)
| op_Cleanup id : operation v _ (Cleanup id).

Lemma operation_does A (m : M T A) n t r n' t' : consistent (view t) -> operation (view t) A m -> m e n t = (r, n', t') ->
  reaches own (view t) (view t').
Proof.
  intros C Op E. destruct Op as [request F|id|id|id].
  - by eapply (Submit_does request).
  - by eapply (Scan_does id).
  - by eapply (Promote_does id).
  - by eapply (Cleanup_does id).
Qed.
End shared.
Arguments LawfulStores {T} view others {_}.

Section histories.
Context {T : Type} (view : T -> View) (others own : string -> Prop) (own_others : forall id, others id -> own id).
Context `{LawfulStores T view others}.
Context (DetectContentType : string -> string) (maxSize : Z) (ttl : Duration).

(** A worker's operations, with what the others do between them. *)
Inductive history : T -> T -> Prop :=
| hi_done t : history t t
| hi_others t1 t2 t3 : reaches others (view t1) (view t2) -> history t2 t3 -> history t1 t3
| hi_operation e n A (m : M T A) t1 r n' t2 t3 :
    operation others DetectContentType maxSize ttl own e (view t1) A m -> m e n t1 = (r, n', t2) -> history t2 t3 -> history t1 t3.

Lemma history_reaches t t' : consistent (view t) -> history t t' -> reaches own (view t) (view t').
Proof.
  intros C Hi. induction Hi as [t|t1 t2 t3 R Hi IH|e n A m t1 r n' t2 t3 Op E Hi IH]; [done|..].
  - apply (reaches_weaken others own) in R; [|done]. transitivity (view t2); [done|]. apply IH. by eapply consistent_reaches.
  - assert (R : reaches own (view t1) (view t2)) by (by eapply operation_does).
    transitivity (view t2); [done|]. apply IH. by eapply consistent_reaches.
Qed.

Lemma empty_consistent : consistent (mkView ∅ ∅ [] []).
Proof. split; intros id r; cbn; by rewrite lookup_empty. Qed.

(** C30. What reaches the regulated store was scanned: however the workers'
    operations interleave and whichever of them fail, each write carries the
    key and the options of the upload, and content with its digest and size
    that the scanner, with complete evidence, declared clean. *)
Theorem promoted_content_was_scanned t t' : view t = mkView ∅ ∅ [] [] -> history t t' ->
  Forall (write_ok (view t')) (v_writes (view t')) /\ consistent (view t').
Proof.
  intros V Hi. assert (C : consistent (view t)) by (rewrite V; apply empty_consistent).
  pose proof (history_reaches t t' C Hi) as R. split; [|by eapply consistent_reaches].
  eapply writes_ok_reaches; [exact R|]. by rewrite V.
Qed.

Lemma acts_stay own0 v l v' id : acts own0 v l v' -> left_quarantine id v -> left_quarantine id v'.
Proof. induction 1 as [|v1 o v2 l v3 A As IH]; [done|]. intros L. apply IH. by eapply act_left. Qed.
Lemma reaches_stay own0 v v' id : reaches own0 v v' -> left_quarantine id v -> left_quarantine id v'.
Proof. intros (l & A). by eapply acts_stay. Qed.

(** A transition out of quarantine that succeeds leaves the record out of it,
    and one succeeds only on a record that is in it. *)
Lemma transition_leaves r status mutated e n t next n' t' : moves (q_Status r) status = true ->
  transition r status mutated e n t = (Ok next, n', t') -> left_quarantine (q_ID r) (view t') /\
  (q_Status r = QuarantineStatusQuarantined -> ~ left_quarantine (q_ID r) (view t)).
Proof.
  intros Mv E. unfold transition, mbind, M_bind, attempt in E.
  destruct (records_CompareAndSwap _ _ _ e n t) as [[[u|err] k] t1] eqn:Sw; [|discriminate E]. injection E as _ _ <-.
  destruct (law_CompareAndSwap view others _ _ _ e n t _ k t1 Sw) as (v1 & v2 & R1 & (cur & L & St & ->) & R2). split.
  - eapply reaches_stay; [exact R2|]. exists (mutated <| q_Status := status |>). cbn. rewrite lookup_insert_eq. split; [done|]. by eapply moves_away.
  - intros Sq Lq. destruct (reaches_stay _ _ _ _ R1 Lq) as (cur' & L' & N). congruence.
Qed.

(** A record is scanned once: when a worker's move of it from quarantine to
    the scan has succeeded, then after anything the workers do every other
    attempt fails. *)
Theorem one_worker_scans r e n t next n' t1 t2 r2 e2 n2 : q_Status r = QuarantineStatusQuarantined ->
  consistent (view t) -> known r (view t) ->
  transition r QuarantineStatusScanning r e n t = (Ok next, n', t1) -> history t1 t2 ->
  q_ID r2 = q_ID r -> q_Status r2 = QuarantineStatusQuarantined ->
  is_ok (transition r2 QuarantineStatusScanning r2 e2 n2 t2).1.1 = false.
Proof.
  intros St C Kn E Hi Id St2. destruct (transition r2 _ _ e2 n2 t2) as [[[next2|err] n2'] t3] eqn:E2; [|done]. exfalso.
  destruct (transition_leaves r QuarantineStatusScanning r e n t next n' t1) as [L _]; [by rewrite St|done|].
  destruct (transition_leaves r2 QuarantineStatusScanning r2 e2 n2 t2 next2 n2' t3) as [_ N]; [by rewrite St2|done|]. apply (N St2). rewrite Id.
  eapply reaches_stay; [|exact L]. apply history_reaches; [|done]. apply (consistent_reaches own (view t)); [|done].
  assert (Mv : moves (q_Status r) QuarantineStatusScanning = true) by (by rewrite St).
  refine (proj1 (transition_does view others own own_others e r QuarantineStatusScanning r Mv eq_refl n t _ n' t1 C _ E)).
  split; [done|]. intros Af. exfalso. revert Af. apply (bool_decide_unpack _). vm_compute. exact I.
Qed.
End histories.

(** ** The stores of the tests *)

Module examples.
(** The fakes of [quarantine_test.go], over one state. *)
Definition get_or_missing {A} (o : option A) : result A := match o with Some a => Ok a | None => Err (Errorf "not found" []) end.
Definition fakes (evidence : ScanEvidence) : QuarantineStores View := {|
  objects_Put id payload := exec (fun v => v <| v_objects := partial_alter (fun _ => Some payload) id (v_objects v) |>);
  objects_Get id := queryR (fun v => get_or_missing (v_objects v !! id));
  objects_Delete id := exec (fun v => v <| v_objects := delete id (v_objects v) |>);
  records_Create r := exec (fun v => v <| v_records := <[q_ID r := r]> (v_records v) |>);
  records_Get id := queryR (fun v => get_or_missing (v_records v !! id));
  records_CompareAndSwap id expected next := stmt (fun v =>
    match v_records v !! id with
    | Some current =>
      if q_Status current =s expected then Ok (tt, v <| v_records := <[id := next]> (v_records v) |>)
      else Err (Errorf "state conflict" [])
    | None => Err (Errorf "state conflict" [])
    end);
  scanner_Scan key content := stmt (fun v => Ok (evidence, v <| v_scans := (v_scans v ++ [(key, content, evidence)])%list |>));
  target_PutGoverned key payload options := stmt (fun v =>
    Ok (mkReceipt key "version-1" "" "", v <| v_writes := (v_writes v ++ [(key, payload, options)])%list |>))
|}.

Definition nobody : string -> Prop := fun _ => False.
Lemma amid_alone {A} (m : M View A) effect : (forall e n t, effect (m e n t).1.1 t (m e n t).2) -> amid id nobody m effect.
Proof. intros Ef e n t r n' t' E. exists t, t'. specialize (Ef e n t). rewrite E in Ef. by split_and!. Qed.

Lemma missing_ok {A} (o : option A) a : get_or_missing o = Ok a -> o = Some a.
Proof. destruct o; by intros [=->]. Qed.

Lemma fakes_lawful evidence : LawfulStores (H := fakes evidence) id nobody.
Proof.
  split; intros; apply amid_alone; intros e n v; cbn; unfold exec, queryR, stmt; destruct (faults e n); cbn; try done; auto.
  - match goal with |- context [partial_alter _ ?i _] => exists (v_objects v !! i) end. rewrite partial_alter_self. by destruct v.
  - destruct (get_or_missing _) eqn:E; cbn; split; try done. intros c [= <-]. by apply missing_ok.
  - destruct (get_or_missing _) eqn:E; cbn; split; try done. intros c [= <-]. by apply missing_ok.
  - destruct (v_records v !! _) as [cur|] eqn:L; cbn; [|done]. destruct (String.eqb_spec (q_Status cur) expected); cbn; [by exists cur|done].
Qed.

Definition sniff (payload : string) : string := "text/plain; charset=utf-8".
Definition env (at_ : Time) : Env := mkEnv (fun _ => at_) (fun _ => "") (fun _ => None) (fun _ _ => "0"%char) false.
Definition evidence : ScanEvidence := mkScan "scanner" "evidence-1" ScanVerdictClean 10.
#[export] Instance stores : QuarantineStores View := fakes evidence.
#[export] Instance stores_lawful : LawfulStores (H := stores) id nobody := fakes_lawful evidence.

Definition request : QuarantineRequest := mkRequest "docs/report.pdf" "" "plain text" 0 [] noOptions.
Definition submit (at_ : Time) (v : View) := Submit sniff 1024 100 request (env at_) 0%nat v.
Definition the_id : string := EncodeToString (random_bytes (env 0) 0 16).
Definition scan (at_ : Time) (v : View) := Scan (T := View) the_id (env at_) 0%nat v.
Definition promote (at_ : Time) (v : View) := Promote (T := View) the_id (env at_) 0%nat v.
Definition empty : View := mkView ∅ ∅ [] [].
Definition submitted : View := (submit 5 empty).2.
Definition checked : View := (scan 6 submitted).2.
Definition promoted : View := (promote 7 checked).2.
Definition status_of (v : View) : option string := q_Status <$> v_records v !! the_id.

Lemma promoted_run : map (fun w => w.1) (v_writes promoted) = [("docs/report.pdf", "plain text")] /\
  status_of submitted = Some QuarantineStatusQuarantined /\ status_of checked = Some QuarantineStatusClean /\
  status_of promoted = Some QuarantineStatusPromoted.
Proof. vm_compute. split_and!; reflexivity. Qed.

Lemma submitted_history : history id nobody (fun _ => True) sniff 1024 100 empty submitted.
Proof.
  eapply (hi_operation _ _ _ _ _ _ (env 5) 0%nat _ (Submit sniff 1024 100 request) _ (submit 5 empty).1.1 (submit 5 empty).1.2 submitted).
  - apply op_Submit. intros n. split_and!; [done|by intros []|]. cbn. apply lookup_empty.
  - unfold submitted, submit. by destruct (Submit _ _ _ _ _ _ _) as [[]].
  - apply hi_done.
Qed.
Lemma submitted_consistent : consistent submitted.
Proof.
  eapply (consistent_reaches _ empty); [|apply empty_consistent].
  exact (history_reaches id nobody (fun _ => True) (fun _ _ => I) sniff 1024 100 empty submitted empty_consistent submitted_history).
Qed.
Definition the_record : QuarantineRecord := default noRecord (v_records submitted !! the_id).
Lemma the_record_known : known the_record submitted.
Proof. apply (cn_known _ submitted_consistent the_id). vm_compute. reflexivity. Qed.

Lemma whole_quarantine : history id nobody (fun _ => True) sniff 1024 100 empty promoted.
Proof.
  eapply (hi_operation _ _ _ _ _ _ (env 5) 0%nat _ (Submit sniff 1024 100 request) _ (submit 5 empty).1.1 (submit 5 empty).1.2 submitted).
  { apply op_Submit. intros n. split_and!; [done|by intros []|]. cbn. apply lookup_empty. }
  { unfold submitted, submit. by destruct (Submit _ _ _ _ _ _ _) as [[]]. }
  eapply (hi_operation _ _ _ _ _ _ (env 6) 0%nat _ (Scan the_id) _ (scan 6 submitted).1.1 (scan 6 submitted).1.2 checked).
  { apply op_Scan. }
  { unfold checked, scan. by destruct (Scan _ _ _ _) as [[]]. }
  eapply (hi_operation _ _ _ _ _ _ (env 7) 0%nat _ (Promote the_id) _ (promote 7 checked).1.1 (promote 7 checked).1.2 promoted).
  { apply op_Promote. }
  { unfold promoted, promote. by destruct (Promote _ _ _ _) as [[]]. }
  apply hi_done.
Qed.
End examples.
#[local] Existing Instances examples.stores examples.stores_lawful.

Lemma promoted_content_was_scanned_witness :
  Forall (write_ok examples.promoted) (v_writes examples.promoted) /\
  map (fun w => w.1) (v_writes examples.promoted) = [("docs/report.pdf", "plain text")].
Proof.
  split; [|exact (proj1 examples.promoted_run)].
  exact (proj1 (promoted_content_was_scanned id examples.nobody (fun _ => True) (fun _ _ => I) examples.sniff 1024 100
    examples.empty examples.promoted eq_refl examples.whole_quarantine)).
Defined.

(** The scan is under way for the worker whose move came first. *)
Lemma one_worker_scans_witness :
  let first := transition (T := View) examples.the_record QuarantineStatusScanning examples.the_record (examples.env 6) 0%nat examples.submitted in
  is_ok first.1.1 = true /\
  is_ok (transition (T := View) examples.the_record QuarantineStatusScanning examples.the_record (examples.env 6) 0%nat first.2).1.1 = false.
Proof.
  intros first. assert (F : is_ok first.1.1 = true) by (vm_compute; reflexivity). split; [exact F|].
  assert (St : q_Status examples.the_record = QuarantineStatusQuarantined) by (vm_compute; reflexivity).
  destruct first as [[[next|err] n'] v] eqn:E; [|discriminate F].
  exact (one_worker_scans id examples.nobody (fun _ => True) (fun _ _ => I) examples.sniff 1024 100 examples.the_record (examples.env 6)
    0%nat examples.submitted next n' v v examples.the_record (examples.env 6) 0%nat St examples.submitted_consistent
    examples.the_record_known E (hi_done _ _ _ _ _ _ v) eq_refl St).
Defined.

(** Two workers that have both read the clean record write it twice: the
    record moves only after the write. *)
Example two_promotions_write_twice :
  let r := default noRecord (v_records examples.checked !! examples.the_id) in
  let first := promote_content (T := View) r (examples.env 7) 0%nat examples.checked in
  let second := promote_content (T := View) r (examples.env 7) 0%nat first.2 in
  q_Status r = QuarantineStatusClean /\ llen (v_writes second.2) = 2.
Proof. vm_compute. split; reflexivity. Qed.

(** The expiry is looked at before the status: a promotion of what is already
    in the store, or waits for its cleanup, takes the record to "Expired". *)
Example promoted_records_expire :
  (examples.status_of examples.promoted, examples.status_of (examples.promote 200 examples.promoted).2) =
  (Some QuarantineStatusPromoted, Some QuarantineStatusExpired).
Proof. vm_compute. reflexivity. Qed.

(** Text cannot be declared as such: only the declared type loses its
    parameters before the two are compared. *)
Example declared_text_is_refused : map (fun declared =>
    (Submit examples.sniff 1024 100 (mkRequest "docs/report.pdf" declared "plain text" 0 [] noOptions) (examples.env 5) 0%nat examples.empty).1.1)
    ["text/plain"; "text/plain; charset=utf-8"] =
  [Err (Errorf "declared content type does not match detected content" []);
   Err (Errorf "declared content type does not match detected content" [])].
Proof. vm_compute. reflexivity. Qed.
