(* ===== verification/GoParse.v ===== *)
(** * More of the Go standard library

    What the configuration and the HTTP layer use: [strings.Fields], [Cut],
    [Trim], [LastIndexByte], [Contains], [Join] and [EqualFold];
    [time.ParseDuration]; [net/url]'s [QueryUnescape] and [ParseQuery]. *)

From S2P Require Import Prelude GoString Strconv.

(** ** Strings *)

(** [strings.Cut] at a byte. *)
Definition Cut (s : string) (sep : ascii) : string * string * bool :=
  match SplitN2 s sep with
  | before :: after :: _ => (before, after, true)
  | _ => (s, "", false)
  end.

Fixpoint Join (l : list string) (sep : string) : string :=
  match l with
  | [] => ""
  | [s] => s
  | s :: rest => s +:+ sep +:+ Join rest sep
  end.

(** [strings.Contains]. *)
Fixpoint Contains (s sub : string) : bool :=
  HasPrefix s sub || match s with String _ rest => Contains rest sub | EmptyString => false end.

(** [strings.LastIndexByte], [None] for -1. *)
Fixpoint LastIndexByte (s : string) (c : ascii) : option nat :=
  match s with
  | EmptyString => None
  | String d rest =>
    match LastIndexByte rest c with
    | Some i => Some (Datatypes.S i)
    | None => if Ascii.eqb d c then Some 0%nat else None
    end
  end.

(** [strings.Trim] and [TrimRight] for a set of bytes. *)
Definition in_set (cutset : string) (c : ascii) : bool := existsb (Ascii.eqb c) (list_ascii_of_string cutset).
Definition TrimRight (s cutset : string) : string :=
  string_of_list_ascii (reverse (drop_while (in_set cutset) (reverse (list_ascii_of_string s)))).
Definition Trim (s cutset : string) : string :=
  TrimRight (string_of_list_ascii (drop_while (in_set cutset) (list_ascii_of_string s))) cutset.

(** [strings.Fields]: the runs between runes of white space. *)
Fixpoint fields_of (current : list rune) (l : list rune) : list string :=
  let flush := if (length current =? 0)%nat then [] else [unrunes (rev current)] in
  match l with
  | [] => flush
  | r :: rest => if IsSpace (rune_val r) then flush ++ fields_of [] rest else fields_of (r :: current) rest
  end.
Definition Fields (s : string) : list string := fields_of [] (runes s).

(** [strings.EqualFold] with an ASCII string: the runes outside of ASCII that
    fold into it are the Kelvin sign and the long s. *)
Definition fold_rune (r : Z) : Z := if r =? 383 then 115 else if r =? 8490 then 107 else if in_range 65 90 r then r + 32 else r.
Definition EqualFold (s ascii_text : string) : bool :=
  bool_decide (map (fun r => fold_rune (rune_val r)) (runes s) = map (fun r => fold_rune (rune_val r)) (runes ascii_text)).

(** ** Durations *)

Definition fmul (x y : float64) : float64 := SpecFloat.SFmul 53 1024 x y.
Definition wrapU64 (z : Z) : Z := z mod 2 ^ 64.

(** The digits at the front, and what follows them. *)
Fixpoint leading (s : string) : string * string :=
  match s with
  | String c rest => if digit_char c then let '(d, r) := leading rest in (String c d, r) else ("", s)
  | EmptyString => ("", "")
  end.

(** [leadingInt]: the value of the digits, [None] when it overflows. *)
Fixpoint int_of (x : Z) (digits : list ascii) : option Z :=
  match digits with
  | [] => Some x
  | c :: rest =>
    if 2 ^ 63 / 10 <? x then None
    else let x := x * 10 + (byte_val c - 48) in if 2 ^ 63 <? x then None else int_of x rest
  end.

(** [leadingFraction]: the digits that fit, and the power of ten they count. *)
Fixpoint fraction_of (x : Z) (scale : float64) (digits : list ascii) : Z * float64 :=
  match digits with
  | [] => (x, scale)
  | c :: rest =>
    if (2 ^ 63 - 1) / 10 <? x then (x, scale)
    else let y := x * 10 + (byte_val c - 48) in
         if 2 ^ 63 <? y then (x, scale) else fraction_of y (fmul scale (float_of_int 10)) rest
  end.

Definition unit_of (u : string) : option Z :=
  if u =s "ns" then Some 1
  else if contains ["us"; "µs"; "μs"] u then Some 1000
  else if u =s "ms" then Some 1000000
  else if u =s "s" then Some Second
  else if u =s "m" then Some Minute
  else if u =s "h" then Some Hour
  else None.

Fixpoint unit_text (s : string) : string * string :=
  match s with
  | String c rest =>
    if Ascii.eqb c "." || digit_char c then ("", s) else let '(u, r) := unit_text rest in (String c u, r)
  | EmptyString => ("", "")
  end.

(** One number with its unit. *)
Definition duration_term (s : string) : option (Z * string) :=
  let '(digits, s1) := leading s in
  v ← int_of 0 (list_ascii_of_string digits);
  let '(f, scale, post, s2) :=
    match s1 with
    | String c s1' =>
      if Ascii.eqb c "." then
        let '(fd, s2) := leading s1' in
        let '(f, scale) := fraction_of 0 (float_of_int 1) (list_ascii_of_string fd) in (f, scale, fd <>s "", s2)
      else (0, float_of_int 1, false, s1)
    | EmptyString => (0, float_of_int 1, false, s1)
    end in
  if (digits =s "") && negb post then None
  else
    let '(u, s3) := unit_text s2 in
    unit ← unit_of u;
    if 2 ^ 63 / unit <? v then None
    else
      let v := v * unit in
      let v := if 0 <? f then wrapU64 (v + trunc (fmul (float_of_int f) (fdiv (float_of_int unit) scale))) else v in
      if (0 <? f) && (2 ^ 63 <? v) then None else Some (v, s3).

(** Each term takes at least a byte, so that the length is fuel enough. *)
Fixpoint duration_terms (fuel : nat) (d : Z) (s : string) : option Z :=
  match fuel, s with
  | _, EmptyString => Some d
  | O, _ => None
  | Datatypes.S fuel, _ =>
    '(v, rest) ← duration_term s;
    let d := wrapU64 (d + v) in
    if 2 ^ 63 <? d then None else duration_terms fuel d rest
  end.

(** [time.ParseDuration], [None] for an error. *)
Definition ParseDuration (s : string) : option Duration :=
  let '(neg, s) :=
    match s with
    | String c rest => if Ascii.eqb c "-" then (true, rest) else if Ascii.eqb c "+" then (false, rest) else (false, s)
    | EmptyString => (false, s)
    end in
  if s =s "0" then Some 0
  else if s =s "" then None
  else
    d ← duration_terms (String.length s) 0 s;
    if (neg : bool) then Some (wrap64 (- d)) else if 2 ^ 63 - 1 <? d then None else Some d.

Example durations : map ParseDuration ["1h30m"; "1.5h"; "-250ms"; "0"; ".5s"; "10"; "1x"; "9223372036854775808ns"; "100us"] =
  [Some (90 * Minute); Some (90 * Minute); Some (-250000000); Some 0; Some 500000000; None; None; None; Some 100000].
Proof. vm_compute. reflexivity. Qed.

(** ** Queries of URLs *)

(** [url.QueryUnescape], [None] for a malformed escape. *)
Fixpoint QueryUnescape (s : string) : option string :=
  match s with
  | EmptyString => Some ""
  | String c rest =>
    if Ascii.eqb c "%" then
      match rest with
      | String h (String l rest') =>
        h ← hex_val h; l ← hex_val l; tail ← QueryUnescape rest'; Some (String (byte_of (16 * h + l)) tail)
      | _ => None
      end
    else tail ← QueryUnescape rest; Some (String (if Ascii.eqb c "+" then " " else c)%char tail)
  end.

(** [url.ParseQuery]: the pairs that are well formed, and whether all are. *)
Definition query_pair (s : string) : option (string * string) :=
  if ContainsAny s ";" then None
  else let '(key, value, _) := Cut s "=" in k ← QueryUnescape key; v ← QueryUnescape value; Some (k, v).
Fixpoint query_pairs (l : list string) : list (string * string) * bool :=
  match l with
  | [] => ([], true)
  | s :: rest =>
    let '(pairs, ok) := query_pairs rest in
    if s =s "" then (pairs, ok)
    else match query_pair s with Some p => (p :: pairs, ok) | None => (pairs, false) end
  end.
Definition ParseQuery (query : string) : list (string * string) * bool := query_pairs (Split query "&").

(** [Values.Get]: the first value of the key. *)
Definition query_Get (pairs : list (string * string)) (key : string) : string :=
  default "" (snd <$> find (fun p => p.1 =s key) pairs).

Example queries : ParseQuery "a=1&b=%41+c&&a=2&x=%zz" = ([("a", "1"); ("b", "A c"); ("a", "2")], false).
Proof. vm_compute. reflexivity. Qed.
Example fields_example : Fields "  host=db  sslmode='disable' " = ["host=db"; "sslmode='disable'"].
Proof. vm_compute. reflexivity. Qed.

(** ** Replacement *)

(** [bytes.ReplaceAll], left to right, for a text that is not empty; each step
    takes a byte, so that the length is fuel enough. *)
Fixpoint replace_all (fuel : nat) (s old new : string) : string :=
  match fuel, s with
  | Datatypes.S fuel, String c rest =>
    if HasPrefix s old then new +:+ replace_all fuel (sdrop (String.length old) s) old new else String c (replace_all fuel rest old new)
  | _, _ => s
  end.
Definition ReplaceAll (s old new : string) : string := replace_all (String.length s) s old new.

Lemma ContainsAny_excludes s chars c : ContainsAny s chars = false -> In c (list_ascii_of_string chars) -> ~ In c (list_ascii_of_string s).
Proof.
  intros E I. induction s as [|d s IH]; [by intros []|]. cbn in E. intros [->|J].
  - assert (X : IndexByte chars c <> None); [|by destruct (IndexByte chars c)]. clear E IH.
    induction chars as [|d chars IH]; [done|]. cbn. destruct (Ascii.eqb_spec d c); [done|]. destruct I as [->|I]; [done|].
    specialize (IH I). by destruct (IndexByte chars c).
  - destruct (IndexByte chars d); [done|]. by apply IH.
Qed.

(** ** Network addresses *)

(** [net.SplitHostPort], without the text of the error. *)
Definition has_byte (c : ascii) (s : string) : bool := bool_decide (c ∈ list_ascii_of_string s).
Definition SplitHostPort (hostport : string) : option (string * string) :=
  match LastIndexByte hostport ":" with
  | None => None
  | Some i =>
    let port := sdrop (Datatypes.S i) hostport in
    if HasPrefix hostport "[" then
      match IndexByte hostport "]" with
      | None => None
      | Some last =>
        if negb (Datatypes.S last =? i)%nat then None
        else if has_byte "[" (sdrop 1 hostport) || has_byte "]" (sdrop (Datatypes.S last) hostport) then None
        else Some (sdrop 1 (stake last hostport), port)
      end
    else
      let host := stake i hostport in
      if has_byte ":" host || has_byte "[" hostport || has_byte "]" hostport then None else Some (host, port)
  end.

Example addresses : map SplitHostPort ["siem:6514"; "[::1]:25"; "::1:25"; "siem"; "a]:1"; ":25"] =
  [Some ("siem", "6514"); Some ("::1", "25"); None; None; None; Some ("", "25")].
Proof. vm_compute. reflexivity. Qed.
