(* ===== verification/Config.v ===== *)
(** * Configuration

    [internal/platform/config]: the defaults, the values of the environment that
    override them, the validation, and how [internal/bootstrap/app.go] merges
    the remote configuration and wires the identity service.  The parser of the
    YAML files and [url.Parse] are parameters; the files of the secrets are read
    through a function of their path. *)

From S2P Require Import Prelude GoString Strconv Database GoParse Identity SecurityPolicy Storage SelfService.

(** ** The configuration *)

Record AppConfig := mkAppConfig {
  app_Name : string;
  app_Environment : string;
  app_Region : string;
  app_Zone : string
}.
#[export] Instance AppConfig_eta : Eta AppConfig := fun c =>
  mkAppConfig
    (app_Name c) (app_Environment c) (app_Region c) (app_Zone c).

Record ServerConfig := mkServerConfig {
  srv_ListenAddr : string;
  srv_GRPCListenAddr : string;
  srv_PublicURL : string;
  srv_WebDir : string;
  srv_WebCSPFrameSources : list string;
  srv_WebCSPConnectSources : list string;
  srv_WebCSPWujieEnabled : bool;
  srv_WebCSPWujieApprovalRef : string;
  srv_ReadTimeout : Duration;
  srv_WriteTimeout : Duration;
  srv_IdleTimeout : Duration;
  srv_ShutdownTimeout : Duration;
  srv_MaxBodyBytes : Z;
  srv_TLSEnabled : bool;
  srv_TLSCertFile : string;
  srv_TLSKeyFile : string;
  srv_TLSClientCAFile : string;
  srv_RequireClientTLS : bool
}.
#[export] Instance ServerConfig_eta : Eta ServerConfig := fun c =>
  mkServerConfig
    (srv_ListenAddr c) (srv_GRPCListenAddr c) (srv_PublicURL c) (srv_WebDir c) (srv_WebCSPFrameSources c)
    (srv_WebCSPConnectSources c) (srv_WebCSPWujieEnabled c) (srv_WebCSPWujieApprovalRef c) (srv_ReadTimeout c)
    (srv_WriteTimeout c) (srv_IdleTimeout c) (srv_ShutdownTimeout c) (srv_MaxBodyBytes c) (srv_TLSEnabled c)
    (srv_TLSCertFile c) (srv_TLSKeyFile c) (srv_TLSClientCAFile c) (srv_RequireClientTLS c).

Record DatabaseConfig := mkDatabaseConfig {
  dbc_Provider : string;
  dbc_DSN : string;
  dbc_MaxOpenConns : Z;
  dbc_MaxIdleConns : Z;
  dbc_MaxLifetime : Duration;
  dbc_QueryTimeout : Duration;
  dbc_AutoMigrate : bool;
  dbc_ReadOnlyDSN : string
}.
#[export] Instance DatabaseConfig_eta : Eta DatabaseConfig := fun c =>
  mkDatabaseConfig
    (dbc_Provider c) (dbc_DSN c) (dbc_MaxOpenConns c) (dbc_MaxIdleConns c) (dbc_MaxLifetime c) (dbc_QueryTimeout c)
    (dbc_AutoMigrate c) (dbc_ReadOnlyDSN c).

Record CacheConfig := mkCacheConfig {
  cac_Provider : string;
  cac_Mode : string;
  cac_Addresses : list string;
  cac_MasterName : string;
  cac_Username : string;
  cac_Password : string;
  cac_DB : Z;
  cac_Prefix : string;
  cac_TTL : Duration;
  cac_TLS : bool;
  cac_TLSCAFile : string;
  cac_TLSCertFile : string;
  cac_TLSKeyFile : string;
  cac_TLSServerName : string
}.
#[export] Instance CacheConfig_eta : Eta CacheConfig := fun c =>
  mkCacheConfig
    (cac_Provider c) (cac_Mode c) (cac_Addresses c) (cac_MasterName c) (cac_Username c) (cac_Password c) (cac_DB c)
    (cac_Prefix c) (cac_TTL c) (cac_TLS c) (cac_TLSCAFile c) (cac_TLSCertFile c) (cac_TLSKeyFile c) (cac_TLSServerName
    c).

Record MessagingConfig := mkMessagingConfig {
  mq_Provider : string;
  mq_TLS : bool;
  mq_TLSCAFile : string;
  mq_TLSCertFile : string;
  mq_TLSKeyFile : string;
  mq_TLSServerName : string;
  mq_RocketMQEndpoint : string;
  mq_RocketMQGroup : string;
  mq_RocketMQNamespace : string;
  mq_RocketMQTopics : list string;
  mq_RocketMQAccessKey : string;
  mq_RocketMQSecretKey : string;
  mq_RocketMQBatchSize : Z;
  mq_RocketMQInvisibleDuration : Duration;
  mq_RocketMQAwaitDuration : Duration
}.
#[export] Instance MessagingConfig_eta : Eta MessagingConfig := fun c =>
  mkMessagingConfig
    (mq_Provider c) (mq_TLS c) (mq_TLSCAFile c) (mq_TLSCertFile c) (mq_TLSKeyFile c) (mq_TLSServerName c)
    (mq_RocketMQEndpoint c) (mq_RocketMQGroup c) (mq_RocketMQNamespace c) (mq_RocketMQTopics c) (mq_RocketMQAccessKey
    c) (mq_RocketMQSecretKey c) (mq_RocketMQBatchSize c) (mq_RocketMQInvisibleDuration c) (mq_RocketMQAwaitDuration c).

Record StreamingConfig := mkStreamingConfig {
  str_Provider : string;
  str_Brokers : list string;
  str_ClientID : string;
  str_Username : string;
  str_Password : string;
  str_TLS : bool;
  str_TLSCAFile : string;
  str_TLSCertFile : string;
  str_TLSKeyFile : string;
  str_TLSServerName : string
}.
#[export] Instance StreamingConfig_eta : Eta StreamingConfig := fun c =>
  mkStreamingConfig
    (str_Provider c) (str_Brokers c) (str_ClientID c) (str_Username c) (str_Password c) (str_TLS c) (str_TLSCAFile c)
    (str_TLSCertFile c) (str_TLSKeyFile c) (str_TLSServerName c).

Record SearchConfig := mkSearchConfig {
  sea_Provider : string;
  sea_URLs : list string;
  sea_Username : string;
  sea_Password : string;
  sea_TLS : bool;
  sea_TLSCAFile : string;
  sea_TLSCertFile : string;
  sea_TLSKeyFile : string;
  sea_TLSServerName : string
}.
#[export] Instance SearchConfig_eta : Eta SearchConfig := fun c =>
  mkSearchConfig
    (sea_Provider c) (sea_URLs c) (sea_Username c) (sea_Password c) (sea_TLS c) (sea_TLSCAFile c) (sea_TLSCertFile c)
    (sea_TLSKeyFile c) (sea_TLSServerName c).

Record StorageConfig := mkStorageConfig {
  sto_Provider : string;
  sto_LocalRoot : string;
  sto_Endpoint : string;
  sto_Region : string;
  sto_Bucket : string;
  sto_AccessKey : string;
  sto_SecretKey : string;
  sto_CapabilityEvidenceFile : string;
  sto_PathStyle : bool;
  sto_TLS : bool;
  sto_TLSCAFile : string;
  sto_TLSCertFile : string;
  sto_TLSKeyFile : string;
  sto_TLSServerName : string
}.
#[export] Instance StorageConfig_eta : Eta StorageConfig := fun c =>
  mkStorageConfig
    (sto_Provider c) (sto_LocalRoot c) (sto_Endpoint c) (sto_Region c) (sto_Bucket c) (sto_AccessKey c) (sto_SecretKey
    c) (sto_CapabilityEvidenceFile c) (sto_PathStyle c) (sto_TLS c) (sto_TLSCAFile c) (sto_TLSCertFile c)
    (sto_TLSKeyFile c) (sto_TLSServerName c).

Record DiscoveryConfig := mkDiscoveryConfig {
  dis_Provider : string;
  dis_Servers : list string;
  dis_Namespace : string;
  dis_Group : string;
  dis_Cluster : string;
  dis_ServiceName : string;
  dis_GRPCServiceName : string;
  dis_AdvertiseIP : string;
  dis_AdvertisePort : Z;
  dis_AdvertiseGRPCPort : Z;
  dis_Weight : float64;
  dis_Metadata : gmap string string;
  dis_Username : string;
  dis_Password : string;
  dis_TLSRequired : bool;
  dis_TLSCAFile : string;
  dis_TLSCertFile : string;
  dis_TLSKeyFile : string;
  dis_TLSServerName : string
}.
#[export] Instance DiscoveryConfig_eta : Eta DiscoveryConfig := fun c =>
  mkDiscoveryConfig
    (dis_Provider c) (dis_Servers c) (dis_Namespace c) (dis_Group c) (dis_Cluster c) (dis_ServiceName c)
    (dis_GRPCServiceName c) (dis_AdvertiseIP c) (dis_AdvertisePort c) (dis_AdvertiseGRPCPort c) (dis_Weight c)
    (dis_Metadata c) (dis_Username c) (dis_Password c) (dis_TLSRequired c) (dis_TLSCAFile c) (dis_TLSCertFile c)
    (dis_TLSKeyFile c) (dis_TLSServerName c).

Record RemoteConfigConfig := mkRemoteConfigConfig {
  rem_Provider : string;
  rem_Servers : list string;
  rem_Namespace : string;
  rem_Group : string;
  rem_DataID : string;
  rem_FailFast : bool;
  rem_Username : string;
  rem_Password : string;
  rem_TLSRequired : bool;
  rem_TLSCAFile : string;
  rem_TLSCertFile : string;
  rem_TLSKeyFile : string;
  rem_TLSServerName : string
}.
#[export] Instance RemoteConfigConfig_eta : Eta RemoteConfigConfig := fun c =>
  mkRemoteConfigConfig
    (rem_Provider c) (rem_Servers c) (rem_Namespace c) (rem_Group c) (rem_DataID c) (rem_FailFast c) (rem_Username c)
    (rem_Password c) (rem_TLSRequired c) (rem_TLSCAFile c) (rem_TLSCertFile c) (rem_TLSKeyFile c) (rem_TLSServerName
    c).

Record SecurityConfig := mkSecurityConfig {
  sec_SessionTTL : Duration;
  sec_SecureCookies : bool;
  sec_SameSite : string;
  sec_PasswordMinLength : Z;
  sec_PasswordUpper : bool;
  sec_PasswordLower : bool;
  sec_PasswordDigit : bool;
  sec_PasswordSymbol : bool;
  sec_PasswordHistory : Z;
  sec_PasswordMaxAgeDay : Z;
  sec_LoginMaxFailures : Z;
  sec_LoginLockDuration : Duration;
  sec_CryptoProvider : string;
  sec_CryptoKeySource : string;
  sec_CryptoKey : string;
  sec_CryptoKeyVersion : string;
  sec_AllowedOrigins : list string;
  sec_TrustedProxies : list string
}.
#[export] Instance SecurityConfig_eta : Eta SecurityConfig := fun c =>
  mkSecurityConfig
    (sec_SessionTTL c) (sec_SecureCookies c) (sec_SameSite c) (sec_PasswordMinLength c) (sec_PasswordUpper c)
    (sec_PasswordLower c) (sec_PasswordDigit c) (sec_PasswordSymbol c) (sec_PasswordHistory c) (sec_PasswordMaxAgeDay
    c) (sec_LoginMaxFailures c) (sec_LoginLockDuration c) (sec_CryptoProvider c) (sec_CryptoKeySource c)
    (sec_CryptoKey c) (sec_CryptoKeyVersion c) (sec_AllowedOrigins c) (sec_TrustedProxies c).

Record ObservabilityConfig := mkObservabilityConfig {
  obs_LogLevel : string;
  obs_LogFormat : string;
  obs_MetricsEnabled : bool;
  obs_MetricsPath : string;
  obs_TracingEnabled : bool;
  obs_OTLPEndpoint : string;
  obs_OTLPTLS : bool;
  obs_OTLPTLSCAFile : string;
  obs_OTLPTLSCertFile : string;
  obs_OTLPTLSKeyFile : string;
  obs_OTLPTLSServerName : string;
  obs_PprofEnabled : bool
}.
#[export] Instance ObservabilityConfig_eta : Eta ObservabilityConfig := fun c =>
  mkObservabilityConfig
    (obs_LogLevel c) (obs_LogFormat c) (obs_MetricsEnabled c) (obs_MetricsPath c) (obs_TracingEnabled c)
    (obs_OTLPEndpoint c) (obs_OTLPTLS c) (obs_OTLPTLSCAFile c) (obs_OTLPTLSCertFile c) (obs_OTLPTLSKeyFile c)
    (obs_OTLPTLSServerName c) (obs_PprofEnabled c).

Record ResilienceConfig := mkResilienceConfig {
  res_DependencyTimeout : Duration;
  res_RetryMaxAttempts : Z;
  res_RetryBaseDelay : Duration;
  res_CircuitFailureThreshold : Z;
  res_CircuitOpenDuration : Duration;
  res_BulkheadConcurrency : Z
}.
#[export] Instance ResilienceConfig_eta : Eta ResilienceConfig := fun c =>
  mkResilienceConfig
    (res_DependencyTimeout c) (res_RetryMaxAttempts c) (res_RetryBaseDelay c) (res_CircuitFailureThreshold c)
    (res_CircuitOpenDuration c) (res_BulkheadConcurrency c).

Record ComplianceConfig := mkComplianceConfig {
  cmp_Profile : string;
  cmp_AuditRetentionDays : Z;
  cmp_NetworkLogRetentionDays : Z;
  cmp_SensitiveDataMasking : bool;
  cmp_DisableDebugEndpoints : bool
}.
#[export] Instance ComplianceConfig_eta : Eta ComplianceConfig := fun c =>
  mkComplianceConfig
    (cmp_Profile c) (cmp_AuditRetentionDays c) (cmp_NetworkLogRetentionDays c) (cmp_SensitiveDataMasking c)
    (cmp_DisableDebugEndpoints c).

Record FeaturesConfig := mkFeaturesConfig {
  fea_Flags : gmap string bool
}.
#[export] Instance FeaturesConfig_eta : Eta FeaturesConfig := fun c =>
  mkFeaturesConfig
    (fea_Flags c).

Record NotificationConfig := mkNotificationConfig {
  ntf_Provider : string;
  ntf_Topic : string;
  ntf_SMTPAddress : string;
  ntf_SMTPUsername : string;
  ntf_SMTPPassword : string;
  ntf_SMTPTLSMode : string;
  ntf_SMTPCACertFile : string;
  ntf_SMTPCertFile : string;
  ntf_SMTPKeyFile : string;
  ntf_SMTPTLSServer : string
}.
#[export] Instance NotificationConfig_eta : Eta NotificationConfig := fun c =>
  mkNotificationConfig
    (ntf_Provider c) (ntf_Topic c) (ntf_SMTPAddress c) (ntf_SMTPUsername c) (ntf_SMTPPassword c) (ntf_SMTPTLSMode c)
    (ntf_SMTPCACertFile c) (ntf_SMTPCertFile c) (ntf_SMTPKeyFile c) (ntf_SMTPTLSServer c).

Record SIEMConfig := mkSIEMConfig {
  siem_Provider : string;
  siem_Topic : string;
  siem_Address : string;
  siem_TLSCAFile : string;
  siem_TLSCertFile : string;
  siem_TLSKeyFile : string;
  siem_TLSServerName : string
}.
#[export] Instance SIEMConfig_eta : Eta SIEMConfig := fun c =>
  mkSIEMConfig
    (siem_Provider c) (siem_Topic c) (siem_Address c) (siem_TLSCAFile c) (siem_TLSCertFile c) (siem_TLSKeyFile c)
    (siem_TLSServerName c).

Record Config := mkConfig {
  cfg_App : AppConfig;
  cfg_Server : ServerConfig;
  cfg_Database : DatabaseConfig;
  cfg_Cache : CacheConfig;
  cfg_Messaging : MessagingConfig;
  cfg_Streaming : StreamingConfig;
  cfg_Search : SearchConfig;
  cfg_Storage : StorageConfig;
  cfg_Discovery : DiscoveryConfig;
  cfg_RemoteConfig : RemoteConfigConfig;
  cfg_Security : SecurityConfig;
  cfg_Observability : ObservabilityConfig;
  cfg_Resilience : ResilienceConfig;
  cfg_Compliance : ComplianceConfig;
  cfg_Features : FeaturesConfig;
  cfg_Notification : NotificationConfig;
  cfg_SIEM : SIEMConfig
}.
#[export] Instance Config_eta : Eta Config := fun c =>
  mkConfig
    (cfg_App c) (cfg_Server c) (cfg_Database c) (cfg_Cache c) (cfg_Messaging c) (cfg_Streaming c) (cfg_Search c)
    (cfg_Storage c) (cfg_Discovery c) (cfg_RemoteConfig c) (cfg_Security c) (cfg_Observability c) (cfg_Resilience c)
    (cfg_Compliance c) (cfg_Features c) (cfg_Notification c) (cfg_SIEM c).

(** [Default]. *)
Definition Default : Config := {|
  cfg_App := mkAppConfig "Sevoniva Forge" "development" "" "";
  cfg_Server := mkServerConfig ":8080" ":9090" "http://localhost:8080" "./web/dist" [] [] false "" (30 * Second) (30 * Second)
    (60 * Second) (15 * Second) 8388608 false "" "" "" false;
  cfg_Database := mkDatabaseConfig "postgres" "" 30 10 (30 * Minute) (10 * Second) false "";
  cfg_Cache := mkCacheConfig "memory" "standalone" [] "" "" "" 0 "forge:" (10 * Minute) false "" "" "" "";
  cfg_Messaging := mkMessagingConfig "disabled" false "" "" "" "" "" "" "" [] "" "" 16 (30 * Second) (5 * Second);
  cfg_Streaming := mkStreamingConfig "disabled" [] "forge" "" "" false "" "" "" "";
  cfg_Search := mkSearchConfig "disabled" [] "" "" false "" "" "" "";
  cfg_Storage := mkStorageConfig "local" "./data" "" "" "" "" "" "" false false "" "" "" "";
  cfg_Discovery := mkDiscoveryConfig "disabled" [] "" "DEFAULT_GROUP" "DEFAULT" "" "" "" 0 0 (float_of_int 1) ∅ "" "" false "" "" "" "";
  cfg_RemoteConfig := mkRemoteConfigConfig "disabled" [] "" "DEFAULT_GROUP" "" false "" "" false "" "" "" "";
  cfg_Security := mkSecurityConfig (12 * Hour) false "lax" 12 true true true true 5 90 5 (30 * Minute) "standard" "software" "" "v1" [] [];
  cfg_Observability := mkObservabilityConfig "info" "json" true "/metrics" false "" false "" "" "" "" false;
  cfg_Resilience := mkResilienceConfig (10 * Second) 3 100000000 5 (30 * Second) 100;
  cfg_Compliance := mkComplianceConfig "standard" 365 183 true true;
  cfg_Features := mkFeaturesConfig ∅;
  cfg_Notification := mkNotificationConfig "disabled" "forge.notification.email" "" "" "" "starttls" "" "" "" "";
  cfg_SIEM := mkSIEMConfig "disabled" "forge.audit.events" "" "" "" "" ""
|}.

(** ** The environment *)

(** The variables, empty when they are not set, and the files that
    [securefile.Read] gets to. *)
Record Surroundings := mkSurroundings { Getenv : string -> string; securefile_Read : string -> result string }.

Definition normalizeStorageProvider (value : string) : string :=
  let v := ToLower (TrimSpace value) in
  if contains [""; "local"] v then "local"
  else if contains ["s3"; "aws"; "aws-s3"; "amazon-s3"; "s3-compatible"; "s3_compatible"; "minio"; "minio-s3"; "oss"; "aliyun-oss";
                    "alibaba-oss"; "cos"; "tencent-cos"; "ceph"; "ceph-rgw"; "radosgw"; "obs"; "huawei-obs"] v then "s3"
  else v.

Section environment.
Context (os : Surroundings).

Definition env_value (key : string) : string := TrimSpace (Getenv os key).

(** A file that cannot be read leaves the variable itself. *)
Definition secret (key : string) : string :=
  let p := env_value (key +:+ "_FILE") in
  if p <>s "" then match securefile_Read os p with Ok b => TrimSpace b | Err _ => env_value key end else env_value key.

(** What is not set, or does not parse, leaves the value. *)
Definition override {A} (parse : string -> option A) (dst : A) (key : string) : A :=
  let v := env_value key in if v <>s "" then default dst (parse v) else dst.
Definition csv_values (v : string) : list string := List.filter (fun x => x <>s "") (map TrimSpace (Split v ",")).
Definition overrideString : string -> string -> string := override Some.
Definition overrideCSV : list string -> string -> list string := override (fun v => Some (csv_values v)).
Definition overrideBool : bool -> string -> bool := override ParseBool.
Definition overrideInt : Z -> string -> Z := override Atoi.
Definition overrideDuration : Duration -> string -> Duration := override ParseDuration.
Definition overrideUint64 : Z -> string -> Z := override (fun v => ParseUint v 64).

(** The singular address, of before, comes last. *)
Definition redis_addresses (addresses : list string) : list string :=
  let addresses := overrideCSV addresses "FORGE_REDIS_ADDRESSES" in
  let v := env_value "FORGE_REDIS_ADDRESS" in if v <>s "" then [v] else addresses.

Definition applyApp (c : AppConfig) : AppConfig :=
  mkAppConfig
    (overrideString (app_Name c) "FORGE_APP_NAME")
    (overrideString (app_Environment c) "FORGE_ENV")
    (overrideString (app_Region c) "FORGE_REGION")
    (overrideString (app_Zone c) "FORGE_ZONE").

Definition applyServer (c : ServerConfig) : ServerConfig :=
  mkServerConfig
    (overrideString (srv_ListenAddr c) "FORGE_SERVER_LISTEN")
    (overrideString (srv_GRPCListenAddr c) "FORGE_GRPC_LISTEN")
    (overrideString (srv_PublicURL c) "FORGE_PUBLIC_URL")
    (overrideString (srv_WebDir c) "FORGE_WEB_DIR")
    (overrideCSV (srv_WebCSPFrameSources c) "FORGE_WEB_CSP_FRAME_SOURCES")
    (overrideCSV (srv_WebCSPConnectSources c) "FORGE_WEB_CSP_CONNECT_SOURCES")
    (overrideBool (srv_WebCSPWujieEnabled c) "FORGE_WEB_CSP_WUJIE_ENABLED")
    (overrideString (srv_WebCSPWujieApprovalRef c) "FORGE_WEB_CSP_WUJIE_APPROVAL_REF")
    (srv_ReadTimeout c)
    (srv_WriteTimeout c)
    (srv_IdleTimeout c)
    (srv_ShutdownTimeout c)
    (srv_MaxBodyBytes c)
    (overrideBool (srv_TLSEnabled c) "FORGE_TLS_ENABLED")
    (overrideString (srv_TLSCertFile c) "FORGE_TLS_CERT_FILE")
    (overrideString (srv_TLSKeyFile c) "FORGE_TLS_KEY_FILE")
    (overrideString (srv_TLSClientCAFile c) "FORGE_TLS_CLIENT_CA_FILE")
    (overrideBool (srv_RequireClientTLS c) "FORGE_TLS_REQUIRE_CLIENT_CERT").

Definition applyDatabase (c : DatabaseConfig) : DatabaseConfig :=
  mkDatabaseConfig
    (overrideString (dbc_Provider c) "FORGE_DATABASE_PROVIDER")
    (secret "FORGE_DATABASE_DSN")
    (overrideInt (dbc_MaxOpenConns c) "FORGE_DATABASE_MAX_OPEN_CONNS")
    (overrideInt (dbc_MaxIdleConns c) "FORGE_DATABASE_MAX_IDLE_CONNS")
    (overrideDuration (dbc_MaxLifetime c) "FORGE_DATABASE_MAX_LIFETIME")
    (overrideDuration (dbc_QueryTimeout c) "FORGE_DATABASE_QUERY_TIMEOUT")
    (overrideBool (dbc_AutoMigrate c) "FORGE_DATABASE_AUTO_MIGRATE")
    (secret "FORGE_DATABASE_READONLY_DSN").

Definition applyCache (c : CacheConfig) : CacheConfig :=
  mkCacheConfig
    (overrideString (cac_Provider c) "FORGE_CACHE_PROVIDER")
    (overrideString (cac_Mode c) "FORGE_REDIS_MODE")
    (redis_addresses (cac_Addresses c))
    (overrideString (cac_MasterName c) "FORGE_REDIS_MASTER_NAME")
    (secret "FORGE_REDIS_USERNAME")
    (secret "FORGE_REDIS_PASSWORD")
    (cac_DB c)
    (cac_Prefix c)
    (overrideDuration (cac_TTL c) "FORGE_CACHE_DEFAULT_TTL")
    (overrideBool (cac_TLS c) "FORGE_REDIS_TLS")
    (overrideString (cac_TLSCAFile c) "FORGE_REDIS_TLS_CA_FILE")
    (overrideString (cac_TLSCertFile c) "FORGE_REDIS_TLS_CERT_FILE")
    (overrideString (cac_TLSKeyFile c) "FORGE_REDIS_TLS_KEY_FILE")
    (overrideString (cac_TLSServerName c) "FORGE_REDIS_TLS_SERVER_NAME").

Definition applyMessaging (c : MessagingConfig) : MessagingConfig :=
  mkMessagingConfig
    (overrideString (mq_Provider c) "FORGE_MESSAGING_PROVIDER")
    (overrideBool (mq_TLS c) "FORGE_ROCKETMQ_TLS")
    (overrideString (mq_TLSCAFile c) "FORGE_ROCKETMQ_TLS_CA_FILE")
    (overrideString (mq_TLSCertFile c) "FORGE_ROCKETMQ_TLS_CERT_FILE")
    (overrideString (mq_TLSKeyFile c) "FORGE_ROCKETMQ_TLS_KEY_FILE")
    (overrideString (mq_TLSServerName c) "FORGE_ROCKETMQ_TLS_SERVER_NAME")
    (overrideString (mq_RocketMQEndpoint c) "FORGE_ROCKETMQ_ENDPOINT")
    (overrideString (mq_RocketMQGroup c) "FORGE_ROCKETMQ_GROUP")
    (overrideString (mq_RocketMQNamespace c) "FORGE_ROCKETMQ_NAMESPACE")
    (overrideCSV (mq_RocketMQTopics c) "FORGE_ROCKETMQ_TOPICS")
    (secret "FORGE_ROCKETMQ_ACCESS_KEY")
    (secret "FORGE_ROCKETMQ_SECRET_KEY")
    (overrideInt (mq_RocketMQBatchSize c) "FORGE_ROCKETMQ_BATCH_SIZE")
    (overrideDuration (mq_RocketMQInvisibleDuration c) "FORGE_ROCKETMQ_INVISIBLE_DURATION")
    (overrideDuration (mq_RocketMQAwaitDuration c) "FORGE_ROCKETMQ_AWAIT_DURATION").

Definition applyStreaming (c : StreamingConfig) : StreamingConfig :=
  mkStreamingConfig
    (overrideString (str_Provider c) "FORGE_STREAMING_PROVIDER")
    (overrideCSV (str_Brokers c) "FORGE_KAFKA_BROKERS")
    (overrideString (str_ClientID c) "FORGE_KAFKA_CLIENT_ID")
    (secret "FORGE_KAFKA_USERNAME")
    (secret "FORGE_KAFKA_PASSWORD")
    (overrideBool (str_TLS c) "FORGE_KAFKA_TLS")
    (overrideString (str_TLSCAFile c) "FORGE_KAFKA_TLS_CA_FILE")
    (overrideString (str_TLSCertFile c) "FORGE_KAFKA_TLS_CERT_FILE")
    (overrideString (str_TLSKeyFile c) "FORGE_KAFKA_TLS_KEY_FILE")
    (overrideString (str_TLSServerName c) "FORGE_KAFKA_TLS_SERVER_NAME").

Definition applySearch (c : SearchConfig) : SearchConfig :=
  mkSearchConfig
    (overrideString (sea_Provider c) "FORGE_SEARCH_PROVIDER")
    (overrideCSV (sea_URLs c) "FORGE_SEARCH_URLS")
    (secret "FORGE_SEARCH_USERNAME")
    (secret "FORGE_SEARCH_PASSWORD")
    (overrideBool (sea_TLS c) "FORGE_SEARCH_TLS")
    (overrideString (sea_TLSCAFile c) "FORGE_SEARCH_TLS_CA_FILE")
    (overrideString (sea_TLSCertFile c) "FORGE_SEARCH_TLS_CERT_FILE")
    (overrideString (sea_TLSKeyFile c) "FORGE_SEARCH_TLS_KEY_FILE")
    (overrideString (sea_TLSServerName c) "FORGE_SEARCH_TLS_SERVER_NAME").

Definition applyStorage (c : StorageConfig) : StorageConfig :=
  mkStorageConfig
    (normalizeStorageProvider (overrideString (sto_Provider c) "FORGE_STORAGE_PROVIDER"))
    (overrideString (sto_LocalRoot c) "FORGE_STORAGE_LOCAL_ROOT")
    (overrideString (sto_Endpoint c) "FORGE_STORAGE_ENDPOINT")
    (overrideString (sto_Region c) "FORGE_STORAGE_REGION")
    (overrideString (sto_Bucket c) "FORGE_STORAGE_BUCKET")
    (secret "FORGE_STORAGE_ACCESS_KEY")
    (secret "FORGE_STORAGE_SECRET_KEY")
    (overrideString (sto_CapabilityEvidenceFile c) "FORGE_STORAGE_CAPABILITY_EVIDENCE_FILE")
    (overrideBool (sto_PathStyle c) "FORGE_STORAGE_PATH_STYLE")
    (overrideBool (sto_TLS c) "FORGE_STORAGE_TLS")
    (overrideString (sto_TLSCAFile c) "FORGE_STORAGE_TLS_CA_FILE")
    (overrideString (sto_TLSCertFile c) "FORGE_STORAGE_TLS_CERT_FILE")
    (overrideString (sto_TLSKeyFile c) "FORGE_STORAGE_TLS_KEY_FILE")
    (overrideString (sto_TLSServerName c) "FORGE_STORAGE_TLS_SERVER_NAME").

Definition applyDiscovery (c : DiscoveryConfig) : DiscoveryConfig :=
  mkDiscoveryConfig
    (overrideString (dis_Provider c) "FORGE_DISCOVERY_PROVIDER")
    (overrideCSV (dis_Servers c) "FORGE_NACOS_SERVERS")
    (overrideString (dis_Namespace c) "FORGE_NACOS_NAMESPACE")
    (overrideString (dis_Group c) "FORGE_NACOS_GROUP")
    (overrideString (dis_Cluster c) "FORGE_NACOS_CLUSTER")
    (overrideString (dis_ServiceName c) "FORGE_DISCOVERY_SERVICE_NAME")
    (overrideString (dis_GRPCServiceName c) "FORGE_DISCOVERY_GRPC_SERVICE_NAME")
    (overrideString (dis_AdvertiseIP c) "FORGE_DISCOVERY_ADVERTISE_IP")
    (overrideUint64 (dis_AdvertisePort c) "FORGE_DISCOVERY_ADVERTISE_PORT")
    (overrideUint64 (dis_AdvertiseGRPCPort c) "FORGE_DISCOVERY_ADVERTISE_GRPC_PORT")
    (dis_Weight c)
    (dis_Metadata c)
    (secret "FORGE_NACOS_USERNAME")
    (secret "FORGE_NACOS_PASSWORD")
    (overrideBool (dis_TLSRequired c) "FORGE_NACOS_TLS_REQUIRED")
    (overrideString (dis_TLSCAFile c) "FORGE_NACOS_TLS_CA_FILE")
    (overrideString (dis_TLSCertFile c) "FORGE_NACOS_TLS_CERT_FILE")
    (overrideString (dis_TLSKeyFile c) "FORGE_NACOS_TLS_KEY_FILE")
    (overrideString (dis_TLSServerName c) "FORGE_NACOS_TLS_SERVER_NAME").

Definition applyRemoteConfig (c : RemoteConfigConfig) : RemoteConfigConfig :=
  mkRemoteConfigConfig
    (overrideString (rem_Provider c) "FORGE_REMOTE_CONFIG_PROVIDER")
    (overrideCSV (rem_Servers c) "FORGE_NACOS_SERVERS")
    (overrideString (rem_Namespace c) "FORGE_NACOS_NAMESPACE")
    (overrideString (rem_Group c) "FORGE_NACOS_CONFIG_GROUP")
    (overrideString (rem_DataID c) "FORGE_NACOS_CONFIG_DATA_ID")
    (overrideBool (rem_FailFast c) "FORGE_REMOTE_CONFIG_FAIL_FAST")
    (secret "FORGE_NACOS_USERNAME")
    (secret "FORGE_NACOS_PASSWORD")
    (overrideBool (rem_TLSRequired c) "FORGE_NACOS_TLS_REQUIRED")
    (overrideString (rem_TLSCAFile c) "FORGE_NACOS_TLS_CA_FILE")
    (overrideString (rem_TLSCertFile c) "FORGE_NACOS_TLS_CERT_FILE")
    (overrideString (rem_TLSKeyFile c) "FORGE_NACOS_TLS_KEY_FILE")
    (overrideString (rem_TLSServerName c) "FORGE_NACOS_TLS_SERVER_NAME").

Definition applySecurity (c : SecurityConfig) : SecurityConfig :=
  mkSecurityConfig
    (overrideDuration (sec_SessionTTL c) "FORGE_SESSION_TTL")
    (overrideBool (sec_SecureCookies c) "FORGE_SECURE_COOKIES")
    (overrideString (sec_SameSite c) "FORGE_SAME_SITE")
    (overrideInt (sec_PasswordMinLength c) "FORGE_PASSWORD_MIN_LENGTH")
    (overrideBool (sec_PasswordUpper c) "FORGE_PASSWORD_REQUIRE_UPPER")
    (overrideBool (sec_PasswordLower c) "FORGE_PASSWORD_REQUIRE_LOWER")
    (overrideBool (sec_PasswordDigit c) "FORGE_PASSWORD_REQUIRE_DIGIT")
    (overrideBool (sec_PasswordSymbol c) "FORGE_PASSWORD_REQUIRE_SYMBOL")
    (overrideInt (sec_PasswordHistory c) "FORGE_PASSWORD_HISTORY")
    (overrideInt (sec_PasswordMaxAgeDay c) "FORGE_PASSWORD_MAX_AGE_DAYS")
    (overrideInt (sec_LoginMaxFailures c) "FORGE_LOGIN_MAX_FAILURES")
    (overrideDuration (sec_LoginLockDuration c) "FORGE_LOGIN_LOCK_DURATION")
    (overrideString (sec_CryptoProvider c) "FORGE_CRYPTO_PROVIDER")
    (overrideString (sec_CryptoKeySource c) "FORGE_CRYPTO_KEY_SOURCE")
    (secret "FORGE_CRYPTO_KEY")
    (overrideString (sec_CryptoKeyVersion c) "FORGE_CRYPTO_KEY_VERSION")
    (overrideCSV (sec_AllowedOrigins c) "FORGE_ALLOWED_ORIGINS")
    (overrideCSV (sec_TrustedProxies c) "FORGE_TRUSTED_PROXIES").

Definition applyObservability (c : ObservabilityConfig) : ObservabilityConfig :=
  mkObservabilityConfig
    (overrideString (obs_LogLevel c) "FORGE_LOG_LEVEL")
    (overrideString (obs_LogFormat c) "FORGE_LOG_FORMAT")
    (overrideBool (obs_MetricsEnabled c) "FORGE_METRICS_ENABLED")
    (overrideString (obs_MetricsPath c) "FORGE_METRICS_PATH")
    (overrideBool (obs_TracingEnabled c) "FORGE_TRACING_ENABLED")
    (overrideString (obs_OTLPEndpoint c) "FORGE_OTLP_ENDPOINT")
    (overrideBool (obs_OTLPTLS c) "FORGE_OTLP_TLS")
    (overrideString (obs_OTLPTLSCAFile c) "FORGE_OTLP_TLS_CA_FILE")
    (overrideString (obs_OTLPTLSCertFile c) "FORGE_OTLP_TLS_CERT_FILE")
    (overrideString (obs_OTLPTLSKeyFile c) "FORGE_OTLP_TLS_KEY_FILE")
    (overrideString (obs_OTLPTLSServerName c) "FORGE_OTLP_TLS_SERVER_NAME")
    (overrideBool (obs_PprofEnabled c) "FORGE_PPROF_ENABLED").

Definition applyResilience (c : ResilienceConfig) : ResilienceConfig :=
  mkResilienceConfig
    (overrideDuration (res_DependencyTimeout c) "FORGE_DEPENDENCY_TIMEOUT")
    (overrideInt (res_RetryMaxAttempts c) "FORGE_RETRY_MAX_ATTEMPTS")
    (overrideDuration (res_RetryBaseDelay c) "FORGE_RETRY_BASE_DELAY")
    (overrideInt (res_CircuitFailureThreshold c) "FORGE_CIRCUIT_FAILURE_THRESHOLD")
    (overrideDuration (res_CircuitOpenDuration c) "FORGE_CIRCUIT_OPEN_DURATION")
    (overrideInt (res_BulkheadConcurrency c) "FORGE_BULKHEAD_CONCURRENCY").

Definition applyCompliance (c : ComplianceConfig) : ComplianceConfig :=
  mkComplianceConfig
    (overrideString (cmp_Profile c) "FORGE_COMPLIANCE_PROFILE")
    (overrideInt (cmp_AuditRetentionDays c) "FORGE_AUDIT_RETENTION_DAYS")
    (overrideInt (cmp_NetworkLogRetentionDays c) "FORGE_NETWORK_LOG_RETENTION_DAYS")
    (overrideBool (cmp_SensitiveDataMasking c) "FORGE_SENSITIVE_DATA_MASKING")
    (overrideBool (cmp_DisableDebugEndpoints c) "FORGE_DISABLE_DEBUG_ENDPOINTS").

Definition applyNotification (c : NotificationConfig) : NotificationConfig :=
  mkNotificationConfig
    (overrideString (ntf_Provider c) "FORGE_NOTIFICATION_PROVIDER")
    (overrideString (ntf_Topic c) "FORGE_NOTIFICATION_TOPIC")
    (overrideString (ntf_SMTPAddress c) "FORGE_SMTP_ADDRESS")
    (secret "FORGE_SMTP_USERNAME")
    (secret "FORGE_SMTP_PASSWORD")
    (overrideString (ntf_SMTPTLSMode c) "FORGE_SMTP_TLS_MODE")
    (overrideString (ntf_SMTPCACertFile c) "FORGE_SMTP_TLS_CA_FILE")
    (overrideString (ntf_SMTPCertFile c) "FORGE_SMTP_TLS_CERT_FILE")
    (overrideString (ntf_SMTPKeyFile c) "FORGE_SMTP_TLS_KEY_FILE")
    (overrideString (ntf_SMTPTLSServer c) "FORGE_SMTP_TLS_SERVER_NAME").

Definition applySIEM (c : SIEMConfig) : SIEMConfig :=
  mkSIEMConfig
    (overrideString (siem_Provider c) "FORGE_SIEM_PROVIDER")
    (overrideString (siem_Topic c) "FORGE_SIEM_TOPIC")
    (overrideString (siem_Address c) "FORGE_SIEM_ADDRESS")
    (overrideString (siem_TLSCAFile c) "FORGE_SIEM_TLS_CA_FILE")
    (overrideString (siem_TLSCertFile c) "FORGE_SIEM_TLS_CERT_FILE")
    (overrideString (siem_TLSKeyFile c) "FORGE_SIEM_TLS_KEY_FILE")
    (overrideString (siem_TLSServerName c) "FORGE_SIEM_TLS_SERVER_NAME").

Definition applyDeliveryEnvironment (cfg : Config) : Config :=
  cfg <| cfg_Notification := applyNotification (cfg_Notification cfg) |> <| cfg_SIEM := applySIEM (cfg_SIEM cfg) |>.

Definition ApplyEnvironment (cfg : Config) : Config :=
  applyDeliveryEnvironment {|
    cfg_App := applyApp (cfg_App cfg);
    cfg_Server := applyServer (cfg_Server cfg);
    cfg_Database := applyDatabase (cfg_Database cfg);
    cfg_Cache := applyCache (cfg_Cache cfg);
    cfg_Messaging := applyMessaging (cfg_Messaging cfg);
    cfg_Streaming := applyStreaming (cfg_Streaming cfg);
    cfg_Search := applySearch (cfg_Search cfg);
    cfg_Storage := applyStorage (cfg_Storage cfg);
    cfg_Discovery := applyDiscovery (cfg_Discovery cfg);
    cfg_RemoteConfig := applyRemoteConfig (cfg_RemoteConfig cfg);
    cfg_Security := applySecurity (cfg_Security cfg);
    cfg_Observability := applyObservability (cfg_Observability cfg);
    cfg_Resilience := applyResilience (cfg_Resilience cfg);
    cfg_Compliance := applyCompliance (cfg_Compliance cfg);
    cfg_Features := cfg_Features cfg;
    cfg_Notification := cfg_Notification cfg;
    cfg_SIEM := cfg_SIEM cfg
  |}.
End environment.

(** ** Validation *)

Definition isProduction (environment : string) : bool := contains ["production"; "prod"] (ToLower (TrimSpace environment)).

(** What the code reads of a [url.URL]. *)
Record URL := mkURL {
  u_Scheme : string;
  u_User : bool;
  u_Host : string;
  u_Path : string;
  u_RawQuery : string;
  u_Fragment : string
}.

Definition when (failed : bool) (message : string) : list string := if failed then [message] else [].

Definition dquote : string := String "034" "".

Definition mysqlTLSMode (dsn : string) : result string :=
  match LastIndexByte dsn "?" with
  | None => Ok ""
  | Some index =>
    if Z.of_nat index =? slen dsn - 1 then Ok ""
    else
      let '(query, ok) := ParseQuery (sdrop (Datatypes.S index) dsn) in
      if (ok : bool) then Ok (ToLower (TrimSpace (query_Get query "tls")))
      else Err (Errorf "invalid MySQL-compatible DSN parameters" [])
  end.

(** The mode of a DSN of fields: the first that is given. *)
Fixpoint sslmode_field (fields : list string) : string :=
  match fields with
  | [] => ""
  | field :: rest =>
    let '(key, value, ok) := Cut field "=" in
    if ok && EqualFold (TrimSpace key) "sslmode" then ToLower (Trim (TrimSpace value) ("'" +:+ dquote))
    else sslmode_field rest
  end.

Section validation.
Context (url_Parse : string -> option URL).

Definition isHTTPSURL (value : string) : bool :=
  match url_Parse (TrimSpace value) with
  | Some u => EqualFold (u_Scheme u) "https" && (u_Host u <>s "")
  | None => false
  end.

Definition postgresSSLMode (dsn : string) : result string :=
  if Contains dsn "://" then
    match url_Parse dsn with
    | None => Err (Errorf "invalid PostgreSQL DSN" [])
    | Some u => Ok (ToLower (TrimSpace (query_Get (ParseQuery (u_RawQuery u)).1 "sslmode")))
    end
  else Ok (sslmode_field (Fields dsn)).

(** The message of the error, if there is one. *)
Definition validateDatabaseTLS (provider dsn : string) : option string :=
  let p := ToLower (TrimSpace provider) in
  if p =s "postgres" then
    match postgresSSLMode dsn with
    | Err _ => Some "invalid PostgreSQL DSN"
    | Ok mode => if mode <>s "verify-full" then Some "PostgreSQL sslmode must be verify-full in production" else None
    end
  else if contains ["mysql"; "oceanbase"] p then
    match mysqlTLSMode dsn with
    | Err _ => Some "invalid MySQL-compatible DSN parameters"
    | Ok mode => if mode <>s "true" then Some "MySQL-compatible tls must be true in production" else None
    end
  else None.

Definition dsn_error (label provider dsn : string) : list string :=
  match validateDatabaseTLS provider dsn with Some err => [label +:+ ": " +:+ err] | None => [] end.

(** The checks of the database that both validations begin with. *)
Definition database_provider_errors (c : Config) : list string :=
  when (negb (contains ["postgres"; "mysql"; "oceanbase"] (dbc_Provider (cfg_Database c))))
    "database.provider must be postgres|mysql|oceanbase" ++
  when (dbc_DSN (cfg_Database c) =s "") "FORGE_DATABASE_DSN is required".
Definition database_tls_errors (c : Config) : list string :=
  let d := cfg_Database c in
  if isProduction (app_Environment (cfg_App c)) then
    dsn_error "database DSN" (dbc_Provider d) (dbc_DSN d) ++
    (if dbc_ReadOnlyDSN d <>s "" then dsn_error "read-only database DSN" (dbc_Provider d) (dbc_ReadOnlyDSN d) else [])
  else [].

Definition refusal (errs : list string) : result unit :=
  if (length errs =? 0)%nat then Ok tt else Err (Errorf (Join errs "; ") []).

Definition ValidateDatabase (c : Config) : result unit :=
  let d := cfg_Database c in
  refusal (database_provider_errors c ++
    when ((dbc_MaxOpenConns d <? 1) || (dbc_MaxIdleConns d <? 0) || (dbc_MaxOpenConns d <? dbc_MaxIdleConns d))
      "database pool settings are invalid" ++
    database_tls_errors c).

Definition cache_errors (production : bool) (c : CacheConfig) : list string :=
  when (negb (contains ["disabled"; "memory"; "redis"] (cac_Provider c))) "cache.provider must be disabled|memory|redis" ++
  when ((cac_Provider c =s "redis") && (llen (cac_Addresses c) =? 0)) "cache.addresses is required for redis" ++
  when ((cac_Provider c =s "redis") && production && negb (cac_TLS c)) "cache.tls must be enabled for redis in production" ++
  when ((cac_Mode c <>s "") && (cac_Mode c <>s "standalone") && (cac_Mode c <>s "sentinel") && (cac_Mode c <>s "cluster"))
    "cache.mode must be standalone|sentinel|cluster".

Definition messaging_errors (production : bool) (c : MessagingConfig) : list string :=
  let rocketmq := mq_Provider c =s "rocketmq" in
  when (negb (contains ["disabled"; "rocketmq"] (mq_Provider c))) "messaging.provider must be disabled|rocketmq" ++
  when (rocketmq && (mq_RocketMQEndpoint c =s "")) "messaging.rocketmq_endpoint required for rocketmq" ++
  when (rocketmq && (llen (mq_RocketMQTopics c) =? 0)) "messaging.rocketmq_topics required for rocketmq" ++
  when (rocketmq && ((mq_RocketMQAccessKey c =s "") || (mq_RocketMQSecretKey c =s "")))
    "FORGE_ROCKETMQ_ACCESS_KEY and FORGE_ROCKETMQ_SECRET_KEY are required for rocketmq" ++
  when (production && rocketmq && negb (mq_TLS c)) "messaging.tls must be enabled in production".

Definition streaming_errors (production : bool) (c : StreamingConfig) : list string :=
  when (negb (contains ["disabled"; "kafka"] (str_Provider c))) "streaming.provider must be disabled|kafka" ++
  when ((str_Provider c =s "kafka") && (llen (str_Brokers c) =? 0)) "streaming.brokers required for kafka" ++
  when (production && (str_Provider c =s "kafka") && negb (str_TLS c)) "streaming.tls must be enabled in production".

Definition search_errors (production : bool) (c : SearchConfig) : list string :=
  when (negb (contains ["disabled"; "elasticsearch"; "opensearch"] (sea_Provider c)))
    "search.provider must be disabled|elasticsearch|opensearch" ++
  when ((sea_Provider c <>s "disabled") && (llen (sea_URLs c) =? 0)) "search.urls required when search is enabled" ++
  (if production && (sea_Provider c <>s "disabled") then
     when (negb (sea_TLS c)) "search.tls must be enabled in production" ++
     when (existsb (fun endpoint => negb (isHTTPSURL endpoint)) (sea_URLs c)) "search.urls must use https in production"
   else []).

Definition storage_providers : list string :=
  ["local"; "s3"; "aws"; "aws-s3"; "amazon-s3"; "s3-compatible"; "s3_compatible"; "minio"; "minio-s3"; "oss"; "aliyun-oss";
   "alibaba-oss"; "cos"; "tencent-cos"; "ceph"; "ceph-rgw"; "radosgw"; "obs"; "huawei-obs"].
Definition storage_errors (production : bool) (c : StorageConfig) : list string :=
  let provider := normalizeStorageProvider (sto_Provider c) in
  when (negb (contains storage_providers (sto_Provider c)))
    "storage.provider must be local|s3 (aliases: aws-s3/minio/ceph-rgw/alibaba-oss/tencent-cos/huawei-obs)" ++
  when ((provider =s "s3") && (sto_Bucket c =s "")) "storage.bucket required for s3" ++
  (if production && (provider =s "s3") then
     when (negb (sto_TLS c)) "storage.tls must be enabled for s3 in production" ++
     when ((TrimSpace (sto_Endpoint c) <>s "") && negb (isHTTPSURL (sto_Endpoint c))) "storage.endpoint must use https in production"
   else []) ++
  when ((provider =s "local") && (TrimSpace (sto_LocalRoot c) =s "")) "storage.local_root required for local storage".

Definition nacos_errors (d : DiscoveryConfig) (r : RemoteConfigConfig) : list string :=
  when (negb (contains ["disabled"; "nacos"] (dis_Provider d))) "discovery.provider must be disabled|nacos" ++
  (if dis_Provider d =s "nacos" then
     when (llen (dis_Servers d) =? 0) "discovery.servers required for nacos" ++
     when ((dis_AdvertiseIP d =s "") || (dis_AdvertisePort d =? 0) || (dis_AdvertiseGRPCPort d =? 0))
       "nacos discovery requires advertise_ip, advertise_port and advertise_grpc_port" ++
     when ((dis_ServiceName d <>s "") && (dis_ServiceName d =s dis_GRPCServiceName d))
       "nacos HTTP and gRPC service names must differ"
   else []) ++
  when (negb (contains ["disabled"; "nacos"] (rem_Provider r))) "remote_config.provider must be disabled|nacos" ++
  when ((rem_Provider r =s "nacos") && ((llen (rem_Servers r) =? 0) || (rem_DataID r =s "")))
    "nacos remote config requires servers and data_id".

Definition productionSecurityFloorErrors (c : Config) : list string :=
  let s := cfg_Security c in
  when (sec_PasswordMinLength s <? 12) "security.password_min_length must be >= 12 in production" ++
  when (negb (sec_PasswordUpper s) || negb (sec_PasswordLower s) || negb (sec_PasswordDigit s) || negb (sec_PasswordSymbol s))
    "security.password character-class requirements cannot be disabled in production" ++
  when (sec_PasswordHistory s <? 5) "security.password_history must be >= 5 in production" ++
  when ((sec_PasswordMaxAgeDay s <? 1) || (90 <? sec_PasswordMaxAgeDay s))
    "security.password_max_age_days must be between 1 and 90 in production" ++
  when ((sec_LoginMaxFailures s <? 1) || (5 <? sec_LoginMaxFailures s))
    "security.login_max_failures must be between 1 and 5 in production" ++
  when (sec_LoginLockDuration s <? 15 * Minute) "security.login_lock_duration must be >= 15m in production" ++
  when ((sec_SessionTTL s <=? 0) || (12 * Hour <? sec_SessionTTL s)) "security.session_ttl must be between 1s and 12h in production".

Definition key_source (s : SecurityConfig) : string := ToLower (TrimSpace (sec_CryptoKeySource s)).
Definition security_errors (production : bool) (c : Config) : list string :=
  let s := cfg_Security c in
  when (sec_PasswordMinLength s <? 8) "security.password_min_length must be >= 8" ++
  when ((sec_PasswordHistory s <? 0) || (24 <? sec_PasswordHistory s)) "security.password_history must be 0..24" ++
  (if production then productionSecurityFloorErrors c else []) ++
  when (negb (contains ["standard"; "gm"] (sec_CryptoProvider s))) "security.crypto_provider must be standard|gm" ++
  when (negb (contains ["software"; "adapter"] (key_source s))) "security.crypto_key_source must be software|adapter" ++
  when (production && (key_source s <>s "adapter")) "security.crypto_key_source=adapter is required in production" ++
  when (EqualFold (sec_SameSite s) "none" && negb (sec_SecureCookies s)) "security.same_site=none requires secure_cookies=true".

(** The pairs of the map literal are visited in an unspecified order: the
    messages stand here in that of the source. *)
Definition pair_error (name cert key : string) : list string :=
  when (negb (Bool.eqb (cert =s "") (key =s ""))) (name +:+ " tls_cert_file and tls_key_file must be configured together").
Definition tls_pair_errors (c : Config) : list string :=
  pair_error "redis" (cac_TLSCertFile (cfg_Cache c)) (cac_TLSKeyFile (cfg_Cache c)) ++
  pair_error "messaging" (mq_TLSCertFile (cfg_Messaging c)) (mq_TLSKeyFile (cfg_Messaging c)) ++
  pair_error "streaming" (str_TLSCertFile (cfg_Streaming c)) (str_TLSKeyFile (cfg_Streaming c)) ++
  pair_error "search" (sea_TLSCertFile (cfg_Search c)) (sea_TLSKeyFile (cfg_Search c)) ++
  pair_error "storage" (sto_TLSCertFile (cfg_Storage c)) (sto_TLSKeyFile (cfg_Storage c)) ++
  pair_error "otlp" (obs_OTLPTLSCertFile (cfg_Observability c)) (obs_OTLPTLSKeyFile (cfg_Observability c)).

Definition validWebCSPOrigin (source : string) (production : bool) : bool :=
  if (source =s "") || (512 <? slen source) || ContainsAny source ("*'" +:+ dquote +:+ ";,") then false
  else
    match url_Parse source with
    | None => false
    | Some parsed =>
      if (u_Host parsed =s "") || u_User parsed || (u_RawQuery parsed <>s "") || (u_Fragment parsed <>s "") then false
      else if (u_Path parsed <>s "") && (u_Path parsed <>s "/") then false
      else if production then u_Scheme parsed =s "https"
      else (u_Scheme parsed =s "https") || (u_Scheme parsed =s "http")
    end.

(** The sources of a directive: exact origins, once each. *)
Fixpoint csp_errors (name : string) (production : bool) (seen sources : list string) : list string :=
  match sources with
  | [] => []
  | source :: rest =>
    let source := TrimSpace source in
    if negb (validWebCSPOrigin source production) then
      (name +:+ " must contain exact HTTP(S) origins and use HTTPS in production") :: csp_errors name production seen rest
    else
      when (contains seen source) (name +:+ " must not contain duplicates") ++ csp_errors name production (source :: seen) rest
  end.

Definition validApprovalReference (value : string) : bool :=
  GoString.in_range 6 128 (slen value) &&
  forallb (fun r => let char := rune_val r in
    GoString.in_range 97 122 char || GoString.in_range 65 90 char || GoString.in_range 48 57 char || existsb (Z.eqb char) [46; 95; 58; 47; 45]) (runes value).

Definition server_errors (production : bool) (s : ServerConfig) : list string :=
  let approvalRef := TrimSpace (srv_WebCSPWujieApprovalRef s) in
  when (srv_ListenAddr s =s "") "server.listen_addr is required" ++
  when (srv_GRPCListenAddr s =s "") "server.grpc_listen_addr is required" ++
  when (srv_TLSEnabled s && ((srv_TLSCertFile s =s "") || (srv_TLSKeyFile s =s ""))) "tls enabled requires tls_cert_file and tls_key_file" ++
  when (srv_RequireClientTLS s && (srv_TLSClientCAFile s =s "")) "client mTLS requires tls_client_ca_file" ++
  csp_errors "server.web_csp_frame_sources" production [] (srv_WebCSPFrameSources s) ++
  csp_errors "server.web_csp_connect_sources" production [] (srv_WebCSPConnectSources s) ++
  when (srv_WebCSPWujieEnabled s && negb (validApprovalReference approvalRef))
    "server.web_csp_wujie_enabled requires a valid web_csp_wujie_approval_ref" ++
  when (negb (srv_WebCSPWujieEnabled s) && (approvalRef <>s ""))
    "server.web_csp_wujie_approval_ref requires web_csp_wujie_enabled=true".

Definition observability_errors (production : bool) (o : ObservabilityConfig) : list string :=
  when (obs_MetricsEnabled o && negb (HasPrefix (obs_MetricsPath o) "/")) "observability.metrics_path must start with /" ++
  when (obs_TracingEnabled o && (TrimSpace (obs_OTLPEndpoint o) =s ""))
    "observability.otlp_endpoint is required when tracing is enabled" ++
  (if production && obs_TracingEnabled o then
     when (negb (obs_OTLPTLS o)) "observability.otlp_tls must be enabled in production" ++
     when (negb (isHTTPSURL (obs_OTLPEndpoint o))) "observability.otlp_endpoint must use https in production"
   else []).

(** [contains] of [delivery.go]. *)
Definition has_topic (values : list string) (target : string) : bool :=
  existsb (fun value => TrimSpace value =s TrimSpace target) values.

Definition validateDelivery (c : Config) : list string :=
  let n := cfg_Notification c in let s := cfg_SIEM c in let topics := mq_RocketMQTopics (cfg_Messaging c) in
  let smtp := ntf_Provider n =s "smtp" in let cef := siem_Provider s =s "cef-tls" in
  when ((ntf_Provider n <>s "disabled") && (ntf_Provider n <>s "smtp")) "notification.provider must be disabled|smtp" ++
  when ((siem_Provider s <>s "disabled") && (siem_Provider s <>s "cef-tls")) "siem.provider must be disabled|cef-tls" ++
  (if smtp then
     when ((TrimSpace (ntf_SMTPAddress n) =s "") || (TrimSpace (ntf_Topic n) =s "")) "notification smtp requires smtp_address and topic" ++
     when ((ntf_SMTPTLSMode n <>s "starttls") && (ntf_SMTPTLSMode n <>s "implicit")) "notification.smtp_tls_mode must be starttls|implicit" ++
     when (negb (Bool.eqb (ntf_SMTPCertFile n =s "") (ntf_SMTPKeyFile n =s "")))
       "notification smtp tls cert and key must be configured together" ++
     when (negb (has_topic topics (ntf_Topic n))) "notification topic must be included in messaging.rocketmq_topics"
   else []) ++
  (if cef then
     when ((TrimSpace (siem_Address s) =s "") || (TrimSpace (siem_Topic s) =s "")) "siem cef-tls requires address and topic" ++
     when (negb (Bool.eqb (siem_TLSCertFile s =s "") (siem_TLSKeyFile s =s ""))) "siem tls cert and key must be configured together" ++
     when (negb (has_topic topics (siem_Topic s))) "siem topic must be included in messaging.rocketmq_topics"
   else []) ++
  when ((smtp || cef) && (mq_Provider (cfg_Messaging c) <>s "rocketmq"))
    "enabled notification or siem delivery requires messaging.provider=rocketmq" ++
  (if isProduction (app_Environment (cfg_App c)) then
     when (smtp && (ntf_SMTPTLSMode n =s "starttls") && (TrimSpace (ntf_SMTPCACertFile n) =s ""))
       "notification smtp requires smtp_tls_ca_file in production" ++
     when (cef && (TrimSpace (siem_TLSCAFile s) =s "")) "siem requires tls_ca_file in production"
   else []).

Definition resilience_errors (r : ResilienceConfig) : list string :=
  when ((res_RetryMaxAttempts r <? 1) || (res_CircuitFailureThreshold r <? 1) || (res_BulkheadConcurrency r <? 1))
    "resilience values must be positive".
Definition compliance_errors (c : ComplianceConfig) : list string :=
  when ((cmp_NetworkLogRetentionDays c <? 183) && ((cmp_Profile c =s "mlps3") || (cmp_Profile c =s "financial")))
    "mlps3/financial profile requires network_log_retention_days >= 183".

Definition Validate (c : Config) : result unit :=
  let production := isProduction (app_Environment (cfg_App c)) in
  refusal (database_provider_errors c ++ database_tls_errors c ++
    cache_errors production (cfg_Cache c) ++ messaging_errors production (cfg_Messaging c) ++
    streaming_errors production (cfg_Streaming c) ++ search_errors production (cfg_Search c) ++
    storage_errors production (cfg_Storage c) ++ nacos_errors (cfg_Discovery c) (cfg_RemoteConfig c) ++
    security_errors production c ++ tls_pair_errors c ++ server_errors production (cfg_Server c) ++
    observability_errors production (cfg_Observability c) ++ resilience_errors (cfg_Resilience c) ++
    compliance_errors (cfg_Compliance c) ++
    when (production && dbc_AutoMigrate (cfg_Database c))
      "database.auto_migrate must be false in production; run forge-migrate as a one-shot release job" ++
    validateDelivery c).

(** ** Loading *)

(** [yaml.Unmarshal] into a configuration that is there already; the keys that
    are left out keep their values. *)
Context (yaml_Unmarshal : string -> Config -> result Config) (os : Surroundings).

Definition read_yaml (cfg : Config) : result Config :=
  let p := env_value os "FORGE_CONFIG" in
  if p <>s "" then
    match securefile_Read os p with
    | Err err => Err (Wrapf "config read: %w" [] err)
    | Ok b => match yaml_Unmarshal b cfg with Ok cfg => Ok cfg | Err err => Err (Wrapf "config parse: %w" [] err) end
    end
  else Ok cfg.

Definition Load : result Config :=
  cfg ← read_yaml Default;
  let cfg := ApplyEnvironment os cfg in
  _ ← Validate cfg;
  Ok cfg.

Definition LoadForMigration : result Config :=
  cfg ← read_yaml Default;
  let cfg := ApplyEnvironment os cfg in
  _ ← ValidateDatabase cfg;
  Ok cfg.

Definition MergeYAML (cfg : Config) (raw : string) : result Config :=
  if slen (TrimSpace raw) =? 0 then Ok cfg
  else
    match yaml_Unmarshal raw cfg with
    | Err err => Err (Wrapf "remote config parse: %w" [] err)
    | Ok cfg => let cfg := ApplyEnvironment os cfg in _ ← Validate cfg; Ok cfg
    end.

(** How the application starts: the client of the remote configuration may not
    come up, nor answer. *)
Definition startup (remote : RemoteConfigConfig -> result (result string)) : result Config :=
  cfg ← Load;
  let r := cfg_RemoteConfig cfg in
  if (rem_Provider r <>s "") && (rem_Provider r <>s "disabled") then
    match remote r with
    | Err err => if rem_FailFast r then Err (Wrapf "remote config: %w" [] err) else Ok cfg
    | Ok (Err err) => if rem_FailFast r then Err (Wrapf "remote config load: %w" [] err) else Ok cfg
    | Ok (Ok raw) => if 0 <? slen raw then MergeYAML cfg raw else Ok cfg
    end
  else Ok cfg.
End validation.

(** What the identity service is made with. *)
Definition identity_options (s : SecurityConfig) : SecurityPolicy.Options :=
  SecurityPolicy.mkOptions (sec_PasswordMinLength s) (sec_PasswordUpper s) (sec_PasswordLower s) (sec_PasswordDigit s) (sec_PasswordSymbol s)
    (sec_PasswordHistory s) (sec_PasswordMaxAgeDay s) (sec_SessionTTL s) (sec_LoginMaxFailures s) (sec_LoginLockDuration s).

(** [factory] is what the operator injects, [crypto_New] the provider with a
    software key. *)
Definition newCryptoProvider {Provider} (factory : option (SecurityConfig -> result (option Provider)))
    (crypto_New : string -> string -> string -> result Provider) (s : SecurityConfig) : result Provider :=
  if key_source s =s "adapter" then
    match factory with
    | None => Err (Errorf "crypto key source adapter requires an injected KMS/HSM/password-device provider" [])
    | Some factory =>
      match factory s with
      | Err err => Err (Wrapf "crypto adapter: %w" [] err)
      | Ok None => Err (Errorf "crypto adapter returned a nil provider" [])
      | Ok (Some provider) => Ok provider
      end
    end
  else if key_source s <>s "software" then Err (Errorf "unsupported crypto key source %q" [FStr (sec_CryptoKeySource s)])
  else crypto_New (sec_CryptoProvider s) (sec_CryptoKey s) (sec_CryptoKeyVersion s).

(** [storage.New], up to the client of the target: the profile and its
    contract, nothing for the local store. *)
Definition storage_New (read : string -> result string) (unmarshal : string -> result CapabilityContract)
    (mkdir : string -> result unit) (c : StorageConfig) : result (option (string * CapabilityContract)) :=
  profile ← ResolveProviderProfile (sto_Provider c);
  if profile =s ProviderProfileLocal then _ ← mkdir (sto_LocalRoot c); Ok None
  else if TrimSpace (sto_CapabilityEvidenceFile c) <>s "" then
    contract ← LoadCapabilityContract read unmarshal (sto_CapabilityEvidenceFile c);
    if cc_Profile contract <>s profile then
      Err (Errorf "storage capability contract profile %q does not match configured profile %q" [FStr (cc_Profile contract); FStr profile])
    else Ok (Some (profile, contract))
  else Ok (Some (profile, defaultCapabilityContract profile)).

(** [storage.NewWithCapabilityContract]. *)
Definition NewWithCapabilityContract (c : StorageConfig) (contract : CapabilityContract) : result (string * CapabilityContract) :=
  profile ← ResolveProviderProfile (sto_Provider c);
  if profile <>s cc_Profile contract then
    Err (Errorf "storage capability contract profile %q does not match configured profile %q" [FStr (cc_Profile contract); FStr profile])
  else _ ← Storage.Validate contract [CapabilityBasicObjectIO]; Ok (profile, contract).

(** ** The environment wins *)

(** The settings and the variables that they are overridden by. *)
Inductive setting :=
| SString (get : Config -> string) (key : string)
| SBool (get : Config -> bool) (key : string)
| SInt (get : Config -> Z) (key : string)
| SUint (get : Config -> Z) (key : string)
| SDuration (get : Config -> Duration) (key : string)
| SCSV (get : Config -> list string) (key : string).

(** A variable that is set, and parses, is the value of its setting. *)
Definition settled (os : Surroundings) (c : Config) (s : setting) : Prop :=
  match s with
  | SString get key => env_value os key <> "" -> get c = env_value os key
  | SBool get key => forall b, ParseBool (env_value os key) = Some b -> get c = b
  | SInt get key => forall z, Atoi (env_value os key) = Some z -> get c = z
  | SUint get key => forall z, ParseUint (env_value os key) 64 = Some z -> get c = z
  | SDuration get key => forall d, ParseDuration (env_value os key) = Some d -> get c = d
  | SCSV get key => env_value os key <> "" -> get c = csv_values (env_value os key)
  end.

Definition secrets : list ((Config -> string) * string) :=
  [(fun c => dbc_DSN (cfg_Database c), "FORGE_DATABASE_DSN");
   (fun c => dbc_ReadOnlyDSN (cfg_Database c), "FORGE_DATABASE_READONLY_DSN");
   (fun c => cac_Username (cfg_Cache c), "FORGE_REDIS_USERNAME");
   (fun c => cac_Password (cfg_Cache c), "FORGE_REDIS_PASSWORD");
   (fun c => mq_RocketMQAccessKey (cfg_Messaging c), "FORGE_ROCKETMQ_ACCESS_KEY");
   (fun c => mq_RocketMQSecretKey (cfg_Messaging c), "FORGE_ROCKETMQ_SECRET_KEY");
   (fun c => str_Username (cfg_Streaming c), "FORGE_KAFKA_USERNAME");
   (fun c => str_Password (cfg_Streaming c), "FORGE_KAFKA_PASSWORD");
   (fun c => sea_Username (cfg_Search c), "FORGE_SEARCH_USERNAME");
   (fun c => sea_Password (cfg_Search c), "FORGE_SEARCH_PASSWORD");
   (fun c => sto_AccessKey (cfg_Storage c), "FORGE_STORAGE_ACCESS_KEY");
   (fun c => sto_SecretKey (cfg_Storage c), "FORGE_STORAGE_SECRET_KEY");
   (fun c => dis_Username (cfg_Discovery c), "FORGE_NACOS_USERNAME");
   (fun c => dis_Password (cfg_Discovery c), "FORGE_NACOS_PASSWORD");
   (fun c => rem_Username (cfg_RemoteConfig c), "FORGE_NACOS_USERNAME");
   (fun c => rem_Password (cfg_RemoteConfig c), "FORGE_NACOS_PASSWORD");
   (fun c => sec_CryptoKey (cfg_Security c), "FORGE_CRYPTO_KEY");
   (fun c => ntf_SMTPUsername (cfg_Notification c), "FORGE_SMTP_USERNAME");
   (fun c => ntf_SMTPPassword (cfg_Notification c), "FORGE_SMTP_PASSWORD")].
Definition settings : list setting :=
  [SString (fun c => app_Name (cfg_App c)) "FORGE_APP_NAME";
   SString (fun c => app_Environment (cfg_App c)) "FORGE_ENV";
   SString (fun c => app_Region (cfg_App c)) "FORGE_REGION";
   SString (fun c => app_Zone (cfg_App c)) "FORGE_ZONE";
   SString (fun c => srv_ListenAddr (cfg_Server c)) "FORGE_SERVER_LISTEN";
   SString (fun c => srv_GRPCListenAddr (cfg_Server c)) "FORGE_GRPC_LISTEN";
   SString (fun c => srv_PublicURL (cfg_Server c)) "FORGE_PUBLIC_URL";
   SString (fun c => srv_WebDir (cfg_Server c)) "FORGE_WEB_DIR";
   SCSV (fun c => srv_WebCSPFrameSources (cfg_Server c)) "FORGE_WEB_CSP_FRAME_SOURCES";
   SCSV (fun c => srv_WebCSPConnectSources (cfg_Server c)) "FORGE_WEB_CSP_CONNECT_SOURCES";
   SBool (fun c => srv_WebCSPWujieEnabled (cfg_Server c)) "FORGE_WEB_CSP_WUJIE_ENABLED";
   SString (fun c => srv_WebCSPWujieApprovalRef (cfg_Server c)) "FORGE_WEB_CSP_WUJIE_APPROVAL_REF";
   SBool (fun c => srv_TLSEnabled (cfg_Server c)) "FORGE_TLS_ENABLED";
   SString (fun c => srv_TLSCertFile (cfg_Server c)) "FORGE_TLS_CERT_FILE";
   SString (fun c => srv_TLSKeyFile (cfg_Server c)) "FORGE_TLS_KEY_FILE";
   SString (fun c => srv_TLSClientCAFile (cfg_Server c)) "FORGE_TLS_CLIENT_CA_FILE";
   SBool (fun c => srv_RequireClientTLS (cfg_Server c)) "FORGE_TLS_REQUIRE_CLIENT_CERT";
   SString (fun c => dbc_Provider (cfg_Database c)) "FORGE_DATABASE_PROVIDER";
   SInt (fun c => dbc_MaxOpenConns (cfg_Database c)) "FORGE_DATABASE_MAX_OPEN_CONNS";
   SInt (fun c => dbc_MaxIdleConns (cfg_Database c)) "FORGE_DATABASE_MAX_IDLE_CONNS";
   SDuration (fun c => dbc_MaxLifetime (cfg_Database c)) "FORGE_DATABASE_MAX_LIFETIME";
   SDuration (fun c => dbc_QueryTimeout (cfg_Database c)) "FORGE_DATABASE_QUERY_TIMEOUT";
   SBool (fun c => dbc_AutoMigrate (cfg_Database c)) "FORGE_DATABASE_AUTO_MIGRATE";
   SString (fun c => cac_Provider (cfg_Cache c)) "FORGE_CACHE_PROVIDER";
   SString (fun c => cac_Mode (cfg_Cache c)) "FORGE_REDIS_MODE";
   SString (fun c => cac_MasterName (cfg_Cache c)) "FORGE_REDIS_MASTER_NAME";
   SDuration (fun c => cac_TTL (cfg_Cache c)) "FORGE_CACHE_DEFAULT_TTL";
   SBool (fun c => cac_TLS (cfg_Cache c)) "FORGE_REDIS_TLS";
   SString (fun c => cac_TLSCAFile (cfg_Cache c)) "FORGE_REDIS_TLS_CA_FILE";
   SString (fun c => cac_TLSCertFile (cfg_Cache c)) "FORGE_REDIS_TLS_CERT_FILE";
   SString (fun c => cac_TLSKeyFile (cfg_Cache c)) "FORGE_REDIS_TLS_KEY_FILE";
   SString (fun c => cac_TLSServerName (cfg_Cache c)) "FORGE_REDIS_TLS_SERVER_NAME";
   SString (fun c => mq_Provider (cfg_Messaging c)) "FORGE_MESSAGING_PROVIDER";
   SBool (fun c => mq_TLS (cfg_Messaging c)) "FORGE_ROCKETMQ_TLS";
   SString (fun c => mq_TLSCAFile (cfg_Messaging c)) "FORGE_ROCKETMQ_TLS_CA_FILE";
   SString (fun c => mq_TLSCertFile (cfg_Messaging c)) "FORGE_ROCKETMQ_TLS_CERT_FILE";
   SString (fun c => mq_TLSKeyFile (cfg_Messaging c)) "FORGE_ROCKETMQ_TLS_KEY_FILE";
   SString (fun c => mq_TLSServerName (cfg_Messaging c)) "FORGE_ROCKETMQ_TLS_SERVER_NAME";
   SString (fun c => mq_RocketMQEndpoint (cfg_Messaging c)) "FORGE_ROCKETMQ_ENDPOINT";
   SString (fun c => mq_RocketMQGroup (cfg_Messaging c)) "FORGE_ROCKETMQ_GROUP";
   SString (fun c => mq_RocketMQNamespace (cfg_Messaging c)) "FORGE_ROCKETMQ_NAMESPACE";
   SCSV (fun c => mq_RocketMQTopics (cfg_Messaging c)) "FORGE_ROCKETMQ_TOPICS";
   SInt (fun c => mq_RocketMQBatchSize (cfg_Messaging c)) "FORGE_ROCKETMQ_BATCH_SIZE";
   SDuration (fun c => mq_RocketMQInvisibleDuration (cfg_Messaging c)) "FORGE_ROCKETMQ_INVISIBLE_DURATION";
   SDuration (fun c => mq_RocketMQAwaitDuration (cfg_Messaging c)) "FORGE_ROCKETMQ_AWAIT_DURATION";
   SString (fun c => str_Provider (cfg_Streaming c)) "FORGE_STREAMING_PROVIDER";
   SCSV (fun c => str_Brokers (cfg_Streaming c)) "FORGE_KAFKA_BROKERS";
   SString (fun c => str_ClientID (cfg_Streaming c)) "FORGE_KAFKA_CLIENT_ID";
   SBool (fun c => str_TLS (cfg_Streaming c)) "FORGE_KAFKA_TLS";
   SString (fun c => str_TLSCAFile (cfg_Streaming c)) "FORGE_KAFKA_TLS_CA_FILE";
   SString (fun c => str_TLSCertFile (cfg_Streaming c)) "FORGE_KAFKA_TLS_CERT_FILE";
   SString (fun c => str_TLSKeyFile (cfg_Streaming c)) "FORGE_KAFKA_TLS_KEY_FILE";
   SString (fun c => str_TLSServerName (cfg_Streaming c)) "FORGE_KAFKA_TLS_SERVER_NAME";
   SString (fun c => sea_Provider (cfg_Search c)) "FORGE_SEARCH_PROVIDER";
   SCSV (fun c => sea_URLs (cfg_Search c)) "FORGE_SEARCH_URLS";
   SBool (fun c => sea_TLS (cfg_Search c)) "FORGE_SEARCH_TLS";
   SString (fun c => sea_TLSCAFile (cfg_Search c)) "FORGE_SEARCH_TLS_CA_FILE";
   SString (fun c => sea_TLSCertFile (cfg_Search c)) "FORGE_SEARCH_TLS_CERT_FILE";
   SString (fun c => sea_TLSKeyFile (cfg_Search c)) "FORGE_SEARCH_TLS_KEY_FILE";
   SString (fun c => sea_TLSServerName (cfg_Search c)) "FORGE_SEARCH_TLS_SERVER_NAME";
   SString (fun c => sto_LocalRoot (cfg_Storage c)) "FORGE_STORAGE_LOCAL_ROOT";
   SString (fun c => sto_Endpoint (cfg_Storage c)) "FORGE_STORAGE_ENDPOINT";
   SString (fun c => sto_Region (cfg_Storage c)) "FORGE_STORAGE_REGION";
   SString (fun c => sto_Bucket (cfg_Storage c)) "FORGE_STORAGE_BUCKET";
   SString (fun c => sto_CapabilityEvidenceFile (cfg_Storage c)) "FORGE_STORAGE_CAPABILITY_EVIDENCE_FILE";
   SBool (fun c => sto_PathStyle (cfg_Storage c)) "FORGE_STORAGE_PATH_STYLE";
   SBool (fun c => sto_TLS (cfg_Storage c)) "FORGE_STORAGE_TLS";
   SString (fun c => sto_TLSCAFile (cfg_Storage c)) "FORGE_STORAGE_TLS_CA_FILE";
   SString (fun c => sto_TLSCertFile (cfg_Storage c)) "FORGE_STORAGE_TLS_CERT_FILE";
   SString (fun c => sto_TLSKeyFile (cfg_Storage c)) "FORGE_STORAGE_TLS_KEY_FILE";
   SString (fun c => sto_TLSServerName (cfg_Storage c)) "FORGE_STORAGE_TLS_SERVER_NAME";
   SString (fun c => dis_Provider (cfg_Discovery c)) "FORGE_DISCOVERY_PROVIDER";
   SCSV (fun c => dis_Servers (cfg_Discovery c)) "FORGE_NACOS_SERVERS";
   SString (fun c => dis_Namespace (cfg_Discovery c)) "FORGE_NACOS_NAMESPACE";
   SString (fun c => dis_Group (cfg_Discovery c)) "FORGE_NACOS_GROUP";
   SString (fun c => dis_Cluster (cfg_Discovery c)) "FORGE_NACOS_CLUSTER";
   SString (fun c => dis_ServiceName (cfg_Discovery c)) "FORGE_DISCOVERY_SERVICE_NAME";
   SString (fun c => dis_GRPCServiceName (cfg_Discovery c)) "FORGE_DISCOVERY_GRPC_SERVICE_NAME";
   SString (fun c => dis_AdvertiseIP (cfg_Discovery c)) "FORGE_DISCOVERY_ADVERTISE_IP";
   SUint (fun c => dis_AdvertisePort (cfg_Discovery c)) "FORGE_DISCOVERY_ADVERTISE_PORT";
   SUint (fun c => dis_AdvertiseGRPCPort (cfg_Discovery c)) "FORGE_DISCOVERY_ADVERTISE_GRPC_PORT";
   SBool (fun c => dis_TLSRequired (cfg_Discovery c)) "FORGE_NACOS_TLS_REQUIRED";
   SString (fun c => dis_TLSCAFile (cfg_Discovery c)) "FORGE_NACOS_TLS_CA_FILE";
   SString (fun c => dis_TLSCertFile (cfg_Discovery c)) "FORGE_NACOS_TLS_CERT_FILE";
   SString (fun c => dis_TLSKeyFile (cfg_Discovery c)) "FORGE_NACOS_TLS_KEY_FILE";
   SString (fun c => dis_TLSServerName (cfg_Discovery c)) "FORGE_NACOS_TLS_SERVER_NAME";
   SString (fun c => rem_Provider (cfg_RemoteConfig c)) "FORGE_REMOTE_CONFIG_PROVIDER";
   SCSV (fun c => rem_Servers (cfg_RemoteConfig c)) "FORGE_NACOS_SERVERS";
   SString (fun c => rem_Namespace (cfg_RemoteConfig c)) "FORGE_NACOS_NAMESPACE";
   SString (fun c => rem_Group (cfg_RemoteConfig c)) "FORGE_NACOS_CONFIG_GROUP";
   SString (fun c => rem_DataID (cfg_RemoteConfig c)) "FORGE_NACOS_CONFIG_DATA_ID";
   SBool (fun c => rem_FailFast (cfg_RemoteConfig c)) "FORGE_REMOTE_CONFIG_FAIL_FAST";
   SBool (fun c => rem_TLSRequired (cfg_RemoteConfig c)) "FORGE_NACOS_TLS_REQUIRED";
   SString (fun c => rem_TLSCAFile (cfg_RemoteConfig c)) "FORGE_NACOS_TLS_CA_FILE";
   SString (fun c => rem_TLSCertFile (cfg_RemoteConfig c)) "FORGE_NACOS_TLS_CERT_FILE";
   SString (fun c => rem_TLSKeyFile (cfg_RemoteConfig c)) "FORGE_NACOS_TLS_KEY_FILE";
   SString (fun c => rem_TLSServerName (cfg_RemoteConfig c)) "FORGE_NACOS_TLS_SERVER_NAME";
   SDuration (fun c => sec_SessionTTL (cfg_Security c)) "FORGE_SESSION_TTL";
   SBool (fun c => sec_SecureCookies (cfg_Security c)) "FORGE_SECURE_COOKIES";
   SString (fun c => sec_SameSite (cfg_Security c)) "FORGE_SAME_SITE";
   SInt (fun c => sec_PasswordMinLength (cfg_Security c)) "FORGE_PASSWORD_MIN_LENGTH";
   SBool (fun c => sec_PasswordUpper (cfg_Security c)) "FORGE_PASSWORD_REQUIRE_UPPER";
   SBool (fun c => sec_PasswordLower (cfg_Security c)) "FORGE_PASSWORD_REQUIRE_LOWER";
   SBool (fun c => sec_PasswordDigit (cfg_Security c)) "FORGE_PASSWORD_REQUIRE_DIGIT";
   SBool (fun c => sec_PasswordSymbol (cfg_Security c)) "FORGE_PASSWORD_REQUIRE_SYMBOL";
   SInt (fun c => sec_PasswordHistory (cfg_Security c)) "FORGE_PASSWORD_HISTORY";
   SInt (fun c => sec_PasswordMaxAgeDay (cfg_Security c)) "FORGE_PASSWORD_MAX_AGE_DAYS";
   SInt (fun c => sec_LoginMaxFailures (cfg_Security c)) "FORGE_LOGIN_MAX_FAILURES";
   SDuration (fun c => sec_LoginLockDuration (cfg_Security c)) "FORGE_LOGIN_LOCK_DURATION";
   SString (fun c => sec_CryptoProvider (cfg_Security c)) "FORGE_CRYPTO_PROVIDER";
   SString (fun c => sec_CryptoKeySource (cfg_Security c)) "FORGE_CRYPTO_KEY_SOURCE";
   SString (fun c => sec_CryptoKeyVersion (cfg_Security c)) "FORGE_CRYPTO_KEY_VERSION";
   SCSV (fun c => sec_AllowedOrigins (cfg_Security c)) "FORGE_ALLOWED_ORIGINS";
   SCSV (fun c => sec_TrustedProxies (cfg_Security c)) "FORGE_TRUSTED_PROXIES";
   SString (fun c => obs_LogLevel (cfg_Observability c)) "FORGE_LOG_LEVEL";
   SString (fun c => obs_LogFormat (cfg_Observability c)) "FORGE_LOG_FORMAT";
   SBool (fun c => obs_MetricsEnabled (cfg_Observability c)) "FORGE_METRICS_ENABLED";
   SString (fun c => obs_MetricsPath (cfg_Observability c)) "FORGE_METRICS_PATH";
   SBool (fun c => obs_TracingEnabled (cfg_Observability c)) "FORGE_TRACING_ENABLED";
   SString (fun c => obs_OTLPEndpoint (cfg_Observability c)) "FORGE_OTLP_ENDPOINT";
   SBool (fun c => obs_OTLPTLS (cfg_Observability c)) "FORGE_OTLP_TLS";
   SString (fun c => obs_OTLPTLSCAFile (cfg_Observability c)) "FORGE_OTLP_TLS_CA_FILE";
   SString (fun c => obs_OTLPTLSCertFile (cfg_Observability c)) "FORGE_OTLP_TLS_CERT_FILE";
   SString (fun c => obs_OTLPTLSKeyFile (cfg_Observability c)) "FORGE_OTLP_TLS_KEY_FILE";
   SString (fun c => obs_OTLPTLSServerName (cfg_Observability c)) "FORGE_OTLP_TLS_SERVER_NAME";
   SBool (fun c => obs_PprofEnabled (cfg_Observability c)) "FORGE_PPROF_ENABLED";
   SDuration (fun c => res_DependencyTimeout (cfg_Resilience c)) "FORGE_DEPENDENCY_TIMEOUT";
   SInt (fun c => res_RetryMaxAttempts (cfg_Resilience c)) "FORGE_RETRY_MAX_ATTEMPTS";
   SDuration (fun c => res_RetryBaseDelay (cfg_Resilience c)) "FORGE_RETRY_BASE_DELAY";
   SInt (fun c => res_CircuitFailureThreshold (cfg_Resilience c)) "FORGE_CIRCUIT_FAILURE_THRESHOLD";
   SDuration (fun c => res_CircuitOpenDuration (cfg_Resilience c)) "FORGE_CIRCUIT_OPEN_DURATION";
   SInt (fun c => res_BulkheadConcurrency (cfg_Resilience c)) "FORGE_BULKHEAD_CONCURRENCY";
   SString (fun c => cmp_Profile (cfg_Compliance c)) "FORGE_COMPLIANCE_PROFILE";
   SInt (fun c => cmp_AuditRetentionDays (cfg_Compliance c)) "FORGE_AUDIT_RETENTION_DAYS";
   SInt (fun c => cmp_NetworkLogRetentionDays (cfg_Compliance c)) "FORGE_NETWORK_LOG_RETENTION_DAYS";
   SBool (fun c => cmp_SensitiveDataMasking (cfg_Compliance c)) "FORGE_SENSITIVE_DATA_MASKING";
   SBool (fun c => cmp_DisableDebugEndpoints (cfg_Compliance c)) "FORGE_DISABLE_DEBUG_ENDPOINTS";
   SString (fun c => ntf_Provider (cfg_Notification c)) "FORGE_NOTIFICATION_PROVIDER";
   SString (fun c => ntf_Topic (cfg_Notification c)) "FORGE_NOTIFICATION_TOPIC";
   SString (fun c => ntf_SMTPAddress (cfg_Notification c)) "FORGE_SMTP_ADDRESS";
   SString (fun c => ntf_SMTPTLSMode (cfg_Notification c)) "FORGE_SMTP_TLS_MODE";
   SString (fun c => ntf_SMTPCACertFile (cfg_Notification c)) "FORGE_SMTP_TLS_CA_FILE";
   SString (fun c => ntf_SMTPCertFile (cfg_Notification c)) "FORGE_SMTP_TLS_CERT_FILE";
   SString (fun c => ntf_SMTPKeyFile (cfg_Notification c)) "FORGE_SMTP_TLS_KEY_FILE";
   SString (fun c => ntf_SMTPTLSServer (cfg_Notification c)) "FORGE_SMTP_TLS_SERVER_NAME";
   SString (fun c => siem_Provider (cfg_SIEM c)) "FORGE_SIEM_PROVIDER";
   SString (fun c => siem_Topic (cfg_SIEM c)) "FORGE_SIEM_TOPIC";
   SString (fun c => siem_Address (cfg_SIEM c)) "FORGE_SIEM_ADDRESS";
   SString (fun c => siem_TLSCAFile (cfg_SIEM c)) "FORGE_SIEM_TLS_CA_FILE";
   SString (fun c => siem_TLSCertFile (cfg_SIEM c)) "FORGE_SIEM_TLS_CERT_FILE";
   SString (fun c => siem_TLSKeyFile (cfg_SIEM c)) "FORGE_SIEM_TLS_KEY_FILE";
   SString (fun c => siem_TLSServerName (cfg_SIEM c)) "FORGE_SIEM_TLS_SERVER_NAME"].

Lemma override_parsed {A} os (parse : string -> option A) dst key a : parse "" = None ->
  parse (env_value os key) = Some a -> override os parse dst key = a.
Proof. intros N P. unfold override. destruct (String.eqb_spec (env_value os key) "") as [E|]; [congruence|]. cbn. by rewrite P. Qed.
Lemma override_set {A} os (f : string -> A) dst key : env_value os key <> "" ->
  override os (fun v => Some (f v)) dst key = f (env_value os key).
Proof. intros N. unfold override. by rewrite seqb_neq. Qed.

Lemma settles_string os c get key d : get c = overrideString os d key -> settled os c (SString get key).
Proof. intros E N. rewrite E. by apply (override_set os id). Qed.
Lemma settles_csv os c get key d : get c = overrideCSV os d key -> settled os c (SCSV get key).
Proof. intros E N. rewrite E. by apply (override_set os csv_values). Qed.
Lemma settles_bool os c get key d : get c = overrideBool os d key -> settled os c (SBool get key).
Proof. intros E b P. rewrite E. by apply override_parsed. Qed.
Lemma settles_int os c get key d : get c = overrideInt os d key -> settled os c (SInt get key).
Proof. intros E b P. rewrite E. by apply override_parsed. Qed.
Lemma settles_uint os c get key d : get c = overrideUint64 os d key -> settled os c (SUint get key).
Proof. intros E b P. rewrite E. by apply (override_parsed os (fun v => ParseUint v 64)). Qed.
Lemma settles_duration os c get key d : get c = overrideDuration os d key -> settled os c (SDuration get key).
Proof. intros E b P. rewrite E. by apply override_parsed. Qed.

Lemma environment_settles os c : Forall (settled os (ApplyEnvironment os c)) settings.
Proof.
  repeat (apply Forall_cons; split;
    [first [eapply settles_string; reflexivity|eapply settles_bool; reflexivity|eapply settles_duration; reflexivity
           |eapply settles_int; reflexivity|eapply settles_csv; reflexivity|eapply settles_uint; reflexivity]|]).
  by apply Forall_nil.
Qed.
Lemma environment_secrets os c : Forall (fun '(get, key) => get (ApplyEnvironment os c) = secret os key) secrets.
Proof. repeat (apply Forall_cons; split; [reflexivity|]). by apply Forall_nil. Qed.

(** ** What is accepted *)

Lemma when_nil b m : when b m = [] <-> b = false.
Proof. by destruct b. Qed.
Lemma refusal_ok errs u : refusal errs = Ok u <-> errs = [].
Proof. destruct u. unfold refusal. destruct errs; cbn; split; congruence. Qed.

(** A list of errors that is empty: each of its parts is. *)
Ltac no_errors :=
  repeat match goal with
  | E : _ ++ _ = [] |- _ => apply app_eq_nil in E as [? ?]
  | E : when _ _ = [] |- _ => apply when_nil in E
  | E : _ || _ = false |- _ => apply orb_false_iff in E as [? ?]
  | E : negb _ = false |- _ => apply negb_false_iff in E
  | E : _ && _ = true |- _ => apply andb_prop in E as [? ?]
  | E : (_ <? _) = false |- _ => apply Z.ltb_ge in E
  | E : (_ <=? _) = false |- _ => apply Z.leb_gt in E
  end.

(** What a configuration for production has. *)
Record hardened (url_Parse : string -> option URL) (c : Config) : Prop := {
  hd_database : validateDatabaseTLS url_Parse (dbc_Provider (cfg_Database c)) (dbc_DSN (cfg_Database c)) = None;
  hd_replica : dbc_ReadOnlyDSN (cfg_Database c) <> "" ->
    validateDatabaseTLS url_Parse (dbc_Provider (cfg_Database c)) (dbc_ReadOnlyDSN (cfg_Database c)) = None;
  hd_migrations : dbc_AutoMigrate (cfg_Database c) = false;
  hd_cache : cac_Provider (cfg_Cache c) = "redis" -> cac_TLS (cfg_Cache c) = true;
  hd_messaging : mq_Provider (cfg_Messaging c) = "rocketmq" -> mq_TLS (cfg_Messaging c) = true;
  hd_streaming : str_Provider (cfg_Streaming c) = "kafka" -> str_TLS (cfg_Streaming c) = true;
  hd_search : sea_Provider (cfg_Search c) <> "disabled" ->
    sea_TLS (cfg_Search c) = true /\ Forall (fun u => isHTTPSURL url_Parse u = true) (sea_URLs (cfg_Search c));
  hd_storage : normalizeStorageProvider (sto_Provider (cfg_Storage c)) = "s3" -> sto_TLS (cfg_Storage c) = true;
  hd_tracing : obs_TracingEnabled (cfg_Observability c) = true ->
    obs_OTLPTLS (cfg_Observability c) = true /\ isHTTPSURL url_Parse (obs_OTLPEndpoint (cfg_Observability c)) = true;
  hd_keys : key_source (cfg_Security c) = "adapter";
  hd_passwords : 12 <= sec_PasswordMinLength (cfg_Security c) /\ sec_PasswordUpper (cfg_Security c) = true /\
    sec_PasswordLower (cfg_Security c) = true /\ sec_PasswordDigit (cfg_Security c) = true /\
    sec_PasswordSymbol (cfg_Security c) = true /\ 5 <= sec_PasswordHistory (cfg_Security c) <= 24 /\
    1 <= sec_PasswordMaxAgeDay (cfg_Security c) <= 90;
  hd_logins : 1 <= sec_LoginMaxFailures (cfg_Security c) <= 5 /\ 15 * Minute <= sec_LoginLockDuration (cfg_Security c) /\
    0 < sec_SessionTTL (cfg_Security c) <= 12 * Hour
}.

Section accepted.
Context (url_Parse : string -> option URL) (yaml_Unmarshal : string -> Config -> result Config) (os : Surroundings).

Lemma floors c : productionSecurityFloorErrors c = [] -> sec_PasswordHistory (cfg_Security c) <= 24 ->
  (12 <= sec_PasswordMinLength (cfg_Security c) /\ sec_PasswordUpper (cfg_Security c) = true /\
    sec_PasswordLower (cfg_Security c) = true /\ sec_PasswordDigit (cfg_Security c) = true /\
    sec_PasswordSymbol (cfg_Security c) = true /\ 5 <= sec_PasswordHistory (cfg_Security c) <= 24 /\
    1 <= sec_PasswordMaxAgeDay (cfg_Security c) <= 90) /\
  1 <= sec_LoginMaxFailures (cfg_Security c) <= 5 /\ 15 * Minute <= sec_LoginLockDuration (cfg_Security c) /\
  0 < sec_SessionTTL (cfg_Security c) <= 12 * Hour.
Proof. intros E H. unfold productionSecurityFloorErrors in E. no_errors. split_and!; done || lia. Qed.

Lemma dsn_ok label provider dsn : dsn_error url_Parse label provider dsn = [] -> validateDatabaseTLS url_Parse provider dsn = None.
Proof. unfold dsn_error. by case_match. Qed.

Lemma cache_tls c : cache_errors true c = [] -> cac_Provider c = "redis" -> cac_TLS c = true.
Proof. intros E P. unfold cache_errors in E. rewrite P in E. no_errors. by destruct (cac_TLS c). Qed.
Lemma messaging_tls c : messaging_errors true c = [] -> mq_Provider c = "rocketmq" -> mq_TLS c = true.
Proof. intros E P. unfold messaging_errors in E. rewrite P in E. no_errors. by destruct (mq_TLS c). Qed.
Lemma streaming_tls c : streaming_errors true c = [] -> str_Provider c = "kafka" -> str_TLS c = true.
Proof. intros E P. unfold streaming_errors in E. rewrite P in E. no_errors. by destruct (str_TLS c). Qed.
Lemma search_tls c : search_errors url_Parse true c = [] -> sea_Provider c <> "disabled" ->
  sea_TLS c = true /\ Forall (fun u => isHTTPSURL url_Parse u = true) (sea_URLs c).
Proof.
  intros E P. unfold search_errors in E. rewrite (seqb_neq _ _ P) in E. cbn [negb andb] in E. no_errors. split; [done|].
  apply Forall_forall. intros u Hu. destruct (isHTTPSURL url_Parse u) eqn:Hp; [done|]. exfalso.
  assert (X : existsb (fun endpoint => negb (isHTTPSURL url_Parse endpoint)) (sea_URLs c) = true); [|congruence].
  apply existsb_exists. exists u. split; [by apply list_elem_of_In|by rewrite Hp].
Qed.
Lemma storage_tls c : storage_errors url_Parse true c = [] -> normalizeStorageProvider (sto_Provider c) = "s3" -> sto_TLS c = true.
Proof. intros E P. unfold storage_errors in E. rewrite P in E. cbn -[contains] in E. no_errors. by destruct (sto_TLS c). Qed.
Lemma tracing_tls c : observability_errors url_Parse true c = [] -> obs_TracingEnabled c = true ->
  obs_OTLPTLS c = true /\ isHTTPSURL url_Parse (obs_OTLPEndpoint c) = true.
Proof. intros E P. unfold observability_errors in E. rewrite P in E. cbn [andb] in E. no_errors. done. Qed.

Lemma accepted_is_hardened c : Validate url_Parse c = Ok tt -> isProduction (app_Environment (cfg_App c)) = true ->
  hardened url_Parse c.
Proof.
  intros V P. unfold Validate in V. rewrite P in V. apply refusal_ok in V. cbn [andb] in V.
  unfold database_tls_errors, security_errors in V. rewrite P in V. cbn [andb] in V. no_errors.
  match goal with E : productionSecurityFloorErrors c = [] |- _ => apply floors in E as [Fp Fl]; [|done] end.
  match goal with E : _ = key_source _ \/ _ |- _ => idtac | |- _ => idtac end.
  split; try done.
  - by eapply dsn_ok.
  - intros N. match goal with E : (if _ then _ else _) = [] |- _ => rewrite (seqb_neq _ _ N) in E; cbn [negb] in E; by apply dsn_ok in E end.
  - by apply cache_tls.
  - by apply messaging_tls.
  - by apply streaming_tls.
  - by apply search_tls.
  - by apply storage_tls.
  - by apply tracing_tls.
  - match goal with E : (key_source _ =s "adapter") = true |- _ => by apply String.eqb_eq in E end.
Qed.

Lemma loaded c : Load url_Parse yaml_Unmarshal os = Ok c -> (exists c0, c = ApplyEnvironment os c0) /\ Validate url_Parse c = Ok tt.
Proof.
  unfold Load. destruct (read_yaml _ _ _) as [c0|err]; [|done]. cbn.
  destruct (Validate url_Parse (ApplyEnvironment os c0)) as [[]|err] eqn:V; [|done]. intros [= <-]. split; [by exists c0|done].
Qed.
Lemma merged c raw c' : MergeYAML url_Parse yaml_Unmarshal os c raw = Ok c' ->
  c' = c \/ (exists c0, c' = ApplyEnvironment os c0) /\ Validate url_Parse c' = Ok tt.
Proof.
  unfold MergeYAML. case_match; [intros [= <-]; by left|]. destruct (yaml_Unmarshal raw c) as [c0|err]; [|done]. cbn.
  destruct (Validate url_Parse (ApplyEnvironment os c0)) as [[]|err] eqn:V; [|done]. intros [= <-]. right. split; [by exists c0|done].
Qed.
Lemma started remote c : startup url_Parse yaml_Unmarshal os remote = Ok c ->
  (exists c0, c = ApplyEnvironment os c0) /\ Validate url_Parse c = Ok tt.
Proof.
  unfold startup. destruct (Load _ _ _) as [c0|err] eqn:L; [|done]. apply loaded in L. cbn.
  case_match; [|by intros [= <-]]. destruct (remote _) as [[raw|err]|err]; [|by case_match; [|intros [= <-]]..].
  case_match; [|by intros [= <-]]. intros M. apply merged in M as [->|M]; [exact L|exact M].
Qed.


(** The environment wins: in the configuration a service starts with, the
    secrets are those of the environment alone, and every setting whose
    variable is set and parses has its value, whatever the YAML file and the
    remote configuration say. *)
Theorem the_environment_wins remote c : startup url_Parse yaml_Unmarshal os remote = Ok c ->
  Forall (fun '(get, key) => get c = secret os key) secrets /\ Forall (settled os c) settings.
Proof. intros St. apply started in St as [(c0 & ->) _]. split; [apply environment_secrets|apply environment_settles]. Qed.

(** The policy that the configuration stands for. *)
Definition configured_policy (s : SecurityConfig) (lock ttl : Z) : SecurityPolicy :=
  mkSecurityPolicy (sec_PasswordMinLength s) (sec_PasswordUpper s) (sec_PasswordLower s) (sec_PasswordDigit s) (sec_PasswordSymbol s)
    (sec_PasswordHistory s) (sec_PasswordMaxAgeDay s) (sec_LoginMaxFailures s) lock ttl maximumConcurrentSessions.

(** In production the floors of the configuration are those of the identity
    service: a configuration that is accepted, with durations of whole seconds,
    gives organizations without settings a policy that the service takes, so
    that their logins are not refused. *)
Theorem production_policies_resolve c lock ttl : Validate url_Parse c = Ok tt -> isProduction (app_Environment (cfg_App c)) = true ->
  sec_LoginLockDuration (cfg_Security c) = lock * Second -> sec_SessionTTL (cfg_Security c) = ttl * Second ->
  lock <= 9223372036 -> sec_PasswordMinLength (cfg_Security c) <= maxInt64 ->
  validateResolvedPolicy (defaultPolicy (NewService (identity_options (cfg_Security c)))) = Ok tt.
Proof.
  intros V P El Et Fl Fm. destruct (accepted_is_hardened c V P) as [_ _ _ _ _ _ _ _ _ _ Hp Hl].
  destruct Hp as (P1 & P2 & P3 & P4 & P5 & P6 & P7). destruct Hl as (L1 & L2 & L3).
  set (p := configured_policy (cfg_Security c) lock ttl). rewrite El, Et in *. unfold Hour, Minute, Second in L2, L3.
  assert (R : SecurityPolicy.in_range p) by (unfold SecurityPolicy.in_range, seconds_fit, maxInt64 in *; cbn; lia).
  assert (Vp : validateSecurityPolicy p = Ok tt).
  { unfold validateSecurityPolicy. cbn -[seconds_duration]. rewrite !seconds_duration_fit by (unfold seconds_fit; lia).
    rewrite P2, P3, P4, P5. unfold minimumPasswordLength, minimumPasswordHistory, maximumPasswordAgeDays, maximumLoginFailures,
      minimumLoginLockDuration, maximumSessionTTL, Hour, Minute, Second.
    repeat match goal with |- context [if ?b then _ else _] => replace b with false by lia end. done. }
  assert (E : defaultPolicy (NewService (identity_options (cfg_Security c))) = stored_policy p).
  { unfold defaultPolicy, NewService, stored_policy, identity_options. cbn. rewrite El, Et.
    rewrite (wrap64_id (_ * 24)), wrap64_id by (unfold minInt64, maxInt64, Hour, Minute, Second; lia). done. }
  unfold validateResolvedPolicy. by rewrite E, shown_stored.
Qed.
End accepted.

(** ** Examples *)

Module examples.
(** The form of the addresses below. *)
Definition parse (value : string) : option URL :=
  if HasPrefix value "https://" then Some (mkURL "https" false (sdrop 8 value) "" "" "") else None.
Definition vars : list (string * string) :=
  [("FORGE_ENV", " Production "); ("FORGE_DATABASE_DSN", "host=db sslmode=verify-full"); ("FORGE_CRYPTO_KEY_SOURCE", "adapter");
   ("FORGE_REMOTE_CONFIG_PROVIDER", "nacos"); ("FORGE_NACOS_SERVERS", "nacos-1, nacos-2"); ("FORGE_NACOS_CONFIG_DATA_ID", "forge");
   ("FORGE_SESSION_TTL", "8h")].
Definition os_of (l : list (string * string)) : Surroundings :=
  mkSurroundings (fun key => default "" (snd <$> find (fun p => p.1 =s key) l)) (fun _ => Err (Errorf "no such file" [])).
(** Remote settings that weaken the service, and settings that do not. *)
Definition yaml (raw : string) (c : Config) : result Config :=
  Ok (c <| cfg_App := (cfg_App c) <| app_Environment := "development" |> |>
        <| cfg_Security := (cfg_Security c) <| sec_LoginMaxFailures := if raw =s "weak" then 50 else 3 |> |>).
Definition start (raw : string) : result Config := startup parse yaml (os_of vars) (fun _ => Ok (Ok raw)).
Definition running : Config :=
  match startup parse yaml (os_of vars) (fun _ => Ok (Ok "strict")) with Ok c => c | Err _ => Default end.
Lemma got {A} (r : result A) d : is_ok r = true -> r = Ok (match r with Ok a => a | Err _ => d end).
Proof. by destruct r. Qed.
Lemma started_running : startup parse yaml (os_of vars) (fun _ => Ok (Ok "strict")) = Ok running.
Proof. apply got. vm_compute. reflexivity. Qed.
Lemma running_production : isProduction (app_Environment (cfg_App running)) = true.
Proof. vm_compute. reflexivity. Qed.
Lemma running_lock : sec_LoginLockDuration (cfg_Security running) = 1800 * Second.
Proof. vm_compute. reflexivity. Qed.
Lemma running_ttl : sec_SessionTTL (cfg_Security running) = 28800 * Second.
Proof. vm_compute. reflexivity. Qed.
Lemma running_length : sec_PasswordMinLength (cfg_Security running) <= maxInt64.
Proof. vm_compute. discriminate. Qed.
Lemma running_valid : Validate parse running = Ok tt.
Proof. vm_compute. reflexivity. Qed.

(** A development with its database. *)
Definition development : Config := Default <| cfg_Database := (cfg_Database Default) <| dbc_DSN := "host=db" |> |>.
Definition secured (f : SecurityConfig -> SecurityConfig) (c : Config) : Config := c <| cfg_Security := f (cfg_Security c) |>.
Definition policy_of (c : Config) : result unit := validateResolvedPolicy (defaultPolicy (NewService (identity_options (cfg_Security c)))).
End examples.


(** The remote file says that this is a development. *)
Lemma the_environment_wins_witness :
  Forall (settled (examples.os_of examples.vars) examples.running) settings /\
  app_Environment (cfg_App examples.running) = "Production".
Proof.
  split; [|vm_compute; reflexivity].
  exact (proj2 (the_environment_wins examples.parse examples.yaml (examples.os_of examples.vars) (fun _ => Ok (Ok "strict")) examples.running examples.started_running)).
Defined.

Lemma production_policies_resolve_witness : examples.policy_of examples.running = Ok tt.
Proof.
  refine (production_policies_resolve examples.parse examples.running 1800 28800 examples.running_valid
    examples.running_production examples.running_lock examples.running_ttl _ examples.running_length). done.
Defined.

(** *** What the validation lets through *)

(** Production asks for no secure cookies. *)
Example production_sends_plain_cookies :
  Validate examples.parse examples.running = Ok tt /\ sec_SecureCookies (cfg_Security examples.running) = false.
Proof. vm_compute. split; reflexivity. Qed.

(** Blanks hide a cookie mode that asks for secure cookies. *)
Example a_padded_cookie_mode_is_accepted :
  let c := examples.secured (fun s => s <| sec_SameSite := " none " |>) examples.development in
  Validate examples.parse c = Ok tt /\ parseSameSite (sec_SameSite (cfg_Security c)) = SameSiteNoneMode /\
  sec_SecureCookies (cfg_Security c) = false.
Proof. vm_compute. split_and!; reflexivity. Qed.

(** The first mode of a DSN counts; the drivers take the last, and know quotes. *)
Example the_first_mode_counts :
  (postgresSSLMode examples.parse "host=db sslmode=verify-full sslmode=disable",
   postgresSSLMode examples.parse "host=db password='x sslmode=verify-full ' sslmode=disable",
   mysqlTLSMode "user:pass@tcp(db)/app?tls=true&tls=false") = (Ok "verify-full", Ok "verify-full", Ok "true").
Proof. vm_compute. reflexivity. Qed.

(** A development may ask for passwords of eight bytes, or sessions shorter than
    a second; the identity service then refuses its own policy. *)
Example short_passwords_are_accepted_and_refused :
  let short := examples.secured (fun s => s <| sec_PasswordMinLength := 8 |>) examples.development in
  let brief := examples.secured (fun s => s <| sec_SessionTTL := 500000000 |>) examples.running in
  map (Validate examples.parse) [short; brief] = [Ok tt; Ok tt] /\
  map (fun c => is_ok (examples.policy_of c)) [short; brief] = [false; false].
Proof. vm_compute. split; reflexivity. Qed.

(** A variable that does not parse is ignored. *)
Example a_malformed_variable_loses :
  let os := examples.os_of [("FORGE_SECURE_COOKIES", "yes")] in
  sec_SecureCookies (cfg_Security (ApplyEnvironment os (examples.secured (fun s => s <| sec_SecureCookies := false |>) Default))) = false.
Proof. vm_compute. reflexivity. Qed.

(** The profile of a provider does not survive the environment, so that the
    evidence of the provider that was configured is refused. *)
Example profiles_are_lost :
  map (fun p => (ResolveProviderProfile p, ResolveProviderProfile (normalizeStorageProvider p))) ["minio"; "cos"] =
    [(Ok ProviderProfileMinIO, Ok ProviderProfileAWSS3); (Ok ProviderProfileTencentCOS, Ok ProviderProfileAWSS3)] /\
  (let configured := (cfg_Storage Default) <| sto_Provider := "minio" |> in
   map (fun c => is_ok (NewWithCapabilityContract c Storage.examples.contract))
     [configured; applyStorage (examples.os_of []) configured] = [true; false]).
Proof. vm_compute. split; reflexivity. Qed.

(** The service starts with a pool that the migration refuses. *)
Example the_pool_is_not_checked :
  let c := examples.development <| cfg_Database := (cfg_Database examples.development) <| dbc_MaxOpenConns := 0 |> |> in
  (Validate examples.parse c, is_ok (ValidateDatabase examples.parse c)) = (Ok tt, false).
Proof. vm_compute. reflexivity. Qed.
