(* ===== verification/Http.v ===== *)
(** * The HTTP server

    [internal/platform/httpserver] and [internal/platform/httpx]: the filters
    around every handler, the encoding of answers and errors, the numeric codes,
    and the static files with their content security policy.  [url.Parse], the
    file system, [kratoserrors.FromError] and the protobuf encoding are
    parameters; the filter of the traces passes the request on and is left out. *)

From S2P Require Import Prelude GoString GoTime Crypto Strconv Json Database SharedState Storage Config GoParse.

(** ** Requests and responses *)

Record Request := mkRequest {
  rq_Method : string;
  rq_Path : string;
  rq_Host : string;
  rq_TLS : bool;
  rq_Header : string -> string;
  rq_Body : option string;
  rq_Limit : option Z;
  rq_ID : string
}.
#[export] Instance Request_eta : Eta Request := fun r =>
  mkRequest (rq_Method r) (rq_Path r) (rq_Host r) (rq_TLS r) (rq_Header r) (rq_Body r) (rq_Limit r) (rq_ID r).

Record AccessEntry := mkAccess { ac_Method : string; ac_Route : string; ac_Status : Z; ac_Bytes : Z; ac_RequestID : string }.

(** A response: the header as it stands, the status and the header that were
    sent, the body so far, what the recorder of the access log saw, and the
    log. *)
Record Writer := mkWriter {
  w_header : list (string * string);
  w_sent : option (Z * list (string * string));
  w_body : string;
  w_status : Z;
  w_bytes : Z;
  w_log : list AccessEntry
}.
#[export] Instance Writer_eta : Eta Writer := fun w =>
  mkWriter (w_header w) (w_sent w) (w_body w) (w_status w) (w_bytes w) (w_log w).
Definition fresh_writer : Writer := mkWriter [] None "" 200 0 [].

(** A panic is an error. *)
Notation H := (Database.M Writer).
Notation HandlerFunc := (Request -> H unit).
Notation FilterFunc := (HandlerFunc -> HandlerFunc).

Definition set_header (key value : string) (l : list (string * string)) : list (string * string) :=
  List.filter (fun p => p.1 <>s key) l ++ [(key, value)].
Definition Set_ (key value : string) : H unit := poke (fun w => w <| w_header := set_header key value (w_header w) |>).
Definition Add (key value : string) : H unit := poke (fun w => w <| w_header := (w_header w ++ [(key, value)])%list |>).
Definition get_header (l : list (string * string)) (key : string) : string := default "" (snd <$> find (fun p => p.1 =s key) l).

(** The first status is sent, with the header of that moment; the recorder
    keeps the last. *)
Definition send_header (status : Z) (w : Writer) : Writer :=
  match w_sent w with Some _ => w | None => w <| w_sent := Some (status, w_header w) |> end.
Definition WriteHeader (status : Z) : H unit := poke (fun w => (send_header status w) <| w_status := status |>).
Definition Write (body : string) : H unit :=
  poke (fun w => let w := send_header 200 w in w <| w_body := w_body w +:+ body |> <| w_bytes := w_bytes w + slen body |>).

Definition newline : string := String "010" "".

Definition writeError (status : Z) (reason message : string) : H unit :=
  _ ← Set_ "Content-Type" "application/json; charset=utf-8";
  _ ← WriteHeader status;
  Write (Marshal (JObj [("code", JNum (Itoa status)); ("message", JStr message); ("reason", JStr reason)]) +:+ newline).

(** ** Filters *)

Definition requestIDHeader := "X-Request-ID".

Definition recoverer (next : HandlerFunc) : HandlerFunc := fun r =>
  recovered ← attempt (next r);
  match recovered with
  | Ok _ => mret tt
  | Err _ => writeError 500 "INTERNAL" "internal server error"
  end.

Definition validRequestID (value : string) : bool :=
  (value <>s "") && (slen value <=? 128) &&
  forallb (fun r => let char := rune_val r in
    in_range 97 122 char || in_range 65 90 char || in_range 48 57 char || existsb (Z.eqb char) [46; 95; 58; 45]) (runes value).

Definition requestID (next : HandlerFunc) : HandlerFunc := fun r =>
  let id := TrimSpace (rq_Header r requestIDHeader) in
  id ← (if validRequestID id then mret id else NewString);
  _ ← Set_ requestIDHeader id;
  next (r <| rq_Header := fun key => if key =s requestIDHeader then id else rq_Header r key |> <| rq_ID := id |>).

Definition securityHeaders (secure : bool) (next : HandlerFunc) : HandlerFunc := fun r =>
  _ ← Set_ "X-Content-Type-Options" "nosniff";
  _ ← Set_ "X-Frame-Options" "DENY";
  _ ← Set_ "Referrer-Policy" "no-referrer";
  _ ← Set_ "Permissions-Policy" "camera=(), microphone=(), geolocation=()";
  _ ← Set_ "Content-Security-Policy" "default-src 'self'; base-uri 'self'; frame-ancestors 'none'; object-src 'none'";
  _ ← (if secure then Set_ "Strict-Transport-Security" "max-age=31536000; includeSubDomains" else mret tt);
  next r.

Definition origin_key (origin : string) : string := TrimRight (TrimSpace origin) "/".
Definition allowed_origins (allowedOrigins : list string) : list string :=
  List.filter (fun origin => origin <>s "") (map origin_key allowedOrigins).

Definition bodyLimit (maximum : Z) (next : HandlerFunc) : HandlerFunc := fun r =>
  if (0 <? maximum) && bool_decide (is_Some (rq_Body r)) then next (r <| rq_Limit := Some maximum |>) else next r.

(** [http.MaxBytesReader], when the whole body is read. *)
Definition read_body (r : Request) : result string :=
  let body := default "" (rq_Body r) in
  match rq_Limit r with
  | Some maximum => if maximum <? slen body then Err (Errorf "http: request body too large" []) else Ok body
  | None => Ok body
  end.

Definition route_prefixes : list string :=
  ["/api/v1/admin/users/"; "/api/v1/admin/departments/"; "/api/v1/admin/positions/"; "/api/v1/admin/user-groups/";
   "/api/v1/admin/sessions/"; "/api/v1/admin/roles/"; "/api/v1/api-tokens/"].
Definition exact_routes : list string :=
  ["/api/v1/system/health"; "/api/v1/system/ready"; "/api/v1/system/info"; "/api/v1/auth/login";
   "/api/v1/auth/logout"; "/api/v1/auth/password"; "/api/v1/me"; "/api/v1/api-tokens";
   "/api/v1/admin/users"; "/api/v1/admin/departments"; "/api/v1/admin/positions"; "/api/v1/admin/user-groups";
   "/api/v1/admin/organization"; "/api/v1/admin/security-config";
   "/api/v1/admin/roles"; "/api/v1/admin/permissions"; "/api/v1/admin/sessions";
   "/api/v1/admin/audit-logs"; "/api/v1/admin/audit-logs/export"; "/metrics"].

Definition metricRoute (path : string) : string :=
  match find (HasPrefix path) route_prefixes with
  | Some prefix => prefix +:+ ":id"
  | None => default "unmatched" (find (String.eqb path) exact_routes)
  end.

Definition accessLog (next : HandlerFunc) : HandlerFunc := fun r =>
  _ ← poke (fun w => w <| w_status := 200 |> <| w_bytes := 0 |>);
  _ ← next r;
  poke (fun w => w <| w_log := (w_log w ++ [mkAccess (rq_Method r) (metricRoute (rq_Path r)) (w_status w) (w_bytes w) (rq_ID r)])%list |>).

Section origins.
Context (url_Parse : string -> option URL).

Definition sameOrigin (origin : string) (r : Request) : bool :=
  match url_Parse origin with
  | None => false
  | Some parsed =>
    if u_Host parsed =s "" then false
    else
      let scheme := if rq_TLS r || EqualFold (rq_Header r "X-Forwarded-Proto") "https" then "https" else "http" in
      EqualFold (u_Scheme parsed) scheme && EqualFold (u_Host parsed) (rq_Host r)
  end.

Definition preflight : H unit :=
  _ ← Set_ "Access-Control-Allow-Methods" "GET, POST, PUT, PATCH, DELETE, OPTIONS";
  _ ← Set_ "Access-Control-Allow-Headers" "Authorization, Content-Type, X-CSRF-Token, X-Request-ID";
  _ ← Set_ "Access-Control-Max-Age" "600";
  WriteHeader 204.

Definition cors (allowedOrigins : list string) (next : HandlerFunc) : HandlerFunc := fun r =>
  let allowed := allowed_origins allowedOrigins in
  let origin := origin_key (rq_Header r "Origin") in
  if (origin <>s "") && negb (contains allowed origin) && negb (sameOrigin origin r) then
    writeError 403 "ORIGIN_DENIED" "origin is not allowed"
  else
    _ ← (if origin <>s "" then
           _ ← Set_ "Access-Control-Allow-Origin" origin;
           _ ← Set_ "Access-Control-Allow-Credentials" "true";
           Add "Vary" "Origin"
         else mret tt);
    if rq_Method r =s "OPTIONS" then preflight else next r.

Record FilterOptions := mkFilterOptions { fo_Secure : bool; fo_AllowedOrigins : list string; fo_MaxBodyBytes : Z }.

(** [Filters], the first one outermost. *)
Definition Filters (options : FilterOptions) : list FilterFunc :=
  [recoverer; requestID; securityHeaders (fo_Secure options); cors (fo_AllowedOrigins options); bodyLimit (fo_MaxBodyBytes options);
   accessLog].
Definition FilterChain (filters : list FilterFunc) (next : HandlerFunc) : HandlerFunc := fold_right (fun f h => f h) next filters.
Definition serve (options : FilterOptions) (next : HandlerFunc) : HandlerFunc := FilterChain (Filters options) next.
End origins.

(** ** Answers and errors *)

Definition codeMap : list (string * string) :=
  [("SUCCESS", "000000"); ("INVALID_REQUEST", "100001"); ("INVALID_JSON", "100002"); ("MISSING_FIELDS", "100003");
   ("NOT_FOUND", "100004"); ("INVALID_LOGIN_NAME", "100005"); ("INVALID_ORGANIZATION", "100006");
   ("INVALID_SECURITY_CONFIG", "100007"); ("INVALID_ARGUMENT", "100008"); ("INVALID_EXPORT_FORMAT", "100009");
   ("INVALID_EXPORT_LIMIT", "100010"); ("EXPORT_ARTIFACT_REQUIRED", "100011");
   ("EXPORT_REVOKE_REASON_REQUIRED", "100012"); ("EXPORT_NOT_FOUND", "100013"); ("UNAUTHENTICATED", "200001");
   ("INVALID_CREDENTIALS", "200002"); ("LOGIN_FAILED", "200002"); ("ACCOUNT_LOCKED", "200003");
   ("PERMISSION_DENIED", "200004"); ("CSRF_MISMATCH", "200005"); ("RATE_LIMITED", "200006");
   ("PASSWORD_CHANGE_REQUIRED", "200007"); ("PASSWORD_POLICY_VIOLATION", "200008");
   ("PASSWORD_CHANGE_FAILED", "200009"); ("CURRENT_PASSWORD_INVALID", "200010"); ("INVALID_ROLE", "200011");
   ("PASSWORD_REUSED", "200012"); ("ROLE_PERMISSION_UPDATE_FAILED", "200013"); ("USER_ROLE_UPDATE_FAILED", "200014");
   ("SESSION_REVOKE_FAILED", "200015"); ("USER_STATUS_UPDATE_FAILED", "200016"); ("USER_UNLOCK_FAILED", "200017");
   ("PASSWORD_RESET_FAILED", "200018"); ("LAST_SYSTEM_ADMIN", "200019"); ("INTERACTIVE_SESSION_REQUIRED", "200020");
   ("GRANT_CEILING_EXCEEDED", "200021"); ("EXPORT_ACCESS_DENIED", "200028"); ("LOGOUT_FAILED", "200022");
   ("LOGIN_NAME_CONFLICT", "300001"); ("CONFLICT", "300002"); ("PASSWORD_STATE_CHANGED", "300003");
   ("DEPENDENCY_UNAVAILABLE", "400001"); ("STORAGE_UNAVAILABLE", "400002"); ("RELIABLE_AUDIT_UNAVAILABLE", "400003");
   ("RATE_LIMIT_UNAVAILABLE", "400004"); ("EXPORT_UNAVAILABLE", "400005"); ("INTERNAL", "900000");
   ("CREATE_USER_FAILED", "900001"); ("EXPORT_INTEGRITY_FAILED", "900002"); ("APPROVAL_ACCESS_DENIED", "200023");
   ("FEDERATED_LOGIN_FAILED", "200024"); ("INVALID_MFA", "200025"); ("MFA_REQUIRED", "200026");
   ("STEP_UP_REQUIRED", "200027"); ("APPROVAL_ALREADY_EXECUTED", "300004"); ("APPROVAL_DIGEST_MISMATCH", "300005");
   ("APPROVAL_NOT_EXECUTABLE", "300006"); ("APPROVAL_NOT_PENDING", "300007"); ("AUDIT_INTEGRITY_FAILED", "300008");
   ("MFA_ALREADY_ENABLED", "300009"); ("ROLE_CONFLICT", "300010"); ("FEDERATED_UNAVAILABLE", "400005");
   ("APPROVAL_REQUIRED", "100011"); ("FEDERATED_PROVIDER_NOT_FOUND", "100012"); ("INVALID_ACCESS_REVIEW", "100013");
   ("INVALID_FEDERATED_IDENTITY", "100014"); ("INVALID_TEMPORARY_GRANT", "100015");
   ("MFA_ENROLLMENT_NOT_PENDING", "100016"); ("INVALID_DATA_POLICY", "100017");
   ("DATA_POLICY_UNAVAILABLE", "400006"); ("INVALID_RETENTION_EVIDENCE", "100018");
   ("CONFIG_CHANGE_APPROVAL_REQUIRED", "100019"); ("DATA_RETENTION_UNAVAILABLE", "400007");
   ("CONFIG_CHANGE_UNAVAILABLE", "400008")].

Definition NumericCode (symbol : string) : string := default "900099" (snd <$> find (fun p => p.1 =s symbol) codeMap).

(** The fields that [json.Marshal] leaves out when they are empty. *)
Definition omitempty (key value : string) : list (string * json) := if value =s "" then [] else [(key, JStr value)].

(** [httpx.Envelope], its fields in their order. *)
Record Envelope := mkEnvelope {
  ev_Code : string; ev_Message : string; ev_Data : json; ev_Error : string; ev_RequestID : string; ev_TraceID : string; ev_Timestamp : string
}.
Definition envelope_json (e : Envelope) : string :=
  Marshal (JObj ([("code", JStr (ev_Code e)); ("message", JStr (ev_Message e)); ("data", ev_Data e)] ++ omitempty "error" (ev_Error e) ++
    omitempty "request_id" (ev_RequestID e) ++ omitempty "trace_id" (ev_TraceID e) ++ [("timestamp", JStr (ev_Timestamp e))])).

Section codec.
(** The trace of the request, the fields of a message, and what
    [kratoserrors.FromError] finds in an error: its code, reason and message. *)
Context {V : Type} (responseTraceID : Request -> string) (responseData : V -> result json) (FromError : error -> Z * string * string).

Definition EncodeResponse (r : Request) (value : V) : H unit :=
  data ← lift (responseData value);
  _ ← Set_ "Content-Type" "application/json; charset=utf-8";
  at_ ← now;
  Write (envelope_json (mkEnvelope "000000" "success" data "" (rq_ID r) (responseTraceID r) (RFC3339Nano (UTC at_))) +:+ newline).

Definition error_status (code : Z) : Z := if (code <? 400) || (599 <? code) then 500 else code.
Definition EncodeError (r : Request) (source : error) : H unit :=
  let '(code, reason, message) := FromError source in
  let status := error_status code in
  let message := if 500 <=? status then "operation failed" else message in
  _ ← Set_ "Content-Type" "application/json; charset=utf-8";
  _ ← WriteHeader status;
  at_ ← now;
  Write (envelope_json (mkEnvelope (NumericCode reason) message JNull reason (rq_ID r) (responseTraceID r) (RFC3339Nano (UTC at_)))
    +:+ newline).
End codec.

(** ** Static files *)

Definition cspNonceMarker := "__FORGE_CSP_NONCE__".

Record SPAOptions := mkSPA { sp_FrameSources : list string; sp_ConnectSources : list string; sp_WujieCSPEnabled : bool }.

Definition frame_source (options : SPAOptions) : string :=
  let sources := (if sp_WujieCSPEnabled options then ["'self'"] else []) ++ sp_FrameSources options in
  if (length sources =? 0)%nat then "'none'" else Join sources " ".

Definition directives (options : SPAOptions) : list string :=
  ["default-src 'self'";
   "base-uri 'self'";
   "connect-src " +:+ Join ("'self'" :: sp_ConnectSources options) " ";
   "font-src 'self' data:";
   "form-action 'self'";
   "frame-ancestors 'none'";
   "frame-src " +:+ frame_source options;
   "img-src 'self' data:";
   "manifest-src 'self'";
   "media-src 'self'";
   "object-src 'none'";
   "worker-src 'self'"] ++
  [if sp_WujieCSPEnabled options then "script-src 'self' 'unsafe-inline'" else "script-src 'self'";
   "style-src 'self' 'unsafe-inline'";
   "style-src-attr 'unsafe-inline'";
   "style-src-elem 'self' 'unsafe-inline'"].

(** The nonce is not in the policy. *)
Definition webContentSecurityPolicy (nonce : string) (options : SPAOptions) : string := Join (directives options) "; ".

Definition cache_control (cleanPath : string) : string :=
  if (cleanPath =s "runtime-config.js") || HasSuffix cleanPath "manifest.bundle.json" || Contains cleanPath "manifest-" then "no-store"
  else if HasPrefix cleanPath "assets/" then "public, max-age=31536000, immutable"
  else "public, max-age=300".
Definition setStaticCacheControl (cleanPath : string) : H unit := Set_ "Cache-Control" (cache_control cleanPath).

(** [path.Clean] of the path of the request without the slash at its front. *)
Definition clean_path (path : string) : string := TrimPrefix (Clean path) "/".

Section static.
(** The directory: [Stat] tells a file from a directory, and [ServeContent]
    writes the content of a file. *)
Context (OpenRoot : result unit) (Stat_is_dir : string -> result bool) (Open : string -> result string)
  (ServeContent : string -> string -> Request -> H unit).

Definition serveSPAIndex (r : Request) (options : SPAOptions) : H unit :=
  match Stat_is_dir "index.html" with
  | Ok false =>
    match Open "index.html" with
    | Err _ => writeError 404 "NOT_FOUND" "resource not found"
    | Ok content =>
      if negb (Contains content cspNonceMarker) then
        writeError 500 "WEB_SECURITY_CONFIGURATION_INVALID" "web security configuration is invalid"
      else
        nonceBytes ← attempt (rand_Read 24);
        match nonceBytes with
        | Err _ => writeError 500 "WEB_SECURITY_NONCE_UNAVAILABLE" "web security nonce is unavailable"
        | Ok nonceBytes =>
          let nonce := RawStdEncoding nonceBytes in
          _ ← Set_ "Cache-Control" "no-store";
          _ ← Set_ "Content-Security-Policy" (webContentSecurityPolicy nonce options);
          _ ← Set_ "Content-Type" "text/html; charset=utf-8";
          ServeContent "index.html" (ReplaceAll content cspNonceMarker nonce) r
        end
    end
  | _ => writeError 404 "NOT_FOUND" "resource not found"
  end.

Definition SPA (options : SPAOptions) : HandlerFunc := fun r =>
  match OpenRoot with
  | Err _ => writeError 500 "WEB_STATIC_RESOURCE_UNAVAILABLE" "web static root is unavailable"
  | Ok _ =>
    if (rq_Method r <>s "GET") && (rq_Method r <>s "HEAD") then writeError 405 "METHOD_NOT_ALLOWED" "method is not allowed"
    else if HasPrefix (rq_Path r) "/api/" then writeError 404 "NOT_FOUND" "API route not found"
    else if contains (Split (rq_Path r) "/") ".." then writeError 404 "NOT_FOUND" "resource not found"
    else
      let clean := clean_path (rq_Path r) in
      if clean =s "index.html" then serveSPAIndex r options
      else
        match (if (clean <>s ".") && (clean <>s "") then Stat_is_dir clean else Ok true) with
        | Ok false =>
          match Open clean with
          | Err _ => writeError 500 "WEB_STATIC_RESOURCE_UNAVAILABLE" "web static resource is unavailable"
          | Ok file => _ ← setStaticCacheControl clean; ServeContent (List.last (Split clean "/") "") file r
          end
        | _ => serveSPAIndex r options
        end
  end.
End static.

(** ** What the filters keep *)

Lemma bind_ext {A B} (m : H A) (f g : A -> H B) e n w :
  (forall a n' w', m e n w = (Ok a, n', w') -> f a e n' w' = g a e n' w') -> (m ≫= f) e n w = (m ≫= g) e n w.
Proof. intros E. unfold mbind, M_bind. destruct (m e n w) as [[[a|err] k] v] eqn:R; [by apply E|done]. Qed.

Section filters.
Context (url_Parse : string -> option URL) (options : FilterOptions).

Definition permitted (r : Request) : bool :=
  let origin := origin_key (rq_Header r "Origin") in
  (origin =s "") || contains (allowed_origins (fo_AllowedOrigins options)) origin || sameOrigin url_Parse origin r.

(** The requests that handlers see. *)
Record checked (r : Request) : Prop := {
  ck_id : validRequestID (rq_ID r) = true;
  ck_header : rq_Header r requestIDHeader = rq_ID r;
  ck_origin : permitted r = true;
  ck_method : rq_Method r <> "OPTIONS";
  ck_body : 0 < fo_MaxBodyBytes options -> is_Some (rq_Body r) -> rq_Limit r = Some (fo_MaxBodyBytes options)
}.

(** The identifiers that the server draws are UUIDs. *)
Definition uuids_valid (e : Env) : Prop := forall n, validRequestID (uuids e n) = true.

Lemma permitted_named r id : permitted (r <| rq_Header := fun key => if key =s requestIDHeader then id else rq_Header r key |> <| rq_ID := id |>) =
  permitted r.
Proof. done. Qed.

Lemma body_agrees next next' r e n w : (forall r, checked r -> forall n w, next r e n w = next' r e n w) ->
  validRequestID (rq_ID r) = true -> rq_Header r requestIDHeader = rq_ID r -> permitted r = true -> rq_Method r <> "OPTIONS" ->
  bodyLimit (fo_MaxBodyBytes options) (accessLog next) r e n w = bodyLimit (fo_MaxBodyBytes options) (accessLog next') r e n w.
Proof.
  intros Ag V Hd P Me. assert (A : forall r0, checked r0 -> accessLog next r0 e n w = accessLog next' r0 e n w).
  { intros r0 Ck. unfold accessLog. apply bind_ext. intros a n1 w1 _. unfold mbind, M_bind. by rewrite Ag. }
  unfold bodyLimit. destruct (_ && _) eqn:B; apply A; (split; [done..|]); cbn; intros Mx Bd; [done|].
  rewrite bool_decide_true in B by done. apply andb_false_iff in B as [B|B]; [lia|done].
Qed.

Lemma cors_agrees next next' r e n w : (forall r, checked r -> forall n w, next r e n w = next' r e n w) ->
  validRequestID (rq_ID r) = true -> rq_Header r requestIDHeader = rq_ID r ->
  cors url_Parse (fo_AllowedOrigins options) (bodyLimit (fo_MaxBodyBytes options) (accessLog next)) r e n w =
  cors url_Parse (fo_AllowedOrigins options) (bodyLimit (fo_MaxBodyBytes options) (accessLog next')) r e n w.
Proof.
  intros Ag V Hd. unfold cors. destruct (_ && negb (sameOrigin _ _ _)) eqn:B; [done|]. apply bind_ext. intros a n1 w1 _.
  destruct (String.eqb_spec (rq_Method r) "OPTIONS"); [done|]. apply body_agrees; try done. unfold permitted.
  destruct (origin_key (rq_Header r "Origin") =s ""); [done|]. destruct (contains _ _); [done|]. by apply negb_false_iff in B.
Qed.

Lemma serve_agrees next next' r e n w : uuids_valid e -> (forall r, checked r -> forall n w, next r e n w = next' r e n w) ->
  serve url_Parse options next r e n w = serve url_Parse options next' r e n w.
Proof.
  intros U Ag. unfold serve, Filters, FilterChain. cbn [fold_right]. unfold recoverer at 1 2.
  assert (Q : forall n w, requestID (securityHeaders (fo_Secure options) (cors url_Parse (fo_AllowedOrigins options)
      (bodyLimit (fo_MaxBodyBytes options) (accessLog next)))) r e n w =
    requestID (securityHeaders (fo_Secure options) (cors url_Parse (fo_AllowedOrigins options)
      (bodyLimit (fo_MaxBodyBytes options) (accessLog next')))) r e n w).
  { clear n w. intros n w. unfold requestID at 1 2. apply bind_ext. intros id n1 w1 R.
    assert (V : validRequestID id = true).
    { destruct (validRequestID (TrimSpace (rq_Header r requestIDHeader))) eqn:V; [by injection R as <- _ _|].
      injection R as <- _ _. apply U. }
    apply bind_ext. intros _ n2 w2 _. unfold securityHeaders. do 6 (apply bind_ext; intros ? ? ? _). by apply cors_agrees. }
  unfold mbind, M_bind, attempt. by rewrite Q.
Qed.

(** C32. Handlers run on checked requests: the answer of the server is that of a
    handler that is only asked requests with a well-formed identifier, the
    origin of which is allowed or the server's own, that are no preflights, and
    whose body is bounded; what it would do with others makes no difference. *)
Theorem handlers_see_checked_requests next next' r e n : uuids_valid e ->
  (forall r, checked r -> forall n w, next r e n w = next' r e n w) ->
  serve url_Parse options next r e n fresh_writer = serve url_Parse options next' r e n fresh_writer.
Proof. intros U Ag. by apply serve_agrees. Qed.

(** A foreign origin is refused: whatever the handler is, the request of a
    page that is neither allowed nor the server's own is answered 403, and no
    header shares the answer with the page. *)
Theorem foreign_origins_are_refused r e n : permitted r = false -> exists n' w h, w_sent w = Some (403, h) /\
  find (fun p => p.1 =s "Access-Control-Allow-Origin") h = None /\ w_log w = [] /\
  forall next, serve url_Parse options next r e n fresh_writer = (Ok tt, n', w).
Proof.
  intros P. assert (Cors : forall r', permitted r' = false -> forall next e n w,
    cors url_Parse (fo_AllowedOrigins options) next r' e n w = writeError 403 "ORIGIN_DENIED" "origin is not allowed" e n w).
  { intros r' P' next e0 n0 w0. unfold permitted in P'. apply orb_false_iff in P' as [P1 P3]. apply orb_false_iff in P1 as [P1 P2].
    unfold cors. by rewrite P1, P2, P3. }
  unfold serve, Filters, FilterChain, recoverer, requestID. cbn [fold_right].
  set (id := TrimSpace (rq_Header r requestIDHeader)). destruct (validRequestID id); destruct (fo_Secure options) eqn:Sec;
    (eexists _, _, _; split_and!; [| | |intros next; unfold securityHeaders, mbind, M_bind, attempt; cbn -[cors writeError];
       rewrite Cors by exact P; reflexivity]; reflexivity).
Qed.
End filters.

(** The label of a route is one of those that are known. *)
Lemma routes_are_known path : metricRoute path ∈ "unmatched" :: exact_routes ++ map (fun p => p +:+ ":id") route_prefixes.
Proof.
  unfold metricRoute. destruct (find (HasPrefix path) route_prefixes) as [p|] eqn:F.
  - apply find_some in F as [F _]. apply list_elem_of_In. right. apply in_or_app. right. apply in_map_iff. by exists p.
  - destruct (find (String.eqb path) exact_routes) as [p|] eqn:G; apply list_elem_of_In; [|by left].
    apply find_some in G as [G _]. right. apply in_or_app. by left.
Qed.

(** C33. Errors of the server say nothing: two errors that are answered with the
    same status of 500 or more, and the same reason, get the same answer byte
    for byte, whatever their messages and causes are. *)
Theorem errors_do_not_leak (trace : Request -> string) (FromError : error -> Z * string * string) r e1 e2 c1 c2 reason m1 m2 :
  FromError e1 = (c1, reason, m1) -> FromError e2 = (c2, reason, m2) -> error_status c1 = error_status c2 ->
  500 <= error_status c1 -> EncodeError trace FromError r e1 = EncodeError trace FromError r e2.
Proof. intros E1 E2 St Ge. unfold EncodeError. rewrite E1, E2, <- St. by rewrite (proj2 (Z.leb_le _ _) Ge). Qed.

(** ** The policy of the pages *)

Definition no_semicolon (s : string) : Prop := ~ In ";"%char (list_ascii_of_string s).

Lemma no_semicolon_app s t : no_semicolon s -> no_semicolon t -> no_semicolon (s +:+ t).
Proof. unfold no_semicolon. rewrite list_ascii_append. intros A B I. apply in_app_or in I as [I|I]; auto. Qed.
Lemma no_semicolon_join l sep : no_semicolon sep -> Forall no_semicolon l -> no_semicolon (Join l sep).
Proof.
  intros Sp. induction 1 as [|s l F Fl IH]; [by intros []|]. destruct l as [|s' l]; [done|].
  apply no_semicolon_app; [done|]. by apply no_semicolon_app.
Qed.
Lemma Split_directives d ds : Forall no_semicolon (d :: ds) -> Split (Join (d :: ds) "; ") ";" = d :: map (String " ") ds.
Proof.
  revert d. induction ds as [|d' ds IH]; intros d F; inversion F as [|? ? D Ds]; subst; [by apply Split_none|].
  change (Join (d :: d' :: ds) "; ") with (d +:+ String ";" (String " " (Join (d' :: ds) "; "))). rewrite Split_app by done.
  f_equal. specialize (IH d' Ds). cbn [map]. change (Split (String " " (Join (d' :: ds) "; ")) ";") with
    (match Split (Join (d' :: ds) "; ") ";" with first :: others => String " " first :: others | [] => [String " " ""] end).
  by rewrite IH.
Qed.

(** The sources that the validation of the configuration takes as they are. *)
Definition accepted_sources (url_Parse : string -> option URL) (production : bool) (options : SPAOptions) : Prop :=
  Forall (fun s => validWebCSPOrigin url_Parse s production = true) (sp_FrameSources options ++ sp_ConnectSources options).

Lemma accepted_source url_Parse s production : validWebCSPOrigin url_Parse s production = true -> no_semicolon s.
Proof.
  unfold validWebCSPOrigin. destruct (_ || ContainsAny _ _) eqn:B; [done|]. intros _. apply orb_false_iff in B as [_ B].
  apply (ContainsAny_excludes _ _ ";"%char) in B; [done|]. do 3 right. left. reflexivity.
Qed.

Ltac semicolon_free := by let I := fresh in intros I; cbn in I; repeat destruct I as [I|I]; try discriminate I.

(** The policy of a page has its sixteen directives and no other: sources
    that the configuration accepts add to the frames and the connections alone,
    and scripts come from the server itself unless Wujie was approved. *)
Theorem pages_keep_their_policy url_Parse production options nonce : accepted_sources url_Parse production options ->
  exists d ds, directives options = d :: ds /\ llen ds = 15 /\ Split (webContentSecurityPolicy nonce options) ";" = d :: map (String " ") ds /\
  (sp_WujieCSPEnabled options = false -> "script-src 'self'" ∈ ds).
Proof.
  intros A. apply Forall_app in A as [Af Ac].
  assert (Fr : no_semicolon ("frame-src " +:+ frame_source options)).
  { apply no_semicolon_app; [semicolon_free|]. unfold frame_source. case_match; [semicolon_free|].
    apply no_semicolon_join; [semicolon_free|]. apply Forall_app. split; [case_match; repeat constructor; semicolon_free|].
    eapply Forall_impl; [exact Af|]. intros s. apply accepted_source. }
  assert (Co : no_semicolon ("connect-src " +:+ Join ("'self'" :: sp_ConnectSources options) " ")).
  { apply no_semicolon_app; [semicolon_free|]. apply no_semicolon_join; [semicolon_free|]. constructor; [semicolon_free|].
    eapply Forall_impl; [exact Ac|]. intros s. apply accepted_source. }
  unfold webContentSecurityPolicy. eexists _, _. split; [reflexivity|]. split; [reflexivity|]. split.
  - apply Split_directives. cbn [app]. repeat (constructor; [first [exact Fr|exact Co|case_match; semicolon_free|semicolon_free]|]). constructor.
  - intros W. rewrite W. cbn [app]. apply list_elem_of_In. cbn. tauto.
Qed.

(** ** The files that are served *)

Lemma clean_down elements : forall rooted out, ~ In ".." elements ->
  clean_elements rooted out elements = reverse out ++ List.filter (fun e => negb ((e =s "") || (e =s "."))) elements.
Proof.
  induction elements as [|e rest IH]; intros rooted out N; cbn; [by rewrite app_nil_r|].
  destruct ((e =s "") || (e =s ".")) eqn:B; cbn; [apply IH; cbn in N; tauto|].
  destruct (String.eqb_spec e "..") as [->|Ne]; [exfalso; apply N; by left|]. rewrite IH by (cbn in N; tauto).
  by rewrite reverse_cons, <- app_assoc.
Qed.

Lemma clean_path_down path : contains (Split path "/") ".." = false -> clean_path path <> "." -> clean_path path <> "" ->
  Forall down (Split (clean_path path) "/").
Proof.
  intros N Dot Em. apply contains_false in N. rewrite list_elem_of_In in N. unfold clean_path, Clean in *.
  set (rooted := HasPrefix path "/") in *. rewrite (clean_down _ rooted []) in * by done. change (reverse (A := string) []) with (@nil string) in *. cbn [app] in *.
  set (l := List.filter (fun e => negb ((e =s "") || (e =s "."))) (Split path "/")) in *.
  assert (D : Forall down l).
  { apply Forall_forall. intros e I. apply list_elem_of_In, List.filter_In in I as [I K]. apply negb_true_iff, orb_false_iff in K as [K1 K2].
    breflect. split; [done|done|by intros ->|]. pose proof (Split_no_slash path) as F. rewrite Forall_forall in F. by apply F, list_elem_of_In. }
  assert (Ne : l <> []).
  { intros E. rewrite E in *. destruct rooted; cbn in *; done. }
  assert (T : TrimPrefix (if rooted then "/" +:+ join_elements l else if join_elements l =s "" then "." else join_elements l) "/" = join_elements l).
  { destruct rooted; [unfold TrimPrefix; by rewrite HasPrefix_take|]. destruct (String.eqb_spec (join_elements l) "") as [E|E].
    - exfalso. destruct l as [|x l]; [done|]. inversion D as [|? ? Dx ?]; subst. destruct l; cbn in E; [by apply Dx|].
      destruct x; [by apply Dx|done].
    - unfold TrimPrefix. destruct (HasPrefix (join_elements l) "/") eqn:Hp; [exfalso|done].
      destruct l as [|x l]; [done|]. inversion D as [|? ? Dx ?]; subst.
      destruct x as [|c x]; [by apply Dx|]. apply (dn_slash _ Dx). cbn. left.
      destruct (Ascii.eqb_spec c "/") as [->|Nc]; [done|]. apply HasPrefix_app in Hp as (t & Hp). destruct l; injection Hp as Hc _; congruence. }
  rewrite T. rewrite Split_join; [done|done|]. eapply Forall_impl; [exact D|]. by intros x [].
Qed.

(** The static files stay in their directory: what is asked of the directory
    for any request is a relative path that goes down only, so that two
    directories that agree below their root answer the same. *)
Theorem static_files_stay_inside root stat stat' open open' serve_content options r e n :
  (forall p, Forall down (Split p "/") -> stat p = stat' p /\ open p = open' p) ->
  SPA root stat open serve_content options r e n fresh_writer = SPA root stat' open' serve_content options r e n fresh_writer.
Proof.
  intros Ag. assert (Ix : stat "index.html" = stat' "index.html" /\ open "index.html" = open' "index.html").
  { apply Ag. change (Forall down ["index.html"]). constructor; [|done]. split; [done..|]. intros I. cbn in I.
    repeat destruct I as [I|I]; discriminate I || done. }
  assert (Idx : serveSPAIndex stat open serve_content r options = serveSPAIndex stat' open' serve_content r options)
    by (unfold serveSPAIndex; by rewrite (proj1 Ix), (proj2 Ix)).
  unfold SPA. rewrite Idx. destruct root; [|done]. do 2 (case_match; [done|]). destruct (contains _ _) eqn:Up; [done|].
  destruct (clean_path (rq_Path r) =s "index.html"); [done|].
  destruct ((clean_path (rq_Path r) <>s ".") && _) eqn:B; [|done]. apply andb_prop in B as [B1 B2]. breflect.
  destruct (Ag (clean_path (rq_Path r))) as [<- <-]; [by apply clean_path_down|done].
Qed.

(** ** Examples *)

Module examples.
Definition env : Env :=
  mkEnv (fun _ => 100 * Second) (fun _ => "6f1f4e0a-9c2b-4a53-8a57-0d6a8e6a9b11") (fun _ => None) (fun _ _ => "0"%char) false.
Definition options : FilterOptions := mkFilterOptions true ["https://console.example/"] 16.
Definition request (method origin : string) : Request :=
  mkRequest method "/api/v1/admin/users/42" "forge.example" true
    (fun key => if key =s "Origin" then origin else "") (Some "payload") None "".
(** A handler that answers with the origin of the request. *)
Definition echo : HandlerFunc := fun r => Write (rq_Header r "Origin").
Definition answer (next : HandlerFunc) (r : Request) := serve Config.examples.parse options next r env 0%nat fresh_writer.
Definition page : SPAOptions := mkSPA ["https://reports.example"] [] false.
Definition from_error (e : error) : Z * string * string :=
  match e with Errorf m _ => (500, "INTERNAL", m) | _ => (500, "INTERNAL", "sentinel") end.
Definition trace (r : Request) : string := "".
(** A directory with a page, and a file above it. *)
Definition stat (p : string) : result bool := if contains ["index.html"; "assets/app.js"; "../secret"] p then Ok false else Err (Errorf "not found" []).
Definition stat' (p : string) : result bool := if contains ["index.html"; "assets/app.js"] p then Ok false else Err (Errorf "not found" []).
Definition open (p : string) : result string := if p =s "index.html" then Ok ("<script nonce=" +:+ cspNonceMarker +:+ ">") else Ok "text".
Definition deliver (name content : string) (r : Request) : H unit := Write content.
End examples.

(** The preflight of an allowed origin never gets to the handler; its own
    request does, and is logged. *)
Lemma handlers_see_checked_requests_witness :
  examples.answer examples.echo (examples.request "OPTIONS" "https://console.example") =
  examples.answer (fun _ => fail (Errorf "panic" [])) (examples.request "OPTIONS" "https://console.example") /\
  (let w := (examples.answer examples.echo (examples.request "GET" "https://console.example")).2 in
   (fst <$> w_sent w, w_body w, map (fun a => (ac_Route a, ac_Status a)) (w_log w)) =
   (Some 200, "https://console.example", [("/api/v1/admin/users/:id", 200)])).
Proof.
  assert (U : uuids_valid examples.env) by (intros n; vm_compute; reflexivity).
  split; [|vm_compute; reflexivity]. unfold examples.answer.
  refine (eq_trans (handlers_see_checked_requests Config.examples.parse examples.options examples.echo
    (fun r => if rq_Method r =s "OPTIONS" then fail (Errorf "panic" []) else examples.echo r)
    (examples.request "OPTIONS" "https://console.example") examples.env 0%nat U _) _).
  - intros r Ck n w. by rewrite (seqb_neq _ _ (ck_method _ _ _ Ck)).
  - vm_compute. reflexivity.
Defined.

Lemma foreign_origins_are_refused_witness : exists n' w h, w_sent w = Some (403, h) /\
  find (fun p => p.1 =s "Access-Control-Allow-Origin") h = None /\ w_log w = [] /\
  forall next, examples.answer next (examples.request "GET" "https://evil.example") = (Ok tt, n', w).
Proof.
  assert (P : permitted Config.examples.parse examples.options (examples.request "GET" "https://evil.example") = false)
    by (vm_compute; reflexivity).
  unfold examples.answer.
  exact (foreign_origins_are_refused Config.examples.parse examples.options (examples.request "GET" "https://evil.example") examples.env 0%nat P).
Defined.

Lemma errors_do_not_leak_witness :
  EncodeError examples.trace examples.from_error (examples.request "GET" "") (Errorf "dial tcp 10.0.0.3: refused" []) =
  EncodeError examples.trace examples.from_error (examples.request "GET" "") (Errorf "relation users does not exist" []).
Proof.
  apply (errors_do_not_leak examples.trace examples.from_error _ _ _ 500 500 "INTERNAL" "dial tcp 10.0.0.3: refused"
    "relation users does not exist"); try reflexivity; vm_compute; discriminate.
Defined.

Lemma pages_keep_their_policy_witness : accepted_sources Config.examples.parse true examples.page /\
  exists d ds, directives examples.page = d :: ds /\ llen ds = 15 /\
  Split (webContentSecurityPolicy "n" examples.page) ";" = d :: map (String " ") ds /\
  (sp_WujieCSPEnabled examples.page = false -> "script-src 'self'" ∈ ds).
Proof.
  assert (A : accepted_sources Config.examples.parse true examples.page) by (repeat constructor; vm_compute; reflexivity).
  split; [exact A|]. exact (pages_keep_their_policy Config.examples.parse true examples.page "n" A).
Defined.

Lemma static_files_stay_inside_witness :
  SPA (Ok tt) examples.stat examples.open examples.deliver examples.page (examples.request "GET" "") examples.env 0%nat fresh_writer =
  SPA (Ok tt) examples.stat' examples.open examples.deliver examples.page (examples.request "GET" "") examples.env 0%nat fresh_writer.
Proof.
  refine (static_files_stay_inside (Ok tt) examples.stat examples.stat' examples.open examples.open examples.deliver examples.page
    (examples.request "GET" "") examples.env 0%nat _). intros p D. split; [|reflexivity]. unfold examples.stat, examples.stat'.
  destruct (String.eqb_spec p "../secret") as [->|Ne].
  - exfalso. change (Forall down [".."; "secret"]) in D. inversion D as [|? ? Dd _]; subst. by apply (dn_up _ Dd).
  - cbn [contains]. by rewrite (seqb_neq "../secret" p) by congruence.
Defined.

(** Codes that are called stable identifiers stand for two reasons each. *)
Example numeric_codes_collide :
  map NumericCode ["EXPORT_ARTIFACT_REQUIRED"; "APPROVAL_REQUIRED"; "EXPORT_UNAVAILABLE"; "FEDERATED_UNAVAILABLE";
                   "EXPORT_REVOKE_REASON_REQUIRED"; "FEDERATED_PROVIDER_NOT_FOUND"; "EXPORT_NOT_FOUND"; "INVALID_ACCESS_REVIEW"] =
  ["100011"; "100011"; "400005"; "400005"; "100012"; "100012"; "100013"; "100013"].
Proof. vm_compute. reflexivity. Qed.

(** Every method is a label of its own. *)
Example methods_are_not_bounded :
  map (fun m => map ac_Method (w_log (examples.answer examples.echo (examples.request m "")).2)) ["GET"; "AAAA"; "AAAB"] =
  [["GET"]; ["AAAA"]; ["AAAB"]].
Proof. vm_compute. reflexivity. Qed.
