(* ===== verification/Bootstrap.v ===== *)
(** * The first start and the menus

    [Bootstrap] of [internal/app/identity/service.go] with its functions of
    [internal/adapters/repository/identity.go]: every process seeds the
    organization, its roles and rules, the permissions, the menus and the first
    administrator when it starts, while other replicas may be doing the same; and
    the menus that a user sees.

    [others] is what the other replicas do before a statement.  The reads of a
    user with the roles and the defaults of the settings are one statement each
    to them. *)

From S2P Require Import Prelude GoString Database Identity GrantPolicy Password SecurityPolicy.
From S2P Require Import Directory IdentityStore Roles.

Record Menu := mkMenu {
  menu_ID : string;
  menu_OrganizationID : string;
  menu_Key : string;
  menu_ParentKey : string;
  menu_Name : string;
  menu_Route : string;
  menu_Icon : string;
  menu_PermissionKey : string;
  menu_SortOrder : Z;
  menu_Status : string;
  menu_CreatedAt : Time;
  menu_UpdatedAt : Time
}.
#[export] Instance Menu_eta : Eta Menu := fun m =>
  mkMenu (menu_ID m) (menu_OrganizationID m) (menu_Key m) (menu_ParentKey m) (menu_Name m) (menu_Route m) (menu_Icon m)
    (menu_PermissionKey m) (menu_SortOrder m) (menu_Status m) (menu_CreatedAt m) (menu_UpdatedAt m).

Record Installation := mkInstallation { store : Tables; menus : list Menu }.
#[export] Instance Installation_eta : Eta Installation := fun s => mkInstallation (store s) (menus s).

#[local] Abbreviation N := (Database.M Installation).

Definition ErrInvalidMenu : error := Sentinel "identity.ErrInvalidMenu".

(** ** What is seeded *)

Definition seed_roles : list (string * string * string) :=
  [("system_admin", "系统管理员", DataScopeOrganization); ("security_admin", "安全管理员", DataScopeOrganization);
   ("auditor", "审计员", DataScopeOrganization); ("user", "普通用户", DataScopeSelf)].
Definition seed_rules : list (string * string * string) :=
  [("system_admin", "security_admin", "系统管理与安全管理必须职责分离");
   ("system_admin", "auditor", "系统管理与审计监督必须职责分离");
   ("security_admin", "auditor", "安全管理与审计监督必须职责分离")].
Definition basePermissions : list (string * string) :=
  [("system.user.read", "查看用户"); ("system.user.create", "创建用户"); ("system.user.update", "修改用户");
   ("system.user.role.manage", "分配用户角色"); ("system.user.assignment.read", "查看用户任职"); ("system.user.assignment.manage", "管理用户任职");
   ("system.role.read", "查看角色权限"); ("system.role.manage", "管理角色权限"); ("system.organization.read", "查看组织信息");
   ("system.organization.manage", "管理组织信息"); ("system.department.read", "查看部门"); ("system.department.manage", "管理部门");
   ("system.position.read", "查看岗位"); ("system.position.manage", "管理岗位"); ("system.user_group.read", "查看用户组");
   ("system.user_group.manage", "管理用户组"); ("system.menu.read", "查看平台菜单"); ("system.menu.manage", "管理平台菜单");
   ("system.data_policy.read", "查看数据策略"); ("system.data_policy.manage", "管理数据策略"); ("system.data.export", "授权数据导出");
   ("system.data.retention.read", "查看数据保留证明"); ("system.data.retention.manage", "记录数据删除证明"); ("system.identity_mapping.read", "查看外部身份绑定");
   ("system.identity_mapping.manage", "管理外部身份绑定"); ("system.access_review.read", "查看访问复核"); ("system.access_review.manage", "管理访问复核");
   ("system.session.read", "查看在线会话"); ("system.session.revoke", "强制下线会话"); ("system.audit.read", "查看审计日志");
   ("system.audit.export", "导出审计日志"); ("system.audit.verify", "校验审计完整性"); ("system.temporary_grant.read", "查看临时授权");
   ("system.temporary_grant.manage", "管理临时授权"); ("system.emergency_access.read", "查看应急授权"); ("system.emergency_access.manage", "管理应急授权");
   ("system.config.read", "查看系统配置"); ("system.config.manage", "管理配置变更"); ("system.security.manage", "管理安全配置");
   ("system.status.read", "查看系统状态"); ("approval.request.create", "发起审批"); ("approval.request.read", "查看审批");
   ("approval.task.decide", "处理审批"); ("approval.task.transfer", "转办审批"); ("approval.request.withdraw", "撤回审批")].
Definition security_permissions : list string :=
  ["system.user.read"; "system.user.assignment.read"; "system.user.assignment.manage"; "system.role.read";
   "system.organization.read"; "system.organization.manage"; "system.department.read"; "system.department.manage";
   "system.position.read"; "system.position.manage"; "system.user_group.read"; "system.user_group.manage";
   "system.menu.read"; "system.menu.manage"; "system.identity_mapping.read"; "system.identity_mapping.manage";
   "system.access_review.read"; "system.access_review.manage"; "system.session.read"; "system.session.revoke";
   "system.temporary_grant.read"; "system.temporary_grant.manage"; "system.config.read"; "system.config.manage";
   "system.security.manage"; "system.status.read"; "system.data_policy.read"; "system.data_policy.manage";
   "system.data.export"; "system.data.retention.read"; "system.data.retention.manage"].
Definition auditor_permissions : list string :=
  ["system.audit.read"; "system.audit.export"; "system.audit.verify"; "system.temporary_grant.read"].
Definition approval_permissions : list string :=
  ["approval.request.create"; "approval.request.read"; "approval.task.decide"; "approval.task.transfer";
   "approval.request.withdraw"].

(** The grants in the order in which they are made. *)
Definition seed_grants : list (string * string) :=
  map (pair "security_admin") security_permissions ++ map (pair "auditor") auditor_permissions ++
  [("auditor", "system.data_policy.read")] ++
  flat_map (fun k => [("user", k); ("security_admin", k)]) approval_permissions ++
  [("auditor", "approval.request.read")].

Definition builtin (org : string) (at_ : Time) (key parent name route icon permission : string) (order : Z) : Menu :=
  mkMenu "" org key parent name route icon permission order "ACTIVE" at_ at_.
Definition builtinMenus (org : string) (at_ : Time) : list Menu :=
  let item := builtin org at_ in
  [item "dashboard" "" "工作台" "/dashboard" "DashboardOutlined" "" 10;
   item "platform" "" "平台管理" "/group/platform" "SettingOutlined" "" 20;
   item "platform.users" "platform" "用户管理" "/admin/users" "UserOutlined" "system.user.read" 21;
   item "platform.roles" "platform" "角色权限" "/admin/roles" "SafetyOutlined" "system.role.read" 22;
   item "platform.permissions" "platform" "权限清单" "/admin/permissions" "FileProtectOutlined" "system.role.read" 23;
   item "platform.organization" "platform" "组织信息" "/admin/organization" "ApartmentOutlined" "system.organization.read" 24;
   item "platform.departments" "platform" "部门管理" "/admin/departments" "PartitionOutlined" "system.department.read" 25;
   item "platform.positions" "platform" "岗位管理" "/admin/positions" "IdcardOutlined" "system.position.read" 26;
   item "platform.user-groups" "platform" "用户组管理" "/admin/user-groups" "UsergroupAddOutlined" "system.user_group.read" 27;
   item "security" "" "安全中心" "/group/security" "SafetyCertificateOutlined" "" 30;
   item "security.policy" "security" "安全基线" "/security" "SafetyCertificateOutlined" "system.config.read" 31;
   item "security.sessions" "security" "在线会话" "/admin/sessions" "LockOutlined" "system.session.read" 32;
   item "security.audit-logs" "security" "审计日志" "/admin/audit-logs" "AuditOutlined" "system.audit.read" 33;
   item "governance" "" "治理中心" "/group/governance" "CheckSquareOutlined" "" 40;
   item "governance.approvals" "governance" "审批中心" "/governance/approvals" "CheckSquareOutlined" "approval.request.read" 41;
   item "governance.temporary-grants" "governance" "临时授权" "/governance/temporary-grants" "SafetyCertificateOutlined" "system.temporary_grant.read" 42;
   item "governance.access-reviews" "governance" "访问复核" "/governance/access-reviews" "SafetyCertificateOutlined" "system.access_review.read" 43;
   item "governance.data-governance" "governance" "数据治理" "/admin/data-governance" "DatabaseOutlined" "system.data_policy.read" 44;
   item "governance.config-changes" "governance" "配置变更" "/admin/config-changes" "SafetyCertificateOutlined" "system.config.read" 45;
   item "operations" "" "运维中心" "/group/operations" "SettingOutlined" "" 50;
   item "operations.status" "operations" "系统状态" "/ops/system" "SettingOutlined" "system.status.read" 51].

(** ** The repository *)

Section starts.
Context `{UnicodeTables} `{Argon2} (others : nat -> Installation -> Installation).

Definition racing {A} (m : N A) : N A := fun e n s => m e (S n) (others n s).
Definition in_store {A} (m : Database.M Tables A) : N A := zoom store (fun t s => s <| store := t |>) m.

(** The shape of the [Ensure] functions: the row of a natural key is looked up,
    else inserted under a new identifier, else looked up once more. *)
Definition ensured (find : N string) (insert : string -> N unit) : N string :=
  found ← attempt (racing find);
  match found with
  | Ok id => mret id
  | Err err =>
    if negb (errors_Is err ErrNoRows) then fail err
    else
      id ← NewString;
      made ← attempt (insert id);
      match made with
      | Ok _ => mret id
      | Err err =>
        again ← attempt (racing find);
        match again with Ok existing => mret existing | Err _ => fail err end
      end
  end.

(** The same for a row that is counted. *)
Definition related (count : N Z) (insert : N unit) : N unit :=
  n ← racing count;
  if 0 <? n then mret tt
  else
    made ← attempt insert;
    match made with
    | Ok _ => mret tt
    | Err err =>
      again ← attempt (racing count);
      match again with Ok n => if 0 <? n then mret tt else fail err | Err _ => fail err end
    end.

Definition find_row {A} (rows : Tables -> list A) (p : A -> bool) (id : A -> string) : N string :=
  row ← in_store (queryR (fun t => select_row p (rows t))); mret (id row).

Definition insert_organization (o : Organization) (t : Tables) : result (unit * Tables) :=
  if existsb (fun x => (org_ID x =s org_ID o) || (org_Key x =s org_Key o)) (organizations t) then Err ErrDuplicate
  else Ok (tt, t <| organizations := organizations t ++ [o] |>).

Definition EnsureOrganization (key name : string) : N string :=
  ensured (find_row organizations (fun o => org_Key o =s key) org_ID) (fun id =>
    at_ ← now;
    racing (in_store (stmt (insert_organization (mkOrganization id key name "ACTIVE" "" 0 0 (UTC at_) (UTC at_)))))).

Definition role_named (org key : string) (r : RoleTableRow) : bool := (rl_organization_id r =s org) && (rl_role_key r =s key).

Definition insert_role (r : RoleTableRow) (t : Tables) : result (unit * Tables) :=
  if existsb (fun x => (rl_id x =s rl_id r) || role_named (rl_organization_id r) (rl_role_key r) x) (roles t)
  then Err ErrDuplicate
  else Ok (tt, t <| roles := roles t ++ [r] |>).

Definition EnsureRole (org key name scope : string) : N string :=
  ensured (find_row roles (role_named org key) rl_id) (fun id =>
    at_ ← now; racing (in_store (stmt (insert_role (mkRole id org key name scope [] (UTC at_)))))).

Definition insert_permission (p : Permission) (t : Tables) : result (unit * Tables) :=
  if existsb (fun x => (perm_ID x =s perm_ID p) || (perm_Key x =s perm_Key p)) (permissions t) then Err ErrDuplicate
  else Ok (tt, t <| permissions := permissions t ++ [p] |>).

Definition EnsurePermission (key name : string) : N string :=
  ensured (find_row permissions (fun p => perm_Key p =s key) perm_ID) (fun id =>
    at_ ← now; racing (in_store (stmt (insert_permission (mkPermission id key name (UTC at_)))))).

Definition pair_is (a b : string) (p : string * string) : bool := (p.1 =s a) && (p.2 =s b).

Definition GrantPermissionToRole (org role permission : string) : N unit :=
  role ← racing (find_row roles (role_named org role) rl_id);
  permission ← racing (find_row permissions (fun p => perm_Key p =s permission) perm_ID);
  related (in_store (query (fun t => count_if (pair_is role permission) (role_permissions t))))
    (racing (in_store (stmt (insert_role_permission role permission)))).

Definition rule_is (org a b : string) (r : RuleRow) : bool :=
  (rule_OrganizationID (rr_rule r) =s org) && (rule_RoleA (rr_rule r) =s a) && (rule_RoleB (rr_rule r) =s b).

Definition insert_rule (r : RuleRow) (t : Tables) : result (unit * Tables) :=
  if existsb (fun x => (rule_ID (rr_rule x) =s rule_ID (rr_rule r)) ||
                       rule_is (rule_OrganizationID (rr_rule r)) (rule_RoleA (rr_rule r)) (rule_RoleB (rr_rule r)) x) (conflict_rules t)
  then Err ErrDuplicate
  else Ok (tt, t <| conflict_rules := conflict_rules t ++ [r] |>).

(** The two roles in their order. *)
Definition ordered (a b : string) : string * string := if str_le a b then (a, b) else (b, a).

Definition EnsureRoleConflict (org a b reason : string) : N unit :=
  let '(a, b) := ordered a b in
  related (in_store (query (fun t => count_if (rule_is org a b) (conflict_rules t))))
    (id ← NewString; at_ ← now;
     racing (in_store (stmt (insert_rule (mkRuleRow (mkRule id org a b reason) "ACTIVE" (UTC at_)))))).

Definition menu_here (org key : string) (m : Menu) : bool := (menu_OrganizationID m =s org) && (menu_Key m =s key).

Definition insert_menu (m : Menu) (s : Installation) : result (unit * Installation) :=
  if existsb (fun x => (menu_ID x =s menu_ID m) || menu_here (menu_OrganizationID m) (menu_Key m) x) (menus s) then Err ErrDuplicate
  else Ok (tt, s <| menus := menus s ++ [m] |>).

Definition menu_row (org key : string) : N Menu := queryR (fun s => select_row (menu_here org key) (menus s)).

Definition EnsureMenu (m : Menu) : N unit :=
  _ ← ensured (row ← menu_row (menu_OrganizationID m) (menu_Key m); mret (menu_ID row)) (fun id =>
        racing (stmt (insert_menu (m <| menu_ID := id |>))));
  mret tt.

Definition menu_le (x y : Menu) : bool :=
  (menu_SortOrder x <? menu_SortOrder y) || ((menu_SortOrder x =? menu_SortOrder y) && str_le (menu_Key x) (menu_Key y)).

Definition repo_ListMenus (org : string) : N (list Menu) :=
  query (fun s => order_by menu_le (select (fun m => (menu_OrganizationID m =s org) && (menu_Status m =s "ACTIVE")) (menus s))).

Definition set_menu (m row : Menu) : Menu :=
  row <| menu_ParentKey := menu_ParentKey m |> <| menu_Name := menu_Name m |> <| menu_Route := menu_Route m |>
      <| menu_Icon := menu_Icon m |> <| menu_PermissionKey := menu_PermissionKey m |> <| menu_SortOrder := menu_SortOrder m |>
      <| menu_Status := menu_Status m |> <| menu_UpdatedAt := menu_UpdatedAt m |>.

Definition repo_UpdateMenu (org : string) (m : Menu) : N Menu :=
  current ← menu_row org (menu_Key m);
  at_ ← now;
  let m := m <| menu_ID := menu_ID current |> <| menu_OrganizationID := org |> <| menu_CreatedAt := menu_CreatedAt current |>
             <| menu_UpdatedAt := UTC at_ |> in
  _ ← exec (fun s => s <| menus := update_where (menu_here org (menu_Key m)) (set_menu m) (menus s) |>);
  mret m.

Definition repo_CreateUser (org login display hash : string) (mustChange : bool) : N User :=
  at_ ← now;
  id ← NewString;
  let u := new_user id org login display mustChange (UTC at_) in
  _ ← racing (in_store (stmt (insert_user (mkUserRow u hash))));
  mret u.

Definition user_in (t : Tables) (user org : string) : bool := existsb (fun u => (uid u =s user) && (uorg u =s org)) (users t).

Definition GrantRole (user key : string) : N unit :=
  role ← racing (in_store (queryR (fun t =>
    select_row (fun r => user_in t user (rl_organization_id r) && (rl_role_key r =s key)) (roles t))));
  related (in_store (query (fun t => count_if (pair_is user (rl_id role)) (user_roles t))))
    (racing (in_store (stmt (insert_user_role user (rl_id role))))).

(** ** The service *)

Definition seed (org : string) : N unit :=
  _ ← forM seed_roles (fun '(key, name, scope) => _ ← EnsureRole org key name scope; mret tt);
  _ ← forM seed_rules (fun '(a, b, reason) => EnsureRoleConflict org a b reason);
  _ ← forM basePermissions (fun '(key, name) => _ ← EnsurePermission key name; mret tt);
  _ ← forM seed_grants (fun '(role, permission) => GrantPermissionToRole org role permission);
  at_ ← now;
  forM (builtinMenus org (UTC at_)) EnsureMenu.

Definition finalize (s : Service) (org : string) : N unit := racing (in_store (in_settings (finalizeBootstrapDefaults s org))).

Definition user_by_login (org login : string) : N userRow := racing (in_store (UserByLogin org login)).

Definition administrator (s : Service) (org admin raw : string) : N unit :=
  found ← attempt (user_by_login org admin);
  match found with
  | Ok _ => finalize s org
  | Err err =>
    if negb (errors_Is err ErrNoRows) then fail err
    else
      _ ← lift (match Policy_Validate (s_policy s) raw with Ok _ => Ok tt | Err err => Err (Wrapf "bootstrap password: %w" [] err) end);
      hash ← Hash DefaultHasher raw;
      created ← attempt (repo_CreateUser org admin "Administrator" hash true);
      match created with
      | Err err =>
        existing ← attempt (user_by_login org admin);
        match existing with Err _ => fail err | Ok row => GrantRole (uid row) "system_admin" end
      | Ok u => _ ← GrantRole (user_ID u) "system_admin"; finalize s org
      end
  end.

Definition Bootstrap (s : Service) (orgKey orgName admin raw : string) : N unit :=
  org ← EnsureOrganization orgKey orgName;
  _ ← seed org;
  if admin =s "" then finalize s org else administrator s org admin raw.

(** *** Menus *)

Definition menu_visible (p : Principal) (m : Menu) : bool := (menu_PermissionKey m =s "") || HasPermission p [menu_PermissionKey m].

Definition ListMenus (p : Principal) : N (list Menu) :=
  items ← repo_ListMenus (p_OrganizationID p);
  mret (if HasRole p ["system_admin"] then items else List.filter (menu_visible p) items).

Definition trimmed (m : Menu) : Menu :=
  m <| menu_ParentKey := TrimSpace (menu_ParentKey m) |> <| menu_Name := TrimSpace (menu_Name m) |>
    <| menu_Route := TrimSpace (menu_Route m) |> <| menu_Icon := TrimSpace (menu_Icon m) |>
    <| menu_PermissionKey := TrimSpace (menu_PermissionKey m) |> <| menu_Status := ToUpper (TrimSpace (menu_Status m)) |>.

Definition menu_refused (key : string) (m : Menu) : bool :=
  (key =s "") || (160 <? slen key) || (160 <? slen (menu_ParentKey m)) || (slen (menu_Name m) =? 0) || (200 <? slen (menu_Name m)) ||
  (300 <? slen (menu_Route m)) || (100 <? slen (menu_Icon m)) || (160 <? slen (menu_PermissionKey m)) || (menu_SortOrder m <? 0) ||
  ((menu_Status m <>s "ACTIVE") && (menu_Status m <>s "DISABLED")) || (menu_ParentKey m =s key).

Definition UpdateMenu (actor : Principal) (org key : string) (m : Menu) : N Menu :=
  _ ← authorizeGrantActor actor org;
  let key := TrimSpace key in
  let m := trimmed m in
  _ ← guard_not (menu_refused key m) ErrInvalidMenu;
  repo_UpdateMenu org (m <| menu_Key := key |> <| menu_OrganizationID := org |>).
End starts.

(** ** What a start may do to the installation *)

(** Everything that was there stays. *)
Record grows (s s' : Installation) : Prop := {
  grows_organizations : organizations (store s) ⊆ organizations (store s');
  grows_roles : roles (store s) ⊆ roles (store s');
  grows_permissions : permissions (store s) ⊆ permissions (store s');
  grows_grants : role_permissions (store s) ⊆ role_permissions (store s');
  grows_rules : conflict_rules (store s) ⊆ conflict_rules (store s');
  grows_users : users (store s) ⊆ users (store s');
  grows_user_roles : user_roles (store s) ⊆ user_roles (store s');
  grows_menus : menus s ⊆ menus s'
}.

(** The unique keys of the schema. *)
Definition user_name (r : userRow) : string * string := (uorg r, user_LoginName (row_User r)).
Definition rule_name (r : RuleRow) : string * string * string :=
  (rule_OrganizationID (rr_rule r), rule_RoleA (rr_rule r), rule_RoleB (rr_rule r)).
Record keyed (s : Installation) : Prop := {
  keyed_organizations : NoDup (map org_Key (organizations (store s)));
  keyed_role_ids : NoDup (map rl_id (roles (store s)));
  keyed_roles : NoDup (map (fun r => (rl_organization_id r, rl_role_key r)) (roles (store s)));
  keyed_permissions : NoDup (map perm_Key (permissions (store s)));
  keyed_grants : NoDup (role_permissions (store s));
  keyed_rules : NoDup (map rule_name (conflict_rules (store s)));
  keyed_user_ids : NoDup (map uid (users (store s)));
  keyed_users : NoDup (map user_name (users (store s)));
  keyed_user_roles : NoDup (user_roles (store s));
  keyed_menus : NoDup (map (fun m => (menu_OrganizationID m, menu_Key m)) (menus s))
}.

(** No groups yet, and no role that was given but the one of administrators. *)
Record young (s : Installation) : Prop := {
  young_groups : user_groups (store s) = [] /\ group_members (store s) = [] /\ group_roles (store s) = [];
  young_rules : forall r, r ∈ conflict_rules (store s) -> rule_RoleA (rr_rule r) <> rule_RoleB (rr_rule r);
  young_roles : forall u id, (u, id) ∈ user_roles (store s) -> u ∈ map uid (users (store s)) /\
    exists r, r ∈ roles (store s) /\ rl_id r = id /\ rl_role_key r = "system_admin"
}.

Record step (s s' : Installation) : Prop := {
  step_grows : grows s s';
  step_keyed : keyed s -> keyed s';
  step_young : young s -> young s'
}.

#[export] Instance grows_preorder : PreOrder grows.
Proof. split; [by intros s|]. intros a b c [] []. split; by etrans. Qed.
#[export] Instance step_preorder : PreOrder step.
Proof. split; [by intros s|]. intros a b c [] []. split; [by etrans|auto..]. Qed.

Definition stable (P : Installation -> Prop) : Prop := forall s s', P s -> step s s' -> P s'.

(** [est P m Q]: from [P], the computation takes steps only, and [Q] holds when
    it succeeds. *)
Definition est {A} (P : Installation -> Prop) (m : N A) (Q : A -> Installation -> Prop) : Prop :=
  forall e n s, P s -> step s (m e n s).2 /\ forall a n' s', m e n s = (Ok a, n', s') -> Q a s'.

Section rules.
Implicit Types P : Installation -> Prop.

Lemma stable_and P P' : stable P -> stable P' -> stable (fun s => P s /\ P' s).
Proof. intros S1 S2 s s' [H1 H2] St. split; [by eapply S1|by eapply S2]. Qed.
Lemma stable_True : stable (fun _ => True).
Proof. by intros s s'. Qed.
Lemma stable_when (b : Prop) P : stable P -> stable (fun s => b -> P s).
Proof. intros S s s' HP St H. eauto. Qed.
Lemma stable_all {B} (Q : B -> Installation -> Prop) (l : list B) :
  (forall x, stable (Q x)) -> stable (fun s => forall x, x ∈ l -> Q x s).
Proof. intros S s s' H St x Hx. eapply S; eauto. Qed.

(** A row that exists goes on existing. *)
Lemma stable_row {B} (rows : Installation -> list B) (p : B -> Prop) :
  (forall s s', grows s s' -> rows s ⊆ rows s') -> stable (fun s => exists r, r ∈ rows s /\ p r).
Proof. intros G s s' (r & Hr & Hp) [Gr _ _]. exists r. split; [by eapply G|done]. Qed.

Lemma est_weaken {A} P P' (m : N A) Q Q' : est P m Q -> (forall s, P' s -> P s) -> (forall a s, Q a s -> Q' a s) -> est P' m Q'.
Proof. intros H H1 H2 e n s HP. destruct (H e n s (H1 s HP)) as [St K]. split; [done|]. eauto. Qed.

Lemma est_pre {A} P P' (m : N A) Q : est P m Q -> (forall s, P' s -> P s) -> est P' m Q.
Proof. intros H H1. by eapply est_weaken. Qed.

Lemma est_post {A} P (m : N A) Q Q' : est P m Q -> (forall a s, Q a s -> Q' a s) -> est P m Q'.
Proof. intros H H1. by eapply est_weaken. Qed.

(** What is stable is kept. *)
Lemma est_frame {A} P F (m : N A) Q : stable F -> est P m Q -> est (fun s => F s /\ P s) m (fun a s => F s /\ Q a s).
Proof.
  intros SF H e n s [HF HP]. destruct (H e n s HP) as [St K]. split; [done|]. intros a n' s' E. split; [|by eapply K].
  eapply SF; [done|]. by rewrite E in St.
Qed.

Lemma est_ret {A} P (a : A) Q : (forall s, P s -> Q a s) -> est P (mret a) Q.
Proof. intros H e n s HP. split; [done|]. intros b n' s' [= <- _ <-]. auto. Qed.

Lemma est_fail {A} P err Q : est P (@fail Installation A err) Q.
Proof. intros e n s HP. split; [done|discriminate]. Qed.

Lemma est_bind {A B} P (m : N A) (f : A -> N B) Q R : stable P -> est P m Q ->
  (forall a, est (fun s => P s /\ Q a s) (f a) R) -> est P (m ≫= f) R.
Proof.
  intros SP Hm Hf e n s HP. unfold mbind, M_bind. destruct (Hm e n s HP) as [S1 K]. destruct (m e n s) as [[[a|err] n1] s1]; cbn in S1.
  - destruct (Hf a e n1 s1) as [S2 K2]; [split; [by eapply SP|by eapply K]|]. split; [by etrans|done].
  - split; [done|discriminate].
Qed.

Lemma est_attempt {A} P (m : N A) Q : est P m Q -> est P (attempt m) (fun r s => forall a, r = Ok a -> Q a s).
Proof.
  intros H e n s HP. unfold attempt. destruct (H e n s HP) as [St K]. destruct (m e n s) as [[r n1] s1].
  split; [done|]. intros r' n' s' [= -> -> ->] a ->. by eapply K.
Qed.

Lemma est_pure {A} P (m : N A) : reads m -> est P m (fun _ _ => True).
Proof. intros R e n s HP. by rewrite R. Qed.

Lemma est_stmt {A} P (f : Installation -> result (A * Installation)) Q :
  (forall s a s', P s -> f s = Ok (a, s') -> step s s' /\ Q a s') -> est P (stmt f) Q.
Proof.
  intros H e n s HP. unfold stmt. destruct (faults e n); [done|]. destruct (f s) as [[a s']|err] eqn:E; [|done].
  destruct (H _ _ _ HP E). split; [done|]. intros b n' s'' [= <- _ <-]. done.
Qed.

Lemma est_forM {A} P (l : list A) (f : A -> N unit) (Q : A -> Installation -> Prop) : stable P -> (forall x, stable (Q x)) ->
  (forall x, x ∈ l -> est P (f x) (fun _ => Q x)) -> est P (forM l f) (fun _ s => forall x, x ∈ l -> Q x s).
Proof.
  intros SP SQ. induction l as [|x l IH]; intros H.
  - apply est_ret. intros s _ x Hx. inversion Hx.
  - cbn [forM]. eapply (est_bind P _ _ (fun _ => Q x)); [done|apply H; constructor|]. intros _.
    eapply est_weaken; [apply (est_frame P (Q x)); [apply SQ|apply IH; intros y Hy; apply H; by constructor]|tauto|].
    intros _ s [Hx Hl] y Hy. apply elem_of_cons in Hy as [->|Hy]; auto.
Qed.

Lemma store_same (s : Installation) : s <| store := store s |> = s.
Proof. by destruct s. Qed.

Lemma est_store {A} P (f : Tables -> result (A * Tables)) Q :
  (forall s a t, P s -> f (store s) = Ok (a, t) -> step s (s <| store := t |>) /\ Q a (s <| store := t |>)) ->
  est P (in_store (stmt f)) Q.
Proof.
  intros H e n s HP. unfold in_store, zoom, stmt. destruct (faults e n); cbn; [rewrite store_same; done|].
  destruct (f (store s)) as [[a t]|err] eqn:E; cbn; [|rewrite store_same; done]. destruct (H _ _ _ HP E).
  split; [done|]. intros b n' s' [= <- _ <-]. done.
Qed.

Lemma reads_store {A} (m : Database.M Tables A) : reads m -> reads (in_store m).
Proof.
  intros R e n s. unfold in_store, zoom. specialize (R e n (store s)). destruct (m e n (store s)) as [[r n'] t].
  cbn in *. subst t. apply store_same.
Qed.

Lemma est_store_query {A} P (f : Tables -> A) (Q : A -> Installation -> Prop) :
  (forall s, P s -> Q (f (store s)) s) -> est P (in_store (query f)) Q.
Proof.
  intros H. apply est_store. intros s a t HP [= <- <-]. rewrite store_same. split; [done|auto].
Qed.

Lemma est_find {A} P (rows : Tables -> list A) p (id : A -> string) :
  est P (find_row rows p id) (fun x s => exists r, r ∈ rows (store s) /\ p r = true /\ id r = x).
Proof.
  intros e n s HP. unfold find_row, mbind, M_bind, in_store, zoom, queryR, stmt.
  destruct (faults e n); cbn; [rewrite store_same; done|].
  destruct (select_row p (rows (store s))) as [r|err] eqn:E; cbn; rewrite store_same; [|done].
  apply select_row_ok in E as [Hr Hp]. split; [done|]. intros x n' s' [= <- _ <-]. by exists r.
Qed.
End rules.

(** A row whose key is new keeps the keys unique. *)
Lemma NoDup_insert {A B} (f : A -> B) (p : A -> bool) (l : list A) x :
  NoDup (map f l) -> existsb p l = false -> (forall y, f y = f x -> p y = true) -> NoDup (map f (l ++ [x])).
Proof.
  intros Nd Ex K. rewrite map_app. apply NoDup_app. split_and!; [done| |apply NoDup_singleton].
  intros b Hb Hx. apply list_elem_of_singleton in Hx as ->. apply list_elem_of_In, in_map_iff in Hb as (y & E & Hy).
  rewrite existsb_false in Ex. apply list_elem_of_In, Ex in Hy. by rewrite (K y E) in Hy.
Qed.

(** ** What a start has seeded *)

Section seeded.
Variable org : string.
Definition role_seeded (key : string) (s : Installation) : Prop :=
  exists r, r ∈ roles (store s) /\ role_named org key r = true.
Definition permission_seeded (key : string) (s : Installation) : Prop :=
  exists p, p ∈ permissions (store s) /\ perm_Key p = key.
Definition granted (role permission : string) (s : Installation) : Prop :=
  exists x, x ∈ role_permissions (store s) /\
    (exists r, r ∈ roles (store s) /\ role_named org role r = true /\ rl_id r = x.1) /\
    (exists p, p ∈ permissions (store s) /\ perm_Key p = permission /\ perm_ID p = x.2).
Definition rule_seeded (a b : string) (s : Installation) : Prop :=
  exists r, r ∈ conflict_rules (store s) /\ rule_is org (ordered a b).1 (ordered a b).2 r = true.
Definition menu_seeded (key : string) (s : Installation) : Prop := exists m, m ∈ menus s /\ menu_here org key m = true.
Definition user_seeded (login : string) (s : Installation) : Prop := exists u, u ∈ users (store s) /\ user_name u = (org, login).

Record seeded (s : Installation) : Prop := {
  seeded_roles : forall x, x ∈ seed_roles -> role_seeded x.1.1 s;
  seeded_rules : forall x, x ∈ seed_rules -> rule_seeded x.1.1 x.1.2 s;
  seeded_permissions : forall x, x ∈ basePermissions -> permission_seeded x.1 s;
  seeded_grants : forall x, x ∈ seed_grants -> granted x.1 x.2 s;
  seeded_menus : forall at_ m, m ∈ builtinMenus org at_ -> menu_seeded (menu_Key m) s
}.

Lemma stable_role key : stable (role_seeded key).
Proof. apply (stable_row (fun s => roles (store s))). by intros s s' []. Qed.
Lemma stable_permission key : stable (permission_seeded key).
Proof. apply (stable_row (fun s => permissions (store s))). by intros s s' []. Qed.
Lemma stable_rule a b : stable (rule_seeded a b).
Proof. apply (stable_row (fun s => conflict_rules (store s))). by intros s s' []. Qed.
Lemma stable_menu key : stable (menu_seeded key).
Proof. apply (stable_row menus). by intros s s' []. Qed.
Lemma stable_user login : stable (user_seeded login).
Proof. apply (stable_row (fun s => users (store s))). by intros s s' []. Qed.
Lemma stable_granted role permission : stable (granted role permission).
Proof.
  intros s s' (x & Hx & (r & Hr & R) & p & Hp & Pk) [[] _ _]. exists x. split; [auto|]. split; eauto.
Qed.
End seeded.

Lemma stable_grant (x : string * string) : stable (fun s => x ∈ role_permissions (store s)).
Proof. intros s s' H [[] _ _]. auto. Qed.
Lemma stable_user_role (x : string * string) : stable (fun s => x ∈ user_roles (store s)).
Proof. intros s s' H [[] _ _]. auto. Qed.

(** *** The inserts are steps *)

Ltac grow := split; cbn; try done; intros ? ?; apply elem_of_app; by left.

Lemma organization_step s o t : insert_organization o (store s) = Ok (tt, t) -> step s (s <| store := t |>) /\ o ∈ organizations t.
Proof.
  unfold insert_organization. destruct (existsb _ _) eqn:Ex; [done|]. intros [= <-]. split; [split; [grow| |]|].
  - intros []. split; cbn; try done. eapply NoDup_insert; [done|exact Ex|]. intros y E. cbn in *. by rewrite E, seqb_refl, orb_true_r.
  - intros []. by split.
  - cbn. apply elem_of_app. right. by apply list_elem_of_singleton.
Qed.

Lemma role_step s r t : insert_role r (store s) = Ok (tt, t) -> step s (s <| store := t |>) /\ r ∈ roles t.
Proof.
  unfold insert_role. destruct (existsb _ _) eqn:Ex; [done|]. intros [= <-]. split; [split; [grow| |]|].
  - intros []. split; cbn; try done; (eapply NoDup_insert; [done|exact Ex|]; intros y E).
    + cbn in *. by rewrite E, seqb_refl.
    + cbn in *. injection E as E1 E2. unfold role_named. by rewrite E1, E2, !seqb_refl, orb_true_r.
  - intros [? ? R]. split; cbn; try done. intros u id Hu. destruct (R u id Hu) as (? & x & Hx & ?). split; [done|].
    exists x. split; [|done]. apply elem_of_app. by left.
  - cbn. apply elem_of_app. right. by apply list_elem_of_singleton.
Qed.

Lemma permission_step s p t : insert_permission p (store s) = Ok (tt, t) -> step s (s <| store := t |>) /\ p ∈ permissions t.
Proof.
  unfold insert_permission. destruct (existsb _ _) eqn:Ex; [done|]. intros [= <-]. split; [split; [grow| |]|].
  - intros []. split; cbn; try done. eapply NoDup_insert; [done|exact Ex|]. intros y E. cbn in *. by rewrite E, seqb_refl, orb_true_r.
  - intros []. by split.
  - cbn. apply elem_of_app. right. by apply list_elem_of_singleton.
Qed.

Lemma grant_step s role permission t : insert_role_permission role permission (store s) = Ok (tt, t) ->
  step s (s <| store := t |>) /\ (role, permission) ∈ role_permissions t.
Proof.
  unfold insert_role_permission. destruct (existsb _ _) eqn:Ex; [done|]. intros [= <-]. split; [split; [grow| |]|].
  - intros []. split; cbn; try done. rewrite <- (map_id (_ ++ _)). eapply NoDup_insert; [by rewrite map_id|exact Ex|].
    intros y E. cbn in E. subst y. cbn. by rewrite !seqb_refl.
  - intros []. by split.
  - cbn. apply elem_of_app. right. by apply list_elem_of_singleton.
Qed.

Lemma rule_step s r t : rule_RoleA (rr_rule r) <> rule_RoleB (rr_rule r) -> insert_rule r (store s) = Ok (tt, t) ->
  step s (s <| store := t |>) /\ r ∈ conflict_rules t.
Proof.
  intros Ne. unfold insert_rule. destruct (existsb _ _) eqn:Ex; [done|]. intros [= <-]. split; [split; [grow| |]|].
  - intros []. split; cbn; try done. eapply NoDup_insert; [done|exact Ex|]. intros y E. unfold rule_name in E. cbn in *.
    injection E as E1 E2 E3. unfold rule_is. by rewrite E1, E2, E3, !seqb_refl, orb_true_r.
  - intros [? R ?]. split; cbn; try done. intros x Hx. apply elem_of_app in Hx as [Hx|Hx]; [auto|].
    by apply list_elem_of_singleton in Hx as ->.
  - cbn. apply elem_of_app. right. by apply list_elem_of_singleton.
Qed.

Lemma user_step s row t : insert_user row (store s) = Ok (tt, t) -> step s (s <| store := t |>) /\ row ∈ users t.
Proof.
  unfold insert_user. destruct (existsb _ _) eqn:Ex; [done|]. intros [= <-]. split; [split; [grow| |]|].
  - intros []. split; cbn; try done; (eapply NoDup_insert; [done|exact Ex|]; intros y E).
    + cbn in *. by rewrite E, seqb_refl.
    + unfold user_name in E. cbn in *. injection E as E1 E2. by rewrite E1, E2, !seqb_refl, orb_true_r.
  - intros [? ? R]. split; cbn; try done. intros u id Hu. destruct (R u id Hu) as [Hin ?]. split; [|done].
    rewrite map_app. apply elem_of_app. by left.
  - cbn. apply elem_of_app. right. by apply list_elem_of_singleton.
Qed.

Lemma user_role_step s user id t : user ∈ map uid (users (store s)) ->
  (exists r, r ∈ roles (store s) /\ rl_id r = id /\ rl_role_key r = "system_admin") ->
  insert_user_role user id (store s) = Ok (tt, t) -> step s (s <| store := t |>) /\ (user, id) ∈ user_roles t.
Proof.
  intros Hu Hr. unfold insert_user_role. destruct (existsb _ _) eqn:Ex; [done|]. intros [= <-]. split; [split; [grow| |]|].
  - intros []. split; cbn; try done. rewrite <- (map_id (_ ++ _)). eapply NoDup_insert; [by rewrite map_id|exact Ex|].
    intros y E. cbn in E. subst y. cbn. by rewrite !seqb_refl.
  - intros [? ? R]. split; cbn; try done. intros u i Hi. apply elem_of_app in Hi as [Hi|Hi]; [auto|].
    apply list_elem_of_singleton in Hi as [= -> ->]. done.
  - cbn. apply elem_of_app. right. by apply list_elem_of_singleton.
Qed.

Lemma menu_step s m s' : insert_menu m s = Ok (tt, s') -> step s s' /\ m ∈ menus s'.
Proof.
  unfold insert_menu. destruct (existsb _ _) eqn:Ex; [done|]. intros [= <-]. split; [split; [grow| |]|].
  - intros []. split; cbn; try done. eapply NoDup_insert; [done|exact Ex|]. intros y E. cbn in *. injection E as E1 E2.
    unfold menu_here. by rewrite E1, E2, !seqb_refl, orb_true_r.
  - intros []. by split.
  - cbn. apply elem_of_app. right. by apply list_elem_of_singleton.
Qed.

(** Whatever leaves the seeded tables alone is a step. *)
Lemma settings_step s f : step s (s <| store := (store s) <| settings := f |> |>).
Proof. split; [by split|intros []; by split..]. Qed.

(** ** Starts among others *)

Section racing.
Context `{UnicodeTables} `{Argon2} (others : nat -> Installation -> Installation) (rely : forall k s, step s (others k s)).
Implicit Types P : Installation -> Prop.
Notation raced := (racing others).

Lemma est_racing {A} P (m : N A) Q : stable P -> est P m Q -> est P (raced m) Q.
Proof.
  intros SP Hm e n s HP. unfold racing. destruct (Hm e (S n) (others n s)) as [St K]; [by eapply SP|].
  split; [|done]. etransitivity; [apply (rely n s)|exact St].
Qed.

Lemma est_ensured P find insert (Q : string -> Installation -> Prop) : stable P -> (forall id, stable (Q id)) ->
  est P find Q -> (forall id, est P (insert id) (fun _ => Q id)) -> est P (ensured others find insert) Q.
Proof.
  intros SP SQ Hf Hi. assert (F : est P (attempt (raced find)) (fun r s => forall a, r = Ok a -> Q a s)).
  { by apply est_attempt, est_racing. }
  assert (SA : forall r : result string, stable (fun s => forall a, r = Ok a -> Q a s)) by (intros r s s' HA St a E; eapply SQ; eauto).
  unfold ensured. eapply est_bind; [done|exact F|]. intros [id|err]; [apply est_ret; intros s [_ K]; auto|].
  destruct (negb _); [apply est_fail|]. apply (est_pre P); [|tauto].
  eapply est_bind; [done|by apply (est_pure _ _), keeps_reads; intros t; apply keeps_uuid|]. intros id. apply (est_pre P); [|tauto].
  eapply est_bind; [done|apply est_attempt, Hi|]. intros [[]|err'].
  { apply est_ret. intros s [_ K]. eauto. }
  apply (est_pre P); [|tauto]. eapply est_bind; [done|exact F|].
  intros [id'|]; [apply est_ret; intros s [_ K]; auto|apply est_fail].
Qed.

Lemma est_related P count insert Q : stable P -> est P count (fun n s => 0 < n -> Q s) -> stable Q ->
  est P insert (fun _ => Q) -> est P (related others count insert) (fun _ => Q).
Proof.
  intros SP Hc SQ Hi. unfold related. eapply est_bind; [done|by apply est_racing|]. intros k.
  destruct (Z.ltb_spec 0 k) as [L|L]; [apply est_ret; intros s [_ K]; auto|]. apply (est_pre P); [|tauto].
  eapply est_bind; [done|by apply est_attempt|]. intros [[]|err]; [apply est_ret; intros s [_ K]; eauto|].
  apply (est_pre P); [|tauto].
  eapply est_bind; [done|by apply est_attempt, est_racing|]. intros [j|err']; [|apply est_fail].
  destruct (Z.ltb_spec 0 j) as [L'|L']; [apply est_ret; intros s [_ K]; by eapply K|apply est_fail].
Qed.

Lemma est_now {B} P (k : Time -> N B) Q : stable P -> (forall t, est P (k t) Q) -> est P (t ← now; k t) Q.
Proof.
  intros SP Hk. eapply est_bind; [done|apply (est_pure _ _), keeps_reads; intros t; apply keeps_now|]. intros t.
  eapply est_pre; [apply Hk|tauto].
Qed.
Lemma est_uuid {B} P (k : string -> N B) Q : stable P -> (forall t, est P (k t) Q) -> est P (t ← NewString; k t) Q.
Proof.
  intros SP Hk. eapply est_bind; [done|apply (est_pure _ _), keeps_reads; intros t; apply keeps_uuid|]. intros t.
  eapply est_pre; [apply Hk|tauto].
Qed.

Lemma count_some {A} (p : A -> bool) l : 0 < count_if p l -> exists x, x ∈ l /\ p x = true.
Proof.
  unfold count_if, llen. destruct (List.filter p l) as [|x k] eqn:E; [cbn; lia|]. intros _. exists x.
  assert (K : In x (List.filter p l)) by (rewrite E; by left). apply List.filter_In in K as [K ?]. split; [by apply list_elem_of_In|done].
Qed.

(** *** The operations *)

Notation anything := (fun _ : Installation => True).

Lemma EnsureOrganization_est key name :
  est anything (EnsureOrganization others key name) (fun id s => exists o, o ∈ organizations (store s) /\ org_Key o = key /\ org_ID o = id).
Proof.
  apply est_ensured; [apply stable_True| | |].
  - intros id. apply (stable_row (fun s => organizations (store s))). by intros s s' [].
  - eapply est_post; [apply est_find|]. intros a s (o & Ho & E & <-). breflect. eauto.
  - intros id. apply est_now; [apply stable_True|]. intros at_. apply est_racing; [apply stable_True|].
    apply est_store. intros s [] t _ E. apply organization_step in E as [St Ho]. split; [done|]. eauto.
Qed.

Lemma EnsureRole_est org key name scope :
  est anything (EnsureRole others org key name scope) (fun _ => role_seeded org key).
Proof.
  apply est_ensured; [apply stable_True|intros; apply stable_role| |].
  - eapply est_post; [apply est_find|]. intros a s (r & Hr & E & _). by exists r.
  - intros id. apply est_now; [apply stable_True|]. intros at_. apply est_racing; [apply stable_True|].
    apply est_store. intros s [] t _ E. apply role_step in E as [St Hr]. split; [done|]. eexists. split; [exact Hr|].
    unfold role_named. cbn. by rewrite !seqb_refl.
Qed.

Lemma EnsurePermission_est key name : est anything (EnsurePermission others key name) (fun _ => permission_seeded key).
Proof.
  apply est_ensured; [apply stable_True|intros; apply stable_permission| |].
  - eapply est_post; [apply est_find|]. intros a s (p & Hp & E & _). breflect. by exists p.
  - intros id. apply est_now; [apply stable_True|]. intros at_. apply est_racing; [apply stable_True|].
    apply est_store. intros s [] t _ E. apply permission_step in E as [St Hp]. split; [done|]. eexists. split; [exact Hp|done].
Qed.

Lemma EnsureRoleConflict_est org a b reason : a <> b -> est anything (EnsureRoleConflict others org a b reason) (fun _ => rule_seeded org a b).
Proof.
  intros Ne. unfold EnsureRoleConflict, rule_seeded.
  assert (Ne' : (ordered a b).1 <> (ordered a b).2) by (unfold ordered; destruct (str_le a b); cbn; congruence).
  destruct (ordered a b) as [x y]. cbn in *.
  apply est_related; [apply stable_True| |apply (stable_row (fun s => conflict_rules (store s))); by intros s s' []|].
  - apply est_store_query. intros s _ L. by apply count_some in L.
  - apply est_uuid; [apply stable_True|]. intros id. apply est_now; [apply stable_True|]. intros at_.
    apply est_racing; [apply stable_True|]. apply est_store. intros s [] t _ E. apply rule_step in E as [St Hr]; [|done].
    split; [done|]. eexists. split; [exact Hr|]. unfold rule_is. cbn. by rewrite !seqb_refl.
Qed.

Lemma pair_is_spec a b x : pair_is a b x = true -> x = (a, b).
Proof. destruct x. unfold pair_is. cbn. intros E. breflect. congruence. Qed.

Lemma GrantPermissionToRole_est org role permission :
  est anything (GrantPermissionToRole others org role permission) (fun _ => granted org role permission).
Proof.
  unfold GrantPermissionToRole.
  set (R := fun id s => exists r, r ∈ roles (store s) /\ role_named org role r = true /\ rl_id r = id).
  set (Pm := fun id s => exists p, p ∈ permissions (store s) /\ perm_Key p = permission /\ perm_ID p = id).
  assert (SR : forall id, stable (R id)) by (intros id; apply (stable_row (fun s => roles (store s))); by intros s s' []).
  assert (SP : forall id, stable (Pm id)) by (intros id; apply (stable_row (fun s => permissions (store s))); by intros s s' []).
  eapply (est_bind _ _ _ R); [apply stable_True|apply est_racing; [apply stable_True|apply est_find]|]. intros rid.
  eapply (est_bind _ _ _ Pm); [by apply stable_and; [apply stable_True|]| |].
  { apply est_racing; [by apply stable_and; [apply stable_True|]|].
    eapply est_post; [apply est_find|]. intros a s (p & Hp & E & <-). breflect. by exists p. }
  intros pid. eapply (est_weaken (fun s => (R rid s /\ Pm pid s) /\ True)); [|tauto|].
  { apply est_frame; [by apply stable_and|]. apply (est_related _ _ _ (fun s => (rid, pid) ∈ role_permissions (store s))).
    - apply stable_True.
    - apply est_store_query. intros s _ L. apply count_some in L as (x & Hx & E). by apply pair_is_spec in E as ->.
    - apply stable_grant.
    - apply est_racing; [apply stable_True|]. apply est_store. intros s [] t _ E. by apply grant_step in E. }
  intros _ s [[HR HP] Hin]. exists (rid, pid). done.
Qed.

Lemma EnsureMenu_est m : est anything (EnsureMenu others m) (fun _ => menu_seeded (menu_OrganizationID m) (menu_Key m)).
Proof.
  unfold EnsureMenu. eapply (est_bind _ _ _ (fun _ => menu_seeded (menu_OrganizationID m) (menu_Key m))); [apply stable_True| |].
  - apply est_ensured; [apply stable_True|intros; apply stable_menu| |].
    + eapply est_bind; [apply stable_True| |intros row; apply est_ret; intros s [_ K]; exact K].
      apply est_stmt. intros s row s' _ E. destruct (select_row _ _) as [r|] eqn:Sel; [|done]. injection E as <- <-.
      apply select_row_ok in Sel as [Hr Hp]. split; [done|]. by exists r.
    + intros id. apply est_racing; [apply stable_True|]. apply est_stmt. intros s [] s' _ E. apply menu_step in E as [St Hm].
      split; [done|]. eexists. split; [exact Hm|]. unfold menu_here. cbn. by rewrite !seqb_refl.
  - intros id. apply est_ret. intros s [_ K]. exact K.
Qed.

Lemma seed_rules_differ x : x ∈ seed_rules -> x.1.1 <> x.1.2.
Proof.
  assert (F : Forall (fun x : string * string * string => x.1.1 <> x.1.2) seed_rules) by (apply (bool_decide_unpack _); vm_compute; exact I).
  rewrite Forall_forall in F. apply F.
Qed.

Lemma map_elem {A B} (f : A -> B) l y : y ∈ map f l -> exists x, f x = y /\ x ∈ l.
Proof. intros Hy. apply list_elem_of_In, in_map_iff in Hy as (x & E & Hx). exists x. split; [done|]. by apply list_elem_of_In. Qed.
Lemma builtin_keys org at_ at' : map menu_Key (builtinMenus org at_) = map menu_Key (builtinMenus org at').
Proof. reflexivity. Qed.
Lemma builtin_org org at_ m : m ∈ builtinMenus org at_ -> menu_OrganizationID m = org.
Proof.
  intros Hm. assert (F : Forall (fun m => menu_OrganizationID m = org) (builtinMenus org at_)) by (unfold builtinMenus; by repeat constructor).
  rewrite Forall_forall in F. by apply F.
Qed.

Lemma seed_est org : est anything (seed others org) (fun _ => seeded org).
Proof.
  unfold seed.
  set (Q1 := fun s => forall x, x ∈ seed_roles -> role_seeded org x.1.1 s).
  set (Q2 := fun s => forall x, x ∈ seed_rules -> rule_seeded org x.1.1 x.1.2 s).
  set (Q3 := fun s => forall x, x ∈ basePermissions -> permission_seeded x.1 s).
  set (Q4 := fun s => forall x, x ∈ seed_grants -> granted org x.1 x.2 s).
  assert (S1 : stable Q1) by (apply (stable_all (fun x => role_seeded org x.1.1)); intros; apply stable_role).
  assert (S2 : stable Q2) by (apply (stable_all (fun x => rule_seeded org x.1.1 x.1.2)); intros; apply stable_rule).
  assert (S3 : stable Q3) by (apply (stable_all (fun x => permission_seeded x.1)); intros; apply stable_permission).
  assert (S4 : stable Q4) by (apply (stable_all (fun x => granted org x.1 x.2)); intros; apply stable_granted).
  eapply (est_bind _ _ _ (fun _ => Q1)); [apply stable_True| |intros _].
  { apply (est_forM _ _ _ (fun x => role_seeded org x.1.1)); [apply stable_True|intros; apply stable_role|]. intros [[key name] scope] _.
    eapply est_bind; [apply stable_True|apply EnsureRole_est|]. intros id. apply est_ret. intros s [_ K]. exact K. }
  eapply (est_bind _ _ _ (fun _ => Q2)); [by apply stable_and; [apply stable_True|]| |intros _].
  { apply (est_pre anything); [|done].
    apply (est_forM _ _ _ (fun x => rule_seeded org x.1.1 x.1.2)); [apply stable_True|intros; apply stable_rule|]. intros [[a b] reason] Hx.
    apply EnsureRoleConflict_est. exact (seed_rules_differ _ Hx). }
  eapply (est_bind _ _ _ (fun _ => Q3)); [by repeat apply stable_and; try apply stable_True| |intros _].
  { apply (est_pre anything); [|done].
    apply (est_forM _ _ _ (fun x => permission_seeded x.1)); [apply stable_True|intros; apply stable_permission|]. intros [key name] _.
    eapply est_bind; [apply stable_True|apply EnsurePermission_est|]. intros id. apply est_ret. intros s [_ K]. exact K. }
  eapply (est_bind _ _ _ (fun _ => Q4)); [by repeat apply stable_and; try apply stable_True| |intros _].
  { apply (est_pre anything); [|done].
    apply (est_forM _ _ _ (fun x => granted org x.1 x.2)); [apply stable_True|intros; apply stable_granted|]. intros [role permission] _.
    apply GrantPermissionToRole_est. }
  set (Q5 := fun s => forall key, key ∈ map menu_Key (builtinMenus org 0) -> menu_seeded org key s).
  apply (est_weaken (fun s => (Q1 s /\ Q2 s /\ Q3 s /\ Q4 s) /\ True) _ _ (fun _ s => (Q1 s /\ Q2 s /\ Q3 s /\ Q4 s) /\ Q5 s)); [|tauto|].
  { apply est_frame; [by repeat apply stable_and|]. apply est_now; [apply stable_True|]. intros at_.
    eapply est_post; [apply (est_forM _ _ _ (fun m => menu_seeded org (menu_Key m))); [apply stable_True|intros; apply stable_menu|]|].
    - intros m Hm. rewrite <- (builtin_org org (UTC at_) m Hm). apply EnsureMenu_est.
    - intros [] s K key Hkey. rewrite (builtin_keys org 0 (UTC at_)) in Hkey. apply map_elem in Hkey as (m & Em & Hm). rewrite <- Em. by apply K. }
  intros _ s [(H1 & H2 & H3 & H4) H5]. split; [done..|]. intros at_ m Hm. apply H5. rewrite (builtin_keys org 0 at_).
  by apply list_elem_of_In, in_map, list_elem_of_In.
Qed.

(** The user holds the role of administrators of its organization. *)
Definition made_admin (user : string) (s : Installation) : Prop :=
  exists r, r ∈ roles (store s) /\ rl_role_key r = "system_admin" /\ (user, rl_id r) ∈ user_roles (store s) /\
    exists u, u ∈ users (store s) /\ uid u = user /\ uorg u = rl_organization_id r.
Lemma stable_made_admin user : stable (made_admin user).
Proof. intros s s' (r & Hr & K & Hu & u & Hin & E) [[] _ _]. exists r. split_and!; eauto 6. Qed.

Lemma GrantRole_est user : est anything (GrantRole others user "system_admin") (fun _ => made_admin user).
Proof.
  unfold GrantRole.
  set (R := fun (r : RoleTableRow) s => (exists u, u ∈ users (store s) /\ uid u = user /\ uorg u = rl_organization_id r) /\
    exists x, x ∈ roles (store s) /\ x = r /\ rl_role_key x = "system_admin").
  assert (SR : forall r, stable (R r)).
  { intros r. apply stable_and; [apply (stable_row (fun s => users (store s)))|apply (stable_row (fun s => roles (store s)))]; by intros s s' []. }
  eapply (est_bind _ _ _ R); [apply stable_True| |].
  - apply est_racing; [apply stable_True|]. apply est_store. intros s r t _ E. destruct (select_row _ _) as [x|] eqn:Sel; [|done].
    injection E as <- <-. rewrite store_same. split; [done|]. apply select_row_ok in Sel as [Hr Hp]. breflect. unfold user_in in *.
    match goal with U : existsb _ _ = true |- _ => apply existsb_exists in U as (u & Hu & U) end. breflect.
    split; [exists u; split; [by apply list_elem_of_In|done]|]. by exists x.
  - intros r. apply (est_pre (fun s => R r s /\ R r s)); [|tauto]. set (U := fun s => (user, rl_id r) ∈ user_roles (store s)).
    apply (est_post _ _ (fun _ s => R r s /\ U s)).
    { apply est_frame; [apply SR|]. apply est_related; [apply SR| |apply stable_user_role|].
      - apply est_store_query. intros s _ L. apply count_some in L as (x & Hx & E). by apply pair_is_spec in E as ->.
      - apply est_racing; [apply SR|]. apply est_store. intros s [] t [(u & Hu & Eu & _) (x & Hx & -> & K)] E. apply user_role_step in E; [done| |eauto].
        rewrite <- Eu. by apply list_elem_of_In, in_map, list_elem_of_In. }
    intros _ s [[Hu (x & Hx & -> & K)] HU]. by exists r.
Qed.

Lemma UserByLogin_ok org login e n t row n' t' : UserByLogin org login e n t = (Ok row, n', t') ->
  t' = t /\ exists u, u ∈ users t /\ user_name u = (org, login) /\ uid row = uid u.
Proof.
  intros E. unfold UserByLogin in E. apply bind_ok in E as (u & n1 & t1 & E & W). apply select_row_here in E as (-> & Hu & Hp).
  breflect. pose proof (reads_ok _ _ _ _ _ _ _ (reads_with_roles u (uid u)) W) as ->. split; [done|]. exists u.
  unfold with_roles in W. run. done.
Qed.

Lemma UserByLogin_reads org login : reads (UserByLogin org login).
Proof. apply keeps_reads. intros t. unfold UserByLogin, with_roles, RolesForUser, PermissionsForUser. keeps_walk. Qed.

Lemma user_by_login_est org login : est anything (user_by_login others org login) (fun _ => user_seeded org login).
Proof.
  apply est_racing; [apply stable_True|]. intros e n s _. split; [by rewrite (reads_store _ (UserByLogin_reads org login))|].
  intros row n' s' E. unfold in_store, zoom in E. destruct (UserByLogin org login e n (store s)) as [[r k] t] eqn:U.
  injection E as -> _ <-. apply UserByLogin_ok in U as (-> & u & Hu & Nu & _). rewrite store_same. by exists u.
Qed.

Lemma finalize_est service org : est anything (finalize others service org) (fun _ _ => True).
Proof.
  apply est_racing; [apply stable_True|]. intros e n s _. split; [|done]. unfold in_store, in_settings, zoom.
  destruct (finalizeBootstrapDefaults service org e n (settings (store s))) as [[r k] f]. apply settings_step.
Qed.

(** The user is there, active and with the login. *)
Definition user_made (org login user : string) (s : Installation) : Prop :=
  exists u, u ∈ users (store s) /\ user_name u = (org, login) /\ uid u = user /\ ustatus u = "ACTIVE".
Lemma stable_user_made org login user : stable (user_made org login user).
Proof. apply (stable_row (fun s => users (store s))). by intros s s' []. Qed.
Lemma made_seeded org login user s : user_made org login user s -> user_seeded org login s.
Proof. intros (u & Hu & Nu & _). by exists u. Qed.

Lemma repo_CreateUser_est org login display hash mustChange :
  est anything (repo_CreateUser others org login display hash mustChange) (fun u => user_made org login (user_ID u)).
Proof.
  apply est_now; [apply stable_True|]. intros at_. apply est_uuid; [apply stable_True|]. intros id.
  eapply (est_bind _ _ _ (fun _ => user_made org login id)); [apply stable_True| |intros _; apply est_ret; tauto].
  apply est_racing; [apply stable_True|]. apply est_store. intros s [] t _ E. apply user_step in E as [St Hu].
  split; [done|]. eexists. split; [exact Hu|done].
Qed.

Lemma administrator_est service org admin raw : est anything (administrator others service org admin raw) (fun _ => user_seeded org admin).
Proof.
  set (U := user_seeded org admin). assert (SU : stable U) by apply stable_user.
  assert (After : forall (P : Installation -> Prop) (m : N unit), (forall s, P s -> U s) -> est anything m (fun _ _ => True) -> est P m (fun _ => U)).
  { intros P m HP Hm. eapply est_weaken; [apply (est_frame (fun _ => True) U m _ SU Hm)|intros s Hs; split; [by apply HP|done]|by intros ? s [Hs _]]. }
  unfold administrator. eapply est_bind; [apply stable_True|apply est_attempt, user_by_login_est|].
  intros [row|err]; [apply After; [intros s [_ K]; by eapply K|apply finalize_est]|].
  destruct (negb _); [apply est_fail|]. apply (est_pre anything); [|done].
  eapply est_bind; [apply stable_True|apply est_pure, keeps_reads; intros t; apply keeps_lift|]. intros []. apply (est_pre anything); [|done].
  eapply est_bind; [apply stable_True|apply est_pure, keeps_reads; intros t; unfold Hash; keeps_walk|]. intros hash.
  apply (est_pre anything); [|done].
  eapply est_bind; [apply stable_True|apply est_attempt, repo_CreateUser_est|]. intros [u|err'].
  - apply After; [intros s [_ K]; by eapply made_seeded, K|]. eapply est_bind; [apply stable_True|apply GrantRole_est|]. intros [].
    apply (est_pre anything); [|done]. apply finalize_est.
  - apply (est_pre anything); [|done]. eapply est_bind; [apply stable_True|apply est_attempt, user_by_login_est|].
    intros [row|err'']; [|apply est_fail]. apply After; [intros s [_ K]; by eapply K|].
    eapply est_post; [apply GrantRole_est|done].
Qed.

(** What a start establishes among others. *)
Definition installed (orgKey admin : string) (s : Installation) : Prop :=
  exists o, (exists x, x ∈ organizations (store s) /\ org_Key x = orgKey /\ org_ID x = o) /\ seeded o s /\
    (admin <> "" -> user_seeded o admin s).

Lemma stable_seeded org : stable (seeded org).
Proof.
  intros s s' [H1 H2 H3 H4 H5] St. split; intros.
  - eapply stable_role; eauto.
  - eapply stable_rule; eauto.
  - eapply stable_permission; eauto.
  - eapply stable_granted; eauto.
  - eapply stable_menu; eauto.
Qed.

Lemma Bootstrap_est service orgKey orgName admin raw :
  est anything (Bootstrap others service orgKey orgName admin raw) (fun _ => installed orgKey admin).
Proof.
  unfold Bootstrap. set (O := fun o s => exists x, x ∈ organizations (store s) /\ org_Key x = orgKey /\ org_ID x = o).
  assert (SO : forall o, stable (O o)) by (intros o; apply (stable_row (fun s => organizations (store s))); by intros s s' []).
  eapply (est_bind _ _ _ O); [apply stable_True|apply EnsureOrganization_est|]. intros o.
  eapply (est_bind _ _ _ (fun _ => seeded o)); [by apply stable_and; [apply stable_True|]|apply (est_pre anything); [apply seed_est|done]|].
  intros []. assert (SF : stable (fun s => O o s /\ seeded o s)) by (apply stable_and; [apply SO|apply stable_seeded]).
  apply (est_weaken (fun s => (O o s /\ seeded o s) /\ True) _ _ (fun _ s => (O o s /\ seeded o s) /\ (admin <> "" -> user_seeded o admin s))); [|tauto|].
  - apply est_frame; [exact SF|]. destruct (String.eqb_spec admin "") as [E|E].
    + eapply est_post; [apply finalize_est|done].
    + eapply est_post; [apply administrator_est|auto].
  - intros _ s [[H1 H2] H3]. by exists o.
Qed.

End racing.

(** ** The first start *)

(** A young installation satisfies what [Roles] keeps. *)
Lemma young_inv s : keyed s -> young s -> inv (store s).
Proof.
  intros K [(G1 & G2 & G3) R U]. split.
  - split; try apply K.
    + rewrite G1. constructor.
    + rewrite G1. intros g Hg. inversion Hg.
    + intros u r Hu. by apply (U u r).
    + rewrite G3. intros g Hg. inversion Hg.
    + rewrite G2. intros m Hm. inversion Hm.
  - intros row Hrow r Hr _ _ [A B].
    assert (Only : forall key, lasting (uid row) (store s) key -> key = "system_admin").
    { intros key (x & Hx & <- & [D|D]); [|unfold held_by_group in D; by rewrite G3 in D].
      unfold held_directly in D. apply existsb_exists in D as ([u i] & Hin & D). breflect. subst.
      apply list_elem_of_In in Hin. destruct (U _ _ Hin) as (_ & y & Hy & Ey & <-). f_equal.
      by apply (NoDup_map_eq rl_id (roles (store s))); [apply K|done..]. }
    apply (R r Hr). by rewrite (Only _ A), (Only _ B).
Qed.

Section alone.
Context `{UnicodeTables} `{Argon2}.
Definition nobody (_ : nat) (s : Installation) : Installation := s.
Lemma nobody_steps k s : step s (nobody k s).
Proof. done. Qed.
#[local] Hint Resolve nobody_steps : core.

(** *** What leaves the users alone *)

Definition same_users (us : list userRow) (s : Installation) : Prop := users (store s) = us.

Lemma keeps_racing (J : Installation -> Prop) {A} (m : N A) : keeps J m -> keeps J (racing nobody m).
Proof. intros K e n s HJ. by apply K. Qed.
Lemma keeps_store us {A} (m : Database.M Tables A) : keeps (fun t => users t = us) m -> keeps (same_users us) (in_store m).
Proof.
  intros K e n s HJ. unfold in_store, zoom. specialize (K e n (store s) HJ). by destruct (m e n (store s)) as [[r n'] t].
Qed.
Lemma keeps_ensured J find insert : keeps J find -> (forall id, keeps J (insert id)) -> keeps J (ensured nobody find insert).
Proof. intros Hf Hi. unfold ensured. pose proof (keeps_racing J find Hf). keeps_walk. Qed.
Lemma keeps_related J count insert : keeps J count -> keeps J insert -> keeps J (related nobody count insert).
Proof. intros Hc Hi. unfold related. pose proof (keeps_racing J count Hc). keeps_walk. Qed.
#[local] Hint Resolve keeps_racing keeps_store keeps_ensured keeps_related keeps_stmt : forge.

Lemma find_row_users us {A} (rows : Tables -> list A) p id : keeps (same_users us) (find_row rows p id).
Proof. unfold find_row. keeps_walk. Qed.
Lemma query_users us {A} (f : Tables -> A) : keeps (same_users us) (in_store (query f)).
Proof. apply keeps_store, keeps_query. Qed.
#[local] Hint Resolve find_row_users query_users : forge.

Ltac insert_elsewhere := apply keeps_racing, keeps_store, keeps_stmt; intros t [] t' E I; cbn in *;
  unfold insert_organization, insert_role, insert_permission, insert_role_permission, insert_rule in I;
  destruct (existsb _ _); [discriminate|]; by injection I as <-.
Ltac ensures := apply keeps_ensured; [apply find_row_users|intros id; apply keeps_bind; [apply keeps_now|intros at_; insert_elsewhere]].

Lemma EnsureOrganization_users us key name : keeps (same_users us) (EnsureOrganization nobody key name).
Proof. ensures. Qed.
Lemma EnsureRole_users us org key name scope : keeps (same_users us) (EnsureRole nobody org key name scope).
Proof. ensures. Qed.
Lemma EnsurePermission_users us key name : keeps (same_users us) (EnsurePermission nobody key name).
Proof. ensures. Qed.
Lemma EnsureRoleConflict_users us org a b reason : keeps (same_users us) (EnsureRoleConflict nobody org a b reason).
Proof.
  unfold EnsureRoleConflict. destruct (ordered a b). apply keeps_related; [apply query_users|].
  apply keeps_bind; [apply keeps_uuid|intros id]. apply keeps_bind; [apply keeps_now|intros at_; insert_elsewhere].
Qed.
Lemma GrantPermissionToRole_users us org role permission : keeps (same_users us) (GrantPermissionToRole nobody org role permission).
Proof.
  unfold GrantPermissionToRole. do 2 (apply keeps_bind; [apply keeps_racing, find_row_users|intros ?]).
  apply keeps_related; [apply query_users|insert_elsewhere].
Qed.
Lemma EnsureMenu_users us m : keeps (same_users us) (EnsureMenu nobody m).
Proof.
  unfold EnsureMenu, menu_row. apply keeps_bind; [|intros ?; apply keeps_ret]. apply keeps_ensured; [keeps_walk|]. intros id.
  apply keeps_racing, keeps_stmt. intros s [] s' E I. unfold insert_menu in I. destruct (existsb _ _); [discriminate|]. by injection I as <-.
Qed.
#[local] Hint Resolve EnsureOrganization_users EnsureRole_users EnsurePermission_users EnsureRoleConflict_users
  GrantPermissionToRole_users EnsureMenu_users : forge.

Lemma seed_users us org : keeps (same_users us) (seed nobody org).
Proof. unfold seed. keeps_walk. Qed.

(** *** The administrator of the first start *)

Lemma by_login_users org login e n s row n' s' : user_by_login nobody org login e n s = (Ok row, n', s') ->
  exists u, u ∈ users (store s) /\ user_LoginName (row_User u) = login.
Proof.
  intros E. unfold user_by_login, racing, in_store, zoom, nobody in E. destruct (UserByLogin org login e (S n) (store s)) as [[r k] t] eqn:U.
  injection E as -> _ _. apply UserByLogin_ok in U as (_ & u & Hu & Nu & _). exists u. split; [done|]. by injection Nu.
Qed.

Lemma by_login_reads org login : reads (user_by_login nobody org login).
Proof. intros e n s. apply (reads_store _ (UserByLogin_reads org login)). Qed.

Lemma made_administered org login user s : keyed s -> user_made org login user s -> made_admin user s -> administered org (store s).
Proof.
  intros K (u & Hu & Nu & <- & Su) (r & Hr & Kr & Hur & v & Hv & Ev & Ov).
  assert (v = u) as -> by (by apply (NoDup_map_eq uid (users (store s))); [apply K|..]).
  injection Nu as Ou _. apply (administered_by _ _ (uid u)), elem_of_active_admins. exists u. split_and!; try done.
  assert (Hin : r ∈ admin_grants org (uid u) (store s)).
  { apply elem_of_admin_grants. exists (rl_id r). split_and!; [done..|]. unfold admin_role.
    by rewrite Kr, <- Ov, Ou, !seqb_refl. }
  intros X. rewrite X in Hin. inversion Hin.
Qed.

Lemma CreateUser_failed org login display hash mustChange e n s err n' s' :
  repo_CreateUser nobody org login display hash mustChange e n s = (Err err, n', s') -> s' = s.
Proof.
  unfold repo_CreateUser, mbind, M_bind, now, NewString, racing, nobody, in_store, zoom, stmt. cbn.
  destruct (faults e _); cbn; [rewrite store_same; congruence|].
  destruct (insert_user _ _) as [[[] t]|]; cbn; [done|rewrite store_same; congruence].
Qed.

Lemma administrator_made service org admin raw e n s u n' s' : keyed s ->
  (forall x, x ∈ users (store s) -> user_LoginName (row_User x) <> admin) ->
  administrator nobody service org admin raw e n s = (Ok u, n', s') -> administered org (store s').
Proof.
  intros K New E. unfold administrator in E.
  assert (None_yet : forall e n row n' s', user_by_login nobody org admin e n s <> (Ok row, n', s')).
  { intros e' k row k' s2 L. apply by_login_users in L as (x & Hx & Lx). by apply (New x Hx). }
  apply bind_ok in E as (found & n1 & s1 & L & E). apply attempt_inv in L.
  assert (s1 = s) as -> by (pose proof (by_login_reads org admin e n s) as R; by rewrite L in R).
  destruct found as [row|err]; [by apply None_yet in L|]. destruct (negb _); [run|].
  apply bind_ok in E as ([] & n2 & s2 & Ev & E). apply lift_ok in Ev as (_ & _ & <-).
  apply bind_ok in E as (hash & n3 & s3 & Eh & E).
  assert (s3 = s) as -> by (unfold Hash in Eh; run; done).
  apply bind_ok in E as (created & n4 & s4 & Ec & E). apply attempt_inv in Ec. destruct created as [x|err'].
  - destruct (repo_CreateUser_est nobody nobody_steps org admin "Administrator" hash true e n3 s I) as [St1 M1].
    rewrite Ec in St1, M1. specialize (M1 _ _ _ eq_refl). cbn in St1.
    apply bind_ok in E as ([] & n5 & s5 & Eg & E).
    destruct (GrantRole_est nobody nobody_steps (user_ID x) e n4 s4 I) as [St2 M2]. rewrite Eg in St2, M2. specialize (M2 _ _ _ eq_refl). cbn in St2.
    destruct (finalize_est nobody nobody_steps service org e n5 s5 I) as [St3 _]. rewrite E in St3. cbn in St3.
    eapply made_administered; [apply St3, St2, St1, K| |].
    + eapply stable_user_made; [exact M1|]. by etrans.
    + by eapply stable_made_admin.
  - exfalso. apply bind_ok in E as (existing & n5 & s5 & Ex & E). apply attempt_inv in Ex.
    apply CreateUser_failed in Ec as ->.
    destruct existing as [row|err'']; [by apply None_yet in Ex|run].
Qed.

End alone.

(** ** Restarts *)

(** [quiet m s a]: without faults the computation reads and answers [a]. *)
Definition quiet {A} (m : N A) (s : Installation) (a : A) : Prop := forall e n, no_faults e -> exists n', m e n s = (Ok a, n', s).

Section restarts.
Context `{UnicodeTables} `{Argon2}.

Lemma quiet_ret {A} (a : A) s : quiet (mret a) s a.
Proof. intros e n _. by exists n. Qed.
Lemma quiet_bind {A B} (m : N A) (f : A -> N B) s a b : quiet m s a -> quiet (f a) s b -> quiet (m ≫= f) s b.
Proof. intros Hm Hf e n F. destruct (Hm e n F) as (n1 & E). unfold mbind, M_bind. rewrite E. by apply Hf. Qed.
Lemma quiet_racing {A} (m : N A) s a : quiet m s a -> quiet (racing nobody m) s a.
Proof. intros Hm e n F. apply (Hm e (S n) F). Qed.
Lemma quiet_attempt {A} (m : N A) s a : quiet m s a -> quiet (attempt m) s (Ok a).
Proof. intros Hm e n F. destruct (Hm e n F) as (n1 & E). exists n1. unfold attempt. by rewrite E. Qed.
Lemma quiet_forM {A} (l : list A) (f : A -> N unit) s : (forall x, x ∈ l -> quiet (f x) s tt) -> quiet (forM l f) s tt.
Proof.
  induction l as [|x l IH]; intros Hf; [apply quiet_ret|]. eapply quiet_bind; [apply Hf; constructor|].
  apply IH. intros y Hy. apply Hf. by constructor.
Qed.
Lemma quiet_now {B} (k : Time -> N B) s b : (forall t, quiet (k t) s b) -> quiet (t ← now; k t) s b.
Proof. intros Hk e n F. apply (Hk (clock e n) e (S n) F). Qed.
Lemma quiet_query {A} (f : Tables -> A) s : quiet (in_store (query f)) s (f (store s)).
Proof. intros e n F. exists (S n). unfold in_store, zoom, query, stmt. rewrite F. cbn. by rewrite store_same. Qed.
Lemma quiet_find {A} (rows : Tables -> list A) p (id : A -> string) s : (exists r, r ∈ rows (store s) /\ p r = true) ->
  exists r, r ∈ rows (store s) /\ p r = true /\ quiet (find_row rows p id) s (id r).
Proof.
  intros (r & Hr & Hp). destruct (select_row p (rows (store s))) as [x|err] eqn:E.
  - pose proof E as K. apply select_row_ok in K as [Hx Px]. exists x. split_and!; [done..|]. intros e n F. exists (S n).
    unfold find_row, mbind, M_bind, in_store, zoom, queryR, stmt. rewrite F. cbn. rewrite E. cbn. by rewrite store_same.
  - apply select_row_err in E as [_ E]. by rewrite (E r Hr) in Hp.
Qed.
Lemma quiet_ensured find insert s id : quiet find s id -> quiet (ensured nobody find insert) s id.
Proof. intros Hf. eapply quiet_bind; [by apply quiet_attempt, quiet_racing|]. apply quiet_ret. Qed.
Lemma quiet_related count insert s k : quiet count s k -> 0 < k -> quiet (related nobody count insert) s tt.
Proof.
  intros Hc L. eapply quiet_bind; [by apply quiet_racing|]. apply Z.ltb_lt in L. rewrite L. apply quiet_ret.
Qed.

Lemma count_pos {A} (p : A -> bool) l x : x ∈ l -> p x = true -> 0 < count_if p l.
Proof.
  intros Hx Hp. unfold count_if, llen. assert (K : In x (List.filter p l)) by (apply List.filter_In; split; [by apply list_elem_of_In|done]).
  destruct (List.filter p l); [done|cbn; lia].
Qed.

Lemma seed_quiet org s : keyed s -> seeded org s -> quiet (seed nobody org) s tt.
Proof.
  intros K [H1 H2 H3 H4 H5]. unfold seed.
  eapply quiet_bind; [|eapply quiet_bind; [|eapply quiet_bind; [|eapply quiet_bind]]].
  - apply quiet_forM. intros [[key name] scope] Hx. destruct (H1 _ Hx) as (r & Hr & P).
    destruct (quiet_find roles (role_named org key) rl_id s) as (x & _ & _ & Q); [by exists r|].
    eapply quiet_bind; [by apply quiet_ensured|apply quiet_ret].
  - apply quiet_forM. intros [[a b] reason] Hx. destruct (H2 _ Hx) as (r & Hr & P). unfold EnsureRoleConflict. cbn in P.
    destruct (ordered a b) as [x y]. eapply quiet_related; [apply quiet_query|]. by eapply count_pos.
  - apply quiet_forM. intros [key name] Hx. destruct (H3 _ Hx) as (p & Hp & P).
    destruct (quiet_find permissions (fun p => perm_Key p =s key) perm_ID s) as (x & _ & _ & Q); [exists p; split; [done|by apply seqb_true]|].
    eapply quiet_bind; [by apply quiet_ensured|apply quiet_ret].
  - apply quiet_forM. intros [role permission] Hx. destruct (H4 _ Hx) as ([rid pid] & Hin & (r & Hr & Pr & Er) & p & Hp & Pp & Ep). cbn in *.
    destruct (quiet_find roles (role_named org role) rl_id s) as (r' & Hr' & Pr' & Qr); [by exists r|].
    destruct (quiet_find permissions (fun p => perm_Key p =s permission) perm_ID s) as (p' & Hp' & Pp' & Qp); [exists p; split; [done|by apply seqb_true]|].
    assert (p' = p) as -> by (breflect; apply (NoDup_map_eq perm_Key (permissions (store s))); [apply K|congruence..]).
    assert (r' = r) as ->.
    { unfold role_named in *. breflect. apply (NoDup_map_eq (fun r => (rl_organization_id r, rl_role_key r)) (roles (store s))); [apply K|congruence..]. }
    unfold GrantPermissionToRole. eapply quiet_bind; [by apply quiet_racing|]. eapply quiet_bind; [by apply quiet_racing|].
    eapply quiet_related; [apply quiet_query|]. rewrite Er, Ep. eapply count_pos; [exact Hin|]. unfold pair_is. cbn. by rewrite !seqb_refl.
  - apply quiet_now. intros at_. apply quiet_forM. intros m Hm. destruct (H5 _ _ Hm) as (x & Hx & P).
    rewrite <- (builtin_org org (UTC at_) m Hm) in P. unfold EnsureMenu.
    assert (Q : exists id, quiet (row ← menu_row (menu_OrganizationID m) (menu_Key m); mret (menu_ID row)) s id).
    { destruct (select_row (menu_here (menu_OrganizationID m) (menu_Key m)) (menus s)) as [y|err] eqn:E.
      - exists (menu_ID y). intros e n F. exists (S n). unfold menu_row, mbind, M_bind, queryR, stmt. by rewrite F, E.
      - apply select_row_err in E as [_ E]. by rewrite (E x Hx) in P. }
    destruct Q as (id & Q). eapply quiet_bind; [by apply quiet_ensured|apply quiet_ret].
Qed.

(** *** The defaults of the settings *)

Definition settled (service : Service) (org : string) (s : Installation) : Prop :=
  policy_payload (shown_policy (defaultPolicy service)) ∖ settings_of org (settings (store s)) = ∅.

Lemma upserts_kept org by_ at_ (l : list (string * string)) e n t u n' t' :
  forM l (fun kv => exec (upsert_setting org by_ at_ kv)) e n t = (Ok u, n', t') ->
  forall k, (k ∈ map fst l \/ is_Some (t !! (org, k))) -> is_Some (t' !! (org, k)).
Proof.
  revert n t. induction l as [|x l IH]; intros n t E k Hk; cbn [forM] in E.
  - apply ret_ok in E as (_ & _ & <-). destruct Hk as [Hk|]; [inversion Hk|done].
  - apply bind_ok in E as ([] & n1 & t1 & E1 & E). apply exec_ok in E1 as (_ & _ & ->). eapply IH; [exact E|].
    destruct Hk as [Hk|Hk]; [apply elem_of_cons in Hk as [->|Hk]; [right; unfold upsert_setting; by rewrite lookup_insert_eq|by left]|].
    right. unfold upsert_setting. destruct (decide ((org, x.1) = (org, k))) as [->|Ne]; [by rewrite lookup_insert_eq|by rewrite lookup_insert_ne].
Qed.

Lemma finalizeBootstrapDefaults_ok service org e n t u n' t' : finalizeBootstrapDefaults service org e n t = (Ok u, n', t') ->
  policy_payload (shown_policy (defaultPolicy service)) ∖ settings_of org t' = ∅.
Proof.
  unfold finalizeBootstrapDefaults. set (payload := policy_payload _). intros E.
  apply bind_ok in E as (existing & n1 & t1 & Eq & E). apply query_ok in Eq as (_ & _ & <- & <-).
  destruct (Nat.eqb_spec (size (payload ∖ settings_of org t)) 0) as [Z0|NZ].
  { apply ret_ok in E as (_ & _ & <-). by apply map_size_empty_inv. }
  unfold SetSecuritySettings in E. destruct (Nat.eqb_spec (size (payload ∖ settings_of org t)) 0); [done|].
  apply bind_ok in E as (at_ & n2 & t2 & Ea & E). apply now_ok in Ea as (_ & _ & <-).
  apply WithTx_run in E as (e' & n3 & k & _ & E). pose proof (upserts_kept _ _ _ _ _ _ _ _ _ _ E) as U.
  apply map_empty. intros key. apply lookup_difference_None. destruct (payload !! key) as [v|] eqn:P; [right|by left].
  rewrite settings_of_lookup. rewrite fmap_is_Some. apply U.
  destruct (t !! (org, key)) as [row|] eqn:T; [by right|left].
  apply list_elem_of_In, in_map_iff. exists (key, v). split; [done|]. apply list_elem_of_In, elem_of_map_to_list, lookup_difference_Some.
  split; [done|]. by rewrite settings_of_lookup, T.
Qed.

Lemma finalize_settled service org e n s u n' s' : finalize nobody service org e n s = (Ok u, n', s') -> settled service org s'.
Proof.
  unfold finalize, racing, nobody, in_store, in_settings, zoom. intros E.
  destruct (finalizeBootstrapDefaults service org e (S n) (settings (store s))) as [[r k] f] eqn:D.
  injection E as -> _ <-. by apply finalizeBootstrapDefaults_ok in D.
Qed.

Lemma finalize_quiet service org s : settled service org s -> quiet (finalize nobody service org) s tt.
Proof.
  intros K. apply quiet_racing. intros e n F. exists (S n). unfold in_store, in_settings, zoom, finalizeBootstrapDefaults, SecuritySettings, mbind, M_bind, query, stmt.
  rewrite F. unfold settled in K. rewrite K. cbn. f_equal. by destruct s as [[] ?].
Qed.

(** *** The administrator *)

Lemma with_roles_answers row user e n t : exists a n' t', with_roles row user e n t = (Ok a, n', t').
Proof.
  unfold with_roles, mbind, M_bind, attempt. destruct (RolesForUser user e n t) as [[r n1] t1].
  destruct (PermissionsForUser user e n1 t1) as [[r2 n2] t2]. by eexists _, _, _.
Qed.

Lemma by_login_found org login s e n : user_seeded org login s -> no_faults e ->
  exists row n', user_by_login nobody org login e n s = (Ok row, n', s).
Proof.
  intros (u & Hu & Nu) F. pose proof (by_login_reads org login e n s) as R. revert R.
  unfold user_by_login, racing, nobody, in_store, zoom, UserByLogin, mbind, M_bind, queryR, stmt. rewrite F.
  destruct (select_row _ (users (store s))) as [x|err] eqn:E.
  - destruct (with_roles_answers x (uid x) e (S (S n)) (store s)) as (row & n1 & t & ->). cbn. intros ->. by exists row, n1.
  - apply select_row_err in E as [_ E]. specialize (E u Hu). injection Nu as O L. by rewrite O, L, !seqb_refl in E.
Qed.

(** The driver does not fail with the error of an empty answer. *)
Definition honest (e : Env) : Prop := forall k err, faults e k = Some err -> errors_Is err ErrNoRows = false.

Lemma by_login_missing org login e n s err n' s' : honest e -> errors_Is err ErrNoRows = true ->
  user_by_login nobody org login e n s = (Err err, n', s') -> ~ user_seeded org login s.
Proof.
  intros Ho M. unfold user_by_login, racing, nobody, in_store, zoom, UserByLogin, mbind, M_bind, queryR, stmt.
  destruct (faults e (S n)) as [err0|] eqn:F; [intros [= -> _ _]; by rewrite (Ho _ _ F) in M|].
  destruct (select_row _ (users (store s))) as [x|err0] eqn:E.
  { destruct (with_roles_answers x (uid x) e (S (S n)) (store s)) as (row & n1 & t & ->). done. }
  apply select_row_err in E as [_ E].
  intros _ (u & Hu & Nu). specialize (E u Hu). injection Nu as O L. by rewrite O, L, !seqb_refl in E.
Qed.

Lemma administrator_settled service org admin raw e n s u n' s' : honest e ->
  administrator nobody service org admin raw e n s = (Ok u, n', s') -> settled service org s'.
Proof.
  intros Ho E. unfold administrator in E. apply bind_ok in E as (found & n1 & s1 & L & E). apply attempt_inv in L.
  assert (s1 = s) as -> by (pose proof (by_login_reads org admin e n s) as R; by rewrite L in R).
  destruct found as [row|err]; [by eapply finalize_settled|]. destruct (errors_Is err ErrNoRows) eqn:M; cbn [negb] in E; [|run].
  apply bind_ok in E as ([] & n2 & s2 & Ev & E). apply lift_ok in Ev as (_ & _ & <-).
  apply bind_ok in E as (hash & n3 & s3 & Eh & E).
  assert (s3 = s) as -> by (unfold Hash in Eh; run; done).
  apply bind_ok in E as (created & n4 & s4 & Ec & E). apply attempt_inv in Ec. destruct created as [x|err'].
  - apply bind_ok in E as ([] & n5 & s5 & _ & E). by eapply finalize_settled.
  - exfalso. apply CreateUser_failed in Ec as ->. apply bind_ok in E as (existing & n5 & s5 & Ex & E). apply attempt_inv in Ex.
    destruct existing as [row|err'']; [|run]. apply (by_login_missing _ _ _ _ _ _ _ _ Ho M L).
    unfold user_by_login, racing, in_store, zoom, nobody in Ex. destruct (UserByLogin org admin e (S n4) (store s)) as [[r k] t] eqn:U.
    injection Ex as -> _ _. apply UserByLogin_ok in U as (_ & v & Hv & Nv & _). by exists v.
Qed.

Lemma administrator_quiet service org admin raw s : user_seeded org admin s -> settled service org s ->
  quiet (administrator nobody service org admin raw) s tt.
Proof.
  intros U K e n F. destruct (by_login_found org admin s e n U F) as (row & n1 & L). unfold administrator, mbind, M_bind, attempt.
  rewrite L. by apply finalize_quiet.
Qed.

End restarts.

(** ** The menus that a user sees *)

Lemma ListMenus_ok p e n s items n' s' : ListMenus p e n s = (Ok items, n', s') ->
  s' = s /\ forall m, m ∈ items <-> m ∈ menus s /\ menu_OrganizationID m = p_OrganizationID p /\ menu_Status m = "ACTIVE" /\
    (HasRole p ["system_admin"] = true \/ menu_visible p m = true).
Proof.
  unfold ListMenus, repo_ListMenus. intros E. apply bind_ok in E as (l & n1 & s1 & E & R). apply query_ok in E as (_ & _ & <- & <-).
  apply ret_ok in R as (<- & _ & <-). split; [done|]. intros m. set (here := fun m => _ && _).
  assert (K : m ∈ order_by menu_le (select here (menus s)) <-> m ∈ menus s /\ menu_OrganizationID m = p_OrganizationID p /\ menu_Status m = "ACTIVE").
  { rewrite elem_of_order_by, elem_of_select. unfold here. split; intros [Hm B]; split; try done; [by breflect|].
    destruct B as [-> ->]. by rewrite !seqb_refl. }
  destruct (HasRole p ["system_admin"]); [tauto|].
  rewrite list_elem_of_In, List.filter_In, <- list_elem_of_In, K. intuition discriminate.
Qed.

(** A menu that is changed keeps its organization, its key and its identifier, and
    no other menu is touched. *)
Lemma UpdateMenu_ok actor org key m e n s m' n' s' : UpdateMenu actor org key m e n s = (Ok m', n', s') ->
  exists row, row ∈ menus s /\ menu_here org (TrimSpace key) row = true /\ menu_ID m' = menu_ID row /\ menu_OrganizationID m' = org /\
    menu_refused (TrimSpace key) m' = false /\ store s' = store s /\
    menus s' = update_where (menu_here org (TrimSpace key)) (set_menu m') (menus s).
Proof.
  unfold UpdateMenu. intros E. apply bind_ok in E as ([] & n1 & s1 & E1 & E).
  assert (s1 = s) as ->.
  { refine (reads_ok _ _ _ _ _ _ _ _ E1). apply keeps_reads. intros t. unfold authorizeGrantActor, RequireRecentMFA. keeps_walk. }
  apply bind_ok in E as ([] & n2 & s2 & E2 & E). apply guard_ok in E2 as (R & _ & <-).
  unfold repo_UpdateMenu, menu_row in E. run. cbn in *.
  match goal with S : select_row _ _ = Ok ?r |- _ => apply select_row_ok in S as [Hr Hp]; exists r end. done.
Qed.

(** ** Examples *)

Module examples.
Definition service : Service := Roles.examples.service.
#[local] Existing Instance Roles.examples.unicode.
#[local] Existing Instance sample_argon2.

Definition bare : Installation := mkInstallation (mkTables [] [] [] [] [] [] [] [] [] [] [] ∅ [] [] [] [] [] [] [] [] []) [].
Definition env_of (prefix : string) (faulty : nat -> bool) : Env :=
  mkEnv (fun _ => 100) (fun n => prefix +:+ Itoa (Z.of_nat n)) (fun n => if faulty n then Some (Errorf "connection reset" []) else None)
    (fun _ _ => "0"%char) false.
Definition env : Env := env_of "a" (fun _ => false).
Definition start (others : nat -> Installation -> Installation) (e : Env) (s : Installation) :=
  Bootstrap others service "main" "Main" "root" "Correct-Horse-1" e 0%nat s.
Definition first := start nobody env bare.

(** A run that answers [a], by what is computed of it. *)
Lemma whole_run {A S B} (x : result A * nat * S) (f : result A * nat * S -> B) a b :
  (x.1.1, f x) = (Ok a, b) -> exists n s, x = (Ok a, n, s) /\ f (Ok a, n, s) = b.
Proof. destruct x as [[r n] s]. cbn. intros [= -> E]. by exists n, s. Qed.

Lemma first_run : exists n' s', Bootstrap nobody service "main" "Main" "root" "Correct-Horse-1" env 0%nat bare = (Ok tt, n', s') /\
  user_roles (store s') = [("a804", "a8")].
Proof. apply (whole_run _ (fun r => user_roles (store r.2))). vm_compute. reflexivity. Qed.

Lemma bare_keyed : keyed bare.
Proof. split; constructor. Qed.
Lemma bare_young : young bare.
Proof. split; [done| |]; cbn; intros *; inversion 1. Qed.

(** Another replica makes its whole start between the lookup and the insert of the
    organization. *)
Definition rival (k : nat) (s : Installation) : Installation :=
  if (k =? 4)%nat then (start nobody (env_of "b" (fun _ => false)) s).2 else s.
Lemma rival_steps k s : step s (rival k s).
Proof. unfold rival. destruct (k =? 4)%nat; [|done]. by apply (Bootstrap_est nobody nobody_steps). Qed.

Lemma raced_run : exists n' s', Bootstrap rival service "main" "Main" "root" "Correct-Horse-1" env 0%nat bare = (Ok tt, n', s') /\
  (map org_ID (organizations (store s')), user_roles (store s')) = (["b2"], [("b804", "b8")]).
Proof. apply (whole_run _ (fun r => (map org_ID (organizations (store r.2)), user_roles (store r.2)))). vm_compute. reflexivity. Qed.

(** A start that is interrupted between the user and its role; and the next one,
    which finds the user. *)
Definition broken := start nobody (env_of "a" (fun n => (n =? 812)%nat)) bare.
Definition again := start nobody (env_of "b" (fun _ => false)) broken.2.

(** Two menus that are made the parent of each other. *)
Definition root : Principal :=
  mkPrincipal "USER" "a804" "a2" "root" "root" ["system_admin"] [] [] false "s1" 1 (mkDataScope true false []) "MFA" (Some 100).
Definition moved (key parent : string) : Menu := mkMenu "" "" key parent "Name" "/x" "" "" 1 "active" 0 0.
Definition moves (s : Installation) := (
  _ ← UpdateMenu root "a2" "platform" (moved "platform" "security"); UpdateMenu root "a2" "security" (moved "security" "platform")) env 0%nat s.
End examples.

(** A start that breaks off between [CreateUser] and [GrantRole] leaves an
    organization without an administrator for good: the next starts succeed, find
    the user and never look at its roles. *)
Example a_crash_leaves_no_administrator :
  is_ok examples.broken.1.1 = false /\ examples.again.1.1 = Ok tt /\
  map (fun u => user_LoginName (row_User u)) (users (store examples.again.2)) = ["root"] /\
  active_admins "a2" (store examples.again.2) = [].
Proof. split_and!; vm_compute; reflexivity. Qed.

(** [UpdateMenu] refuses a menu that is its own parent, and no longer cycle. *)
Example menus_can_form_a_cycle : is_ok (examples.moves examples.first.2).1.1 = true /\
  map menu_ParentKey (select (fun m => contains ["platform"; "security"] (menu_Key m)) (menus (examples.moves examples.first.2).2)) = ["security"; "platform"].
Proof. split; vm_compute; reflexivity. Qed.



