(* ===== verification/Siem.v ===== *)
(** * The events that leave for the SIEM

    [internal/adapters/auditsink] and [internal/app/audit]'s [SIEMSink]: the
    Common Event Format of an event, the client that sends it over TLS as an
    RFC 6587 frame, and the handler of the messages that carry events.

    The network is a parameter that answers, at each tick, whether a connection
    comes up and how many bytes a write takes; the state is what the collector
    received, a stream for each connection. *)

From S2P Require Import Prelude GoString GoTime Crypto Strconv GoParse Json Database Keyring Messaging AuditLog.

(** ** Common Event Format *)

Definition maxCEFEventBytes : Z := 64 * 1024.

Definition line_feed : ascii := ascii_of_nat 10.
Definition carriage_return : ascii := ascii_of_nat 13.

(** [strings.NewReplacer] for single bytes: [stop] is the one that the two
    functions do not share. *)
Fixpoint escape (stop : ascii) (value : string) : string :=
  match value with
  | EmptyString => ""
  | String c rest =>
    (if Ascii.eqb c backslash || Ascii.eqb c stop then esc c
     else if Ascii.eqb c line_feed then esc "n"
     else if Ascii.eqb c carriage_return then esc "r"
     else str1 c) +:+ escape stop rest
  end.
Definition escapeCEFHeader (value : string) : string := escape "|" value.
Definition escapeCEFExtension (value : string) : string := escape "=" value.

Definition appendCEFExtension (key value : string) (extensions : list string) : list string :=
  if value =s "" then extensions else extensions ++ [key +:+ "=" +:+ escapeCEFExtension value].

Definition cefSeverity (outcome : string) : string :=
  let v := ToUpper (TrimSpace outcome) in
  if contains ["FAILURE"; "ERROR"] v then "8" else if v =s "DENIED" then "7" else "5".

Definition UnixMilli (t : Time) : Z := (t - unixEpoch) / Millisecond.

Definition cef_signature (e : Event) : string :=
  if TrimSpace (e_ResourceType e) <>s "" then e_ResourceType e +:+ "." +:+ e_Action e else e_Action e.

(** The keys of the extensions and their values, in their order. *)
Definition cef_members (e : Event) : list (string * string) :=
  [("request_id", e_RequestID e); ("organization_id", e_OrganizationID e); ("actor_id", e_ActorID e);
   ("resource_type", e_ResourceType e); ("resource_id", e_ResourceID e); ("result", e_Result e)] ++
  (if IsZero (e_OccurredAt e) then [] else [("rt", Itoa (UnixMilli (e_OccurredAt e)))]) ++
  [("sequence", Itoa (e_SequenceNo e)); ("event_hash", e_EventHash e); ("details_hash", Sum256hex (Marshal (e_Details e)))].

Definition EncodeCEF (e : Event) : result string :=
  if TrimSpace (e_Action e) =s "" then Err (Errorf "audit action is required for CEF" [])
  else
    let header := Join ["CEF:0"; "Forge"; "Forge"; "1"; escapeCEFHeader (cef_signature e); escapeCEFHeader (e_Action e);
                        cefSeverity (e_Result e)] "|" in
    let extensions := fold_left (fun l p => appendCEFExtension p.1 p.2 l) (cef_members e) [] in
    Ok (header +:+ "|" +:+ Join extensions " ").

(** ** The client *)

(** The part of [tls.Config] that is looked at; a minimal version of 0 leaves
    the choice to the library. *)
Record TLSConfig := mkTLS { tc_MinVersion : Z; tc_InsecureSkipVerify : bool; tc_ServerName : string }.

Definition VersionTLS12 : Z := 771.
Definition ErrSIEMTLSRequired : error := Sentinel "auditsink.ErrSIEMTLSRequired".
Definition ErrSIEMTLSWeak : error := Sentinel "auditsink.ErrSIEMTLSWeak".

(** The clone of the configuration, [None] when it is too weak. *)
Definition strengthened (host : string) (config : TLSConfig) : option TLSConfig :=
  let version := if tc_MinVersion config =? 0 then VersionTLS12 else tc_MinVersion config in
  if (version <? VersionTLS12) || tc_InsecureSkipVerify config then None
  else Some (mkTLS version false (if tc_ServerName config =s "" then host else tc_ServerName config)).

Record CEFClient := mkCEF { cef_address : string; cef_tlsConfig : TLSConfig }.

Definition NewCEFClient (address : string) (config : option TLSConfig) : result CEFClient :=
  let address := TrimSpace address in
  if address =s "" then Err (Errorf "siem address is required" [])
  else
    let invalid := Errorf "siem address must be host:port: %w" [] in
    match SplitHostPort address with
    | None => Err invalid
    | Some (host, _) =>
      if host =s "" then Err invalid
      else match config with
           | None => Err ErrSIEMTLSRequired
           | Some config =>
             match strengthened host config with
             | None => Err ErrSIEMTLSWeak
             | Some config => Ok (mkCEF address config)
             end
           end
    end.

(** How the network answers: the handshake of a connection, and the bytes that
    a write takes of those it is given. *)
Class Network := {
  dial_answer : nat -> CEFClient -> option error;
  write_answer : nat -> string -> Z * option error
}.

(** What the collector received, the last connection first. *)
Abbreviation Streams := (list string).

Section client.
Context `{Network}.

Definition dial (c : CEFClient) : Database.M Streams unit := fun _ n s =>
  match dial_answer n c with Some err => (Err err, S n, s) | None => (Ok tt, S n, "" :: s) end.

Definition received (b : string) (s : Streams) : Streams :=
  match s with [] => [b] | last :: rest => (last +:+ b) :: rest end.
Definition conn_Write (b : string) : Database.M Streams (Z * option error) := fun _ n s =>
  let '(count, err) := write_answer n b in (Ok (count, err), S n, received (stake (Z.to_nat count) b) s).

(** A write that makes progress takes a byte at least: the length of the frame
    is enough fuel. *)
Fixpoint write_frame (fuel : nat) (frame : string) : Database.M Streams unit :=
  if frame =s "" then mret tt
  else
    match fuel with
    | O => mret tt
    | S fuel =>
      w ← conn_Write frame;
      match w with
      | (_, Some err) => fail (Wrapf "write SIEM event: %w" [] err)
      | (count, None) =>
        if count <=? 0 then fail (Errorf "write SIEM event made no progress" [])
        else write_frame fuel (sdrop (Z.to_nat count) frame)
      end
    end.

Definition frame_of (payload : string) : string := Itoa (slen payload) +:+ " " +:+ payload.

Definition Publish (c : CEFClient) (e : Event) : Database.M Streams unit :=
  payload ← lift (EncodeCEF e);
  _ ← guard_not (maxCEFEventBytes <? slen payload) (Errorf "siem CEF event exceeds %d bytes" [FInt maxCEFEventBytes]);
  up ← attempt (dial c);
  match up with
  | Err err => fail (Wrapf "dial SIEM endpoint: %w" [] err)
  | Ok _ => let frame := frame_of payload in write_frame (String.length frame) frame
  end.

(** ** The handler of the messages *)

(** [decode] is [json.Unmarshal] into the event. *)
Variable decode : string -> result Event.

Definition Handle (c : CEFClient) (m : Messaging.Message) : Database.M Streams unit :=
  if Messaging.msg_Type m <>s "audit.event" then
    fail (Errorf "unexpected audit message type %q" [FStr (Messaging.msg_Type m)])
  else
    match decode (Messaging.msg_Body m) with
    | Err err => fail (Wrapf "decode audit event: %w" [] err)
    | Ok e =>
      if (e_ID e =s "") || (Messaging.msg_ID m <>s "audit." +:+ e_ID e) then
        fail (Errorf "audit message identity does not match payload" [])
      else Publish c e
    end.
End client.

(** ** Reading it back

    What a collector does: it reads the frames of a stream, and in each the
    fields of the header and the pairs of the extension. *)

Definition unescape (c : ascii) : ascii :=
  if Ascii.eqb c "n" then line_feed else if Ascii.eqb c "r" then carriage_return else c.

(** Up to a [stop] that is not escaped, and what is behind it. *)
Fixpoint read_to (stop : ascii) (s : string) : string * option string :=
  match s with
  | EmptyString => ("", None)
  | String c rest =>
    if Ascii.eqb c stop then ("", Some rest)
    else if Ascii.eqb c backslash then
      match rest with
      | String d rest => let '(v, r) := read_to stop rest in (String (unescape d) v, r)
      | EmptyString => ("", None)
      end
    else let '(v, r) := read_to stop rest in (String c v, r)
  end.

Fixpoint read_fields (n : nat) (s : string) : option (list string * string) :=
  match n with
  | O => Some ([], s)
  | S n =>
    match read_to "|" s with
    | (v, Some rest) => match read_fields n rest with Some (l, r) => Some (v :: l, r) | None => None end
    | (_, None) => None
    end
  end.

(** A value ends where the key before the next [=] begins: at the last space. *)
Fixpoint read_values (fuel : nat) (key s : string) : list (string * string) :=
  match fuel with
  | O => []
  | S fuel =>
    match read_to "=" s with
    | (v, None) => [(key, v)]
    | (v, Some rest) =>
      match LastIndexByte v " " with
      | Some i => (key, stake i v) :: read_values fuel (sdrop (S i) v) rest
      | None => []
      end
    end
  end.
Definition read_pairs (s : string) : list (string * string) :=
  match read_to "=" s with (key, Some rest) => read_values (S (String.length s)) key rest | (_, None) => [] end.

Definition Reading : Type := option (list string * list (string * string)).
Definition read_cef (payload : string) : Reading :=
  match read_fields 7 payload with Some (l, rest) => Some (l, read_pairs rest) | None => None end.

(** The frames of a stream that are there as a whole. *)
Fixpoint read_frames (fuel : nat) (s : string) : list string :=
  match fuel with
  | O => []
  | S fuel =>
    match IndexByte s " " with
    | None => []
    | Some i =>
      match Atoi (stake i s) with
      | None => []
      | Some size =>
        let rest := sdrop (S i) s in
        if slen rest <? size then [] else stake (Z.to_nat size) rest :: read_frames fuel (sdrop (Z.to_nat size) rest)
      end
    end
  end.
Definition collect (stream : string) : list Reading := map read_cef (read_frames (String.length stream) stream).

(** What the event says. *)
Definition record_of (e : Event) : Reading :=
  Some (["CEF:0"; "Forge"; "Forge"; "1"; cef_signature e; e_Action e; cefSeverity (e_Result e)],
        List.filter (fun p => p.2 <>s "") (cef_members e)).

(** *** Fields *)

Lemma read_escaped stop v t : stop <> backslash -> stop <> "n"%char -> stop <> "r"%char ->
  read_to stop (escape stop v +:+ t) = (v +:+ (read_to stop t).1, (read_to stop t).2).
Proof.
  intros N1 N2 N3. induction v as [|c v IH]; [cbn [escape]; rewrite !append_nil; by destruct (read_to stop t)|].
  assert (Ascii.eqb backslash stop = false) as Nb by (apply Ascii.eqb_neq; congruence).
  assert (forall d, unescape d = c -> read_to stop ((esc d +:+ escape stop v) +:+ t)
    = (String c v +:+ (read_to stop t).1, (read_to stop t).2)) as Escaped.
  { intros d <-. unfold esc, str1. rewrite !append_cons, append_nil. cbn [read_to]. by rewrite Nb, Ascii.eqb_refl, IH. }
  cbn [escape]. destruct (Ascii.eqb_spec c backslash) as [->|B]; cbn [orb]; [by apply Escaped|].
  destruct (Ascii.eqb_spec c stop) as [->|X]; cbn [orb].
  { apply Escaped. unfold unescape. destruct (Ascii.eqb_spec stop "n"), (Ascii.eqb_spec stop "r"); done. }
  destruct (Ascii.eqb_spec c line_feed) as [->|F]; [by apply Escaped|].
  destruct (Ascii.eqb_spec c carriage_return) as [->|R]; [by apply Escaped|].
  unfold str1. rewrite !append_cons, append_nil. cbn [read_to].
  destruct (Ascii.eqb_spec c stop), (Ascii.eqb_spec c backslash); try done. by rewrite IH.
Qed.

Lemma read_field stop v t : stop <> backslash -> stop <> "n"%char -> stop <> "r"%char ->
  read_to stop (escape stop v +:+ String stop t) = (v, Some t).
Proof.
  intros N1 N2 N3. rewrite read_escaped by done. cbn. rewrite Ascii.eqb_refl. cbn. by rewrite append_nil_r.
Qed.

(** *** Pairs *)

Definition plain_key (key : string) : bool :=
  forallb (fun c => negb (Ascii.eqb c "=") && negb (Ascii.eqb c backslash) && negb (Ascii.eqb c " ")) (list_ascii_of_string key).

Lemma LastIndexByte_none s c : LastIndexByte s c = None <-> ~ In c (list_ascii_of_string s).
Proof.
  induction s as [|d s IH]; cbn; [tauto|]. destruct (LastIndexByte s c).
  - split; [done|]. intros N. exfalso. apply N. right. destruct (in_dec ascii_dec c (list_ascii_of_string s)) as [|X]; [done|]. by apply IH in X.
  - destruct (Ascii.eqb_spec d c); split; try done; tauto.
Qed.

Lemma last_space v k : ~ In " "%char (list_ascii_of_string k) -> LastIndexByte (v +:+ " " +:+ k) " " = Some (String.length v).
Proof.
  intros N. apply LastIndexByte_none in N. induction v as [|c v IH].
  - change (LastIndexByte (String " " k) " " = Some 0%nat). cbn. by rewrite N.
  - rewrite append_cons. cbn [LastIndexByte]. by rewrite IH.
Qed.

Lemma read_word w t : forallb (fun c => negb (Ascii.eqb c "=") && negb (Ascii.eqb c backslash)) (list_ascii_of_string w) = true ->
  read_to "=" (w +:+ String "=" t) = (w, Some t).
Proof.
  induction w as [|c w IH]; intros P; [done|]. cbn in P. breflect.
  rewrite append_cons. cbn [read_to]. destruct (Ascii.eqb_spec c "="), (Ascii.eqb_spec c backslash); try congruence.
  by rewrite IH.
Qed.

Lemma plain_word k : plain_key k = true ->
  forallb (fun c => negb (Ascii.eqb c "=") && negb (Ascii.eqb c backslash)) (list_ascii_of_string k) = true.
Proof. unfold plain_key. rewrite !forallb_forall. intros P c I. apply P in I. by apply andb_true_iff in I as [I _]. Qed.

Lemma plain_spaceless k : plain_key k = true -> ~ In " "%char (list_ascii_of_string k).
Proof.
  unfold plain_key. rewrite forallb_forall. intros P I. apply P in I. by rewrite andb_comm in I.
Qed.

Definition pair_text (p : string * string) : string := p.1 +:+ "=" +:+ escapeCEFExtension p.2.
Definition pair_tail (l : list (string * string)) : string := fold_right (fun p s => " " +:+ pair_text p +:+ s) "" l.

Lemma read_values_pairs l : Forall (fun p => plain_key p.1 = true) l -> forall key v fuel, (length l < fuel)%nat ->
  read_values fuel key (escapeCEFExtension v +:+ pair_tail l) = (key, v) :: l.
Proof.
  induction 1 as [|[k w] l P _ IH]; intros key v [|fuel] F; cbn in F; try lia; cbn [pair_tail fold_right read_values].
  all: unfold escapeCEFExtension in *; rewrite read_escaped by done.
  - cbn [read_to fst snd]. by rewrite append_nil_r.
  - fold (pair_tail l). unfold pair_text, escapeCEFExtension. cbn [fst snd] in *.
    replace (" " +:+ (k +:+ "=" +:+ escape "=" w) +:+ pair_tail l) with ((" " +:+ k) +:+ String "=" (escape "=" w +:+ pair_tail l))
      by (rewrite !append_assoc; done).
    rewrite read_word by exact (proj2 (andb_true_iff _ _) (conj eq_refl (plain_word _ P))). cbn [fst snd].
    rewrite last_space by by apply plain_spaceless.
    rewrite stake_app. change (" " +:+ k) with (String " " k). rewrite sdrop_past. f_equal. apply IH. lia.
Qed.

Lemma joined_pairs p l : Join (map pair_text (p :: l)) " " = pair_text p +:+ pair_tail l.
Proof.
  revert p. induction l as [|q l IH]; intros p; [cbn; by rewrite append_nil_r|].
  change (pair_text p +:+ " " +:+ Join (map pair_text (q :: l)) " " = pair_text p +:+ " " +:+ pair_text q +:+ pair_tail l).
  by rewrite IH.
Qed.

Lemma pair_tail_length l : (length l <= String.length (pair_tail l))%nat.
Proof.
  induction l as [|p l IH]; [cbn; lia|]. change (pair_tail (p :: l)) with (" " +:+ pair_text p +:+ pair_tail l).
  rewrite !length_append. cbn [length String.length]. lia.
Qed.

Lemma read_pairs_joined l : Forall (fun p => plain_key p.1 = true) l -> read_pairs (Join (map pair_text l) " ") = l.
Proof.
  destruct 1 as [|[k v] l P R]; [done|]. rewrite joined_pairs. unfold read_pairs, pair_text. cbn [fst snd] in *.
  rewrite !append_assoc. change ("=" +:+ ?s) with (String "=" s). rewrite read_word by by apply plain_word.
  apply read_values_pairs; [done|]. rewrite length_append. cbn [String.length]. rewrite length_append.
  pose proof (pair_tail_length l). lia.
Qed.

Lemma kept_extensions l : forall out, fold_left (fun l p => appendCEFExtension p.1 p.2 l) l out =
  out ++ map pair_text (List.filter (fun p => p.2 <>s "") l).
Proof.
  induction l as [|[k v] l IH]; intros out; cbn [fold_left List.filter]; [by rewrite app_nil_r|].
  rewrite IH. unfold appendCEFExtension. cbn [fst snd]. destruct (v =s ""); cbn; [done|]. by rewrite <- app_assoc.
Qed.

Lemma plain_members e : Forall (fun p => plain_key p.1 = true) (List.filter (fun p => p.2 <>s "") (cef_members e)).
Proof.
  apply List.Forall_forall. intros p I. apply List.filter_In in I as [I _]. unfold cef_members in I.
  destruct (IsZero (e_OccurredAt e)); cbn [app In] in I; repeat destruct I as [<-|I]; done.
Qed.

Lemma read_fields_escaped l t :
  read_fields (length l) (fold_right (fun v s => escapeCEFHeader v +:+ "|" +:+ s) t l) = Some (l, t).
Proof.
  induction l as [|v l IH]; [done|]. cbn [fold_right length read_fields]. unfold escapeCEFHeader at 1.
  change ("|" +:+ ?s) with (String "|" s). rewrite read_field by done. by rewrite IH.
Qed.

Lemma plain_severity outcome : escapeCEFHeader (cefSeverity outcome) = cefSeverity outcome.
Proof. unfold cefSeverity. destruct (contains _ _); [|destruct (_ =s _)]; done. Qed.

Lemma read_encoded e payload : EncodeCEF e = Ok payload -> read_cef payload = record_of e.
Proof.
  assert (forall x, Ok x = Ok payload -> payload = x) as inj by congruence.
  unfold EncodeCEF. destruct (TrimSpace (e_Action e) =s ""); [discriminate|]. intros E. apply inj in E as ->.
  set (l := ["CEF:0"; "Forge"; "Forge"; "1"; cef_signature e; e_Action e; cefSeverity (e_Result e)]).
  unfold read_cef, record_of. rewrite kept_extensions, app_nil_l. set (kept := List.filter _ _).
  replace (Join _ "|" +:+ "|" +:+ _) with (fold_right (fun v s => escapeCEFHeader v +:+ "|" +:+ s) (Join (map pair_text kept) " ") l).
  - change 7%nat with (length l). rewrite read_fields_escaped. by rewrite read_pairs_joined by apply plain_members.
  - cbn [l fold_right Join]. rewrite plain_severity, !append_assoc. done.
Qed.

(** *** Frames *)

Lemma IndexByte_split s c i : IndexByte s c = Some i -> exists b, s = stake i s +:+ String c b /\ String.length (stake i s) = i.
Proof.
  revert i. induction s as [|d s IH]; intros i E; cbn in E; [done|].
  destruct (Ascii.eqb_spec d c) as [->|N].
  - injection E as <-. exists s. done.
  - destruct (IndexByte s c) as [j|]; [|done]. injection E as <-. destruct (IH j eq_refl) as (b & Es & L).
    exists b. cbn [stake]. rewrite append_cons, <- Es. cbn. by rewrite L.
Qed.

Lemma IndexByte_none s c : ~ In c (list_ascii_of_string s) -> IndexByte s c = None.
Proof.
  induction s as [|d s IH]; intros N; [done|]. cbn in N |- *. destruct (Ascii.eqb_spec d c) as [->|]; [tauto|].
  rewrite IH; tauto.
Qed.

Lemma IndexByte_first s c t i : IndexByte s c = Some i -> IndexByte (s +:+ t) c = Some i.
Proof.
  revert i. induction s as [|d s IH]; intros i E; cbn in E; [done|]. rewrite append_cons. cbn.
  destruct (Ascii.eqb d c); [done|]. destruct (IndexByte s c) as [j|]; [|done]. by rewrite (IH j eq_refl).
Qed.

Lemma size_first n t : 0 <= n -> IndexByte (Itoa n +:+ String " " t) " " = Some (String.length (Itoa n)).
Proof. intros N. apply IndexByte_app, IndexByte_none, digits_without; done. Qed.

Lemma whole_frame payload fuel : slen payload <= maxInt64 -> read_frames (S fuel) (frame_of payload) = payload :: read_frames fuel "".
Proof.
  intros L. pose proof (Zle_0_nat (String.length payload)) as P. fold (slen payload) in P. unfold frame_of.
  change (" " +:+ payload) with (String " " payload). cbn [read_frames].
  rewrite size_first, stake_app, Atoi_Itoa, sdrop_past by done. rewrite Z.ltb_irrefl.
  unfold slen. rewrite Nat2Z.id. pose proof (stake_app payload "") as S1. pose proof (sdrop_app payload "") as S2.
  rewrite append_nil_r in S1, S2. by rewrite S1, S2.
Qed.

Lemma partial_frame payload p t fuel : slen payload <= maxInt64 -> frame_of payload = p +:+ t -> t <> "" -> read_frames fuel p = [].
Proof.
  intros L E N. destruct fuel as [|fuel]; [done|]. cbn [read_frames].
  pose proof (Zle_0_nat (String.length payload)) as P. fold (slen payload) in P.
  destruct (IndexByte p " ") as [i|] eqn:I; [|done]. pose proof (IndexByte_first _ _ t _ I) as I'.
  rewrite <- E in I'. unfold frame_of in E, I'. change (" " +:+ payload) with (String " " payload) in E, I'.
  rewrite size_first in I' by done. injection I' as I'. apply IndexByte_split in I as (b & Ep & Li).
  rewrite Ep, append_assoc, append_cons in E. apply append_inv_same_length in E as [Ei Eb]; [|congruence].
  injection Eb as Eb. rewrite Ep, <- Ei, <- I', stake_app, Atoi_Itoa, sdrop_past by done.
  rewrite (proj2 (Z.ltb_lt _ _)); [done|]. rewrite Eb, slen_append. destruct t; [done|]. unfold slen. cbn. lia.
Qed.

(** *** Sending *)

Section sending.
Context `{Network}.

Lemma write_frame_writes fuel : forall frame env n last rest r n' s', (String.length frame <= fuel)%nat ->
  write_frame fuel frame env n (last :: rest) = (r, n', s') ->
  exists p t, frame = p +:+ t /\ s' = (last +:+ p) :: rest /\ (r = Ok tt -> t = "").
Proof.
  induction fuel as [|fuel IH]; intros frame env n last rest r n' s' F E; cbn [write_frame] in E.
  - destruct frame; [|cbn in F; lia]. cbn in E. injection E as <- <- <-. exists "", "". split_and!; [done|by rewrite append_nil_r|done].
  - destruct (frame =s "") eqn:Z0. { breflect. injection E as <- <- <-. exists "", "". split_and!; [done|by rewrite append_nil_r|done]. }
    unfold mbind, M_bind, conn_Write in E. destruct (write_answer n frame) as [count [err|]] eqn:W; cbn [received] in E.
    + injection E as <- <- <-. exists (stake (Z.to_nat count) frame), (sdrop (Z.to_nat count) frame). split_and!; [by rewrite stake_sdrop|done|done].
    + destruct (count <=? 0) eqn:C.
      { injection E as <- <- <-. exists (stake (Z.to_nat count) frame), (sdrop (Z.to_nat count) frame). split_and!; [by rewrite stake_sdrop|done|done]. }
      apply IH in E as (p & t & Ef & -> & T).
      * exists (stake (Z.to_nat count) frame +:+ p), t. rewrite !append_assoc, <- Ef, stake_sdrop. done.
      * rewrite sdrop_length. breflect. destruct frame; [done|]. cbn in F |- *. lia.
Qed.

(** What one call adds to what the collector received. *)
Lemma published c e env n s r n' s' : Publish c e env n s = (r, n', s') ->
  (s' = s /\ exists err, r = Err err) \/
  exists payload p t, EncodeCEF e = Ok payload /\ slen payload <= maxCEFEventBytes /\ frame_of payload = p +:+ t /\ s' = p :: s /\
    (r = Ok tt -> t = "").
Proof.
  unfold Publish, mbind, M_bind, lift. destruct (EncodeCEF e) as [payload|err]; [|intros [= <- <- <-]; by left; eauto].
  unfold guard_not. destruct (maxCEFEventBytes <? slen payload) eqn:B; [intros [= <- <- <-]; by left; eauto|].
  unfold mret, M_ret, attempt, dial. destruct (dial_answer n c); [intros [= <- <- <-]; by left; eauto|].
  intros E. apply write_frame_writes in E as (p & t & Ef & -> & T); [|done].
  right. exists payload, p, t. breflect. done.
Qed.

(** The messages one after the other, whatever becomes of each. *)
Variable decode : string -> result Event.
Fixpoint handle_all (c : CEFClient) (messages : list Messaging.Message) : Database.M Streams (list (result unit)) :=
  match messages with
  | [] => mret []
  | m :: rest => r ← attempt (Handle decode c m); rs ← handle_all c rest; mret (r :: rs)
  end.

(** Everything the collector reads, in the order of the connections. *)
Definition log_of (s : Streams) : list Reading := flat_map collect (rev s).

Definition reported (e : Event) (r : result unit) (got : list Reading) : Prop :=
  (got = [] \/ got = [record_of e]) /\ (r = Ok tt -> got = [record_of e]).

Lemma published_log c e env n s r n' s' : Publish c e env n s = (r, n', s') ->
  exists got, log_of s' = log_of s ++ got /\ reported e r got.
Proof.
  intros E. apply published in E as [[-> [err ->]]|(payload & p & t & Ep & B & Ef & -> & T)].
  { exists []. rewrite app_nil_r. split; [done|]. split; [by left|done]. }
  exists (collect p). unfold log_of. cbn [rev]. rewrite flat_map_app. cbn [flat_map]. rewrite app_nil_r. split; [done|].
  assert (slen payload <= maxInt64) as M by (unfold maxCEFEventBytes, maxInt64 in *; lia). unfold collect.
  destruct (decide (t = "")) as [->|N].
  - rewrite append_nil_r in Ef. subst p. assert (exists k, String.length (frame_of payload) = S k) as [k ->].
    { unfold frame_of. rewrite !length_append. cbn. exists (String.length (Itoa (slen payload)) + String.length payload)%nat. lia. }
    rewrite whole_frame by done. destruct k; cbn [read_frames map IndexByte]; rewrite (read_encoded _ _ Ep); split; auto.
  - rewrite (partial_frame payload p t) by done. split; [by left|]. intros R. by apply T in R.
Qed.

(** The event that a message is accepted for. *)
Definition carries (m : Messaging.Message) (e : Event) : Prop :=
  Messaging.msg_Type m = "audit.event" /\ decode (Messaging.msg_Body m) = Ok e /\ e_ID e <> "" /\
  Messaging.msg_ID m = "audit." +:+ e_ID e.

(** The outcome of a message, and what the collector reads for it. *)
Definition delivered (m : Messaging.Message) (r : result unit) (got : list Reading) : Prop :=
  (exists e, carries m e /\ reported e r got) \/ ((forall e, ~ carries m e) /\ is_ok r = false /\ got = []).

Lemma handled_log c m env n s r n' s' : Handle decode c m env n s = (r, n', s') ->
  exists got, log_of s' = log_of s ++ got /\ delivered m r got.
Proof.
  assert (forall err, (forall e, ~ carries m e) -> (Err err, n, s) = (r, n', s') -> exists got, log_of s' = log_of s ++ got /\ delivered m r got)
    as Refused. { intros err X [= <- <- <-]. exists []. rewrite app_nil_r. split; [done|]. by right. }
  unfold Handle. destruct (_ <>s "audit.event") eqn:T; breflect.
  { apply Refused. by intros e (? & _). }
  destruct (decode _) as [e|err] eqn:D; [|apply Refused; intros e (_ & ? & _); congruence].
  destruct (_ || _) eqn:I; breflect.
  { apply Refused. intros e' (_ & D' & N & M). rewrite D in D'. injection D' as ->. orsplit; breflect; congruence. }
  intros E. apply published_log in E as (got & L & G). exists got. split; [done|]. left. by exists e.
Qed.

(** C34. What a collector of security events reads is what happened, whatever the
    events say and whatever the network does: after the handler has been given any
    messages, the records that the collector reads out of its streams are, for each
    message and in their order, the record of the event that the message carries,
    with exactly its signature, action, severity and fields (a value with bars,
    equal signs, backslashes or line ends forges no field and no record), or none
    when it could not be sent; a message that was handled successfully has its
    record, and one of another type, that does not decode, or whose identifier is
    not that of its event is an error and leaves none. *)
Theorem siem_records_are_faithful c messages env n s rs n' s' : handle_all c messages env n s = (Ok rs, n', s') ->
  exists gots, log_of s' = log_of s ++ concat gots /\ length rs = length messages /\
    Forall2 (fun p got => delivered p.1 p.2 got) (combine messages rs) gots.
Proof.
  revert n s rs. induction messages as [|m messages IH]; intros n s rs E; cbn [handle_all] in E.
  { injection E as <- _ <-. exists []. by rewrite app_nil_r. }
  unfold mbind, M_bind, attempt in E. destruct (Handle decode c m env n s) as [[r n1] s1] eqn:P.
  destruct (handle_all c messages env n1 s1) as [[[rs1|err] n2] s2] eqn:R; [|done]. injection E as <- <- <-.
  apply handled_log in P as (got & L & G). apply IH in R as (gots & L' & N & F).
  exists (got :: gots). rewrite L', L, <- app_assoc. cbn [concat length combine]. split_and!; [done|lia|by constructor].
Qed.
End sending.

(** ** Witnesses *)

Module examples.
Definition event (id resource : string) : Event :=
  mkEvent id unixEpoch "req-1" "org" "u1" "Root" "role.update" resource "r|1" "DENIED" "10.0.0.1"
    (JObj [("reason", JStr "a=b")]) 7 "" "ff".
(** Four bytes at a time, the second connection breaks at its third write. *)
Definition network : Network := {|
  dial_answer := fun n c => None;
  write_answer := fun n b => (4, if (n =? 120)%nat then Some (Sentinel "net.reset") else None)
|}.
Definition env : Env := mkEnv (fun n => Z.of_nat n) (fun n => Itoa (Z.of_nat n)) (fun _ => None) (fun _ _ => zero) false.
Definition forged : string := "role" +:+ str1 line_feed +:+ "|9|actor_id=root".
Definition decode (body : string) : result Event :=
  if body =s "1" then Ok (event "1" forged) else if body =s "2" then Ok (event "2" "role") else Err (Errorf "invalid character" []).
Definition message (id type body : string) : Messaging.Message := Messaging.mkMessage id "org" "audit" id type body ∅ "" "" 0.
Definition messages : list Messaging.Message :=
  [message "audit.1" "audit.event" "1"; message "audit.2" "audit.event" "2"; message "audit.9" "audit.event" "2"; message "x" "order.paid" "1"].
Definition client : CEFClient := mkCEF "siem:6514" (mkTLS VersionTLS12 false "siem").
Definition outcome := handle_all (H := network) decode client messages env 0%nat [].
Definition outcomes : list (result unit) := match outcome.1.1 with Ok rs => rs | Err _ => [] end.
Lemma sent : outcome = (Ok outcomes, outcome.1.2, outcome.2).
Proof. vm_compute. reflexivity. Qed.
End examples.

Lemma siem_records_are_faithful_witness :
  exists gots, log_of examples.outcome.2 = log_of [] ++ concat gots /\ length examples.outcomes = length examples.messages /\
    Forall2 (fun p got => delivered examples.decode p.1 p.2 got) (combine examples.messages examples.outcomes) gots.
Proof.
  exact (siem_records_are_faithful (H := examples.network) examples.decode examples.client examples.messages examples.env
    0%nat [] examples.outcomes examples.outcome.1.2 examples.outcome.2 examples.sent).
Defined.

(** The second connection breaks: its event is not read, what is behind the line
    end of the first stays in its field. *)
Example the_collector_reads_one : map is_ok examples.outcomes = [true; false; false; false] /\
  log_of examples.outcome.2 = [record_of (examples.event "1" examples.forged)].
Proof. split; vm_compute; reflexivity. Qed.
