(* ===== verification/Mail.v ===== *)
(** * Mail

    [internal/adapters/mailer]: the SMTP client, the envelope and the text of a
    message; [internal/adapters/notificationdelivery] and
    [internal/app/notification]: the handler of the messages that carry mail.

    The server is a parameter that answers each command at a tick; the state is
    the session: the commands in the order in which they were sent, each with
    what protects it. *)

From S2P Require Import Prelude GoString Crypto Strconv GoParse Database Messaging Siem.

Definition TLSModeStartTLS := "starttls".
Definition TLSModeImplicit := "implicit".
Definition defaultSMTPMaxRecipients : Z := 100.
Definition defaultSMTPMaxMessage : Z := 5 * 1024 * 1024.
Definition ErrSMTPTLSRequired : error := Sentinel "mailer.ErrSMTPTLSRequired".
Definition ErrSMTPTLSWeak : error := Sentinel "mailer.ErrSMTPTLSWeak".

Record SMTPConfig := mkSMTPConfig {
  sc_Address : string; sc_Username : string; sc_Password : string; sc_TLSConfig : option TLSConfig;
  sc_TLSMode : string; sc_MaxRecipients : Z; sc_MaxMessage : Z
}.

Record SMTPClient := mkSMTPClient {
  sm_address : string; sm_host : string; sm_username : string; sm_password : string; sm_tlsConfig : TLSConfig;
  sm_tlsMode : string; sm_maxRecipients : Z; sm_maxMessage : Z
}.

Definition NewSMTPClient (config : SMTPConfig) : result SMTPClient :=
  let address := TrimSpace (sc_Address config) in
  let invalid := Errorf "SMTP address must be host:port: %w" [] in
  match SplitHostPort address with
  | None => Err invalid
  | Some (host, _) =>
    if host =s "" then Err invalid
    else match sc_TLSConfig config with
    | None => Err ErrSMTPTLSRequired
    | Some tls =>
      if ((sc_Username config <>s "") && (sc_Password config =s "")) || ((sc_Username config =s "") && (sc_Password config <>s "")) then
        Err (Errorf "SMTP username and password must be provided together" [])
      else match strengthened host tls with
      | None => Err ErrSMTPTLSWeak
      | Some tls =>
        let mode := if sc_TLSMode config =s "" then TLSModeStartTLS else sc_TLSMode config in
        let recipients := if sc_MaxRecipients config =? 0 then defaultSMTPMaxRecipients else sc_MaxRecipients config in
        let message := if sc_MaxMessage config =? 0 then defaultSMTPMaxMessage else sc_MaxMessage config in
        if (mode <>s TLSModeStartTLS) && (mode <>s TLSModeImplicit) then Err (Errorf "unsupported SMTP TLS mode %q" [FStr mode])
        else if (recipients <? 1) || (10000 <? recipients) then
          Err (Errorf "SMTP max recipients must be between 1 and 10000" [])
        else if (message <? 1024) || (50 * 1024 * 1024 <? message) then
          Err (Errorf "SMTP max message must be between 1024 and 52428800 bytes" [])
        else Ok (mkSMTPClient address host (sc_Username config) (sc_Password config) tls mode recipients message)
      end
    end
  end.

(** ** Envelopes *)

Section envelopes.
(** [mail.ParseAddress], [None] for an error, and the [Address] of the result. *)
Context (ParseAddress : string -> option string).

Definition normalizeMailbox (value : string) : result string :=
  let value := TrimSpace value in
  if (value =s "") || ContainsAny value line_breaks then Err (Errorf "mailbox is empty or contains header control characters" [])
  else
    match ParseAddress value with
    | Some address =>
      if (address =s "") || ContainsAny address line_breaks then Err (Errorf "mailbox is not a valid address" []) else Ok address
    | None => Err (Errorf "mailbox is not a valid address" [])
    end.

Fixpoint normalize_recipients (l recipients : list string) : result (list string) :=
  match l with
  | [] => Ok recipients
  | raw :: rest =>
    match normalizeMailbox raw with
    | Err err => Err (Wrapf "invalid SMTP recipient: %w" [] err)
    | Ok recipient => normalize_recipients rest (if contains recipients recipient then recipients else recipients ++ [recipient])
    end
  end.

Definition normalizeEnvelope (message : EmailMessage) (maxRecipients : Z) : result (string * list string) :=
  match normalizeMailbox (em_From message) with
  | Err err => Err (Wrapf "invalid SMTP sender: %w" [] err)
  | Ok from =>
    if (llen (em_To message) =? 0) || (maxRecipients <? llen (em_To message)) then
      Err (Errorf "SMTP recipient count must be between 1 and %d" [FInt maxRecipients])
    else recipients ← normalize_recipients (em_To message) []; Ok (from, recipients)
  end.
End envelopes.

(** ** The text of a message *)

Definition cr : string := String carriage_return "".
Definition lf : string := String line_feed "".
Definition crlf : string := String carriage_return lf.

(** [mime.QEncoding.Encode("UTF-8", s)]. *)
Definition needs_encoding (s : string) : bool :=
  existsb (fun r => negb (in_range 32 126 (rune_val r)) && negb (rune_val r =? 9)) (runes s).
Definition q_plain (b : Z) : bool := in_range 32 126 b && negb (b =? 61) && negb (b =? 63) && negb (b =? 95).
Definition upper_hex (z : Z) : ascii := byte_of (if z <? 10 then 48 + z else 55 + z).
Definition q_byte (c : ascii) : string :=
  let b := byte_val c in
  if b =? 32 then "_" else if q_plain b then String c ""
  else String "=" (String (upper_hex (b / 16)) (String (upper_hex (b mod 16)) "")).
Definition q_string (s : string) : string := fold_right (fun c t => q_byte c +:+ t) "" (list_ascii_of_string s).
Definition open_word : string := "=?UTF-8?q?".
Definition close_word : string := "?=".
Definition max_content : Z := 63.
Fixpoint q_encode (l : list rune) (current : Z) : string :=
  match l with
  | [] => ""
  | r :: rest =>
    let size := if (slen (rune_bytes r) =? 1) && q_plain (rune_val r) then 1 else 3 * slen (rune_bytes r) in
    if max_content <? current + size then close_word +:+ " " +:+ open_word +:+ q_string (rune_bytes r) +:+ q_encode rest size
    else q_string (rune_bytes r) +:+ q_encode rest (current + size)
  end.
Definition QEncode (s : string) : string :=
  if needs_encoding s then open_word +:+ q_encode (runes s) 0 +:+ close_word else s.

Definition writeCRLFBody (value : string) : string :=
  ReplaceAll (ReplaceAll (ReplaceAll value crlf lf) cr lf) lf crlf.

Definition randomBoundary {S} : Database.M S string :=
  b ← attempt (rand_Read 12);
  match b with
  | Err err => fail (Wrapf "generate SMTP MIME boundary: %w" [] err)
  | Ok b => mret ("forge-" +:+ EncodeToString b)
  end.

Definition quoted (s : string) : string := String "034" "" +:+ s +:+ String "034" "".
Definition headers_of (from : string) (recipients : list string) (subject : string) : string :=
  "From: " +:+ from +:+ crlf +:+ "To: " +:+ Join recipients ", " +:+ crlf +:+ "Subject: " +:+ QEncode subject +:+ crlf +:+
  "MIME-Version: 1.0" +:+ crlf.
Definition part_header (kind : string) : string :=
  "Content-Type: text/" +:+ kind +:+ "; charset=utf-8" +:+ crlf +:+ "Content-Transfer-Encoding: 8bit" +:+ crlf +:+ crlf.

Definition buildMessage {S} (message : EmailMessage) (from : string) (recipients : list string) : Database.M S string :=
  _ ← guard_not ((TrimSpace (em_Subject message) =s "") || ContainsAny (em_Subject message) line_breaks)
        (Errorf "SMTP subject is required and must not contain header controls" []);
  _ ← guard_not ((em_TextBody message =s "") && (em_HTMLBody message =s "")) (Errorf "SMTP message requires a text or HTML body" []);
  let headers := headers_of from recipients (em_Subject message) in
  if em_HTMLBody message =s "" then mret (headers +:+ part_header "plain" +:+ writeCRLFBody (em_TextBody message))
  else
    boundary ← randomBoundary;
    mret (headers +:+ "Content-Type: multipart/alternative; boundary=" +:+ quoted boundary +:+ crlf +:+ crlf +:+
          "--" +:+ boundary +:+ crlf +:+ part_header "plain" +:+ writeCRLFBody (em_TextBody message) +:+
          crlf +:+ "--" +:+ boundary +:+ crlf +:+ part_header "html" +:+ writeCRLFBody (em_HTMLBody message) +:+
          crlf +:+ "--" +:+ boundary +:+ "--" +:+ crlf).

(** ** The session *)

(** What the client sends, and how the connection is dialled. *)
Inductive Command :=
| DIAL (address : string) (tls : option TLSConfig)
| GREETING
| EXTENSION (name : string)
| STARTTLS (tls : TLSConfig)
| AUTH (username password : string)
| MAIL (from : string)
| RCPT (to : string)
| DATA
| CONTENT (body : string)
| DONE
| QUIT.

(** The server refuses a command with an error; it advertises extensions. *)
Class Server := {
  answer_to : nat -> Command -> option error;
  advertises : nat -> string -> bool
}.

(** The commands with the configuration of TLS that they went through. *)
Record Session := mkSession { se_sent : list (Command * option TLSConfig); se_tls : option TLSConfig }.

Section session.
Context `{Server} (ParseAddress : string -> option string).

Definition sends (command : Command) : Database.M Session unit := fun _ n s =>
  (match answer_to n command with Some err => Err err | None => Ok tt end, S n,
   mkSession (se_sent s ++ [(command, se_tls s)]) (se_tls s)).
Definition wrapped {A} (format : string) (m : Database.M Session A) : Database.M Session A :=
  r ← attempt m; match r with Ok a => mret a | Err err => fail (Wrapf format [] err) end.
Definition secured (tls : TLSConfig) : Database.M Session unit := fun _ n s => (Ok tt, n, mkSession (se_sent s) (Some tls)).
Definition Extension (name : string) : Database.M Session bool := fun _ n s =>
  (Ok (advertises n name), S n, mkSession (se_sent s ++ [(EXTENSION name, se_tls s)]) (se_tls s)).

Definition smtp_dial (c : SMTPClient) : Database.M Session unit :=
  if sm_tlsMode c =s TLSModeImplicit then
    _ ← wrapped "dial implicit TLS SMTP: %w" (sends (DIAL (sm_address c) (Some (sm_tlsConfig c)))); secured (sm_tlsConfig c)
  else wrapped "dial SMTP: %w" (sends (DIAL (sm_address c) None)).

(** [client.Mail] and [client.Rcpt] refuse an address with a line break before
    they send anything. *)
Definition addressed (address : string) (command : Command) : Database.M Session unit :=
  _ ← guard_not (ContainsAny address line_breaks) (Errorf "smtp: A line must not contain CR or LF" []); sends command.

(** [smtp.PlainAuth] sends no password over a connection without TLS, except to
    the machine itself. *)
Definition local_host (name : string) : bool := contains ["localhost"; "127.0.0.1"; "::1"] name.
Definition plain_auth (c : SMTPClient) : Database.M Session unit := fun e n s =>
  match se_tls s with
  | None => if local_host (sm_host c) then sends (AUTH (sm_username c) (sm_password c)) e n s
            else fail (Errorf "unencrypted connection" []) e n s
  | Some _ => sends (AUTH (sm_username c) (sm_password c)) e n s
  end.

Definition start_tls (c : SMTPClient) : Database.M Session unit :=
  if sm_tlsMode c =s TLSModeStartTLS then
    supported ← Extension "STARTTLS";
    _ ← guard_not (negb supported) (Errorf "SMTP server does not advertise STARTTLS" []);
    _ ← wrapped "SMTP STARTTLS failed: %w" (sends (STARTTLS (sm_tlsConfig c)));
    secured (sm_tlsConfig c)
  else mret tt.

Definition authenticate (c : SMTPClient) : Database.M Session unit :=
  if sm_username c <>s "" then
    supported ← Extension "AUTH";
    _ ← guard_not (negb supported) (Errorf "SMTP server does not advertise AUTH" []);
    wrapped "SMTP authentication failed: %w" (plain_auth c)
  else mret tt.

(** From the dial on. *)
Definition converse (c : SMTPClient) (from : string) (recipients : list string) (body : string) : Database.M Session unit :=
  _ ← smtp_dial c;
  _ ← wrapped "create SMTP client: %w" (sends GREETING);
  _ ← start_tls c;
  _ ← authenticate c;
  _ ← wrapped "SMTP MAIL FROM failed: %w" (addressed from (MAIL from));
  _ ← forM recipients (fun recipient => wrapped "SMTP RCPT TO failed: %w" (addressed recipient (RCPT recipient)));
  _ ← wrapped "SMTP DATA failed: %w" (sends DATA);
  _ ← wrapped "write SMTP message: %w" (sends (CONTENT body));
  _ ← wrapped "finish SMTP message: %w" (sends DONE);
  wrapped "close SMTP session: %w" (sends QUIT).

Definition Send (c : SMTPClient) (message : EmailMessage) : Database.M Session unit :=
  envelope ← lift (normalizeEnvelope ParseAddress message (sm_maxRecipients c));
  let '(from, recipients) := (envelope : string * list string) in
  body ← buildMessage message from recipients;
  _ ← guard_not (sm_maxMessage c <? slen body) (Errorf "SMTP message exceeds %d bytes" [FInt (sm_maxMessage c)]);
  converse c from recipients body.

(** ** The handler of the messages *)

(** [json.Unmarshal] into a request, and [json.Marshal] of one. *)
Variable decode : string -> result EmailRequest.
Variable marshal : EmailRequest -> result string.

Definition DecodeEmailRequest (body : string) : result EmailRequest :=
  match decode body with
  | Err err => Err (Wrapf "decode notification email: %w" [] err)
  | Ok request => NewEmailRequest (erq_ID request) (erq_Message request)
  end.

Definition EncodeEmailRequest (request : EmailRequest) : result string :=
  validated ← NewEmailRequest (erq_ID request) (erq_Message request); marshal validated.

Definition email_Handle (c : SMTPClient) (m : Message) : Database.M Session unit :=
  if msg_Type m <>s EmailMessageType then fail (Errorf "unexpected notification message type %q" [FStr (msg_Type m)])
  else
    request ← lift (DecodeEmailRequest (msg_Body m));
    _ ← guard_not ((msg_ID m <>s "") && (erq_ID request <>s msg_ID m)) (Errorf "notification message ID does not match payload ID" []);
    Send c (erq_Message request).
End session.

(** ** What travels is protected *)

(** The commands that carry the credentials or a part of the mail, and those
    that deliver it. *)
Definition guarded (command : Command) : bool :=
  match command with AUTH _ _ | MAIL _ | RCPT _ | DATA | CONTENT _ => true | _ => false end.
Definition mailed (command : Command) : bool :=
  match command with MAIL _ | RCPT _ | DATA | CONTENT _ | DONE => true | _ => false end.
Definition mail_of (s : Session) : list Command := List.filter mailed (map fst (se_sent s)).

(** TLS that verifies the server and is not older than 1.2. *)
Definition verified_tls (t : TLSConfig) : Prop := tc_InsecureSkipVerify t = false /\ VersionTLS12 <= tc_MinVersion t.

Lemma strengthened_verified host config t : strengthened host config = Some t -> verified_tls t.
Proof.
  unfold strengthened. destruct (_ || _) eqn:E; [discriminate|]. intros [= <-]. breflect. unfold verified_tls. cbn. split; [done|lia].
Qed.

Lemma made_client config c : NewSMTPClient config = Ok c ->
  verified_tls (sm_tlsConfig c) /\ (sm_tlsMode c = TLSModeStartTLS \/ sm_tlsMode c = TLSModeImplicit) /\
  1 <= sm_maxRecipients c <= 10000 /\ 1024 <= sm_maxMessage c <= 50 * 1024 * 1024.
Proof.
  unfold NewSMTPClient. intros E. cases E.
  all: injection E as <-; cbn [sm_tlsConfig sm_tlsMode sm_maxRecipients sm_maxMessage].
  all: match goal with H : strengthened _ _ = Some _ |- _ => apply strengthened_verified in H end.
  all: unfold defaultSMTPMaxRecipients, defaultSMTPMaxMessage, TLSModeStartTLS, TLSModeImplicit in *; orsplit.
  all: split_and!; auto; lia || done.
Qed.

Section protected.
Context `{Server} (ParseAddress : string -> option string) (c : SMTPClient).

(** Nothing guarded has been sent without the TLS of the client. *)
Definition protected (s : Session) : Prop :=
  forall command t, (command, t) ∈ se_sent s -> guarded command = true -> t = Some (sm_tlsConfig c).
(** The protection of the connection and the mail so far. *)
Definition stage (t : option TLSConfig) (l : list Command) (s : Session) : Prop := se_tls s = t /\ mail_of s = l.
Abbreviation during P m Q := (spec protected P m (fun _ => Q)).

Lemma appended s command t' : protected s -> (guarded command = true -> se_tls s = Some (sm_tlsConfig c)) ->
  protected (mkSession (se_sent s ++ [(command, se_tls s)]) t') /\
  mail_of (mkSession (se_sent s ++ [(command, se_tls s)]) t') = mail_of s ++ (if mailed command then [command] else []).
Proof.
  intros I G. split.
  - intros x t X Gx. cbn in X. apply elem_of_app in X as [X|X]; [by eapply I|].
    apply list_elem_of_singleton in X as [= -> ->]. auto.
  - unfold mail_of. cbn [se_sent]. rewrite map_app, List.filter_app. cbn. by destruct (mailed command).
Qed.

Lemma during_sends t l command : (guarded command = true -> t = Some (sm_tlsConfig c)) ->
  during (stage t l) (sends command) (stage t (l ++ if mailed command then [command] else [])).
Proof.
  intros G e n s I [T L]. destruct (appended s command (se_tls s) I) as [A B]; [by rewrite T|].
  split; [exact A|]. unfold sends. intros a n' s' [= _ _ <-]. split; [done|]. rewrite B. by rewrite L.
Qed.

Lemma during_wrapped {A} P format (m : Database.M Session A) Q : spec protected P m Q -> spec protected P (wrapped format m) Q.
Proof.
  intros S e n s I Hs. destruct (S e n s I Hs) as [K W]. unfold wrapped, mbind, M_bind, attempt.
  destruct (m e n s) as [[[a|err] n1] s1]; (split; [exact K|]); [|done]. intros a' n' s' [= <- <- <-]. by eapply W.
Qed.

Lemma during_extension t l name : during (stage t l) (Extension name) (stage t l).
Proof.
  intros e n s I [T L]. destruct (appended s (EXTENSION name) (se_tls s) I) as [A B]; [done|].
  split; [exact A|]. unfold Extension. intros a n' s' [= _ _ <-]. split; [done|]. rewrite B. cbn. by rewrite app_nil_r.
Qed.

Lemma during_secured t l : during (stage t l) (secured (sm_tlsConfig c)) (stage (Some (sm_tlsConfig c)) l).
Proof. intros e n s I [T L]. split; [exact I|]. intros a n' s' E. unfold secured in E. by simplify_eq. Qed.

Lemma during_guard P b err : during P (guard_not b err) P.
Proof. eapply spec_weaken; [apply spec_guard|]. intros a s [? ?]. done. Qed.

Lemma during_addressed l address command : guarded command = true -> mailed command = true ->
  during (stage (Some (sm_tlsConfig c)) l) (addressed address command) (stage (Some (sm_tlsConfig c)) (l ++ [command])).
Proof.
  intros G D. unfold addressed. eapply spec_bind; [apply during_guard|]. intros [].
  eapply spec_weaken; [by apply (during_sends (Some (sm_tlsConfig c)) l)|]. cbn. intros _ s. by rewrite D.
Qed.

Lemma during_dial : during (stage None []) (smtp_dial c)
  (stage (if sm_tlsMode c =s TLSModeImplicit then Some (sm_tlsConfig c) else None) []).
Proof.
  unfold smtp_dial. apply spec_if; intros ->.
  - eapply spec_bind; [apply during_wrapped, (during_sends None []); done|]. intros []. apply (during_secured None []).
  - by apply during_wrapped, (during_sends None []).
Qed.

Lemma during_start_tls : sm_tlsMode c = TLSModeStartTLS \/ sm_tlsMode c = TLSModeImplicit ->
  during (stage (if sm_tlsMode c =s TLSModeImplicit then Some (sm_tlsConfig c) else None) []) (start_tls c)
    (stage (Some (sm_tlsConfig c)) []).
Proof.
  intros [E|E]; unfold start_tls; rewrite E; [|by apply spec_ret].
  eapply spec_bind; [apply (during_extension None [])|]. intros supported.
  eapply spec_bind; [apply during_guard|]. intros [].
  eapply spec_bind; [apply during_wrapped, (during_sends None []); done|]. intros []. apply (during_secured None []).
Qed.

Lemma during_authenticate : during (stage (Some (sm_tlsConfig c)) []) (authenticate c) (stage (Some (sm_tlsConfig c)) []).
Proof.
  unfold authenticate. apply spec_if; intros _; [|by apply spec_ret].
  eapply spec_bind; [apply (during_extension _ [])|]. intros supported.
  eapply spec_bind; [apply during_guard|]. intros []. apply during_wrapped.
  intros e n s I [T L]. unfold plain_auth. rewrite T. by apply (during_sends (Some (sm_tlsConfig c)) []).
Qed.

Lemma during_recipients from recipients : during (stage (Some (sm_tlsConfig c)) [MAIL from])
  (forM recipients (fun r => wrapped "SMTP RCPT TO failed: %w" (addressed r (RCPT r))))
  (stage (Some (sm_tlsConfig c)) (MAIL from :: map RCPT recipients)).
Proof.
  pose proof (spec_forM protected (fun rest s => exists done, recipients = done ++ rest /\
    stage (Some (sm_tlsConfig c)) (MAIL from :: map RCPT done) s) recipients
    (fun r => wrapped "SMTP RCPT TO failed: %w" (addressed r (RCPT r)))) as X.
  eapply spec_conseq; [apply X| |].
  - intros r rest e n s I (sent & E & G).
    destruct (during_wrapped _ "SMTP RCPT TO failed: %w" _ _ (during_addressed (MAIL from :: map RCPT sent) r (RCPT r) eq_refl eq_refl) e n s I G)
      as [A B]. split; [exact A|]. intros a n' s' Ok. exists (sent ++ [r]). rewrite <- app_assoc. split; [done|].
    rewrite map_app. by apply (B a n' s').
  - intros s _ G. by exists [].
  - intros _ s (sent & E & G). rewrite app_nil_r in E. by subst sent.
Qed.

Lemma recipients_once l : forall out recipients, NoDup out -> Forall (fun r => ContainsAny r line_breaks = false) out ->
  normalize_recipients ParseAddress l out = Ok recipients ->
  NoDup recipients /\ Forall (fun r => ContainsAny r line_breaks = false) recipients /\ (length recipients <= length out + length l)%nat /\
  (l <> [] \/ out <> [] -> recipients <> []).
Proof.
  induction l as [|raw l IH]; intros out recipients N F E; cbn in E.
  { injection E as <-. split_and!; [done|done|lia|tauto]. }
  destruct (normalizeMailbox ParseAddress raw) as [r|err] eqn:M; [|discriminate].
  apply IH in E.
  - destruct E as (? & ? & L & X). split_and!; [done|done| |].
    + destruct (contains out r); [|rewrite length_app in L; cbn in L]; cbn; lia.
    + intros _. apply X. right. destruct (contains out r) eqn:C; [|by destruct out]. by intros ->.
  - destruct (contains out r) eqn:C; [done|]. apply contains_false in C. apply NoDup_app. split_and!; [done| |apply NoDup_singleton].
    intros x X ->%list_elem_of_singleton. done.
  - destruct (contains out r); [done|]. apply Forall_app. split; [done|]. constructor; [|by constructor].
    unfold normalizeMailbox in M. cases M. injection M as <-. by breflect.
Qed.

Lemma normalized message maximum from recipients : normalizeEnvelope ParseAddress message maximum = Ok (from, recipients) ->
  ContainsAny from line_breaks = false /\ NoDup recipients /\ Forall (fun r => ContainsAny r line_breaks = false) recipients /\
  1 <= llen recipients <= maximum.
Proof.
  unfold normalizeEnvelope. intros E. destruct (normalizeMailbox _ _) as [f|] eqn:M; [|discriminate].
  destruct (_ || _) eqn:B; [discriminate|]. apply result_bind_ok in E as (l & R & [= <- <-]).
  apply recipients_once in R as (N & F & L & X); [|constructor|by constructor]. breflect.
  split_and!; [|done|done| |].
  - unfold normalizeMailbox in M. cases M. injection M as <-. by breflect.
  - destruct l; [exfalso|rewrite llen_cons; pose proof (llen_nonneg l); lia]. apply X; [|done]. left. intros Z0. rewrite Z0, llen_nil in *. lia.
  - unfold llen in *. cbn in L. lia.
Qed.

Lemma during_converse from recipients body : sm_tlsMode c = TLSModeStartTLS \/ sm_tlsMode c = TLSModeImplicit ->
  during (stage None []) (converse c from recipients body)
    (stage (Some (sm_tlsConfig c)) (MAIL from :: map RCPT recipients ++ [DATA; CONTENT body; DONE])).
Proof.
  intros T. unfold converse. eapply spec_bind; [apply during_dial|]. intros [].
  eapply spec_bind; [by apply during_wrapped, (during_sends _ [])|]. intros []. cbn [app mailed].
  eapply spec_bind; [by apply during_start_tls|]. intros []. eapply spec_bind; [apply during_authenticate|]. intros [].
  eapply spec_bind; [by apply during_wrapped, (during_addressed [])|]. intros []. cbn [app].
  eapply spec_bind; [apply during_recipients|]. intros [].
  do 3 (eapply spec_bind; [by apply during_wrapped, during_sends|]; intros []).
  eapply spec_weaken; [by apply during_wrapped, during_sends|]. cbn [mailed app]. intros _ s.
  rewrite app_nil_r, <- !app_assoc. done.
Qed.

Lemma build_keeps {S} message from recipients env n (s : S) r n' s' :
  buildMessage message from recipients env n s = (r, n', s') -> s' = s.
Proof.
  assert (K : reads (S := S) (buildMessage message from recipients)).
  { apply keeps_reads. intros t. unfold buildMessage, randomBoundary. keeps_walk. }
  intros E. specialize (K env n s). by rewrite E in K.
Qed.

End protected.

(** ** What the recipient reads

    The lines between CR LF, and the lines of a text with any line ends. *)

Definition add_char (c : ascii) (l : list string) : list string :=
  match l with first :: others => String c first :: others | [] => [String c ""] end.
Fixpoint crlf_lines (s : string) : list string :=
  match s with
  | EmptyString => [""]
  | String c rest =>
    match rest with
    | String d rest' =>
      if Ascii.eqb c carriage_return && Ascii.eqb d line_feed then "" :: crlf_lines rest' else add_char c (crlf_lines rest)
    | EmptyString => [String c ""]
    end
  end.
Fixpoint text_lines (s : string) : list string :=
  match s with
  | EmptyString => [""]
  | String c rest =>
    if Ascii.eqb c carriage_return then
      match rest with
      | String d rest' => if Ascii.eqb d line_feed then "" :: text_lines rest' else "" :: text_lines rest
      | EmptyString => ["" ; ""]
      end
    else if Ascii.eqb c line_feed then "" :: text_lines rest
    else add_char c (text_lines rest)
  end.

(** *** Replacement *)

Fixpoint unify_lines (s : string) : string :=
  match s with
  | EmptyString => ""
  | String c rest =>
    match rest with
    | String d rest' => if Ascii.eqb c carriage_return && Ascii.eqb d line_feed then String line_feed (unify_lines rest') else String c (unify_lines rest)
    | EmptyString => String c ""
    end
  end.
Fixpoint subst_byte (old : ascii) (new s : string) : string :=
  match s with
  | EmptyString => ""
  | String c rest => if Ascii.eqb c old then new +:+ subst_byte old new rest else String c (subst_byte old new rest)
  end.

Lemma HasPrefix_empty s : HasPrefix s "" = true.
Proof. by destruct s. Qed.

Lemma replace_all_byte fuel : forall s c new, (String.length s <= fuel)%nat -> replace_all fuel s (String c "") new = subst_byte c new s.
Proof.
  induction fuel as [|fuel IH]; intros [|d s] c new L; cbn in L; try lia; [done..|].
  cbn [replace_all HasPrefix subst_byte sdrop String.length]. destruct (Ascii.eqb_spec c d) as [->|N].
  - rewrite Ascii.eqb_refl, HasPrefix_empty. cbn. f_equal. apply IH. lia.
  - destruct (Ascii.eqb_spec d c); [congruence|]. cbn. f_equal. apply IH. lia.
Qed.

Lemma replace_all_crlf fuel : forall s, (String.length s <= fuel)%nat -> replace_all fuel s crlf lf = unify_lines s.
Proof.
  induction fuel as [|fuel IH]; intros [|c [|d s]] L; cbn in L; try lia; try done.
  - unfold crlf, lf. cbn [replace_all HasPrefix]. destruct (Ascii.eqb carriage_return c); by destruct fuel.
  - cbn [replace_all unify_lines]. unfold crlf at 1, lf at 1. cbn [HasPrefix].
    rewrite (Ascii.eqb_sym carriage_return), (Ascii.eqb_sym line_feed), HasPrefix_empty, andb_true_r.
    destruct (Ascii.eqb c carriage_return && Ascii.eqb d line_feed).
    + change (lf +:+ replace_all fuel s crlf lf = String line_feed (unify_lines s)). rewrite IH by lia. done.
    + f_equal. apply IH. cbn. lia.
Qed.

(** *** Lines *)

Lemma string_two_ind (P : string -> Prop) : P "" -> (forall c, P (String c "")) ->
  (forall c d s, P s -> P (String d s) -> P (String c (String d s))) -> forall s, P s.
Proof.
  intros H0 H1 H2 s. assert (P s /\ forall c, P (String c s)) as [? _]; [|done].
  induction s as [|d s [I J]]; auto.
Qed.

Lemma crlf_lines_break t : crlf_lines (crlf +:+ t) = "" :: crlf_lines t.
Proof. reflexivity. Qed.

Lemma crlf_lines_char c t : c <> carriage_return -> crlf_lines (String c t) = add_char c (crlf_lines t).
Proof. intros N. destruct t as [|d t]; [done|]. cbn [crlf_lines]. by rewrite (proj2 (Ascii.eqb_neq _ _) N). Qed.

Lemma crlf_lines_some s : exists first others, crlf_lines s = first :: others.
Proof.
  induction s as [| |c d s _ (f & o & E)] using string_two_ind; cbn [crlf_lines] in *; [by eexists _, _..|].
  destruct (_ && _); [by eexists _, _|]. rewrite E. by eexists _, _.
Qed.

Lemma crlf_lines_app w t : crlf_lines (w +:+ crlf +:+ t) = crlf_lines w ++ crlf_lines t.
Proof.
  induction w as [|c|c d w IH1 IH2] using string_two_ind.
  - rewrite append_nil. apply crlf_lines_break.
  - change (String c "" +:+ crlf +:+ t) with (String c (String carriage_return (String line_feed t))). cbn [crlf_lines].
    rewrite (Ascii.eqb_refl carriage_return), (Ascii.eqb_refl line_feed), andb_comm. done.
  - rewrite !append_cons in *. cbn [crlf_lines] in *. destruct (_ && _); [by rewrite IH1|]. rewrite IH2.
    destruct (crlf_lines_some (String d w)) as (f & o & E). cbn [crlf_lines] in E. by rewrite E.
Qed.

Definition one_line (s : string) : Prop := ContainsAny s line_breaks = false.

Lemma one_line_cons c s : one_line (String c s) -> c <> carriage_return /\ c <> line_feed /\ one_line s.
Proof.
  unfold one_line, line_breaks. cbn [ContainsAny IndexByte].
  destruct (Ascii.eqb_spec (ascii_of_nat 13) c) as [|N1]; [done|]. destruct (Ascii.eqb_spec (ascii_of_nat 10) c) as [|N2]; [done|].
  intros E. split_and!; [by intros ->|by intros ->|exact E].
Qed.

Lemma crlf_lines_one s : one_line s -> crlf_lines s = [s].
Proof.
  induction s as [|c s IH]; intros O; [done|]. apply one_line_cons in O as (N & _ & O).
  rewrite crlf_lines_char by done. by rewrite IH.
Qed.

Lemma crlf_lines_line a t : one_line a -> crlf_lines (a +:+ crlf +:+ t) = a :: crlf_lines t.
Proof. intros O. by rewrite crlf_lines_app, crlf_lines_one. Qed.

(** The text of a part is written with CR LF at the ends of its lines. *)
Lemma body_lines v : crlf_lines (writeCRLFBody v) = text_lines v.
Proof.
  unfold writeCRLFBody, ReplaceAll. rewrite replace_all_crlf by done. unfold cr, lf. rewrite !replace_all_byte by done.
  assert (Ascii.eqb line_feed carriage_return = false) as LC by done.
  induction v as [|c|c d v IH1 IH2] using string_two_ind; [done| |].
  - cbn [unify_lines text_lines subst_byte]. destruct (Ascii.eqb_spec c carriage_return) as [->|N]; [done|].
    cbn [subst_byte]. destruct (Ascii.eqb_spec c line_feed) as [->|N']; [done|]. by rewrite crlf_lines_char.
  - remember (String d v) as w eqn:W. assert (unify_lines (String c w) =
      if Ascii.eqb c carriage_return && Ascii.eqb d line_feed then String line_feed (unify_lines v) else String c (unify_lines w)) as U
      by (by subst w).
    assert (text_lines (String c w) = if Ascii.eqb c carriage_return then "" :: (if Ascii.eqb d line_feed then text_lines v else text_lines w)
      else if Ascii.eqb c line_feed then "" :: text_lines w else add_char c (text_lines w)) as T.
    { subst w. cbn [text_lines]. by destruct (Ascii.eqb c carriage_return), (Ascii.eqb d line_feed). }
    rewrite U, T. destruct (Ascii.eqb_spec c carriage_return) as [->|N]; cbn [andb].
    + destruct (Ascii.eqb_spec d line_feed) as [->|N']; cbn [subst_byte]; rewrite ?LC, ?Ascii.eqb_refl, ?append_cons, ?append_nil;
        cbn [subst_byte]; rewrite Ascii.eqb_refl, crlf_lines_break; congruence.
    + cbn [subst_byte]. rewrite (proj2 (Ascii.eqb_neq _ _) N). cbn [subst_byte].
      destruct (Ascii.eqb_spec c line_feed) as [->|N']; [rewrite crlf_lines_break|rewrite crlf_lines_char by done]; congruence.
Qed.

Lemma one_line_app s t : one_line s -> one_line t -> one_line (s +:+ t).
Proof.
  intros S T. induction s as [|c s IH]; [done|]. pose proof (one_line_cons _ _ S) as (_ & _ & S').
  unfold one_line in *. rewrite append_cons. cbn [ContainsAny] in *. destruct (IndexByte line_breaks c); auto.
Qed.

Lemma one_line_join l sep : one_line sep -> Forall one_line l -> one_line (Join l sep).
Proof.
  intros S F. induction F as [|x l X F IH]; [done|]. destruct l as [|y l]; [done|].
  change (one_line (x +:+ sep +:+ Join (y :: l) sep)). by repeat apply one_line_app.
Qed.

Lemma q_string_line s : one_line (q_string s).
Proof.
  induction s as [|c s IH]; [done|]. change (one_line (q_byte c +:+ q_string s)). apply one_line_app; [|done].
  by destruct c as [[] [] [] [] [] [] [] []].
Qed.

Lemma q_encode_line l : forall current, one_line (q_encode l current).
Proof.
  induction l as [|r l IH]; intros current; [done|]. cbn [q_encode].
  destruct (max_content <? _); repeat first [apply one_line_app | apply q_string_line | apply IH | done].
Qed.

Lemma QEncode_line s : one_line s -> one_line (QEncode s).
Proof.
  intros S. unfold QEncode. destruct (needs_encoding s); [|done].
  repeat first [apply one_line_app | apply q_encode_line | done].
Qed.

Lemma hex_line s : one_line (EncodeToString s).
Proof. induction s as [|c s IH]; [done|]. revert IH. by destruct c as [[] [] [] [] [] [] [] []]. Qed.

Definition header_lines (from : string) (recipients : list string) (subject : string) : list string :=
  ["From: " +:+ from; "To: " +:+ Join recipients ", "; "Subject: " +:+ QEncode subject; "MIME-Version: 1.0"].
Definition part_lines (kind text : string) : list string :=
  ["Content-Type: text/" +:+ kind +:+ "; charset=utf-8"; "Content-Transfer-Encoding: 8bit"; ""] ++ text_lines text.
Definition message_lines (message : EmailMessage) (boundary : string) : list string :=
  if em_HTMLBody message =s "" then part_lines "plain" (em_TextBody message)
  else ["Content-Type: multipart/alternative; boundary=" +:+ quoted boundary; ""; "--" +:+ boundary] ++
       part_lines "plain" (em_TextBody message) ++ ["--" +:+ boundary] ++ part_lines "html" (em_HTMLBody message) ++
       ["--" +:+ boundary +:+ "--"; ""].

Lemma headers_lines from recipients subject t : one_line from -> Forall one_line recipients -> one_line subject ->
  crlf_lines (headers_of from recipients subject +:+ t) = header_lines from recipients subject ++ crlf_lines t.
Proof.
  intros F R S. unfold header_lines.
  replace (headers_of from recipients subject +:+ t) with (("From: " +:+ from) +:+ crlf +:+ ("To: " +:+ Join recipients ", ") +:+ crlf +:+
    ("Subject: " +:+ QEncode subject) +:+ crlf +:+ "MIME-Version: 1.0" +:+ crlf +:+ t) by (unfold headers_of; by rewrite !append_assoc).
  rewrite !crlf_lines_line; [done|..]; repeat first [apply one_line_app | apply one_line_join | apply QEncode_line | done].
Qed.

Lemma part_header_lines kind t : one_line kind ->
  crlf_lines (part_header kind +:+ t) = ["Content-Type: text/" +:+ kind +:+ "; charset=utf-8"; "Content-Transfer-Encoding: 8bit"; ""] ++ crlf_lines t.
Proof.
  intros K. unfold part_header. rewrite !append_assoc. rewrite <- (append_assoc kind), <- (append_assoc "Content-Type: text/").
  rewrite !crlf_lines_line; [|done|repeat apply one_line_app; done]. by rewrite crlf_lines_break.
Qed.

Lemma quoted_line s : one_line s -> one_line (quoted s).
Proof. intros O. unfold quoted. by repeat apply one_line_app. Qed.

Lemma multipart_lines b text html : one_line b ->
  crlf_lines ("Content-Type: multipart/alternative; boundary=" +:+ quoted b +:+ crlf +:+ crlf +:+ "--" +:+ b +:+ crlf +:+
    part_header "plain" +:+ writeCRLFBody text +:+ crlf +:+ "--" +:+ b +:+ crlf +:+
    part_header "html" +:+ writeCRLFBody html +:+ crlf +:+ "--" +:+ b +:+ "--" +:+ crlf) =
  ["Content-Type: multipart/alternative; boundary=" +:+ quoted b; ""; "--" +:+ b] ++ part_lines "plain" text ++
  ["--" +:+ b] ++ part_lines "html" html ++ ["--" +:+ b +:+ "--"; ""].
Proof.
  intros O. set (kind := "Content-Type: multipart/alternative; boundary="). assert (one_line kind) as K by done. clearbody kind.
  rewrite <- (append_assoc kind), crlf_lines_line by (apply one_line_app; [done|by apply quoted_line]).
  rewrite crlf_lines_break, <- (append_assoc "--" b), crlf_lines_line by by apply one_line_app.
  rewrite part_header_lines, crlf_lines_app, body_lines by done.
  rewrite <- (append_assoc "--" b), crlf_lines_line by by apply one_line_app. rewrite part_header_lines, crlf_lines_app, body_lines by done.
  rewrite <- (append_nil_r crlf) at 1. rewrite <- (append_assoc b), <- (append_assoc "--"), crlf_lines_line by by repeat apply one_line_app.
  unfold part_lines. by rewrite <- !app_assoc.
Qed.

(** The text of a message reads as it was written, and nothing in it becomes
    a header: in the lines of what is sent for an envelope that was accepted, the
    sender, the recipients and the encoded subject have the line of their header
    each, whatever they contain, and behind the headers are the lines of the text
    and of the HTML body, with every kind of line end, in their parts. *)
Theorem messages_read_as_written {S} ParseAddress message maximum from recipients env n (s : S) body n' s' :
  normalizeEnvelope ParseAddress message maximum = Ok (from, recipients) ->
  buildMessage message from recipients env n s = (Ok body, n', s') ->
  exists boundary, crlf_lines body = header_lines from recipients (em_Subject message) ++ message_lines message boundary.
Proof.
  intros E B. apply normalized in E as (F & _ & R & _). unfold buildMessage in B. run. breflect.
  assert (one_line (em_Subject message)) as X by done. unfold message_lines.
  destruct (em_HTMLBody message =s "") eqn:Html; run.
  - exists "". rewrite headers_lines, part_header_lines, body_lines by done. done.
  - unfold randomBoundary in *. run. destruct x1; run. eexists. rewrite headers_lines, multipart_lines; [done|..]; try done.
    apply one_line_app; [done|apply hex_line].
Qed.

(** ** Witnesses *)

Module examples.
Definition parse_address (value : string) : option string := if has_byte "@" value then Some value else None.
Definition server : Server := {| answer_to := fun _ _ => None; advertises := fun _ _ => true |}.
Definition env : Env := mkEnv (fun n => Z.of_nat n) (fun n => Itoa (Z.of_nat n)) (fun _ => None) (fun _ _ => zero) false.
Definition config : SMTPConfig := mkSMTPConfig "mail.example:587" "forge" "secret" (Some (mkTLS 0 false "")) "" 0 0.
Definition client : SMTPClient := mkSMTPClient "mail.example:587" "mail.example" "forge" "secret" (mkTLS VersionTLS12 false "mail.example")
  TLSModeStartTLS 100 (5 * 1024 * 1024).
Definition two_lines : string := "one" +:+ lf +:+ "From: root@example" +:+ cr +:+ "three".
Definition mail : EmailMessage := mkEmail "m1" "forge@example" ["a@example"; "b@example"; "a@example"] "Caf\0233" two_lines "<p>".
Definition sent := Send (H := server) parse_address client mail env 0%nat (mkSession [] None).
Definition built := buildMessage mail "forge@example" ["a@example"; "b@example"] env 0%nat tt.
Definition text : string := match built.1.1 with Ok b => b | Err _ => "" end.
Lemma client_made : NewSMTPClient config = Ok client.
Proof. vm_compute. reflexivity. Qed.
Lemma sent_ok : sent = (Ok tt, sent.1.2, sent.2).
Proof. vm_compute. reflexivity. Qed.
Lemma accepted_envelope : normalizeEnvelope parse_address mail 100 = Ok ("forge@example", ["a@example"; "b@example"]).
Proof. vm_compute. reflexivity. Qed.
Lemma built_ok : built = (Ok text, built.1.2, built.2).
Proof. vm_compute. reflexivity. Qed.
End examples.


Lemma messages_read_as_written_witness : exists boundary, crlf_lines examples.text =
  header_lines "forge@example" ["a@example"; "b@example"] (em_Subject examples.mail) ++ message_lines examples.mail boundary.
Proof.
  exact (messages_read_as_written examples.parse_address examples.mail 100 "forge@example" ["a@example"; "b@example"] examples.env 0%nat tt
    examples.text examples.built.1.2 examples.built.2 examples.accepted_envelope examples.built_ok).
Defined.

(** The session of that mail, and its subject. *)
Example a_session : map (fun p => (guarded p.1, bool_decide (p.2 = None))) (se_sent examples.sent.2) =
  [(false, true); (false, true); (false, true); (false, true); (false, false); (true, false); (true, false); (true, false);
   (true, false); (true, false); (true, false); (false, false); (false, false)].
Proof. vm_compute. reflexivity. Qed.
Example an_encoded_subject : QEncode ("Caf" +:+ encode_rune 233 +:+ " = open?") = "=?UTF-8?q?Caf=C3=A9_=3D_open=3F?=".
Proof. vm_compute. reflexivity. Qed.
