(* ===== verification/Archive.v ===== *)
(** * The audit archive on an object store

    [internal/adapters/auditarchive]: the archive that [internal/app/audit]
    expects, on the immutable objects of [Storage]. *)

From S2P Require Import Prelude GoString GoTime Crypto Json Strconv GoParse Database Keyring AuditLog Storage.

(** [Format("20060102T150405Z")]. *)
Definition compact_time (t : Time) : string :=
  let secs := t / Second in let days := secs / 86400 in let s := secs mod 86400 in
  let '(y, yd) := year_day days in
  let '(m, d) := month_day (month_lengths (y + 1)) 1 yd in
  pad 4 (y + 1) +:+ pad 2 m +:+ pad 2 (d + 1) +:+ "T" +:+ pad 2 (s / 3600) +:+ pad 2 (s / 60 mod 60) +:+ pad 2 (s mod 60) +:+ "Z".

Example compact_epoch : compact_time (unixEpoch + 1709210096 * Second) = "20240229T123456Z".
Proof. vm_compute. reflexivity. Qed.

Section archive.
Context (respond : Request -> Env -> nat -> result Response) (contract : CapabilityContract).

(** The prefix of the archive; [immutable] tells whether the store retains
    objects. *)
Definition NewS3Archive (immutable : bool) (prefix : string) : result string :=
  if negb immutable then Err (Errorf "storage provider does not expose immutable object retention" [])
  else
    let prefix := Trim (TrimSpace prefix) "/" in
    Ok (if prefix <>s "" then prefix +:+ "/" else prefix).

Variables (prefix provider : string).

Definition archive_key (at_ : Time) (id : string) : string := prefix +:+ "audit/" +:+ compact_time (UTC at_) +:+ "-" +:+ id +:+ ".json".

Definition Archive (events : list AuditLog.Event) (retainUntil : Time) : Database.M (list Request) ArchiveReceipt :=
  _ ← guard_not (llen events =? 0) (Errorf "audit archive batch is empty" []);
  let payload := Marshal (JArr (map event_json events)) in
  let digest := DigestEvents events in
  at_ ← now;
  id ← NewString;
  receipt ← PutImmutable respond contract (archive_key at_ id) payload retainUntil;
  archived ← now;
  mret (AuditLog.mkReceipt provider (ir_Key receipt) (ir_VersionID receipt) digest (llen events) (UTC archived) (ir_RetainUntil receipt)).

Definition archive_Verify (receipt : ArchiveReceipt) : Database.M (list Request) unit :=
  VerifyImmutable respond contract (mkImmutable (rc_ObjectKey receipt) (rc_VersionID receipt) (rc_ContentHash receipt) (rc_ImmutableUntil receipt)).

(** ** The contract of the audit log *)

(** What a put of the immutable object asks the target for. *)
Definition archived (key payload : string) (until : Time) : Request :=
  PutObject (mkPut key payload (Some "application/json") (Some (StdEncoding (Sum256 payload))) None None (Some Compliance) (Some until) false).

Lemma put_immutable key payload until env n sent receipt n' sent' :
  PutImmutable respond contract key payload until env n sent = (Ok receipt, n', sent') ->
  exists version, receipt = mkImmutable key version (Sum256hex payload) until /\ version <> "" /\ until <> 0 /\
    RequireTargetTestedCapabilities (Some contract) immutable_capabilities = Ok tt /\ sent' = sent ++ [archived key payload until].
Proof.
  intros E. unfold PutImmutable, tested, send in E. run. repeat match goal with u : unit |- _ => destruct u end.
  match goal with A : (_, _, _) = (?r, _, _) |- _ => injection A as <- <- <- end.
  destruct (respond _ _ _) as [out|err]; [|run]. destruct (rp_VersionId out) as [v|]; [|run].
  destruct (v =s "") eqn:V; run. breflect. by exists v.
Qed.

(** The proof that the target gives for an object. *)
Definition proves (key version payload : string) (until : Time) (reply : result Response) : Prop :=
  exists out kept, reply = Ok out /\ rp_ObjectLockMode out = Some Compliance /\ rp_RetainUntil out = Some kept /\ until <= kept /\
    rp_ChecksumSHA256 out = Some (StdEncoding (Sum256 payload)).

Lemma verify_immutable key version payload until env n sent : key <> "" -> version <> "" -> until <> 0 ->
  RequireTargetTestedCapabilities (Some contract) immutable_capabilities = Ok tt ->
  (VerifyImmutable respond contract (mkImmutable key version (Sum256hex payload) until) env n sent).1.1 = Ok tt <->
  proves key version payload until (respond (HeadObject key version) env n).
Proof.
  intros K V U T. unfold VerifyImmutable, tested, send, proves. cbn [ir_Key ir_VersionID ir_SHA256 ir_RetainUntil].
  pose proof (Sum256hex_length payload) as L. assert (Sum256hex payload <> "") as H by (intros Z0; by rewrite Z0 in L).
  assert (DecodeString (Sum256hex payload) = Some (Sum256 payload)) as D by apply DecodeString_EncodeToString.
  rewrite !seqb_neq by done. unfold IsZero. rewrite (proj2 (Z.eqb_neq until 0)) by done.
  cbn [orb]. unfold mbind, M_bind, guard_not, mret, M_ret, lift, attempt. rewrite T.
  destruct (respond (HeadObject key version) env n) as [out|err]; cbn [fst snd].
  2: { split; [done|]. intros (out & ? & ? & _). done. }
  destruct (rp_ObjectLockMode out) as [[]|] eqn:Mode; destruct (rp_RetainUntil out) as [kept|] eqn:R;
    try (split; [done|intros (out' & kept' & [= <-] & ? & ? & _); congruence]).
  rewrite D. unfold Before. destruct (kept <? until) eqn:B; breflect; cbn [fst snd].
  { split; [done|]. intros (out' & kept' & [= <-] & _ & R' & Le & _). rewrite R in R'. injection R' as <-. lia. }
  destruct (rp_ChecksumSHA256 out) as [checksum|] eqn:C; cbn [fst snd].
  2: { split; [done|]. intros (out' & kept' & [= <-] & _ & _ & _ & C'). congruence. }
  destruct (String.eqb_spec (StdEncoding (Sum256 payload)) checksum) as [E|N]; cbn [negb fst snd].
  - split; [|done]. intros _. exists out, kept. rewrite C, E. done.
  - split; [done|]. intros (out' & kept' & [= <-] & _ & _ & _ & C'). congruence.
Qed.

(** C36. The archive is what the audit log expects of one: the receipt of a batch
    that was archived passes the audit log's check at every instant before the end
    of its retention; the only thing sent is a put, under the key of the receipt,
    of the whole batch with its digest, in compliance mode until that instant; and
    whenever the receipt is verified, the answer is yes exactly when the target
    then proves that this version is kept in compliance mode at least that long and
    has that digest. *)
Theorem archive_meets_its_contract events until env n sent receipt n' sent' : provider <> "" ->
  Archive events until env n sent = (Ok receipt, n', sent') ->
  (forall at_, at_ < until -> ValidateArchiveReceipt events receipt at_ = Ok tt) /\
  sent' = sent ++ [archived (rc_ObjectKey receipt) (Marshal (JArr (map event_json events))) until] /\
  (forall later k before, (archive_Verify receipt later k before).1.1 = Ok tt <->
     proves (rc_ObjectKey receipt) (rc_VersionID receipt) (Marshal (JArr (map event_json events))) until
       (respond (HeadObject (rc_ObjectKey receipt) (rc_VersionID receipt)) later k)).
Proof.
  intros P E. unfold Archive in E. run. match goal with H : PutImmutable _ _ _ _ _ _ _ _ = _ |- _ =>
    apply put_immutable in H as (version & -> & V & U & T & ->) end.
  cbn [ir_Key ir_VersionID ir_RetainUntil rc_ObjectKey rc_VersionID].
  match goal with |- context [archived (archive_key ?a ?i)] => set (key := archive_key a i) end.
  assert (key <> "") as K.
  { unfold key, archive_key. intros X. apply (f_equal slen) in X. rewrite !slen_append in X. unfold slen in X. cbn in X. lia. }
  split_and!; [|done|].
  - intros at_ L. unfold ValidateArchiveReceipt. cbn [rc_Provider rc_ObjectKey rc_VersionID rc_ContentHash rc_EventCount rc_ImmutableUntil].
    pose proof (Sum256hex_length (Marshal (JArr (map event_json events)))) as D. fold (DigestEvents events) in D.
    rewrite seqb_refl, Z.eqb_refl, !seqb_neq; [|by intros Z0; rewrite Z0 in D|done..]. cbn [orb negb].
    unfold IsZero, After. rewrite (proj2 (Z.eqb_neq _ _)), (proj2 (Z.ltb_lt _ _)) by done. done.
  - intros later k before. unfold archive_Verify. cbn [rc_ContentHash rc_ImmutableUntil rc_ObjectKey rc_VersionID].
    by apply verify_immutable.
Qed.
End archive.

(** ** Witnesses *)

Module examples.
Definition event : AuditLog.Event :=
  AuditLog.mkEvent "a1" unixEpoch "req-1" "org" "u1" "Root" "role.update" "role" "r1" "SUCCESS" "10.0.0.1" JNull 1 "" "ff".
Definition payload : string := Marshal (JArr [event_json event]).
(** A target that keeps the date of a retention in milliseconds, the format of
    the header that the AWS SDK sends. *)
Definition milliseconds (t : Time) : Time := t / Millisecond * Millisecond.
Definition target (until : Time) (r : Request) (e : Env) (n : nat) : result Response :=
  match r with
  | PutObject _ => Ok (mkResponse (Some "v1") None None None None None "" "" "")
  | _ => Ok (mkResponse None None (Some (StdEncoding (Sum256 payload))) None (Some Compliance) (Some (milliseconds until)) "" "" "")
  end.
Definition contract : CapabilityContract := Storage.examples.contract.
Definition env : Env := mkEnv (fun n => unixEpoch + Z.of_nat n) (fun n => "id") (fun _ => None) (fun _ _ => zero) false.
Definition until : Time := unixEpoch + 365 * 24 * Hour.
Definition stored (until : Time) := Archive (target until) contract "logs/" "minio" [event] until env 0%nat [].
Definition receipt (until : Time) : ArchiveReceipt :=
  match (stored until).1.1 with Ok r => r | Err _ => AuditLog.mkReceipt "" "" "" "" 0 0 0 end.
Definition verified (until : Time) : bool := is_ok (archive_Verify (target until) contract (receipt until) env 0%nat []).1.1.
Lemma stored_ok : stored until = (Ok (receipt until), (stored until).1.2, (stored until).2).
Proof. vm_compute. reflexivity. Qed.
End examples.

Lemma archive_meets_its_contract_witness :
  (forall at_, at_ < examples.until -> ValidateArchiveReceipt [examples.event] (examples.receipt examples.until) at_ = Ok tt) /\
  (examples.stored examples.until).2 = [] ++ [archived (rc_ObjectKey (examples.receipt examples.until)) (Marshal (JArr (map event_json [examples.event]))) examples.until] /\
  (forall later k before, (archive_Verify (examples.target examples.until) examples.contract (examples.receipt examples.until) later k before).1.1 = Ok tt <->
     proves (rc_ObjectKey (examples.receipt examples.until)) (rc_VersionID (examples.receipt examples.until)) (Marshal (JArr (map event_json [examples.event])))
       examples.until (examples.target examples.until (HeadObject (rc_ObjectKey (examples.receipt examples.until)) (rc_VersionID (examples.receipt examples.until))) later k)).
Proof.
  exact (archive_meets_its_contract (examples.target examples.until) examples.contract "logs/" "minio" [examples.event] examples.until examples.env 0%nat []
    (examples.receipt examples.until) (examples.stored examples.until).1.2 (examples.stored examples.until).2 ltac:(discriminate)
    examples.stored_ok).
Defined.

(** The writer asks for a retention to the nanosecond: the target that keeps it
    to the millisecond is refused, whatever it stored. *)
Example purges_do_not_complete : (examples.verified examples.until, examples.verified (examples.until + 1)) = (true, false).
Proof. vm_compute. reflexivity. Qed.
