(* ===== verification/Scanner.v ===== *)
(** * The malware scanner

    [internal/adapters/malwarescanner]: the client of the ClamAV daemon and its
    INSTREAM protocol, the scanner that the quarantine is given.

    The daemon, the network and the reader of the body are parameters that answer
    at a tick; the state is what is left of the body and what the daemon has
    received. *)

From S2P Require Import Prelude GoString Crypto Json GoParse Database Keyring Storage Quarantine.

Definition defaultTimeout : Duration := 10 * Second.
Definition defaultChunk : Z := 32 * 1024.
Definition defaultMaxBytes : Z := 32 * 1024 * 1024.

Record ClamConfig := mkClamConfig { cl_Network : string; cl_Address : string; cl_Timeout : Duration; cl_ChunkSize : Z; cl_MaxBytes : Z }.

(** The fields of a client have the names of the configuration. *)
Definition clam_New (cfg : ClamConfig) : result ClamConfig :=
  if TrimSpace (cl_Address cfg) =s "" then Err (Errorf "clamav address is required" [])
  else Ok (mkClamConfig (if cl_Network cfg =s "" then "tcp" else cl_Network cfg) (cl_Address cfg)
             (if cl_Timeout cfg <=? 0 then defaultTimeout else cl_Timeout cfg)
             (if cl_ChunkSize cfg <=? 0 then defaultChunk else cl_ChunkSize cfg)
             (if cl_MaxBytes cfg <=? 0 then defaultMaxBytes else cl_MaxBytes cfg)).

(** [Read] hands out some bytes of the body, one at least and not more than the
    buffer has room for, or fails; the end is [io.EOF], with the last bytes or after
    them. [Write] takes a part of what it is given. *)
Class Daemon := {
  connect_answer : nat -> ClamConfig -> option error;
  read_answer : nat -> Z * option error;
  eof_with_data : nat -> bool;
  scan_write : nat -> string -> Z * option error;
  reply_to : nat -> string -> result string;
  ctx_error : nat -> option error
}.

Record Stream := mkStream { st_left : string; st_received : string }.

Section scan.
Context `{Daemon}.
Abbreviation N := (Database.M Stream).

Definition ctx_Err : N unit := fun _ n s => (match ctx_error n with Some err => Err err | None => Ok tt end, S n, s).
Definition clam_dial (c : ClamConfig) : N unit := fun _ n s =>
  (match connect_answer n c with Some err => Err err | None => Ok tt end, S n, s).

(** The bytes of a read, and its error: [None] inside for [io.EOF]. *)
Definition body_Read (size : Z) : N (string * option (option error)) := fun _ n s =>
  if st_left s =s "" then (Ok ("", Some None), S n, s)
  else
    let '(count, err) := read_answer n in
    let count := Z.to_nat (Z.max 1 (Z.min count size)) in
    let rest := sdrop count (st_left s) in
    (Ok (stake count (st_left s), match err with
                                  | Some err => Some (Some err)
                                  | None => if (rest =s "") && eof_with_data n then Some None else None
                                  end), S n, mkStream rest (st_received s)).

Definition sock_Write (payload : string) : N (Z * option error) := fun _ n s =>
  let '(count, err) := scan_write n payload in
  (Ok (count, err), S n, mkStream (st_left s) (st_received s +:+ stake (Z.to_nat count) payload)).

(** Each write takes a byte at least, or it is an error. *)
Fixpoint writeAll (fuel : nat) (payload : string) : N unit :=
  if payload =s "" then mret tt
  else
    match fuel with
    | O => mret tt
    | S fuel =>
      w ← sock_Write payload;
      match w with
      | (_, Some err) => fail err
      | (count, None) => if count <=? 0 then fail (Sentinel "io.ErrShortWrite") else writeAll fuel (sdrop (Z.to_nat count) payload)
      end
    end.
Definition write_all (format payload : string) : N unit :=
  r ← attempt (writeAll (String.length payload) payload);
  match r with Ok _ => mret tt | Err err => fail (Wrapf format [] err) end.

Definition PutUint32 (n : Z) : string := bytes_string (be_bytes 4 n).

Definition write_chunk (chunk : string) : N unit :=
  _ ← guard_not (4294967295 <? slen chunk) (Errorf "clamav protocol chunk length %d exceeds uint32 maximum" [FInt (slen chunk)]);
  _ ← write_all "write clamav chunk length: %w" (PutUint32 (slen chunk));
  write_all "write clamav chunk: %w" chunk.

(** The bytes that were read so far are what the digest is of; every round takes
    one more, and one is for the end. *)
Fixpoint stream_body (fuel : nat) (c : ClamConfig) (total : string) : N string :=
  match fuel with
  | O => mret total
  | S fuel =>
    _ ← ctx_Err;
    r ← body_Read (cl_ChunkSize c);
    let '(chunk, err) := (r : string * option (option error)) in
    let total := total +:+ chunk in
    _ ← (if 0 <? slen chunk then
           _ ← guard_not (cl_MaxBytes c <? slen total) (Errorf "clamav payload exceeds maximum size" []);
           write_chunk chunk
         else mret tt);
    match err with
    | Some None => mret total
    | Some (Some err) => fail (Wrapf "read clamav payload: %w" [] err)
    | None => stream_body fuel c total
    end
  end.

Definition nul : string := String zero "".

(** [io.ReadAll] of at most 8192 bytes. *)
Definition read_reply : N string := fun _ n s =>
  match reply_to n (st_received s) with Ok r => (Ok (stake (Z.to_nat 8192) r), S n, s) | Err err => (Err (Wrapf "read clamav response: %w" [] err), S n, s) end.

Definition evidence_id (key body response : string) : string := Sum256hex (key +:+ nul +:+ Sum256 body +:+ nul +:+ response).

Definition judge (key body response : string) (at_ : Time) : result ScanEvidence :=
  let evidence verdict := mkScan "clamav" (evidence_id key body response) verdict (UTC at_) in
  if HasSuffix response "OK" then Ok (evidence ScanVerdictClean)
  else if Contains response "FOUND" then Ok (evidence ScanVerdictMalicious)
  else Err (Errorf "unrecognized clamav response: %q" [FStr response]).

(** [given] is false for a body that is nil. *)
Definition clam_Scan (c : ClamConfig) (given : bool) (key : string) : N ScanEvidence :=
  _ ← guard_not (negb given) (Errorf "clamav body is required" []);
  _ ← ctx_Err;
  up ← attempt (clam_dial c);
  match up with
  | Err err => fail (Wrapf "connect to clamav: %w" [] err)
  | Ok _ =>
    _ ← write_all "start clamav stream: %w" ("zINSTREAM" +:+ nul);
    body ← (fun e n s => stream_body (S (String.length (st_left s))) c "" e n s);
    _ ← write_all "finish clamav stream: %w" (PutUint32 0);
    reply ← read_reply;
    let response := TrimSpace (TrimSuffix reply nul) in
    _ ← guard_not (response =s "") (Errorf "clamav returned an empty response" []);
    at_ ← now;
    lift (judge key body response at_)
  end.
End scan.

(** ** The daemon's side *)

Definition Uint32 (s : string) : Z := fold_left (fun z b => z * 256 + b) (string_bytes s) 0.

(** The chunks up to the empty one. *)
Fixpoint read_chunks (fuel : nat) (s : string) : option string :=
  match fuel with
  | O => None
  | S fuel =>
    if slen s <? 4 then None
    else
      let size := Uint32 (stake 4 s) in let rest := sdrop 4 s in
      if size =? 0 then (if rest =s "" then Some "" else None)
      else if slen rest <? size then None
      else match read_chunks fuel (sdrop (Z.to_nat size) rest) with
           | Some body => Some (stake (Z.to_nat size) rest +:+ body)
           | None => None
           end
  end.
Definition instream_body (s : string) : option string :=
  let start := "zINSTREAM" +:+ nul in
  if HasPrefix s start then read_chunks (S (String.length s)) (sdrop (String.length start) s) else None.

Lemma string_bytes_of l : Forall (fun z => 0 <= z < 256) l -> string_bytes (bytes_string l) = l.
Proof.
  unfold string_bytes, bytes_string. rewrite list_ascii_of_string_of_list_ascii. induction 1 as [|z l Hz _ IH]; [done|].
  cbn. by rewrite byte_val_of, IH.
Qed.

Lemma land_byte z : 0 <= Z.land z 255 < 256.
Proof. change 255 with (Z.ones 8). rewrite Z.land_ones by lia. apply Z.mod_pos_bound. lia. Qed.

Lemma Uint32_PutUint32 n : 0 <= n < 2 ^ 32 -> Uint32 (PutUint32 n) = n.
Proof.
  intros B. unfold Uint32, PutUint32. cbn [be_bytes app]. rewrite string_bytes_of.
  - cbn [fold_left]. change 255 with (Z.ones 8). rewrite !Z.land_ones, !Z.shiftr_div_pow2 by lia. change (2 ^ 8) with 256.
    rewrite !Z.div_div by lia. change (256 * 256) with 65536. change (65536 * 256) with 16777216.
    change (2 ^ 32) with 4294967296 in B.
    pose proof (Z.div_mod n 256 ltac:(lia)). pose proof (Z.div_mod (n / 256) 256 ltac:(lia)). pose proof (Z.div_mod (n / 65536) 256 ltac:(lia)).
    rewrite Z.div_div in * by lia. change (256 * 256) with 65536 in *. change (65536 * 256) with 16777216 in *.
    assert (n / 16777216 < 256) by (apply Z.div_lt_upper_bound; lia). pose proof (Z.div_pos n 16777216 ltac:(lia) ltac:(lia)).
    rewrite (Z.mod_small (n / 16777216)) by lia. lia.
  - repeat (apply Forall_cons; split; [apply land_byte|]). by apply Forall_nil.
Qed.

Lemma PutUint32_length n : String.length (PutUint32 n) = 4%nat.
Proof. reflexivity. Qed.

Definition encoded (chunks : list string) : string := fold_right (fun c s => PutUint32 (slen c) +:+ c +:+ s) "" chunks.
Definition sendable (c : string) : Prop := 0 < slen c < 2 ^ 32.

Lemma read_encoded_chunks chunks : Forall sendable chunks -> forall fuel, (length chunks < fuel)%nat ->
  read_chunks fuel (encoded chunks +:+ PutUint32 0) = Some (fold_right append "" chunks).
Proof.
  induction 1 as [|c chunks C _ IH]; intros [|fuel] F; cbn in F; try lia; [done|].
  cbn [encoded fold_right read_chunks]. fold (encoded chunks). set (rest := encoded chunks +:+ PutUint32 0) in *.
  rewrite !append_assoc. fold rest. unfold sendable in C.
  pose proof (stake_app (PutUint32 (slen c)) (c +:+ rest)) as T. pose proof (sdrop_app (PutUint32 (slen c)) (c +:+ rest)) as D.
  rewrite PutUint32_length in T, D. rewrite T, D, Uint32_PutUint32 by lia.
  rewrite (proj2 (Z.ltb_ge _ 4)), (proj2 (Z.eqb_neq _ 0)), (proj2 (Z.ltb_ge (slen (c +:+ rest)) _)).
  - unfold slen at 1 2. rewrite Nat2Z.id, stake_app, sdrop_app. by rewrite IH by lia.
  - rewrite slen_append. unfold slen at 3. lia.
  - lia.
  - rewrite slen_append. unfold slen at 1. rewrite PutUint32_length. unfold slen. lia.
Qed.

(** ** What was scanned *)

Section scanned.
Context `{Daemon}.

Lemma writeAll_ok fuel : forall payload e n s u n' s', (String.length payload <= fuel)%nat ->
  writeAll fuel payload e n s = (Ok u, n', s') -> s' = mkStream (st_left s) (st_received s +:+ payload).
Proof.
  induction fuel as [|fuel IH]; intros payload e n s u n' s' F E; cbn [writeAll] in E.
  - destruct payload; [|cbn in F; lia]. injection E as _ _ <-. rewrite append_nil_r. by destruct s.
  - destruct (payload =s "") eqn:P. { breflect. injection E as _ _ <-. rewrite P, append_nil_r. by destruct s. }
    unfold mbind, M_bind, sock_Write in E. destruct (scan_write n payload) as [count [err|]]; [done|].
    destruct (count <=? 0) eqn:C; [done|]. apply IH in E as ->; cbn [st_left st_received].
    + by rewrite append_assoc, stake_sdrop.
    + rewrite sdrop_length. breflect. destruct payload; [done|]. cbn in F |- *. lia.
Qed.

Lemma write_all_ok format payload e n s u n' s' : write_all format payload e n s = (Ok u, n', s') ->
  s' = mkStream (st_left s) (st_received s +:+ payload).
Proof.
  unfold write_all. intros E. run. destruct x; run. match goal with X : writeAll _ _ _ _ _ = _ |- _ => by apply writeAll_ok in X end.
Qed.

Lemma write_chunk_ok chunk e n s u n' s' : write_chunk chunk e n s = (Ok u, n', s') ->
  slen chunk < 2 ^ 32 /\ s' = mkStream (st_left s) (st_received s +:+ PutUint32 (slen chunk) +:+ chunk).
Proof.
  unfold write_chunk. intros E. run. breflect. repeat match goal with X : write_all _ _ _ _ _ = _ |- _ => apply write_all_ok in X as -> end.
  cbn [st_left st_received]. rewrite append_assoc. split; [lia|done].
Qed.

Lemma body_Read_ok size e n s chunk err n' s' : 1 <= size -> body_Read size e n s = (Ok (chunk, err), n', s') ->
  st_left s = chunk +:+ st_left s' /\ st_received s' = st_received s /\
  (chunk = "" <-> st_left s = "") /\ (st_left s = "" -> err = Some None) /\ (err = Some None -> st_left s' = "").
Proof.
  intros B. unfold body_Read. destruct (st_left s =s "") eqn:L.
  { intros [= <- <- _ <-]. breflect. rewrite L. by split_and!. }
  destruct (read_answer n) as [count failure]. intros [= <- <- _ <-]. breflect. cbn [st_left st_received].
  rewrite stake_sdrop. split_and!; [done|done| |done|].
  - split; [|done]. destruct (st_left s) as [|a l]; [done|].
    destruct (Z.to_nat (Z.max 1 (Z.min count size))) eqn:Z0; [lia|]. done.
  - destruct failure; [done|]. destruct (_ =s "") eqn:R; [by breflect|done].
Qed.

Lemma encoded_app chunks c : encoded (chunks ++ [c]) = encoded chunks +:+ PutUint32 (slen c) +:+ c.
Proof.
  induction chunks as [|d chunks IH]; [cbn; by rewrite append_nil_r|].
  change (encoded ((d :: chunks) ++ [c])) with (PutUint32 (slen d) +:+ d +:+ encoded (chunks ++ [c])). rewrite IH.
  change (encoded (d :: chunks)) with (PutUint32 (slen d) +:+ d +:+ encoded chunks). by rewrite !append_assoc.
Qed.

Lemma encoded_length chunks : (length chunks <= String.length (encoded chunks))%nat.
Proof.
  induction chunks as [|c chunks IH]; [cbn; lia|]. change (encoded (c :: chunks)) with (PutUint32 (slen c) +:+ c +:+ encoded chunks).
  rewrite !length_append, PutUint32_length. cbn [length]. lia.
Qed.

(** The chunks of a body that was read to its end. *)
Lemma stream_body_ok c fuel : 1 <= cl_ChunkSize c -> forall total e n s body n' s', (String.length (st_left s) < fuel)%nat ->
  stream_body fuel c total e n s = (Ok body, n', s') ->
  exists chunks, body = total +:+ st_left s /\ st_left s' = "" /\ fold_right append "" chunks = st_left s /\
    Forall sendable chunks /\ st_received s' = st_received s +:+ encoded chunks /\ (st_left s <> "" -> slen body <= cl_MaxBytes c).
Proof.
  intros B. induction fuel as [|fuel IH]; intros total e n s body n' s' F E; [lia|]. cbn [stream_body] in E. run.
  unfold ctx_Err in *. destruct (ctx_error n); [done|].
  match goal with X : (Ok _, _, _) = (Ok _, _, _) |- _ => injection X as _ <- <- end.
  destruct x2 as [chunk err]. match goal with X : body_Read _ _ _ _ = _ |- _ => apply body_Read_ok in X as (L & R & Z0 & X0 & X1); [|done] end.
  run. destruct (0 <? slen chunk) eqn:P; run; breflect.
  2: { assert (chunk = "") as Ec by (destruct chunk; [done|]; unfold slen in *; cbn in *; lia).
       assert (st_left s = "") as Ls by tauto. assert (err = Some None) as -> by tauto. clear X1. run. rewrite Ls in *. cbn in L.
       exists []. rewrite !append_nil_r. by split_and!. }
  repeat match goal with u : unit |- _ => destruct u end.
  match goal with X : write_chunk _ _ _ _ = _ |- _ => apply write_chunk_ok in X as [W ->] end.
  assert (chunk <> "") as Nc by (intros ->; unfold slen in *; cbn in *; lia). assert (st_left s <> "") as Ls by tauto.
  destruct err as [[err|]|]; run.
  { specialize (X1 eq_refl). rewrite X1, append_nil_r in L. exists [chunk]. cbn [st_left st_received]. rewrite <- L, R.
    split_and!; try done; try (cbn [fold_right encoded]; by rewrite ?append_nil_r).
    - constructor; [unfold sendable; rewrite L; lia|constructor].
    - intros _. by rewrite L. }
  match goal with X : stream_body _ _ _ _ _ _ = _ |- _ => apply IH in X as (chunks & -> & Le & C & S & R' & M) end; cbn [st_left st_received] in *.
  - exists (chunk :: chunks). cbn [fold_right]. rewrite C, <- L, R', R. split_and!; try done.
    + by rewrite append_assoc, <- L.
    + constructor; [|done]. unfold sendable. lia.
    + cbn [encoded fold_right]. fold (encoded chunks). by rewrite !append_assoc.
    + intros _. match type of L with _ = _ +:+ st_left ?t => destruct (decide (st_left t = "")) as [Z1|N1] end.
      * rewrite Z1, append_nil_r. done.
      * by apply M.
  - rewrite L, length_append in F. destruct chunk; [done|]. cbn in F. lia.
Qed.

Lemma answered {A B C} (a a' : A) (b b' : B) (c c' : C) : (Ok a, b, c) = (Ok a', b', c') -> a' = a /\ c' = c.
Proof. by intros [= -> -> ->]. Qed.

Lemma read_reply_ok e n s r n' s' : read_reply e n s = (Ok r, n', s') ->
  s' = s /\ exists k reply, reply_to k (st_received s) = Ok reply /\ r = stake (Z.to_nat 8192) reply.
Proof.
  unfold read_reply. destruct (reply_to n (st_received s)) as [reply|] eqn:R; [|done].
  intros E. apply answered in E as [-> ->]. split; [done|]. by exists n, reply.
Qed.

Lemma judge_ok key body response at_ evidence : judge key body response at_ = Ok evidence ->
  se_EvidenceID evidence = evidence_id key body response /\ se_Scanner evidence = "clamav" /\
  ((se_Verdict evidence = ScanVerdictClean /\ HasSuffix response "OK" = true) \/
   (se_Verdict evidence = ScanVerdictMalicious /\ HasSuffix response "OK" = false /\ Contains response "FOUND" = true)).
Proof.
  unfold judge. destruct (HasSuffix response "OK"); [intros [= <-]; cbn; auto|].
  destruct (Contains response "FOUND"); [intros [= <-]; cbn; auto 6|done].
Qed.

(** C37. A verdict is about the whole body: when a scan answers, whatever the
    reader, the network and the daemon did, the daemon was sent the body that was
    to be scanned, all of it and nothing else (what its protocol reads back is that
    body), within the limit; the verdict is what the daemon answered to that
    stream, clean only for an answer that ends in OK; and the identifier of the
    evidence is the digest of the key, of the digest of that body and of the
    answer. *)
Theorem verdicts_are_about_the_body config c given key body e n evidence n' s' : clam_New config = Ok c ->
  clam_Scan c given key e n (mkStream body "") = (Ok evidence, n', s') ->
  instream_body (st_received s') = Some body /\ slen body <= cl_MaxBytes c /\
  exists k reply response, reply_to k (st_received s') = Ok reply /\ response = TrimSpace (TrimSuffix (stake (Z.to_nat 8192) reply) nul) /\
    response <> "" /\ se_EvidenceID evidence = evidence_id key body response /\ se_Scanner evidence = "clamav" /\
    ((se_Verdict evidence = ScanVerdictClean /\ HasSuffix response "OK" = true) \/
     (se_Verdict evidence = ScanVerdictMalicious /\ HasSuffix response "OK" = false /\ Contains response "FOUND" = true)).
Proof.
  intros C E. assert (1 <= cl_ChunkSize c /\ 1 <= cl_MaxBytes c) as [B M].
  { unfold clam_New in C. destruct (_ =s ""); [done|]. injection C as <-. cbn [cl_ChunkSize cl_MaxBytes].
    unfold defaultChunk, defaultMaxBytes. destruct (cl_ChunkSize config <=? 0) eqn:?, (cl_MaxBytes config <=? 0) eqn:?; breflect; lia. }
  unfold clam_Scan in E. run. unfold ctx_Err, clam_dial in *. destruct (ctx_error _); [done|].
  repeat match goal with X : (_, _, _) = (_, _, _) |- _ => injection X as <- <- <- end.
  destruct (connect_answer _ _); run. match goal with X : write_all _ (_ +:+ nul) _ _ _ = _ |- _ => apply write_all_ok in X as -> end.
  match goal with X : stream_body _ _ _ _ _ _ = _ |- _ => apply stream_body_ok in X as (chunks & -> & Le & Ch & S & R & L); [|done|cbn; lia] end.
  match goal with X : write_all _ (PutUint32 0) _ _ _ = _ |- _ => apply write_all_ok in X as -> end.
  match goal with X : read_reply _ _ _ = _ |- _ => apply read_reply_ok in X as (-> & k & reply & Re & ->) end.
  cbn [st_left st_received] in *. breflect. remember (TrimSpace _) as response eqn:Er.
  rewrite !append_nil in *. split_and!.
  - unfold instream_body. rewrite R, append_assoc, HasPrefix_take, sdrop_app.
    rewrite read_encoded_chunks; [by rewrite Ch|done|]. rewrite !length_append. pose proof (encoded_length chunks). lia.
  - destruct (decide (body = "")) as [->|N]; [unfold slen; cbn; lia|]. by apply L.
  - exists k, reply, response. match goal with X : judge _ _ _ _ = Ok _ |- _ => apply judge_ok in X end. done.
Qed.
End scanned.

(** ** Witnesses *)

Module examples.
(** A daemon that finds the word "eicar" in what its protocol reads. *)
Definition daemon : Daemon := {|
  connect_answer := fun _ _ => None;
  read_answer := fun _ => (5, None);
  eof_with_data := fun n => Nat.even n;
  scan_write := fun _ _ => (3, None);
  reply_to := fun _ s => match instream_body s with
    | Some body => Ok ((if Contains body "eicar" then "stream: Eicar-Test FOUND" else "stream: OK") +:+ nul)
    | None => Ok "INSTREAM error ERROR" end;
  ctx_error := fun _ => None
|}.
Definition env : Env := mkEnv (fun n => Z.of_nat n) (fun n => "id") (fun _ => None) (fun _ _ => zero) false.
Definition config : ClamConfig := mkClamConfig "" "clamd:3310" 0 4 100.
Definition client : ClamConfig := mkClamConfig "tcp" "clamd:3310" defaultTimeout 4 100.
Definition run (body : string) := clam_Scan (H := daemon) client true "uploads/1" env 0%nat (mkStream body "").
Definition bad : string := "an eicar file".
Definition found : ScanEvidence := match (run bad).1.1 with Ok e => e | Err _ => noEvidence end.
Lemma made : clam_New config = Ok client.
Proof. reflexivity. Qed.
Lemma run_ok : run bad = (Ok found, (run bad).1.2, (run bad).2).
Proof. vm_compute. reflexivity. Qed.
End examples.

Lemma verdicts_are_about_the_body_witness :
  instream_body (st_received (examples.run examples.bad).2) = Some examples.bad /\ slen examples.bad <= cl_MaxBytes examples.client /\
  exists k reply response, @reply_to examples.daemon k (st_received (examples.run examples.bad).2) = Ok reply /\
    response = TrimSpace (TrimSuffix (stake (Z.to_nat 8192) reply) nul) /\ response <> "" /\
    se_EvidenceID examples.found = evidence_id "uploads/1" examples.bad response /\ se_Scanner examples.found = "clamav" /\
    ((se_Verdict examples.found = ScanVerdictClean /\ HasSuffix response "OK" = true) \/
     (se_Verdict examples.found = ScanVerdictMalicious /\ HasSuffix response "OK" = false /\ Contains response "FOUND" = true)).
Proof.
  exact (verdicts_are_about_the_body (H := examples.daemon) examples.config examples.client true "uploads/1" examples.bad examples.env 0%nat
    examples.found (examples.run examples.bad).1.2 (examples.run examples.bad).2 examples.made examples.run_ok).
Defined.

Example verdicts : (se_Verdict examples.found, match (examples.run "clean").1.1 with Ok e => se_Verdict e | Err _ => "" end,
  is_ok (examples.run (srepeat 30 "long")).1.1) = (ScanVerdictMalicious, ScanVerdictClean, false).
Proof. vm_compute. reflexivity. Qed.
